(* ===== verification/_CoqProject ===== *)
-Q . S2P
Prelude.v
Riscv.v
KState.v
Spinlock.v
KString.v
Kalloc.v
Vm.v
PageTable.v
Uspace.v
VmCorrect.v
Sched.v
SleepWake.v
Layout.v
Bio.v
Cache.v
Log.v
LogCorrect.v
Txn.v
Fs.v
FsBlocks.v
FsInode.v
FsFile.v
FsPath.v
FsDir.v
Uart.v
KPrintf.v
KPrintfCorrect.v
Console.v
Pipe.v
PipeCorrect.v
ConsoleCorrect.v
File.v
Process.v
ProcMem.v
ProcAlloc.v
ForkCorrect.v
WaitCorrect.v
Exec.v
Syscall.v
Virtio.v
VirtioCorrect.v
Trap.v
User.v
Ulib.v
Grep.v
Utils.v
PrimesCorrect.v
Sh.v
ShCorrect.v
ShTypes.v
Umalloc.v
UmallocCorrect.v
Mkfs.v
MkfsCorrect.v
Machine.v
Switch.v
Start.v
Grind.v
