(* ===== verification/Prelude.v ===== *)
(** * xv6 for RISC-V (MIT 6.S081): a verification development

    xv6 is a small Unix: a multiprocessor kernel for RISC-V with virtual
    memory, processes, a crash-safe file system on a virtio disk, pipes and a
    console (kernel/), its user programs (user/), and the host program that
    makes the disk image (mkfs/). This library translates them function by
    function into executable definitions and proves what they promise.

    ** How code becomes definitions

    - Integers are [Z], kept at the width of their C type by [u8], [u16],
      [u32], [u64], [i16], [i32], [i64] wherever the C arithmetic can wrap.
    - Memory is a map from physical addresses to bytes; page tables, the free
      list and trapframes live in it at the addresses the code computes.
      Objects of static tables (processes, buffers, inodes, files) are indices,
      and the global variables are the fields of one record, [kstate] of
      KState.
    - Code with effects is in the monad [M S] of this file. An outcome is a
      value with a new state ([Ret]), a stop ([Stop]: a panic with its message,
      an access outside the objects of the model, an exit, or the end of the
      fuel), or a [Switch], at which a thread gives up its hart: [sched]
      yields a state and goes on with the state that the other threads leave.
      A theorem about code that sleeps therefore quantifies over what happens
      meanwhile. Disk input and output is the exception: the buffer cache calls
      [disk_rw], which transfers a block in one step without giving up the hart,
      so the theorems about the file system have no other thread running while
      the disk works. [virtio_disk_rw_correct] justifies this step for one
      request on an idle disk.
    - Where the order of single memory accesses matters, the code is a step
      relation instead: the spin lock of many harts ([Smp] in Spinlock), and
      [sleep] against [wakeup] (SleepWake).
    - Assembly is lists of instructions run by the machine of Machine.
    - User programs and mkfs run over a class of system calls, [Unix] of User
      and [Posix] of Mkfs, whose laws are stated where a theorem needs them.

    ** The parts and their files

    - This file: integers, memory, the monad and its rules. Riscv: constants,
      page-table entries and address arithmetic of riscv.h, memlayout.h and
      param.h. KState: the structures of the headers and the global variables.
    - Spinlock (spinlock.c), Sched (proc.c, sleeplock.c), SleepWake, Process
      (proc.c: fork, exit, wait): locks and processes. ProcMem, ProcAlloc,
      ForkCorrect and WaitCorrect follow the memory of a process through its
      life, on top of the address spaces of Uspace: [proc_table] is the table of
      a process with the trampoline and its trapframe.
    - KString (string.c), Kalloc (kalloc.c), Vm (vm.c) with PageTable, Uspace
      and VmCorrect: memory. Vm calls [kalloc] and [kfree]; a page table and
      the free list are kept apart by [own], and [uspace] says which physical
      pages an address space owns.
    - Bio (bio.c), Log (log.c), Fs (fs.c), over the layout of fs.h in Layout:
      the file system. Cache states what the buffer cache promises to the log,
      Txn what the log promises to the file system; FsBlocks, FsInode,
      FsFile, FsPath and FsDir are proved against these interfaces.
    - Virtio (virtio_disk.c) and VirtioCorrect: the disk driver. The cache
      is built on the transfer [disk_rw] of one block, which the driver and a
      device that obeys the class [Device] are shown to implement.
    - Uart (uart.c), KPrintf (printf.c), Console (console.c), KPrintfCorrect,
      ConsoleCorrect; Pipe (pipe.c), PipeCorrect; File (file.c).
    - Exec (exec.c), Syscall (syscall.c, sysproc.c, sysfile.c), Trap (trap.c,
      plic.c, main.c): the kernel as user programs reach it.
    - Machine, Switch (swtch.S, trampoline.S, kernelvec.S), Start (entry.S,
      start.c, timervec): the assembly and machine mode.
    - User, Ulib (ulib.c, printf.c), Grep, Utils, PrimesCorrect, Sh, ShCorrect,
      ShTypes, Umalloc, UmallocCorrect, Grind: user/. Mkfs, MkfsCorrect: mkfs.c.

    ** What the theorems show

    - Locks and processes: two harts are never in one critical section
      ([mutual_exclusion]); [sleep] gives up the lock and gets it back
      ([sleep_switches]) and no wakeup is lost ([no_lost_wakeup]); [fork]
      makes a copy of the caller or gives back what it took ([fork_copies]),
      and [wait] takes back every page of the child ([wait_reaps]).
    - Memory: [kalloc] gives pages that nobody holds ([kalloc_fresh]) out of
      all that the machine has ([kinit_all_pages]); mappings translate as
      asked ([mappages_translates]); growing and copying an address space is
      all or nothing ([uvmalloc_all_or_nothing], [uvmcopy_copies]); copies to
      and from user space are exact, stay within user pages and check
      strings ([copyout_isolated], [copyout_copyin], [copyinstr_correct]).
      [memmove], [strncmp], [strncpy] and [safestrcpy] do what they should
      ([memmove_correct], [strncmp_correct], [bounded_copies]).
    - File system: commits are atomic over a crash at any point of their writes
      ([end_op_atomic]) and reach the disk ([transaction_durable]); the cache
      gives each block its latest contents ([bread_write_release]); the bitmap
      is a set ([balloc_bfree]), files are byte sequences ([writei_readi]),
      directories are maps ([dir_refines]), paths are lists of names
      ([skipelem_elems]). mkfs makes such a file system with the files given
      ([mkfs_image]). [log_reservation_gap] is a defect: [begin_op] admits
      more than [log_write] accepts.
    - Devices: a disk request is a block transfer ([virtio_disk_rw_correct]);
      pipes are bounded queues whose writers wait while they are full and whose
      readers wait while they are empty ([pipe_fifo]); the console is a line editor
      ([console_lines]); [printf] and [panic] print what they are told
      ([kernel_prints]).
    - Machine code: a trap into the kernel and back is invisible to the user
      program ([trap_roundtrip]), as is an interrupt to the kernel
      ([kernelvec_transparent]); [swtch] resumes threads ([swtch_resumes]); a
      hart boots into [main] and its timer ticks ([timer_ticks]).
    - User programs: the shell's parser ends, types and inverts its printer
      ([parsecmd_total], [parsecmd_typed], [parse_print]); [malloc] and
      [free] keep blocks apart ([malloc_free_disjoint]); grep matches regular
      expressions and prints the lines that match ([match_correct],
      [grep_selects]); [printf], [atoi] and [gets] ([printf_atoi],
      [gets_line]); the processes of the sieve print the primes below
      36, whatever [fork] answers ([primes_prints]); the random numbers of grind
      have full period and need no [long] ([rand_full_period]).

    ** Fuel and bounds

    Loops run under [loopM] with a bound that the theorems show to be enough.
    Loops over a table or a list have its size as bound ([NBUF + 2] for the
    buffer list, the number of pages, bytes or blocks asked for). A number has
    at most 32 digits. Loops that wait for another thread have [k_fuel], a
    field of the state that may be any number: the theorems hold for each one
    that is large enough to let the thread go on, and a thread that is not
    woken up never returns in the code either. The shell's parser has
    [parse_fuel], four levels of the grammar for each character, enough by
    [parsecmd_total]. The input loops of user programs take [fuel] as an
    argument, and the theorems ask for one more than the length of the input.

    ** Not modelled

    - user/usertests.c and user/xargstest.sh are tests: they call the kernel
      and compare answers, and nothing depends on them.
    - user/usys.pl generates the system call stubs and user/initcode.S is the
      first program, which executes init; its bytes are [initcode] of Process.
    - kernel/ramdisk.c is not part of the build. kernel/defs.h and
      user/user.h have prototypes only. The Makefile and the grading scripts
      are not part of the system.
    - The hardware below the code: instruction fetch, the timing of devices and
      the memory model below single accesses. Address translation in the
      assembly is a parameter, the disk an instance of [Device], the registers
      of the serial port and of the interrupt controller answer from lists in
      the state, and the addresses that the linker chooses are those of the
      class [Image].
    - In the shell, that [malloc] may return 0, which the code does not
      check. *)

From stdpp Require Export base tactics list gmap strings numbers option ssreflect.
From coqutil Require Import Z.bitblast.
#[export] Set Default Goal Selector "!".
Open Scope Z_scope.
Coercion Z.of_nat : nat >-> Z.

(** ** Fixed-width integers

    C integers are [Z] with the wrap-around written out: [uN] is the value
    of an N-bit unsigned conversion, [iN] of a signed one. [char] is
    unsigned in the RISC-V ABI, so a character is a byte [0..255]. *)

(** [zlia] is [lia] with [/] and [mod] turned into their equations. *)
Ltac zlia := Z.div_mod_to_equations; lia.

Definition u8 (x : Z) : Z := x mod 256.
Definition u16 (x : Z) : Z := x mod 65536.
Definition u32 (x : Z) : Z := x mod 4294967296.
Definition u64 (x : Z) : Z := x mod 18446744073709551616.
Definition i16 (x : Z) : Z := (x + 32768) mod 65536 - 32768.
Definition i32 (x : Z) : Z := (x + 2147483648) mod 4294967296 - 2147483648.
Definition i64 (x : Z) : Z := (x + 2 ^ 63) mod 2 ^ 64 - 2 ^ 63.

Lemma u8_range x : 0 ≤ u8 x < 256.
Proof. unfold u8. zlia. Qed.
Lemma u32_range x : 0 ≤ u32 x < 4294967296.
Proof. unfold u32. zlia. Qed.
Lemma u64_range x : 0 ≤ u64 x < 18446744073709551616.
Proof. unfold u64. zlia. Qed.
Lemma i32_range x : -2147483648 ≤ i32 x < 2147483648.
Proof. unfold i32. zlia. Qed.

Lemma u8_small x : 0 ≤ x < 256 → u8 x = x.
Proof. unfold u8. zlia. Qed.
Lemma u16_small x : 0 ≤ x < 65536 → u16 x = x.
Proof. unfold u16. zlia. Qed.
Lemma u32_small x : 0 ≤ x < 4294967296 → u32 x = x.
Proof. unfold u32. zlia. Qed.
Lemma u64_small x : 0 ≤ x < 18446744073709551616 → u64 x = x.
Proof. unfold u64. zlia. Qed.
Lemma i16_small x : -32768 ≤ x < 32768 → i16 x = x.
Proof. unfold i16. zlia. Qed.
Lemma i32_small x : -2147483648 ≤ x < 2147483648 → i32 x = x.
Proof. unfold i32. zlia. Qed.
Lemma i64_small x : - 2 ^ 63 ≤ x < 2 ^ 63 → i64 x = x.
Proof. unfold i64. zlia. Qed.

(** Database of the width lemmas: [auto with width] closes range goals. *)
Create HintDb width.
#[export] Hint Resolve u8_range u32_range u64_range i32_range : width.

(** [b2z] is C's [int] value of a comparison. *)
Definition b2z (b : bool) : Z := if b then 1 else 0.

(** ** Little-endian encoding of integers as bytes *)

Fixpoint le_enc (n : nat) (v : Z) : list Z :=
  match n with
  | O => []
  | S n => v mod 256 :: le_enc n (v / 256)
  end.

Fixpoint le_dec (l : list Z) : Z :=
  match l with
  | [] => 0
  | b :: l => b + 256 * le_dec l
  end.

Definition is_byte (b : Z) : Prop := 0 ≤ b < 256.

Lemma length_le_enc n v : length (le_enc n v) = n.
Proof. revert v; induction n as [|n IH]; intros v; simpl; [done|by rw IH]. Qed.

Lemma le_enc_bytes n v : Forall is_byte (le_enc n v).
Proof.
  revert v; induction n as [|n IH]; intros v; simpl; constructor; [|done].
  unfold is_byte; zlia.
Qed.

Lemma le_dec_enc n v : le_dec (le_enc n v) = v mod 256 ^ Z.of_nat n.
Proof.
  revert v; induction n as [|n IH]; intros v.
  - simpl. by rw Z.mod_1_r.
  - cbn [le_enc le_dec]. rw IH Nat2Z.inj_succ Z.pow_succ_r; [|lia].
    rw Z.rem_mul_r; lia.
Qed.

Lemma le_dec_range l :
  Forall is_byte l → 0 ≤ le_dec l < 256 ^ Z.of_nat (length l).
Proof.
  induction 1 as [|b l Hb Hl IH]; [simpl; lia|].
  cbn [le_dec length]. rw Nat2Z.inj_succ Z.pow_succ_r; [|lia].
  unfold is_byte in Hb. nia.
Qed.

Lemma le_enc_dec l : Forall is_byte l → le_enc (length l) (le_dec l) = l.
Proof.
  induction 1 as [|b l Hb Hl IH]; [done|]. cbn [length le_enc le_dec].
  unfold is_byte in Hb. f_equal.
  - zlia.
  - by replace ((b + 256 * le_dec l) / 256) with (le_dec l) by zlia.
Qed.

(** ** Byte-addressed memory

    Physical memory is a finite map from addresses to bytes; an address
    that was never written reads as zero. *)

Abbreviation bytemem := (gmap Z Z) (only parsing).

Definition ldb (m : bytemem) (a : Z) : Z := default 0 (m !! a).

Fixpoint ldn (n : nat) (m : bytemem) (a : Z) : list Z :=
  match n with
  | O => []
  | S n => ldb m a :: ldn n m (a + 1)
  end.

Fixpoint stn (m : bytemem) (a : Z) (l : list Z) : bytemem :=
  match l with
  | [] => m
  | b :: l => stn (<[a := b]> m) (a + 1) l
  end.

Definition ld64 (m : bytemem) (a : Z) : Z := le_dec (ldn 8 m a).
Definition st64 (m : bytemem) (a v : Z) : bytemem := stn m a (le_enc 8 v).

Lemma length_ldn n m a : length (ldn n m a) = n.
Proof. revert a; induction n as [|n IH]; intros a; simpl; [done|by rw IH]. Qed.

Lemma ldb_insert m a b x : ldb (<[a := b]> m) x = if decide (a = x) then b else ldb m x.
Proof. unfold ldb. rw lookup_insert. by case_decide. Qed.

Lemma ldb_stn l : ∀ m a x,
  ldb (stn m a l) x =
    if decide (a ≤ x < a + length l) then l !!! Z.to_nat (x - a) else ldb m x.
Proof.
  induction l as [|b l IH]; intros m a x; cbn [stn length].
  - rw decide_False; [done|lia].
  - rw IH ldb_insert. repeat case_decide; subst; try lia.
    + by replace (Z.to_nat (x - a)) with (S (Z.to_nat (x - (a + 1)))) by lia.
    + by replace (Z.to_nat (x - x)) with 0%nat by lia.
Qed.

Lemma lookup_ldn n m a (i : nat) : (i < n)%nat → ldn n m a !! i = Some (ldb m (a + i)).
Proof.
  revert a i; induction n as [|n IH]; intros a i Hi; [lia|].
  destruct i as [|i]; simpl.
  - by rw Z.add_0_r.
  - rw IH; [|lia]. do 2 f_equal. lia.
Qed.

Lemma ldn_ext (n : nat) m m' a a' :
  (∀ i, 0 ≤ i < n → ldb m (a + i) = ldb m' (a' + i)) → ldn n m a = ldn n m' a'.
Proof.
  revert a a'; induction n as [|n IH]; intros a a' H; simpl; [done|]. f_equal.
  - specialize (H 0). rw !Z.add_0_r in H. apply H. lia.
  - apply IH. intros i Hi. rw -!Z.add_assoc. apply H. lia.
Qed.

Lemma ldn_stn_same l m a : ldn (length l) (stn m a l) a = l.
Proof.
  apply list_eq. intros i.
  destruct (decide (i < length l)%nat) as [Hi|Hi].
  - rw lookup_ldn; [|done]. rw ldb_stn decide_True; [|lia].
    replace (Z.to_nat (a + i - a)) with i by lia.
    symmetry. by apply list_lookup_lookup_total_lt.
  - rw !lookup_ge_None_2 //; rw ?length_ldn; lia.
Qed.

Lemma ldn_stn_disj (n : nat) m a l x :
  (x + n ≤ a ∨ a + length l ≤ x) → ldn n (stn m a l) x = ldn n m x.
Proof. intros H. apply ldn_ext. intros i Hi. rw ldb_stn decide_False //. lia. Qed.

Lemma ld64_st64 m a v : 0 ≤ v < 2 ^ 64 → ld64 (st64 m a v) a = v.
Proof.
  intros Hv. unfold ld64, st64.
  rewrite <-(length_le_enc 8 v) at 1. rw ldn_stn_same le_dec_enc.
  by apply Z.mod_small.
Qed.

Lemma ld64_st64_ne m a v x :
  (x + 8 ≤ a ∨ a + 8 ≤ x) → ld64 (st64 m a v) x = ld64 m x.
Proof.
  intros H. unfold ld64, st64. by rw ldn_stn_disj.
Qed.

Lemma ld64_stn_disj m a l x :
  (x + 8 ≤ a ∨ a + length l ≤ x) → ld64 (stn m a l) x = ld64 m x.
Proof. intros H. unfold ld64. by rw ldn_stn_disj. Qed.

(** The characters of a string literal. *)
Definition str (s : string) : list Z :=
  (λ a, Z.of_N (Ascii.N_of_ascii a)) <$> String.list_ascii_of_string s.

(** ** Arrays indexed by C integers *)

Definition zget {A} `{!Inhabited A} (l : list A) (i : Z) : A := l !!! Z.to_nat i.
Definition zset {A} (l : list A) (i : Z) (x : A) : list A := <[Z.to_nat i := x]> l.

Lemma list_alter_same {A} (l : list A) i f x :
  l !! i = Some x → f x = x → alter f i l = l.
Proof.
  intros Hi Hf. apply list_eq. intros j. rw list_lookup_alter.
  case_decide; [|done]. subst. by rw Hi /= Hf.
Qed.

Lemma list_alter_insert {A} (l : list A) i f x :
  l !! i = Some x → alter f i l = <[i := f x]> l.
Proof.
  intros Hi. apply list_eq. intros j. destruct (decide (i = j)) as [<-|].
  - rw list_lookup_alter_eq Hi list_lookup_insert_eq //. by eapply lookup_lt_Some.
  - by rw list_lookup_alter_ne // list_lookup_insert_ne.
Qed.

Lemma list_alter_alter {A} (l : list A) i f g :
  alter f i (alter g i l) = alter (λ x, f (g x)) i l.
Proof.
  apply list_eq. intros j. destruct (decide (i = j)) as [<-|].
  - rw !list_lookup_alter_eq. by destruct (l !! i).
  - by rw !list_lookup_alter_ne.
Qed.

(** ** The state, stop and context-switch monad

    A piece of C code run on a state of type [S] either returns a value
    with the new state ([Ret]), stops the machine or the process for good
    ([Stop]), or gives the hart away with [swtch] ([Switch]): the state at
    that point and the rest of the computation, to be resumed on whatever
    state the other threads have left. *)

Inductive stop : Type :=
| Panic (msg : string)   (** [panic(msg)]: the kernel halts *)
| Exit (status : Z)      (** a user program's [exit(status)] *)
| Fault                  (** an access through a null or wild pointer *)
| Spin                   (** a busy-wait that no step of this thread ends *)
| NoFuel.                (** the bound on the iterations of a loop was reached *)

Inductive outcome (S A : Type) : Type :=
| Ret (a : A) (s : S)
| Stop (w : stop) (s : S)
| Switch (s : S) (k : S → outcome S A).
Arguments Ret {S A} a s.
Arguments Stop {S A} w s.
Arguments Switch {S A} s k.

Fixpoint obind {S A B} (o : outcome S A) (f : A → S → outcome S B) : outcome S B :=
  match o with
  | Ret a s => f a s
  | Stop w s => Stop w s
  | Switch s k => Switch s (λ s', obind (k s') f)
  end.

Definition M (S A : Type) : Type := S → outcome S A.

#[export] Instance M_ret S : MRet (M S) := λ A a s, Ret a s.
#[export] Instance M_bind S : MBind (M S) := λ A B f m s, obind (m s) f.

Section ops.
Context {S : Type}.

Definition gets {A} (f : S → A) : M S A := λ s, Ret (f s) s.
Definition modify (f : S → S) : M S unit := λ s, Ret tt (f s).
Definition stop_with {A} (w : stop) : M S A := λ s, Stop w s.
Definition panic {A} (msg : string) : M S A := stop_with (Panic msg).
Definition fault {A} : M S A := stop_with Fault.

(** [swtch] to the scheduler and back. *)
Definition swtch : M S unit := λ s, Switch s (λ s', Ret tt s').

Definition whenM (b : bool) (m : M S unit) : M S unit :=
  if b then m else mret tt.

(** A pointer or table entry that must exist. *)
Definition deref {A} (o : option A) : M S A :=
  match o with Some x => mret x | None => fault end.

(** [for (i in l) { ...; if (...) return r; }] *)
Fixpoint forM {I R} (l : list I) (body : I → M S (option R)) : M S (option R) :=
  match l with
  | [] => mret None
  | i :: l =>
      r ← body i;
      match r with Some r => mret (Some r) | None => forM l body end
  end.

(** [for (i in l) body] without an early exit. *)
Fixpoint eachM {I} (l : list I) (body : I → M S unit) : M S unit :=
  match l with
  | [] => mret tt
  | i :: l => body i ;; eachM l body
  end.

(** A loop with local variables [x]: [body x] gives either the variables
    of the next iteration or the value the loop is left with. *)
Fixpoint loopM {X R} (fuel : nat) (body : X → M S (X + R)) (x : X) : M S R :=
  match fuel with
  | O => stop_with NoFuel
  | Datatypes.S fuel =>
      r ← body x;
      match r with inl x' => loopM fuel body x' | inr r => mret r end
  end.
End ops.

(** Code on a part of the state, run on the whole: [get] and [set] are the
    view of the part. *)
Fixpoint ozoom {S T A} (get : T → S) (set : S → T → T) (o : outcome S A) (t : T)
    : outcome T A :=
  match o with
  | Ret a s => Ret a (set s t)
  | Stop w s => Stop w (set s t)
  | Switch s k => Switch (set s t) (λ t', ozoom get set (k (get t')) t')
  end.
Definition zoom {S T A} (get : T → S) (set : S → T → T) (m : M S A) : M T A :=
  λ t, ozoom get set (m (get t)) t.

(** *** Reasoning by equations *)

Lemma bind_Ret {S A B} (m : M S A) (f : A → M S B) s a s' :
  m s = Ret a s' → (m ≫= f) s = f a s'.
Proof. intros H. unfold mbind, M_bind. by rw H. Qed.

Lemma bind_Stop {S A B} (m : M S A) (f : A → M S B) s w s' :
  m s = Stop w s' → (m ≫= f) s = Stop w s'.
Proof. intros H. unfold mbind, M_bind. by rw H. Qed.

Lemma bind_Switch {S A B} (m : M S A) (f : A → M S B) s s' k :
  m s = Switch s' k → (m ≫= f) s = Switch s' (λ t, obind (k t) f).
Proof. intros H. unfold mbind, M_bind. by rw H. Qed.

Lemma bind_gets {S A B} (g : S → A) (f : A → M S B) s : (gets g ≫= f) s = f (g s) s.
Proof. done. Qed.
Lemma bind_modify {S B} (g : S → S) (f : unit → M S B) s :
  (modify g ≫= f) s = f tt (g s).
Proof. done. Qed.
Lemma bind_mret {S A B} (a : A) (f : A → M S B) s : (mret a ≫= f) s = f a s.
Proof. done. Qed.
Lemma bind_assoc {S A B C} (m : M S A) (f : A → M S B) (g : B → M S C) s a s' :
  m s = Ret a s' → ((m ≫= f) ≫= g) s = (f a ≫= g) s'.
Proof. intros H. unfold mbind, M_bind. by rw H. Qed.

Lemma zoom_Ret {S T A} get set (m : M S A) (t : T) a s :
  m (get t) = Ret a s → zoom get set m t = Ret a (set s t).
Proof. intros H. unfold zoom. by rw H. Qed.
Lemma zoom_Stop {S T A} get set (m : M S A) (t : T) w s :
  m (get t) = Stop w s → zoom get set m t = Stop w (set s t).
Proof. intros H. unfold zoom. by rw H. Qed.

(** [mstep H] runs the first command of the goal with [H : m s = ...];
    [msimp] runs the commands that only look at the state. *)
Ltac mstep H :=
  first [ rewrite -> (bind_Ret _ _ _ _ _ H)
        | rewrite -> (bind_Stop _ _ _ _ _ H)
        | rewrite -> (bind_Switch _ _ _ _ _ H)
        | rewrite -> (bind_assoc _ _ _ _ _ _ H)
        | rewrite -> H ].
Ltac msimp :=
  repeat first [ rewrite -> bind_gets | rewrite -> bind_modify | rewrite -> bind_mret ].

(** [mrun] computes with the monad's own operations and nothing else. *)
Ltac mrun :=
  cbv beta iota zeta delta
    [mbind M_bind mret M_ret gets modify stop_with panic fault deref id whenM zoom];
  cbn [obind ozoom].

Tactic Notation "mrw" uconstr(H) := repeat (rewrite -> H; mrun; cbn).

(** *** Reasoning by weakest preconditions

    [owp R G Q E o]: the outcome [o] ends with a value and state in [Q], or
    stops as [E] allows; at every context switch the state satisfies [G],
    and the thread is resumed on a state that [R] relates to it. *)

Section wp.
Context {S : Type} (R : S → S → Prop) (G : S → Prop).

Fixpoint owp {A} (Q : A → S → Prop) (E : stop → S → Prop) (o : outcome S A) : Prop :=
  match o with
  | Ret a s => Q a s
  | Stop w s => E w s
  | Switch s k => G s ∧ ∀ s', R s s' → owp Q E (k s')
  end.

Lemma owp_mono {A} (Q Q' : A → S → Prop) (E E' : stop → S → Prop) o :
  (∀ a s, Q a s → Q' a s) → (∀ w s, E w s → E' w s) → owp Q E o → owp Q' E' o.
Proof. intros HQ HE. induction o as [| |s k IH]; simpl; auto. intros [? Hk]; auto. Qed.

Lemma owp_bind {A B} (Q : B → S → Prop) E (m : M S A) (f : A → M S B) s :
  owp (λ a s', owp Q E (f a s')) E (m s) → owp Q E ((m ≫= f) s).
Proof.
  unfold mbind, M_bind. generalize (m s) as o.
  induction o as [| |s' k IH]; simpl; [done|done|].
  intros [HG Hk]. split; [done|]. intros s'' HR. by apply IH, Hk.
Qed.

Lemma owp_forM {I X} (l : list I) (body : I → M S (option X)) (P : S → Prop)
    (Q : option X → S → Prop) E s :
  (∀ s, P s → Q None s) →
  (∀ i s, i ∈ l → P s →
     owp (λ r s', match r with Some x => Q (Some x) s' | None => P s' end) E (body i s)) →
  P s → owp Q E (forM l body s).
Proof.
  intros HN. revert s. induction l as [|i l IH]; intros s Hb HP; simpl; [by apply HN|].
  apply owp_bind. eapply owp_mono; [| |apply Hb; [by left|done]]; [|done].
  intros [x|] s' H; simpl; [done|]. apply IH; [|done].
  intros j t Hj. apply Hb. by right.
Qed.

Lemma owp_eachM {I} (l : list I) (body : I → M S unit) (P : S → Prop) E s :
  (∀ i s, i ∈ l → P s → owp (λ _, P) E (body i s)) →
  P s → owp (λ _, P) E (eachM l body s).
Proof.
  revert s. induction l as [|i l IH]; intros s Hb HP; simpl; [done|].
  apply owp_bind. eapply owp_mono; [| |apply Hb; [by left|done]]; [|done].
  intros u s' HP'. apply IH; [|done]. intros j t Hj. apply Hb. by right.
Qed.
End wp.

(** Two special cases: code that returns without giving the hart away, and
    code that, on top of that, does not stop. *)
Definition returns {S A} (m : M S A) (s : S) (Q : A → S → Prop) : Prop :=
  ∃ a s', m s = Ret a s' ∧ Q a s'.

Lemma returns_bind {S A B} (m : M S A) (f : A → M S B) s Q :
  returns m s (λ a s', returns (f a) s' Q) → returns (m ≫= f) s Q.
Proof.
  intros (a & s' & Hm & b & t & Hf & HQ). exists b, t.
  by rewrite -> (bind_Ret _ _ _ _ _ Hm).
Qed.

Lemma returns_mono {S A} (m : M S A) s (Q Q' : A → S → Prop) :
  (∀ a s, Q a s → Q' a s) → returns m s Q → returns m s Q'.
Proof. intros HQ (a & s' & Hm & H). exists a, s'. auto. Qed.

Lemma returns_mret {S A} (a : A) (s : S) (Q : A → S → Prop) :
  Q a s → returns (mret a) s Q.
Proof. intros H. by exists a, s. Qed.

(** An invariant kept by every loop iteration is kept by the loop, which
    then ends within as many iterations as the measure [μ] allows. *)
Lemma returns_loopM {S X R} (body : X → M S (X + R)) (I : X → S → Prop)
    (μ : X → S → nat) (Q : R → S → Prop) :
  (∀ x s, I x s → returns (body x) s (λ r s',
     match r with inl x' => I x' s' ∧ (μ x' s' < μ x s)%nat | inr r => Q r s' end)) →
  ∀ fuel x s, I x s → (μ x s < fuel)%nat → returns (loopM fuel body x) s Q.
Proof.
  intros Hb. induction fuel as [|fuel IH]; intros x s HI Hf; [lia|].
  cbn [loopM]. apply returns_bind. eapply returns_mono; [|by apply Hb].
  intros r s' H. destruct r as [x'|r].
  - apply IH; [naive_solver|lia].
  - by apply returns_mret.
Qed.
