(* ===== verification/Riscv.v ===== *)
(** * Machine constants and address arithmetic

    The macros of [kernel/riscv.h], [kernel/memlayout.h] and
    [kernel/param.h]: page rounding, the fields of an Sv39 page-table entry
    and of a virtual address, the interrupt-enable bit of [sstatus], and the
    lemmas that say what the shifts and masks compute. *)

From coqutil Require Import Z.bitblast.
From S2P Require Import Prelude.
Open Scope Z_scope.

(** ** param.h *)
Definition NPROC : nat := 64.
Definition NCPU : nat := 8.
Definition NOFILE : nat := 16.
Definition NFILE : nat := 100.
Definition NINODE : nat := 50.
Definition NDEV : nat := 10.
Definition ROOTDEV : Z := 1.
Definition MAXARG : Z := 32.
Definition MAXOPBLOCKS : Z := 10.
Definition LOGSIZE : Z := MAXOPBLOCKS * 3.
Definition NBUF : nat := 30.
Definition FSSIZE : Z := 1000.
Definition MAXPATH : Z := 128.

(** ** riscv.h: pages *)
Definition PGSIZE : Z := 4096.
Definition PGSHIFT : Z := 12.
Definition PGROUNDUP (sz : Z) : Z :=
  Z.land (u64 (sz + PGSIZE - 1)) (u64 (Z.lnot (PGSIZE - 1))).
Definition PGROUNDDOWN (a : Z) : Z := Z.land a (u64 (Z.lnot (PGSIZE - 1))).

Definition PTE_V : Z := Z.shiftl 1 0.
Definition PTE_R : Z := Z.shiftl 1 1.
Definition PTE_W : Z := Z.shiftl 1 2.
Definition PTE_X : Z := Z.shiftl 1 3.
Definition PTE_U : Z := Z.shiftl 1 4.

Definition PA2PTE (pa : Z) : Z := u64 (Z.shiftl (Z.shiftr pa 12) 10).
Definition PTE2PA (pte : Z) : Z := u64 (Z.shiftl (Z.shiftr pte 10) 12).
Definition PTE_FLAGS (pte : Z) : Z := Z.land pte 0x3FF.

Definition PXMASK : Z := 0x1FF.
Definition PXSHIFT (level : Z) : Z := PGSHIFT + 9 * level.
Definition PX (level va : Z) : Z := Z.land (Z.shiftr va (PXSHIFT level)) PXMASK.
Definition MAXVA : Z := Z.shiftl 1 (9 + 9 + 9 + 12 - 1).

Definition SATP_SV39 : Z := Z.shiftl 8 60.
Definition MAKE_SATP (pagetable : Z) : Z := Z.lor SATP_SV39 (Z.shiftr pagetable 12).

(** ** riscv.h: control and status bits *)
Definition SSTATUS_SPP : Z := Z.shiftl 1 8.
Definition SSTATUS_SPIE : Z := Z.shiftl 1 5.
Definition SSTATUS_SIE : Z := Z.shiftl 1 1.

(** ** memlayout.h *)
Definition UART0 : Z := 0x10000000.
Definition UART0_IRQ : Z := 10.
Definition VIRTIO0 : Z := 0x10001000.
Definition VIRTIO0_IRQ : Z := 1.
Definition PLIC : Z := 0x0c000000.
Definition PLIC_SENABLE (hart : Z) : Z := PLIC + 0x2080 + hart * 0x100.
Definition PLIC_SPRIORITY (hart : Z) : Z := PLIC + 0x201000 + hart * 0x2000.
Definition PLIC_SCLAIM (hart : Z) : Z := PLIC + 0x201004 + hart * 0x2000.
Definition KERNBASE : Z := 0x80000000.
Definition PHYSTOP : Z := KERNBASE + 128 * 1024 * 1024.
Definition TRAMPOLINE : Z := MAXVA - PGSIZE.
Definition KSTACK (p : Z) : Z := TRAMPOLINE - (p + 1) * 2 * PGSIZE.
Definition TRAPFRAME : Z := TRAMPOLINE - PGSIZE.

(** ** What the masks compute *)

Lemma land_low_ones x n : 0 ≤ n → Z.land x (Z.ones n) = x mod 2 ^ n.
Proof. apply Z.land_ones. Qed.

Lemma PGROUNDDOWN_spec a : 0 ≤ a < 2 ^ 64 → PGROUNDDOWN a = a - a mod 4096.
Proof.
  intros Ha. unfold PGROUNDDOWN, PGSIZE.
  replace (u64 (Z.lnot (4096 - 1))) with (Z.ldiff (Z.ones 64) (Z.ones 12)) by reflexivity.
  replace (Z.land a (Z.ldiff (Z.ones 64) (Z.ones 12)))
    with (Z.shiftl (Z.shiftr a 12) 12); [rw Z.shiftl_mul_pow2 // Z.shiftr_div_pow2 //; zlia|].
  apply Z.bits_inj'. intros i Hi. rw Z.land_spec Z.ldiff_spec Z.shiftl_spec //.
  destruct (Z.ltb_spec i 12).
  - rw (Z.testbit_neg_r _ (i - 12)); [|lia]. rw (Z.ones_spec_low 12); [|lia].
    by rw andb_false_r andb_false_r.
  - rw Z.shiftr_spec; [|lia]. rw Z.sub_add (Z.ones_spec_high 12); [|lia].
    destruct (Z.ltb_spec i 64).
    + rw Z.ones_spec_low; [|lia]. by rw andb_true_r.
    + rw -(Z.mod_small a (2 ^ 64)) // Z.mod_pow2_bits_high //.
Qed.

Lemma PGROUNDDOWN_le a : 0 ≤ a < 2 ^ 64 → PGROUNDDOWN a ≤ a < PGROUNDDOWN a + PGSIZE.
Proof. intros Ha. rw PGROUNDDOWN_spec //. unfold PGSIZE. zlia. Qed.

Lemma PGROUNDDOWN_aligned a : 0 ≤ a < 2 ^ 64 → PGROUNDDOWN a mod 4096 = 0.
Proof. intros Ha. rw PGROUNDDOWN_spec //. zlia. Qed.

Lemma PGROUNDDOWN_id a : 0 ≤ a < 2 ^ 64 → a mod 4096 = 0 → PGROUNDDOWN a = a.
Proof. intros Ha. rw PGROUNDDOWN_spec //. lia. Qed.

Lemma PGROUNDUP_spec sz : 0 ≤ sz < 2 ^ 64 - 4095 → PGROUNDUP sz = (sz + 4095) / 4096 * 4096.
Proof.
  intros Hs. unfold PGROUNDUP. rw u64_small; [|unfold PGSIZE; lia].
  pose proof (PGROUNDDOWN_spec (sz + PGSIZE - 1)) as H. unfold PGROUNDDOWN in H.
  rw H; unfold PGSIZE; zlia.
Qed.

(** A page-table entry built from a page-aligned physical address and ten
    flag bits gives both back. *)
Lemma PTE2PA_PA2PTE pa fl :
  0 ≤ pa < 2 ^ 56 → pa mod 4096 = 0 → 0 ≤ fl < 1024 →
  PTE2PA (Z.lor (PA2PTE pa) fl) = pa.
Proof.
  intros Hpa Hal Hfl. unfold PTE2PA, PA2PTE.
  rw (u64_small (Z.shiftl (Z.shiftr pa 12) 10));
    [|rw Z.shiftl_mul_pow2 // Z.shiftr_div_pow2 //; zlia].
  rw Z.shiftr_lor (Z.shiftr_div_pow2 fl) // (Z.div_small fl) // Z.lor_0_r.
  rw Z.shiftr_shiftl_l // Z.shiftl_0_r Z.shiftl_mul_pow2 // Z.shiftr_div_pow2 //.
  rw u64_small; zlia.
Qed.

Lemma PTE_FLAGS_PA2PTE pa fl :
  0 ≤ pa < 2 ^ 56 → 0 ≤ fl < 1024 → PTE_FLAGS (Z.lor (PA2PTE pa) fl) = fl.
Proof.
  intros Hpa Hfl. unfold PTE_FLAGS, PA2PTE.
  rw u64_small; [|rw Z.shiftl_mul_pow2 // Z.shiftr_div_pow2 //; zlia].
  change 0x3FF with (Z.ones 10). rw Z.land_lor_distr_l !Z.land_ones //.
  rw (Z.mod_small fl) // Z.shiftl_mul_pow2 // Z.mod_mul //.
Qed.

Lemma PA2PTE_lor_range pa fl :
  0 ≤ pa < 2 ^ 56 → 0 ≤ fl < 1024 → 0 ≤ Z.lor (PA2PTE pa) fl < 2 ^ 64.
Proof.
  intros Hpa Hfl. unfold PA2PTE. rw Z.shiftl_mul_pow2 // Z.shiftr_div_pow2 //.
  rw u64_small; [|zlia]. split; [apply Z.lor_nonneg; zlia|].
  destruct (decide (Z.lor (pa / 2 ^ 12 * 2 ^ 10) fl = 0)) as [->|Hne]; [done|].
  apply Z.log2_lt_pow2; [apply Z.le_neq; split; [apply Z.lor_nonneg; zlia|done]|].
  rw Z.log2_lor; [|zlia..]. apply Z.max_lub_lt.
  - apply (Z.le_lt_trans _ (Z.log2 (2 ^ 54))); [|done]. apply Z.log2_le_mono. zlia.
  - apply (Z.le_lt_trans _ (Z.log2 1024)); [|done]. apply Z.log2_le_mono. lia.
Qed.

Lemma PX_div level va : 0 ≤ level → PX level va = va / 2 ^ (12 + 9 * level) mod 512.
Proof.
  intros Hl. unfold PX, PXSHIFT, PXMASK, PGSHIFT.
  change 0x1FF with (Z.ones 9). rw Z.land_ones // Z.shiftr_div_pow2 //. lia.
Qed.

Lemma PX_range level va : 0 ≤ PX level va < 512.
Proof.
  unfold PX, PXMASK. change 0x1FF with (Z.ones 9). rw Z.land_ones //.
  apply Z.mod_pos_bound. lia.
Qed.

(** The three indices and the offset of a virtual address below [MAXVA]
    determine it. *)
Lemma PX_decompose va :
  0 ≤ va < MAXVA →
  va = PX 2 va * 2 ^ 30 + PX 1 va * 2 ^ 21 + PX 0 va * 2 ^ 12 + va mod 4096.
Proof.
  change MAXVA with 274877906944. intros Hva. rw !PX_div //.
  change (2 ^ (12 + 9 * 2)) with 1073741824. change (2 ^ (12 + 9 * 1)) with 2097152.
  change (2 ^ (12 + 9 * 0)) with 4096. change (2 ^ 30) with 1073741824.
  change (2 ^ 21) with 2097152. change (2 ^ 12) with 4096. zlia.
Qed.
