(* ===== verification/KState.v ===== *)
(** * The kernel's global state

    The structures of the kernel's headers ([kernel/proc.h], [spinlock.h],
    [sleeplock.h], [buf.h], [file.h], [fs.h]) and of the [.c] files that
    declare their own, and the record of all global variables. C pointers
    to objects of a static table are indices into it, pointers to pages are
    physical addresses; [None] is the null pointer. A record [r] with its
    field [f] replaced by [x] is [set_f x r]. *)

From S2P Require Import Prelude Riscv.
Open Scope Z_scope.

(** ** Locks *)

(** The spinlocks of the kernel. [LBuf i] and [LInode i] are the spinlocks
    inside the sleep-locks of buffer [i] and inode [i]. *)
Inductive lockid : Type :=
| LKmem | LBcache | LLog | LItable | LFtable | LPid | LWait | LTicks
| LCons | LUart | LPr | LVdisk
| LProc (i : nat) | LBuf (i : nat) | LInode (i : nat) | LPipe (pi : Z).

#[export] Instance lockid_eq_dec : EqDecision lockid.
Proof. solve_decision. Defined.

Definition lockid_code (l : lockid) : Z * Z :=
  match l with
  | LKmem => (0, 0) | LBcache => (1, 0) | LLog => (2, 0) | LItable => (3, 0)
  | LFtable => (4, 0) | LPid => (5, 0) | LWait => (6, 0) | LTicks => (7, 0)
  | LCons => (8, 0) | LUart => (9, 0) | LPr => (10, 0) | LVdisk => (11, 0)
  | LProc i => (12, Z.of_nat i) | LBuf i => (13, Z.of_nat i)
  | LInode i => (14, Z.of_nat i) | LPipe a => (15, a)
  end.
Definition lockid_decode (c : Z * Z) : lockid :=
  match c with
  | (0, _) => LKmem | (1, _) => LBcache | (2, _) => LLog | (3, _) => LItable
  | (4, _) => LFtable | (5, _) => LPid | (6, _) => LWait | (7, _) => LTicks
  | (8, _) => LCons | (9, _) => LUart | (10, _) => LPr | (11, _) => LVdisk
  | (12, i) => LProc (Z.to_nat i) | (13, i) => LBuf (Z.to_nat i)
  | (14, i) => LInode (Z.to_nat i) | (_, a) => LPipe a
  end.
#[export] Instance lockid_countable : Countable lockid.
Proof.
  refine (inj_countable' lockid_code lockid_decode _).
  by intros []; simpl; rw ?Nat2Z.id.
Defined.

(** A sleep-lock is the one of a buffer or of an inode. *)
Inductive sleepid : Type := SBuf (i : nat) | SInode (i : nat).
#[export] Instance sleepid_eq_dec : EqDecision sleepid.
Proof. solve_decision. Defined.
#[export] Instance sleepid_countable : Countable sleepid.
Proof.
  refine (inj_countable' (λ l, match l with SBuf i => (0, i) | SInode i => (1, i) end)
    (λ c : Z * nat, match c with (0, i) => SBuf i | (_, i) => SInode i end) _).
  by intros [].
Defined.

(** [&lk->lk], the spinlock that protects a sleep-lock. *)
Definition sl_lk (l : sleepid) : lockid :=
  match l with SBuf i => LBuf i | SInode i => LInode i end.

(** Sleep channels: the addresses passed to [sleep] and [wakeup]. *)
Inductive chan : Type :=
| CProc (p : nat)         (** [p], in [wait] *)
| CSleep (l : sleepid)    (** [lk], in [acquiresleep] *)
| CLog                    (** [&log] *)
| CTicks                  (** [&ticks] *)
| CPipeR (pi : Z)         (** [&pi->nread] *)
| CPipeW (pi : Z)         (** [&pi->nwrite] *)
| CConsR                  (** [&cons.r] *)
| CUartR                  (** [&uart_tx_r] *)
| CDiskFree               (** [&disk.free[0]] *)
| CBuf (b : nat).         (** [b], in [virtio_disk_rw] *)
#[export] Instance chan_eq_dec : EqDecision chan.
Proof. solve_decision. Defined.

(** [struct spinlock] of kernel/spinlock.h. *)
Record spinlock : Type := Spinlock {
  lk_locked : Z;
  lk_name : string;
  lk_cpu : option nat
}.
Definition set_lk_locked (x : Z) (r : spinlock) : spinlock := Spinlock x (lk_name r) (lk_cpu r).
Definition set_lk_name (x : string) (r : spinlock) : spinlock :=
  Spinlock (lk_locked r) x (lk_cpu r).
Definition set_lk_cpu (x : option nat) (r : spinlock) : spinlock :=
  Spinlock (lk_locked r) (lk_name r) x.

(** [struct sleeplock] of kernel/sleeplock.h, less its spinlock [sl_lk]. *)
Record sleeplock : Type := Sleeplock {
  sl_locked : Z;
  sl_name : string;
  sl_pid : Z
}.
Definition set_sl_locked (x : Z) (r : sleeplock) : sleeplock :=
  Sleeplock x (sl_name r) (sl_pid r).
Definition set_sl_name (x : string) (r : sleeplock) : sleeplock :=
  Sleeplock (sl_locked r) x (sl_pid r).
Definition set_sl_pid (x : Z) (r : sleeplock) : sleeplock :=
  Sleeplock (sl_locked r) (sl_name r) x.

(** ** Processors and processes *)

(** [struct context] of kernel/proc.h: [ra], [sp], [s0..s11]. *)
Record context : Type := Context {
  c_ra : Z;
  c_sp : Z;
  c_s : list Z
}.
Definition set_c_ra (x : Z) (r : context) : context := Context x (c_sp r) (c_s r).
Definition set_c_sp (x : Z) (r : context) : context := Context (c_ra r) x (c_s r).
Definition set_c_s (x : list Z) (r : context) : context := Context (c_ra r) (c_sp r) x.

(** [struct cpu] of kernel/proc.h. *)
Record cpu : Type := Cpu {
  c_proc : option nat;
  c_context : context;
  c_noff : Z;
  c_intena : Z
}.
Definition set_c_proc (x : option nat) (r : cpu) : cpu :=
  Cpu x (c_context r) (c_noff r) (c_intena r).
Definition set_c_context (x : context) (r : cpu) : cpu :=
  Cpu (c_proc r) x (c_noff r) (c_intena r).
Definition set_c_noff (x : Z) (r : cpu) : cpu := Cpu (c_proc r) (c_context r) x (c_intena r).
Definition set_c_intena (x : Z) (r : cpu) : cpu := Cpu (c_proc r) (c_context r) (c_noff r) x.

(** The registers of the running hart that C code reads or writes. *)
Record regs : Type := Regs {
  r_tp : Z;
  r_sstatus : Z;
  r_sepc : Z;
  r_scause : Z;
  r_stval : Z;
  r_stvec : Z;
  r_satp : Z;
  r_sip : Z
}.
Definition set_r_tp (x : Z) (r : regs) : regs :=
  Regs x (r_sstatus r) (r_sepc r) (r_scause r) (r_stval r) (r_stvec r) (r_satp r) (r_sip r).
Definition set_r_sstatus (x : Z) (r : regs) : regs :=
  Regs (r_tp r) x (r_sepc r) (r_scause r) (r_stval r) (r_stvec r) (r_satp r) (r_sip r).
Definition set_r_sepc (x : Z) (r : regs) : regs :=
  Regs (r_tp r) (r_sstatus r) x (r_scause r) (r_stval r) (r_stvec r) (r_satp r) (r_sip r).
Definition set_r_scause (x : Z) (r : regs) : regs :=
  Regs (r_tp r) (r_sstatus r) (r_sepc r) x (r_stval r) (r_stvec r) (r_satp r) (r_sip r).
Definition set_r_stval (x : Z) (r : regs) : regs :=
  Regs (r_tp r) (r_sstatus r) (r_sepc r) (r_scause r) x (r_stvec r) (r_satp r) (r_sip r).
Definition set_r_stvec (x : Z) (r : regs) : regs :=
  Regs (r_tp r) (r_sstatus r) (r_sepc r) (r_scause r) (r_stval r) x (r_satp r) (r_sip r).
Definition set_r_satp (x : Z) (r : regs) : regs :=
  Regs (r_tp r) (r_sstatus r) (r_sepc r) (r_scause r) (r_stval r) (r_stvec r) x (r_sip r).
Definition set_r_sip (x : Z) (r : regs) : regs :=
  Regs (r_tp r) (r_sstatus r) (r_sepc r) (r_scause r) (r_stval r) (r_stvec r) (r_satp r) x.

(** What the locking code works on: the hart, the [cpus] table, the spinlocks. *)
Record syncst : Type := Sync {
  hart : regs;
  cpus : list cpu;
  locks : gmap lockid spinlock
}.
Definition set_hart (x : regs) (r : syncst) : syncst := Sync x (cpus r) (locks r).
Definition set_cpus (x : list cpu) (r : syncst) : syncst := Sync (hart r) x (locks r).
Definition set_locks (x : gmap lockid spinlock) (r : syncst) : syncst := Sync (hart r) (cpus r) x.

(** [enum procstate] of kernel/proc.h. *)
Inductive procstate : Type := UNUSED | USED | SLEEPING | RUNNABLE | RUNNING | ZOMBIE.
#[export] Instance procstate_eq_dec : EqDecision procstate.
Proof. solve_decision. Defined.

(** [struct proc] of kernel/proc.h; its spinlock is [LProc i]. *)
Record proc : Type := Proc {
  p_state : procstate;
  p_chan : option chan;
  p_killed : Z;
  p_xstate : Z;
  p_pid : Z;
  p_parent : option nat;
  p_kstack : Z;
  p_sz : Z;
  p_pagetable : Z;
  p_trapframe : Z;
  p_context : context;
  p_ofile : list (option nat);
  p_cwd : option nat;
  p_name : list Z
}.
Definition set_p_state (x : procstate) (r : proc) : proc :=
  Proc x (p_chan r) (p_killed r) (p_xstate r) (p_pid r) (p_parent r) (p_kstack r) (p_sz r)
    (p_pagetable r) (p_trapframe r) (p_context r) (p_ofile r) (p_cwd r) (p_name r).
Definition set_p_chan (x : option chan) (r : proc) : proc :=
  Proc (p_state r) x (p_killed r) (p_xstate r) (p_pid r) (p_parent r) (p_kstack r) (p_sz r)
    (p_pagetable r) (p_trapframe r) (p_context r) (p_ofile r) (p_cwd r) (p_name r).
Definition set_p_killed (x : Z) (r : proc) : proc :=
  Proc (p_state r) (p_chan r) x (p_xstate r) (p_pid r) (p_parent r) (p_kstack r) (p_sz r)
    (p_pagetable r) (p_trapframe r) (p_context r) (p_ofile r) (p_cwd r) (p_name r).
Definition set_p_xstate (x : Z) (r : proc) : proc :=
  Proc (p_state r) (p_chan r) (p_killed r) x (p_pid r) (p_parent r) (p_kstack r) (p_sz r)
    (p_pagetable r) (p_trapframe r) (p_context r) (p_ofile r) (p_cwd r) (p_name r).
Definition set_p_pid (x : Z) (r : proc) : proc :=
  Proc (p_state r) (p_chan r) (p_killed r) (p_xstate r) x (p_parent r) (p_kstack r) (p_sz r)
    (p_pagetable r) (p_trapframe r) (p_context r) (p_ofile r) (p_cwd r) (p_name r).
Definition set_p_parent (x : option nat) (r : proc) : proc :=
  Proc (p_state r) (p_chan r) (p_killed r) (p_xstate r) (p_pid r) x (p_kstack r) (p_sz r)
    (p_pagetable r) (p_trapframe r) (p_context r) (p_ofile r) (p_cwd r) (p_name r).
Definition set_p_kstack (x : Z) (r : proc) : proc :=
  Proc (p_state r) (p_chan r) (p_killed r) (p_xstate r) (p_pid r) (p_parent r) x (p_sz r)
    (p_pagetable r) (p_trapframe r) (p_context r) (p_ofile r) (p_cwd r) (p_name r).
Definition set_p_sz (x : Z) (r : proc) : proc :=
  Proc (p_state r) (p_chan r) (p_killed r) (p_xstate r) (p_pid r) (p_parent r) (p_kstack r) x
    (p_pagetable r) (p_trapframe r) (p_context r) (p_ofile r) (p_cwd r) (p_name r).
Definition set_p_pagetable (x : Z) (r : proc) : proc :=
  Proc (p_state r) (p_chan r) (p_killed r) (p_xstate r) (p_pid r) (p_parent r) (p_kstack r)
    (p_sz r) x (p_trapframe r) (p_context r) (p_ofile r) (p_cwd r) (p_name r).
Definition set_p_trapframe (x : Z) (r : proc) : proc :=
  Proc (p_state r) (p_chan r) (p_killed r) (p_xstate r) (p_pid r) (p_parent r) (p_kstack r)
    (p_sz r) (p_pagetable r) x (p_context r) (p_ofile r) (p_cwd r) (p_name r).
Definition set_p_context (x : context) (r : proc) : proc :=
  Proc (p_state r) (p_chan r) (p_killed r) (p_xstate r) (p_pid r) (p_parent r) (p_kstack r)
    (p_sz r) (p_pagetable r) (p_trapframe r) x (p_ofile r) (p_cwd r) (p_name r).
Definition set_p_ofile (x : list (option nat)) (r : proc) : proc :=
  Proc (p_state r) (p_chan r) (p_killed r) (p_xstate r) (p_pid r) (p_parent r) (p_kstack r)
    (p_sz r) (p_pagetable r) (p_trapframe r) (p_context r) x (p_cwd r) (p_name r).
Definition set_p_cwd (x : option nat) (r : proc) : proc :=
  Proc (p_state r) (p_chan r) (p_killed r) (p_xstate r) (p_pid r) (p_parent r) (p_kstack r)
    (p_sz r) (p_pagetable r) (p_trapframe r) (p_context r) (p_ofile r) x (p_name r).
Definition set_p_name (x : list Z) (r : proc) : proc :=
  Proc (p_state r) (p_chan r) (p_killed r) (p_xstate r) (p_pid r) (p_parent r) (p_kstack r)
    (p_sz r) (p_pagetable r) (p_trapframe r) (p_context r) (p_ofile r) (p_cwd r) x.

(** ** Storage *)

(** [struct buf] of kernel/buf.h; its sleep-lock is [SBuf i]. [prev] and [next] are
    indices into the cache, the list head being entry [NBUF]. *)
Record buf : Type := Buf {
  b_valid : Z;
  b_disk : Z;
  b_dev : Z;
  b_blockno : Z;
  b_refcnt : Z;
  b_prev : nat;
  b_next : nat;
  b_data : list Z
}.
Definition set_b_valid (x : Z) (r : buf) : buf :=
  Buf x (b_disk r) (b_dev r) (b_blockno r) (b_refcnt r) (b_prev r) (b_next r) (b_data r).
Definition set_b_disk (x : Z) (r : buf) : buf :=
  Buf (b_valid r) x (b_dev r) (b_blockno r) (b_refcnt r) (b_prev r) (b_next r) (b_data r).
Definition set_b_dev (x : Z) (r : buf) : buf :=
  Buf (b_valid r) (b_disk r) x (b_blockno r) (b_refcnt r) (b_prev r) (b_next r) (b_data r).
Definition set_b_blockno (x : Z) (r : buf) : buf :=
  Buf (b_valid r) (b_disk r) (b_dev r) x (b_refcnt r) (b_prev r) (b_next r) (b_data r).
Definition set_b_refcnt (x : Z) (r : buf) : buf :=
  Buf (b_valid r) (b_disk r) (b_dev r) (b_blockno r) x (b_prev r) (b_next r) (b_data r).
Definition set_b_prev (x : nat) (r : buf) : buf :=
  Buf (b_valid r) (b_disk r) (b_dev r) (b_blockno r) (b_refcnt r) x (b_next r) (b_data r).
Definition set_b_next (x : nat) (r : buf) : buf :=
  Buf (b_valid r) (b_disk r) (b_dev r) (b_blockno r) (b_refcnt r) (b_prev r) x (b_data r).
Definition set_b_data (x : list Z) (r : buf) : buf :=
  Buf (b_valid r) (b_disk r) (b_dev r) (b_blockno r) (b_refcnt r) (b_prev r) (b_next r) x.

(** [struct logheader] of kernel/log.c. *)
Record logheader : Type := Logheader {
  lh_n : Z;
  lh_block : list Z
}.
Definition set_lh_n (x : Z) (r : logheader) : logheader := Logheader x (lh_block r).
Definition set_lh_block (x : list Z) (r : logheader) : logheader := Logheader (lh_n r) x.

(** [struct log] of kernel/log.c; its spinlock is [LLog]. *)
Record logst : Type := Log {
  lg_start : Z;
  lg_size : Z;
  lg_outstanding : Z;
  lg_committing : Z;
  lg_dev : Z;
  lg_lh : logheader
}.
Definition set_lg_start (x : Z) (r : logst) : logst :=
  Log x (lg_size r) (lg_outstanding r) (lg_committing r) (lg_dev r) (lg_lh r).
Definition set_lg_size (x : Z) (r : logst) : logst :=
  Log (lg_start r) x (lg_outstanding r) (lg_committing r) (lg_dev r) (lg_lh r).
Definition set_lg_outstanding (x : Z) (r : logst) : logst :=
  Log (lg_start r) (lg_size r) x (lg_committing r) (lg_dev r) (lg_lh r).
Definition set_lg_committing (x : Z) (r : logst) : logst :=
  Log (lg_start r) (lg_size r) (lg_outstanding r) x (lg_dev r) (lg_lh r).
Definition set_lg_dev (x : Z) (r : logst) : logst :=
  Log (lg_start r) (lg_size r) (lg_outstanding r) (lg_committing r) x (lg_lh r).
Definition set_lg_lh (x : logheader) (r : logst) : logst :=
  Log (lg_start r) (lg_size r) (lg_outstanding r) (lg_committing r) (lg_dev r) x.

(** [struct superblock] of kernel/fs.h. *)
Record superblock : Type := Superblock {
  sb_magic : Z;
  sb_size : Z;
  sb_nblocks : Z;
  sb_ninodes : Z;
  sb_nlog : Z;
  sb_logstart : Z;
  sb_inodestart : Z;
  sb_bmapstart : Z
}.
Definition set_sb_magic (x : Z) (r : superblock) : superblock :=
  Superblock x (sb_size r) (sb_nblocks r) (sb_ninodes r) (sb_nlog r) (sb_logstart r)
    (sb_inodestart r) (sb_bmapstart r).
Definition set_sb_size (x : Z) (r : superblock) : superblock :=
  Superblock (sb_magic r) x (sb_nblocks r) (sb_ninodes r) (sb_nlog r) (sb_logstart r)
    (sb_inodestart r) (sb_bmapstart r).
Definition set_sb_nblocks (x : Z) (r : superblock) : superblock :=
  Superblock (sb_magic r) (sb_size r) x (sb_ninodes r) (sb_nlog r) (sb_logstart r)
    (sb_inodestart r) (sb_bmapstart r).
Definition set_sb_ninodes (x : Z) (r : superblock) : superblock :=
  Superblock (sb_magic r) (sb_size r) (sb_nblocks r) x (sb_nlog r) (sb_logstart r)
    (sb_inodestart r) (sb_bmapstart r).
Definition set_sb_nlog (x : Z) (r : superblock) : superblock :=
  Superblock (sb_magic r) (sb_size r) (sb_nblocks r) (sb_ninodes r) x (sb_logstart r)
    (sb_inodestart r) (sb_bmapstart r).
Definition set_sb_logstart (x : Z) (r : superblock) : superblock :=
  Superblock (sb_magic r) (sb_size r) (sb_nblocks r) (sb_ninodes r) (sb_nlog r) x
    (sb_inodestart r) (sb_bmapstart r).
Definition set_sb_inodestart (x : Z) (r : superblock) : superblock :=
  Superblock (sb_magic r) (sb_size r) (sb_nblocks r) (sb_ninodes r) (sb_nlog r) (sb_logstart r)
    x (sb_bmapstart r).
Definition set_sb_bmapstart (x : Z) (r : superblock) : superblock :=
  Superblock (sb_magic r) (sb_size r) (sb_nblocks r) (sb_ninodes r) (sb_nlog r) (sb_logstart r)
    (sb_inodestart r) x.

(** [struct dinode] of kernel/fs.h. *)
Record dinode : Type := Dinode {
  di_type : Z;
  di_major : Z;
  di_minor : Z;
  di_nlink : Z;
  di_size : Z;
  di_addrs : list Z
}.
Definition set_di_type (x : Z) (r : dinode) : dinode :=
  Dinode x (di_major r) (di_minor r) (di_nlink r) (di_size r) (di_addrs r).
Definition set_di_major (x : Z) (r : dinode) : dinode :=
  Dinode (di_type r) x (di_minor r) (di_nlink r) (di_size r) (di_addrs r).
Definition set_di_minor (x : Z) (r : dinode) : dinode :=
  Dinode (di_type r) (di_major r) x (di_nlink r) (di_size r) (di_addrs r).
Definition set_di_nlink (x : Z) (r : dinode) : dinode :=
  Dinode (di_type r) (di_major r) (di_minor r) x (di_size r) (di_addrs r).
Definition set_di_size (x : Z) (r : dinode) : dinode :=
  Dinode (di_type r) (di_major r) (di_minor r) (di_nlink r) x (di_addrs r).
Definition set_di_addrs (x : list Z) (r : dinode) : dinode :=
  Dinode (di_type r) (di_major r) (di_minor r) (di_nlink r) (di_size r) x.

(** [struct inode] of kernel/file.h; its sleep-lock is [SInode i]. *)
Record inode : Type := Inode {
  i_dev : Z;
  i_inum : Z;
  i_ref : Z;
  i_valid : Z;
  i_type : Z;
  i_major : Z;
  i_minor : Z;
  i_nlink : Z;
  i_size : Z;
  i_addrs : list Z
}.
Definition set_i_dev (x : Z) (r : inode) : inode :=
  Inode x (i_inum r) (i_ref r) (i_valid r) (i_type r) (i_major r) (i_minor r) (i_nlink r)
    (i_size r) (i_addrs r).
Definition set_i_inum (x : Z) (r : inode) : inode :=
  Inode (i_dev r) x (i_ref r) (i_valid r) (i_type r) (i_major r) (i_minor r) (i_nlink r)
    (i_size r) (i_addrs r).
Definition set_i_ref (x : Z) (r : inode) : inode :=
  Inode (i_dev r) (i_inum r) x (i_valid r) (i_type r) (i_major r) (i_minor r) (i_nlink r)
    (i_size r) (i_addrs r).
Definition set_i_valid (x : Z) (r : inode) : inode :=
  Inode (i_dev r) (i_inum r) (i_ref r) x (i_type r) (i_major r) (i_minor r) (i_nlink r)
    (i_size r) (i_addrs r).
Definition set_i_type (x : Z) (r : inode) : inode :=
  Inode (i_dev r) (i_inum r) (i_ref r) (i_valid r) x (i_major r) (i_minor r) (i_nlink r)
    (i_size r) (i_addrs r).
Definition set_i_major (x : Z) (r : inode) : inode :=
  Inode (i_dev r) (i_inum r) (i_ref r) (i_valid r) (i_type r) x (i_minor r) (i_nlink r)
    (i_size r) (i_addrs r).
Definition set_i_minor (x : Z) (r : inode) : inode :=
  Inode (i_dev r) (i_inum r) (i_ref r) (i_valid r) (i_type r) (i_major r) x (i_nlink r)
    (i_size r) (i_addrs r).
Definition set_i_nlink (x : Z) (r : inode) : inode :=
  Inode (i_dev r) (i_inum r) (i_ref r) (i_valid r) (i_type r) (i_major r) (i_minor r) x
    (i_size r) (i_addrs r).
Definition set_i_size (x : Z) (r : inode) : inode :=
  Inode (i_dev r) (i_inum r) (i_ref r) (i_valid r) (i_type r) (i_major r) (i_minor r)
    (i_nlink r) x (i_addrs r).
Definition set_i_addrs (x : list Z) (r : inode) : inode :=
  Inode (i_dev r) (i_inum r) (i_ref r) (i_valid r) (i_type r) (i_major r) (i_minor r)
    (i_nlink r) (i_size r) x.

(** ** Files, pipes and devices *)

(** The [type] of a [struct file]. *)
Inductive fdtype : Type := FD_NONE | FD_PIPE | FD_INODE | FD_DEVICE.
#[export] Instance fdtype_eq_dec : EqDecision fdtype.
Proof. solve_decision. Defined.

(** [struct file] of kernel/file.h. *)
Record file : Type := File {
  f_type : fdtype;
  f_ref : Z;
  f_readable : Z;
  f_writable : Z;
  f_pipe : Z;
  f_ip : option nat;
  f_off : Z;
  f_major : Z
}.
Definition set_f_type (x : fdtype) (r : file) : file :=
  File x (f_ref r) (f_readable r) (f_writable r) (f_pipe r) (f_ip r) (f_off r) (f_major r).
Definition set_f_ref (x : Z) (r : file) : file :=
  File (f_type r) x (f_readable r) (f_writable r) (f_pipe r) (f_ip r) (f_off r) (f_major r).
Definition set_f_readable (x : Z) (r : file) : file :=
  File (f_type r) (f_ref r) x (f_writable r) (f_pipe r) (f_ip r) (f_off r) (f_major r).
Definition set_f_writable (x : Z) (r : file) : file :=
  File (f_type r) (f_ref r) (f_readable r) x (f_pipe r) (f_ip r) (f_off r) (f_major r).
Definition set_f_pipe (x : Z) (r : file) : file :=
  File (f_type r) (f_ref r) (f_readable r) (f_writable r) x (f_ip r) (f_off r) (f_major r).
Definition set_f_ip (x : option nat) (r : file) : file :=
  File (f_type r) (f_ref r) (f_readable r) (f_writable r) (f_pipe r) x (f_off r) (f_major r).
Definition set_f_off (x : Z) (r : file) : file :=
  File (f_type r) (f_ref r) (f_readable r) (f_writable r) (f_pipe r) (f_ip r) x (f_major r).
Definition set_f_major (x : Z) (r : file) : file :=
  File (f_type r) (f_ref r) (f_readable r) (f_writable r) (f_pipe r) (f_ip r) (f_off r) x.

(** [struct pipe] of kernel/pipe.c; its spinlock is [LPipe pi]. *)
Record pipe : Type := Pipe {
  pi_data : list Z;
  pi_nread : Z;
  pi_nwrite : Z;
  pi_readopen : Z;
  pi_writeopen : Z
}.
Definition set_pi_data (x : list Z) (r : pipe) : pipe :=
  Pipe x (pi_nread r) (pi_nwrite r) (pi_readopen r) (pi_writeopen r).
Definition set_pi_nread (x : Z) (r : pipe) : pipe :=
  Pipe (pi_data r) x (pi_nwrite r) (pi_readopen r) (pi_writeopen r).
Definition set_pi_nwrite (x : Z) (r : pipe) : pipe :=
  Pipe (pi_data r) (pi_nread r) x (pi_readopen r) (pi_writeopen r).
Definition set_pi_readopen (x : Z) (r : pipe) : pipe :=
  Pipe (pi_data r) (pi_nread r) (pi_nwrite r) x (pi_writeopen r).
Definition set_pi_writeopen (x : Z) (r : pipe) : pipe :=
  Pipe (pi_data r) (pi_nread r) (pi_nwrite r) (pi_readopen r) x.

(** The functions a [struct devsw] can point to: only the console has any. *)
Inductive devfn : Type := DevNone | DevConsole.

(** [struct devsw] of kernel/file.h. *)
Record devsw : Type := Devsw {
  d_read : devfn;
  d_write : devfn
}.
Definition set_d_read (x : devfn) (r : devsw) : devsw := Devsw x (d_write r).
Definition set_d_write (x : devfn) (r : devsw) : devsw := Devsw (d_read r) x.

(** [cons] of kernel/console.c. *)
Record consst : Type := Cons {
  cons_buf : list Z;
  cons_r : Z;
  cons_w : Z;
  cons_e : Z
}.
Definition set_cons_buf (x : list Z) (r : consst) : consst :=
  Cons x (cons_r r) (cons_w r) (cons_e r).
Definition set_cons_r (x : Z) (r : consst) : consst := Cons (cons_buf r) x (cons_w r) (cons_e r).
Definition set_cons_w (x : Z) (r : consst) : consst := Cons (cons_buf r) (cons_r r) x (cons_e r).
Definition set_cons_e (x : Z) (r : consst) : consst := Cons (cons_buf r) (cons_r r) (cons_w r) x.

(** The transmit buffer of kernel/uart.c and the device behind it: what the next
    reads of LSR and RHR give, and the writes to its registers so far. *)
Record uartst : Type := Uart {
  tx_buf : list Z;
  tx_w : Z;
  tx_r : Z;
  in_lsr : list Z;
  in_rhr : list Z;
  out_regs : list (Z * Z)
}.
Definition set_tx_buf (x : list Z) (r : uartst) : uartst :=
  Uart x (tx_w r) (tx_r r) (in_lsr r) (in_rhr r) (out_regs r).
Definition set_tx_w (x : Z) (r : uartst) : uartst :=
  Uart (tx_buf r) x (tx_r r) (in_lsr r) (in_rhr r) (out_regs r).
Definition set_tx_r (x : Z) (r : uartst) : uartst :=
  Uart (tx_buf r) (tx_w r) x (in_lsr r) (in_rhr r) (out_regs r).
Definition set_in_lsr (x : list Z) (r : uartst) : uartst :=
  Uart (tx_buf r) (tx_w r) (tx_r r) x (in_rhr r) (out_regs r).
Definition set_in_rhr (x : list Z) (r : uartst) : uartst :=
  Uart (tx_buf r) (tx_w r) (tx_r r) (in_lsr r) x (out_regs r).
Definition set_out_regs (x : list (Z * Z)) (r : uartst) : uartst :=
  Uart (tx_buf r) (tx_w r) (tx_r r) (in_lsr r) (in_rhr r) x.

(** An address given to the disk: of [disk.ops[i]], of the data of a buffer, or
    of [disk.info[i].status]. *)
Inductive daddr : Type := DNull | DOp (i : nat) | DData (b : nat) | DStatus (i : nat).

(** [struct virtq_desc] of kernel/virtio.h. *)
Record vdesc : Type := Vdesc {
  ds_addr : daddr;
  ds_len : Z;
  ds_flags : Z;
  ds_next : Z
}.
Definition set_ds_addr (x : daddr) (r : vdesc) : vdesc :=
  Vdesc x (ds_len r) (ds_flags r) (ds_next r).
Definition set_ds_len (x : Z) (r : vdesc) : vdesc := Vdesc (ds_addr r) x (ds_flags r) (ds_next r).
Definition set_ds_flags (x : Z) (r : vdesc) : vdesc := Vdesc (ds_addr r) (ds_len r) x (ds_next r).
Definition set_ds_next (x : Z) (r : vdesc) : vdesc := Vdesc (ds_addr r) (ds_len r) (ds_flags r) x.

(** [struct virtio_blk_req] of kernel/virtio.h. *)
Record vreq : Type := Vreq {
  rq_type : Z;
  rq_reserved : Z;
  rq_sector : Z
}.
Definition set_rq_type (x : Z) (r : vreq) : vreq := Vreq x (rq_reserved r) (rq_sector r).
Definition set_rq_reserved (x : Z) (r : vreq) : vreq := Vreq (rq_type r) x (rq_sector r).
Definition set_rq_sector (x : Z) (r : vreq) : vreq := Vreq (rq_type r) (rq_reserved r) x.

(** [struct disk] of kernel/virtio_disk.c with the three regions of its [pages], and the
    device: what its registers read, the writes to them, and how far it has looked in
    the [avail] ring. *)
Record vdisk : Type := Vdisk {
  vd_desc : list vdesc;
  vd_avail_idx : Z;
  vd_avail_ring : list Z;
  vd_used_didx : Z;
  vd_used_ring : list Z;
  vd_free : list Z;
  vd_used_idx : Z;
  vd_info_b : list (option nat);
  vd_info_status : list Z;
  vd_ops : list vreq;
  vd_in : gmap Z Z;
  vd_out : list (Z * Z);
  vd_seen : Z
}.
Definition set_vd_desc (x : list vdesc) (r : vdisk) : vdisk :=
  Vdisk x (vd_avail_idx r) (vd_avail_ring r) (vd_used_didx r) (vd_used_ring r) (vd_free r)
    (vd_used_idx r) (vd_info_b r) (vd_info_status r) (vd_ops r) (vd_in r) (vd_out r)
    (vd_seen r).
Definition set_vd_avail_idx (x : Z) (r : vdisk) : vdisk :=
  Vdisk (vd_desc r) x (vd_avail_ring r) (vd_used_didx r) (vd_used_ring r) (vd_free r)
    (vd_used_idx r) (vd_info_b r) (vd_info_status r) (vd_ops r) (vd_in r) (vd_out r)
    (vd_seen r).
Definition set_vd_avail_ring (x : list Z) (r : vdisk) : vdisk :=
  Vdisk (vd_desc r) (vd_avail_idx r) x (vd_used_didx r) (vd_used_ring r) (vd_free r)
    (vd_used_idx r) (vd_info_b r) (vd_info_status r) (vd_ops r) (vd_in r) (vd_out r)
    (vd_seen r).
Definition set_vd_used_didx (x : Z) (r : vdisk) : vdisk :=
  Vdisk (vd_desc r) (vd_avail_idx r) (vd_avail_ring r) x (vd_used_ring r) (vd_free r)
    (vd_used_idx r) (vd_info_b r) (vd_info_status r) (vd_ops r) (vd_in r) (vd_out r)
    (vd_seen r).
Definition set_vd_used_ring (x : list Z) (r : vdisk) : vdisk :=
  Vdisk (vd_desc r) (vd_avail_idx r) (vd_avail_ring r) (vd_used_didx r) x (vd_free r)
    (vd_used_idx r) (vd_info_b r) (vd_info_status r) (vd_ops r) (vd_in r) (vd_out r)
    (vd_seen r).
Definition set_vd_free (x : list Z) (r : vdisk) : vdisk :=
  Vdisk (vd_desc r) (vd_avail_idx r) (vd_avail_ring r) (vd_used_didx r) (vd_used_ring r) x
    (vd_used_idx r) (vd_info_b r) (vd_info_status r) (vd_ops r) (vd_in r) (vd_out r)
    (vd_seen r).
Definition set_vd_used_idx (x : Z) (r : vdisk) : vdisk :=
  Vdisk (vd_desc r) (vd_avail_idx r) (vd_avail_ring r) (vd_used_didx r) (vd_used_ring r)
    (vd_free r) x (vd_info_b r) (vd_info_status r) (vd_ops r) (vd_in r) (vd_out r) (vd_seen r).
Definition set_vd_info_b (x : list (option nat)) (r : vdisk) : vdisk :=
  Vdisk (vd_desc r) (vd_avail_idx r) (vd_avail_ring r) (vd_used_didx r) (vd_used_ring r)
    (vd_free r) (vd_used_idx r) x (vd_info_status r) (vd_ops r) (vd_in r) (vd_out r)
    (vd_seen r).
Definition set_vd_info_status (x : list Z) (r : vdisk) : vdisk :=
  Vdisk (vd_desc r) (vd_avail_idx r) (vd_avail_ring r) (vd_used_didx r) (vd_used_ring r)
    (vd_free r) (vd_used_idx r) (vd_info_b r) x (vd_ops r) (vd_in r) (vd_out r) (vd_seen r).
Definition set_vd_ops (x : list vreq) (r : vdisk) : vdisk :=
  Vdisk (vd_desc r) (vd_avail_idx r) (vd_avail_ring r) (vd_used_didx r) (vd_used_ring r)
    (vd_free r) (vd_used_idx r) (vd_info_b r) (vd_info_status r) x (vd_in r) (vd_out r)
    (vd_seen r).
Definition set_vd_in (x : gmap Z Z) (r : vdisk) : vdisk :=
  Vdisk (vd_desc r) (vd_avail_idx r) (vd_avail_ring r) (vd_used_didx r) (vd_used_ring r)
    (vd_free r) (vd_used_idx r) (vd_info_b r) (vd_info_status r) (vd_ops r) x (vd_out r)
    (vd_seen r).
Definition set_vd_out (x : list (Z * Z)) (r : vdisk) : vdisk :=
  Vdisk (vd_desc r) (vd_avail_idx r) (vd_avail_ring r) (vd_used_didx r) (vd_used_ring r)
    (vd_free r) (vd_used_idx r) (vd_info_b r) (vd_info_status r) (vd_ops r) (vd_in r) x
    (vd_seen r).
Definition set_vd_seen (x : Z) (r : vdisk) : vdisk :=
  Vdisk (vd_desc r) (vd_avail_idx r) (vd_avail_ring r) (vd_used_didx r) (vd_used_ring r)
    (vd_free r) (vd_used_idx r) (vd_info_b r) (vd_info_status r) (vd_ops r) (vd_in r)
    (vd_out r) x.

(** ** All global variables *)

(** The global variables of the kernel, the memory and the devices. [k_dtrace] is the
    sequence of block writes since boot. [k_plic] holds the last value written to each
    PLIC register, [k_irqs] what successive claims give. [k_fuel] bounds the iterations
    of loops that have no bound of their own. *)
Record kstate : Type := KState {
  k_sync : syncst;
  k_sleeplocks : gmap sleepid sleeplock;
  k_procs : list proc;
  k_nextpid : Z;
  k_initproc : option nat;
  k_first : Z;
  k_mem : gmap Z Z;
  k_freelist : Z;
  k_bufs : list buf;
  k_disk : gmap Z (list Z);
  k_dtrace : list (Z * list Z);
  k_log : logst;
  k_sb : superblock;
  k_itable : list inode;
  k_ftable : list file;
  k_devsw : list devsw;
  k_pipes : gmap Z pipe;
  k_cons : consst;
  k_uart : uartst;
  k_plic : gmap Z Z;
  k_irqs : list Z;
  k_locking : Z;
  k_panicked : Z;
  k_ticks : Z;
  k_kpgtbl : Z;
  k_started : Z;
  k_vdisk : vdisk;
  k_fuel : nat
}.
Definition set_k_sync (x : syncst) (r : kstate) : kstate :=
  KState x (k_sleeplocks r) (k_procs r) (k_nextpid r) (k_initproc r) (k_first r) (k_mem r)
    (k_freelist r) (k_bufs r) (k_disk r) (k_dtrace r) (k_log r) (k_sb r) (k_itable r)
    (k_ftable r) (k_devsw r) (k_pipes r) (k_cons r) (k_uart r) (k_plic r) (k_irqs r)
    (k_locking r) (k_panicked r) (k_ticks r) (k_kpgtbl r) (k_started r) (k_vdisk r) (k_fuel r).
Definition set_k_sleeplocks (x : gmap sleepid sleeplock) (r : kstate) : kstate :=
  KState (k_sync r) x (k_procs r) (k_nextpid r) (k_initproc r) (k_first r) (k_mem r)
    (k_freelist r) (k_bufs r) (k_disk r) (k_dtrace r) (k_log r) (k_sb r) (k_itable r)
    (k_ftable r) (k_devsw r) (k_pipes r) (k_cons r) (k_uart r) (k_plic r) (k_irqs r)
    (k_locking r) (k_panicked r) (k_ticks r) (k_kpgtbl r) (k_started r) (k_vdisk r) (k_fuel r).
Definition set_k_procs (x : list proc) (r : kstate) : kstate :=
  KState (k_sync r) (k_sleeplocks r) x (k_nextpid r) (k_initproc r) (k_first r) (k_mem r)
    (k_freelist r) (k_bufs r) (k_disk r) (k_dtrace r) (k_log r) (k_sb r) (k_itable r)
    (k_ftable r) (k_devsw r) (k_pipes r) (k_cons r) (k_uart r) (k_plic r) (k_irqs r)
    (k_locking r) (k_panicked r) (k_ticks r) (k_kpgtbl r) (k_started r) (k_vdisk r) (k_fuel r).
Definition set_k_nextpid (x : Z) (r : kstate) : kstate :=
  KState (k_sync r) (k_sleeplocks r) (k_procs r) x (k_initproc r) (k_first r) (k_mem r)
    (k_freelist r) (k_bufs r) (k_disk r) (k_dtrace r) (k_log r) (k_sb r) (k_itable r)
    (k_ftable r) (k_devsw r) (k_pipes r) (k_cons r) (k_uart r) (k_plic r) (k_irqs r)
    (k_locking r) (k_panicked r) (k_ticks r) (k_kpgtbl r) (k_started r) (k_vdisk r) (k_fuel r).
Definition set_k_initproc (x : option nat) (r : kstate) : kstate :=
  KState (k_sync r) (k_sleeplocks r) (k_procs r) (k_nextpid r) x (k_first r) (k_mem r)
    (k_freelist r) (k_bufs r) (k_disk r) (k_dtrace r) (k_log r) (k_sb r) (k_itable r)
    (k_ftable r) (k_devsw r) (k_pipes r) (k_cons r) (k_uart r) (k_plic r) (k_irqs r)
    (k_locking r) (k_panicked r) (k_ticks r) (k_kpgtbl r) (k_started r) (k_vdisk r) (k_fuel r).
Definition set_k_first (x : Z) (r : kstate) : kstate :=
  KState (k_sync r) (k_sleeplocks r) (k_procs r) (k_nextpid r) (k_initproc r) x (k_mem r)
    (k_freelist r) (k_bufs r) (k_disk r) (k_dtrace r) (k_log r) (k_sb r) (k_itable r)
    (k_ftable r) (k_devsw r) (k_pipes r) (k_cons r) (k_uart r) (k_plic r) (k_irqs r)
    (k_locking r) (k_panicked r) (k_ticks r) (k_kpgtbl r) (k_started r) (k_vdisk r) (k_fuel r).
Definition set_k_mem (x : gmap Z Z) (r : kstate) : kstate :=
  KState (k_sync r) (k_sleeplocks r) (k_procs r) (k_nextpid r) (k_initproc r) (k_first r) x
    (k_freelist r) (k_bufs r) (k_disk r) (k_dtrace r) (k_log r) (k_sb r) (k_itable r)
    (k_ftable r) (k_devsw r) (k_pipes r) (k_cons r) (k_uart r) (k_plic r) (k_irqs r)
    (k_locking r) (k_panicked r) (k_ticks r) (k_kpgtbl r) (k_started r) (k_vdisk r) (k_fuel r).
Definition set_k_freelist (x : Z) (r : kstate) : kstate :=
  KState (k_sync r) (k_sleeplocks r) (k_procs r) (k_nextpid r) (k_initproc r) (k_first r)
    (k_mem r) x (k_bufs r) (k_disk r) (k_dtrace r) (k_log r) (k_sb r) (k_itable r) (k_ftable r)
    (k_devsw r) (k_pipes r) (k_cons r) (k_uart r) (k_plic r) (k_irqs r) (k_locking r)
    (k_panicked r) (k_ticks r) (k_kpgtbl r) (k_started r) (k_vdisk r) (k_fuel r).
Definition set_k_bufs (x : list buf) (r : kstate) : kstate :=
  KState (k_sync r) (k_sleeplocks r) (k_procs r) (k_nextpid r) (k_initproc r) (k_first r)
    (k_mem r) (k_freelist r) x (k_disk r) (k_dtrace r) (k_log r) (k_sb r) (k_itable r)
    (k_ftable r) (k_devsw r) (k_pipes r) (k_cons r) (k_uart r) (k_plic r) (k_irqs r)
    (k_locking r) (k_panicked r) (k_ticks r) (k_kpgtbl r) (k_started r) (k_vdisk r) (k_fuel r).
Definition set_k_disk (x : gmap Z (list Z)) (r : kstate) : kstate :=
  KState (k_sync r) (k_sleeplocks r) (k_procs r) (k_nextpid r) (k_initproc r) (k_first r)
    (k_mem r) (k_freelist r) (k_bufs r) x (k_dtrace r) (k_log r) (k_sb r) (k_itable r)
    (k_ftable r) (k_devsw r) (k_pipes r) (k_cons r) (k_uart r) (k_plic r) (k_irqs r)
    (k_locking r) (k_panicked r) (k_ticks r) (k_kpgtbl r) (k_started r) (k_vdisk r) (k_fuel r).
Definition set_k_dtrace (x : list (Z * list Z)) (r : kstate) : kstate :=
  KState (k_sync r) (k_sleeplocks r) (k_procs r) (k_nextpid r) (k_initproc r) (k_first r)
    (k_mem r) (k_freelist r) (k_bufs r) (k_disk r) x (k_log r) (k_sb r) (k_itable r)
    (k_ftable r) (k_devsw r) (k_pipes r) (k_cons r) (k_uart r) (k_plic r) (k_irqs r)
    (k_locking r) (k_panicked r) (k_ticks r) (k_kpgtbl r) (k_started r) (k_vdisk r) (k_fuel r).
Definition set_k_log (x : logst) (r : kstate) : kstate :=
  KState (k_sync r) (k_sleeplocks r) (k_procs r) (k_nextpid r) (k_initproc r) (k_first r)
    (k_mem r) (k_freelist r) (k_bufs r) (k_disk r) (k_dtrace r) x (k_sb r) (k_itable r)
    (k_ftable r) (k_devsw r) (k_pipes r) (k_cons r) (k_uart r) (k_plic r) (k_irqs r)
    (k_locking r) (k_panicked r) (k_ticks r) (k_kpgtbl r) (k_started r) (k_vdisk r) (k_fuel r).
Definition set_k_sb (x : superblock) (r : kstate) : kstate :=
  KState (k_sync r) (k_sleeplocks r) (k_procs r) (k_nextpid r) (k_initproc r) (k_first r)
    (k_mem r) (k_freelist r) (k_bufs r) (k_disk r) (k_dtrace r) (k_log r) x (k_itable r)
    (k_ftable r) (k_devsw r) (k_pipes r) (k_cons r) (k_uart r) (k_plic r) (k_irqs r)
    (k_locking r) (k_panicked r) (k_ticks r) (k_kpgtbl r) (k_started r) (k_vdisk r) (k_fuel r).
Definition set_k_itable (x : list inode) (r : kstate) : kstate :=
  KState (k_sync r) (k_sleeplocks r) (k_procs r) (k_nextpid r) (k_initproc r) (k_first r)
    (k_mem r) (k_freelist r) (k_bufs r) (k_disk r) (k_dtrace r) (k_log r) (k_sb r) x
    (k_ftable r) (k_devsw r) (k_pipes r) (k_cons r) (k_uart r) (k_plic r) (k_irqs r)
    (k_locking r) (k_panicked r) (k_ticks r) (k_kpgtbl r) (k_started r) (k_vdisk r) (k_fuel r).
Definition set_k_ftable (x : list file) (r : kstate) : kstate :=
  KState (k_sync r) (k_sleeplocks r) (k_procs r) (k_nextpid r) (k_initproc r) (k_first r)
    (k_mem r) (k_freelist r) (k_bufs r) (k_disk r) (k_dtrace r) (k_log r) (k_sb r) (k_itable r)
    x (k_devsw r) (k_pipes r) (k_cons r) (k_uart r) (k_plic r) (k_irqs r) (k_locking r)
    (k_panicked r) (k_ticks r) (k_kpgtbl r) (k_started r) (k_vdisk r) (k_fuel r).
Definition set_k_devsw (x : list devsw) (r : kstate) : kstate :=
  KState (k_sync r) (k_sleeplocks r) (k_procs r) (k_nextpid r) (k_initproc r) (k_first r)
    (k_mem r) (k_freelist r) (k_bufs r) (k_disk r) (k_dtrace r) (k_log r) (k_sb r) (k_itable r)
    (k_ftable r) x (k_pipes r) (k_cons r) (k_uart r) (k_plic r) (k_irqs r) (k_locking r)
    (k_panicked r) (k_ticks r) (k_kpgtbl r) (k_started r) (k_vdisk r) (k_fuel r).
Definition set_k_pipes (x : gmap Z pipe) (r : kstate) : kstate :=
  KState (k_sync r) (k_sleeplocks r) (k_procs r) (k_nextpid r) (k_initproc r) (k_first r)
    (k_mem r) (k_freelist r) (k_bufs r) (k_disk r) (k_dtrace r) (k_log r) (k_sb r) (k_itable r)
    (k_ftable r) (k_devsw r) x (k_cons r) (k_uart r) (k_plic r) (k_irqs r) (k_locking r)
    (k_panicked r) (k_ticks r) (k_kpgtbl r) (k_started r) (k_vdisk r) (k_fuel r).
Definition set_k_cons (x : consst) (r : kstate) : kstate :=
  KState (k_sync r) (k_sleeplocks r) (k_procs r) (k_nextpid r) (k_initproc r) (k_first r)
    (k_mem r) (k_freelist r) (k_bufs r) (k_disk r) (k_dtrace r) (k_log r) (k_sb r) (k_itable r)
    (k_ftable r) (k_devsw r) (k_pipes r) x (k_uart r) (k_plic r) (k_irqs r) (k_locking r)
    (k_panicked r) (k_ticks r) (k_kpgtbl r) (k_started r) (k_vdisk r) (k_fuel r).
Definition set_k_uart (x : uartst) (r : kstate) : kstate :=
  KState (k_sync r) (k_sleeplocks r) (k_procs r) (k_nextpid r) (k_initproc r) (k_first r)
    (k_mem r) (k_freelist r) (k_bufs r) (k_disk r) (k_dtrace r) (k_log r) (k_sb r) (k_itable r)
    (k_ftable r) (k_devsw r) (k_pipes r) (k_cons r) x (k_plic r) (k_irqs r) (k_locking r)
    (k_panicked r) (k_ticks r) (k_kpgtbl r) (k_started r) (k_vdisk r) (k_fuel r).
Definition set_k_plic (x : gmap Z Z) (r : kstate) : kstate :=
  KState (k_sync r) (k_sleeplocks r) (k_procs r) (k_nextpid r) (k_initproc r) (k_first r)
    (k_mem r) (k_freelist r) (k_bufs r) (k_disk r) (k_dtrace r) (k_log r) (k_sb r) (k_itable r)
    (k_ftable r) (k_devsw r) (k_pipes r) (k_cons r) (k_uart r) x (k_irqs r) (k_locking r)
    (k_panicked r) (k_ticks r) (k_kpgtbl r) (k_started r) (k_vdisk r) (k_fuel r).
Definition set_k_irqs (x : list Z) (r : kstate) : kstate :=
  KState (k_sync r) (k_sleeplocks r) (k_procs r) (k_nextpid r) (k_initproc r) (k_first r)
    (k_mem r) (k_freelist r) (k_bufs r) (k_disk r) (k_dtrace r) (k_log r) (k_sb r) (k_itable r)
    (k_ftable r) (k_devsw r) (k_pipes r) (k_cons r) (k_uart r) (k_plic r) x (k_locking r)
    (k_panicked r) (k_ticks r) (k_kpgtbl r) (k_started r) (k_vdisk r) (k_fuel r).
Definition set_k_locking (x : Z) (r : kstate) : kstate :=
  KState (k_sync r) (k_sleeplocks r) (k_procs r) (k_nextpid r) (k_initproc r) (k_first r)
    (k_mem r) (k_freelist r) (k_bufs r) (k_disk r) (k_dtrace r) (k_log r) (k_sb r) (k_itable r)
    (k_ftable r) (k_devsw r) (k_pipes r) (k_cons r) (k_uart r) (k_plic r) (k_irqs r) x
    (k_panicked r) (k_ticks r) (k_kpgtbl r) (k_started r) (k_vdisk r) (k_fuel r).
Definition set_k_panicked (x : Z) (r : kstate) : kstate :=
  KState (k_sync r) (k_sleeplocks r) (k_procs r) (k_nextpid r) (k_initproc r) (k_first r)
    (k_mem r) (k_freelist r) (k_bufs r) (k_disk r) (k_dtrace r) (k_log r) (k_sb r) (k_itable r)
    (k_ftable r) (k_devsw r) (k_pipes r) (k_cons r) (k_uart r) (k_plic r) (k_irqs r)
    (k_locking r) x (k_ticks r) (k_kpgtbl r) (k_started r) (k_vdisk r) (k_fuel r).
Definition set_k_ticks (x : Z) (r : kstate) : kstate :=
  KState (k_sync r) (k_sleeplocks r) (k_procs r) (k_nextpid r) (k_initproc r) (k_first r)
    (k_mem r) (k_freelist r) (k_bufs r) (k_disk r) (k_dtrace r) (k_log r) (k_sb r) (k_itable r)
    (k_ftable r) (k_devsw r) (k_pipes r) (k_cons r) (k_uart r) (k_plic r) (k_irqs r)
    (k_locking r) (k_panicked r) x (k_kpgtbl r) (k_started r) (k_vdisk r) (k_fuel r).
Definition set_k_kpgtbl (x : Z) (r : kstate) : kstate :=
  KState (k_sync r) (k_sleeplocks r) (k_procs r) (k_nextpid r) (k_initproc r) (k_first r)
    (k_mem r) (k_freelist r) (k_bufs r) (k_disk r) (k_dtrace r) (k_log r) (k_sb r) (k_itable r)
    (k_ftable r) (k_devsw r) (k_pipes r) (k_cons r) (k_uart r) (k_plic r) (k_irqs r)
    (k_locking r) (k_panicked r) (k_ticks r) x (k_started r) (k_vdisk r) (k_fuel r).
Definition set_k_started (x : Z) (r : kstate) : kstate :=
  KState (k_sync r) (k_sleeplocks r) (k_procs r) (k_nextpid r) (k_initproc r) (k_first r)
    (k_mem r) (k_freelist r) (k_bufs r) (k_disk r) (k_dtrace r) (k_log r) (k_sb r) (k_itable r)
    (k_ftable r) (k_devsw r) (k_pipes r) (k_cons r) (k_uart r) (k_plic r) (k_irqs r)
    (k_locking r) (k_panicked r) (k_ticks r) (k_kpgtbl r) x (k_vdisk r) (k_fuel r).
Definition set_k_vdisk (x : vdisk) (r : kstate) : kstate :=
  KState (k_sync r) (k_sleeplocks r) (k_procs r) (k_nextpid r) (k_initproc r) (k_first r)
    (k_mem r) (k_freelist r) (k_bufs r) (k_disk r) (k_dtrace r) (k_log r) (k_sb r) (k_itable r)
    (k_ftable r) (k_devsw r) (k_pipes r) (k_cons r) (k_uart r) (k_plic r) (k_irqs r)
    (k_locking r) (k_panicked r) (k_ticks r) (k_kpgtbl r) (k_started r) x (k_fuel r).
Definition set_k_fuel (x : nat) (r : kstate) : kstate :=
  KState (k_sync r) (k_sleeplocks r) (k_procs r) (k_nextpid r) (k_initproc r) (k_first r)
    (k_mem r) (k_freelist r) (k_bufs r) (k_disk r) (k_dtrace r) (k_log r) (k_sb r) (k_itable r)
    (k_ftable r) (k_devsw r) (k_pipes r) (k_cons r) (k_uart r) (k_plic r) (k_irqs r)
    (k_locking r) (k_panicked r) (k_ticks r) (k_kpgtbl r) (k_started r) (k_vdisk r) x.

(** Kernel code. *)
Abbreviation KM := (M kstate).

(** ** Addresses fixed by the linker

    [end_], [etext] and the entry points of the assembly code are symbols of
    the linked image (kernel/kernel.ld and the [.S] files), so they are
    parameters of the model; [ImageOk] states what the linker script
    guarantees about them. *)
Class Image : Type := {
  end_ : Z;             (** first address after the kernel *)
  etext : Z;            (** end of the kernel's text *)
  trampoline : Z;       (** the page of trampoline.S *)
  uservec : Z; userret : Z; kernelvec : Z; usertrap_pc : Z; forkret_pc : Z;
  disk_pages : Z        (** [disk.pages] of virtio_disk.c *)
}.
Class ImageOk `{Image} : Prop := {
  etext_aligned : etext mod PGSIZE = 0;
  trampoline_aligned : trampoline mod PGSIZE = 0;
  image_layout : KERNBASE ≤ trampoline < etext ∧ etext ≤ end_ < PHYSTOP
}.


(** [kcbn] computes the fields of updated kernel states; [keq s] proves two
    updates of [s] equal. *)
Ltac kcbn := cbn [
    k_sync k_sleeplocks k_procs k_nextpid k_initproc k_first k_mem k_freelist k_bufs
    k_disk k_dtrace k_log k_sb k_itable k_ftable k_devsw k_pipes k_cons k_uart k_plic
    k_irqs k_locking k_panicked k_ticks k_kpgtbl k_started k_vdisk k_fuel set_k_sync
    set_k_sleeplocks set_k_procs set_k_nextpid set_k_initproc set_k_first set_k_mem
    set_k_freelist set_k_bufs set_k_disk set_k_dtrace set_k_log set_k_sb set_k_itable
    set_k_ftable set_k_devsw set_k_pipes set_k_cons set_k_uart set_k_plic set_k_irqs
    set_k_locking set_k_panicked set_k_ticks set_k_kpgtbl set_k_started set_k_vdisk
    set_k_fuel ].
Ltac keq s := kcbn; destruct s; reflexivity.
