(* ===== verification/Spinlock.v ===== *)
(** * Spin locks (kernel/spinlock.c)

    [acquire], [release], [holding] and the interrupt nesting of [push_off]
    and [pop_off], on the part of the state they touch ([syncst]), and their
    versions on the whole kernel state. Module [Smp] models [acquire] and
    [release] at the granularity of their memory operations, with any number
    of harts interleaved, for mutual exclusion. *)

From S2P Require Import Prelude Riscv KState.
Open Scope Z_scope.

(** ** Interrupts and the current processor *)

Definition set_sstatus (f : Z → Z) (y : syncst) : syncst :=
  set_hart (set_r_sstatus (f (r_sstatus (hart y))) (hart y)) y.

Definition intr_on : M syncst unit := modify (set_sstatus (λ x, Z.lor x SSTATUS_SIE)).
Definition intr_off : M syncst unit :=
  modify (set_sstatus (λ x, Z.land x (Z.lnot SSTATUS_SIE))).
Definition intr_enabled (y : syncst) : Z :=
  b2z (negb (Z.land (r_sstatus (hart y)) SSTATUS_SIE =? 0)).
Definition intr_get : M syncst Z := gets intr_enabled.

Definition cpuid : M syncst Z := gets (λ y, i32 (r_tp (hart y))).

(** [mycpu()] is [&cpus[id]], here the index [id]. *)
Definition mycpu : M syncst nat := id ← cpuid; mret (Z.to_nat id).

Definition get_cpu (c : nat) : M syncst cpu :=
  y ← gets id; deref (cpus y !! c).
Definition upd_cpu (c : nat) (f : cpu → cpu) : M syncst unit :=
  modify (λ y, set_cpus (alter f c (cpus y)) y).

(** ** spinlock.c *)

Definition get_lock (l : lockid) : M syncst spinlock :=
  y ← gets id; deref (locks y !! l).
Definition put_lock (l : lockid) (k : spinlock) : M syncst unit :=
  modify (λ y, set_locks (<[l := k]> (locks y)) y).

Definition initlock (l : lockid) (name : string) : M syncst unit :=
  put_lock l (Spinlock 0 name None).

Definition holding (l : lockid) : M syncst Z :=
  k ← get_lock l;
  c ← mycpu;
  mret (b2z (negb (lk_locked k =? 0) && bool_decide (lk_cpu k = Some c))).

Definition push_off : M syncst unit :=
  old ← intr_get;
  intr_off ;;
  c ← mycpu;
  k ← get_cpu c;
  (if c_noff k =? 0 then upd_cpu c (set_c_intena old) else mret tt) ;;
  upd_cpu c (λ k, set_c_noff (c_noff k + 1) k).

Definition pop_off : M syncst unit :=
  c ← mycpu;
  i ← intr_get;
  if negb (i =? 0) then panic "pop_off - interruptible" else
  k ← get_cpu c;
  if c_noff k <? 1 then panic "pop_off" else
  upd_cpu c (λ k, set_c_noff (c_noff k - 1) k) ;;
  k ← get_cpu c;
  if (c_noff k =? 0) && negb (c_intena k =? 0) then intr_on else mret tt.

(** [__sync_lock_test_and_set(&lk->locked, 1)]: the value before the swap. *)
Definition test_and_set (l : lockid) : M syncst Z :=
  k ← get_lock l; put_lock l (set_lk_locked 1 k) ;; mret (lk_locked k).

(** The loop on [test_and_set] ends at once when the lock is free, and
    otherwise spins until another hart releases the lock. *)
Definition acquire (l : lockid) : M syncst unit :=
  push_off ;;
  h ← holding l;
  if negb (h =? 0) then panic "acquire" else
  old ← test_and_set l;
  if negb (old =? 0) then stop_with Spin else
  c ← mycpu;
  k ← get_lock l;
  put_lock l (set_lk_cpu (Some c) k).

Definition release (l : lockid) : M syncst unit :=
  h ← holding l;
  if h =? 0 then panic "release" else
  k ← get_lock l;
  put_lock l (set_lk_cpu None k) ;;
  k ← get_lock l;
  put_lock l (set_lk_locked 0 k) ;;
  pop_off.

(** ** On the kernel state *)

Definition sy {A} (m : M syncst A) : KM A := zoom k_sync set_k_sync m.

Definition kinitlock (l : lockid) (name : string) : KM unit := sy (initlock l name).
Definition kacquire (l : lockid) : KM unit := sy (acquire l).
Definition krelease (l : lockid) : KM unit := sy (release l).

(** ** Correctness *)

(** The index of the running hart's [struct cpu]. *)
Definition me (y : syncst) : nat := Z.to_nat (i32 (r_tp (hart y))).

(** The interrupt bookkeeping is consistent: inside a critical section
    interrupts are off, outside [intena] is the hart's interrupt flag. *)
Definition cpu_ok (y : syncst) : Prop :=
  ∃ k, cpus y !! me y = Some k ∧ 0 ≤ c_noff k ∧
    (c_noff k = 0 → c_intena k = intr_enabled y) ∧
    (0 < c_noff k → intr_enabled y = 0).

Definition lock_free (l : lockid) (y : syncst) : Prop :=
  ∃ nm, locks y !! l = Some (Spinlock 0 nm None).

(** The state after a successful [acquire l]. *)
Definition acq (l : lockid) (y : syncst) : syncst :=
  Sync (set_r_sstatus (Z.land (r_sstatus (hart y)) (Z.lnot SSTATUS_SIE)) (hart y))
    (alter (λ k, set_c_noff (c_noff k + 1) k) (me y) (cpus y))
    (alter (λ k, Spinlock 1 (lk_name k) (Some (me y))) l (locks y)).

Lemma intr_cleared x : Z.land (Z.land x (Z.lnot SSTATUS_SIE)) SSTATUS_SIE = 0.
Proof. rw -Z.land_assoc (Z.land_comm (Z.lnot _)) Z.land_lnot_diag. apply Z.land_0_r. Qed.

Lemma intr_restored x :
  Z.land x SSTATUS_SIE ≠ 0 →
  Z.lor (Z.land x (Z.lnot SSTATUS_SIE)) SSTATUS_SIE = x.
Proof.
  intros H. apply Z.bits_inj'. intros i Hi. rw Z.lor_spec Z.land_spec Z.lnot_spec //.
  unfold SSTATUS_SIE in *. rw !Z.shiftl_1_l !Z.pow2_bits_eqb // in H |- *.
  destruct (Z.eqb_spec 1 i) as [<-|]; simpl.
  - rw orb_true_r. destruct (Z.testbit x 1) eqn:E; [done|]. exfalso. apply H.
    apply Z.bits_inj'. intros j Hj. rw Z.land_spec Z.pow2_bits_eqb // Z.bits_0.
    destruct (Z.eqb_spec 1 j) as [<-|]; [by rw E|apply andb_false_r].
  - by rw orb_false_r andb_true_r.
Qed.

Lemma intr_unchanged x :
  Z.land x SSTATUS_SIE = 0 → Z.land x (Z.lnot SSTATUS_SIE) = x.
Proof.
  intros H. apply Z.bits_inj'. intros i Hi. rw Z.land_spec Z.lnot_spec //.
  assert (E : Z.testbit (Z.land x SSTATUS_SIE) i = false) by (rw H; apply Z.bits_0).
  rw Z.land_spec in E. destruct (Z.testbit x i), (Z.testbit SSTATUS_SIE i); done.
Qed.

Lemma intr_enabled_acq l y : intr_enabled (acq l y) = 0.
Proof. unfold intr_enabled. simpl. by rw intr_cleared. Qed.

(** The state after [push_off]. *)
Definition pushed (y : syncst) : syncst :=
  Sync (set_r_sstatus (Z.land (r_sstatus (hart y)) (Z.lnot SSTATUS_SIE)) (hart y))
    (alter (λ k, set_c_noff (c_noff k + 1) k) (me y) (cpus y)) (locks y).

Lemma push_off_ok y : cpu_ok y → push_off y = Ret tt (pushed y).
Proof.
  intros (k & Hk & Hn & Hz & Hp). unfold push_off, pushed, me in *.
  unfold intr_get, intr_off, mycpu, cpuid, get_cpu, upd_cpu. mrun. cbn. rw Hk. cbn.
  destruct (Z.eqb_spec (c_noff k) 0) as [E|E]; cbn; [|done].
  rw (list_alter_same _ _ (set_c_intena _) k Hk) //. rw -(Hz E). by destruct k.
Qed.

Lemma pop_off_pushed y : cpu_ok y → pop_off (pushed y) = Ret tt y.
Proof.
  intros (k & Hk & Hn & Hz & Hp). unfold pop_off, pushed, me in *.
  unfold mycpu, cpuid, intr_get, intr_enabled, get_cpu, upd_cpu. mrun. cbn.
  rw intr_cleared. cbn. rw list_lookup_alter_eq Hk. cbn.
  destruct (Z.ltb_spec (c_noff k + 1) 1) as [E|_]; [lia|]. mrun. cbn.
  rw !list_lookup_alter_eq Hk. cbn. rw list_alter_alter.
  rw (list_alter_same _ _ _ k Hk); [|destruct k; cbn in *; unfold set_c_noff; cbn; f_equal; lia].
  unfold intr_enabled in *. rw Z.add_simpl_r.
  destruct (Z.eqb_spec (Z.land (r_sstatus (hart y)) SSTATUS_SIE) 0) as [E|E].
  - rw intr_unchanged //. destruct (Z.eqb_spec (c_noff k) 0) as [E'|E'].
    + rw (Hz E'). by destruct y as [[] ? ?].
    + by destruct y as [[] ? ?].
  - destruct (Z.eqb_spec (c_noff k) 0) as [E'|E'].
    + rw (Hz E'). cbn. unfold intr_on, set_sstatus. mrun. cbn. rw intr_restored //.
      by destruct y as [[] ? ?].
    + exfalso. assert (0 < c_noff k) as H by lia. by apply Hp in H.
Qed.

Lemma pushed_ok y : cpu_ok y → cpu_ok (pushed y).
Proof.
  intros (k & Hk & Hn & Hz & Hp). exists (set_c_noff (c_noff k + 1) k).
  unfold pushed, me in *. cbn. rw list_lookup_alter_eq Hk. cbn.
  unfold intr_enabled. cbn. rw intr_cleared. split_and!; [done|lia|lia|done].
Qed.

Lemma acq_pushed l y :
  acq l y = set_locks (alter (λ k, Spinlock 1 (lk_name k) (Some (me y))) l (locks y)) (pushed y).
Proof. done. Qed.

Lemma acquire_free l y : cpu_ok y → lock_free l y → acquire l y = Ret tt (acq l y).
Proof.
  intros Hok (nm & Hl). unfold acquire. mstep (push_off_ok y Hok).
  unfold test_and_set, holding, get_lock, put_lock, mycpu, cpuid, pushed. mrun. cbn. mrw Hl.
  mrw lookup_insert_eq. unfold acq. rw (alter_alt_Some _ _ _ _ Hl).
  by rw insert_insert_eq.
Qed.

Lemma acquire_held l y nm c :
  cpu_ok y → locks y !! l = Some (Spinlock 1 nm (Some c)) →
  acquire l y =
    if decide (c = me y) then Stop (Panic "acquire") (pushed y)
    else Stop Spin (pushed y).
Proof.
  intros Hok Hl. unfold acquire. mstep (push_off_ok y Hok).
  unfold test_and_set, holding, get_lock, put_lock, mycpu, cpuid, pushed. mrun. cbn. mrw Hl.
  unfold me. case_decide as E.
  - subst. by rw bool_decide_true.
  - rw bool_decide_false; [|congruence]. cbn. mrw Hl. rw insert_id //.
Qed.

Lemma release_acq l y : cpu_ok y → lock_free l y → release l (acq l y) = Ret tt y.
Proof.
  intros Hok (nm & Hl). unfold release, holding, get_lock, put_lock, mycpu, cpuid, acq. mrun. cbn.
  rw (alter_alt_Some _ _ _ _ Hl). mrw lookup_insert_eq.
  rw bool_decide_true //. cbn. mrw lookup_insert_eq. rw !insert_insert_eq.
  rw (insert_id _ _ _ Hl). by rw -(pop_off_pushed y Hok).
Qed.

Lemma acq_ok l y : cpu_ok y → cpu_ok (acq l y).
Proof. apply pushed_ok. Qed.

Lemma acq_free_ne l l' y : l ≠ l' → lock_free l' y → lock_free l' (acq l y).
Proof. intros Hne (nm & Hl). exists nm. cbn. by rw lookup_alter_ne. Qed.

(** Locks taken in one order may be released in the other, as [sleep] does. *)
Lemma acq_comm l l' y : l ≠ l' → acq l (acq l' y) = acq l' (acq l y).
Proof. intros Hne. unfold acq. cbn. f_equal. by rw alter_alter_ne. Qed.

Lemma release_acq_under l l' y :
  cpu_ok y → lock_free l y → l ≠ l' →
  release l (acq l' (acq l y)) = Ret tt (acq l' y).
Proof.
  intros Hok Hl Hne. rw acq_comm //. apply release_acq; [by apply acq_ok|].
  by apply acq_free_ne.
Qed.

Lemma release_not_held l y k :
  locks y !! l = Some k → (lk_locked k = 0 ∨ lk_cpu k ≠ Some (me y)) →
  release l y = Stop (Panic "release") y.
Proof.
  intros Hl Hk. unfold release, holding, get_lock, mycpu, cpuid. mrun. rw Hl. cbn.
  destruct Hk as [->|Hk]; [done|]. rw (bool_decide_false (lk_cpu k = _)) //.
  by rw andb_false_r.
Qed.

(** The same facts on the kernel state: [acquire] and [release] only change
    its [k_sync] part. *)
Lemma kacquire_free l s :
  cpu_ok (k_sync s) → lock_free l (k_sync s) →
  kacquire l s = Ret tt (set_k_sync (acq l (k_sync s)) s).
Proof. intros Hok Hl. apply zoom_Ret. by apply acquire_free. Qed.

Lemma krelease_acq l s y :
  k_sync s = acq l y → cpu_ok y → lock_free l y →
  krelease l s = Ret tt (set_k_sync y s).
Proof. intros E Hok Hl. apply zoom_Ret. rw E. by apply release_acq. Qed.

(** ** Harts interleaved

    One lock, any number of harts, each running [acquire(lk); ...;
    release(lk)] over and over. A step of a hart is one access to the
    lock's memory; the steps of the harts interleave freely. *)
Module Smp.

(** Where a hart is. *)
Inductive pc : Type :=
| Outside       (** not using the lock *)
| AcqHolding    (** [acquire]: about to read [lk->locked] in [holding] *)
| AcqHolding2   (** [lk->locked] was non-zero: about to read [lk->cpu] *)
| Spinning      (** about to run [__sync_lock_test_and_set] *)
| Taken         (** it returned 0: about to write [lk->cpu] *)
| Critical      (** [acquire] has returned *)
| RelHolding    (** [release]: about to read [lk->locked] in [holding] *)
| RelHolding2   (** about to read [lk->cpu] *)
| RelClear      (** about to clear [lk->cpu] *)
| RelUnlock     (** about to run [__sync_lock_release] *)
| Panicked.     (** [panic("acquire")] or [panic("release")] *)
#[export] Instance pc_eq_dec : EqDecision pc.
Proof. solve_decision. Defined.

Record state : Type := State { locked : Z; cpu : option nat; pcs : nat → pc }.

Definition upd (f : nat → pc) (i : nat) (p : pc) (j : nat) : pc :=
  if decide (i = j) then p else f j.
Definition goto (s : state) (i : nat) (p : pc) : state :=
  State (locked s) (cpu s) (upd (pcs s) i p).

(** One memory access of hart [i], as a function: the code between two
    accesses is deterministic. *)
Definition hart_access (s : state) (i : nat) : state :=
  match pcs s i with
  | Outside => goto s i AcqHolding
  | AcqHolding => goto s i (if locked s =? 0 then Spinning else AcqHolding2)
  | AcqHolding2 => goto s i (if decide (cpu s = Some i) then Panicked else Spinning)
  | Spinning =>
      State 1 (cpu s) (upd (pcs s) i (if locked s =? 0 then Taken else Spinning))
  | Taken => State (locked s) (Some i) (upd (pcs s) i Critical)
  | Critical => goto s i RelHolding
  | RelHolding => goto s i (if locked s =? 0 then Panicked else RelHolding2)
  | RelHolding2 => goto s i (if decide (cpu s = Some i) then RelClear else Panicked)
  | RelClear => State (locked s) None (upd (pcs s) i RelUnlock)
  | RelUnlock => State 0 (cpu s) (upd (pcs s) i Outside)
  | Panicked => s
  end.

Inductive step : state → state → Prop :=
| step_hart s i : step s (hart_access s i).

Definition init : state := State 0 None (λ _, Outside).

(** The hart owns the lock: its swap has returned 0 and it has not yet
    stored 0. *)
Definition owner (p : pc) : bool :=
  match p with
  | Taken | Critical | RelHolding | RelHolding2 | RelClear | RelUnlock => true
  | _ => false
  end.
(** ... and [lk->cpu] names it. *)
Definition named (p : pc) : bool :=
  match p with
  | Critical | RelHolding | RelHolding2 | RelClear => true
  | _ => false
  end.

Definition inv (s : state) : Prop :=
  (∀ i, pcs s i ≠ Panicked) ∧
  (∀ i, owner (pcs s i) = true → locked s = 1) ∧
  (∀ i j, owner (pcs s i) = true → owner (pcs s j) = true → i = j) ∧
  (∀ i, named (pcs s i) = true ↔ cpu s = Some i).

Lemma inv_step s s' : inv s → step s s' → inv s'.
Proof.
  intros Hinv Hst. destruct Hst as [s0 i]. destruct Hinv as (Hp & Hl & Hu & Hc). unfold hart_access.
  pose proof (Hp i) as Hpi. pose proof (Hl i) as Hli. pose proof (Hc i) as Hci.
  assert (∀ j, owner (pcs s0 i) = true → owner (pcs s0 j) = true → i = j) as Hui by (intros j; apply Hu).
  assert (∀ j, named (pcs s0 j) = true → owner (pcs s0 j) = true) as Hno
    by (intros j; by destruct (pcs s0 j)).
  destruct (pcs s0 i) eqn:E; try done.
  all: try (destruct (Z.eqb_spec (locked s0) 0) as [E0|E0]).
  all: try (destruct (decide (cpu s0 = Some i)) as [E1|E1]).
  all: cbn in Hli, Hci, Hui.
  all: try (exfalso; first [by apply Hci in E1 | by specialize (Hli eq_refl); congruence
                           | by apply E1, Hci]).
  all: unfold inv, goto, upd; cbn; split_and!.
  all: try (intros j; case_decide; [done|by apply Hp]).
  all: try (intros j j'; repeat case_decide; subst; cbn; intros Ho Ho'; try done;
            first [by apply Hu | by apply Hui | by symmetry; apply Hui
                  | by apply Hl in Ho; congruence | by apply Hl in Ho'; congruence]).
  all: try (intros j; case_decide; subst; cbn;
            [try done; by intros _; apply Hli
            |intros Ho; first [done | by apply (Hl j) | by specialize (Hui j eq_refl Ho)]]).
  all: intros j; case_decide; subst; cbn; try (by rw -Hc); try done.
  all: split; intros Hj; try done; try congruence.
  all: try (by specialize (Hui j eq_refl (Hno j Hj))).
  all: try (by apply Hci).
Qed.

Lemma inv_reachable s : rtc step init s → inv s.
Proof.
  apply (rtc_ind_r (λ s, inv s)).
  - by split_and!; cbn.
  - intros x y _ Hst Hx. by eapply inv_step.
Qed.

(** C3. Spin locks exclude each other: however the memory accesses of any
    number of harts running [acquire] and [release] interleave, at most one
    hart is between its successful swap and its store of 0, a hart inside
    the critical section finds [lk->locked] set and [lk->cpu] naming it (so
    [holding] is exact), and neither [panic("acquire")] nor
    [panic("release")] is ever reached by a hart that uses the lock
    correctly. *)
Theorem mutual_exclusion (s : state) :
  rtc step init s →
  (∀ i j, owner (pcs s i) = true → owner (pcs s j) = true → i = j) ∧
  (∀ i, pcs s i = Critical → locked s = 1 ∧ cpu s = Some i) ∧
  (∀ i, pcs s i ≠ Panicked).
Proof.
  intros (Hp & Hl & Hu & Hc)%inv_reachable. split_and!; [done| |done].
  intros i Hi. split; [apply (Hl i)|apply Hc]; by rw Hi.
Qed.

(** Two harts race for the lock: hart 0 gets it, hart 1 spins. *)
Definition race : state := fold_left hart_access [0; 1; 0; 1; 0; 1; 0]%nat init.
Lemma mutual_exclusion_witness :
  pcs race 0%nat = Critical ∧ pcs race 1%nat = Spinning ∧ cpu race = Some 0%nat.
Proof.
  assert (rtc step init race) as H.
  { unfold race. cbn [fold_left]. do 7 (eapply rtc_r; [|apply step_hart]). apply rtc_refl. }
  split_and!; [reflexivity|reflexivity|].
  apply (mutual_exclusion race H). reflexivity.
Defined.
End Smp.

(** Run [m] [n] times. *)
Fixpoint timesM {S} (n : nat) (m : M S unit) : M S unit :=
  match n with O => mret tt | Datatypes.S n => m ;; timesM n m end.

Lemma push_off_times n y : cpu_ok y →
  timesM n push_off y = Ret tt (Nat.iter n pushed y) ∧ cpu_ok (Nat.iter n pushed y).
Proof.
  revert y; induction n as [|n IH]; intros y Hy; [done|]. cbn [timesM].
  mstep (push_off_ok y Hy). destruct (IH (pushed y) (pushed_ok y Hy)) as [E Hn].
  rw E. by rw -Nat.iter_succ_r in Hn |- *.
Qed.

Lemma pop_off_times n y : cpu_ok y → timesM n pop_off (Nat.iter n pushed y) = Ret tt y.
Proof.
  revert y; induction n as [|n IH]; intros y Hy; [done|]. cbn [timesM Nat.iter].
  destruct (push_off_times n y Hy) as [_ Hn]. mstep (pop_off_pushed _ Hn). by apply IH.
Qed.

(** [push_off] and [pop_off] nest: [n] calls of the first followed by
    [n] of the second restore the hart's state exactly (so interrupts end
    up as they were, on or off), and interrupts are off after any positive
    number of [push_off]s. *)
Theorem push_pop_nested (n : nat) (y : syncst) :
  cpu_ok y →
  (timesM n push_off ;; timesM n pop_off) y = Ret tt y ∧
  ∃ y', timesM n push_off y = Ret tt y' ∧ ((0 < n)%nat → intr_enabled y' = 0).
Proof.
  intros Hy. destruct (push_off_times n y Hy) as [E Hn]. split.
  - mstep E. by apply pop_off_times.
  - exists (Nat.iter n pushed y). split; [done|]. destruct n; [lia|]. intros _.
    cbn. unfold intr_enabled, pushed. cbn. by rw intr_cleared.
Qed.

(** A hart with interrupts on and all locks free, for the witnesses. *)
Definition cpu0 : cpu := Cpu None (Context 0 0 []) 0 1.
Definition regs0 : regs := Regs 0 2 0 0 0 0 0 0.
Definition sync0 : syncst :=
  Sync regs0 [cpu0] {[ LKmem := Spinlock 0 "kmem" None; LPid := Spinlock 0 "nextpid" None ]}.
Lemma cpu_ok_sync0 : cpu_ok sync0.
Proof. exists cpu0. split_and!; done. Qed.

Lemma push_pop_nested_witness :
  intr_enabled sync0 = 1 ∧ (timesM 3 push_off ;; timesM 3 pop_off) sync0 = Ret tt sync0.
Proof.
  split; [reflexivity|]. apply (push_pop_nested 3 sync0). exact cpu_ok_sync0.
Defined.

(** [acquire] and [release] on a consistent hart: a free lock is taken,
    with interrupts off and [holding] true; releasing it gives back the
    state before [acquire]; acquiring it again instead panics, and so does
    releasing a lock that is not held. *)
Theorem acquire_release (l : lockid) (y : syncst) :
  cpu_ok y → lock_free l y →
  ∃ y', acquire l y = Ret tt y' ∧ intr_enabled y' = 0 ∧ holding l y' = Ret 1 y' ∧
    release l y' = Ret tt y ∧
    (∃ z, acquire l y' = Stop (Panic "acquire") z) ∧
    release l y = Stop (Panic "release") y.
Proof.
  intros Hy Hl. exists (acq l y). pose proof Hl as (nm & Hk).
  assert (locks (acq l y) !! l = Some (Spinlock 1 nm (Some (me y)))) as Hk'.
  { cbn. by rw lookup_alter_eq Hk. }
  split_and!.
  - by apply acquire_free.
  - apply intr_enabled_acq.
  - unfold holding, get_lock, mycpu, cpuid. mrun. mrw Hk'. by rw bool_decide_true.
  - by apply release_acq.
  - eexists. rw (acquire_held _ _ nm (me y)) //; [by rw decide_True|by apply acq_ok].
  - eapply release_not_held; [done|by left].
Qed.

Lemma acquire_release_witness :
  ∃ y', acquire LKmem sync0 = Ret tt y' ∧ release LKmem y' = Ret tt sync0.
Proof.
  destruct (acquire_release LKmem sync0) as (y' & H & _ & _ & H' & _).
  - exact cpu_ok_sync0.
  - exists "kmem"%string. reflexivity.
  - exists y'. split; assumption.
Defined.

