(* ===== verification/KString.v ===== *)
(** * Memory and string functions (kernel/string.c)

    [memset], [memmove] and [memcmp] work on the byte memory through
    addresses. The string functions take pointers into character arrays,
    modelled as the list of the bytes from the pointer on; reading at the
    end of the list gives the terminating NUL of a C string. A function that
    writes an array returns the array's new contents. *)

From S2P Require Import Prelude.
Open Scope Z_scope.

(** ** Definitions *)

(** [for(i = 0; i < n; i++) cdst[i] = c;], [n] counting the bytes left. *)
Fixpoint memset_loop (m : bytemem) (cdst : Z) (i : Z) (c : Z) (n : nat) : bytemem :=
  match n with
  | O => m
  | S n => memset_loop (<[cdst + i := u8 c]> m) cdst (i + 1) c n
  end.
Definition memset (m : bytemem) (dst c n : Z) : bytemem :=
  memset_loop m dst 0 c (Z.to_nat n).

Fixpoint memcmp (m : bytemem) (s1 s2 : Z) (n : nat) : Z :=
  match n with
  | O => 0
  | S n =>
      if ldb m s1 =? ldb m s2 then memcmp m (s1 + 1) (s2 + 1) n
      else ldb m s1 - ldb m s2
  end.

(** [while(n-- > 0) *--d = *--s;] *)
Fixpoint copy_down (m : bytemem) (d s : Z) (n : nat) : bytemem :=
  match n with
  | O => m
  | S n => copy_down (<[d - 1 := ldb m (s - 1)]> m) (d - 1) (s - 1) n
  end.
(** [while(n-- > 0) *d++ = *s++;] *)
Fixpoint copy_up (m : bytemem) (d s : Z) (n : nat) : bytemem :=
  match n with
  | O => m
  | S n => copy_up (<[d := ldb m s]> m) (d + 1) (s + 1) n
  end.

Definition memmove (m : bytemem) (dst src n : Z) : bytemem :=
  if n =? 0 then m else
  if (src <? dst) && (dst <? src + n)
  then copy_down m (dst + n) (src + n) (Z.to_nat n)
  else copy_up m dst src (Z.to_nat n).

Definition memcpy (m : bytemem) (dst src n : Z) : bytemem := memmove m dst src n.

Fixpoint strncmp (p q : list Z) (n : nat) : Z :=
  match n with
  | O => 0
  | S n =>
      if negb (hd 0 p =? 0) && (hd 0 p =? hd 0 q) then strncmp (tl p) (tl q) n
      else hd 0 p - hd 0 q
  end.

(** [while(n-- > 0) *s++ = 0;] *)
Fixpoint zero_fill (s : list Z) (n : nat) : list Z :=
  match n with
  | O => s
  | S n => 0 :: zero_fill (tl s) n
  end.
Fixpoint strncpy_loop (s t : list Z) (n : nat) : list Z :=
  match n with
  | O => s
  | S n =>
      hd 0 t :: (if hd 0 t =? 0 then zero_fill (tl s) n
                 else strncpy_loop (tl s) (tl t) n)
  end.
Definition strncpy (s t : list Z) (n : Z) : list Z := strncpy_loop s t (Z.to_nat n).

(** [while(--n > 0 && ( *s++ = *t++) != 0); *s = 0;] with [k = n - 1]. *)
Fixpoint safestrcpy_loop (s t : list Z) (k : nat) : list Z :=
  match k with
  | O => 0 :: tl s
  | S k =>
      hd 0 t :: (if hd 0 t =? 0 then 0 :: tl (tl s)
                 else safestrcpy_loop (tl s) (tl t) k)
  end.
Definition safestrcpy (s t : list Z) (n : Z) : list Z :=
  if n <=? 0 then s else safestrcpy_loop s t (Z.to_nat (n - 1)).

Fixpoint strlen (s : list Z) : Z :=
  match s with
  | [] => 0
  | c :: s => if c =? 0 then 0 else 1 + strlen s
  end.

(** ** Memory functions *)

Lemma memset_loop_stn m d i c n :
  memset_loop m d i c n = stn m (d + i) (replicate n (u8 c)).
Proof.
  revert m i; induction n as [|n IH]; intros m i; simpl; [done|].
  rw IH. f_equal. lia.
Qed.
Lemma memset_stn m d c n : memset m d c n = stn m d (replicate (Z.to_nat n) (u8 c)).
Proof. unfold memset. by rw memset_loop_stn Z.add_0_r. Qed.

Lemma ldb_memset m d c n x :
  0 ≤ n → ldb (memset m d c n) x = if decide (d ≤ x < d + n) then u8 c else ldb m x.
Proof.
  intros Hn. rw memset_stn ldb_stn length_replicate. case_decide.
  - rw decide_True; [|lia]. apply lookup_total_replicate_2. lia.
  - rw decide_False //. lia.
Qed.

Lemma ldb_copy_up m d s (n : nat) x :
  (s < d → s + n ≤ d) →
  ldb (copy_up m d s n) x =
    if decide (d ≤ x < d + n) then ldb m (s + (x - d)) else ldb m x.
Proof.
  revert m d s; induction n as [|n IH]; intros m d s H; cbn [copy_up].
  - by rw decide_False; [|lia].
  - rw IH; [|lia]. rw !ldb_insert. repeat case_decide; try lia; try done.
    + f_equal. lia.
    + subst. f_equal. lia.
Qed.

Lemma ldb_copy_down m d s (n : nat) x :
  (s < d) →
  ldb (copy_down m d s n) x =
    if decide (d - n ≤ x < d) then ldb m (s + (x - d)) else ldb m x.
Proof.
  revert m d s; induction n as [|n IH]; intros m d s H; cbn [copy_down].
  - by rw decide_False; [|lia].
  - rw IH; [|lia]. rw !ldb_insert. repeat case_decide; try lia; try done.
    + f_equal. lia.
    + subst. f_equal. lia.
Qed.

Lemma ldb_memmove m d s n x :
  0 ≤ n →
  ldb (memmove m d s n) x =
    if decide (d ≤ x < d + n) then ldb m (s + (x - d)) else ldb m x.
Proof.
  intros Hn. unfold memmove. destruct (Z.eqb_spec n 0) as [->|Hn0].
  { by rw decide_False; [|lia]. }
  destruct (Z.ltb_spec s d), (Z.ltb_spec d (s + n)); cbn.
  - rw ldb_copy_down; [|lia]. repeat case_decide; try lia; try done. f_equal. lia.
  - rw ldb_copy_up; [|lia]. by rw Z2Nat.id.
  - rw ldb_copy_up; [|lia]. by rw Z2Nat.id.
  - rw ldb_copy_up; [|lia]. by rw Z2Nat.id.
Qed.

(** C40. [memmove] copies correctly also when source and destination
    overlap: afterwards the destination holds exactly the [n] bytes the
    source held before, and every byte outside it is unchanged. *)
Theorem memmove_correct (m : bytemem) (dst src : Z) (n : nat) :
  ldn n (memmove m dst src n) dst = ldn n m src ∧
  ∀ a, a < dst ∨ dst + n ≤ a → ldb (memmove m dst src n) a = ldb m a.
Proof.
  split.
  - apply ldn_ext. intros i Hi. rw ldb_memmove; [|lia].
    rw decide_True; [f_equal; lia|lia].
  - intros a Ha. rw ldb_memmove; [|lia]. by rw decide_False; [|lia].
Qed.

(** ** String functions *)

(** The C string an array holds: its bytes up to the first NUL. *)
Fixpoint cstr (s : list Z) : list Z :=
  match s with
  | [] => []
  | c :: s => if c =? 0 then [] else c :: cstr s
  end.

Lemma strlen_cstr s : strlen s = length (cstr s).
Proof.
  induction s as [|c s IH]; cbn; [done|]. destruct (c =? 0); cbn; lia.
Qed.

Lemma cstr_take_eq p q (n : nat) :
  strncmp p q n = 0 ↔ take n (cstr p) = take n (cstr q).
Proof.
  revert p q; induction n as [|n IH]; intros p q; [done|].
  destruct p as [|a p], q as [|b q]; cbn [strncmp hd tl cstr].
  - done.
  - destruct (Z.eqb_spec b 0) as [->|]; cbn; [done|]. split; [lia|done].
  - destruct (Z.eqb_spec a 0) as [->|]; cbn; [done|].
    destruct (Z.eqb_spec a 0); [lia|]. split; [lia|done].
  - destruct (Z.eqb_spec a 0) as [->|Ha]; cbn [negb andb].
    { destruct (Z.eqb_spec b 0) as [->|]; cbn; [done|]. split; [lia|done]. }
    destruct (Z.eqb_spec a b) as [->|Hab].
    + destruct (Z.eqb_spec b 0) as [|_]; [done|]. rw IH. cbn. split; [by intros ->|].
      by intros [= H].
    + destruct (Z.eqb_spec b 0) as [->|]; cbn; split; try lia; try done.
      intros [= H _]. lia.
Qed.

(** [strncmp] returns 0 exactly when the two C strings agree on their
    first [n] characters; otherwise its sign is that of the difference of
    the first characters that differ. *)
Theorem strncmp_correct (p q : list Z) (n : nat) :
  (strncmp p q n = 0 ↔ take n (cstr p) = take n (cstr q)) ∧
  (strncmp p q n ≠ 0 → ∃ i, (i < n)%nat ∧ take i (cstr p) = take i (cstr q) ∧
     strncmp p q n = default 0 (cstr p !! i) - default 0 (cstr q !! i)).
Proof.
  split; [apply cstr_take_eq|].
  revert p q; induction n as [|n IH]; intros p q; cbn [strncmp]; [done|].
  destruct (negb (hd 0 p =? 0) && (hd 0 p =? hd 0 q)) eqn:E.
  - apply andb_true_iff in E as [Ea%negb_true_iff Eb%Z.eqb_eq].
    intros (i & Hi & Ht & Hd)%IH. exists (S i).
    destruct p as [|a p], q as [|b q]; cbn in Ea, Eb |- *; try done; try congruence.
    { subst. done. }
    subst. rw Ea. cbn. split_and!; [lia|by f_equal|done].
  - intros Hne. exists 0%nat. split_and!; [lia|done|].
    destruct p as [|a p], q as [|b q]; cbn in *; try done.
    + destruct (Z.eqb_spec b 0); cbn; lia.
    + destruct (Z.eqb_spec a 0); cbn; lia.
    + destruct (Z.eqb_spec a 0), (Z.eqb_spec b 0); cbn; lia.
Qed.

Lemma zero_fill_eq s n : (n ≤ length s)%nat → zero_fill s n = replicate n 0 ++ drop n s.
Proof.
  revert s; induction n as [|n IH]; intros s H; [done|].
  destruct s as [|c s]; cbn in *; [lia|]. by rw IH; [|lia].
Qed.

Lemma strncpy_loop_eq s t (n : nat) :
  (n ≤ length s)%nat →
  strncpy_loop s t n =
    take n (cstr t) ++ replicate (n - length (take n (cstr t))) 0 ++ drop n s.
Proof.
  revert s t; induction n as [|n IH]; intros s t H; [done|].
  destruct s as [|c s]; cbn in H; [lia|].
  destruct t as [|a t]; cbn [strncpy_loop hd tl cstr].
  - cbn. by rw zero_fill_eq; [|lia].
  - destruct (Z.eqb_spec a 0) as [->|Ha]; cbn.
    + by rw zero_fill_eq; [|lia].
    + f_equal. by apply IH; lia.
Qed.

Lemma safestrcpy_loop_spec s t (k : nat) :
  (k < length s)%nat →
  cstr (safestrcpy_loop s t k) = take k (cstr t) ∧
  length (safestrcpy_loop s t k) = length s ∧
  drop (S k) (safestrcpy_loop s t k) = drop (S k) s.
Proof.
  revert s t; induction k as [|k IH]; intros s t H; destruct s as [|c s]; cbn in H; try lia.
  - done.
  - destruct t as [|a t]; cbn [safestrcpy_loop hd tl cstr Z.eqb].
    + destruct s as [|c' s]; cbn in *; [lia|]. done.
    + destruct (Z.eqb_spec a 0) as [->|Ha]; cbn [cstr].
      * destruct s as [|c' s]; cbn in *; [lia|]. done.
      * destruct (IH s t) as (H1 & H2 & H3); [lia|].
        destruct (Z.eqb_spec a 0); [done|]. cbn. by rw H1 H2 H3.
Qed.

(** C39. Bounded string copies. [strncpy] writes exactly the first [n] bytes
    of the destination: the source string cut at [n], then NULs.
    [safestrcpy] always leaves a NUL-terminated string, the source cut at
    [n - 1] characters; neither touches the destination past [n]. *)
Theorem bounded_copies (s t : list Z) (n : Z) :
  0 < n ≤ length s →
  strncpy s t n = take (Z.to_nat n) (cstr t) ++
    replicate (Z.to_nat n - length (take (Z.to_nat n) (cstr t))) 0 ++ drop (Z.to_nat n) s ∧
  cstr (safestrcpy s t n) = take (Z.to_nat (n - 1)) (cstr t) ∧
  length (safestrcpy s t n) = length s ∧
  drop (Z.to_nat n) (safestrcpy s t n) = drop (Z.to_nat n) s.
Proof.
  intros Hn. split; [apply strncpy_loop_eq; lia|]. unfold safestrcpy.
  destruct (Z.leb_spec n 0); [lia|].
  replace (Z.to_nat n) with (S (Z.to_nat (n - 1))) by lia.
  apply safestrcpy_loop_spec. lia.
Qed.

Lemma bounded_copies_witness :
  cstr (safestrcpy [9; 9; 9; 9] [104; 101; 108; 108; 111] 4) = [104; 101; 108].
Proof. exact (proj1 (proj2 (bounded_copies [9; 9; 9; 9] [104; 101; 108; 108; 111] 4
                       ltac:(cbn; lia)))). Defined.

(** Conversion should not run the loops over a page. *)
#[global] Strategy 1000 [memset memmove ld64 st64].
#[global] Arguments memset : simpl never.
#[global] Arguments memmove : simpl never.
#[global] Arguments ld64 : simpl never.
#[global] Arguments st64 : simpl never.
