(* ===== verification/Kalloc.v ===== *)
(** * The physical page allocator (kernel/kalloc.c)

    The free list is threaded through the free pages themselves: the first
    eight bytes of a free page hold the address of the next one. [flist]
    relates memory to the list of free pages, the allocator's abstract
    state; the specifications of [kalloc], [kfree] and [freerange] are
    stated on it. *)

From S2P Require Import Prelude Riscv KState Spinlock KString.
Open Scope Z_scope.

Section kalloc.
Context `{Image}.

(** ** kalloc.c *)

Definition kfree (pa : Z) : KM unit :=
  if negb (pa mod PGSIZE =? 0) || (pa <? end_) || (PHYSTOP <=? pa)
  then panic "kfree" else
  (* Fill with junk to catch dangling refs. *)
  modify (λ s, set_k_mem (memset (k_mem s) pa 1 PGSIZE) s) ;;
  kacquire LKmem ;;
  modify (λ s, set_k_mem (st64 (k_mem s) pa (k_freelist s)) s) ;;
  modify (λ s, set_k_freelist pa s) ;;
  krelease LKmem.

Definition kalloc : KM Z :=
  kacquire LKmem ;;
  r ← gets k_freelist;
  whenM (negb (r =? 0)) (modify (λ s, set_k_freelist (ld64 (k_mem s) r) s)) ;;
  krelease LKmem ;;
  whenM (negb (r =? 0)) (modify (λ s, set_k_mem (memset (k_mem s) r 5 PGSIZE) s)) ;;
  mret r.

(** [for(; p + PGSIZE <= pa_end; p += PGSIZE) kfree(p);] The fuel is more
    than the pages that fit below [pa_end]. *)
Definition freerange (pa_start pa_end : Z) : KM unit :=
  loopM (Z.to_nat (pa_end / PGSIZE + 2))
    (λ p, if p + PGSIZE <=? pa_end then kfree p ;; mret (inl (p + PGSIZE))
          else mret (inr tt))
    (PGROUNDUP pa_start).

Definition kinit : KM unit :=
  kinitlock LKmem "kmem" ;; freerange end_ PHYSTOP.

(** ** The abstract free list *)

Definition page_ok (a : Z) : Prop := a mod 4096 = 0 ∧ end_ ≤ a < PHYSTOP ∧ 0 < a.

Fixpoint flist (m : bytemem) (h : Z) (l : list Z) : Prop :=
  match l with
  | [] => h = 0
  | a :: l => h = a ∧ page_ok a ∧ flist m (ld64 m a) l
  end.

(** The free pages of [s] are [l], without repetition. *)
Definition kmem_inv (s : kstate) (l : list Z) : Prop :=
  flist (k_mem s) (k_freelist s) l ∧ NoDup l.

(** The hart can take the allocator's lock. *)
Definition can_lock (l : lockid) (s : kstate) : Prop :=
  cpu_ok (k_sync s) ∧ lock_free l (k_sync s).

Lemma page_ok_range a : page_ok a → 0 ≤ a < 2 ^ 56.
Proof. intros (_ & ? & ?). change PHYSTOP with 2281701376 in *. lia. Qed.

Lemma flist_frame m m' h l :
  (∀ a x, a ∈ l → a ≤ x < a + 4096 → ldb m' x = ldb m x) →
  flist m h l → flist m' h l.
Proof.
  revert h; induction l as [|a l IH]; intros h Hm; [done|].
  intros (-> & Ha & Hl). split_and!; [done|done|].
  replace (ld64 m' a) with (ld64 m a).
  - apply IH; [|done]. intros b x Hb. apply Hm. by right.
  - unfold ld64. f_equal. apply ldn_ext. intros i Hi. symmetry. apply (Hm a); [by left|lia].
Qed.

Lemma pages_disjoint a b x :
  page_ok a → page_ok b → a ≠ b → a ≤ x < a + 4096 → ¬ (b ≤ x < b + 4096).
Proof. intros (Ha & _) (Hb & _) Hne Hx Hx'. zlia. Qed.

Lemma flist_pages m h l : flist m h l → Forall page_ok l.
Proof.
  revert h; induction l as [|a l IH]; intros h; [done|].
  intros (_ & Ha & Hl). constructor; [done|by eapply IH].
Qed.

Lemma flist_st m h l a vs :
  page_ok a → a ∉ l → Z.of_nat (length vs) ≤ 4096 →
  flist m h l → flist (stn m a vs) h l.
Proof.
  intros Ha Hl Hv Hf. apply (flist_frame m); [|done].
  intros b x Hb Hx. rw ldb_stn decide_False; [done|]. intros Hx'.
  pose proof (flist_pages _ _ _ Hf) as Hp. rw Forall_forall in Hp.
  apply (pages_disjoint b a x); [by apply Hp|done|congruence|done|lia].
Qed.

(** ** Specifications *)

Lemma kalloc_nil s :
  can_lock LKmem s → kmem_inv s [] → kalloc s = Ret 0 s.
Proof.
  intros [Hok Hl] [Hf _]. cbn in Hf. unfold kalloc.
  mstep (kacquire_free LKmem s Hok Hl). msimp. cbn [k_freelist set_k_sync]. rw Hf.
  cbn [Z.eqb negb whenM]. msimp.
  mstep (krelease_acq LKmem (set_k_sync (acq LKmem (k_sync s)) s) _ eq_refl Hok Hl).
  msimp. keq s.
Qed.

Lemma kalloc_cons s a l :
  can_lock LKmem s → kmem_inv s (a :: l) →
  kalloc s = Ret a (set_k_mem (memset (k_mem s) a 5 PGSIZE)
                      (set_k_freelist (ld64 (k_mem s) a) s)).
Proof.
  intros [Hok Hl] [(Hh & Ha & Hf) _]. unfold kalloc.
  mstep (kacquire_free LKmem s Hok Hl). msimp. cbn [k_freelist set_k_sync]. rw Hh.
  destruct (Z.eqb_spec a 0) as [->|_]; [by destruct Ha as (_ & _ & ?)|].
  cbn [negb whenM]. msimp.
  erewrite bind_Ret; [|by apply krelease_acq]. msimp. keq s.
Qed.

Lemma kfree_page s a :
  can_lock LKmem s → page_ok a →
  kfree a s = Ret tt (set_k_mem (st64 (memset (k_mem s) a 1 PGSIZE) a (k_freelist s))
                        (set_k_freelist a s)).
Proof.
  intros [Hok Hl] (Ha & Hr & Hp). unfold kfree.
  destruct (Z.eqb_spec (a mod PGSIZE) 0) as [_|E]; [|done].
  destruct (Z.ltb_spec a end_); [lia|]. destruct (Z.leb_spec PHYSTOP a); [lia|].
  cbn [negb orb]. rewrite -> bind_modify.
  generalize (memset (k_mem s) a 1 PGSIZE) as m1; intros m1.
  erewrite bind_Ret; [|by apply kacquire_free]. msimp.
  erewrite krelease_acq; [|done|done|done]. keq s.
Qed.

Lemma kfree_bad s a :
  ¬ (a mod 4096 = 0 ∧ end_ ≤ a < PHYSTOP) → kfree a s = Stop (Panic "kfree") s.
Proof.
  intros Hbad. unfold kfree, PGSIZE.
  destruct (Z.eqb_spec (a mod 4096) 0), (Z.ltb_spec a end_), (Z.leb_spec PHYSTOP a);
    cbn; try done. lia.
Qed.

Lemma kmem_inv_alloc s a l :
  kmem_inv s (a :: l) →
  kmem_inv (set_k_mem (memset (k_mem s) a 5 PGSIZE) (set_k_freelist (ld64 (k_mem s) a) s)) l.
Proof.
  intros [(_ & Ha & Hf) Hnd]. apply NoDup_cons in Hnd as [Hnin Hnd]. split; [|done].
  cbn [k_mem k_freelist set_k_mem set_k_freelist]. rw memset_stn.
  by apply flist_st.
Qed.

Lemma kmem_inv_free s a l :
  page_ok a → a ∉ l → kmem_inv s l →
  kmem_inv (set_k_mem (st64 (memset (k_mem s) a 1 PGSIZE) a (k_freelist s))
              (set_k_freelist a s)) (a :: l).
Proof.
  intros Ha Hnin [Hf Hnd]. split; [|by constructor].
  cbn [k_mem k_freelist set_k_mem set_k_freelist flist].
  split_and!; [done|done|]. rw ld64_st64.
  - unfold st64. apply flist_st; [done|done|done|].
    rw memset_stn. by apply flist_st.
  - assert (PHYSTOP < 2 ^ 64) by done.
    destruct l as [|b l]; cbn in Hf; [lia|]. destruct Hf as (-> & (_ & Hb & Hb0) & _). lia.
Qed.

(** *** Clients of the allocator

    The pages [A] are allocated; a client allocates, frees pages it owns,
    and writes anything it likes into them. *)
Inductive client : kstate * gset Z → kstate * gset Z → Prop :=
| client_alloc s s' A a : kalloc s = Ret a s' → a ≠ 0 → client (s, A) (s', {[a]} ∪ A)
| client_none s s' A : kalloc s = Ret 0 s' → client (s, A) (s', A)
| client_free s s' A a : a ∈ A → kfree a s = Ret tt s' → client (s, A) (s', A ∖ {[a]})
| client_write s A a x vs :
    a ∈ A → a ≤ x → x + length vs ≤ a + 4096 →
    client (s, A) (set_k_mem (stn (k_mem s) x vs) s, A).

(** The allocator has the pages [T]: each is free or allocated, and not both. *)
Definition alloc_inv (T : gset Z) (c : kstate * gset Z) : Prop :=
  can_lock LKmem c.1 ∧ ∃ l, kmem_inv c.1 l ∧ (∀ a, a ∈ c.2 → page_ok a ∧ a ∉ l) ∧
    T = list_to_set l ∪ c.2.

Lemma flist_write m h l a x vs :
  page_ok a → a ∉ l → a ≤ x → x + length vs ≤ a + 4096 →
  flist m h l → flist (stn m x vs) h l.
Proof.
  intros Ha Hl Hx Hv Hf. apply (flist_frame m); [|done].
  intros b y Hb Hy. rw ldb_stn decide_False; [done|]. intros Hy'.
  pose proof (flist_pages _ _ _ Hf) as Hp. rw Forall_forall in Hp.
  apply (pages_disjoint b a y); [by apply Hp|done|congruence|done|lia].
Qed.

Lemma alloc_inv_step T c c' : alloc_inv T c → client c c' → alloc_inv T c'.
Proof.
  intros (Hlk & l & Hinv & HA & HT) Hst.
  destruct Hst as [s s' A a Hk Ha|s s' A Hk|s s' A a Ha Hk|s A a x vs Ha Hx Hv]; cbn in *.
  - destruct l as [|b l]; [rw kalloc_nil // in Hk; congruence|].
    rw (kalloc_cons _ b l) // in Hk. injection Hk as <- <-. split; [done|].
    exists l. split; [by apply kmem_inv_alloc|]. split; [|set_solver].
    destruct Hinv as [(_ & Hb & _) Hnd]. apply NoDup_cons in Hnd as [Hnin _].
    cbn. intros c [->%elem_of_singleton|Hc]%elem_of_union; [done|].
    destruct (HA c Hc) as [Hp Hnc]. split; [done|]. intros ?. apply Hnc. by right.
  - destruct l as [|b l]; [rw kalloc_nil // in Hk; injection Hk as <-|].
    + by split; [|exists []].
    + rw (kalloc_cons _ b l) // in Hk. injection Hk as -> _.
      by destruct Hinv as [(_ & (_ & _ & ?) & _) _].
  - destruct (HA a Ha) as [Hp Hnin]. rw kfree_page // in Hk. injection Hk as <-.
    split; [done|]. exists (a :: l). split; [by apply kmem_inv_free|]. split.
    + cbn. intros c [Hc Hne]%elem_of_difference. destruct (HA c Hc) as [? Hc'].
      split; [done|]. intros [->|?]%elem_of_cons; [set_solver|done].
    + rw HT. cbn. apply set_eq. intros b. destruct (decide (b = a)); set_solver.
  - destruct (HA a Ha) as [Hp Hnin]. split; [done|]. exists l. split; [|done].
    destruct Hinv as [Hf Hnd]. split; [|done]. cbn. by eapply flist_write.
Qed.

Lemma alloc_inv_reach T c c' : alloc_inv T c → rtc client c c' → alloc_inv T c'.
Proof. intros Hc. induction 1; [done|]. by eauto using alloc_inv_step. Qed.

(** Writing to one page does not change another. *)
Lemma other_page m a b vs x :
  page_ok a → page_ok b → a ≠ b → Z.of_nat (length vs) ≤ 4096 → b ≤ x < b + 4096 → ldb (stn m a vs) x = ldb m x.
Proof.
  intros Ha Hb Hne Hv Hx. rw ldb_stn decide_False //. intros Hx'.
  apply (pages_disjoint b a x); [done|done|done|done|lia].
Qed.

(** C8. The allocator owns a fixed set of pages [T]. However clients allocate,
    free and write the pages they own, [kalloc] returns, with 0 exactly when all
    of [T] is allocated, and otherwise with a page of [T] that is not allocated,
    page-aligned and in [end_ .. PHYSTOP); [kfree] of an allocated page returns;
    and neither changes a byte of the other allocated pages. *)
Theorem kalloc_fresh (T : gset Z) (c c' : kstate * gset Z) :
  alloc_inv T c → rtc client c c' →
  (∃ a s', kalloc c'.1 = Ret a s' ∧ (a = 0 ↔ c'.2 = T) ∧ (a ≠ 0 → a ∈ T ∧ (a ∉ c'.2) ∧ page_ok a) ∧
     ∀ b x, b ∈ c'.2 → b ≤ x < b + 4096 → ldb (k_mem s') x = ldb (k_mem c'.1) x) ∧
  (∀ a, a ∈ c'.2 → ∃ s', kfree a c'.1 = Ret tt s' ∧
     ∀ b x, b ∈ c'.2 → b ≠ a → b ≤ x < b + 4096 → ldb (k_mem s') x = ldb (k_mem c'.1) x).
Proof.
  intros Hc Hr. pose proof (alloc_inv_reach _ _ _ Hc Hr) as (Hlk & l & Hinv & HA & ->). split.
  - destruct l as [|b l].
    + exists 0, c'.1. rw kalloc_nil //. split_and!; [done|split; [set_solver|done]|done|done].
    + assert (page_ok b) as Hb by by destruct Hinv as [(_ & ? & _) _].
      assert (b ∉ c'.2) as Hnb by (intros Hb'; apply (proj2 (HA b Hb')); by left).
      eexists b, _. split_and!; [by apply (kalloc_cons _ b l)| |set_solver|].
      * split; [by intros ->; destruct Hb as (_ & _ & ?)|]. intros E. exfalso. apply Hnb. rw E. set_solver.
      * intros a x Ha Hx. kcbn. rw memset_stn. apply (other_page _ b a); [done|by apply HA|congruence| |done].
        rw length_replicate. unfold PGSIZE. lia.
  - intros a Ha. destruct (HA a Ha) as [Hp _]. eexists. split; [by apply kfree_page|].
    intros b x Hb Hne Hx. destruct (HA b Hb) as [Hpb _]. kcbn. unfold st64.
    rewrite -> (other_page _ a b) by (done || rw length_le_enc; lia). rw memset_stn.
    apply (other_page _ a b); [done|done|done| |done]. rw length_replicate. unfold PGSIZE. lia.
Qed.

(** *** Boot: [freerange] and [kinit] *)

Fixpoint pages (p : Z) (n : nat) : list Z :=
  match n with O => [] | S n => p :: pages (p + 4096) n end.

Lemma elem_of_pages p n a :
  a ∈ pages p n ↔ ∃ i, 0 ≤ i < n ∧ a = p + 4096 * i.
Proof.
  revert p; induction n as [|n IH]; intros p; cbn [pages].
  - split; [by intros ?%elem_of_nil|intros (i & ? & _); lia].
  - rw elem_of_cons IH. split.
    + intros [->|(i & Hi & ->)]; [exists 0; lia|exists (i + 1); lia].
    + intros (i & Hi & ->). destruct (decide (i = 0)) as [->|]; [left; lia|].
      right. exists (i - 1). lia.
Qed.

Lemma freerange_loop pa_end (n fuel : nat) : ∀ p s l,
  (n < fuel)%nat → p mod 4096 = 0 → end_ ≤ p → 0 < p →
  p + 4096 * n ≤ pa_end < p + 4096 * (n + 1) → pa_end ≤ PHYSTOP →
  can_lock LKmem s → kmem_inv s l → (∀ a, a ∈ pages p n → a ∉ l) →
  ∃ s', loopM fuel (λ p, if p + PGSIZE <=? pa_end then kfree p ;; mret (inl (p + PGSIZE))
                         else mret (inr tt)) p s = Ret tt s' ∧
    kmem_inv s' (reverse (pages p n) ++ l) ∧ k_sync s' = k_sync s.
Proof.
  revert fuel; induction n as [|n IH]; intros fuel p s l Hf Hp He H0 Hn Ht Hlk Hinv Hd.
  - destruct fuel as [|fuel]; [lia|]. cbn [loopM]. cbv beta. unfold PGSIZE.
    destruct (Z.leb_spec (p + 4096) pa_end); [lia|]. msimp. by exists s.
  - destruct fuel as [|fuel]; [lia|]. cbn [loopM]. cbv beta. 
    destruct (Z.leb_spec (p + PGSIZE) pa_end); [|unfold PGSIZE in *; lia].
    assert (page_ok p) as Hpp by (split_and!; lia).
    assert (p ∉ l) as Hnin by (apply Hd; by left).
    rewrite -> (bind_assoc _ _ _ _ _ _ (kfree_page s p Hlk Hpp)), bind_mret.
    edestruct (IH fuel (p + PGSIZE)) as (s' & E & Hinv' & Hs');
      [lia| | | | | | |by apply kmem_inv_free| |].
    all: unfold PGSIZE in *; try done; try lia; try zlia.
    { intros a Ha [->|Ha']%elem_of_cons.
      - apply elem_of_pages in Ha as (i & Hi & ?). lia.
      - apply (Hd a); [by right|done]. }
    exists s'. split_and!; [done| |done].
    cbn [pages]. rw reverse_cons -app_assoc. done.
Qed.

Definition free_count : nat := Z.to_nat ((PHYSTOP - PGROUNDUP end_) / 4096).

(** C36. Booting the allocator: [kinit] returns with a well-formed free list
    that contains every page between the end of the kernel and [PHYSTOP]
    exactly once, and nothing else. *)
Theorem kinit_all_pages (s : kstate) :
  0 < end_ ≤ PHYSTOP → cpu_ok (k_sync s) → k_freelist s = 0 →
  ∃ s' l, kinit s = Ret tt s' ∧ kmem_inv s' l ∧ can_lock LKmem s' ∧
    ∀ a, a ∈ l ↔ a mod 4096 = 0 ∧ end_ ≤ a ∧ a + 4096 ≤ PHYSTOP.
Proof.
  intros He Hok Hf. unfold kinit, kinitlock, sy.
  erewrite bind_Ret; [|by apply zoom_Ret]. unfold freerange.
  set (s1 := set_k_sync _ s).
  assert (can_lock LKmem s1) as Hlk.
  { split; [by destruct Hok as (k & ?); exists k|].
    exists "kmem"%string. unfold s1. cbn. by rw lookup_insert_eq. }
  assert (PHYSTOP = 2281701376) as HP by done.
  assert (Hup : PGROUNDUP end_ = (end_ + 4095) / 4096 * 4096)
    by (apply PGROUNDUP_spec; lia).
  destruct (freerange_loop PHYSTOP free_count (Z.to_nat (PHYSTOP / PGSIZE + 2))
              (PGROUNDUP end_) s1 []) as (s' & E & Hinv & Hs').
  all: try (unfold free_count; rw ?Hup ?HP; unfold PGSIZE; zlia).
  - done.
  - split; [by cbn; rw Hf|constructor].
  - by intros a _ ?%elem_of_nil.
  - exists s', (reverse (pages (PGROUNDUP end_) free_count)).
    rw app_nil_r in Hinv. split_and!; [done|done|by unfold can_lock; rw Hs'|].
    intros a. rw elem_of_reverse elem_of_pages Hup. unfold free_count.
    rw Hup HP. split.
    + intros (i & Hi & ->). zlia.
    + intros (Ha & Hae & Hat). exists ((a - (end_ + 4095) / 4096 * 4096) / 4096). zlia.
Qed.
End kalloc.

(** A small machine: the kernel ends sixteen pages below [PHYSTOP]. *)
Definition image0 : Image :=
  {| end_ := PHYSTOP - 65536; etext := KERNBASE + 8192; trampoline := KERNBASE + 4096;
     uservec := KERNBASE + 4096; userret := KERNBASE + 4096 + 144;
     kernelvec := KERNBASE + 64; usertrap_pc := KERNBASE + 256;
     forkret_pc := KERNBASE + 512; disk_pages := KERNBASE + 16384 |}.
Definition kstate0 : kstate :=
  KState sync0 ∅ [] 1 None 1 ∅ 0 [] ∅ [] (Log 0 0 0 0 0 (Logheader 0 []))
    (Superblock 0 0 0 0 0 0 0 0) [] [] [] ∅ (Cons [] 0 0 0) (Uart [] 0 0 [] [] []) ∅ [] 0 0 0 0 0
    (Vdisk [] 0 [] 0 [] [] 0 [] [] [] ∅ [] 0) 100.
Lemma can_lock_kstate0 : can_lock LKmem kstate0.
Proof. split; [exact cpu_ok_sync0|exists "kmem"%string; reflexivity]. Qed.

Lemma kinit_all_pages_witness :
  ∃ s' l, kinit (H := image0) kstate0 = Ret tt s' ∧
    kmem_inv (H := image0) s' l ∧ (PHYSTOP - 4096) ∈ l.
Proof.
  destruct (kinit_all_pages (H := image0) kstate0) as (s' & l & Hk & Hi & _ & Ha).
  - split; by vm_compute.
  - exact cpu_ok_sync0.
  - reflexivity.
  - exists s', l. split; [exact Hk|]. split; [exact Hi|]. apply Ha.
    split_and!; by vm_compute.
Defined.

(** One page is freed into the empty list and allocated again. *)
Lemma kalloc_fresh_witness :
  ∃ s1 s2 s3, kfree (H := image0) (PHYSTOP - 4096) kstate0 = Ret tt s1 ∧
    kalloc s1 = Ret (PHYSTOP - 4096) s2 ∧ kalloc s2 = Ret 0 s3.
Proof.
  set (p := PHYSTOP - 4096).
  assert (page_ok (H := image0) p) as Hp by (split_and!; by vm_compute).
  pose proof (kfree_page (H := image0) kstate0 p can_lock_kstate0 Hp) as Hf.
  set (s1 := set_k_mem _ _) in Hf.
  assert (kmem_inv (H := image0) s1 [p]) as H1.
  { apply (kmem_inv_free (H := image0) kstate0 p []); [exact Hp|by intros ?%elem_of_nil|].
    split; [reflexivity|constructor]. }
  pose proof (kalloc_cons (H := image0) s1 p [] can_lock_kstate0 H1) as Ha.
  set (s2 := set_k_mem _ _) in Ha.
  assert (alloc_inv (H := image0) {[p]} (kstate0, {[p]})) as H0.
  { split; [exact can_lock_kstate0|]. exists []. split; [by split; [|constructor]|]. split; [|set_solver].
    intros b Hb. cbn [snd] in Hb. apply elem_of_singleton in Hb as ->. split; [exact Hp|by intros ?%elem_of_nil]. }
  destruct (kalloc_fresh (H := image0) {[p]} (kstate0, {[p]}) (s2, {[p]} ∪ ({[p]} ∖ {[p]})) H0)
    as [(a & s3 & Hk & [_ Hfull] & _) _].
  - eapply rtc_l; [eapply client_free; [by apply elem_of_singleton|exact Hf]|].
    eapply rtc_once, client_alloc; [exact Ha|by vm_compute].
  - exists s1, s2, s3. split; [exact Hf|]. split; [exact Ha|]. rewrite -> Hfull in Hk; [exact Hk|]. set_solver.
Defined.
