(* ===== verification/Vm.v ===== *)
(** * Virtual memory (kernel/vm.c)

    Page tables live in the byte memory: a page-table page is 512 eight-byte
    entries, and [walk] follows or creates the three levels. Kernel buffers
    that are not in pages ([src] of [copyout], [dst] of [copyin] and
    [copyinstr]) are lists of bytes: [copyin] and [copyinstr] return, with
    their result, the bytes they stored.

    [PageTable] and [Uspace] hold the specifications. *)

From S2P Require Import Prelude Riscv KState Spinlock KString Kalloc.
Open Scope Z_scope.

Section vm.
Context `{Image}.

(** ** Memory accesses *)

Definition ld (a : Z) : KM Z := gets (λ s, ld64 (k_mem s) a).
Definition st (a v : Z) : KM unit := modify (λ s, set_k_mem (st64 (k_mem s) a v) s).
Definition kmemset (dst c n : Z) : KM unit :=
  modify (λ s, set_k_mem (memset (k_mem s) dst c n) s).
Definition kmemmove (dst src n : Z) : KM unit :=
  modify (λ s, set_k_mem (memmove (k_mem s) dst src n) s).
(** [memmove] from a buffer that is not in a page. *)
Definition kstore (dst : Z) (bytes : list Z) : KM unit :=
  modify (λ s, set_k_mem (stn (k_mem s) dst bytes) s).

(** [&pagetable[i]] *)
Definition pte_at (pagetable i : Z) : Z := pagetable + 8 * i.

(** ** vm.c *)

(** [for(int level = 2; level > 0; level--)]; [None] is [return 0]. *)
Fixpoint walk_levels (levels : list Z) (pagetable va alloc : Z) : KM (option Z) :=
  match levels with
  | [] => mret (Some pagetable)
  | level :: levels =>
      let pte := pte_at pagetable (PX level va) in
      e ← ld pte;
      if negb (Z.land e PTE_V =? 0) then walk_levels levels (PTE2PA e) va alloc
      else if alloc =? 0 then mret None else
      page ← kalloc;
      if page =? 0 then mret None else
      kmemset page 0 PGSIZE ;;
      st pte (Z.lor (PA2PTE page) PTE_V) ;;
      walk_levels levels page va alloc
  end.
Definition walk (pagetable va alloc : Z) : KM Z :=
  if MAXVA <=? va then panic "walk" else
  r ← walk_levels [2; 1] pagetable va alloc;
  mret (match r with Some page => pte_at page (PX 0 va) | None => 0 end).

Definition walkaddr (pagetable va : Z) : KM Z :=
  if MAXVA <=? va then mret 0 else
  pte ← walk pagetable va 0;
  if pte =? 0 then mret 0 else
  e ← ld pte;
  if Z.land e PTE_V =? 0 then mret 0 else
  if Z.land e PTE_U =? 0 then mret 0 else
  mret (PTE2PA e).

(** The body of the loop of [mappages], on its variables [a] and [pa]. *)
Definition mappages_body (pagetable last perm : Z) (v : Z * Z) : KM (Z * Z + Z) :=
  let '(a, pa) := v in
  pte ← walk pagetable a 1;
  if pte =? 0 then mret (inr (-1)) else
  e ← ld pte;
  if negb (Z.land e PTE_V =? 0) then panic "mappages: remap" else
  st pte (Z.lor (Z.lor (PA2PTE pa) perm) PTE_V) ;;
  if a =? last then mret (inr 0)
  else mret (inl (u64 (a + PGSIZE), u64 (pa + PGSIZE))).
(** The loop runs over the pages [a], ..., [last]; the fuel is their number. *)
Definition mappages (pagetable va size pa perm : Z) : KM Z :=
  if size =? 0 then panic "mappages: size" else
  let a := PGROUNDDOWN va in
  let last := PGROUNDDOWN (u64 (va + size - 1)) in
  loopM (Z.to_nat (u64 (last - a) / PGSIZE + 1)) (mappages_body pagetable last perm) (a, pa).

Definition kvmmap (kpgtbl va pa sz perm : Z) : KM unit :=
  r ← mappages kpgtbl va sz pa perm;
  whenM (negb (r =? 0)) (panic "kvmmap").

(** The body of [for(a = va; a < end; a += PGSIZE)]. *)
Definition uvmunmap_body (pagetable end_va do_free a : Z) : KM (Z + unit) :=
  if negb (a <? end_va) then mret (inr tt) else
  pte ← walk pagetable a 0;
  if pte =? 0 then panic "uvmunmap: walk" else
  e ← ld pte;
  if Z.land e PTE_V =? 0 then panic "uvmunmap: not mapped" else
  if PTE_FLAGS e =? PTE_V then panic "uvmunmap: not a leaf" else
  whenM (negb (do_free =? 0)) (kfree (PTE2PA e)) ;;
  st pte 0 ;;
  mret (inl (u64 (a + PGSIZE))).
Definition uvmunmap (pagetable va npages do_free : Z) : KM unit :=
  if negb (va mod PGSIZE =? 0) then panic "uvmunmap: not aligned" else
  loopM (Z.to_nat npages + 1)
    (uvmunmap_body pagetable (u64 (va + npages * PGSIZE)) do_free) va.

Definition uvmcreate : KM Z :=
  pagetable ← kalloc;
  if pagetable =? 0 then mret 0 else
  kmemset pagetable 0 PGSIZE ;;
  mret pagetable.

Definition uvminit (pagetable : Z) (src : list Z) (sz : Z) : KM unit :=
  if PGSIZE <=? sz then panic "inituvm: more than a page" else
  mem ← kalloc;
  kmemset mem 0 PGSIZE ;;
  mappages pagetable 0 PGSIZE mem (Z.lor (Z.lor (Z.lor PTE_W PTE_R) PTE_X) PTE_U) ;;
  kstore mem (take (Z.to_nat sz) src).

Definition uvmdealloc (pagetable oldsz newsz : Z) : KM Z :=
  if oldsz <=? newsz then mret oldsz else
  whenM (PGROUNDUP newsz <? PGROUNDUP oldsz)
    (let npages := i32 (u64 (PGROUNDUP oldsz - PGROUNDUP newsz) / PGSIZE) in
     uvmunmap pagetable (PGROUNDUP newsz) (u64 npages) 1) ;;
  mret newsz.

(** The body of [for(a = oldsz; a < newsz; a += PGSIZE)], [oldsz] rounded up. *)
Definition uvmalloc_body (pagetable oldsz newsz a : Z) : KM (Z + Z) :=
  if negb (a <? newsz) then mret (inr newsz) else
  mem ← kalloc;
  if mem =? 0 then uvmdealloc pagetable a oldsz ;; mret (inr 0) else
  kmemset mem 0 PGSIZE ;;
  r ← mappages pagetable a PGSIZE mem (Z.lor (Z.lor (Z.lor PTE_W PTE_X) PTE_R) PTE_U);
  if negb (r =? 0) then
    kfree mem ;; uvmdealloc pagetable a oldsz ;; mret (inr 0)
  else mret (inl (u64 (a + PGSIZE))).
Definition uvmalloc (pagetable oldsz newsz : Z) : KM Z :=
  if newsz <? oldsz then mret oldsz else
  let oldsz := PGROUNDUP oldsz in
  loopM (Z.to_nat ((newsz - oldsz) / PGSIZE + 2)) (uvmalloc_body pagetable oldsz newsz) oldsz.

(** A page table has three levels, so [depth] 3 is enough for its root. *)
Fixpoint freewalk_depth (depth : nat) (pagetable : Z) : KM unit :=
  match depth with
  | O => stop_with NoFuel
  | S depth =>
      eachM (seqZ 0 512) (λ i,
        pte ← ld (pte_at pagetable i);
        if negb (Z.land pte PTE_V =? 0)
           && (Z.land pte (Z.lor (Z.lor PTE_R PTE_W) PTE_X) =? 0)
        then freewalk_depth depth (PTE2PA pte) ;; st (pte_at pagetable i) 0
        else whenM (negb (Z.land pte PTE_V =? 0)) (panic "freewalk: leaf")) ;;
      kfree pagetable
  end.
Definition freewalk (pagetable : Z) : KM unit := freewalk_depth 3 pagetable.

Definition uvmfree (pagetable sz : Z) : KM unit :=
  whenM (0 <? sz) (uvmunmap pagetable 0 (PGROUNDUP sz / PGSIZE) 1) ;;
  freewalk pagetable.

(** The body of [for(i = 0; i < sz; i += PGSIZE)]; [goto err] leaves it. *)
Definition uvmcopy_body (old new sz i : Z) : KM (Z + Z) :=
  if negb (i <? sz) then mret (inr 0) else
  pte ← walk old i 0;
  if pte =? 0 then panic "uvmcopy: pte should exist" else
  e ← ld pte;
  if Z.land e PTE_V =? 0 then panic "uvmcopy: page not present" else
  let pa := PTE2PA e in
  let flags := PTE_FLAGS e in
  mem ← kalloc;
  if mem =? 0 then uvmunmap new 0 (i / PGSIZE) 1 ;; mret (inr (-1)) else
  kmemmove mem pa PGSIZE ;;
  r ← mappages new i PGSIZE mem flags;
  if negb (r =? 0) then
    kfree mem ;; uvmunmap new 0 (i / PGSIZE) 1 ;; mret (inr (-1))
  else mret (inl (u64 (i + PGSIZE))).
Definition uvmcopy (old new sz : Z) : KM Z :=
  loopM (Z.to_nat (sz / PGSIZE + 2)) (uvmcopy_body old new sz) 0.

Definition uvmclear (pagetable va : Z) : KM unit :=
  pte ← walk pagetable va 0;
  if pte =? 0 then panic "uvmclear" else
  e ← ld pte;
  st pte (Z.land e (u64 (Z.lnot PTE_U))).

(** Each iteration handles the bytes up to the end of a page. *)
Definition copyout_body (pagetable : Z) (v : Z * list Z * Z) : KM (Z * list Z * Z + Z) :=
  let '(dstva, src, len) := v in
  if len =? 0 then mret (inr 0) else
  let va0 := PGROUNDDOWN dstva in
  pa0 ← walkaddr pagetable va0;
  if pa0 =? 0 then mret (inr (-1)) else
  let n := Z.min (PGSIZE - (dstva - va0)) len in
  kstore (pa0 + (dstva - va0)) (take (Z.to_nat n) src) ;;
  mret (inl (u64 (va0 + PGSIZE), drop (Z.to_nat n) src, len - n)).
Definition copyout (pagetable dstva : Z) (src : list Z) (len : Z) : KM Z :=
  loopM (Z.to_nat (len / PGSIZE + 3)) (copyout_body pagetable) (dstva, src, len).

Definition copyin_body (pagetable : Z) (v : list Z * Z * Z)
    : KM (list Z * Z * Z + Z * list Z) :=
  let '(dst, srcva, len) := v in
  if len =? 0 then mret (inr (0, dst)) else
  let va0 := PGROUNDDOWN srcva in
  pa0 ← walkaddr pagetable va0;
  if pa0 =? 0 then mret (inr (-1, dst)) else
  let n := Z.min (PGSIZE - (srcva - va0)) len in
  bytes ← gets (λ s, ldn (Z.to_nat n) (k_mem s) (pa0 + (srcva - va0)));
  mret (inl (dst ++ bytes, u64 (va0 + PGSIZE), len - n)).
Definition copyin (pagetable srcva len : Z) : KM (Z * list Z) :=
  loopM (Z.to_nat (len / PGSIZE + 3)) (copyin_body pagetable) ([], srcva, len).

(** The inner loop of [copyinstr]: whether a NUL was found among the [n]
    bytes at [p], and the bytes stored. After a NUL the outer loop ends, so
    that [max] matters only when all [n] bytes were stored. *)
Fixpoint copy_until_nul (m : bytemem) (p : Z) (n : nat) : bool * list Z :=
  match n with
  | O => (false, [])
  | S n =>
      if ldb m p =? 0 then (true, [0])
      else let '(got_null, l) := copy_until_nul m (p + 1) n in (got_null, ldb m p :: l)
  end.
Definition copyinstr_body (pagetable : Z) (v : bool * list Z * Z * Z)
    : KM (bool * list Z * Z * Z + Z * list Z) :=
  let '(got_null, dst, srcva, max) := v in
  if got_null then mret (inr (0, dst)) else
  if max =? 0 then mret (inr (-1, dst)) else
  let va0 := PGROUNDDOWN srcva in
  pa0 ← walkaddr pagetable va0;
  if pa0 =? 0 then mret (inr (-1, dst)) else
  let n := Z.min (PGSIZE - (srcva - va0)) max in
  r ← gets (λ s, copy_until_nul (k_mem s) (pa0 + (srcva - va0)) (Z.to_nat n));
  mret (inl (r.1, dst ++ r.2, u64 (va0 + PGSIZE), max - n)).
Definition copyinstr (pagetable srcva max : Z) : KM (Z * list Z) :=
  loopM (Z.to_nat (max / PGSIZE + 3)) (copyinstr_body pagetable) (false, [], srcva, max).

(** ** The kernel's page table *)

(** [proc_mapstacks] of kernel/proc.c. *)
Definition proc_mapstacks (kpgtbl : Z) : KM unit :=
  eachM (seq 0 NPROC) (λ p,
    pa ← kalloc;
    if pa =? 0 then panic "kalloc" else
    kvmmap kpgtbl (KSTACK p) pa PGSIZE (Z.lor PTE_R PTE_W)).

Definition kvmmake : KM Z :=
  kpgtbl ← kalloc;
  kmemset kpgtbl 0 PGSIZE ;;
  kvmmap kpgtbl UART0 UART0 PGSIZE (Z.lor PTE_R PTE_W) ;;
  kvmmap kpgtbl VIRTIO0 VIRTIO0 PGSIZE (Z.lor PTE_R PTE_W) ;;
  kvmmap kpgtbl PLIC PLIC 0x400000 (Z.lor PTE_R PTE_W) ;;
  kvmmap kpgtbl KERNBASE KERNBASE (etext - KERNBASE) (Z.lor PTE_R PTE_X) ;;
  kvmmap kpgtbl etext etext (PHYSTOP - etext) (Z.lor PTE_R PTE_W) ;;
  kvmmap kpgtbl TRAMPOLINE trampoline PGSIZE (Z.lor PTE_R PTE_X) ;;
  proc_mapstacks kpgtbl ;;
  mret kpgtbl.

Definition kvminit : KM unit :=
  p ← kvmmake; modify (set_k_kpgtbl p).

Definition kvminithart : KM unit :=
  p ← gets k_kpgtbl;
  sy (modify (λ y, set_hart (set_r_satp (MAKE_SATP p) (hart y)) y)).
End vm.
