(* ===== verification/PageTable.v ===== *)
(** * Page tables (kernel/vm.c: walk, mappages, walkaddr)

    The specification of a page table is its tree of pages, a finite map
    from paths of indices to pages ([pt_rep]), and the leaf entry of every
    virtual address ([leaf]). [own] says that table and free list are
    well-formed and disjoint, [evolves] that a table only grew, taking pages
    from the free list. [walk] and [mappages] are specified on these, for
    success and for exhaustion of memory. *)

From S2P Require Import Prelude Riscv KState Spinlock KString Kalloc Vm.
Open Scope Z_scope.

(** [lia] and [zlia] knowing [MAXVA] and [PGSIZE]. *)
Ltac vlia := change MAXVA with 274877906944 in *; change PGSIZE with 4096 in *; zlia.

(** The page-table pages by the path of indices that leads to them. *)
Abbreviation ptree := (gmap (list Z) Z).

Section page_table.
Context `{Image}.

(** ** Page tables as trees of pages *)

(** The page at [a] is the same in both memories. *)
Definition agree (m m' : bytemem) (a : Z) : Prop :=
  ∀ x, a ≤ x < a + 4096 → ldb m' x = ldb m x.

Record pt_rep (m : bytemem) (root : Z) (N : ptree) : Prop := {
  rep_root : N !! [] = Some root;
  rep_page π p : N !! π = Some p → page_ok p;
  rep_inj π π' p : N !! π = Some p → N !! π' = Some p → π = π';
  rep_prefix π i p :
    N !! (π ++ [i]) = Some p → is_Some (N !! π) ∧ (length π < 2)%nat ∧ 0 ≤ i < 512;
  rep_low i π p : N !! (i :: π) = Some p → i < 256;
  rep_entry π p i :
    N !! π = Some p → (length π < 2)%nat → 0 ≤ i < 512 →
    match N !! (π ++ [i]) with
    | Some q => ld64 m (pte_at p i) = Z.lor (PA2PTE q) PTE_V
    | None => Z.land (ld64 m (pte_at p i)) PTE_V = 0
    end
}.

Arguments rep_root {m root N}.
Arguments rep_page {m root N} _ {π p}.
Arguments rep_inj {m root N} _ {π π' p}.
Arguments rep_prefix {m root N} _ {π i p}.
Arguments rep_low {m root N} _ {i π p}.
Arguments rep_entry {m root N} _ {π p i}.

(** The page-table page that holds the leaf entry of [va], and the entry. *)
Definition leaf_page (N : ptree) (va : Z) : option Z := N !! [PX 2 va; PX 1 va].
Definition leaf (m : bytemem) (N : ptree) (va : Z) : Z :=
  match leaf_page N va with Some p => ld64 m (pte_at p (PX 0 va)) | None => 0 end.

(** The table [N] and the free list [l] are disjoint and well-formed. *)
Record own (s : kstate) (root : Z) (l : list Z) (N : ptree) : Prop := {
  own_lock : can_lock LKmem s;
  own_free : kmem_inv s l;
  own_rep : pt_rep (k_mem s) root N;
  own_disj π p : N !! π = Some p → p ∉ l
}.

Arguments own_lock {s root l N}.
Arguments own_free {s root l N}.
Arguments own_rep {s root l N}.
Arguments own_disj {s root l N} _ {π p}.

(** From [s] to [s'] the table grew by pages of the free list, and memory
    changed only in the table and in the pages taken; no page is lost. *)
Record evolves (s : kstate) (l : list Z) (N : ptree)
    (s' : kstate) (l' : list Z) (N' : ptree) : Prop := {
  ev_state : ∃ m f, s' = set_k_mem m (set_k_freelist f s);
  ev_used : ∃ used, l = used ++ l' ∧ ∀ π p, N' !! π = Some p → N !! π = Some p ∨ p ∈ used;
  ev_taken a : a ∈ l → a ∈ l' ∨ ∃ π, N' !! π = Some a;
  ev_sub : N ⊆ N';
  ev_agree a : a mod 4096 = 0 → a ∉ l → (∀ π, N !! π ≠ Some a) → agree (k_mem s) (k_mem s') a
}.

Lemma agree_ld64 m m' a i : agree m m' a → 0 ≤ i < 512 → ld64 m' (pte_at a i) = ld64 m (pte_at a i).
Proof.
  intros Ha Hi. unfold ld64, pte_at. f_equal. apply ldn_ext. intros j Hj. apply Ha. lia.
Qed.

Lemma agree_trans m m' m'' a : agree m m' a → agree m' m'' a → agree m m'' a.
Proof. intros H1 H2 x Hx. by rw H2 // H1. Qed.

Lemma agree_stn m a b vs x :
  a mod 4096 = 0 → b mod 4096 = 0 → a ≠ b → b ≤ x → x + length vs ≤ b + 4096 →
  agree m (stn m x vs) a.
Proof. intros Ha Hb Hne Hx Hv y Hy. rw ldb_stn decide_False //. intros Hy'. zlia. Qed.

Lemma agree_memset m a b c :
  a mod 4096 = 0 → b mod 4096 = 0 → a ≠ b → agree m (memset m b c PGSIZE) a.
Proof.
  intros Ha Hb Hne y Hy. rw ldb_memset // decide_False //. unfold PGSIZE. intros Hy'. zlia.
Qed.

Lemma ld64_zero m a : (∀ x, a ≤ x < a + 8 → ldb m x = 0) → ld64 m a = 0.
Proof.
  intros Hx. unfold ld64. rewrite -> (ldn_ext 8 m ∅ a 0); [done|].
  intros i Hi. rw Hx //. lia.
Qed.

Lemma evolves_refl s l N : evolves s l N s l N.
Proof.
  split; [by exists (k_mem s), (k_freelist s); destruct s| |by left|done|done].
  exists []. split; [done|]. by left.
Qed.

Lemma evolves_trans s l N s1 l1 N1 s2 l2 N2 :
  evolves s l N s1 l1 N1 → evolves s1 l1 N1 s2 l2 N2 → evolves s l N s2 l2 N2.
Proof.
  intros [(m1 & f1 & E1) (u1 & -> & Hu1) Ht1 Hs1 Ha1] [(m2 & f2 & E2) (u2 & -> & Hu2) Ht2 Hs2 Ha2].
  split.
  - exists m2, f2. rw E2 E1. by destruct s.
  - exists (u1 ++ u2). split; [by rw app_assoc|]. intros π p Hp.
    rw elem_of_app. destruct (Hu2 _ _ Hp) as [Hp1|]; [|by auto].
    destruct (Hu1 _ _ Hp1); auto.
  - intros a Ha. destruct (Ht1 a Ha) as [Ha1'|[π Hπ]]; [by apply Ht2|].
    right. exists π. by eapply lookup_weaken.
  - by etrans.
  - intros a Hal Ha Hn. rw !not_elem_of_app in Ha. destruct Ha as (Hau1 & Hau2 & Ha).
    eapply agree_trans; [apply Ha1|apply Ha2]; try done.
    + rw !not_elem_of_app //.
    + by rw not_elem_of_app.
    + intros π Hp. destruct (Hu1 _ _ Hp); [by eapply Hn|done].
Qed.

Lemma pt_rep_frame m m' root N :
  (∀ π p, N !! π = Some p → (length π < 2)%nat → agree m m' p) →
  pt_rep m root N → pt_rep m' root N.
Proof.
  intros Hm [Hr Hp Hi Hpre Hlow He]. split; [done..|].
  intros π p i Hπ Hlen Hi'. rewrite -> (agree_ld64 m m'); [by apply He|by eapply Hm|done].
Qed.

(** [walk] creating one page-table page: the memory after [kalloc], the
    clearing of the page [a] and the store of its entry. *)
Definition node_mem (m : bytemem) (p i a : Z) : bytemem :=
  st64 (memset (memset m a 5 PGSIZE) a 0 PGSIZE) (pte_at p i) (Z.lor (PA2PTE a) PTE_V).

Lemma node_mem_agree m p i a b :
  page_ok p → page_ok a → b mod 4096 = 0 → b ≠ a → b ≠ p → 0 ≤ i < 512 →
  agree m (node_mem m p i a) b.
Proof.
  intros [Hp _] [Ha _] Hb Hba Hbp Hi. unfold node_mem, st64.
  eapply agree_trans; [|apply (agree_stn _ _ p)]; rw ?length_le_enc; unfold pte_at; try lia.
  eapply agree_trans; by apply agree_memset.
Qed.

Lemma node_mem_new m p i a j :
  page_ok p → page_ok a → a ≠ p → 0 ≤ i < 512 → 0 ≤ j < 512 →
  ld64 (node_mem m p i a) (pte_at a j) = 0.
Proof.
  intros [Hp _] [Ha _] Hap Hi Hj. unfold node_mem.
  rw ld64_st64_ne; [|unfold pte_at; zlia]. apply ld64_zero. intros x Hx.
  rw ldb_memset // decide_True //. unfold pte_at, PGSIZE in *. lia.
Qed.

Lemma node_mem_entry m p i a j :
  page_ok p → page_ok a → a ≠ p → 0 ≤ i < 512 → 0 ≤ j < 512 →
  ld64 (node_mem m p i a) (pte_at p j) =
    if decide (i = j) then Z.lor (PA2PTE a) PTE_V else ld64 m (pte_at p j).
Proof.
  intros Hp Ha Hap Hi Hj. unfold node_mem. case_decide as E.
  - subst j. rw ld64_st64 //. apply PA2PTE_lor_range; [by apply page_ok_range|done].
  - rw ld64_st64_ne; [|unfold pte_at; lia].
    destruct Hp, Ha. apply agree_ld64; [|done].
    eapply agree_trans; by apply agree_memset.
Qed.

Lemma alloc_node s root l N π p i a :
  own s root (a :: l) N → N !! π = Some p → (length π < 2)%nat → 0 ≤ i < 512 →
  (π = [] → i < 256) → N !! (π ++ [i]) = None →
  let s' := set_k_mem (node_mem (k_mem s) p i a) (set_k_freelist (ld64 (k_mem s) a) s) in
  let N' := <[π ++ [i] := a]> N in
  own s' root l N' ∧ evolves s (a :: l) N s' l N' ∧
  ∀ va, leaf (k_mem s') N' va = leaf (k_mem s) N va.
Proof.
  intros Ho Hπ Hlen Hi Hlow Hnone s' N'. destruct Ho as [Hlk Hfree Hrep Hdisj].
  destruct (Hfree) as [(Ha0 & Ha & Hfl) Hnd]. apply NoDup_cons in Hnd as [Hnin Hnd].
  pose proof (rep_page Hrep Hπ) as Hp.
  assert (∀ π' q, N !! π' = Some q → q ≠ a) as Hne
    by (intros π' q Hq ->; by destruct (Hdisj _ _ Hq); left).
  assert (a ≠ p) as Hap by (intros ->; by apply (Hne π p)).
  assert (∀ π' q, N !! π' = Some q → π' ≠ π → agree (k_mem s) (k_mem s') q) as Hag.
  { intros π' q Hq Hππ. destruct (rep_page Hrep Hq) as [Hq0 _].
    apply node_mem_agree; try done; [by eapply Hne|].
    intros ->. apply Hππ. by eapply (rep_inj Hrep). }
  split_and!.
  - split; [done| | |].
    + split; [|done]. kcbn. unfold node_mem, st64.
      apply (flist_write _ _ _ p); try (unfold pte_at; rw ?length_le_enc); try done; try lia.
      { intros Hpl. by destruct (Hdisj _ _ Hπ); right. }
      rw !memset_stn. by repeat (apply flist_st; [done|done|done|]).
    + split.
      * rw lookup_insert_ne; [apply (rep_root Hrep)|]. by destruct π.
      * intros π' q [[<- <-]|[Hne' Hq]]%lookup_insert_Some; [done|by eapply (rep_page Hrep)].
      * intros π1 π2 q [[<- <-]|[Hne1 Hq1]]%lookup_insert_Some
          [[<- E]|[Hne2 Hq2]]%lookup_insert_Some; try done.
        -- by destruct (Hne _ _ Hq2).
        -- subst. by destruct (Hne _ _ Hq1).
        -- by eapply (rep_inj Hrep).
      * intros π' j q [[[<- <-]%app_inj_tail <-]|[Hne' Hq]]%lookup_insert_Some.
        -- split; [|done]. rw lookup_insert_ne; [by eexists|].
           intros E%(f_equal length). rw length_app in E. cbn in E. lia.
        -- destruct (rep_prefix Hrep Hq) as ([q' Hq'] & ? & ?).
           split; [|done]. destruct (decide (π ++ [i] = π')) as [<-|];
             [rw lookup_insert_eq|rw lookup_insert_ne //]; by eexists.
      * intros j π' q [[E <-]|[Hne' Hq]]%lookup_insert_Some; [|by eapply (rep_low Hrep)].
        destruct π as [|j' π]; [injection E as <- _; by apply Hlow|].
        injection E as <- _. by eapply (rep_low Hrep).
      * intros π' q j Hq Hlen' Hj.
        apply lookup_insert_Some in Hq as [[<- <-]|[Hne' Hq]].
        -- rw lookup_insert_ne; [|intros E%(f_equal length); rw !length_app in E; cbn in E; lia].
           destruct (N !! ((π ++ [i]) ++ [j])) eqn:E.
           { apply (rep_prefix Hrep) in E as ([? E] & _). congruence. }
           cbn. rw node_mem_new //.
        -- pose proof (rep_entry Hrep Hq Hlen' Hj) as He.
           destruct (decide (π' = π)) as [->|Hππ].
           ++ assert (q = p) as -> by congruence. cbn. rw node_mem_entry //.
              case_decide as E; [subst j; by rw lookup_insert_eq|].
              rw lookup_insert_ne //. intros [_ E']%app_inj_tail. done.
           ++ rw lookup_insert_ne; [|by intros [E _]%app_inj_tail].
              rewrite -> (agree_ld64 (k_mem s)); [done|by eapply Hag|done].
    + intros π' q [[<- <-]|[Hne' Hq]]%lookup_insert_Some; [done|].
      intros Hin. by destruct (Hdisj _ _ Hq); right.
  - split; [by do 2 eexists| | |by apply insert_subseteq|].
    + exists [a]. split; [done|]. intros π' q [[<- <-]|[Hne' Hq]]%lookup_insert_Some; [|by left].
      right. by left.
    + intros b [->|Hb]%elem_of_cons; [right; eexists; apply lookup_insert_eq|by left].
    + intros b Hb [Hba _]%not_elem_of_cons HN. apply node_mem_agree; try done.
      intros ->. by apply (HN π).
  - intros va. unfold leaf, leaf_page.
    destruct (decide (π ++ [i] = [PX 2 va; PX 1 va])) as [E|E].
    + rw -E /N' lookup_insert_eq Hnone. apply node_mem_new; try done. apply PX_range.
    + rw /N' lookup_insert_ne //. destruct (N !! [_; _]) as [q|] eqn:Hq; [|done].
      apply agree_ld64; [|apply PX_range]. eapply Hag; [done|].
      intros <-. cbn in Hlen. lia.
Qed.

(** A valid entry of an inner page, read back. *)
Lemma entry_valid q : Z.land (Z.lor (PA2PTE q) PTE_V) PTE_V ≠ 0.
Proof.
  intros E. apply (f_equal (λ x, Z.testbit x 0)) in E.
  rw Z.land_spec Z.lor_spec Z.bits_0 /= orb_true_r // in E.
Qed.

Lemma entry_pa q : page_ok q → PTE2PA (Z.lor (PA2PTE q) PTE_V) = q.
Proof. intros Hq. apply PTE2PA_PA2PTE; [by apply page_ok_range|by destruct Hq|done]. Qed.

(** [walk] without allocation only reads. *)
Lemma walk_levels_read va ls : ∀ s root N π p,
  pt_rep (k_mem s) root N → N !! π = Some p → (length π + length ls = 2)%nat →
  walk_levels ls p va 0 s = Ret (N !! (π ++ ((λ lv, PX lv va) <$> ls))) s.
Proof.
  induction ls as [|lv ls IH]; intros s root N π p Hrep Hp Hlen; cbn [walk_levels fmap list_fmap].
  { rw app_nil_r Hp //. }
  cbn in Hlen. unfold ld. msimp.
  pose proof (rep_entry Hrep Hp ltac:(lia) (PX_range lv va)) as He.
  replace (π ++ PX lv va :: ((λ lv, PX lv va) <$> ls))
    with ((π ++ [PX lv va]) ++ ((λ lv, PX lv va) <$> ls)) by rw -app_assoc //.
  destruct (N !! (π ++ [PX lv va])) as [q|] eqn:Hq.
  - pose proof (rep_page Hrep Hq) as Hpq. rw He.
    destruct (Z.eqb_spec (Z.land (Z.lor (PA2PTE q) PTE_V) PTE_V) 0) as [E|_];
      [by apply entry_valid in E|]. cbn [negb]. rw entry_pa //.
    apply (IH s root); [done|done|]. rw length_app. cbn. lia.
  - rw He. cbn. unfold mret, M_ret. f_equal.
    destruct (N !! ((π ++ [PX lv va]) ++ _)) as [r|] eqn:Hr; [|done]. exfalso.
    revert r Hr. generalize ((λ lv, PX lv va) <$> ls) as tl. intros tl.
    induction tl as [|x tl IHt] using rev_ind; intros r Hr; [by rw app_nil_r Hq in Hr|].
    rw app_assoc in Hr. apply (rep_prefix Hrep) in Hr as ([r' Hr'] & _). by eapply IHt.
Qed.

Lemma walk_read s root l N va :
  own s root l N → 0 ≤ va < MAXVA →
  walk root va 0 s =
    Ret (match leaf_page N va with Some p => pte_at p (PX 0 va) | None => 0 end) s.
Proof.
  intros Ho Hva. unfold walk. destruct (Z.leb_spec MAXVA va); [lia|].
  erewrite bind_Ret; [done|]. apply (walk_levels_read va [2; 1] s root N []);
    [apply Ho|apply (rep_root (own_rep Ho))|done].
Qed.

Lemma PX_low va : 0 ≤ va < MAXVA → PX 2 va < 256.
Proof. intros Hva. rw PX_div //. change (2 ^ _) with 1073741824. vlia. Qed.

(** [walk] with allocation. *)
Lemma walk_levels_alloc va alloc ls : alloc ≠ 0 → ∀ s root l N π p,
  own s root l N → N !! π = Some p → (length π + length ls = 2)%nat →
  (π = [] → match ls with lv :: _ => PX lv va < 256 | [] => True end) →
  ∃ r s' l' N', walk_levels ls p va alloc s = Ret r s' ∧
    own s' root l' N' ∧ evolves s l N s' l' N' ∧
    (∀ x, leaf (k_mem s') N' x = leaf (k_mem s) N x) ∧
    match r with
    | Some q => N' !! (π ++ ((λ lv, PX lv va) <$> ls)) = Some q
    | None => l' = []
    end.
Proof.
  intros Hal. induction ls as [|lv ls IH]; intros s root l N π p Ho Hp Hlen Hlow;
    cbn [walk_levels fmap list_fmap].
  { exists (Some p), s, l, N. rw app_nil_r. by split_and!; [| |apply evolves_refl|..]. }
  cbn in Hlen. unfold ld. msimp.
  pose proof (rep_entry (own_rep Ho) Hp ltac:(lia) (PX_range lv va)) as He.
  replace (π ++ PX lv va :: ((λ lv, PX lv va) <$> ls))
    with ((π ++ [PX lv va]) ++ ((λ lv, PX lv va) <$> ls)) by rw -app_assoc //.
  assert (length (π ++ [PX lv va]) + length ls = 2)%nat as Hlen'
    by (rw length_app; cbn; lia).
  assert (π ++ [PX lv va] = [] → match ls with lv' :: _ => PX lv' va < 256 | [] => True end) as Hlow'
    by by destruct π.
  destruct (N !! (π ++ [PX lv va])) as [q|] eqn:Hq.
  - rw He. pose proof (rep_page (own_rep Ho) Hq) as Hpq.
    destruct (Z.eqb_spec (Z.land (Z.lor (PA2PTE q) PTE_V) PTE_V) 0) as [E|_];
      [by apply entry_valid in E|]. cbn [negb]. rw entry_pa //. by apply IH.
  - rw He. cbn [Z.eqb negb]. destruct (Z.eqb_spec alloc 0); [done|].
    destruct l as [|a l].
    { rewrite -> (bind_Ret _ _ _ _ _ (kalloc_nil s (own_lock Ho) (own_free Ho))).
      exists None, s, [], N. by split_and!; [| |apply evolves_refl|..]. }
    rewrite -> (bind_Ret _ _ _ _ _ (kalloc_cons s a l (own_lock Ho) (own_free Ho))).
    destruct (own_free Ho) as [(_ & Ha & _) _].
    destruct (Z.eqb_spec a 0); [destruct Ha as (_ & _ & ?); lia|].
    unfold kmemset, st. msimp.
    destruct (alloc_node s root l N π p (PX lv va) a Ho Hp ltac:(lia) (PX_range _ _) Hlow Hq)
      as (Ho' & Hev & Hleaf).
    edestruct (IH _ root l _ (π ++ [PX lv va]) a Ho') as (r & s' & l' & N' & E & Ho'' & Hev' & Hl' & Hr);
      [by rw lookup_insert_eq|done|done|].
    exists r, s', l', N'. split_and!; [|done|by eapply evolves_trans| |done].
    + by rewrite <- E.
    + intros x. by rw Hl' Hleaf.
Qed.

Lemma walk_alloc s root l N va :
  own s root l N → 0 ≤ va < MAXVA →
  ∃ r s' l' N', walk root va 1 s = Ret r s' ∧
    own s' root l' N' ∧ evolves s l N s' l' N' ∧
    (∀ x, leaf (k_mem s') N' x = leaf (k_mem s) N x) ∧
    (r = 0 ∧ l' = [] ∨
     ∃ q, leaf_page N' va = Some q ∧ r = pte_at q (PX 0 va)).
Proof.
  intros Ho Hva. unfold walk. destruct (Z.leb_spec MAXVA va); [lia|].
  edestruct (walk_levels_alloc va 1 [2; 1] ltac:(done) s root l N []) as
    (r & s' & l' & N' & E & Ho' & Hev & Hl & Hr);
    [done|apply (rep_root (own_rep Ho))|done|intros _; by apply PX_low|].
  erewrite bind_Ret; [|done]. destruct r as [q|].
  - exists (pte_at q (PX 0 va)), s', l', N'. split_and!; try done. right. by exists q.
  - exists 0, s', l', N'. split_and!; try done. by left.
Qed.

(** *** Mapping and unmapping *)

Lemma PX_page x va :
  0 ≤ x < MAXVA → 0 ≤ va < MAXVA →
  PX 2 x = PX 2 va → PX 1 x = PX 1 va → PX 0 x = PX 0 va → x / 4096 = va / 4096.
Proof.
  intros Hx Hva E2 E1 E0. pose proof (PX_decompose x Hx). pose proof (PX_decompose va Hva). zlia.
Qed.

Lemma page_PX x va i : 0 ≤ i → x / 4096 = va / 4096 → PX i x = PX i va.
Proof.
  intros Hi E. rw !PX_div // Z.pow_add_r; [|lia..]. change (2 ^ 12) with 4096.
  rw -!Z.div_div; [by rw E|lia..].
Qed.

Lemma leaf_same_page m N x va : x / 4096 = va / 4096 → leaf m N x = leaf m N va.
Proof.
  intros E. unfold leaf, leaf_page.
  by rewrite -> !(page_PX x va) by done.
Qed.

Lemma st_leaf s root l N va q v :
  own s root l N → 0 ≤ va < MAXVA → leaf_page N va = Some q → 0 ≤ v < 2 ^ 64 →
  let s' := set_k_mem (st64 (k_mem s) (pte_at q (PX 0 va)) v) s in
  own s' root l N ∧ evolves s l N s' l N ∧
  ∀ x, 0 ≤ x < MAXVA →
    leaf (k_mem s') N x = if decide (x / 4096 = va / 4096) then v else leaf (k_mem s) N x.
Proof.
  intros Ho Hva Hq Hv s'. pose proof (PX_range 0 va) as Hpx.
  pose proof (rep_page (own_rep Ho) Hq) as Hpq.
  assert (∀ b, b mod 4096 = 0 → b ≠ q → agree (k_mem s) (k_mem s') b) as Hag.
  { intros b Hb Hne. destruct Hpq. apply (agree_stn _ _ q); rw ?length_le_enc;
      unfold pte_at; try done; lia. }
  split_and!.
  - split; [apply Ho| | |apply Ho].
    + destruct (own_free Ho) as [Hf Hnd]. split; [|done]. kcbn. unfold st64.
      apply (flist_write _ _ _ q); rw ?length_le_enc; unfold pte_at; try done; try lia.
      by apply (own_disj Ho Hq).
    + eapply pt_rep_frame; [|apply (own_rep Ho)]. intros π p Hp Hlen.
      apply Hag; [apply (rep_page (own_rep Ho) Hp)|]. intros ->.
      rw (rep_inj (own_rep Ho) Hp Hq) in Hlen. cbn in Hlen. lia.
  - split; [|by exists []; split; [|left]|by left|done|].
    + exists (k_mem s'), (k_freelist s). by destruct s.
    + intros b Hb _ HN. apply Hag; [done|]. intros ->. by eapply HN.
  - intros x Hx. case_decide as E.
    + rewrite -> (leaf_same_page _ _ x va E). unfold leaf. rw Hq. by apply ld64_st64.
    + unfold leaf, leaf_page. destruct (N !! [_; _]) as [p|] eqn:Hp; [|done].
      pose proof (PX_range 0 x) as Hpx'. pose proof (rep_page (own_rep Ho) Hp) as Hpp.
      destruct (decide (p = q)) as [->|Hne].
      * assert (PX 0 x ≠ PX 0 va) as Hne0.
        { intros E0. injection (rep_inj (own_rep Ho) Hp Hq) as E2 E1.
          by apply E, PX_page. }
        apply ld64_st64_ne. unfold pte_at. lia.
      * apply agree_ld64; [|done]. apply Hag; [by destruct Hpp|done].
Qed.

(** The entry that [mappages] stores. *)
Definition pte_of (pa perm : Z) : Z := Z.lor (Z.lor (PA2PTE pa) perm) PTE_V.

Lemma pte_of_flags perm : 0 ≤ perm < 1024 → 0 ≤ Z.lor perm PTE_V < 1024.
Proof.
  intros Hp. split; [apply Z.lor_nonneg; split; [lia|done]|].
  destruct (decide (Z.lor perm PTE_V = 0)) as [->|Hne]; [done|].
  apply (Z.log2_lt_pow2 _ 10).
  - apply Z.le_neq; split; [|done]. apply Z.lor_nonneg; split; [lia|done].
  - rw Z.log2_lor; [|lia|done]. apply Z.max_lub_lt; [|done].
    destruct (decide (perm = 0)) as [->|]; [done|]. apply Z.log2_lt_pow2; lia.
Qed.

Lemma pte_of_range pa perm : 0 ≤ pa < 2 ^ 56 → 0 ≤ perm < 1024 → 0 ≤ pte_of pa perm < 2 ^ 64.
Proof.
  intros Hpa Hp. unfold pte_of. rw -Z.lor_assoc.
  apply PA2PTE_lor_range; [done|by apply pte_of_flags].
Qed.

Lemma pte_of_pa pa perm :
  0 ≤ pa < 2 ^ 56 → pa mod 4096 = 0 → 0 ≤ perm < 1024 → PTE2PA (pte_of pa perm) = pa.
Proof.
  intros Hpa Hal Hp. unfold pte_of. rw -Z.lor_assoc.
  by apply PTE2PA_PA2PTE; [| |apply pte_of_flags].
Qed.

Lemma pte_of_perm pa perm :
  0 ≤ pa < 2 ^ 56 → 0 ≤ perm < 1024 → PTE_FLAGS (pte_of pa perm) = Z.lor perm PTE_V.
Proof.
  intros Hpa Hp. unfold pte_of. rw -Z.lor_assoc.
  by apply PTE_FLAGS_PA2PTE; [|apply pte_of_flags].
Qed.

Lemma pte_of_valid pa perm : Z.land (pte_of pa perm) PTE_V ≠ 0.
Proof.
  intros E. apply (f_equal (λ x, Z.testbit x 0)) in E.
  unfold pte_of in E. rw Z.land_spec Z.lor_spec Z.bits_0 /= orb_true_r // in E.
Qed.

(** One iteration: out of memory, or the page of [a] mapped to [pa]. *)
Lemma mappages_body_spec s root l N a pa perm last :
  own s root l N → 0 ≤ a < MAXVA → 0 ≤ pa < 2 ^ 56 → 0 ≤ perm < 1024 →
  Z.land (leaf (k_mem s) N a) PTE_V = 0 →
  ∃ r s' l' N', mappages_body root last perm (a, pa) s = Ret r s' ∧
    own s' root l' N' ∧ evolves s l N s' l' N' ∧
    ((r = inr (-1) ∧ l' = [] ∧ ∀ x, leaf (k_mem s') N' x = leaf (k_mem s) N x) ∨
     (r = (if a =? last then inr 0 else inl (u64 (a + PGSIZE), u64 (pa + PGSIZE))) ∧
      ∀ x, 0 ≤ x < MAXVA → leaf (k_mem s') N' x =
        if decide (x / 4096 = a / 4096) then pte_of pa perm else leaf (k_mem s) N x)).
Proof.
  intros Ho Ha Hpa Hperm Hfree. unfold mappages_body.
  destruct (walk_alloc s root l N a Ho Ha) as (r & s1 & l1 & N1 & E & Ho1 & Hev1 & Hl1 & Hr).
  rewrite -> (bind_Ret _ _ _ _ _ E). destruct Hr as [[-> ->]|(q & Hq & ->)].
  { exists (inr (-1)), s1, [], N1. split_and!; try done. by left. }
  pose proof (rep_page (own_rep Ho1) Hq) as Hqp. pose proof (PX_range 0 a).
  destruct (Z.eqb_spec (pte_at q (PX 0 a)) 0) as [E0|_];
    [unfold pte_at in E0; destruct Hqp as (_ & _ & ?); lia|].
  assert (ld64 (k_mem s1) (pte_at q (PX 0 a)) = leaf (k_mem s) N a) as Hld
    by (rw -Hl1; unfold leaf; by rw Hq).
  unfold ld, st. msimp. rw Hld Hfree. cbn [Z.eqb negb]. msimp.
  destruct (st_leaf s1 root l1 N1 a q (pte_of pa perm) Ho1 Ha Hq) as (Ho2 & Hev2 & Hl2);
    [by apply pte_of_range|].
  eexists (if a =? last then inr 0 else inl (u64 (a + PGSIZE), u64 (pa + PGSIZE))), _, l1, N1.
  split_and!; [|exact Ho2|..].
  - by destruct (a =? last).
  - by eapply evolves_trans.
  - right. split; [done|]. intros x Hx. by rw Hl2 // Hl1.
Qed.

(** The loop with [n + 1] pages to go: either all of them are mapped, or [k]
    of them and the free list is empty. *)
Definition map_range (a pa perm k : Z) (f : Z → Z) (x : Z) : Z :=
  if decide (a ≤ x < a + 4096 * k) then pte_of (pa + (x - a) / 4096 * 4096) perm else f x.

Lemma mappages_loop root perm last (n : nat) : 0 ≤ perm < 1024 → last < MAXVA → ∀ s l N a pa,
  own s root l N → 0 ≤ a → a mod 4096 = 0 → last = a + 4096 * n →
  0 ≤ pa → pa mod 4096 = 0 → pa + 4096 * n < 2 ^ 56 →
  (∀ x, a ≤ x < last + 4096 → Z.land (leaf (k_mem s) N x) PTE_V = 0) →
  ∃ r s' l' N' k,
    loopM (S n) (mappages_body root last perm) (a, pa) s = Ret r s' ∧
    own s' root l' N' ∧ evolves s l N s' l' N' ∧
    (∀ x, 0 ≤ x < MAXVA →
       leaf (k_mem s') N' x = map_range a pa perm k (leaf (k_mem s) N) x) ∧
    (r = 0 ∧ k = n + 1 ∨ r = -1 ∧ l' = [] ∧ 0 ≤ k ≤ n).
Proof.
  intros Hperm Hlast. change MAXVA with 274877906944 in *.
  induction n as [|n IH]; intros s l N a pa Ho Ha0 Hal Hn Hpa0 Hpal Hpa Hfree; cbn [loopM];
    (destruct (mappages_body_spec s root l N a pa perm last Ho)
       as (r & s1 & l1 & N1 & E & Ho1 & Hev1 & [(-> & -> & Hl)|(-> & Hl)]);
     [change MAXVA with 274877906944; lia|lia|done|apply Hfree; lia| |];
     rewrite -> (bind_Ret _ _ _ _ _ E)).
  1, 3: (exists (-1), s1, [], N1, 0; split; [done|]; split; [done|]; split; [done|];
    split; [|right; split_and!; done || lia];
    intros x Hx; rw Hl; unfold map_range; rw decide_False //; lia).
  - destruct (Z.eqb_spec a last); [|lia]. exists 0, s1, l1, N1, 1. split_and!; try done; [|by left].
    intros x Hx. rw Hl //. unfold map_range. repeat case_decide; try zlia; try done.
    f_equal. zlia.
  - destruct (Z.eqb_spec a last); [lia|].
    unfold PGSIZE. rw !u64_small; [|lia..].
    destruct (IH s1 l1 N1 (a + 4096) (pa + 4096)) as (r & s2 & l2 & N2 & k & E2 & Ho2 & Hev2 & Hl2 & Hr);
      try done; try lia; try zlia.
    { intros x Hx. rw Hl; [|vlia]. rw decide_False; [apply Hfree; lia|zlia]. }
    exists r, s2, l2, N2, (k + 1). split_and!; [done|done|by eapply evolves_trans| |].
    2: { destruct Hr as [[-> ->]|(-> & -> & ?)]; [left|right]; split_and!; done || lia. }
    intros x Hx. rw Hl2 //. unfold map_range.
    assert (0 ≤ k) as Hk by (destruct Hr as [[_ ->]|(_ & _ & ?)]; lia).
    destruct (decide (a + 4096 ≤ x < a + 4096 + 4096 * k)) as [E1|E1].
    + rw decide_True; [|lia]. f_equal. zlia.
    + rw Hl //. destruct (decide (x / 4096 = a / 4096)) as [Ex|Ex].
      * rw decide_True; [|zlia]. f_equal. zlia.
      * rw decide_False //. zlia.
Qed.

Lemma mappages_spec s root l N va size pa perm :
  own s root l N → 0 ≤ va → 0 < size → va + size ≤ MAXVA →
  0 ≤ pa → pa mod 4096 = 0 → pa + size + 4096 ≤ 2 ^ 56 → 0 ≤ perm < 1024 →
  (∀ x, va - va mod 4096 ≤ x < MAXVA → x / 4096 ≤ (va + size - 1) / 4096 →
     Z.land (leaf (k_mem s) N x) PTE_V = 0) →
  let n := (va + size - 1) / 4096 - va / 4096 + 1 in
  ∃ r s' l' N' k, mappages root va size pa perm s = Ret r s' ∧
    own s' root l' N' ∧ evolves s l N s' l' N' ∧
    (∀ x, 0 ≤ x < MAXVA →
       leaf (k_mem s') N' x = map_range (va - va mod 4096) pa perm k (leaf (k_mem s) N) x) ∧
    (r = 0 ∧ k = n ∨ r = -1 ∧ l' = [] ∧ 0 ≤ k < n).
Proof.
  intros Ho Hva Hsz Hmax Hpa Hpal Hpar Hperm Hfree n. unfold mappages.
  assert (1 ≤ n) by (unfold n; zlia). destruct (Z.eqb_spec size 0); [lia|].
  rw (u64_small (va + size - 1)); [|vlia]. rw !PGROUNDDOWN_spec; [|vlia..].
  rw u64_small; [|vlia].
  replace (Z.to_nat _) with (S (Z.to_nat (n - 1))) by (unfold n; vlia).
  destruct (mappages_loop root perm (va + size - 1 - (va + size - 1) mod 4096)
    (Z.to_nat (n - 1)) Hperm ltac:(vlia) s l N (va - va mod 4096) pa)
    as (r & s' & l' & N' & k & E & Ho' & Hev & Hl & Hr); try (unfold n; vlia); [done| |].
  { intros x Hx. apply Hfree; vlia. }
  exists r, s', l', N', k. split_and!; try done.
  destruct Hr as [[-> ->]|(-> & -> & ?)]; [left|right]; split_and!; done || lia.
Qed.

Lemma walkaddr_spec s root l N va :
  own s root l N → 0 ≤ va →
  walkaddr root va s =
    let e := leaf (k_mem s) N va in
    Ret (if decide (va < MAXVA ∧ Z.land e PTE_V ≠ 0 ∧ Z.land e PTE_U ≠ 0)
         then PTE2PA e else 0) s.
Proof.
  intros Ho Hva. unfold walkaddr. destruct (Z.leb_spec MAXVA va) as [?|Hlt].
  { cbv zeta. rw decide_False //. lia. }
  rewrite -> (bind_Ret _ _ _ _ _ (walk_read s root l N va Ho (conj Hva Hlt))).
  unfold leaf. destruct (leaf_page N va) as [q|] eqn:Hq.
  2: { cbv zeta. rw decide_False //. by intros (_ & ? & _). }
  pose proof (rep_page (own_rep Ho) Hq) as Hqp. pose proof (PX_range 0 va).
  destruct (Z.eqb_spec (pte_at q (PX 0 va)) 0) as [E0|_];
    [unfold pte_at in E0; destruct Hqp as (_ & _ & ?); lia|].
  unfold ld. msimp. set (e := ld64 _ _).
  destruct (Z.eqb_spec (Z.land e PTE_V) 0); [rw decide_False //; naive_solver|].
  destruct (Z.eqb_spec (Z.land e PTE_U) 0); [rw decide_False //; naive_solver|].
  rw decide_True //.
Qed.
End page_table.

#[global] Arguments rep_root {_ _ _ _}.
#[global] Arguments rep_page {_ _ _ _} _ {_ _}.
#[global] Arguments rep_inj {_ _ _ _} _ {_ _ _}.
#[global] Arguments rep_prefix {_ _ _ _} _ {_ _ _}.
#[global] Arguments rep_low {_ _ _ _} _ {_ _ _}.
#[global] Arguments rep_entry {_ _ _ _} _ {_ _ _}.
#[global] Arguments own_lock {_ _ _ _ _}.
#[global] Arguments own_free {_ _ _ _ _}.
#[global] Arguments own_rep {_ _ _ _ _}.
#[global] Arguments own_disj {_ _ _ _ _} _ {_ _}.
