(* ===== verification/Uspace.v ===== *)
(** * User address spaces (kernel/vm.c: uvm*, copyin, copyout)

    [uspace] relates a page table to the map from virtual page numbers to
    the physical pages that the address space owns; [ustep] is what every
    operation promises: it changes memory only inside the footprint of the
    address space and the free list, and pages that stay mapped keep their
    contents. *)

From S2P Require Import Prelude Riscv KState Spinlock KString Kalloc Vm PageTable.
Open Scope Z_scope.

(** Virtual page number to physical page and permissions. *)
Abbreviation umap := (gmap Z (Z * Z)).

Section uspace.
Context `{Image}.

(** ** User address spaces

    [u] maps virtual page numbers to the physical page and permission of the
    pages the address space owns. *)

Record uspace (s : kstate) (root : Z) (l : list Z) (N : ptree) (u : umap) : Prop := {
  us_own : own s root l N;
  us_range k e : u !! k = Some e → 0 ≤ k ∧ 4096 * k + 4096 ≤ MAXVA;
  us_leaf k e : u !! k = Some e → leaf (k_mem s) N (4096 * k) = pte_of e.1 e.2;
  us_perm k e : u !! k = Some e → 0 ≤ e.2 < 1024 ∧ Z.lor e.2 PTE_V ≠ PTE_V;
  us_page k e : u !! k = Some e → page_ok e.1 ∧ (e.1 ∉ l) ∧ (∀ π, N !! π ≠ Some (e.1));
  us_inj k k' e e' : u !! k = Some e → u !! k' = Some e' → e.1 = e'.1 → k = k'
}.
Arguments us_own {s root l N u}.
Arguments us_range {s root l N u} _ {k e}.
Arguments us_leaf {s root l N u} _ {k e}.
Arguments us_perm {s root l N u} _ {k e}.
Arguments us_page {s root l N u} _ {k e}.
Arguments us_inj {s root l N u} _ {k k' e e'}.

(** The pages an address space and the free list are made of. *)
Definition footprint (l : list Z) (N : ptree) (u : umap) (b : Z) : Prop :=
  b ∈ l ∨ (∃ π, N !! π = Some b) ∨ (∃ k fl, u !! k = Some (b, fl)).

(** An operation on the address space: memory outside of the footprint does
    not change, the footprint stays the same, so that no page is lost, and the
    pages that stay mapped keep their contents. *)
Record ustep (s : kstate) (l : list Z) (N : ptree) (u : umap)
    (s' : kstate) (l' : list Z) (N' : ptree) (u' : umap) : Prop := {
  st_state : ∃ m f, s' = set_k_mem m (set_k_freelist f s);
  st_foreign b : b mod 4096 = 0 → ¬ footprint l N u b → agree (k_mem s) (k_mem s') b;
  st_shrink b : footprint l' N' u' b → footprint l N u b;
  st_whole b : footprint l N u b → footprint l' N' u' b;
  st_keep k e : u !! k = Some e → u' !! k = Some e → agree (k_mem s) (k_mem s') e.1
}.

Lemma ustep_refl s l N u : ustep s l N u s l N u.
Proof. split; try done. exists (k_mem s), (k_freelist s). by destruct s. Qed.

Lemma ustep_trans s l N u s1 l1 N1 u1 s2 l2 N2 u2 :
  (∀ k e, u !! k = Some e → u2 !! k = Some e → u1 !! k = Some e) →
  ustep s l N u s1 l1 N1 u1 → ustep s1 l1 N1 u1 s2 l2 N2 u2 → ustep s l N u s2 l2 N2 u2.
Proof.
  intros Hu [(m1 & f1 & E1) Hf1 Hs1 Hw1 Hk1] [(m2 & f2 & E2) Hf2 Hs2 Hw2 Hk2]. split.
  - exists m2, f2. rw E2 E1. by destruct s.
  - intros b Hb Hn. eapply agree_trans; [by apply Hf1|apply Hf2; [done|]].
    intros Hfp. by apply Hn, Hs1.
  - intros b Hb. by apply Hs1, Hs2.
  - intros b Hb. by apply Hw2, Hw1.
  - intros k e He He2. pose proof (Hu k e He He2).
    eapply agree_trans; [by eapply Hk1|by eapply Hk2].
Qed.

(** The table may evolve under the address space. *)
Lemma evolves_ustep s root l N u s' l' N' :
  uspace s root l N u → own s' root l' N' → evolves s l N s' l' N' →
  (∀ k e, u !! k = Some e → leaf (k_mem s') N' (4096 * k) = leaf (k_mem s) N (4096 * k)) →
  uspace s' root l' N' u ∧ ustep s l N u s' l' N' u.
Proof.
  intros Hu Ho' [Hst (used & Hused & HN) Ht Hsub Hag] Hl. split; split.
  - done.
  - intros k e. apply (us_range Hu).
  - intros k e He. rw (Hl _ _ He). by apply (us_leaf Hu).
  - intros k e. apply (us_perm Hu).
  - intros k e He. destruct (us_page Hu He) as (Hp & Hnl & HnN).
    rw Hused not_elem_of_app in Hnl. destruct Hnl as [Hnu Hnl].
    split_and!; [done|done|]. intros π Hπ.
    destruct (HN _ _ Hπ) as [?|?]; [by eapply HnN|done].
  - intros k k' e e'. apply (us_inj Hu).
  - done.
  - intros b Hb Hfp. apply Hag; [done| |].
    + intros ?. apply Hfp. by left.
    + intros π ?. apply Hfp. right; left. by exists π.
  - intros b [Hb|[[π Hπ]|Hb]].
    + left. rw Hused elem_of_app. by right.
    + destruct (HN _ _ Hπ) as [?|?]; [right; left; by exists π|].
      left. rw Hused elem_of_app. by left.
    + by right; right.
  - intros b [Hb|[[π Hπ]|Hb]].
    + destruct (Ht b Hb); [by left|by right; left].
    + right; left. exists π. by eapply lookup_weaken.
    + by right; right.
  - intros k e He _. destruct (us_page Hu He) as ([Hal _] & Hnl & HnN). by apply Hag.
Qed.

(** Freeing a page that neither the table nor the free list holds. *)
Lemma kfree_own s root l N a :
  own s root l N → page_ok a → a ∉ l → (∀ π, N !! π ≠ Some a) →
  ∃ s', kfree a s = Ret tt s' ∧ own s' root (a :: l) N ∧
    (∃ m f, s' = set_k_mem m (set_k_freelist f s)) ∧
    (∀ b, b mod 4096 = 0 → b ≠ a → agree (k_mem s) (k_mem s') b) ∧
    (∀ x, leaf (k_mem s') N x = leaf (k_mem s) N x).
Proof.
  intros Ho Ha Hl HN. eexists. split; [apply kfree_page; [apply (own_lock Ho)|done]|].
  set (s' := set_k_mem _ _).
  assert (∀ b, b mod 4096 = 0 → b ≠ a → agree (k_mem s) (k_mem s') b) as Hag.
  { intros b Hb Hne. destruct Ha as [Hal _].
    eapply agree_trans; [by eapply (agree_memset _ b a 1)|].
    apply (agree_stn _ _ a); rw ?length_le_enc; try done; lia. }
  assert (∀ π p, N !! π = Some p → agree (k_mem s) (k_mem s') p) as HagN.
  { intros π p Hp. apply Hag; [by apply (rep_page (own_rep Ho) Hp)|].
    intros ->. by eapply HN. }
  split_and!; [split| | |].
  - apply (own_lock Ho).
  - by apply kmem_inv_free, Ho.
  - eapply pt_rep_frame; [|apply (own_rep Ho)]. intros π p Hp _. by eapply HagN.
  - intros π p Hp [->|?]%elem_of_cons; [by eapply HN|by eapply (own_disj Ho)].
  - by do 2 eexists.
  - done.
  - intros x. unfold leaf, leaf_page. destruct (N !! _) as [p|] eqn:Hp; [|done].
    apply agree_ld64; [by eapply HagN|apply PX_range].
Qed.

Lemma uspace_walk s root l N u k e :
  uspace s root l N u → u !! k = Some e →
  ∃ q, leaf_page N (4096 * k) = Some q ∧ page_ok q ∧
    walk root (4096 * k) 0 s = Ret (pte_at q (PX 0 (4096 * k))) s ∧
    pte_at q (PX 0 (4096 * k)) ≠ 0 ∧
    ld64 (k_mem s) (pte_at q (PX 0 (4096 * k))) = pte_of e.1 e.2.
Proof.
  intros Hu He. pose proof (us_leaf Hu He) as Hl. unfold leaf in Hl.
  destruct (leaf_page N (4096 * k)) as [q|] eqn:Hq.
  2: { destruct (pte_of_valid e.1 e.2). by rw -Hl. }
  pose proof (rep_page (own_rep (us_own Hu)) Hq) as Hpq.
  exists q. split_and!; [done|done| | |done].
  - rewrite -> (walk_read s root l N); [by rw Hq|apply (us_own Hu)|].
    pose proof (us_range Hu He). lia.
  - unfold pte_at. pose proof (PX_range 0 (4096 * k)). destruct Hpq as (_ & _ & ?). lia.
Qed.

(** One iteration of [uvmunmap] with [do_free]. *)
Lemma unmap_one s root l N u k e end_va :
  uspace s root l N u → u !! k = Some e → 4096 * k < end_va →
  ∃ s', uvmunmap_body root end_va 1 (4096 * k) s = Ret (inl (4096 * (k + 1))) s' ∧
    uspace s' root (e.1 :: l) N (delete k u) ∧
    ustep s l N u s' (e.1 :: l) N (delete k u) ∧
    (∀ x, 0 ≤ x < MAXVA → leaf (k_mem s') N x =
       if decide (x / 4096 = k) then 0 else leaf (k_mem s) N x).
Proof.
  intros Hu He Hend. destruct (uspace_walk _ _ _ _ _ _ _ Hu He) as (q & Hq & Hpq & Hw & Hq0 & Hld).
  destruct (us_range Hu He) as [Hk0 Hk], (us_perm Hu He) as [Hfl HflV],
    (us_page Hu He) as (Hp & Hnl & HnN).
  pose proof (page_ok_range _ Hp) as Hpr. destruct (Hp) as [Hpal _].
  unfold uvmunmap_body. destruct (Z.ltb_spec (4096 * k) end_va); [|lia]. cbn [negb].
  rewrite -> (bind_Ret _ _ _ _ _ Hw). destruct (Z.eqb_spec (pte_at q (PX 0 (4096 * k))) 0); [done|].
  unfold ld. msimp. rw Hld.
  destruct (Z.eqb_spec (Z.land (pte_of e.1 e.2) PTE_V) 0) as [E|_]; [by apply pte_of_valid in E|].
  rw pte_of_perm //. destruct (Z.eqb_spec (Z.lor e.2 PTE_V) PTE_V); [done|].
  cbn [Z.eqb negb whenM]. rw pte_of_pa //.
  destruct (kfree_own s root l N e.1 (us_own Hu) Hp Hnl HnN) as (s1 & Hf & Ho1 & Hst1 & Hag1 & Hl1).
  rewrite -> (bind_Ret _ _ _ _ _ Hf). unfold st. msimp.
  destruct (st_leaf s1 root (e.1 :: l) N (4096 * k) q 0 Ho1 ltac:(lia) Hq ltac:(done))
    as (Ho2 & Hev2 & Hl2). set (s2 := set_k_mem _ _) in *.
  assert (∀ x, 0 ≤ x < MAXVA → leaf (k_mem s2) N x =
    if decide (x / 4096 = k) then 0 else leaf (k_mem s) N x) as Hl.
  { intros x Hx. rw Hl2 // Hl1. by rewrite -> (Z.mul_comm 4096 k), Z.div_mul by lia. }
  assert (∀ b, b mod 4096 = 0 → b ≠ e.1 → b ∉ l → (∀ π, N !! π ≠ Some b) →
    agree (k_mem s) (k_mem s2) b) as Hag.
  { intros b Hb Hne Hbl HbN. eapply agree_trans; [by apply Hag1|].
    eapply (ev_agree _ _ _ _ _ _ Hev2); [done| |done]. by rw not_elem_of_cons. }
  exists s2. split_and!; [|split|split|done].
  - rw u64_small; [|vlia]. unfold mret, M_ret. do 2 f_equal. vlia.
  - done.
  - intros j e' [_ He']%lookup_delete_Some. by apply (us_range Hu He').
  - intros j e' [Hne He']%lookup_delete_Some. destruct (us_range Hu He').
    rw Hl; [|lia]. rewrite -> (Z.mul_comm 4096 j), Z.div_mul by lia.
    rw decide_False; [|done]. rw Z.mul_comm. by apply (us_leaf Hu).
  - intros j e' [_ He']%lookup_delete_Some. by apply (us_perm Hu He').
  - intros j e' [Hne He']%lookup_delete_Some. destruct (us_page Hu He') as (? & ? & ?).
    split_and!; [done| |done]. rw not_elem_of_cons. split; [|done].
    intros E. apply Hne. by apply (us_inj Hu He He').
  - intros j j' e1 e2 [_ H1]%lookup_delete_Some [_ H2]%lookup_delete_Some. by apply (us_inj Hu).
  - destruct Hst1 as (m1 & f1 & E1). exists (k_mem s2), f1. unfold s2. rw E1. by destruct s.
  - intros b Hb Hfp. apply Hag; [done| | |].
    + intros ->. apply Hfp. right; right. exists k, e.2. by destruct e.
    + intros ?. apply Hfp. by left.
    + intros π ?. apply Hfp. right; left. by eexists.
  - intros b [[->|Hb]%elem_of_cons|[Hb|(j & fl & [_ Hb]%lookup_delete_Some)]].
    + right; right. exists k, e.2. by destruct e.
    + by left.
    + by right; left.
    + right; right. by exists j, fl.
  - intros b [Hb|[Hb|(j & fl & Hb)]]; [left; by right|by right; left|].
    destruct (decide (j = k)) as [->|Hjk].
    + left. rw He in Hb. injection Hb as ->. by left.
    + right; right. exists j, fl. by rw lookup_delete_ne.
  - intros j e' He' [Hne _]%lookup_delete_Some. destruct (us_page Hu He') as ([? _] & ? & ?).
    apply Hag; try done. intros E. apply Hne. by apply (us_inj Hu He He').
Qed.

Lemma uvmunmap_loop root N end_va (n : nat) : ∀ (fuel : nat) s l u k,
  (n < fuel)%nat → end_va = 4096 * (k + n) → uspace s root l N u →
  (∀ j, k ≤ j < k + n → is_Some (u !! j)) →
  ∃ s' l' u', loopM fuel (uvmunmap_body root end_va 1) (4096 * k) s = Ret tt s' ∧
    uspace s' root l' N u' ∧ ustep s l N u s' l' N u' ∧
    (∀ j, u' !! j = if decide (k ≤ j < k + n) then None else u !! j) ∧
    (∀ x, 0 ≤ x < MAXVA → leaf (k_mem s') N x =
       if decide (k ≤ x / 4096 < k + n) then 0 else leaf (k_mem s) N x).
Proof.
  induction n as [|n IH]; intros [|fuel] s l u k Hf Hend Hu Hd; [lia| |lia|]; cbn [loopM].
  - erewrite bind_Ret; [|by unfold uvmunmap_body; destruct (Z.ltb_spec (4096 * k) end_va); [lia|]].
    exists s, l, u. split_and!; [done|done|apply ustep_refl| |].
    + intros j. rw decide_False //. lia.
    + intros x Hx. rw decide_False //. lia.
  - destruct (Hd k) as [e He]; [lia|].
    destruct (unmap_one s root l N u k e end_va Hu He) as (s1 & E1 & Hu1 & Hst1 & Hl1); [lia|].
    rewrite -> (bind_Ret _ _ _ _ _ E1).
    destruct (IH fuel s1 (e.1 :: l) (delete k u) (k + 1)) as (s2 & l2 & u2 & E2 & Hu2 & Hst2 & Hd2 & Hl2);
      [lia|lia|done| |].
    { intros j Hj. rw lookup_delete_ne; [|lia]. apply Hd. lia. }
    exists s2, l2, u2. split_and!; [done|done| | |].
    + eapply ustep_trans; [|done|done]. intros j e' He' He2. rw Hd2 in He2.
      case_decide; [done|]. by destruct (lookup_delete_Some u k j e').
    + intros j. rw Hd2. repeat case_decide; try done; try lia.
      * assert (j = k) as -> by lia. by rw lookup_delete_eq.
      * rw lookup_delete_ne //. lia.
    + intros x Hx. rw Hl2 // Hl1 //. repeat case_decide; try done; lia.
Qed.

Lemma uvmunmap_spec s root l N u k n :
  uspace s root l N u → 0 ≤ k → 0 ≤ n → 4096 * (k + n) ≤ MAXVA →
  (∀ j, k ≤ j < k + n → is_Some (u !! j)) →
  ∃ s' l' u', uvmunmap root (4096 * k) n 1 s = Ret tt s' ∧
    uspace s' root l' N u' ∧ ustep s l N u s' l' N u' ∧
    (∀ j, u' !! j = if decide (k ≤ j < k + n) then None else u !! j) ∧
    (∀ x, 0 ≤ x < MAXVA → leaf (k_mem s') N x =
       if decide (k ≤ x / 4096 < k + n) then 0 else leaf (k_mem s) N x).
Proof.
  intros Hu Hk Hn Hm Hd. unfold uvmunmap. destruct (Z.eqb_spec (4096 * k mod PGSIZE) 0); [|vlia].
  cbn [negb]. destruct (uvmunmap_loop root N (u64 (4096 * k + n * PGSIZE)) (Z.to_nat n)
    (Z.to_nat n + 1) s l u k) as (s' & l' & u' & R); [lia|rw u64_small; vlia|done| |].
  { intros j Hj. apply Hd. lia. }
  exists s', l', u'. by rw Z2Nat.id in R.
Qed.

(** A zeroed or copied page [a], just allocated, mapped at page [k]. *)
Lemma map_user_page s root l N u k a perm :
  uspace s root l N u → page_ok a → a ∉ l → (∀ π, N !! π ≠ Some a) →
  (∀ j e, u !! j = Some e → e.1 ≠ a) →
  0 ≤ k → 4096 * k + 4096 ≤ MAXVA → 0 ≤ perm < 1024 → Z.lor perm PTE_V ≠ PTE_V →
  Z.land (leaf (k_mem s) N (4096 * k)) PTE_V = 0 →
  ∃ r s' l' N', mappages root (4096 * k) PGSIZE a perm s = Ret r s' ∧
    evolves s l N s' l' N' ∧
    (r = -1 ∧ l' = [] ∧ uspace s' root l' N' u ∧ ustep s l N u s' l' N' u ∧
       (∀ x, 0 ≤ x < MAXVA → leaf (k_mem s') N' x = leaf (k_mem s) N x) ∨
     r = 0 ∧ uspace s' root l' N' (<[k := (a, perm)]> u) ∧
       (∀ x, 0 ≤ x < MAXVA → leaf (k_mem s') N' x =
          if decide (x / 4096 = k) then pte_of a perm else leaf (k_mem s) N x)).
Proof.
  intros Hu Ha Hal HaN Hau Hk0 Hk Hp HpV Hfree. pose proof (page_ok_range _ Ha) as Har.
  assert (a + 8192 ≤ 2 ^ 56) as Ha56
    by (destruct Ha as (_ & Ha & _); change PHYSTOP with 2281701376 in Ha; lia).
  destruct (mappages_spec s root l N (4096 * k) PGSIZE a perm (us_own Hu))
    as (r & s' & l' & N' & c & E & Ho' & Hev & Hl & Hr);
    [lia|done|vlia|lia|by destruct Ha|vlia|done| |].
  { intros x Hx Hx'. rw (leaf_same_page _ _ x (4096 * k)) //. vlia. }
  exists r, s', l', N'. split; [done|]. split; [done|].
  assert (c = 0 ∨ c = 1) as Hc by (destruct Hr as [[_ ->]|(_ & _ & ?)]; vlia).
  assert (∀ x, 0 ≤ x < MAXVA → leaf (k_mem s') N' x =
    if decide (x / 4096 = k ∧ c = 1) then pte_of a perm else leaf (k_mem s) N x) as Hl'.
  { intros x Hx. rw Hl //. unfold map_range. repeat case_decide; try vlia; try done.
    f_equal. vlia. }
  assert (∀ j e, u !! j = Some e → leaf (k_mem s') N' (4096 * j) = leaf (k_mem s) N (4096 * j)) as Hlu.
  { intros j e He. destruct (us_range Hu He). rw Hl'; [|lia].
    destruct (decide (4096 * j / 4096 = k ∧ c = 1)) as [Ejk|]; [|done].
    assert (j = k) as -> by zlia. rw (us_leaf Hu He) in Hfree. by apply pte_of_valid in Hfree. }
  destruct (evolves_ustep s root l N u s' l' N' Hu Ho' Hev Hlu) as [Hu' Hst'].
  destruct Hr as [[-> Hc1]|(-> & -> & Hc0)].
  - right. assert (c = 1) as -> by vlia. split_and!; [done| |].
    2: { intros x Hx. rw Hl' //. apply decide_ext. naive_solver. }
    split.
    + done.
    + intros j e [[<- <-]|[_ He]]%lookup_insert_Some; [done|by apply (us_range Hu He)].
    + intros j e [[<- <-]|[_ He]]%lookup_insert_Some; [|by apply (us_leaf Hu' He)].
      rw Hl'; [|lia]. rw decide_True //. zlia.
    + intros j e [[<- <-]|[_ He]]%lookup_insert_Some; [done|by apply (us_perm Hu He)].
    + intros j e [[<- <-]|[_ He]]%lookup_insert_Some; [|by apply (us_page Hu' He)].
      destruct (ev_used _ _ _ _ _ _ Hev) as (used & Hused & HN').
      rw Hused not_elem_of_app in Hal. destruct Hal as [Hal1 Hal2]. split_and!; [done|done|].
      intros π Hπ. destruct (HN' _ _ Hπ); [by eapply HaN|done].
    + intros j j' e e' [[<- <-]|[Hne He]]%lookup_insert_Some [[<- <-]|[Hne' He']]%lookup_insert_Some;
        cbn; try done.
      * intros E'. by destruct (Hau _ _ He').
      * intros E'. by destruct (Hau _ _ He).
      * by apply (us_inj Hu).
  - left. assert (c = 0) as -> by vlia. split_and!; try done.
    intros x Hx. rw Hl' //. rw decide_False //. lia.
Qed.

Lemma uvmdealloc_spec s root l N u oldsz newsz :
  uspace s root l N u → 0 ≤ newsz < oldsz → oldsz ≤ MAXVA →
  let k0 := (newsz + 4095) / 4096 in let k1 := (oldsz + 4095) / 4096 in
  (∀ j, k0 ≤ j < k1 → is_Some (u !! j)) →
  ∃ s' l' u', uvmdealloc root oldsz newsz s = Ret newsz s' ∧
    uspace s' root l' N u' ∧ ustep s l N u s' l' N u' ∧
    (∀ j, u' !! j = if decide (k0 ≤ j < k1) then None else u !! j) ∧
    (∀ x, 0 ≤ x < MAXVA → leaf (k_mem s') N x =
       if decide (k0 ≤ x / 4096 < k1) then 0 else leaf (k_mem s) N x).
Proof.
  intros Hu Hn Hm k0 k1 Hd. unfold uvmdealloc. destruct (Z.leb_spec oldsz newsz); [lia|].
  assert (PGROUNDUP newsz = 4096 * k0) as -> by (rw PGROUNDUP_spec; unfold k0; vlia).
  assert (PGROUNDUP oldsz = 4096 * k1) as -> by (rw PGROUNDUP_spec; unfold k1; vlia).
  assert (0 ≤ k0 ≤ k1) by (unfold k0, k1; vlia). assert (4096 * k1 ≤ MAXVA) by (unfold k1; vlia).
  destruct (Z.ltb_spec (4096 * k0) (4096 * k1)); cbn [whenM].
  - cbv zeta. rw (u64_small (4096 * k1 - 4096 * k0)); [|vlia].
    replace ((4096 * k1 - 4096 * k0) / PGSIZE) with (k1 - k0) by vlia.
    rw i32_small; [|vlia]. rw u64_small; [|vlia].
    destruct (uvmunmap_spec s root l N u k0 (k1 - k0)) as (s' & l' & u' & E & R); try done; try lia.
    { intros j Hj. apply Hd. lia. }
    rewrite -> (bind_Ret _ _ _ _ _ E). replace (k0 + (k1 - k0)) with k1 in R by lia.
    by exists s', l', u'.
  - assert (k0 = k1) as E by lia. exists s, l, u. split_and!; [done|done|apply ustep_refl| |].
    + intros j. rw decide_False //. lia.
    + intros x Hx. rw decide_False //. lia.
Qed.

(** Taking the first free page [a] and writing in it: whatever the memory
    is inside [a], the address space is the same. The page still counts as
    one of the operation. *)
Lemma take_page s root a l N u m' :
  uspace s root (a :: l) N u →
  (∀ b, b mod 4096 = 0 → b ≠ a → agree (k_mem s) m' b) →
  let s' := set_k_mem m' (set_k_freelist (ld64 (k_mem s) a) s) in
  uspace s' root l N u ∧ ustep s (a :: l) N u s' (a :: l) N u ∧
  (∀ x, leaf m' N x = leaf (k_mem s) N x) ∧
  page_ok a ∧ (a ∉ l) ∧ (∀ π, N !! π ≠ Some a) ∧ (∀ j e, u !! j = Some e → e.1 ≠ a).
Proof.
  intros Hu Hag s'. pose proof (us_own Hu) as Ho.
  destruct (own_free Ho) as [(Hh & Ha & Hf) [Hnin Hnd]%NoDup_cons].
  assert (∀ π p, N !! π = Some p → p ≠ a) as HNa
    by (intros π p Hp ->; by destruct (own_disj Ho Hp); left).
  assert (∀ j e, u !! j = Some e → e.1 ≠ a) as Hua.
  { intros j e He E. destruct (us_page Hu He) as (_ & Hn & _). apply Hn. rw E. by left. }
  assert (∀ π p, N !! π = Some p → agree (k_mem s) m' p) as HagN.
  { intros π p Hp. apply Hag; [by apply (rep_page (own_rep Ho) Hp)|by eapply HNa]. }
  assert (∀ x, leaf m' N x = leaf (k_mem s) N x) as Hl.
  { intros x. unfold leaf, leaf_page. destruct (N !! _) as [p|] eqn:Hp; [|done].
    apply agree_ld64; [by eapply HagN|apply PX_range]. }
  split_and!; try done; [split|split|].
  - split; [apply (own_lock Ho)| | |].
    + split; [|done]. kcbn. eapply flist_frame; [|done]. intros b x Hb. apply Hag; [|set_solver].
      pose proof (flist_pages _ _ _ Hf) as Hfp. rw Forall_forall in Hfp. by apply Hfp.
    + eapply pt_rep_frame; [|apply (own_rep Ho)]. intros π p Hp _. by eapply HagN.
    + intros π p Hp Hin. by destruct (own_disj Ho Hp); right.
  - intros k e. apply (us_range Hu).
  - intros k e He. kcbn. rw Hl. by apply (us_leaf Hu).
  - intros k e. apply (us_perm Hu).
  - intros k e He. destruct (us_page Hu He) as (? & Hn & ?). split_and!; [done| |done].
    intros ?. apply Hn. by right.
  - intros k k' e e'. apply (us_inj Hu).
  - by do 2 eexists.
  - intros b Hb Hfp. apply Hag; [done|]. intros ->. apply Hfp. left. by left.
  - done.
  - done.
  - intros k e He _. apply Hag; [|by eapply Hua]. by apply (us_page Hu He).
  - intros π Hp. by apply (HNa π a).
Qed.

Lemma kfree_user s root l N u a :
  uspace s root l N u → page_ok a → a ∉ l → (∀ π, N !! π ≠ Some a) →
  (∀ j e, u !! j = Some e → e.1 ≠ a) →
  ∃ s', kfree a s = Ret tt s' ∧ uspace s' root (a :: l) N u ∧
    (∃ m f, s' = set_k_mem m (set_k_freelist f s)) ∧
    (∀ b, b mod 4096 = 0 → b ≠ a → agree (k_mem s) (k_mem s') b) ∧
    (∀ x, leaf (k_mem s') N x = leaf (k_mem s) N x).
Proof.
  intros Hu Ha Hl HN Hau.
  destruct (kfree_own s root l N a (us_own Hu) Ha Hl HN) as (s' & E & Ho & Hst & Hag & Hlf).
  exists s'. split_and!; try done. split.
  - done.
  - intros k e. apply (us_range Hu).
  - intros k e He. rw Hlf. by apply (us_leaf Hu).
  - intros k e. apply (us_perm Hu).
  - intros k e He. destruct (us_page Hu He) as (? & ? & ?). split_and!; [done| |done].
    rw not_elem_of_cons. split; [by eapply Hau|done].
  - intros k k' e e'. apply (us_inj Hu).
Qed.

Lemma ustep_with a s l N u s' l' N' u' :
  ustep s l N u s' l' N' u' → ustep s (a :: l) N u s' (a :: l') N' u'.
Proof.
  intros [Hst Hf Hs Hw Hk]. split; [done| | | |done].
  - intros b Hb Hfp. apply Hf; [done|]. intros [?|?]; apply Hfp; [left; by right|by right].
  - intros b [[->|Hb]%elem_of_cons|Hb]; [left; by left|..].
    + destruct (Hs b) as [?|?]; [by left|left; by right|by right].
    + destruct (Hs b) as [?|?]; [by right|left; by right|by right].
  - intros b [[->|Hb]%elem_of_cons|Hb]; [left; by left|..].
    + destruct (Hw b) as [?|?]; [by left|left; by right|by right].
    + destruct (Hw b) as [?|?]; [by right|left; by right|by right].
Qed.

(** A page that was taken for the operation [s1] to [s2] is given back. *)
Lemma ustep_give_back s a l N u s1 s2 l2 N2 s3 :
  ustep s (a :: l) N u s1 (a :: l) N u → ustep s1 l N u s2 l2 N2 u →
  (∃ m f, s3 = set_k_mem m (set_k_freelist f s2)) →
  (∀ b, b mod 4096 = 0 → b ≠ a → agree (k_mem s2) (k_mem s3) b) →
  (∀ j e, u !! j = Some e → e.1 ≠ a ∧ e.1 mod 4096 = 0) →
  ustep s (a :: l) N u s3 (a :: l2) N2 u.
Proof.
  intros H1 H2 (m3 & f3 & E3) Hag Hau.
  pose proof (ustep_trans _ _ _ _ _ _ _ _ _ _ _ _ (λ k e He _, He) H1 (ustep_with a _ _ _ _ _ _ _ _ H2))
    as [Hst Hf Hs Hw Hk]. split; [|..|done|].
  - destruct Hst as (m2 & f2 & E2). exists m3, f3. rw E3 E2. by destruct s.
  - intros b Hb Hfp. eapply agree_trans; [by apply Hf|]. apply Hag; [done|].
    intros ->. apply Hfp. left. by left.
  - done.
  - intros k e He He'. eapply agree_trans; [by eapply Hk|]. by apply Hag; eapply Hau.
Qed.

(** A page that was taken is mapped at page [k]. *)
Lemma ustep_map s a l N u s1 root s2 l2 N2 k perm :
  ustep s (a :: l) N u s1 (a :: l) N u → uspace s1 root l N u → evolves s1 l N s2 l2 N2 →
  u !! k = None → ustep s (a :: l) N u s2 l2 N2 (<[k := (a, perm)]> u).
Proof.
  intros [(m1 & f1 & E1) Hf1 Hs1 Hw1 Hk1] Hu1 [(m2 & f2 & E2) (used & Hused & HN) Ht Hsub Hag] Hk. split.
  - exists m2, f2. rw E2 E1. by destruct s.
  - intros b Hb Hfp. eapply agree_trans; [by apply Hf1|]. apply Hag; [done| |].
    + intros ?. apply Hfp. left. by right.
    + intros π ?. apply Hfp. right; left. by eexists.
  - intros b [Hb|[[π Hb]|(j & fl & [[<- [= <- <-]]|[_ Hb]]%lookup_insert_Some)]].
    + left. right. rw Hused elem_of_app. by right.
    + destruct (HN _ _ Hb); [right; left; by eexists|]. left. right. rw Hused elem_of_app. by left.
    + left. by left.
    + right; right. by exists j, fl.
  - intros b [[->|Hb]%elem_of_cons|[[π Hb]|(j & fl & Hb)]].
    + right; right. exists k, perm. by rw lookup_insert_eq.
    + destruct (Ht b Hb); [by left|by right; left].
    + right; left. exists π. by eapply lookup_weaken.
    + right; right. exists j, fl. rw lookup_insert_ne //. congruence.
  - intros j e He [[<- _]|[_ _]]%lookup_insert_Some; [congruence|].
    eapply agree_trans; [by eapply Hk1|]. destruct (us_page Hu1 He) as ([? _] & ? & ?). by apply Hag.
Qed.

(** *** Filling a range of pages: [uvmalloc] and [uvmcopy] *)

Definition perm_all : Z := Z.lor (Z.lor (Z.lor PTE_W PTE_X) PTE_R) PTE_U.
Definition zero_page (m : bytemem) (a : Z) : Prop := ∀ x, a ≤ x < a + 4096 → ldb m x = 0.

Section fill.
(** What the loop establishes of the page it maps at [j]; it depends on
    memory only through that page. *)
Context (Q : Z → bytemem → Z * Z → Prop).
Context (Qagree : ∀ j m m' e, agree m m' e.1 → Q j m e → Q j m' e).
(** The address space before the loop, and the first page to fill. *)
Context (s0 : kstate) (root : Z) (l0 : list Z) (N0 : ptree) (u0 : umap) (k0 : Z).

(** The pages from [k0] up to [k] have been filled. *)
Record filled (k : Z) (s : kstate) (l : list Z) (N : ptree) (u : umap) : Prop := {
  al_step : ustep s0 l0 N0 u0 s l N u;
  al_old j : ¬ (k0 ≤ j < k) → u !! j = u0 !! j;
  al_new j : k0 ≤ j < k → ∃ e, u !! j = Some e ∧ Q j (k_mem s) e;
  al_leaf x : 0 ≤ x < MAXVA → ¬ (k0 ≤ x / 4096 < k) →
    leaf (k_mem s) N x = leaf (k_mem s0) N0 x
}.

(** An operation that keeps [u]. *)
Lemma filled_keep k s l N u s' l' N' :
  filled k s l N u → ustep s l N u s' l' N' u →
  (∀ x, 0 ≤ x < MAXVA → leaf (k_mem s') N' x = leaf (k_mem s) N x) →
  (∀ j e, u0 !! j = Some e → u !! j = Some e) →
  filled k s' l' N' u.
Proof.
  intros [Hst Ho Hn Hl] Hst' Hl' Hsub. split.
  - eapply ustep_trans; [|done|done]. intros j e He _. by apply Hsub.
  - done.
  - intros j Hj. destruct (Hn j Hj) as (e & He & Hq). exists e. split; [done|].
    eapply Qagree; [|done]. by apply (st_keep _ _ _ _ _ _ _ _ Hst' j).
  - intros x Hx Hx'. rw Hl' //. by apply Hl.
Qed.

(** Undoing it. *)
Lemma filled_undo k s l N u :
  filled k s l N u → uspace s root l N u → 0 ≤ k0 ≤ k → 4096 * k ≤ MAXVA →
  (∀ j, k0 ≤ j < k → u0 !! j = None) →
  ∃ s' l', uvmunmap root (4096 * k0) (k - k0) 1 s = Ret tt s' ∧
    uspace s' root l' N u0 ∧ ustep s0 l0 N0 u0 s' l' N u0 ∧
    (∀ x, 0 ≤ x < MAXVA → leaf (k_mem s') N x =
       if decide (k0 ≤ x / 4096 < k) then 0 else leaf (k_mem s0) N0 x).
Proof.
  intros [Hst Ho Hn Hl] Hu Hk Hm Hd.
  destruct (uvmunmap_spec s root l N u k0 (k - k0)) as (s' & l' & u' & E & Hu' & Hst' & Hd' & Hl');
    [done|lia|lia|lia| |].
  { intros j Hj. destruct (Hn j) as (e & He & _); [lia|by eexists]. }
  replace (k0 + (k - k0)) with k in * by lia.
  assert (u' = u0) as ->.
  { apply map_eq. intros j. rw Hd'. destruct (decide (k0 ≤ j < k)); [by rw Hd|by apply Ho]. }
  exists s', l'. split_and!; [done|done| |].
  - eapply ustep_trans; [|done|done]. intros j e He _. rw Ho //. intros Hj. by rw Hd in He.
  - intros x Hx. rw Hl' //. destruct (decide (k0 ≤ x / 4096 < k)); [done|by apply Hl].
Qed.

Lemma uvmdealloc_undo k s l N u :
  filled k s l N u → uspace s root l N u → 0 ≤ k0 ≤ k → 4096 * k ≤ MAXVA →
  (∀ j, k0 ≤ j < k → u0 !! j = None) →
  ∃ r s' l', uvmdealloc root (4096 * k) (4096 * k0) s = Ret r s' ∧
    uspace s' root l' N u0 ∧ ustep s0 l0 N0 u0 s' l' N u0 ∧
    (∀ x, 0 ≤ x < MAXVA → leaf (k_mem s') N x =
       if decide (k0 ≤ x / 4096 < k) then 0 else leaf (k_mem s0) N0 x).
Proof.
  intros Hal Hu Hk Hm Hd.
  destruct (filled_undo k s l N u Hal Hu Hk Hm Hd) as (s' & l' & E & R).
  destruct (decide (k0 = k)) as [<-|Hne].
  - exists (4096 * k0), s, l. unfold uvmdealloc.
    destruct (Z.leb_spec (4096 * k0) (4096 * k0)); [|lia]. destruct Hal as [Hst Ho _ Hl].
    assert (u = u0) as -> by (apply map_eq; intros j; apply Ho; lia).
    split_and!; try done. intros x Hx. rw decide_False; [apply Hl; [done|]|]; lia.
  - exists (4096 * k0), s', l'. split; [|done]. unfold uvmdealloc.
    destruct (Z.leb_spec (4096 * k) (4096 * k0)); [lia|]. rw !PGROUNDUP_spec; [|vlia..].
    replace ((4096 * k + 4095) / 4096 * 4096) with (4096 * k) by zlia.
    replace ((4096 * k0 + 4095) / 4096 * 4096) with (4096 * k0) by zlia.
    destruct (Z.ltb_spec (4096 * k0) (4096 * k)); [|lia]. cbn [whenM]. cbv zeta.
    rw (u64_small (4096 * k - 4096 * k0)); [|vlia].
    replace ((4096 * k - 4096 * k0) / PGSIZE) with (k - k0) by vlia.
    rw i32_small; [|vlia]. rw u64_small; [|vlia]. by rewrite -> (bind_Ret _ _ _ _ _ E).
Qed.

(** The free page [a], filled to make up memory [m1], is mapped at [k]; or,
    for lack of table pages, it is freed again. *)
Lemma filled_map k s a l N u m1 perm :
  filled k s (a :: l) N u → uspace s root (a :: l) N u →
  0 ≤ k0 ≤ k → 4096 * k + 4096 ≤ MAXVA → (∀ j, k0 ≤ j ≤ k → u0 !! j = None) →
  Z.land (leaf (k_mem s0) N0 (4096 * k)) PTE_V = 0 →
  0 ≤ perm < 1024 → Z.lor perm PTE_V ≠ PTE_V →
  (∀ b, b mod 4096 = 0 → b ≠ a → agree (k_mem s) m1 b) → Q k m1 (a, perm) →
  ∃ r s2 l2 N2,
    mappages root (4096 * k) PGSIZE a perm
      (set_k_mem m1 (set_k_freelist (ld64 (k_mem s) a) s)) = Ret r s2 ∧
    (r = 0 ∧ uspace s2 root l2 N2 (<[k := (a, perm)]> u) ∧
       filled (k + 1) s2 l2 N2 (<[k := (a, perm)]> u) ∨
     r = -1 ∧ ∃ s3, kfree a s2 = Ret tt s3 ∧ uspace s3 root [a] N2 u ∧ filled k s3 [a] N2 u).
Proof.
  intros Hall Hu Hk Hm Hd Hfree Hp HpV Hag HQ. destruct (Hall) as [Hst Hold Hnew Hl].
  assert (∀ j e, u0 !! j = Some e → u !! j = Some e) as Hsub.
  { intros j e He. rw Hold //. intros Hj. rw Hd // in He. lia. }
  destruct (take_page s root a l N u m1 Hu Hag) as (Hu1 & Hst1 & Hl1 & Ha & Hal & HaN & Hau).
  set (s1 := set_k_mem m1 _) in *.
  edestruct (map_user_page s1 root l N u k a perm)
    as (r & s2 & l2 & N2 & E2 & Hev2 & [(-> & -> & Hu2 & Hst2 & Hl2)|(-> & Hu2 & Hl2)]);
    try done; try lia.
  { kcbn. rw Hl1 Hl //; vlia. }
  - exists (-1), s2, [], N2. split; [done|]. right. split; [done|].
    assert (∀ π, N2 !! π ≠ Some a) as HaN2.
    { intros π Hπ. destruct (ev_used _ _ _ _ _ _ Hev2) as (used & Hused & HN2).
      destruct (HN2 _ _ Hπ); [by eapply HaN|]. apply Hal. rw Hused elem_of_app. by left. }
    destruct (kfree_user s2 root [] N2 u a Hu2 Ha ltac:(by intros ?%elem_of_nil) HaN2 Hau)
      as (s3 & E3 & Hu3 & Hst3 & Hag3 & Hl3).
    exists s3. split_and!; [done|done|]. eapply filled_keep; [done| | |done].
    + eapply ustep_give_back; try done. intros j e He. split; [by eapply Hau|].
      by apply (us_page Hu He).
    + intros x Hx. by rw Hl3 Hl2 // Hl1.
  - exists 0, s2, l2, N2. split; [done|]. left. split; [done|]. split; [done|].
    assert (u !! k = None) as Hk0 by (rw Hold; [apply Hd|]; lia).
    pose proof (ustep_map _ _ _ _ _ _ _ _ _ _ k perm Hst1 Hu1 Hev2 Hk0) as Hst2.
    split.
    + eapply ustep_trans; [|done|done]. intros j e He _. by apply Hsub.
    + intros j Hj. rw lookup_insert_ne; [|lia]. apply Hold. lia.
    + intros j Hj. destruct (decide (j = k)) as [->|Hjk].
      * exists (a, perm). rw lookup_insert_eq. split; [done|]. eapply Qagree; [|done].
        apply (ev_agree _ _ _ _ _ _ Hev2); [by destruct Ha|done|done].
      * destruct (Hnew j) as (e & He & Hq); [lia|]. exists e. rw lookup_insert_ne //.
        split; [done|]. eapply Qagree; [|done]. apply (st_keep _ _ _ _ _ _ _ _ Hst2 j); [done|].
        by rw lookup_insert_ne.
    + intros x Hx Hx'. rw Hl2 // decide_False; [|lia]. kcbn. rw Hl1. apply Hl; [done|lia].
Qed.
End fill.

Lemma filled_refl Q s l N u k : filled Q s l N u k k s l N u.
Proof. split; [apply ustep_refl|done| |done]. intros j Hj. lia. Qed.

Definition zeroed (_ : Z) (m : bytemem) (e : Z * Z) : Prop := e.2 = perm_all ∧ zero_page m e.1.
Lemma zeroed_agree j m m' e : agree m m' e.1 → zeroed j m e → zeroed j m' e.
Proof. intros Hag [Hp Hz]. split; [done|]. intros x Hx. rw Hag //. by apply Hz. Qed.

(** One iteration of [uvmalloc]'s loop. *)
Lemma uvmalloc_page s0 root l0 N0 u0 k0 k s l N u newsz :
  filled zeroed s0 l0 N0 u0 k0 k s l N u → uspace s root l N u →
  0 ≤ k0 ≤ k → 4096 * k < newsz → newsz ≤ MAXVA →
  (∀ j, k0 ≤ j ≤ k → u0 !! j = None) →
  Z.land (leaf (k_mem s0) N0 (4096 * k)) PTE_V = 0 →
  ∃ r s' l' N' u', uvmalloc_body root (4096 * k0) newsz (4096 * k) s = Ret r s' ∧
    uspace s' root l' N' u' ∧
    (r = inl (4096 * (k + 1)) ∧ filled zeroed s0 l0 N0 u0 k0 (k + 1) s' l' N' u' ∨
     r = inr 0 ∧ u' = u0 ∧ ustep s0 l0 N0 u0 s' l' N' u0 ∧
       (∀ x, 0 ≤ x < MAXVA → leaf (k_mem s') N' x =
          if decide (k0 ≤ x / 4096 < k) then 0 else leaf (k_mem s0) N0 x)).
Proof.
  intros Hall Hu Hk Hsz Hm Hd Hfree.
  assert (∀ j, k0 ≤ j < k → u0 !! j = None) as Hd' by (intros j Hj; apply Hd; lia).
  unfold uvmalloc_body. destruct (Z.ltb_spec (4096 * k) newsz); [|lia]. cbn [negb].
  pose proof (own_lock (us_own Hu)) as Hlk. pose proof (own_free (us_own Hu)) as Hfr.
  destruct l as [|a l].
  { rewrite -> (bind_Ret _ _ _ _ _ (kalloc_nil s Hlk Hfr)). cbn [Z.eqb].
    destruct (uvmdealloc_undo _ _ root _ _ _ _ _ _ _ _ _ Hall Hu Hk ltac:(lia) Hd')
      as (r & s' & l' & E & R).
    rewrite -> (bind_Ret _ _ _ _ _ E). exists (inr 0), s', l', N, u0. naive_solver. }
  rewrite -> (bind_Ret _ _ _ _ _ (kalloc_cons s a l Hlk Hfr)).
  destruct Hfr as [(_ & Ha & _) _]. destruct (Z.eqb_spec a 0); [destruct Ha as (_ & _ & ?); lia|].
  unfold kmemset. rewrite -> bind_modify. kcbn. set (m1 := memset _ a 0 PGSIZE).
  assert (∀ b, b mod 4096 = 0 → b ≠ a → agree (k_mem s) m1 b) as Hag.
  { intros b Hb Hne. destruct Ha. eapply agree_trans; by apply agree_memset. }
  assert (zeroed k m1 (a, perm_all)) as Hz.
  { split; [done|]. intros x Hx. unfold m1. rw ldb_memset // decide_True //. }
  clearbody m1. fold perm_all.
  destruct (filled_map _ zeroed_agree s0 root l0 N0 u0 k0 k s a l N u m1 perm_all Hall Hu)
    as (r & s2 & l2 & N2 & E2 & [(-> & Hu2 & Hall2)|(-> & s3 & E3 & Hu3 & Hall3)]); try done; [vlia| |].
  - rewrite -> (bind_Ret _ _ _ _ _ E2). cbn [Z.eqb negb].
    eexists _, s2, l2, N2, _. split_and!; [|exact Hu2|by left; split; [done|exact Hall2]].
    rw u64_small; [|vlia]. unfold mret, M_ret. do 2 f_equal. vlia.
  - rewrite -> (bind_Ret _ _ _ _ _ E2). cbn [Z.eqb negb]. rewrite -> (bind_Ret _ _ _ _ _ E3).
    destruct (uvmdealloc_undo _ _ root _ _ _ _ _ _ _ _ _ Hall3 Hu3 Hk ltac:(lia) Hd')
      as (r & s' & l' & E & R).
    rewrite -> (bind_Ret _ _ _ _ _ E). exists (inr 0), s', l', N2, u0. naive_solver.
Qed.

Lemma uvmalloc_loop s0 root l0 N0 u0 k0 newsz (n : nat) : ∀ (fuel : nat) k s l N u,
  filled zeroed s0 l0 N0 u0 k0 k s l N u → uspace s root l N u →
  0 ≤ k0 ≤ k → newsz ≤ MAXVA → (n < fuel)%nat → k + n = Z.max k ((newsz + 4095) / 4096) →
  (∀ j, k0 ≤ j < k + n → u0 !! j = None ∧ Z.land (leaf (k_mem s0) N0 (4096 * j)) PTE_V = 0) →
  ∃ r s' l' N' u', loopM fuel (uvmalloc_body root (4096 * k0) newsz) (4096 * k) s = Ret r s' ∧
    uspace s' root l' N' u' ∧
    (r = newsz ∧ filled zeroed s0 l0 N0 u0 k0 (k + n) s' l' N' u' ∨
     r = 0 ∧ u' = u0 ∧ ustep s0 l0 N0 u0 s' l' N' u0 ∧
       (∀ x, 0 ≤ x < MAXVA → ¬ (k0 ≤ x / 4096 < k + n) →
          leaf (k_mem s') N' x = leaf (k_mem s0) N0 x) ∧
       (∀ j, k0 ≤ j < k + n → Z.land (leaf (k_mem s') N' (4096 * j)) PTE_V = 0)).
Proof.
  induction n as [|n IH]; intros [|fuel] k s l N u Hall Hu Hk Hm Hf Hn Hd; [lia| |lia|]; cbn [loopM].
  - erewrite bind_Ret; [|by unfold uvmalloc_body; destruct (Z.ltb_spec (4096 * k) newsz); [zlia|]].
    exists newsz, s, l, N, u. split_and!; [done|done|]. left. rw Z.add_0_r. done.
  - assert (4096 * k < newsz) as Hlt by zlia.
    destruct (uvmalloc_page s0 root l0 N0 u0 k0 k s l N u newsz Hall Hu Hk Hlt Hm)
      as (r & s1 & l1 & N1 & u1 & E & Hu1 & [[-> Hall1]|(-> & -> & Hst1 & Hl1)]).
    { intros j Hj. apply Hd. lia. }
    { apply Hd. lia. }
    + rewrite -> (bind_Ret _ _ _ _ _ E).
      destruct (IH fuel (k + 1) s1 l1 N1 u1 Hall1 Hu1) as (r & s2 & l2 & N2 & u2 & E2 & Hu2 & R);
        [lia|done|lia|lia| |].
      { intros j Hj. apply Hd. lia. }
      replace (k + 1 + n) with (k + S n) in R by lia. by exists r, s2, l2, N2, u2.
    + rewrite -> (bind_Ret _ _ _ _ _ E). exists 0, s1, l1, N1, u0.
      split_and!; [done|done|]. right. split_and!; [done|done|done| |].
      * intros x Hx Hx'. rw Hl1 // decide_False //. lia.
      * intros j Hj. rw Hl1; [|vlia]. case_decide; [done|]. by apply Hd.
Qed.

(** *** [uvmcopy]: two address spaces *)

(** An operation on one address space leaves another one alone when they
    share no pages. *)
Lemma other_space s root l N u N1 u1 s' root1 l' N1' u1' :
  uspace s root l N u → ustep s l N1 u1 s' l' N1' u1' → uspace s' root1 l' N1' u1' →
  (∀ b, footprint [] N u b → ¬ footprint l N1 u1 b) →
  uspace s' root l' N u ∧ ∀ b, footprint [] N u b → agree (k_mem s) (k_mem s') b.
Proof.
  intros Hu [Hst Hf Hs _ _] Hu1 Hdis.
  assert (∀ b, footprint [] N u b → agree (k_mem s) (k_mem s') b) as Hag.
  { intros b Hb. apply Hf; [|by apply Hdis].
    destruct Hb as [?%elem_of_nil|[[π Hb]|(k & fl & Hb)]]; [done| |].
    - by apply (rep_page (own_rep (us_own Hu)) Hb).
    - by apply (us_page Hu Hb). }
  assert (∀ b, footprint [] N u b → b ∉ l') as Hnl.
  { intros b Hb Hin. apply (Hdis b Hb), Hs. by left. }
  assert (∀ π p, N !! π = Some p → footprint [] N u p) as HN by (right; left; by eexists).
  assert (∀ k e, u !! k = Some e → footprint [] N u e.1) as HU
    by (intros k e He; right; right; exists k, e.2; by destruct e).
  assert (∀ x, leaf (k_mem s') N x = leaf (k_mem s) N x) as Hl.
  { intros x. unfold leaf, leaf_page. destruct (N !! _) as [p|] eqn:Hp; [|done].
    apply agree_ld64; [by eapply Hag, HN|apply PX_range]. }
  split; [split|done].
  - split; [apply (own_lock (us_own Hu1))|apply (own_free (us_own Hu1))| |].
    + eapply pt_rep_frame; [|apply (own_rep (us_own Hu))]. intros π p Hp _. by eapply Hag, HN.
    + intros π p Hp. by eapply Hnl, HN.
  - intros k e. apply (us_range Hu).
  - intros k e He. rw Hl. by apply (us_leaf Hu).
  - intros k e. apply (us_perm Hu).
  - intros k e He. destruct (us_page Hu He) as (? & _ & ?). split_and!; [done| |done].
    by eapply Hnl, HU.
  - intros k k' e e'. apply (us_inj Hu).
Qed.

(** The page at [j] is a copy of the parent's page in memory [m0]. *)
Definition copied (m0 : bytemem) (uo : umap) (j : Z) (m : bytemem) (e : Z * Z) : Prop :=
  ∃ e0, uo !! j = Some e0 ∧ e.2 = Z.lor e0.2 PTE_V ∧
    ∀ i, 0 ≤ i < 4096 → ldb m (e.1 + i) = ldb m0 (e0.1 + i).
Lemma copied_agree m0 uo j m m' e : agree m m' e.1 → copied m0 uo j m e → copied m0 uo j m' e.
Proof.
  intros Hag (e0 & He0 & Hp & Hc). exists e0. split_and!; [done|done|].
  intros i Hi. rw Hag; [by apply Hc|lia].
Qed.

Section copy.
Context (s0 : kstate) (old new : Z) (l0 : list Z) (No Nn : ptree) (uo un : umap).
Hypothesis Hold : uspace s0 old l0 No uo.
Hypothesis Hdis : ∀ b, footprint [] No uo b → ¬ footprint l0 Nn un b.
Abbreviation filledc := (filled (copied (k_mem s0) uo) s0 l0 Nn un 0).

Lemma uvmcopy_page k s l N u sz e0 :
  filledc k s l N u → uspace s new l N u →
  0 ≤ k → 4096 * k < sz → 4096 * k + 4096 ≤ MAXVA → uo !! k = Some e0 →
  (∀ j, 0 ≤ j ≤ k → un !! j = None) →
  Z.land (leaf (k_mem s0) Nn (4096 * k)) PTE_V = 0 →
  ∃ r s' l' N' u', uvmcopy_body old new sz (4096 * k) s = Ret r s' ∧
    uspace s' new l' N' u' ∧
    (r = inl (4096 * (k + 1)) ∧ filledc (k + 1) s' l' N' u' ∨
     r = inr (-1) ∧ u' = un ∧ ustep s0 l0 Nn un s' l' N' un ∧
       (∀ x, 0 ≤ x < MAXVA → leaf (k_mem s') N' x =
          if decide (0 ≤ x / 4096 < k) then 0 else leaf (k_mem s0) Nn x)).
Proof.
  intros Hall Hu Hk Hsz Hm He0 Hd Hfree.
  assert (∀ j, 0 ≤ j < k → un !! j = None) as Hd' by (intros j Hj; apply Hd; lia).
  destruct (other_space _ _ _ _ _ _ _ _ _ _ _ _ Hold (al_step _ _ _ _ _ _ _ _ _ _ _ Hall) Hu Hdis)
    as [Huo Hago].
  unfold uvmcopy_body. destruct (Z.ltb_spec (4096 * k) sz); [|lia]. cbn [negb].
  destruct (uspace_walk _ _ _ _ _ _ _ Huo He0) as (q & Hq & Hpq & Hw & Hq0 & Hld).
  rewrite -> (bind_Ret _ _ _ _ _ Hw). destruct (Z.eqb_spec (pte_at q (PX 0 (4096 * k))) 0); [done|].
  unfold ld. msimp. rw Hld.
  destruct (Z.eqb_spec (Z.land (pte_of e0.1 e0.2) PTE_V) 0) as [E|_]; [by apply pte_of_valid in E|].
  destruct (us_page Huo He0) as (Hp0 & Hnl0 & _), (us_perm Huo He0) as [Hfl0 HV0].
  pose proof (page_ok_range _ Hp0) as Hr0. destruct (Hp0) as [Hal0 _].
  rw pte_of_perm // pte_of_pa //. cbv zeta.
  pose proof (own_lock (us_own Hu)) as Hlk. pose proof (own_free (us_own Hu)) as Hfr.
  assert (0 ≤ Z.lor e0.2 PTE_V < 1024) as Hfl by by apply pte_of_flags.
  replace (4096 * k / PGSIZE) with (k - 0) by vlia.
  destruct l as [|a l].
  { rewrite -> (bind_Ret _ _ _ _ _ (kalloc_nil s Hlk Hfr)). cbn [Z.eqb].
    destruct (filled_undo _ _ new _ _ _ _ _ _ _ _ _ Hall Hu ltac:(lia) ltac:(lia) Hd')
      as (s' & l' & E & Hu' & Hst' & Hl').
    rewrite -> (bind_Ret _ _ _ _ _ E). exists (inr (-1)), s', l', N, un. naive_solver. }
  rewrite -> (bind_Ret _ _ _ _ _ (kalloc_cons s a l Hlk Hfr)).
  destruct Hfr as [(_ & Ha & _) _]. destruct (Z.eqb_spec a 0); [destruct Ha as (_ & _ & ?); lia|].
  unfold kmemmove. rewrite -> bind_modify. kcbn. destruct (Ha) as [Hala _].
  assert (e0.1 ≠ a) as Hne by (intros <-; apply Hnl0; by left).
  set (m1 := memmove _ a _ PGSIZE).
  assert (∀ x, ldb m1 x = if decide (a ≤ x < a + 4096) then ldb (k_mem s) (e0.1 + (x - a)) else ldb (k_mem s) x) as Hm1.
  { intros x. unfold m1. rw ldb_memmove //. change PGSIZE with 4096. rw !ldb_memset //.
    destruct (decide (a ≤ x < a + 4096)); [|done]. rw decide_False; [done|zlia]. }
  assert (∀ b, b mod 4096 = 0 → b ≠ a → agree (k_mem s) m1 b) as Hag.
  { intros b Hb Hba x Hx. rw Hm1 decide_False //. zlia. }
  assert (copied (k_mem s0) uo k m1 (a, Z.lor e0.2 PTE_V)) as Hc.
  { exists e0. split_and!; [done|done|]. cbn [fst snd]. intros i Hi. rw Hm1 decide_True; [|lia].
    replace (e0.1 + (a + i - a)) with (e0.1 + i) by lia. apply (Hago e0.1); [|lia].
    right; right. exists k, e0.2. by destruct e0. }
  clearbody m1.
  destruct (filled_map _ (copied_agree _ _) s0 new l0 Nn un 0 k s a l N u m1 _ Hall Hu
    ltac:(lia) ltac:(lia) Hd Hfree Hfl)
    as (r & s2 & l2 & N2 & E2 & [(-> & Hu2 & Hall2)|(-> & s3 & E3 & Hu3 & Hall3)]);
    [by rw -Z.lor_assoc Z.lor_diag|done|done| |].
  - rewrite -> (bind_Ret _ _ _ _ _ E2). cbn [Z.eqb negb].
    eexists _, s2, l2, N2, _. split_and!; [|exact Hu2|by left; split; [done|exact Hall2]].
    rw u64_small; [|vlia]. unfold mret, M_ret. do 2 f_equal. vlia.
  - rewrite -> (bind_Ret _ _ _ _ _ E2). cbn [Z.eqb negb]. rewrite -> (bind_Ret _ _ _ _ _ E3).
    destruct (filled_undo _ _ new _ _ _ _ _ _ _ _ _ Hall3 Hu3 ltac:(lia) ltac:(lia) Hd')
      as (s' & l' & E & Hu' & Hst' & Hl').
    rewrite -> (bind_Ret _ _ _ _ _ E). exists (inr (-1)), s', l', N2, un. naive_solver.
Qed.

Lemma uvmcopy_loop sz (n : nat) : ∀ (fuel : nat) k s l N u,
  filledc k s l N u → uspace s new l N u →
  0 ≤ k → sz ≤ MAXVA → (n < fuel)%nat → k + n = Z.max k ((sz + 4095) / 4096) →
  (∀ j, 0 ≤ j < k + n → is_Some (uo !! j) ∧ un !! j = None ∧
     Z.land (leaf (k_mem s0) Nn (4096 * j)) PTE_V = 0) →
  ∃ r s' l' N' u', loopM fuel (uvmcopy_body old new sz) (4096 * k) s = Ret r s' ∧
    uspace s' new l' N' u' ∧
    (r = 0 ∧ filledc (k + n) s' l' N' u' ∨
     r = -1 ∧ u' = un ∧ ustep s0 l0 Nn un s' l' N' un ∧
       (∀ x, 0 ≤ x < MAXVA → leaf (k_mem s') N' x = 0 ∧ x / 4096 < k + n ∨
          leaf (k_mem s') N' x = leaf (k_mem s0) Nn x)).
Proof.
  induction n as [|n IH]; intros [|fuel] k s l N u Hall Hu Hk Hm Hf Hn Hd; [lia| |lia|]; cbn [loopM].
  - erewrite bind_Ret; [|by unfold uvmcopy_body; destruct (Z.ltb_spec (4096 * k) sz); [zlia|]].
    exists 0, s, l, N, u. split_and!; [done|done|]. left. rw Z.add_0_r. done.
  - assert (4096 * k < sz) as Hlt by zlia. destruct (Hd k) as ([e0 He0] & _ & Hfree); [lia|].
    destruct (uvmcopy_page k s l N u sz e0 Hall Hu Hk Hlt ltac:(vlia) He0)
      as (r & s1 & l1 & N1 & u1 & E & Hu1 & [[-> Hall1]|(-> & -> & Hst1 & Hl1)]); [|done| |].
    { intros j Hj. apply Hd. lia. }
    + rewrite -> (bind_Ret _ _ _ _ _ E).
      destruct (IH fuel (k + 1) s1 l1 N1 u1 Hall1 Hu1) as (r & s2 & l2 & N2 & u2 & E2 & Hu2 & R);
        [lia|done|lia|lia| |].
      { intros j Hj. apply Hd. lia. }
      replace (k + 1 + n) with (k + S n) in R by lia. by exists r, s2, l2, N2, u2.
    + rewrite -> (bind_Ret _ _ _ _ _ E). exists (-1), s1, l1, N1, un.
      split_and!; [done|done|]. right. split_and!; [done|done|done|].
      intros x Hx. rw Hl1 //. case_decide; [left; split; [done|lia]|by right].
Qed.

(** The whole call. *)
Lemma uvmcopy_spec sz :
  uspace s0 new l0 Nn un → 0 ≤ sz ≤ MAXVA →
  (∀ j, 0 ≤ j < (sz + 4095) / 4096 →
     is_Some (uo !! j) ∧ un !! j = None ∧ Z.land (leaf (k_mem s0) Nn (4096 * j)) PTE_V = 0) →
  ∃ r s' l' N' u', uvmcopy old new sz s0 = Ret r s' ∧
    uspace s' new l' N' u' ∧ ustep s0 l0 Nn un s' l' N' u' ∧
    uspace s' old l' No uo ∧ (∀ b, footprint [] No uo b → agree (k_mem s0) (k_mem s') b) ∧
    (∀ x, 0 ≤ x < MAXVA → (sz + 4095) / 4096 ≤ x / 4096 →
       leaf (k_mem s') N' x = leaf (k_mem s0) Nn x) ∧
    (r = 0 ∧ (∀ j, ¬ (0 ≤ j < (sz + 4095) / 4096) → u' !! j = un !! j) ∧
       (∀ j, 0 ≤ j < (sz + 4095) / 4096 →
          ∃ e, u' !! j = Some e ∧ copied (k_mem s0) uo j (k_mem s') e) ∨
     r = -1 ∧ u' = un ∧
       (∀ x, 0 ≤ x < MAXVA → leaf (k_mem s') N' x = 0 ∨
          leaf (k_mem s') N' x = leaf (k_mem s0) Nn x)).
Proof.
  intros Hn Hsz Hd. unfold uvmcopy. set (K := (sz + 4095) / 4096) in *.
  assert (0 ≤ K) by (unfold K; zlia).
  destruct (uvmcopy_loop sz (Z.to_nat K) (Z.to_nat (sz / PGSIZE + 2)) 0 s0 l0 Nn un)
    as (r & s' & l' & N' & u' & E & Hu' & R); [apply filled_refl|done|done|lia|unfold K; vlia|lia| |].
  { intros j Hj. apply Hd. lia. }
  replace (0 + Z.to_nat K) with K in R by lia.
  assert (ustep s0 l0 Nn un s' l' N' u') as Hst
    by (destruct R as [[_ R]|(_ & -> & R & _)]; [by destruct R|done]).
  destruct (other_space _ _ _ _ _ _ _ _ _ _ _ _ Hold Hst Hu' Hdis) as [Ho' Hag].
  exists r, s', l', N', u'. split_and!; try done.
  - intros x Hx HK. destruct R as [[_ [_ _ _ Hl]]|(_ & _ & _ & Hl)]; [apply Hl; [done|lia]|].
    destruct (Hl x Hx) as [[_ ?]|?]; [lia|done].
  - destruct R as [[-> [_ Ho Hnew _]]|(-> & -> & _ & Hl)]; [left|right]; split_and!; try done.
    intros x Hx. destruct (Hl x Hx) as [[? _]|?]; auto.
Qed.
End copy.

(** *** User memory, byte by byte *)

Definition ubyte (m : bytemem) (u : umap) (x : Z) : Z :=
  match u !! (x / 4096) with Some e => ldb m (e.1 + x mod 4096) | None => 0 end.

(** The byte [x] is mapped for user code. *)
Definition user_ok (u : umap) (x : Z) : Prop :=
  ∃ e, u !! (x / 4096) = Some e ∧ Z.testbit e.2 4 = true.

Lemma land_PTE_U x : Z.land x PTE_U = 0 ↔ Z.testbit x 4 = false.
Proof.
  split.
  - intros E. apply (f_equal (λ y, Z.testbit y 4)) in E.
    rw Z.land_spec Z.bits_0 /= andb_true_r // in E.
  - intros E. apply Z.bits_inj'. intros i Hi. rw Z.land_spec Z.bits_0.
    unfold PTE_U. rw Z.shiftl_1_l Z.pow2_bits_eqb //.
    destruct (Z.eqb_spec 4 i) as [<-|]; [by rw E|apply andb_false_r].
Qed.

Lemma pte_of_bit4 pa perm : Z.testbit (pte_of pa perm) 4 = Z.testbit perm 4.
Proof.
  unfold pte_of, PA2PTE. rw !Z.lor_spec. unfold u64. change 18446744073709551616 with (2 ^ 64).
  rw Z.mod_pow2_bits_low // Z.shiftl_spec_low // orb_false_r //.
Qed.

(** [walkaddr] on user pages: the page, or 0. *)
Lemma walkaddr_user s root l N u k e :
  uspace s root l N u → u !! k = Some e →
  walkaddr root (4096 * k) s = Ret (if Z.testbit e.2 4 then e.1 else 0) s.
Proof.
  intros Hu He. destruct (us_range Hu He). rewrite -> (walkaddr_spec s root l N); [|apply Hu|lia].
  cbv zeta. rw (us_leaf Hu He). destruct (Z.testbit e.2 4) eqn:Hb.
  - rw decide_True.
    + rw pte_of_pa //; [apply page_ok_range|destruct (us_page Hu He) as ([? _] & _)|];
        [by apply (us_page Hu He)|done|by apply (us_perm Hu He)].
    + split_and!; [lia|apply pte_of_valid|]. rw land_PTE_U pte_of_bit4 Hb. done.
  - rw decide_False //. intros (_ & _ & Hn). apply Hn. by rw land_PTE_U pte_of_bit4.
Qed.

Lemma walkaddr_unmapped s root l N u va :
  uspace s root l N u → 0 ≤ va →
  (va < MAXVA → Z.land (leaf (k_mem s) N va) PTE_V = 0 ∨ Z.land (leaf (k_mem s) N va) PTE_U = 0) →
  walkaddr root va s = Ret 0 s.
Proof.
  intros Hu Hva Hn. rewrite -> (walkaddr_spec s root l N); [|apply Hu|done].
  cbv zeta. rw decide_False //. intros (Hlt & HV & HU). by destruct (Hn Hlt).
Qed.

(** Storing inside a user page. *)
Lemma user_write s root l N u k e o vs :
  uspace s root l N u → u !! k = Some e → 0 ≤ o → o + length vs ≤ 4096 →
  let m' := stn (k_mem s) (e.1 + o) vs in
  uspace (set_k_mem m' s) root l N u ∧
  (∀ b, b mod 4096 = 0 → b ≠ e.1 → agree (k_mem s) m' b) ∧
  (∀ x, ubyte m' u x = if decide (4096 * k + o ≤ x < 4096 * k + o + length vs)
                       then vs !!! Z.to_nat (x - (4096 * k + o)) else ubyte (k_mem s) u x).
Proof.
  intros Hu He Ho Hlen m'. destruct (us_page Hu He) as (Hp & Hnl & HnN). destruct (Hp) as [Hal _].
  assert (∀ b, b mod 4096 = 0 → b ≠ e.1 → agree (k_mem s) m' b) as Hag.
  { intros b Hb Hne. apply (agree_stn _ _ e.1); try done; lia. }
  assert (∀ π p, N !! π = Some p → agree (k_mem s) m' p) as HagN.
  { intros π p Hpp. apply Hag; [by apply (rep_page (own_rep (us_own Hu)) Hpp)|].
    intros ->. by eapply HnN. }
  split_and!; [split| |].
  - pose proof (us_own Hu) as Hown. split; [apply (own_lock Hown)| | |].
    + destruct (own_free Hown) as [Hf Hnd]. split; [|done]. kcbn. apply (flist_write _ _ _ e.1); try done; lia.
    + eapply pt_rep_frame; [|apply (own_rep Hown)]. intros π p Hpp _. by eapply HagN.
    + intros π p. apply (own_disj Hown).
  - intros j e'. apply (us_range Hu).
  - intros j e' He'. rw -(us_leaf Hu He'). unfold leaf, leaf_page. kcbn.
    destruct (N !! _) as [p|] eqn:Hpp; [|done]. apply agree_ld64; [by eapply HagN|apply PX_range].
  - intros j e'. apply (us_perm Hu).
  - intros j e'. apply (us_page Hu).
  - intros j j' e1 e2. apply (us_inj Hu).
  - done.
  - intros x. unfold ubyte. destruct (decide (x / 4096 = k)) as [<-|Hne].
    + rw He. unfold m'. rw ldb_stn.
      destruct (decide (4096 * (x / 4096) + o ≤ x < 4096 * (x / 4096) + o + length vs)).
      * rw decide_True; [|zlia]. f_equal. zlia.
      * rw decide_False; [done|zlia].
    + rw (decide_False (P := _ ≤ x < _)); [|zlia]. destruct (u !! (x / 4096)) as [e'|] eqn:He'; [|done].
      apply (Hag e'.1); [by apply (us_page Hu He')| |zlia].
      intros E. apply Hne. by apply (us_inj Hu He' He).
Qed.

(** The number of iterations over [va .. va + len). *)
Definition npages (va len : Z) : nat :=
  if decide (len = 0) then O else Z.to_nat ((va + len - 1) / 4096 - va / 4096 + 1).

Lemma npages_bound va len : 0 ≤ va → 0 ≤ len → (npages va len < Z.to_nat (len / PGSIZE + 3))%nat.
Proof. intros Hva Hlen. unfold npages. case_decide; vlia. Qed.

(** The first page of a non-empty range: where the loop bodies work. *)
Lemma copy_first s root l N u va len e :
  uspace s root l N u → 0 ≤ va → 0 < len → va + len ≤ MAXVA →
  u !! (va / 4096) = Some e → Z.testbit e.2 4 = true →
  PGROUNDDOWN va = 4096 * (va / 4096) ∧
  walkaddr root (PGROUNDDOWN va) s = Ret e.1 s ∧ e.1 ≠ 0 ∧
  u64 (PGROUNDDOWN va + PGSIZE) = 4096 * (va / 4096 + 1).
Proof.
  intros Hu Hva Hlen Hm He Hb. rw PGROUNDDOWN_spec; [|vlia].
  replace (va - va mod 4096) with (4096 * (va / 4096)) by zlia. split_and!; [done| | |].
  - rewrite -> (walkaddr_user _ _ _ _ _ _ _ Hu He). by rw Hb.
  - destruct (us_page Hu He) as ((_ & _ & ?) & _). lia.
  - rw u64_small; vlia.
Qed.

Lemma copyout_loop root l N u (n : nat) : ∀ (fuel : nat) s va src len,
  npages va len = n → (n < fuel)%nat → uspace s root l N u →
  0 ≤ va → len = length src → va + len ≤ MAXVA →
  (∀ x, va ≤ x < va + len → user_ok u x) →
  ∃ m', loopM fuel (copyout_body root) (va, src, len) s = Ret 0 (set_k_mem m' s) ∧
    uspace (set_k_mem m' s) root l N u ∧
    (∀ b, b mod 4096 = 0 → (∀ k e, u !! k = Some e → e.1 ≠ b) → agree (k_mem s) m' b) ∧
    (∀ x, ubyte m' u x = if decide (va ≤ x < va + len) then src !!! Z.to_nat (x - va)
                         else ubyte (k_mem s) u x).
Proof.
  induction n as [|n IH]; intros [|fuel] s va src len Hn Hf Hu Hva Hlen Hm Hok; [lia| |lia|];
    cbn [loopM]; unfold npages in Hn; case_decide as E0; try lia.
  - exists (k_mem s). replace (set_k_mem (k_mem s) s) with s by (by destruct s).
    rw E0. split_and!; [done|done|done|]. intros x. rw decide_False //. lia.
  - vlia.
  - destruct (Hok va) as (e & He & Hb); [lia|].
    destruct (copy_first s root l N u va len e Hu Hva ltac:(lia) Hm He Hb) as (Er & Ew & Ene & Eu).
    set (d := Z.min (PGSIZE - va mod 4096) len).
    assert (0 < d ≤ len) as Hd by vlia.
    assert (length (take (Z.to_nat d) src) = Z.to_nat d) as Htk by (rw length_take; lia).
    destruct (user_write s root l N u (va / 4096) e (va mod 4096) (take (Z.to_nat d) src) Hu He)
      as (Hu1 & Hag1 & Hub1); [zlia|vlia|].
    set (m1 := stn _ _ _) in *.
    assert (copyout_body root (va, src, len) s =
      Ret (inl (4096 * (va / 4096 + 1), drop (Z.to_nat d) src, len - d)) (set_k_mem m1 s)) as Eb.
    { unfold copyout_body. destruct (Z.eqb_spec len 0); [lia|].
      rewrite -> (bind_Ret _ _ _ _ _ Ew). destruct (Z.eqb_spec e.1 0); [done|].
      unfold kstore. msimp. rw Eu. rw Er.
      replace (va - 4096 * (va / 4096)) with (va mod 4096) by zlia. done. }
    rewrite -> (bind_Ret _ _ _ _ _ Eb).
    destruct (IH fuel (set_k_mem m1 s) (4096 * (va / 4096 + 1)) (drop (Z.to_nat d) src) (len - d))
      as (m' & E & Hu' & Hag' & Hub').
    + unfold npages. case_decide; vlia.
    + lia.
    + done.
    + zlia.
    + rw length_drop. lia.
    + vlia.
    + intros x Hx. apply Hok. vlia.
    + exists m'. split_and!; [by rw E; destruct s|by destruct s| |].
      * intros b Hb' Hnb. eapply agree_trans; [apply Hag1; [done|]|by apply Hag'].
        intros ->. by apply (Hnb _ _ He).
      * intros x. rw Hub'. kcbn. rw Hub1.
        destruct (decide (va ≤ x < va + len)) as [Hx|Hx].
        -- destruct (decide (4096 * (va / 4096 + 1) ≤ x < 4096 * (va / 4096 + 1) + (len - d))).
           ++ rw lookup_total_drop. f_equal. vlia.
           ++ rw decide_True; [|vlia]. rw lookup_total_take_lt; [|vlia]. f_equal. zlia.
        -- rw decide_False; [|vlia]. rw decide_False //. vlia.
Qed.

Lemma copyout_spec s root l N u va src :
  uspace s root l N u → 0 ≤ va → va + length src ≤ MAXVA →
  (∀ x, va ≤ x < va + length src → user_ok u x) →
  ∃ m', copyout root va src (length src) s = Ret 0 (set_k_mem m' s) ∧
    uspace (set_k_mem m' s) root l N u ∧
    (∀ b, b mod 4096 = 0 → (∀ k e, u !! k = Some e → e.1 ≠ b) → agree (k_mem s) m' b) ∧
    (∀ x, ubyte m' u x = if decide (va ≤ x < va + length src) then src !!! Z.to_nat (x - va)
                         else ubyte (k_mem s) u x).
Proof.
  intros Hu Hva Hm Hok. eapply copyout_loop; try done. apply npages_bound; lia.
Qed.

Lemma copyin_loop s root l N u (n : nat) : uspace s root l N u → ∀ (fuel : nat) dst va len,
  npages va len = n → (n < fuel)%nat → 0 ≤ va → 0 ≤ len → va + len ≤ MAXVA →
  (∀ x, va ≤ x < va + len → user_ok u x) →
  loopM fuel (copyin_body root) (dst, va, len) s =
    Ret (0, dst ++ (ubyte (k_mem s) u <$> seqZ va len)) s.
Proof.
  intros Hu. induction n as [|n IH]; intros [|fuel] dst va len Hn Hf Hva Hlen Hm Hok; [lia| |lia|];
    cbn [loopM]; unfold npages in Hn; case_decide as E0; try lia.
  - rw E0 app_nil_r. done.
  - vlia.
  - destruct (Hok va) as (e & He & Hb); [lia|].
    destruct (copy_first s root l N u va len e Hu Hva ltac:(lia) Hm He Hb) as (Er & Ew & Ene & Eu).
    set (d := Z.min (PGSIZE - va mod 4096) len).
    assert (0 < d ≤ len) as Hd by vlia.
    assert (copyin_body root (dst, va, len) s =
      Ret (inl (dst ++ (ubyte (k_mem s) u <$> seqZ va d), 4096 * (va / 4096 + 1), len - d)) s) as Eb.
    { unfold copyin_body. destruct (Z.eqb_spec len 0); [lia|].
      rewrite -> (bind_Ret _ _ _ _ _ Ew). destruct (Z.eqb_spec e.1 0); [done|].
      msimp. rw Eu. rw Er. replace (va - 4096 * (va / 4096)) with (va mod 4096) by zlia.
      fold d. enough (ldn (Z.to_nat d) (k_mem s) (e.1 + va mod 4096) =
        (ubyte (k_mem s) u <$> seqZ va d)) as -> by done. apply list_eq. intros i.
      destruct (decide (i < Z.to_nat d)%nat) as [Hi|Hi].
      - rw lookup_ldn; [|done]. rw list_lookup_fmap (lookup_seqZ_lt va d i); [|lia]. cbn. f_equal. unfold ubyte.
        replace ((va + i) / 4096) with (va / 4096) by vlia. rw He. f_equal. vlia.
      - rw (lookup_ge_None_2 (ldn _ _ _)); [|rw length_ldn; lia]. symmetry.
        apply lookup_ge_None_2. rw length_fmap length_seqZ. lia. }
    rewrite -> (bind_Ret _ _ _ _ _ Eb). rw IH.
    + rw -app_assoc -fmap_app. do 3 f_equal. replace len with (d + (len - d)) at 2 by lia.
      rw seqZ_app; [|lia..]. do 2 f_equal.
      destruct (decide (len - d = 0)) as [->|]; [done|]. f_equal. vlia.
    + unfold npages. case_decide; vlia.
    + lia.
    + zlia.
    + lia.
    + vlia.
    + intros x Hx. apply Hok. vlia.
Qed.

Lemma copyin_spec s root l N u va len :
  uspace s root l N u → 0 ≤ va → 0 ≤ len → va + len ≤ MAXVA →
  (∀ x, va ≤ x < va + len → user_ok u x) →
  copyin root va len s = Ret (0, ubyte (k_mem s) u <$> seqZ va len) s.
Proof.
  intros Hu Hva Hlen Hm Hok. unfold copyin.
  rewrite -> (copyin_loop s root l N u (npages va len) Hu); try done. by apply npages_bound.
Qed.

Lemma ldn_ubyte m u va (d : nat) e :
  u !! (va / 4096) = Some e → va mod 4096 + d ≤ 4096 →
  ldn d m (e.1 + va mod 4096) = (ubyte m u <$> seqZ va d).
Proof.
  intros He Hd. apply list_eq. intros i. destruct (decide (i < d)%nat) as [Hi|Hi].
  - rw lookup_ldn // list_lookup_fmap (lookup_seqZ_lt va d i); [|lia]. cbn. f_equal. unfold ubyte.
    replace ((va + i) / 4096) with (va / 4096) by zlia. rw He. f_equal. zlia.
  - rw (lookup_ge_None_2 (ldn _ _ _)); [|rw length_ldn; lia]. symmetry.
    apply lookup_ge_None_2. rw length_fmap length_seqZ. lia.
Qed.

Lemma copy_until_nul_found m (n d : nat) : ∀ p,
  (n < d)%nat → (∀ i, 0 ≤ i < n → ldb m (p + i) ≠ 0) → ldb m (p + n) = 0 →
  copy_until_nul m p d = (true, ldn n m p ++ [0]).
Proof.
  revert d; induction n as [|n IH]; intros [|d] p Hd Hnz Hz; try lia; cbn [copy_until_nul ldn app].
  - rw Z.add_0_r in Hz. by rw Hz.
  - destruct (Z.eqb_spec (ldb m p) 0) as [E|_].
    { destruct (Hnz 0); [lia|]. by rw Z.add_0_r. }
    rw (IH d (p + 1)); [done|lia| |].
    + intros i Hi. rw -Z.add_assoc. apply Hnz. lia.
    + rw -Hz. f_equal. lia.
Qed.

Lemma copy_until_nul_none m (d : nat) : ∀ p,
  (∀ i, 0 ≤ i < d → ldb m (p + i) ≠ 0) → copy_until_nul m p d = (false, ldn d m p).
Proof.
  induction d as [|d IH]; intros p Hnz; cbn [copy_until_nul ldn]; [done|].
  destruct (Z.eqb_spec (ldb m p) 0) as [E|_].
  { destruct (Hnz 0); [lia|]. by rw Z.add_0_r. }
  rw IH //. intros i Hi. rw -Z.add_assoc. apply Hnz. lia.
Qed.

Lemma ubyte_page m u va i e :
  u !! (va / 4096) = Some e → 0 ≤ i → va mod 4096 + i < 4096 →
  ubyte m u (va + i) = ldb m (e.1 + va mod 4096 + i).
Proof.
  intros He Hi Hd. unfold ubyte. replace ((va + i) / 4096) with (va / 4096) by zlia.
  rw He. f_equal. zlia.
Qed.

(** A string of [n] bytes and its NUL at [va], shorter than [max]. *)
Lemma copyinstr_loop s root l N u (c : nat) : uspace s root l N u → ∀ (fuel : nat) dst va n max,
  npages va (n + 1) = c → (c < fuel)%nat → 0 ≤ va → 0 ≤ n < max → va + n + 1 ≤ MAXVA →
  (∀ x, va ≤ x ≤ va + n → user_ok u x) →
  (∀ x, va ≤ x < va + n → ubyte (k_mem s) u x ≠ 0) → ubyte (k_mem s) u (va + n) = 0 →
  loopM fuel (copyinstr_body root) (false, dst, va, max) s =
    Ret (0, dst ++ (ubyte (k_mem s) u <$> seqZ va n) ++ [0]) s.
Proof.
  intros Hu. induction c as [|c IH]; intros [|fuel] dst va n max Hn Hf Hva Hlen Hm Hok Hnz Hz;
    [lia| |lia|]; unfold npages in Hn; case_decide as E0; try lia; [vlia|]. cbn [loopM].
  destruct (Hok va) as (e & He & Hb); [lia|].
  destruct (copy_first s root l N u va (n + 1) e Hu Hva ltac:(lia) ltac:(lia) He Hb) as (Er & Ew & Ene & Eu).
  set (d := Z.min (PGSIZE - va mod 4096) max). assert (0 < d) as Hd by vlia.
  assert (∀ r, copy_until_nul (k_mem s) (e.1 + va mod 4096) (Z.to_nat d) = r →
    copyinstr_body root (false, dst, va, max) s =
      Ret (inl (r.1, dst ++ r.2, 4096 * (va / 4096 + 1), max - d)) s) as Eb.
  { intros r Hr. unfold copyinstr_body. destruct (Z.eqb_spec max 0); [lia|].
    rewrite -> (bind_Ret _ _ _ _ _ Ew). destruct (Z.eqb_spec e.1 0); [done|].
    msimp. rw Eu Er. replace (va - 4096 * (va / 4096)) with (va mod 4096) by zlia.
    fold d. by rw Hr. }
  destruct (decide (n < d)) as [Hnd|Hnd].
  - erewrite bind_Ret; [|apply Eb, (copy_until_nul_found _ (Z.to_nat n)); [lia| |]].
    2: { intros i Hi. rewrite <- (ubyte_page _ u) by (done || vlia). apply Hnz. lia. }
    2: { rewrite <- (ubyte_page _ u) by (done || vlia). rewrite <- Hz. f_equal. lia. }
    cbn [fst snd]. rw (ldn_ubyte _ u) //; [|vlia]. rw Z2Nat.id; [|lia].
    destruct fuel as [|fuel]; [lia|]. done.
  - erewrite bind_Ret; [|apply Eb, copy_until_nul_none].
    2: { intros i Hi. rewrite <- (ubyte_page _ u) by (done || vlia). apply Hnz. lia. }
    cbn [fst snd]. rw (ldn_ubyte _ u) //; [|vlia]. rw Z2Nat.id; [|lia].
    rw (IH fuel _ (4096 * (va / 4096 + 1)) (n - d) (max - d)).
    + rw -app_assoc. do 3 f_equal. rw (app_assoc (_ <$> seqZ va d)) -fmap_app. do 2 f_equal.
      replace n with (d + (n - d)) at 2 by lia. rw seqZ_app; [|lia..]. do 2 f_equal. vlia.
    + unfold npages. case_decide; vlia.
    + lia.
    + zlia.
    + lia.
    + vlia.
    + intros x Hx. apply Hok. vlia.
    + intros x Hx. apply Hnz. vlia.
    + rw -Hz. f_equal. vlia.
Qed.

Lemma copyinstr_spec s root l N u va n max :
  uspace s root l N u → 0 ≤ va → 0 ≤ n < max → va + n + 1 ≤ MAXVA →
  (∀ x, va ≤ x ≤ va + n → user_ok u x) →
  (∀ x, va ≤ x < va + n → ubyte (k_mem s) u x ≠ 0) → ubyte (k_mem s) u (va + n) = 0 →
  copyinstr root va max s = Ret (0, (ubyte (k_mem s) u <$> seqZ va n) ++ [0]) s.
Proof.
  intros Hu Hva Hn Hm Hok Hnz Hz. unfold copyinstr.
  rewrite -> (copyinstr_loop s root l N u (npages va (n + 1)) Hu _ [] va n); try done.
  unfold npages. case_decide; vlia.
Qed.

Lemma copyinstr_long s root l N u (c : nat) : uspace s root l N u → ∀ (fuel : nat) dst va max,
  npages va max = c → (c < fuel)%nat → 0 ≤ va → 0 ≤ max → va + max ≤ MAXVA →
  (∀ x, va ≤ x < va + max → user_ok u x ∧ ubyte (k_mem s) u x ≠ 0) →
  loopM fuel (copyinstr_body root) (false, dst, va, max) s =
    Ret (-1, dst ++ (ubyte (k_mem s) u <$> seqZ va max)) s.
Proof.
  intros Hu. induction c as [|c IH]; intros [|fuel] dst va max Hn Hf Hva Hlen Hm Hok;
    [lia| |lia|]; unfold npages in Hn; case_decide as E0; try lia; cbn [loopM].
  - rw E0 app_nil_r. done.
  - vlia.
  - destruct (Hok va) as ((e & He & Hb) & _); [lia|].
    destruct (copy_first s root l N u va max e Hu Hva ltac:(lia) Hm He Hb) as (Er & Ew & Ene & Eu).
    set (d := Z.min (PGSIZE - va mod 4096) max). assert (0 < d ≤ max) as Hd by vlia.
    assert (copyinstr_body root (false, dst, va, max) s =
      Ret (inl (false, dst ++ (ubyte (k_mem s) u <$> seqZ va d), 4096 * (va / 4096 + 1), max - d)) s) as Eb.
    { unfold copyinstr_body. destruct (Z.eqb_spec max 0); [lia|].
      rewrite -> (bind_Ret _ _ _ _ _ Ew). destruct (Z.eqb_spec e.1 0); [done|].
      msimp. rw Eu Er. replace (va - 4096 * (va / 4096)) with (va mod 4096) by zlia. fold d.
      rw copy_until_nul_none.
      - cbn [fst snd]. rw (ldn_ubyte _ u) //; [|vlia]. rw Z2Nat.id //. lia.
      - intros i Hi. rewrite <- (ubyte_page _ u) by (done || vlia). apply Hok. lia. }
    rewrite -> (bind_Ret _ _ _ _ _ Eb). rw IH.
    + rw -app_assoc -fmap_app. do 3 f_equal. replace max with (d + (max - d)) at 2 by lia.
      rw seqZ_app; [|lia..]. do 2 f_equal.
      destruct (decide (max - d = 0)) as [->|]; [done|]. f_equal. vlia.
    + unfold npages. case_decide; vlia.
    + lia.
    + zlia.
    + lia.
    + vlia.
    + intros x Hx. apply Hok. vlia.
Qed.

(** *** Copying with any arguments *)

(** Every page the table maps for user code belongs to the address space. *)
Definition user_closed (m : bytemem) (N : ptree) (u : umap) : Prop :=
  ∀ x, 0 ≤ x < MAXVA → Z.land (leaf m N x) PTE_V ≠ 0 → Z.land (leaf m N x) PTE_U ≠ 0 →
    is_Some (u !! (x / 4096)).

Lemma walkaddr_any s root l N u va :
  uspace s root l N u → user_closed (k_mem s) N u → 0 ≤ va → va mod 4096 = 0 →
  ∃ p, walkaddr root va s = Ret p s ∧ (p = 0 ∨ ∃ e, u !! (va / 4096) = Some e ∧
    Z.testbit e.2 4 = true ∧ p = e.1).
Proof.
  intros Hu Hc Hva Hal. rewrite -> (walkaddr_spec s root l N); [|apply Hu|done]. cbv zeta.
  eexists. split; [done|]. destruct (decide _) as [(Hlt & HV & HU)|]; [|by left]. right.
  destruct (Hc va) as [e He]; [done..|]. exists e.
  assert (leaf (k_mem s) N va = pte_of e.1 e.2) as Hl
    by (rw -(us_leaf Hu He); apply leaf_same_page; zlia).
  rw Hl in HU |- *. rw land_PTE_U pte_of_bit4 in HU.
  split_and!; [done|by destruct (Z.testbit e.2 4)|].
  apply pte_of_pa; [apply page_ok_range|..].
  - by apply (us_page Hu He).
  - destruct (us_page Hu He) as ([? _] & _). done.
  - by apply (us_perm Hu He).
Qed.

Lemma copyout_any_loop root l N u (n : nat) : ∀ (fuel : nat) s va src len,
  npages (va mod 4096) len = n → (n < fuel)%nat → uspace s root l N u → user_closed (k_mem s) N u →
  0 ≤ va < 2 ^ 64 → len = length src →
  ∃ r m', loopM fuel (copyout_body root) (va, src, len) s = Ret r (set_k_mem m' s) ∧
    (r = 0 ∨ r = -1) ∧ uspace (set_k_mem m' s) root l N u ∧
    (∀ b, b mod 4096 = 0 → (∀ k e, u !! k = Some e → Z.testbit e.2 4 = true → e.1 ≠ b) →
       agree (k_mem s) m' b).
Proof.
  induction n as [|n IH]; intros [|fuel] s va src len Hn Hf Hu Hc Hva Hlen; [lia| |lia|];
    cbn [loopM]; unfold npages in Hn; case_decide as E0; try lia.
  - exists 0, (k_mem s). replace (set_k_mem (k_mem s) s) with s by (by destruct s).
    rw E0. split_and!; [done|by left|done|done].
  - vlia.
  - assert (PGROUNDDOWN va = 4096 * (va / 4096)) as Er by (rw PGROUNDDOWN_spec; zlia).
    destruct (walkaddr_any s root l N u (PGROUNDDOWN va) Hu Hc) as (p & Ew & Hp); [zlia|zlia|].
    destruct (decide (p = 0)) as [->|Hp0].
    { exists (-1), (k_mem s). replace (set_k_mem (k_mem s) s) with s by (by destruct s).
      rewrite -> (bind_Ret _ _ _ (inr (-1)) s); [split_and!; [done|by right|done|done]|].
      unfold copyout_body. destruct (Z.eqb_spec len 0); [lia|].
      by rewrite -> (bind_Ret _ _ _ _ _ Ew). }
    destruct Hp as [?|(e & He & Hb & ->)]; [done|].
    replace (PGROUNDDOWN va / 4096) with (va / 4096) in He by (rw Er; zlia).
    set (d := Z.min (PGSIZE - va mod 4096) len). assert (0 < d ≤ len) as Hd by vlia.
    assert (length (take (Z.to_nat d) src) = Z.to_nat d) as Htk by (rw length_take; lia).
    destruct (user_write s root l N u (va / 4096) e (va mod 4096) (take (Z.to_nat d) src) Hu He)
      as (Hu1 & Hag1 & _); [zlia|vlia|].
    set (m1 := stn _ _ _) in *.
    assert (copyout_body root (va, src, len) s = Ret (inl (u64 (4096 * (va / 4096) + PGSIZE),
      drop (Z.to_nat d) src, len - d)) (set_k_mem m1 s)) as Eb.
    { unfold copyout_body. destruct (Z.eqb_spec len 0); [lia|].
      rewrite -> (bind_Ret _ _ _ _ _ Ew). destruct (Z.eqb_spec e.1 0); [done|].
      unfold kstore. msimp. rw Er.
      replace (va - 4096 * (va / 4096)) with (va mod 4096) by zlia. done. }
    rewrite -> (bind_Ret _ _ _ _ _ Eb).
    assert (u64 (4096 * (va / 4096) + PGSIZE) mod 4096 = 0) as Hal
      by (unfold u64; vlia).
    destruct (IH fuel (set_k_mem m1 s) (u64 (4096 * (va / 4096) + PGSIZE)) (drop (Z.to_nat d) src)
      (len - d)) as (r & m' & E & Hr & Hu' & Hag').
    + rw Hal. unfold npages. case_decide; vlia.
    + lia.
    + done.
    + intros x Hx. kcbn. enough (leaf m1 N x = leaf (k_mem s) N x) as -> by (intros; by apply Hc).
      unfold leaf, leaf_page. destruct (N !! _) as [p|] eqn:Hp; [|done].
      apply agree_ld64; [|apply PX_range]. apply Hag1; [by apply (rep_page (own_rep (us_own Hu)) Hp)|].
      intros ->. by apply (us_page Hu He) in Hp.
    + apply u64_range.
    + rw length_drop. lia.
    + exists r, m'. split_and!; [by rw E; destruct s|done|by destruct s|].
      intros b Hb' Hnb. eapply agree_trans; [apply Hag1; [done|]|by apply Hag'].
      intros ->. by apply (Hnb _ _ He).
Qed.
End uspace.

#[global] Arguments us_own {_ _ _ _ _ _}.
#[global] Arguments us_range {_ _ _ _ _ _} _ {_ _}.
#[global] Arguments us_leaf {_ _ _ _ _ _} _ {_ _}.
#[global] Arguments us_perm {_ _ _ _ _ _} _ {_ _}.
#[global] Arguments us_page {_ _ _ _ _ _} _ {_ _}.
#[global] Arguments us_inj {_ _ _ _ _ _} _ {_ _ _ _}.
