(* ===== verification/VmCorrect.v ===== *)
(** * Correctness of virtual memory

    The properties of kernel/vm.c, from the specifications of [PageTable]
    and [Uspace], and a small concrete address space for the witnesses. *)

From S2P Require Import Prelude Riscv KState Spinlock KString Kalloc Vm PageTable Uspace.
Open Scope Z_scope.

Section vm_correct.
Context `{Image}.

(** C20. [mappages] and [walkaddr] agree. On a well-formed page table, mapping
    an unmapped range with user permission returns 0 or -1, and -1 only when
    no page is free; the table stays well-formed. After 0 every address of
    the range translates to the corresponding physical page; addresses of
    other pages translate as before, also after -1 where the pages not
    reached are concerned. *)
Theorem mappages_translates s root l N va size pa perm :
  own s root l N → 0 ≤ va → 0 < size → va + size ≤ MAXVA →
  0 ≤ pa → pa mod 4096 = 0 → pa + size + 4096 ≤ 2 ^ 56 →
  0 ≤ perm < 1024 → Z.testbit perm 4 = true →
  (∀ x, va - va mod 4096 ≤ x < MAXVA → x / 4096 ≤ (va + size - 1) / 4096 →
     Z.land (leaf (k_mem s) N x) PTE_V = 0) →
  ∃ r s' l' N', mappages root va size pa perm s = Ret r s' ∧ own s' root l' N' ∧
    (r = 0 ∨ r = -1 ∧ l' = []) ∧
    (r = 0 → ∀ x, va ≤ x < va + size →
       walkaddr root x s' = Ret (pa + (x - (va - va mod 4096)) / 4096 * 4096) s') ∧
    (∀ x, 0 ≤ x < MAXVA → ¬ (va / 4096 ≤ x / 4096 ≤ (va + size - 1) / 4096) →
       ∃ p, walkaddr root x s = Ret p s ∧ walkaddr root x s' = Ret p s').
Proof.
  intros Ho Hva Hsz Hm Hpa Hpal Hpar Hp Hb Hfree.
  destruct (mappages_spec s root l N va size pa perm Ho Hva Hsz Hm Hpa Hpal Hpar Hp Hfree)
    as (r & s' & l' & N' & k & E & Ho' & Hev & Hl & Hr).
  exists r, s', l', N'. split_and!; [done|done|naive_solver| |].
  - intros -> x Hx. destruct Hr as [[_ ->]|(? & _)]; [|done].
    rewrite -> (walkaddr_spec s' root l' N'); [|done|lia]. cbv zeta. rw Hl; [|lia].
    unfold map_range. rw !(decide_True (P := _ ≤ x < _)); [|zlia..].
    assert (0 ≤ (x - (va - va mod 4096)) / 4096 * 4096 < size + 4096) as Hq by zlia.
    revert Hq. generalize ((x - (va - va mod 4096)) / 4096). intros q Hq. rw decide_True.
    + rw pte_of_pa //; [lia|]. rw Z.mod_add //.
    + split_and!; [lia|apply pte_of_valid|]. by rw land_PTE_U pte_of_bit4 Hb.
  - intros x Hx Hn. rewrite -> (walkaddr_spec s root l N) by (done || lia).
    rewrite -> (walkaddr_spec s' root l' N') by (done || lia). cbv zeta. rw Hl //. unfold map_range. rw !(decide_False (P := _ ≤ x < _)); [by eexists|..].
    all: 
    destruct Hr as [[_ ->]|(_ & _ & ?)]; zlia.
Qed.

(** C21. Growing a process is all or nothing. From an address space whose pages
    from [oldsz] (rounded up) to [newsz] are unmapped, [uvmalloc] returns:
    either [newsz], and each of these pages is mapped to a zero-filled page
    of its own with permissions W, X, R and U; or 0 for lack of memory, and
    the address space is what it was. In both cases every other page keeps
    its mapping and its contents, and no page is lost ([ustep]). *)
Theorem uvmalloc_all_or_nothing s root l N u oldsz newsz :
  uspace s root l N u → 0 ≤ oldsz ≤ newsz → newsz ≤ MAXVA →
  let k0 := (oldsz + 4095) / 4096 in let k1 := Z.max k0 ((newsz + 4095) / 4096) in
  (∀ j, k0 ≤ j < k1 → u !! j = None ∧ Z.land (leaf (k_mem s) N (4096 * j)) PTE_V = 0) →
  ∃ r s' l' N' u', uvmalloc root oldsz newsz s = Ret r s' ∧ uspace s' root l' N' u' ∧
    ustep s l N u s' l' N' u' ∧
    (∀ x, 0 ≤ x < MAXVA → ¬ (k0 ≤ x / 4096 < k1) → leaf (k_mem s') N' x = leaf (k_mem s) N x) ∧
    (r = newsz ∧
       (∀ j, ¬ (k0 ≤ j < k1) → u' !! j = u !! j) ∧
       (∀ j, k0 ≤ j < k1 → ∃ e, u' !! j = Some e ∧ e.2 = perm_all ∧ zero_page (k_mem s') e.1) ∨
     r = 0 ∧ u' = u ∧
       (∀ j, k0 ≤ j < k1 → Z.land (leaf (k_mem s') N' (4096 * j)) PTE_V = 0)).
Proof.
  intros Hu Hsz Hm k0 k1 Hd. unfold uvmalloc. destruct (Z.ltb_spec newsz oldsz); [lia|].
  assert (PGROUNDUP oldsz = 4096 * k0) as -> by (rw PGROUNDUP_spec; unfold k0; vlia). cbv zeta.
  destruct (uvmalloc_loop s root l N u k0 newsz (Z.to_nat (k1 - k0))
    (Z.to_nat ((newsz - 4096 * k0) / PGSIZE + 2)) k0 s l N u)
    as (r & s' & l' & N' & u' & E & Hu' & R); try (unfold k1, k0; vlia).
  - apply filled_refl.
  - done.
  - intros j Hj. apply Hd. lia.
  - replace (k0 + Z.to_nat (k1 - k0)) with k1 in R by lia.
    exists r, s', l', N', u'. split; [done|]. split; [done|].
    destruct R as [[-> [Hst Hold Hnew Hl]]|(-> & -> & Hst & Hl & Hl')];
      (split; [done|]; split; [done|]); [left|right]; done.
Qed.


(** C27. What the kernel copies to user memory it reads back. [copyout] to a
    range mapped for user code returns 0; [copyin] from the range then gives
    the bytes that were written, and user bytes outside of it have not
    changed. *)
Theorem copyout_copyin s root l N u va src :
  uspace s root l N u → 0 ≤ va → va + length src ≤ MAXVA →
  (∀ x, va ≤ x < va + length src → user_ok u x) →
  ∃ s', copyout root va src (length src) s = Ret 0 s' ∧ uspace s' root l N u ∧
    copyin root va (length src) s' = Ret (0, src) s' ∧
    (∀ x, ¬ (va ≤ x < va + length src) → ubyte (k_mem s') u x = ubyte (k_mem s) u x).
Proof.
  intros Hu Hva Hm Hok.
  destruct (copyout_spec s root l N u va src Hu Hva Hm Hok) as (m' & E & Hu' & _ & Hub).
  exists (set_k_mem m' s). split_and!; [done|done| |].
  - rewrite -> (copyin_spec _ _ _ _ _ va (length src) Hu') by (done || lia). do 2 f_equal.
    apply list_eq. intros i. destruct (decide (i < length src)%nat) as [Hi|Hi].
    + rw list_lookup_fmap (lookup_seqZ_lt va _ i); [|lia]. cbn. rw Hub decide_True; [|lia].
      rw list_lookup_lookup_total_lt //. do 2 f_equal. lia.
    + rw (lookup_ge_None_2 src); [|lia]. apply lookup_ge_None_2. rw length_fmap length_seqZ. lia.
  - intros x Hx. kcbn. by rw Hub decide_False.
Qed.

(** C4. User pointers cannot reach kernel memory. Whatever address and length
    [copyout] is called with, it returns 0 or -1, the page table and free
    list stay well-formed, and no page changes but those mapped for user
    code in this address space. *)
Theorem copyout_isolated s root l N u va src :
  uspace s root l N u → user_closed (k_mem s) N u → 0 ≤ va < 2 ^ 64 →
  ∃ r s', copyout root va src (length src) s = Ret r s' ∧ (r = 0 ∨ r = -1) ∧
    uspace s' root l N u ∧ s' = set_k_mem (k_mem s') s ∧
    (∀ b, b mod 4096 = 0 → (∀ k e, u !! k = Some e → Z.testbit e.2 4 = true → e.1 ≠ b) →
       agree (k_mem s) (k_mem s') b).
Proof.
  intros Hu Hc Hva.
  destruct (copyout_any_loop root l N u (npages (va mod 4096) (length src))
    (Z.to_nat (length src / PGSIZE + 3)) s va src (length src)) as (r & m' & E & R); try done.
  - unfold npages. case_decide; vlia.
  - exists r, (set_k_mem m' s). naive_solver.
Qed.

(** C28. [copyinstr] copies exactly a C string: when a NUL follows [n < max]
    non-zero user bytes, the result is 0 and the bytes stored are the string
    with its NUL; when there is no NUL among the first [max] bytes it is -1. *)
Theorem copyinstr_correct s root l N u va n max :
  uspace s root l N u → 0 ≤ va → 0 ≤ n ≤ max → va + n ≤ MAXVA →
  (∀ x, va ≤ x < va + n → user_ok u x ∧ ubyte (k_mem s) u x ≠ 0) →
  (n < max → va + n < MAXVA ∧ user_ok u (va + n) ∧ ubyte (k_mem s) u (va + n) = 0) →
  copyinstr root va max s =
    if decide (n < max) then Ret (0, (ubyte (k_mem s) u <$> seqZ va n) ++ [0]) s
    else Ret (-1, ubyte (k_mem s) u <$> seqZ va n) s.
Proof.
  intros Hu Hva Hn Hm Hok Hz. case_decide as Hlt.
  - destruct (Hz Hlt) as (? & ? & ?). apply (copyinstr_spec _ _ l N); try done; try lia.
    + intros x Hx. destruct (decide (x = va + n)) as [->|]; [done|]. apply Hok. lia.
    + intros x Hx. by apply Hok.
  - assert (n = max) as -> by lia. unfold copyinstr.
    rewrite -> (copyinstr_long s root l N u (npages va max) Hu _ [] va max); try done; [|lia].
    apply npages_bound; lia.
Qed.

(** C13. [uvmcopy], the memory part of [fork]. The child's table is disjoint
    from the parent's and maps nothing below [sz]. The call returns 0 or -1;
    after 0 every byte of user memory below [sz] reads the same in the child
    as in the parent, through pages of its own; after -1 the child owns the
    pages it owned before. No page is lost: each one that was free or the
    child's is so afterwards. The parent's memory is unchanged in both
    cases. *)
Theorem uvmcopy_copies s old new l No Nn uo un sz :
  uspace s old l No uo → uspace s new l Nn un →
  (∀ b, footprint [] No uo b → ¬ footprint l Nn un b) → 0 ≤ sz ≤ MAXVA →
  (∀ j, 0 ≤ j < (sz + 4095) / 4096 →
     is_Some (uo !! j) ∧ un !! j = None ∧ Z.land (leaf (k_mem s) Nn (4096 * j)) PTE_V = 0) →
  ∃ r s' l' Nn' un', uvmcopy old new sz s = Ret r s' ∧
    uspace s' old l' No uo ∧ uspace s' new l' Nn' un' ∧
    (∀ b, footprint l Nn un b ↔ footprint l' Nn' un' b) ∧
    (∀ x, ubyte (k_mem s') uo x = ubyte (k_mem s) uo x) ∧
    (r = 0 ∧ (∀ x, 0 ≤ x < sz → ubyte (k_mem s') un' x = ubyte (k_mem s) uo x) ∨
     r = -1 ∧ un' = un).
Proof.
  intros Ho Hn Hdis Hsz Hd.
  destruct (uvmcopy_spec s old new l No Nn uo un Ho Hdis sz Hn Hsz Hd)
    as (r & s' & l' & N' & u' & E & Hu' & Hst & Ho' & Hag & _ & R).
  exists r, s', l', N', u'. split; [done|]. split; [done|]. split; [done|]. split.
  { intros b. split; [apply (st_whole _ _ _ _ _ _ _ _ Hst)|apply (st_shrink _ _ _ _ _ _ _ _ Hst)]. }
  split.
  - intros x. unfold ubyte. destruct (uo !! (x / 4096)) as [e|] eqn:He; [|done].
    apply (Hag e.1); [|zlia]. right; right. exists (x / 4096), e.2. by destruct e.
  - destruct R as [(-> & _ & Hnew)|(-> & -> & _)]; [left|by right]. split; [done|].
    intros x Hx. destruct (Hnew (x / 4096)) as (e & He & e0 & He0 & _ & Hc); [zlia|].
    unfold ubyte. rw He He0. apply Hc. zlia.
Qed.
End vm_correct.

(** ** A small address space

    Page 1 below [PHYSTOP] is the root of a table, pages 2 and 3 its inner
    pages for address 0, which is mapped to page 4; page 5 is free and page 6
    is the root of an empty table. *)
Section small.
#[local] Existing Instance image0.

Definition pg (i : Z) : Z := 2281701376 - 4096 * i.
Definition mem_small : bytemem :=
  st64 (st64 (st64 ∅ (pg 1) (Z.lor (PA2PTE (pg 2)) PTE_V))
             (pg 2) (Z.lor (PA2PTE (pg 3)) PTE_V))
       (pg 3) (pte_of (pg 4) perm_all).
Definition st_small : kstate := set_k_mem mem_small (set_k_freelist (pg 5) kstate0).
Definition table_small : ptree := <[[] := pg 1]> (<[[0] := pg 2]> {[ [0; 0] := pg 3 ]}).
Definition user_small : umap := {[ 0 := (pg 4, perm_all) ]}.

Lemma pg_ok i : 1 ≤ i ≤ 16 → page_ok (pg i).
Proof.
  intros Hi. unfold page_ok, pg. change PHYSTOP with 2281701376.
  change end_ with (2281701376 - 65536). zlia.
Qed.

Lemma mem_small_zero a :
  (a + 8 ≤ pg 1 ∨ pg 1 + 8 ≤ a) → (a + 8 ≤ pg 2 ∨ pg 2 + 8 ≤ a) →
  (a + 8 ≤ pg 3 ∨ pg 3 + 8 ≤ a) → ld64 mem_small a = 0.
Proof. intros H1 H2 H3. unfold mem_small. by rw !ld64_st64_ne. Qed.

Lemma kmem_small : kmem_inv st_small [pg 5].
Proof.
  split; [|apply NoDup_singleton]. cbn. split_and!; [done|by apply pg_ok|].
  apply mem_small_zero; unfold pg; lia.
Qed.

Lemma table_small_inv π p :
  table_small !! π = Some p →
  (π = [] ∧ p = pg 1) ∨ (π = [0] ∧ p = pg 2) ∨ (π = [0; 0] ∧ p = pg 3).
Proof.
  unfold table_small.
  intros [[<- <-]|[_ [[<- <-]|[_ [<- <-]%lookup_singleton_Some]]%lookup_insert_Some]]%lookup_insert_Some;
    naive_solver.
Qed.

Lemma rep_small : pt_rep mem_small (pg 1) table_small.
Proof.
  split.
  - done.
  - intros π p [[_ ->]|[[_ ->]|[_ ->]]]%table_small_inv; by apply pg_ok.
  - by intros π π' p [[-> ->]|[[-> ->]|[-> ->]]]%table_small_inv
      [[-> ?]|[[-> ?]|[-> ?]]]%table_small_inv.
  - intros π i p [[E ->]|[[E ->]|[E ->]]]%table_small_inv.
    + by destruct π.
    + destruct π as [|? [|]]; simplify_eq/=. split; [by eexists|lia].
    + destruct π as [|? [|? [|]]]; simplify_eq/=. split; [by eexists|lia].
  - by intros i π p [[? _]|[[[= -> _] _]|[[= -> _] _]]]%table_small_inv.
  - intros π p i [[-> ->]|[[-> ->]|[-> ->]]]%table_small_inv Hlen Hi; [..|cbn in Hlen; lia];
      cbn [app]; unfold table_small; destruct (decide (i = 0)) as [->|Hne].
    + by vm_compute.
    + rw lookup_insert_ne // lookup_insert_ne; [|congruence]. rw lookup_singleton_ne //.
      rw mem_small_zero; [done|unfold pte_at, pg; lia..].
    + by vm_compute.
    + rw lookup_insert_ne // lookup_insert_ne // lookup_singleton_ne; [|congruence].
      rw mem_small_zero; [done|unfold pte_at, pg; lia..].
Qed.

Lemma own_small : own st_small (pg 1) [pg 5] table_small.
Proof.
  split; [exact can_lock_kstate0|exact kmem_small|exact rep_small|].
  intros π p [[_ ->]|[[_ ->]|[_ ->]]]%table_small_inv; by rw list_elem_of_singleton.
Qed.

Lemma uspace_small : uspace st_small (pg 1) [pg 5] table_small user_small.
Proof.
  unfold user_small. split; [exact own_small|intros k e [<- <-]%lookup_singleton_Some..|].
  - by vm_compute.
  - by vm_compute.
  - by vm_compute.
  - split_and!; [by apply pg_ok|by rw list_elem_of_singleton|].
    by intros π [[_ E]|[[_ E]|[_ E]]]%table_small_inv.
  - by intros k k' e e' [<- <-]%lookup_singleton_Some [<- <-]%lookup_singleton_Some.
Qed.

Lemma user_small_ok x : 0 ≤ x < 4096 → user_ok user_small x.
Proof.
  intros Hx. exists (pg 4, perm_all). unfold user_small. by rw Z.div_small // lookup_singleton_eq.
Qed.

(** The leaf entries outside of page 0 are 0. *)
Lemma leaf_small x : 0 ≤ x < MAXVA → x / 4096 ≠ 0 → leaf mem_small table_small x = 0.
Proof.
  intros Hx Hne. unfold leaf, leaf_page.
  destruct (table_small !! [PX 2 x; PX 1 x]) as [p|] eqn:E; [|done].
  apply table_small_inv in E as [[? _]|[[? _]|[[= E2 E1] ->]]]; [done|done|].
  assert (PX 0 x ≠ 0) as H0.
  { intros E0. apply Hne. rewrite -> (PX_page x 0) by (done || vlia). done. }
  pose proof (PX_range 0 x). apply mem_small_zero; unfold pte_at, pg; lia.
Qed.

Lemma closed_small : user_closed mem_small table_small user_small.
Proof.
  intros x Hx HV _. destruct (decide (x / 4096 = 0)) as [->|Hne]; [by eexists|].
  by rw leaf_small in HV.
Qed.

Definition table_child : ptree := {[ [] := pg 6 ]}.
Lemma rep_child : pt_rep mem_small (pg 6) table_child.
Proof.
  unfold table_child. split.
  - done.
  - intros π p [_ <-]%lookup_singleton_Some. by apply pg_ok.
  - by intros π π' p [<- _]%lookup_singleton_Some [<- _]%lookup_singleton_Some.
  - intros π i p [E _]%lookup_singleton_Some. by destruct π.
  - by intros i π p [? _]%lookup_singleton_Some.
  - intros π p i [<- <-]%lookup_singleton_Some _ Hi. rw lookup_singleton_ne //.
    rw mem_small_zero; [done|unfold pte_at, pg; lia..].
Qed.
Lemma uspace_child : uspace st_small (pg 6) [pg 5] table_child ∅.
Proof.
  split; [|done..]. split; [exact can_lock_kstate0|exact kmem_small|exact rep_child|].
  unfold table_child. intros π p [_ <-]%lookup_singleton_Some. by rw list_elem_of_singleton.
Qed.

Lemma mappages_translates_witness :
  ∃ r s' l' N', mappages (pg 1) 5000 1 (pg 7) PTE_U st_small = Ret r s' ∧
    own s' (pg 1) l' N' ∧ (r = 0 ∨ r = -1 ∧ l' = []).
Proof.
  destruct (mappages_translates st_small (pg 1) [pg 5] table_small 5000 1 (pg 7) PTE_U)
    as (r & s' & l' & N' & E & Ho & Hr & _);
    [exact own_small|lia|lia|vlia|by vm_compute..| |].
  - intros x Hx Hx'. change (k_mem st_small) with mem_small. rw leaf_small; [done|vlia|vlia].
  - exists r, s', l', N'. exact (conj E (conj Ho Hr)).
Defined.

Lemma uvmalloc_all_or_nothing_witness :
  ∃ r s', uvmalloc (pg 1) 4096 5000 st_small = Ret r s' ∧ (r = 5000 ∨ r = 0).
Proof.
  destruct (uvmalloc_all_or_nothing st_small (pg 1) [pg 5] table_small user_small 4096 5000)
    as (r & s' & l' & N' & u' & E & _ & _ & _ & R); [exact uspace_small|done|done| |].
  - intros j Hj. assert (j = 1) as -> by zlia. by vm_compute.
  - exists r, s'. split; [exact E|]. destruct R as [(Hr & _)|(Hr & _)]; [left|right]; exact Hr.
Defined.

Lemma copyout_copyin_witness :
  ∃ s', copyout (pg 1) 4093 [1; 2; 3] 3 st_small = Ret 0 s' ∧
    copyin (pg 1) 4093 3 s' = Ret (0, [1; 2; 3]) s'.
Proof.
  destruct (copyout_copyin st_small (pg 1) [pg 5] table_small user_small 4093 [1; 2; 3])
    as (s' & E & _ & E' & _); [exact uspace_small|done|done| |exists s'; exact (conj E E')].
  intros x Hx. apply user_small_ok. cbn in Hx. lia.
Defined.

Lemma copyout_isolated_witness :
  ∃ r s', copyout (pg 1) (2 ^ 64 - 2) [1; 2; 3] 3 st_small = Ret r s' ∧ (r = 0 ∨ r = -1).
Proof.
  destruct (copyout_isolated st_small (pg 1) [pg 5] table_small user_small (2 ^ 64 - 2) [1; 2; 3])
    as (r & s' & E & Hr & _); [exact uspace_small|exact closed_small|done|exists r, s'; exact (conj E Hr)].
Defined.

Lemma copyinstr_correct_witness :
  copyinstr (pg 1) 100 16 st_small = Ret (0, [0]) st_small.
Proof.
  apply (copyinstr_correct st_small (pg 1) [pg 5] table_small user_small 100 0 16).
  - exact uspace_small.
  - done.
  - done.
  - done.
  - intros x Hx. lia.
  - intros _. split; [done|]. split; [by apply user_small_ok|by vm_compute].
Defined.

Lemma uvmcopy_copies_witness :
  ∃ r s', uvmcopy (pg 1) (pg 6) 100 st_small = Ret r s' ∧ (r = 0 ∨ r = -1).
Proof.
  destruct (uvmcopy_copies st_small (pg 1) (pg 6) [pg 5] table_small table_child user_small ∅ 100)
    as (r & s' & l' & N' & u' & E & _ & _ & _ & _ & R);
    [exact uspace_small|exact uspace_child| |done| |exists r, s'; split; [exact E|];
      destruct R as [(Hr & _)|(Hr & _)]; [left|right]; exact Hr].
  - intros b Hb Hb'.
    assert (b = pg 5 ∨ b = pg 6) as Hc.
    { unfold table_child in Hb'.
      destruct Hb' as [->%list_elem_of_singleton|[[π [_ <-]%lookup_singleton_Some]|(k & fl & Hk)]];
        [by left|by right|done]. }
    destruct Hb as [?%elem_of_nil|[[π Hb]|(k & fl & Hb)]]; [done| |].
    + apply table_small_inv in Hb as [[_ ->]|[[_ ->]|[_ ->]]]; by destruct Hc.
    + unfold user_small in Hb. apply lookup_singleton_Some in Hb as [_ [= <- <-]]. by destruct Hc.
  - intros j Hj. assert (j = 0) as -> by zlia. split; [by eexists|done].
Defined.
End small.
