(* ===== verification/Sched.v ===== *)
(** * Processes: scheduling, sleeping and waking (kernel/proc.c, sleeplock.c)

    The part of proc.c that does not need the file system: the process
    table, [sched] and the scheduler, [sleep] and [wakeup], [kill], address
    spaces of processes, and the sleep-locks built on them. [fork], [exit]
    and [wait] are in [Process].

    [swtch] is the [Switch] of the monad: the code after it runs on the state
    that the other threads leave. The saved registers of a context are the
    continuation, so the [struct context] fields are only what [allocproc]
    stores in them. *)

From S2P Require Import Prelude Riscv KState Spinlock KString Kalloc Vm.
Open Scope Z_scope.

(** ** The process table *)

Definition get_proc (p : nat) : KM proc := s ← gets k_procs; deref (s !! p).
Definition upd_proc (p : nat) (f : proc → proc) : KM unit :=
  modify (λ s, set_k_procs (alter f p (k_procs s)) s).

(** Offsets of the fields of [struct trapframe]. *)
Definition tf_kernel_satp : Z := 0.
Definition tf_kernel_sp : Z := 8.
Definition tf_kernel_trap : Z := 16.
Definition tf_epc : Z := 24.
Definition tf_kernel_hartid : Z := 32.
Definition tf_sp : Z := 48.
Definition tf_a0 : Z := 112.
Definition tf_a1 : Z := 120.
Definition tf_a7 : Z := 168.
Definition tf_size : Z := 288.

Section sched.
Context `{Image}.

Definition procinit : KM unit :=
  kinitlock LPid "nextpid" ;;
  kinitlock LWait "wait_lock" ;;
  eachM (seq 0 NPROC) (λ p,
    kinitlock (LProc p) "proc" ;;
    upd_proc p (set_p_kstack (KSTACK p))).

Definition myproc : KM (option nat) :=
  sy (push_off ;;
      c ← mycpu;
      k ← get_cpu c;
      pop_off ;;
      mret (c_proc k)).
(** [myproc()] where it is dereferenced. *)
Definition curproc : KM nat := p ← myproc; deref p.

Definition allocpid : KM Z :=
  kacquire LPid ;;
  pid ← gets k_nextpid;
  n ← gets k_nextpid;
  modify (set_k_nextpid (i32 (n + 1))) ;;
  krelease LPid ;;
  mret pid.

(** ** Address spaces of processes *)

Definition proc_pagetable (p : nat) : KM Z :=
  pagetable ← uvmcreate;
  if pagetable =? 0 then mret 0 else
  r ← mappages pagetable TRAMPOLINE PGSIZE trampoline (Z.lor PTE_R PTE_X);
  if r <? 0 then uvmfree pagetable 0 ;; mret 0 else
  k ← get_proc p;
  r ← mappages pagetable TRAPFRAME PGSIZE (p_trapframe k) (Z.lor PTE_R PTE_W);
  if r <? 0 then
    uvmunmap pagetable TRAMPOLINE 1 0 ;;
    uvmfree pagetable 0 ;;
    mret 0
  else mret pagetable.

Definition proc_freepagetable (pagetable sz : Z) : KM unit :=
  uvmunmap pagetable TRAMPOLINE 1 0 ;;
  uvmunmap pagetable TRAPFRAME 1 0 ;;
  uvmfree pagetable sz.

Definition freeproc (p : nat) : KM unit :=
  k ← get_proc p;
  whenM (negb (p_trapframe k =? 0)) (kfree (p_trapframe k)) ;;
  upd_proc p (set_p_trapframe 0) ;;
  whenM (negb (p_pagetable k =? 0)) (proc_freepagetable (p_pagetable k) (p_sz k)) ;;
  upd_proc p (set_p_pagetable 0) ;;
  upd_proc p (set_p_sz 0) ;;
  upd_proc p (set_p_pid 0) ;;
  upd_proc p (set_p_parent None) ;;
  upd_proc p (λ k, set_p_name (<[0%nat := 0]> (p_name k)) k) ;;
  upd_proc p (set_p_chan None) ;;
  upd_proc p (set_p_killed 0) ;;
  upd_proc p (set_p_xstate 0) ;;
  upd_proc p (set_p_state UNUSED).

(** The search loop of [allocproc]: it leaves with [p->lock] held. *)
Definition find_unused : KM (option nat) :=
  forM (seq 0 NPROC) (λ p,
    kacquire (LProc p) ;;
    k ← get_proc p;
    if decide (p_state k = UNUSED) then mret (Some p)
    else krelease (LProc p) ;; mret None).

Definition allocproc : KM (option nat) :=
  r ← find_unused;
  match r with
  | None => mret None
  | Some p =>
      pid ← allocpid;
      upd_proc p (set_p_pid pid) ;;
      upd_proc p (set_p_state USED) ;;
      tf ← kalloc;
      upd_proc p (set_p_trapframe tf) ;;
      if tf =? 0 then freeproc p ;; krelease (LProc p) ;; mret None else
      pt ← proc_pagetable p;
      upd_proc p (set_p_pagetable pt) ;;
      if pt =? 0 then freeproc p ;; krelease (LProc p) ;; mret None else
      upd_proc p (set_p_context (Context 0 0 (replicate 12 0))) ;;
      upd_proc p (λ k, set_p_context (set_c_ra forkret_pc (p_context k)) k) ;;
      upd_proc p (λ k, set_p_context (set_c_sp (p_kstack k + PGSIZE) (p_context k)) k) ;;
      mret (Some p)
  end.

(** [uint sz]: the sizes are computed with 32 bits. *)
Definition growproc (n : Z) : KM Z :=
  p ← curproc;
  k ← get_proc p;
  let sz := u32 (p_sz k) in
  r ← (if 0 <? n then
         r ← uvmalloc (p_pagetable k) sz (u32 (sz + n));
         let sz := u32 r in
         mret (if sz =? 0 then None else Some sz)
       else if n <? 0 then
         r ← uvmdealloc (p_pagetable k) sz (u32 (sz + n));
         mret (Some (u32 r))
       else mret (Some sz));
  match r with
  | None => mret (-1)
  | Some sz => upd_proc p (set_p_sz sz) ;; mret 0
  end.

(** ** Switching, sleeping and waking *)

Definition sched : KM unit :=
  p ← curproc;
  h ← sy (holding (LProc p));
  if h =? 0 then panic "sched p->lock" else
  c ← sy mycpu;
  k ← sy (get_cpu c);
  if negb (c_noff k =? 1) then panic "sched locks" else
  q ← get_proc p;
  if decide (p_state q = RUNNING) then panic "sched running" else
  i ← sy intr_get;
  if negb (i =? 0) then panic "sched interruptible" else
  let intena := c_intena k in
  swtch ;;
  c ← sy mycpu;
  sy (upd_cpu c (set_c_intena intena)).

Definition yield : KM unit :=
  p ← curproc;
  kacquire (LProc p) ;;
  upd_proc p (set_p_state RUNNABLE) ;;
  sched ;;
  krelease (LProc p).

Definition sleep (ch : chan) (lk : lockid) : KM unit :=
  p ← curproc;
  kacquire (LProc p) ;;
  krelease lk ;;
  upd_proc p (set_p_chan (Some ch)) ;;
  upd_proc p (set_p_state SLEEPING) ;;
  sched ;;
  upd_proc p (set_p_chan None) ;;
  krelease (LProc p) ;;
  kacquire lk.

Definition wakeup_one (ch : chan) (p : nat) : KM unit :=
  me ← myproc;
  if decide (me = Some p) then mret tt else
  kacquire (LProc p) ;;
  k ← get_proc p;
  whenM (bool_decide (p_state k = SLEEPING ∧ p_chan k = Some ch))
    (upd_proc p (set_p_state RUNNABLE)) ;;
  krelease (LProc p).
Definition wakeup (ch : chan) : KM unit := eachM (seq 0 NPROC) (wakeup_one ch).

Definition kill_one (pid : Z) (p : nat) : KM (option Z) :=
  kacquire (LProc p) ;;
  k ← get_proc p;
  if p_pid k =? pid then
    upd_proc p (set_p_killed 1) ;;
    k ← get_proc p;
    whenM (bool_decide (p_state k = SLEEPING)) (upd_proc p (set_p_state RUNNABLE)) ;;
    krelease (LProc p) ;;
    mret (Some 0)
  else krelease (LProc p) ;; mret None.
Definition kill (pid : Z) : KM Z :=
  r ← forM (seq 0 NPROC) (kill_one pid);
  mret (default (-1) r).

(** One turn of the inner loop of [scheduler], for process [p]. *)
Definition scheduler_one (c p : nat) : KM unit :=
  kacquire (LProc p) ;;
  k ← get_proc p;
  whenM (bool_decide (p_state k = RUNNABLE))
    (upd_proc p (set_p_state RUNNING) ;;
     sy (upd_cpu c (set_c_proc (Some p))) ;;
     swtch ;;
     sy (upd_cpu c (set_c_proc None))) ;;
  krelease (LProc p).
(** [rounds] iterations of the outer loop, which the code repeats for ever. *)
Definition scheduler (rounds : nat) : KM unit :=
  c ← sy mycpu;
  sy (upd_cpu c (set_c_proc None)) ;;
  eachM (seq 0 rounds) (λ _,
    sy intr_on ;;
    eachM (seq 0 NPROC) (scheduler_one c)).

(** ** Copying to and from user or kernel addresses

    A kernel address is one in a page, or that of a variable; a variable
    that is read is given by its contents, one that is written is returned by
    the operation that fills it. *)

Inductive addr : Type :=
| AUser (va : Z)
| APage (pa : Z)
| AVar (contents : list Z).
Definition addr_add (a : addr) (n : Z) : addr :=
  match a with
  | AUser va => AUser (u64 (va + n))
  | APage pa => APage (pa + n)
  | AVar l => AVar (drop (Z.to_nat n) l)
  end.

Definition either_copyout (dst : addr) (src : list Z) (len : Z) : KM Z :=
  p ← myproc;
  match dst with
  | AUser va =>
      p ← deref p;
      k ← get_proc p;
      copyout (p_pagetable k) va src len
  | APage pa => kstore pa (take (Z.to_nat len) src) ;; mret 0
  | AVar _ => mret 0
  end.

Definition either_copyin (src : addr) (len : Z) : KM (Z * list Z) :=
  p ← myproc;
  match src with
  | AUser va =>
      p ← deref p;
      k ← get_proc p;
      copyin (p_pagetable k) va len
  | APage pa =>
      bytes ← gets (λ s, ldn (Z.to_nat len) (k_mem s) pa);
      mret (0, bytes)
  | AVar l => mret (0, take (Z.to_nat len) l)
  end.

(** ** sleeplock.c *)

Definition get_sleep (l : sleepid) : KM sleeplock := m ← gets k_sleeplocks; deref (m !! l).
Definition put_sleep (l : sleepid) (k : sleeplock) : KM unit :=
  modify (λ s, set_k_sleeplocks (<[l := k]> (k_sleeplocks s)) s).

Definition initsleeplock (l : sleepid) (name : string) : KM unit :=
  kinitlock (sl_lk l) "sleep lock" ;;
  put_sleep l (Sleeplock 0 name 0).

Definition acquiresleep (l : sleepid) : KM unit :=
  kacquire (sl_lk l) ;;
  fuel ← gets k_fuel;
  loopM fuel (λ _ : unit,
    k ← get_sleep l;
    if negb (sl_locked k =? 0) then sleep (CSleep l) (sl_lk l) ;; mret (inl tt)
    else mret (inr tt)) tt ;;
  k ← get_sleep l;
  put_sleep l (set_sl_locked 1 k) ;;
  p ← curproc;
  q ← get_proc p;
  k ← get_sleep l;
  put_sleep l (set_sl_pid (p_pid q) k) ;;
  krelease (sl_lk l).

Definition releasesleep (l : sleepid) : KM unit :=
  kacquire (sl_lk l) ;;
  k ← get_sleep l;
  put_sleep l (set_sl_locked 0 k) ;;
  k ← get_sleep l;
  put_sleep l (set_sl_pid 0 k) ;;
  wakeup (CSleep l) ;;
  krelease (sl_lk l).

Definition holdingsleep (l : sleepid) : KM Z :=
  kacquire (sl_lk l) ;;
  k ← get_sleep l;
  r ← (if sl_locked k =? 0 then mret 0 else
       p ← curproc;
       q ← get_proc p;
       mret (b2z (sl_pid k =? p_pid q)));
  krelease (sl_lk l) ;;
  mret r.

(** ** Specifications *)

Lemma get_proc_spec s p k : k_procs s !! p = Some k → get_proc p s = Ret k s.
Proof. intros Hk. unfold get_proc. mrun. by rw Hk. Qed.

(** The hart runs process [p]. *)
Definition running (p : option nat) (y : syncst) : Prop :=
  ∃ c, cpus y !! me y = Some c ∧ c_proc c = p.

Lemma running_acq l p y : running p y → running p (acq l y).
Proof.
  intros (c & Hc & Hp). exists (set_c_noff (c_noff c + 1) c). split; [|done].
  unfold acq, me in *. cbn. by rw list_lookup_alter_eq Hc.
Qed.

Lemma myproc_spec s p :
  cpu_ok (k_sync s) → running p (k_sync s) → myproc s = Ret p s.
Proof.
  intros Hok (c & Hc & <-). unfold myproc, sy.
  erewrite zoom_Ret; [|].
  2: { assert (cpus (pushed (k_sync s)) !! Z.to_nat (i32 (r_tp (hart (pushed (k_sync s))))) =
         Some (set_c_noff (c_noff c + 1) c)) as E.
       { unfold me in Hc. cbn. by rw list_lookup_alter_eq Hc. }
       mstep (push_off_ok _ Hok). unfold mycpu, cpuid, get_cpu. mrun. rw E. mrun.
       by rw (pop_off_pushed _ Hok). }
  by destruct s.
Qed.

Lemma curproc_spec s p :
  cpu_ok (k_sync s) → running (Some p) (k_sync s) → curproc s = Ret p s.
Proof. intros Hok Hr. unfold curproc. by mstep (myproc_spec s _ Hok Hr). Qed.

(** All process locks are free, and the table is complete. *)
Definition procs_free (s : kstate) : Prop :=
  length (k_procs s) = NPROC ∧ ∀ i, (i < NPROC)%nat → lock_free (LProc i) (k_sync s).

(** *** [wakeup] and [kill] *)

(** What [wakeup ch], called by process [m], does to process [i]. *)
Definition wake (ch : chan) (m : option nat) (i : nat) (k : proc) : proc :=
  if decide (m ≠ Some i ∧ p_state k = SLEEPING ∧ p_chan k = Some ch)
  then set_p_state RUNNABLE k else k.

Lemma wakeup_one_spec s ch p m k :
  cpu_ok (k_sync s) → running m (k_sync s) → lock_free (LProc p) (k_sync s) →
  k_procs s !! p = Some k →
  wakeup_one ch p s = Ret tt (set_k_procs (<[p := wake ch m p k]> (k_procs s)) s).
Proof.
  intros Hok Hr Hl Hk. unfold wakeup_one, wake. mstep (myproc_spec s m Hok Hr).
  destruct (decide (m = Some p)) as [->|Hne].
  { rw decide_False; [|naive_solver]. rw list_insert_id; [by destruct s|done]. }
  mstep (kacquire_free _ _ Hok Hl). unfold get_proc, upd_proc. mrun. kcbn. rw Hk. mrun.
  destruct (decide (p_state k = SLEEPING ∧ p_chan k = Some ch)) as [E|E].
  - rw bool_decide_true // decide_True //. mrun. erewrite krelease_acq; [|done|done|done].
    kcbn. rw (list_alter_insert _ _ _ _ Hk). by destruct s.
  - rw bool_decide_false // decide_False; [|naive_solver]. mrun.
    erewrite krelease_acq; [|done|done|done]. kcbn. rw list_insert_id; [by destruct s|done].
Qed.

Lemma wakeup_loop ch m (n : nat) : ∀ a s,
  cpu_ok (k_sync s) → running m (k_sync s) → procs_free s → (a + n ≤ NPROC)%nat →
  ∃ ps, eachM (seq a n) (wakeup_one ch) s = Ret tt (set_k_procs ps s) ∧
    ∀ i, ps !! i = (if decide (a ≤ i < a + n)%nat then wake ch m i else id) <$> k_procs s !! i.
Proof.
  induction n as [|n IH]; intros a s Hok Hr [Hlen Hl] Hn; cbn [seq eachM].
  { exists (k_procs s). split; [by destruct s|]. intros i. rw decide_False; [|lia].
    by destruct (_ !! i). }
  destruct (lookup_lt_is_Some_2 (k_procs s) a) as [k Hk]; [lia|].
  erewrite bind_Ret; [|apply (wakeup_one_spec s ch a m k Hok Hr); [apply Hl; lia|done]].
  destruct (IH (S a) (set_k_procs (<[a := wake ch m a k]> (k_procs s)) s)) as (ps & E & Hps);
    [done|done| |lia|].
  { split; [|done]. cbn. by rw length_insert. }
  exists ps. split; [rw E; by destruct s|]. intros i. rw Hps. cbn.
  destruct (decide (i = a)) as [->|Hne].
  - rw list_lookup_insert_eq; [|by eapply lookup_lt_Some]. rw decide_False; [|lia].
    rw decide_True; [|lia]. by rw Hk.
  - rw list_lookup_insert_ne; [|done]. destruct (decide (a ≤ i < a + S n)%nat).
    + rw decide_True; [done|lia].
    + rw decide_False; [done|lia].
Qed.

Lemma wakeup_spec s ch m :
  cpu_ok (k_sync s) → running m (k_sync s) → procs_free s →
  wakeup ch s = Ret tt (set_k_procs (imap (wake ch m) (k_procs s)) s).
Proof.
  intros Hok Hr Hf. destruct (wakeup_loop ch m NPROC 0 s Hok Hr Hf) as (ps & E & Hps); [lia|].
  unfold wakeup. rw E. do 2 f_equal. apply list_eq. intros i. rw Hps list_lookup_imap.
  destruct Hf as [Hlen _]. destruct (k_procs s !! i) as [k|] eqn:Hk; [|done].
  apply lookup_lt_Some in Hk. by rw decide_True; [|lia].
Qed.

(** What [kill] does to the process it finds. *)
Definition killed (k : proc) : proc :=
  let k := set_p_killed 1 k in
  if decide (p_state k = SLEEPING) then set_p_state RUNNABLE k else k.

Lemma kill_one_spec s pid p k :
  cpu_ok (k_sync s) → lock_free (LProc p) (k_sync s) → k_procs s !! p = Some k →
  kill_one pid p s =
    if p_pid k =? pid then Ret (Some 0) (set_k_procs (<[p := killed k]> (k_procs s)) s)
    else Ret None s.
Proof.
  intros Hok Hl Hk. unfold kill_one. mstep (kacquire_free _ _ Hok Hl).
  unfold get_proc, upd_proc. mrun. kcbn. rw Hk. mrun.
  destruct (p_pid k =? pid).
  - mrun. kcbn. rw list_lookup_alter_eq Hk. cbn [option_fmap option_map fmap]. mrun.
    unfold killed. cbn [p_state set_p_killed].
    destruct (decide (p_state k = SLEEPING)) as [E|E].
    + rw bool_decide_true //. mrun. erewrite krelease_acq; [|done|done|done].
      kcbn. mrun. rw list_alter_alter (list_alter_insert _ _ _ _ Hk). by destruct s.
    + rw bool_decide_false //. mrun. erewrite krelease_acq; [|done|done|done].
      kcbn. mrun. rw (list_alter_insert _ _ _ _ Hk). by destruct s.
  - erewrite krelease_acq; [|done|done|done]. by destruct s.
Qed.

Lemma kill_loop pid (n : nat) : ∀ a s,
  cpu_ok (k_sync s) → procs_free s → (a + n = NPROC)%nat →
  (∃ p k, (a ≤ p)%nat ∧ k_procs s !! p = Some k ∧ p_pid k = pid ∧
     (∀ i k', (a ≤ i < p)%nat → k_procs s !! i = Some k' → p_pid k' ≠ pid) ∧
     forM (seq a n) (kill_one pid) s =
       Ret (Some 0) (set_k_procs (<[p := killed k]> (k_procs s)) s)) ∨
  ((∀ i k', (a ≤ i)%nat → k_procs s !! i = Some k' → p_pid k' ≠ pid) ∧
     forM (seq a n) (kill_one pid) s = Ret None s).
Proof.
  induction n as [|n IH]; intros a s Hok [Hlen Hl] Hn; cbn [seq forM].
  { right. split; [|done]. intros i k' Hi Hk'. apply lookup_lt_Some in Hk'. lia. }
  destruct (lookup_lt_is_Some_2 (k_procs s) a) as [k Hk]; [lia|].
  pose proof (kill_one_spec s pid a k Hok (Hl a ltac:(lia)) Hk) as E.
  destruct (Z.eqb_spec (p_pid k) pid) as [Hp|Hp].
  - left. exists a, k. split_and!; [lia|done|done| |by mstep E]. intros i k' Hi. lia.
  - mstep E. destruct (IH (S a) s Hok (conj Hlen Hl)) as [(p & k2 & Hp2 & Hk2 & Hpid & Hbefore & E2)|[Hnone E2]];
      [lia|left|right].
    + exists p, k2. split_and!; [lia|done|done| |done]. intros i k' Hi Hk'.
      destruct (decide (i = a)) as [->|]; [congruence|]. eapply Hbefore; [|done]. lia.
    + split; [|done]. intros i k' Hi Hk'. destruct (decide (i = a)) as [->|]; [congruence|].
      eapply Hnone; [|done]. lia.
Qed.

(** [kill] on a table whose locks are free always returns: 0 after
    marking the first process with that pid killed, and making it runnable
    if it slept, all other processes unchanged; -1, changing nothing, when
    no process has the pid. *)
Theorem kill_correct s pid :
  cpu_ok (k_sync s) → procs_free s →
  (∃ p k, k_procs s !! p = Some k ∧ p_pid k = pid ∧
     (∀ i k', (i < p)%nat → k_procs s !! i = Some k' → p_pid k' ≠ pid) ∧
     kill pid s = Ret 0 (set_k_procs (<[p := killed k]> (k_procs s)) s)) ∨
  ((∀ i k', k_procs s !! i = Some k' → p_pid k' ≠ pid) ∧ kill pid s = Ret (-1) s).
Proof.
  intros Hok Hf. unfold kill.
  destruct (kill_loop pid NPROC 0 s Hok Hf) as [(p & k & _ & Hk & Hp & Hb & E)|[Hn E]]; [lia|left|right].
  - exists p, k. split_and!; [done|done| |by mstep E]. intros i k' Hi. apply Hb. lia.
  - split; [|by mstep E]. intros i k'. apply Hn. lia.
Qed.

(** *** [sched] and [sleep] *)

(** The hart runs process [p] and is in no critical section. *)
Record at_rest (p : nat) (y : syncst) : Prop := {
  ar_ok : cpu_ok y;
  ar_run : ∃ c, cpus y !! me y = Some c ∧ c_proc c = Some p ∧ c_noff c = 0 ∧
             c_intena c = intr_enabled y;
  ar_free : lock_free (LProc p) y
}.

Lemma at_rest_running p y : at_rest p y → running (Some p) y.
Proof. intros [_ (c & Hc & Hp & _) _]. by exists c. Qed.

Lemma sy_read {A} (m : M syncst A) s a : m (k_sync s) = Ret a (k_sync s) → sy m s = Ret a s.
Proof. intros E. unfold sy. erewrite zoom_Ret; [|done]. by destruct s. Qed.

Lemma sched_switch s p y k :
  at_rest p y → k_sync s = acq (LProc p) y → k_procs s !! p = Some k → p_state k ≠ RUNNING →
  ∃ kont, sched s = Switch s kont ∧
    ∀ s2 y2, at_rest p y2 → k_sync s2 = acq (LProc p) y2 → intr_enabled y2 = intr_enabled y →
      kont s2 = Ret tt s2.
Proof.
  intros Hr Hs Hk Hst. destruct (Hr) as [Hok (c & Hc & Hp & Hn & Hi) (nm & Hl)].
  unfold sched. erewrite bind_Ret.
  2: { apply curproc_spec; rw Hs; [by apply acq_ok|by apply running_acq, at_rest_running]. }
  rewrite -> (bind_Ret _ _ _ 1 s).
  2: { apply sy_read. rw Hs. unfold holding, get_lock, mycpu, cpuid. mrun. cbn.
       rw (alter_alt_Some _ _ _ _ Hl) lookup_insert_eq. cbn. by rw bool_decide_true. }
  cbn [Z.eqb]. rewrite -> (bind_Ret _ _ _ (me y) s) by (apply sy_read; by rw Hs).
  rewrite -> (bind_Ret _ _ _ (set_c_noff (c_noff c + 1) c) s).
  2: { apply sy_read. rw Hs. unfold get_cpu. mrun. cbn. by rw list_lookup_alter_eq Hc. }
  cbn [c_noff set_c_noff]. rw Hn. change (negb (0 + 1 =? 1)) with false. cbv iota.
  mstep (get_proc_spec s p k Hk). rw decide_False //. rewrite -> (bind_Ret _ _ _ 0 s).
  2: { apply sy_read. unfold intr_get. rw Hs. unfold gets. by rw intr_enabled_acq. }
  cbn [Z.eqb negb]. rewrite -> (bind_Switch _ _ _ s (λ s', Ret tt s')) by done.
  eexists. split; [done|]. cbn [obind c_intena set_c_noff].
  intros s2 y2 Hr2 Hs2 Hie. destruct (Hr2) as [Hok2 (c2 & Hc2 & Hp2 & Hn2 & Hi2) _].
  rewrite -> (bind_Ret _ _ _ (me y2) s2) by (apply sy_read; by rw Hs2).
  apply sy_read. unfold upd_cpu, modify. f_equal. rw Hs2. unfold acq, set_cpus. cbn.
  rw (list_alter_same _ _ (set_c_intena _) (set_c_noff (c_noff c2 + 1) c2)).
  - done.
  - by rw list_lookup_alter_eq Hc2.
  - rw Hi -Hie -Hi2. by destruct c2.
Qed.

Lemma sleep_spec s p y k ch lk :
  at_rest p y → lock_free lk y → lk ≠ LProc p →
  k_sync s = acq lk y → k_procs s !! p = Some k →
  ∃ kont, sleep ch lk s =
      Switch (set_k_procs (<[p := set_p_state SLEEPING (set_p_chan (Some ch) k)]> (k_procs s))
                (set_k_sync (acq (LProc p) y) s)) kont ∧
    ∀ s2 y2, at_rest p y2 → lock_free lk y2 → k_sync s2 = acq (LProc p) y2 →
      intr_enabled y2 = intr_enabled y →
      kont s2 = Ret tt (set_k_procs (alter (set_p_chan None) p (k_procs s2))
                          (set_k_sync (acq lk y2) s2)).
Proof.
  intros Hr Hlk Hne Hs Hk. destruct (Hr) as [Hok _ Hfree].
  unfold sleep. erewrite bind_Ret.
  2: { apply curproc_spec; rw Hs; [by apply acq_ok|by apply running_acq, at_rest_running]. }
  erewrite bind_Ret; [|apply kacquire_free; rw Hs; [by apply acq_ok|by apply acq_free_ne]].
  erewrite bind_Ret.
  2: { apply (krelease_acq lk _ (acq (LProc p) y)); [by rw Hs; apply acq_comm|by apply acq_ok|].
       by apply acq_free_ne. }
  unfold upd_proc. msimp. kcbn.
  set (s1 := set_k_procs (alter _ p _) _).
  assert (s1 = set_k_procs (<[p := set_p_state SLEEPING (set_p_chan (Some ch) k)]> (k_procs s))
    (set_k_sync (acq (LProc p) y) s)) as Es1.
  { unfold s1. rw list_alter_alter (list_alter_insert _ _ _ _ Hk). by destruct s. }
  destruct (sched_switch s1 p y (set_p_state SLEEPING (set_p_chan (Some ch) k))) as (kont & E & Hkont).
  - done.
  - by rw Es1.
  - rw Es1. cbn. apply list_lookup_insert_eq. by eapply lookup_lt_Some.
  - done.
  - rewrite -> (bind_Switch _ _ _ _ _ E). eexists. split; [by rw Es1|].
    intros s2 y2 Hr2 Hlk2 Hs2 Hie. cbv beta. rw (Hkont s2 y2) //. cbn [obind].
    destruct (Hr2) as [Hok2 _ Hfree2]. msimp.
    erewrite bind_Ret; [|by apply (krelease_acq (LProc p) _ y2)].
    erewrite kacquire_free; [|done|done]. by destruct s2.
Qed.

(** C31. [sleep] gives up the lock and the hart atomically. Called holding [lk],
    it reaches [swtch] with the process marked SLEEPING on the channel, its
    own lock held and [lk] released, nothing else changed; when the scheduler
    resumes it, on any state, it returns holding [lk] again, its own lock
    released and the channel cleared. *)
Theorem sleep_switches s p y k ch lk :
  at_rest p y → lock_free lk y → lk ≠ LProc p →
  k_sync s = acq lk y → k_procs s !! p = Some k →
  ∃ kont, sleep ch lk s =
      Switch (set_k_procs (<[p := set_p_state SLEEPING (set_p_chan (Some ch) k)]> (k_procs s))
                (set_k_sync (acq (LProc p) y) s)) kont ∧
    ∀ s2 y2, at_rest p y2 → lock_free lk y2 → k_sync s2 = acq (LProc p) y2 →
      intr_enabled y2 = intr_enabled y →
      kont s2 = Ret tt (set_k_procs (alter (set_p_chan None) p (k_procs s2))
                          (set_k_sync (acq lk y2) s2)).
Proof. exact (sleep_spec s p y k ch lk). Qed.

(** *** Sleep-locks without contention *)

Definition sl_held (l : sleepid) (pid : Z) (s : kstate) : Prop :=
  ∃ nm, k_sleeplocks s !! l = Some (Sleeplock 1 nm pid).
Definition sl_free (l : sleepid) (s : kstate) : Prop :=
  ∃ nm pid, k_sleeplocks s !! l = Some (Sleeplock 0 nm pid).

Lemma get_sleep_spec s l k : k_sleeplocks s !! l = Some k → get_sleep l s = Ret k s.
Proof. intros Hk. unfold get_sleep. mrun. by rw Hk. Qed.

Lemma acquiresleep_free s l nm opid p q :
  cpu_ok (k_sync s) → running (Some p) (k_sync s) → lock_free (sl_lk l) (k_sync s) →
  k_procs s !! p = Some q → k_sleeplocks s !! l = Some (Sleeplock 0 nm opid) → k_fuel s ≠ O →
  acquiresleep l s =
    Ret tt (set_k_sleeplocks (<[l := Sleeplock 1 nm (p_pid q)]> (k_sleeplocks s)) s).
Proof.
  intros Hok Hr Hl Hp Hk Hf. unfold acquiresleep.
  mstep (kacquire_free _ _ Hok Hl). msimp. kcbn.
  destruct (k_fuel s) as [|fuel]; [done|].
  erewrite bind_Ret.
  2: { cbn [loopM]. erewrite bind_assoc; [|by apply get_sleep_spec]. cbn. done. }
  erewrite bind_Ret; [|by apply get_sleep_spec]. unfold put_sleep. msimp. kcbn.
  erewrite bind_Ret; [|by apply curproc_spec; [apply acq_ok|apply running_acq]].
  erewrite bind_Ret; [|by apply get_proc_spec].
  erewrite bind_Ret; [|apply get_sleep_spec; kcbn; by rw lookup_insert_eq]. msimp. kcbn.
  erewrite krelease_acq; [|done|done|done]. kcbn. rw insert_insert_eq. by destruct s.
Qed.

Lemma releasesleep_spec s l k m :
  cpu_ok (k_sync s) → running m (k_sync s) → lock_free (sl_lk l) (k_sync s) → procs_free s →
  k_sleeplocks s !! l = Some k →
  releasesleep l s =
    Ret tt (set_k_procs (imap (wake (CSleep l) m) (k_procs s))
              (set_k_sleeplocks (<[l := Sleeplock 0 (sl_name k) 0]> (k_sleeplocks s)) s)).
Proof.
  intros Hok Hr Hl Hpf Hk. unfold releasesleep.
  mstep (kacquire_free _ _ Hok Hl).
  erewrite bind_Ret; [|by apply get_sleep_spec]. unfold put_sleep. msimp. kcbn.
  erewrite bind_Ret; [|apply get_sleep_spec; kcbn; by rw lookup_insert_eq]. msimp. kcbn.
  erewrite bind_Ret.
  2: { apply (wakeup_spec _ _ m); [by apply acq_ok|by apply running_acq|].
       destruct Hpf as [Hlen Hfree]. split; [done|]. intros i Hi. kcbn.
       apply acq_free_ne; [by destruct l|by apply Hfree]. }
  erewrite krelease_acq; [|done|done|done]. kcbn. rw insert_insert_eq. by destruct s.
Qed.

Lemma holdingsleep_spec s l k p q :
  cpu_ok (k_sync s) → running (Some p) (k_sync s) → lock_free (sl_lk l) (k_sync s) →
  k_procs s !! p = Some q → k_sleeplocks s !! l = Some k →
  holdingsleep l s = Ret (b2z (negb (sl_locked k =? 0) && (sl_pid k =? p_pid q))) s.
Proof.
  intros Hok Hr Hl Hp Hk. unfold holdingsleep.
  mstep (kacquire_free _ _ Hok Hl).
  erewrite bind_Ret; [|by apply get_sleep_spec].
  rewrite -> (bind_Ret _ _ _ (b2z (negb (sl_locked k =? 0) && (sl_pid k =? p_pid q)))
    (set_k_sync (acq (sl_lk l) (k_sync s)) s)).
  - erewrite bind_Ret; [|by eapply krelease_acq]. by destruct s.
  - destruct (sl_locked k =? 0); [done|].
    erewrite bind_Ret; [|by apply curproc_spec; [apply acq_ok|apply running_acq]].
    erewrite bind_Ret; [|by apply get_proc_spec]. done.
Qed.
End sched.

(** ** A machine that runs process 0, for the witnesses *)

Definition all_locks : list lockid :=
  [LKmem; LBcache; LLog; LItable; LFtable; LPid; LWait; LTicks; LCons; LUart; LPr; LVdisk] ++
  (LProc <$> seq 0 NPROC) ++ (LBuf <$> seq 0 NBUF) ++ (LInode <$> seq 0 NINODE).
Definition context0 : context := Context 0 0 (replicate 12 0).
Definition sync1 : syncst :=
  Sync regs0 [Cpu (Some O) context0 0 1]
    (list_to_map ((λ l, (l, Spinlock 0 "lock" None)) <$> all_locks)).
Definition proc1 (i : nat) : proc :=
  Proc (if decide (i = O) then RUNNING else UNUSED) None 0 0 (if decide (i = O) then 1 else 0)
    None (KSTACK i) 0 0 0 context0 (replicate NOFILE None) None (replicate 16 0).
Definition kst1 : kstate :=
  set_k_procs (proc1 <$> seq 0 NPROC)
    (set_k_sleeplocks
       (list_to_map ((λ l, (l, Sleeplock 0 "lock" 0)) <$>
          (SBuf <$> seq 0 NBUF) ++ (SInode <$> seq 0 NINODE)))
       (set_k_sync sync1 kstate0)).

Lemma list_to_map_const {K A} `{Countable K} (L : list K) (x : A) l :
  l ∈ L → (list_to_map ((λ l, (l, x)) <$> L) : gmap K A) !! l = Some x.
Proof.
  induction L as [|a L IH]; [by intros ?%elem_of_nil|]. intros Hl. cbn.
  destruct (decide (a = l)) as [->|Hne]; [apply lookup_insert_eq|].
  rw lookup_insert_ne //. apply IH. by apply elem_of_cons in Hl as [->|?].
Qed.

Lemma sync1_free l : l ∈ all_locks → lock_free l sync1.
Proof. intros Hl. exists "lock"%string. by apply list_to_map_const. Qed.
Lemma cpu_ok_sync1 : cpu_ok sync1.
Proof. exists (Cpu (Some O) context0 0 1). split_and!; done. Qed.
Lemma at_rest_sync1 : at_rest 0 sync1.
Proof.
  split; [exact cpu_ok_sync1|by eexists|]. apply sync1_free. unfold all_locks. set_solver.
Qed.
Lemma procs_free_kst1 : procs_free kst1.
Proof.
  split; [done|]. intros i Hi. apply sync1_free. unfold all_locks. rw !elem_of_app.
  right; left. apply list_elem_of_fmap. exists i. split; [done|]. apply elem_of_seq. lia.
Qed.

Lemma kill_correct_witness :
  kill 1 kst1 = Ret 0 (set_k_procs (<[0%nat := killed (proc1 0)]> (k_procs kst1)) kst1).
Proof.
  destruct (kill_correct kst1 1) as [(p & k & Hk & Hp & Hb & E)|[Hn _]].
  - exact cpu_ok_sync1.
  - exact procs_free_kst1.
  - destruct p as [|p]; [cbn in Hk; injection Hk as <-; exact E|].
    exfalso. exact (Hb O (proc1 0) (Nat.lt_0_succ p) eq_refl eq_refl).
  - exfalso. exact (Hn O (proc1 0) eq_refl eq_refl).
Defined.

Lemma sleep_switches_witness :
  ∃ s1 kont, sleep CTicks LTicks (set_k_sync (acq LTicks sync1) kst1) = Switch s1 kont ∧
    k_sync s1 = acq (LProc 0) sync1.
Proof.
  destruct (sleep_switches (set_k_sync (acq LTicks sync1) kst1) 0 sync1 (proc1 0) CTicks LTicks)
    as (kont & E & _).
  - exact at_rest_sync1.
  - apply sync1_free. unfold all_locks. set_solver.
  - done.
  - reflexivity.
  - reflexivity.
  - eexists _, kont. split; [exact E|reflexivity].
Defined.
