(* ===== verification/SleepWake.v ===== *)
(** * Sleep and wakeup interleaved (kernel/proc.c)

    One process that waits for a condition under a lock, [while(!cond)
    sleep(chan, &lk);], and any number of others that make it true and call
    [wakeup(chan)] under the same lock, as in pipe.c, log.c or sleeplock.c.
    The steps of [sleep], of the scheduler that runs the process again and
    of [wakeup] are the single accesses to the locks and to the process's
    [state] and [chan]; they interleave freely. *)

From S2P Require Import Prelude KState.

Module SleepWake.

(** Where the sleeping process is, or the scheduler on its behalf. *)
Inductive spc : Type :=
| SAcq        (** about to [acquire(&lk)], in the caller or at the end of [sleep] *)
| STest       (** holds [lk]: about to test the condition *)
| SUse        (** the condition was true: about to use it up and release [lk] *)
| SPAcq       (** [sleep]: about to [acquire(&p->lock)] *)
| SRel        (** about to [release(lk)] *)
| SChan       (** about to set [p->chan] *)
| SState      (** about to set [p->state = SLEEPING] *)
| SSwtch      (** in [sched]: about to reach the scheduler, which releases [p->lock] *)
| SAsleep     (** switched out; a scheduler may [acquire(&p->lock)] *)
| SPoll       (** a scheduler holds [p->lock]: about to test for RUNNABLE *)
| STidy       (** running again: about to clear [p->chan] *)
| SRelP.      (** about to [release(&p->lock)] *)

(** Where a waking process is. *)
Inductive wpc : Type :=
| WIdle       (** about to [acquire(&lk)] *)
| WSet        (** about to make the condition true *)
| WPAcq       (** [wakeup]: about to [acquire(&p->lock)] *)
| WTest       (** about to test [p->state] and [p->chan] *)
| WPRel       (** about to [release(&p->lock)] *)
| WRel.       (** about to [release(&lk)] *)

Inductive owner : Type := OSleeper | OWaker (i : nat).

Record state : Type := State {
  lk : option owner;
  plk : option owner;
  cond : bool;
  pstate : procstate;
  chan_set : bool;
  sp : spc;
  wp : nat → wpc
}.

Definition set_wp (f : nat → wpc) (i : nat) (p : wpc) (j : nat) : wpc :=
  if decide (i = j) then p else f j.

(** A step of the sleeping side. A blocked [acquire] leaves the state as it is. *)
Definition sleeper (s : state) : state :=
  let '(State lk plk cond st ch pc wp) := s in
  match pc with
  | SAcq =>
      match lk with None => State (Some OSleeper) plk cond st ch STest wp | Some _ => s end
  | STest => State lk plk cond st ch (if cond then SUse else SPAcq) wp
  | SUse => State None plk false st ch SAcq wp
  | SPAcq =>
      match plk with None => State lk (Some OSleeper) cond st ch SRel wp | Some _ => s end
  | SRel => State None plk cond st ch SChan wp
  | SChan => State lk plk cond st true SState wp
  | SState => State lk plk cond SLEEPING ch SSwtch wp
  | SSwtch => State lk None cond st ch SAsleep wp
  | SAsleep =>
      match plk with None => State lk (Some OSleeper) cond st ch SPoll wp | Some _ => s end
  | SPoll =>
      if decide (st = RUNNABLE) then State lk plk cond RUNNING ch STidy wp
      else State lk None cond st ch SAsleep wp
  | STidy => State lk plk cond st false SRelP wp
  | SRelP => State lk None cond st ch SAcq wp
  end.

(** A step of waker [i]. *)
Definition waker (i : nat) (s : state) : state :=
  let '(State lk plk cond st ch pc wp) := s in
  match wp i with
  | WIdle =>
      match lk with
      | None => State (Some (OWaker i)) plk cond st ch pc (set_wp wp i WSet)
      | Some _ => s
      end
  | WSet => State lk plk true st ch pc (set_wp wp i WPAcq)
  | WPAcq =>
      match plk with
      | None => State lk (Some (OWaker i)) cond st ch pc (set_wp wp i WTest)
      | Some _ => s
      end
  | WTest =>
      State lk plk cond (if decide (st = SLEEPING ∧ ch = true) then RUNNABLE else st) ch pc
        (set_wp wp i WPRel)
  | WPRel => State lk None cond st ch pc (set_wp wp i WRel)
  | WRel => State None plk cond st ch pc (set_wp wp i WIdle)
  end.

Inductive step (s : state) : state → Prop :=
| step_sleeper : step s (sleeper s)
| step_waker i : step s (waker i s).

(** The condition is false at first and nobody holds a lock. *)
Definition init : state := State None None false RUNNING false SAcq (λ _, WIdle).

(** ** The invariant *)

Definition s_lk (p : spc) : bool :=
  match p with STest | SUse | SPAcq | SRel => true | _ => false end.
Definition s_plk (p : spc) : bool :=
  match p with SRel | SChan | SState | SSwtch | SPoll | STidy | SRelP => true | _ => false end.
Definition w_lk (p : wpc) : bool := match p with WIdle => false | _ => true end.
Definition w_plk (p : wpc) : bool := match p with WTest | WPRel => true | _ => false end.
(** A wakeup is under way: the condition is set, the state not yet tested. *)
Definition pending (p : wpc) : bool := match p with WPAcq | WTest => true | _ => false end.

(** [p->state] and [p->chan] at each point. *)
Definition state_ok (p : spc) (st : procstate) (ch : bool) : Prop :=
  match p with
  | SSwtch => st = SLEEPING ∧ ch = true
  | SAsleep | SPoll => (st = SLEEPING ∨ st = RUNNABLE) ∧ ch = true
  | SState | STidy => st = RUNNING ∧ ch = true
  | _ => st = RUNNING
  end.
(** The process has found the condition false and is not yet woken. *)
Definition waiting (p : spc) (st : procstate) : bool :=
  match p with
  | SPAcq | SRel | SChan | SState | SSwtch => true
  | SAsleep | SPoll => bool_decide (st = SLEEPING)
  | _ => false
  end.

Record inv (s : state) : Prop := {
  inv_lk_s : lk s = Some OSleeper ↔ s_lk (sp s) = true;
  inv_lk_w i : lk s = Some (OWaker i) ↔ w_lk (wp s i) = true;
  inv_plk_s : plk s = Some OSleeper ↔ s_plk (sp s) = true;
  inv_plk_w i : plk s = Some (OWaker i) ↔ w_plk (wp s i) = true;
  inv_state : state_ok (sp s) (pstate s) (chan_set s);
  inv_wait : waiting (sp s) (pstate s) = true → cond s = true → ∃ i, pending (wp s i) = true
}.

Lemma inv_init : inv init.
Proof. by split. Qed.

Lemma set_wp_eq f i p : set_wp f i p i = p.
Proof. unfold set_wp. by rewrite -> decide_True. Qed.
Lemma set_wp_ne f i j p : i ≠ j → set_wp f i p j = f j.
Proof. intros Hne. unfold set_wp. by rewrite -> decide_False. Qed.

(** While the sleeper holds [lk] no waker is under way. *)
Lemma no_pending s i : inv s → s_lk (sp s) = true → pending (wp s i) = false.
Proof.
  intros [Hls Hlw _ _ _ _] Hs. apply Hls in Hs. specialize (Hlw i). rewrite -> Hs in Hlw.
  destruct (wp s i); cbn in *; try done; by specialize (proj2 Hlw eq_refl).
Qed.

Lemma inv_sleeper s : inv s → inv (sleeper s).
Proof.
  intros Hinv. pose proof (no_pending s) as Hnp. destruct (Hinv) as [Hls Hlw Hps Hpw Hst Hwt].
  destruct s as [l p c st ch pc w]; cbn in *.
  destruct pc; cbn in *; try (destruct l; [done|]); try (destruct p; [done|]).
  all: repeat case_decide; try (destruct c); subst; cbn in *.
  all: split; cbn; try done; try tauto.
  all: try (intros i; specialize (Hlw i); specialize (Hpw i); intuition congruence).
  all: try (intuition congruence).
  all: by intros E%bool_decide_eq_true.
Qed.

(** The program counters of the wakers after waker [i] moved to [p]. *)
Ltac wp_cases i j :=
  intros j; destruct (decide (i = j)) as [<-|];
  [rewrite -> set_wp_eq|rewrite -> set_wp_ne by done].

Lemma inv_waker i s : inv s → inv (waker i s).
Proof.
  intros [Hls Hlw Hps Hpw Hst Hwt]. destruct s as [l p c st ch pc w]; cbn in *.
  pose proof (Hlw i) as Hlwi. pose proof (Hpw i) as Hpwi.
  destruct (w i) eqn:Ew; cbn in *.
  - destruct l as [o|]; [by split|]. split; cbn; try done.
    + split; [done|]. intros E. by apply Hls in E.
    + wp_cases i j; [done|]. specialize (Hlw j). naive_solver.
    + wp_cases i j; [done|apply Hpw].
    + intros Hw Hc. destruct (Hwt Hw Hc) as [j Hj]. exists j.
      rewrite -> set_wp_ne; [done|]. by intros ->; rewrite -> Ew in Hj.
  - split; cbn; try done.
    + wp_cases i j; [done|apply Hlw].
    + wp_cases i j; [done|apply Hpw].
    + intros _ _. exists i. by rewrite -> set_wp_eq.
  - destruct p as [o|]; [by split|]. split; cbn; try done.
    + wp_cases i j; [done|apply Hlw].
    + split; [done|]. intros E. by apply Hps in E.
    + wp_cases i j; [done|]. specialize (Hpw j). naive_solver.
    + intros Hw Hc. destruct (Hwt Hw Hc) as [j Hj]. destruct (decide (i = j)) as [<-|].
      * exists i. by rewrite -> set_wp_eq.
      * exists j. by rewrite -> set_wp_ne.
  - assert (l = Some (OWaker i)) as -> by by apply Hlwi.
    assert (p = Some (OWaker i)) as -> by by apply Hpwi.
    assert (s_lk pc = false) as Hpl by (destruct (s_lk pc); [by specialize (proj2 Hls eq_refl)|done]).
    assert (s_plk pc = false) as Hpp by (destruct (s_plk pc); [by specialize (proj2 Hps eq_refl)|done]).
    split; cbn; try done.
    + wp_cases i j; [done|apply Hlw].
    + wp_cases i j; [done|apply Hpw].
    + destruct pc; cbn in *; try done; try (by case_decide; naive_solver).
    + destruct pc; cbn in *; try done.
      destruct (decide (st = SLEEPING ∧ ch = true)) as [E|E]; [done|].
      intros Hw%bool_decide_eq_true. naive_solver.
  - assert (p = Some (OWaker i)) as -> by by apply Hpwi.
    split; cbn; try done.
    + wp_cases i j; [done|apply Hlw].
    + split; [done|]. intros E. by apply Hps in E.
    + wp_cases i j; [done|]. specialize (Hpw j). naive_solver.
    + intros Hw Hc. destruct (Hwt Hw Hc) as [j Hj]. exists j.
      rewrite -> set_wp_ne; [done|]. by intros ->; rewrite -> Ew in Hj.
  - assert (l = Some (OWaker i)) as -> by by apply Hlwi.
    split; cbn; try done.
    + split; [done|]. intros E. by apply Hls in E.
    + wp_cases i j; [done|]. specialize (Hlw j). naive_solver.
    + wp_cases i j; [done|apply Hpw].
    + intros Hw Hc. destruct (Hwt Hw Hc) as [j Hj]. exists j.
      rewrite -> set_wp_ne; [done|]. by intros ->; rewrite -> Ew in Hj.
Qed.

Lemma sw_inv_reachable s : rtc step init s → inv s.
Proof.
  intros Hr. remember init as s0 eqn:E. assert (inv s0) as Hi by (subst; apply inv_init).
  clear E. induction Hr as [s|s s1 s2 Hst Hr IH]; [done|]. apply IH.
  destruct Hst; [by apply inv_sleeper|by apply inv_waker].
Qed.

(** [n] steps of the sleeping side. *)
Fixpoint run (n : nat) (s : state) : state :=
  match n with O => s | S n => run n (sleeper s) end.

(** C2. No wakeup is lost. In every reachable state of one sleeper and any
    number of wakers: when the condition is true and no waker is under way,
    the process is not asleep, and within ten steps of its own it holds the
    lock and sees the condition. *)
Theorem no_lost_wakeup s :
  rtc step init s → cond s = true → (∀ i, wp s i = WIdle) →
  waiting (sp s) (pstate s) = false ∧ ∃ n, (n ≤ 10)%nat ∧ sp (run n s) = SUse.
Proof.
  intros [Hls Hlw Hps Hpw Hst Hwt]%sw_inv_reachable Hc Hi.
  assert (waiting (sp s) (pstate s) = false) as Hw.
  { destruct (waiting (sp s) (pstate s)); [|done].
    destruct (Hwt eq_refl Hc) as [i Hp]. by rewrite -> Hi in Hp. }
  split; [done|].
  assert (lk s = None ∨ lk s = Some OSleeper) as Hl.
  { destruct (lk s) as [[|i]|] eqn:E; [by right| |by left].
    specialize (proj1 (Hlw i) eq_refl). by rewrite -> Hi. }
  assert (plk s = None ∨ plk s = Some OSleeper) as Hp.
  { destruct (plk s) as [[|i]|] eqn:E; [by right| |by left].
    specialize (proj1 (Hpw i) eq_refl). by rewrite -> Hi. }
  destruct s as [l p c st ch pc w]; cbn in *; subst c.
  assert (s_lk pc = false → l = None) as Hl0
    by (destruct Hl as [->| ->]; [done|]; by rewrite -> (proj1 Hls eq_refl)).
  assert (s_plk pc = false → p = None) as Hp0
    by (destruct Hp as [->| ->]; [done|]; by rewrite -> (proj1 Hps eq_refl)).
  destruct pc; cbn in *; try done; try (rewrite -> Hl0 by done); try (rewrite -> Hp0 by done).
  - by exists 2%nat; split; [lia|].
  - by exists 1%nat; split; [lia|].
  - by exists 0%nat; split; [lia|].
  - destruct Hst as [[->| ->] _]; [done|]. by exists 6%nat; split; [lia|].
  - destruct Hst as [[->| ->] _]; [done|]. by exists 5%nat; split; [lia|].
  - by exists 4%nat; split; [lia|].
  - by exists 3%nat; split; [lia|].
Qed.

(** The process goes to sleep on its own, then waker 0 runs through. *)
Definition sleep_then_wake : state :=
  waker 0 (waker 0 (waker 0 (waker 0 (waker 0 (waker 0 (run 7 init)))))).

Lemma no_lost_wakeup_witness :
  sp sleep_then_wake = SAsleep ∧ waiting (sp sleep_then_wake) (pstate sleep_then_wake) = false.
Proof.
  split; [reflexivity|]. apply (no_lost_wakeup sleep_then_wake).
  - do 7 (eapply rtc_l; [apply step_sleeper|]). do 6 (eapply rtc_l; [apply (step_waker _ 0)|]).
    apply rtc_refl.
  - reflexivity.
  - intros [|i]; reflexivity.
Defined.
End SleepWake.
