(* ===== verification/Layout.v ===== *)
(** * The on-disk format (kernel/fs.h)

    Blocks are lists of [BSIZE] bytes. C code reads and writes the
    structures of fs.h in them through casts; here [bslice] and [bsplice] are
    the access to a run of bytes, [rd16], [rd32], [wr32] the accesses to one
    integer, and [enc_dinode], [dec_dinode] and the like the layout of the
    structures, with their round trips. *)

From S2P Require Import Prelude Riscv KState.
Open Scope Z_scope.

(** ** Runs of bytes *)

Definition bslice (d : list Z) (off n : Z) : list Z :=
  take (Z.to_nat n) (drop (Z.to_nat off) d).
Definition bsplice (d : list Z) (off : Z) (bytes : list Z) : list Z :=
  take (Z.to_nat off) d ++ bytes ++ drop (Z.to_nat off + length bytes) d.

Definition rd16 (d : list Z) (off : Z) : Z := le_dec (bslice d off 2).
Definition rd32 (d : list Z) (off : Z) : Z := le_dec (bslice d off 4).
Definition wr32 (d : list Z) (off v : Z) : list Z := bsplice d off (le_enc 4 v).

(** ** Constants *)

Definition ROOTINO : Z := 1.
Definition BSIZE : Z := 1024.
Definition FSMAGIC : Z := 0x10203040.
Definition NDIRECT : Z := 12.
Definition NINDIRECT : Z := BSIZE / 4.
Definition MAXFILE : Z := NDIRECT + NINDIRECT.
Definition DIRSIZ : Z := 14.
Definition sizeof_dinode : Z := 64.
Definition sizeof_dirent : Z := 16.
Definition IPB : Z := BSIZE / sizeof_dinode.
Definition BPB : Z := BSIZE * 8.
Definition IBLOCK (i : Z) (sb : superblock) : Z := u32 (i / IPB + sb_inodestart sb).
Definition BBLOCK (b : Z) (sb : superblock) : Z := u32 (b / BPB + sb_bmapstart sb).

(** [T_DIR], ... of kernel/stat.h. *)
Definition T_DIR : Z := 1.
Definition T_FILE : Z := 2.
Definition T_DEVICE : Z := 3.

(** [O_RDONLY], ... of kernel/fcntl.h. *)
Definition O_RDONLY : Z := 0x000.
Definition O_WRONLY : Z := 0x001.
Definition O_RDWR : Z := 0x002.
Definition O_CREATE : Z := 0x200.
Definition O_TRUNC : Z := 0x400.

(** ** Structures *)

Definition enc_superblock (sb : superblock) : list Z :=
  le_enc 4 (sb_magic sb) ++ le_enc 4 (sb_size sb) ++ le_enc 4 (sb_nblocks sb) ++
  le_enc 4 (sb_ninodes sb) ++ le_enc 4 (sb_nlog sb) ++ le_enc 4 (sb_logstart sb) ++
  le_enc 4 (sb_inodestart sb) ++ le_enc 4 (sb_bmapstart sb).
Definition dec_superblock (d : list Z) : superblock :=
  Superblock (rd32 d 0) (rd32 d 4) (rd32 d 8) (rd32 d 12)
    (rd32 d 16) (rd32 d 20) (rd32 d 24) (rd32 d 28).

Definition enc_uints (l : list Z) : list Z := l ≫= le_enc 4.
Fixpoint dec_uints (n : nat) (d : list Z) : list Z :=
  match n with
  | O => []
  | S n => le_dec (take 4 d) :: dec_uints n (drop 4 d)
  end.

Definition enc_dinode (di : dinode) : list Z :=
  le_enc 2 (di_type di) ++ le_enc 2 (di_major di) ++ le_enc 2 (di_minor di) ++
  le_enc 2 (di_nlink di) ++ le_enc 4 (di_size di) ++ enc_uints (di_addrs di).
Definition dec_dinode (d : list Z) : dinode :=
  Dinode (i16 (rd16 d 0)) (i16 (rd16 d 2)) (i16 (rd16 d 4)) (i16 (rd16 d 6))
    (rd32 d 8) (dec_uints 13 (drop 12 d)).

(** [struct dirent] of kernel/fs.h. *)
Record dirent : Type := Dirent {
  de_inum : Z;
  de_name : list Z
}.
Definition enc_dirent (de : dirent) : list Z := le_enc 2 (de_inum de) ++ de_name de.
Definition dec_dirent (d : list Z) : dirent := Dirent (rd16 d 0) (bslice d 2 DIRSIZ).

(** [struct stat] of kernel/stat.h: [size] is aligned to eight bytes. *)
Record stat : Type := Stat {
  st_dev : Z;
  st_ino : Z;
  st_type : Z;
  st_nlink : Z;
  st_size : Z
}.
Definition sizeof_stat : Z := 24.
Definition enc_stat (st : stat) : list Z :=
  le_enc 4 (st_dev st) ++ le_enc 4 (st_ino st) ++ le_enc 2 (st_type st) ++
  le_enc 2 (st_nlink st) ++ replicate 4 0 ++ le_enc 8 (st_size st).

(** ** Lengths *)

Lemma length_bslice d off n :
  0 ≤ off → 0 ≤ n → off + n ≤ length d → length (bslice d off n) = Z.to_nat n.
Proof. intros. unfold bslice. rw length_take length_drop. lia. Qed.

Lemma length_bsplice d off bs :
  0 ≤ off → off + length bs ≤ length d → length (bsplice d off bs) = length d.
Proof. intros. unfold bsplice. rw !length_app length_take length_drop. lia. Qed.

(** ** Reading what was written *)

Lemma bslice_bsplice_same d off bs (n : Z) :
  0 ≤ off → off + length bs ≤ length d → n = length bs → bslice (bsplice d off bs) off n = bs.
Proof.
  intros Ho Hl ->. unfold bslice, bsplice.
  rw drop_app_length'; [|rw length_take; lia]. by rw Nat2Z.id take_app_length.
Qed.

Lemma lookup_bsplice d off bs (i : nat) :
  0 ≤ off → off + length bs ≤ length d →
  bsplice d off bs !! i =
    if decide (off ≤ i < off + length bs) then bs !! (i - Z.to_nat off)%nat else d !! i.
Proof.
  intros Ho Hl. unfold bsplice. destruct (decide (off ≤ i < off + length bs)) as [Hi|Hi].
  - rw lookup_app_r; rw length_take; [|lia]. rw lookup_app_l; [|lia]. f_equal. lia.
  - destruct (decide (i < Z.to_nat off)%nat).
    + rw lookup_app_l; [|rw length_take; lia]. by rw lookup_take_lt.
    + rw lookup_app_r; rw length_take; [|lia]. rw lookup_app_r; [|lia].
      rw lookup_drop. f_equal. lia.
Qed.

Lemma lookup_bslice d off n (i : nat) :
  bslice d off n !! i = if decide (i < n) then d !! (Z.to_nat off + i)%nat else None.
Proof.
  unfold bslice. case_decide.
  - rw lookup_take_lt; [|lia]. by rw lookup_drop.
  - by rw lookup_take_ge; [|lia].
Qed.

Lemma bslice_bsplice_disj d off bs off' n :
  0 ≤ off → 0 ≤ off' → off + length bs ≤ length d → off' + n ≤ off ∨ off + length bs ≤ off' →
  bslice (bsplice d off bs) off' n = bslice d off' n.
Proof.
  intros Ho Ho' Hl Hd. apply list_eq. intros i. rw !lookup_bslice.
  case_decide; [|done]. rw lookup_bsplice // decide_False //. lia.
Qed.

Lemma bsplice_bsplice d off bs bs' :
  0 ≤ off → off + length bs ≤ length d → length bs' = length bs →
  bsplice (bsplice d off bs) off bs' = bsplice d off bs'.
Proof.
  intros Ho Hl E. apply list_eq. intros i.
  assert (off + length bs' ≤ length d) by lia.
  rw !lookup_bsplice ?length_bsplice //; rw ?E //.
  by case_decide; [|rw ?decide_False].
Qed.

Lemma bsplice_all d bs : length bs = length d → bsplice d 0 bs = bs.
Proof.
  intros E. unfold bsplice. cbn. rw E drop_ge; [|lia]. apply app_nil_r.
Qed.

Lemma rd32_wr32 d off v :
  0 ≤ off → off + 4 ≤ length d → 0 ≤ v < 2 ^ 32 → rd32 (wr32 d off v) off = v.
Proof.
  intros. unfold rd32, wr32. rewrite -> bslice_bsplice_same by (rw ?length_le_enc; lia).
  rw le_dec_enc. by apply Z.mod_small.
Qed.
Lemma rd32_wr32_ne d off v off' :
  0 ≤ off → 0 ≤ off' → off + 4 ≤ length d → off' + 4 ≤ off ∨ off + 4 ≤ off' →
  rd32 (wr32 d off v) off' = rd32 d off'.
Proof. intros. unfold rd32, wr32. rw bslice_bsplice_disj //; rw length_le_enc; lia. Qed.
Lemma length_wr32 d off v : 0 ≤ off → off + 4 ≤ length d → length (wr32 d off v) = length d.
Proof. intros. apply length_bsplice; rw ?length_le_enc; lia. Qed.

(** ** Round trips of the structures *)

Definition uint_ok (x : Z) : Prop := 0 ≤ x < 2 ^ 32.
Definition short_ok (x : Z) : Prop := -32768 ≤ x < 32768.

Lemma take4_le l v : take 4 (le_enc 4 v ++ l) = le_enc 4 v.
Proof. by rw take_app_length'; rw ?length_le_enc. Qed.
Lemma drop4_le l v : drop 4 (le_enc 4 v ++ l) = l.
Proof. by rw drop_app_length'; rw ?length_le_enc. Qed.

Lemma le4_id v : uint_ok v → le_dec (le_enc 4 v) = v.
Proof. intros. rw le_dec_enc. by apply Z.mod_small. Qed.
Lemma le2_short v : short_ok v → i16 (le_dec (le_enc 2 v)) = v.
Proof. intros. rw le_dec_enc. unfold i16, short_ok in *. change (256 ^ Z.of_nat 2) with 65536. zlia. Qed.

Lemma length_enc_uints l : length (enc_uints l) = (4 * length l)%nat.
Proof.
  unfold enc_uints. induction l as [|x l IH]; [done|]. cbn [mbind list_bind length].
  rw length_app length_le_enc IH. lia.
Qed.

Lemma dec_enc_uints l rest :
  Forall uint_ok l → dec_uints (length l) (enc_uints l ++ rest) = l.
Proof.
  induction 1 as [|x l Hx Hl IH]; [done|]. unfold enc_uints in *. cbn [mbind list_bind length dec_uints].
  rw -!app_assoc take4_le drop4_le le4_id // IH //.
Qed.

Definition superblock_ok (sb : superblock) : Prop :=
  uint_ok (sb_magic sb) ∧ uint_ok (sb_size sb) ∧ uint_ok (sb_nblocks sb) ∧ uint_ok (sb_ninodes sb) ∧
  uint_ok (sb_nlog sb) ∧ uint_ok (sb_logstart sb) ∧ uint_ok (sb_inodestart sb) ∧ uint_ok (sb_bmapstart sb).
Definition dinode_ok (di : dinode) : Prop :=
  short_ok (di_type di) ∧ short_ok (di_major di) ∧ short_ok (di_minor di) ∧ short_ok (di_nlink di) ∧
  uint_ok (di_size di) ∧ Forall uint_ok (di_addrs di) ∧ length (di_addrs di) = 13%nat.

Lemma length_enc_dinode di : length (di_addrs di) = 13%nat → length (enc_dinode di) = 64%nat.
Proof. intros E. unfold enc_dinode. by rw !length_app !length_le_enc length_enc_uints E. Qed.

Lemma bslice_skip p r (off n k : Z) :
  k = length p → k ≤ off → bslice (p ++ r) off n = bslice r (off - k) n.
Proof.
  intros -> Hk. unfold bslice. rw drop_app_ge; [|lia]. do 2 f_equal. lia.
Qed.
Lemma bslice_hd p r (n : Z) : n = length p → bslice (p ++ r) 0 n = p.
Proof. intros ->. unfold bslice. rw Nat2Z.id. cbn. apply take_app_length. Qed.
Lemma bslice_one p (n : Z) : n = length p → bslice p 0 n = p.
Proof. intros ->. unfold bslice. rw Nat2Z.id. cbn. by apply take_ge. Qed.

(** [rd_field] reads one field of an encoded structure: skip the encoded
    fields in front of it, then take its bytes. *)
Ltac rd_field :=
  unfold rd16, rd32;
  repeat match goal with
  | |- context [bslice (le_enc ?n ?v ++ ?r) 0 ?k] =>
      rewrite -> (bslice_hd (le_enc n v) r k) by (by rw length_le_enc)
  | |- context [bslice (le_enc ?n ?v) 0 ?k] =>
      rewrite -> (bslice_one (le_enc n v) k) by (by rw length_le_enc)
  | |- context [bslice (le_enc ?n ?v ++ ?r) ?off ?k] =>
      rewrite -> (bslice_skip (le_enc n v) r off k (Z.of_nat n)) by (rw ?length_le_enc; lia);
      let o := eval compute in (off - Z.of_nat n) in change (off - Z.of_nat n) with o
  end.

Lemma dec_enc_superblock sb rest :
  superblock_ok sb → dec_superblock (enc_superblock sb ++ rest) = sb.
Proof.
  destruct sb as [m sz nb ni nl ls ino bm]. unfold superblock_ok, dec_superblock, enc_superblock.
  cbn [sb_magic sb_size sb_nblocks sb_ninodes sb_nlog sb_logstart sb_inodestart sb_bmapstart].
  intros. destruct_and!.
  rw -!app_assoc. rd_field. by rw !le4_id.
Qed.

Lemma dec_enc_dinode di rest :
  dinode_ok di → dec_dinode (enc_dinode di ++ rest) = di.
Proof.
  destruct di as [ty ma mi nl sz ad]. unfold dinode_ok, dec_dinode, enc_dinode.
  cbn [di_type di_major di_minor di_nlink di_size di_addrs]. intros (? & ? & ? & ? & ? & Ha & Hl).
  rw -!app_assoc. rd_field. rw !le2_short // le4_id //. f_equal.
  rw -Hl. exact (dec_enc_uints ad rest Ha).
Qed.

Lemma dec_enc_dirent de rest :
  0 ≤ de_inum de < 65536 → length (de_name de) = 14%nat → dec_dirent (enc_dirent de ++ rest) = de.
Proof.
  destruct de as [n nm]. unfold dec_dirent, enc_dirent. cbn [de_inum de_name]. intros Hn Hl.
  rw -!app_assoc. rd_field. rw le_dec_enc Z.mod_small; [|lia]. f_equal.
  apply bslice_hd. by rw Hl.
Qed.
