(* ===== verification/Bio.v ===== *)
(** * The buffer cache (kernel/bio.c)

    The buffers are the entries [0 .. NBUF) of [k_bufs] and the list head is
    entry [NBUF]; [prev] and [next] are indices. The cache reads and writes
    the disk through [disk_rw], the synchronous block transfer that
    kernel/virtio_disk.c implements (see [Virtio]); every block written is
    appended to [k_dtrace], so that the states of the disk that a crash can
    leave are the prefixes of that trace.

    Specifications: [linked] is the doubly linked LRU list, [bio_inv] the
    invariant of the cache, and [bview] the contents of a block as the rest
    of the kernel sees it, cached or not. *)

From S2P Require Import Prelude Riscv KState Spinlock KString Kalloc Vm Sched Layout.
Open Scope Z_scope.


Definition zero_block : list Z := replicate (Z.to_nat BSIZE) 0.

(** [&bcache.head] *)
Definition bhead : nat := NBUF.

Definition get_buf (b : nat) : KM buf := bs ← gets k_bufs; deref (bs !! b).
Definition upd_buf (b : nat) (f : buf → buf) : KM unit :=
  modify (λ s, set_k_bufs (alter f b (k_bufs s)) s).

(** The contents of a block on the disk. *)
Definition dblock (d : gmap Z (list Z)) (bno : Z) : list Z := default zero_block (d !! bno).

(** [virtio_disk_rw(b, write)] as its callers see it. *)
Definition disk_rw (b : nat) (write : Z) : KM unit :=
  k ← get_buf b;
  if negb (write =? 0) then
    modify (λ s, set_k_dtrace (k_dtrace s ++ [(b_blockno k, b_data k)])
                   (set_k_disk (<[b_blockno k := b_data k]> (k_disk s)) s))
  else
    d ← gets k_disk;
    upd_buf b (set_b_data (dblock d (b_blockno k))).

(** ** bio.c *)

Definition binit : KM unit :=
  kinitlock LBcache "bcache" ;;
  upd_buf bhead (set_b_prev bhead) ;;
  upd_buf bhead (set_b_next bhead) ;;
  eachM (seq 0 NBUF) (λ b,
    h ← get_buf bhead;
    upd_buf b (set_b_next (b_next h)) ;;
    upd_buf b (set_b_prev bhead) ;;
    initsleeplock (SBuf b) "buffer" ;;
    h ← get_buf bhead;
    upd_buf (b_next h) (set_b_prev b) ;;
    upd_buf bhead (set_b_next b)).

(** [for(; b != &bcache.head; b = b->dir) if(P) ...]: the first buffer from
    [b] on in direction [dir] that satisfies [P]. *)
Definition bscan (dir : buf → nat) (P : buf → bool) (b : nat) : KM (option nat) :=
  loopM (NBUF + 2)
    (λ b, if decide (b = bhead) then mret (inr None) else
          k ← get_buf b;
          if P k then mret (inr (Some b)) else mret (inl (dir k)))
    b.

Definition bget (dev blockno : Z) : KM nat :=
  kacquire LBcache ;;
  h ← get_buf bhead;
  r ← bscan b_next (λ k, (b_dev k =? dev) && (b_blockno k =? blockno)) (b_next h);
  match r with
  | Some b =>
      upd_buf b (λ k, set_b_refcnt (u32 (b_refcnt k + 1)) k) ;;
      krelease LBcache ;;
      acquiresleep (SBuf b) ;;
      mret b
  | None =>
      r ← bscan b_prev (λ k, b_refcnt k =? 0) (b_prev h);
      match r with
      | Some b =>
          upd_buf b (set_b_dev dev) ;;
          upd_buf b (set_b_blockno blockno) ;;
          upd_buf b (set_b_valid 0) ;;
          upd_buf b (set_b_refcnt 1) ;;
          krelease LBcache ;;
          acquiresleep (SBuf b) ;;
          mret b
      | None => panic "bget: no buffers"
      end
  end.

Definition bread (dev blockno : Z) : KM nat :=
  b ← bget dev blockno;
  k ← get_buf b;
  whenM (b_valid k =? 0) (disk_rw b 0 ;; upd_buf b (set_b_valid 1)) ;;
  mret b.

Definition bwrite (b : nat) : KM unit :=
  h ← holdingsleep (SBuf b);
  if h =? 0 then panic "bwrite" else
  disk_rw b 1.

Definition brelse (b : nat) : KM unit :=
  h ← holdingsleep (SBuf b);
  if h =? 0 then panic "brelse" else
  releasesleep (SBuf b) ;;
  kacquire LBcache ;;
  upd_buf b (λ k, set_b_refcnt (u32 (b_refcnt k - 1)) k) ;;
  k ← get_buf b;
  whenM (b_refcnt k =? 0)
    (k ← get_buf b;
     upd_buf (b_next k) (set_b_prev (b_prev k)) ;;
     k ← get_buf b;
     upd_buf (b_prev k) (set_b_next (b_next k)) ;;
     h ← get_buf bhead;
     upd_buf b (set_b_next (b_next h)) ;;
     upd_buf b (set_b_prev bhead) ;;
     h ← get_buf bhead;
     upd_buf (b_next h) (set_b_prev b) ;;
     upd_buf bhead (set_b_next b)) ;;
  krelease LBcache.

Definition bpin (b : nat) : KM unit :=
  kacquire LBcache ;;
  upd_buf b (λ k, set_b_refcnt (u32 (b_refcnt k + 1)) k) ;;
  krelease LBcache.

Definition bunpin (b : nat) : KM unit :=
  kacquire LBcache ;;
  upd_buf b (λ k, set_b_refcnt (u32 (b_refcnt k - 1)) k) ;;
  krelease LBcache.

(** ** Doubly linked lists

    [n] and [p] are the [next] and [prev] fields as functions of the node. *)

Definition upd (f : nat → nat) (i v j : nat) : nat := if decide (i = j) then v else f j.

(** From [a] the nodes [l] follow, and then [z]. *)
Fixpoint seg (n p : nat → nat) (a : nat) (l : list nat) (z : nat) : Prop :=
  match l with
  | [] => n a = z ∧ p z = a
  | c :: l => n a = c ∧ p c = a ∧ seg n p c l z
  end.

Lemma upd_eq f i v : upd f i v i = v.
Proof. unfold upd. by rw decide_True. Qed.
Lemma upd_ne f i v j : i ≠ j → upd f i v j = f j.
Proof. intros Hne. unfold upd. by rw decide_False. Qed.

Lemma seg_frame n p n' p' a l z :
  (∀ i, i = a ∨ i ∈ l → n' i = n i) → (∀ i, i ∈ l ∨ i = z → p' i = p i) →
  seg n p a l z → seg n' p' a l z.
Proof.
  revert a; induction l as [|c l IH]; intros a Hn Hp; cbn [seg].
  - intros [H1 H2]. rw Hn; [|by left]. rw Hp; [done|by right].
  - intros (H1 & H2 & H3). rw Hn; [|by left]. rw Hp; [|left; by left]. split_and!; [done|done|].
    apply IH; [..|done].
    + intros i Hi. apply Hn. right. apply elem_of_cons. naive_solver.
    + intros i Hi. apply Hp. rw elem_of_cons. naive_solver.
Qed.

Lemma seg_pred n p a l1 b l2 z : seg n p a (l1 ++ b :: l2) z → p b = a ∧ l1 = [] ∨ p b ∈ l1.
Proof.
  revert a; induction l1 as [|c l1 IH]; intros a; cbn [seg app].
  - intros (_ & H2 & _). by left.
  - intros (_ & _ & H3). right. destruct (IH _ H3) as [[-> ->]|H]; [by left|by right].
Qed.
Lemma seg_succ n p a l1 b l2 z : seg n p a (l1 ++ b :: l2) z → n b = z ∨ n b ∈ l2.
Proof.
  revert a; induction l1 as [|c l1 IH]; intros a; cbn [seg app].
  - intros (_ & _ & H3). destruct l2 as [|d l2]; cbn in H3; [left; tauto|].
    right. destruct H3 as [-> _]. by left.
  - intros (_ & _ & H3). by eapply IH.
Qed.

(** Taking [b] out of the list, as [brelse] does. *)
Lemma seg_unlink n p a l1 b l2 z :
  seg n p a (l1 ++ b :: l2) z → NoDup (l1 ++ b :: l2) →
  a ∉ l1 ++ b :: l2 → z ∉ l1 ++ b :: l2 →
  seg (upd n (p b) (n b)) (upd p (n b) (p b)) a (l1 ++ l2) z.
Proof.
  revert a; induction l1 as [|d l1 IH]; intros a Hs Hnd Ha Hz; cbn [seg app] in *.
  - destruct Hs as (H1 & H2 & H3). apply NoDup_cons in Hnd as [Hb Hnd].
    apply not_elem_of_cons in Ha as [Hab Ha], Hz as [Hzb Hz].
    destruct l2 as [|c l2]; cbn [seg] in *.
    + destruct H3 as [H3 H4]. rw H2 H3 !upd_eq //.
    + destruct H3 as (H3 & H4 & H5). rw H2 H3 !upd_eq. split_and!; [done|done|].
      apply NoDup_cons in Hnd as [Hc Hnd]. apply not_elem_of_cons in Ha as [Hac Ha], Hz as [Hzc Hz].
      eapply seg_frame; [..|exact H5].
      * intros i Hi. apply upd_ne. destruct Hi as [->|Hi]; [done|]. by intros ->.
      * intros i Hi. apply upd_ne. destruct Hi as [Hi| ->]; [|done]. by intros ->.
  - destruct Hs as (H1 & H2 & H3). apply NoDup_cons in Hnd as [Hd Hnd].
    apply not_elem_of_cons in Ha as [Had Ha], Hz as [Hzd Hz].
    split_and!; [| |by apply IH].
    + rw upd_ne //. destruct (seg_pred _ _ _ _ _ _ _ H3) as [[-> _]|Hin]; [done|].
      intros E. apply Ha. rw -E. apply elem_of_app. by left.
    + rw upd_ne //. destruct (seg_succ _ _ _ _ _ _ _ H3) as [->|Hin]; [done|].
      intros E. apply Hd. rw -E. apply elem_of_app. right. by right.
Qed.

(** Putting [b] at the front. *)
Lemma seg_push n p h l b :
  seg n p h l h → NoDup l → b ∉ l → b ≠ h → h ∉ l →
  seg (upd (upd n b (n h)) h b) (upd (upd p b h) (n h) b) h (b :: l) h.
Proof.
  intros Hs Hnd Hb Hbh Hh. cbn [seg]. rw upd_eq. split; [done|].
  assert (n h ≠ b) as Hnb.
  { destruct l as [|c l]; cbn in Hs; [by destruct Hs as [-> _]|].
    destruct Hs as [-> _]. intros ->. by apply Hb; left. }
  split; [by rw upd_ne // upd_eq|].
  destruct l as [|c l]; cbn [seg] in *.
  - destruct Hs as [H1 H2]. rw upd_ne // upd_eq. rw H1 upd_eq //.
  - destruct Hs as (H1 & H2 & H3). rw upd_ne // upd_eq. rw H1 upd_eq. split_and!; [done|done|].
    apply NoDup_cons in Hnd as [Hc Hnd].
    apply not_elem_of_cons in Hb as [Hbc Hb], Hh as [Hhc Hh].
    eapply seg_frame; [..|exact H3].
    + intros i Hi. rw !upd_ne //; destruct Hi as [->|Hi]; try done; intros ->; done.
    + intros i Hi. rw !upd_ne //; destruct Hi as [Hi| ->]; try done; intros ->; done.
Qed.

Lemma seg_snoc n p a l c z :
  seg n p a (l ++ [c]) z ↔ seg n p a l c ∧ n c = z ∧ p z = c.
Proof.
  revert a; induction l as [|d l IH]; intros a; cbn [seg app]; [tauto|]. rw IH. tauto.
Qed.

(** ** The LRU list *)

Definition nxt (bs : list buf) (i : nat) : nat := from_option b_next O (bs !! i).
Definition prv (bs : list buf) (i : nat) : nat := from_option b_prev O (bs !! i).

(** [l] is the list of the buffers, most recently used first. *)
Record linked (bs : list buf) (l : list nat) : Prop := {
  li_seg : seg (nxt bs) (prv bs) bhead l bhead;
  li_perm : l ≡ₚ seq 0 NBUF;
  li_len : length bs = S NBUF
}.

Lemma linked_elem bs l i : linked bs l → i ∈ l ↔ (i < NBUF)%nat.
Proof. intros Hl. rw (li_perm _ _ Hl) elem_of_seq. lia. Qed.
Lemma linked_nodup bs l : linked bs l → NoDup l.
Proof. intros Hl. rw (li_perm _ _ Hl). apply NoDup_seq. Qed.
Lemma linked_head bs l : linked bs l → bhead ∉ l.
Proof. intros Hl. rw (linked_elem _ _ _ Hl). unfold bhead. lia. Qed.

(** The first node of [l] that satisfies [P]. *)
Fixpoint first (P : buf → bool) (bs : list buf) (l : list nat) : option nat :=
  match l with
  | [] => None
  | c :: l =>
      match bs !! c with
      | Some k => if P k then Some c else first P bs l
      | None => None
      end
  end.

Lemma get_buf_spec s b k : k_bufs s !! b = Some k → get_buf b s = Ret k s.
Proof. intros Hk. unfold get_buf. mrun. by rw Hk. Qed.

Lemma bscan_loop s (dir : buf → nat) (P : buf → bool) l : ∀ (fuel : nat) c,
  (length l < fuel)%nat → bhead ∉ l →
  (∀ a, a ∈ l → is_Some (k_bufs s !! a)) →
  match l with [] => c = bhead | d :: _ => c = d end →
  (∀ l1 a b l2, l ++ [bhead] = l1 ++ a :: b :: l2 →
     ∀ k, k_bufs s !! a = Some k → dir k = b) →
  loopM fuel
    (λ b, if decide (b = bhead) then mret (inr None) else
          k ← get_buf b;
          if P k then mret (inr (Some b)) else mret (inl (dir k))) c s =
    Ret (first P (k_bufs s) l) s.
Proof.
  induction l as [|d l IH]; intros [|fuel] c Hf Hh Hd Hc Hadj; [lia| |cbn in Hf; lia|]; subst c;
    cbn [loopM first]; cbv beta.
  - by destruct (decide (bhead = bhead)).
  - apply not_elem_of_cons in Hh as [Hdh Hh]. destruct (decide (d = bhead)); [by subst|].
    destruct (Hd d) as [k Hk]; [by left|]. rw Hk.
    rewrite -> (bind_assoc _ _ _ _ _ _ (get_buf_spec s d k Hk)).
    destruct (P k); [done|]. rewrite -> bind_mret. apply IH; [cbn in Hf; lia|done| | |].
    + intros a Ha. apply Hd. by right.
    + destruct l as [|e l]; [by eapply (Hadj [] d bhead [])|by eapply (Hadj [] d e (l ++ [bhead]))].
    + intros l1 a b l2 E k' Hk'. by eapply (Hadj (d :: l1) a b l2); [cbn; rw E|].
Qed.

Lemma seg_adj n p a l z : seg n p a l z → ∀ l1 x y l2,
  a :: l ++ [z] = l1 ++ x :: y :: l2 → n x = y ∧ p y = x.
Proof.
  revert a; induction l as [|c l IH]; intros a; cbn [seg app]; intros Hs l1 x y l2 E.
  - destruct l1 as [|? [|? [|]]]; simplify_eq/=. done.
  - destruct Hs as (H1 & H2 & H3). destruct l1 as [|? l1]; simplify_eq/=; [done|]. by eapply IH.
Qed.

Lemma bscan_next s P l :
  linked (k_bufs s) l → bscan b_next P (nxt (k_bufs s) bhead) s = Ret (first P (k_bufs s) l) s.
Proof.
  intros Hl. apply bscan_loop.
  - rw (li_perm _ _ Hl) length_seq. lia.
  - by eapply linked_head.
  - intros a Ha%(linked_elem _ _ _ Hl). apply lookup_lt_is_Some. rw (li_len _ _ Hl). lia.
  - pose proof (li_seg _ _ Hl) as Hs. destruct l; cbn in Hs; by destruct Hs.
  - intros l1 a b l2 E k Hk. destruct (seg_adj _ _ _ _ _ (li_seg _ _ Hl) (bhead :: l1) a b l2) as [H1 _].
    { cbn. by rw E. }
    unfold nxt in H1. by rw Hk in H1.
Qed.

Lemma bscan_prev s P l :
  linked (k_bufs s) l →
  bscan b_prev P (prv (k_bufs s) bhead) s = Ret (first P (k_bufs s) (reverse l)) s.
Proof.
  intros Hl. apply bscan_loop.
  - rw length_reverse (li_perm _ _ Hl) length_seq. lia.
  - rw elem_of_reverse. by eapply linked_head.
  - intros a Ha%elem_of_reverse%(linked_elem _ _ _ Hl). apply lookup_lt_is_Some.
    rw (li_len _ _ Hl). lia.
  - pose proof (li_seg _ _ Hl) as Hs. destruct l as [|c l _] using rev_ind.
    + by destruct Hs.
    + rw reverse_snoc. by apply seg_snoc in Hs as (_ & _ & ->).
  - intros l1 a b l2 E k Hk.
    destruct (seg_adj _ _ _ _ _ (li_seg _ _ Hl) (reverse l2) b a (reverse l1 ++ [bhead])) as [_ H1].
    { apply (f_equal reverse) in E. rw !reverse_app !reverse_cons /= reverse_involutive -!app_assoc /= in E.
      apply (f_equal (λ x, x ++ [bhead])) in E. cbn in E. rw -app_assoc in E. rw -E. cbn. done. }
    unfold prv in H1. by rw Hk in H1.
Qed.

Lemma nxt_set_next bs i v j : (i < length bs)%nat → nxt (alter (set_b_next v) i bs) j = upd (nxt bs) i v j.
Proof.
  intros Hi. unfold nxt, upd. case_decide as E.
  - subst j. rw list_lookup_alter_eq. by destruct (lookup_lt_is_Some_2 bs i Hi) as [k ->].
  - by rw list_lookup_alter_ne.
Qed.
Lemma prv_set_prev bs i v j : (i < length bs)%nat → prv (alter (set_b_prev v) i bs) j = upd (prv bs) i v j.
Proof.
  intros Hi. unfold prv, upd. case_decide as E.
  - subst j. rw list_lookup_alter_eq. by destruct (lookup_lt_is_Some_2 bs i Hi) as [k ->].
  - by rw list_lookup_alter_ne.
Qed.
Lemma nxt_keep bs i f j : (∀ k, b_next (f k) = b_next k) → nxt (alter f i bs) j = nxt bs j.
Proof.
  intros Hf. unfold nxt. destruct (decide (i = j)) as [<-|]; [|by rw list_lookup_alter_ne].
  rw list_lookup_alter_eq. destruct (bs !! i) as [k|]; [apply (Hf k)|done].
Qed.
Lemma prv_keep bs i f j : (∀ k, b_prev (f k) = b_prev k) → prv (alter f i bs) j = prv bs j.
Proof.
  intros Hf. unfold prv. destruct (decide (i = j)) as [<-|]; [|by rw list_lookup_alter_ne].
  rw list_lookup_alter_eq. destruct (bs !! i) as [k|]; [apply (Hf k)|done].
Qed.

Lemma linked_alter bs l i f :
  (∀ k, b_next (f k) = b_next k) → (∀ k, b_prev (f k) = b_prev k) →
  linked bs l → linked (alter f i bs) l.
Proof.
  intros Hn Hp [Hs Hperm Hlen]. split; [|done|by rw length_alter].
  eapply seg_frame; [..|exact Hs]; intros j _; [by apply nxt_keep|by apply prv_keep].
Qed.

(** Linking [b] in at the front, as [binit] and [brelse] do. *)
Definition push (b : nat) (bs : list buf) : list buf :=
  let bs := alter (set_b_next (nxt bs bhead)) b bs in
  let bs := alter (set_b_prev bhead) b bs in
  let bs := alter (set_b_prev b) (nxt bs bhead) bs in
  alter (set_b_next b) bhead bs.
(** The moves of [brelse] in the list. *)
Definition relink (b : nat) (bs : list buf) : list buf :=
  let bs := alter (set_b_prev (prv bs b)) (nxt bs b) bs in
  let bs := alter (set_b_next (nxt bs b)) (prv bs b) bs in
  push b bs.

Lemma length_push b bs : length (push b bs) = length bs.
Proof. unfold push. by rw !length_alter. Qed.

Lemma seg_first n p a l z : seg n p a l z → n a = z ∨ n a ∈ l.
Proof. destruct l as [|c l]; cbn; [by intros [-> _]; left|]. intros (-> & _). right. by left. Qed.

Lemma push_seg bs l b :
  seg (nxt bs) (prv bs) bhead l bhead → NoDup l → b ∉ l → b ≠ bhead → bhead ∉ l →
  (∀ i, i = bhead ∨ i = b ∨ i ∈ l → (i < length bs)%nat) →
  seg (nxt (push b bs)) (prv (push b bs)) bhead (b :: l) bhead.
Proof.
  intros Hs Hnd Hb Hbh Hh Hlt. unfold push.
  assert (b < length bs)%nat as Hbl by (apply Hlt; by right; left).
  set (bs3 := alter (set_b_next (nxt bs bhead)) b bs).
  set (bs4 := alter (set_b_prev bhead) b bs3).
  assert (∀ j, nxt bs4 j = upd (nxt bs) b (nxt bs bhead) j) as Hn4.
  { intros j. unfold bs4. rw nxt_keep //. unfold bs3. by rw nxt_set_next. }
  assert (∀ j, prv bs4 j = upd (prv bs) b bhead j) as Hp4.
  { intros j. unfold bs4. rw prv_set_prev; [|unfold bs3; by rw length_alter].
    unfold upd, bs3. case_decide; [done|by rw prv_keep]. }
  assert (length bs4 = length bs) as Hlen4 by (unfold bs4, bs3; by rw !length_alter).
  clearbody bs4. assert (nxt bs4 bhead = nxt bs bhead) as E4 by (rw Hn4 upd_ne //).
  rw E4.
  assert (nxt bs bhead < length bs)%nat as Hfl.
  { apply Hlt. destruct (seg_first _ _ _ _ _ Hs) as [->|Hin]; [by left|by right; right]. }
  eapply seg_frame; [..|by apply (seg_push _ _ _ _ b Hs)].
  - intros i _. rw nxt_set_next; [|rw length_alter Hlen4; apply Hlt; by left].
    unfold upd. case_decide; [done|]. rw nxt_keep //.
  - intros i _. rw prv_keep //. rw prv_set_prev; [|by rw Hlen4].
    unfold upd. case_decide; [done|]. rw Hp4. done.
Qed.

Lemma relink_linked bs l1 b l2 :
  linked bs (l1 ++ b :: l2) → linked (relink b bs) (b :: l1 ++ l2).
Proof.
  intros Hl. pose proof (linked_nodup _ _ Hl) as Hnd. pose proof (linked_head _ _ Hl) as Hh.
  destruct (Hl) as [Hs Hperm Hlen].
  assert (∀ i, i = bhead ∨ i ∈ l1 ++ b :: l2 → (i < length bs)%nat) as Hlt.
  { intros i [->|Hi]; rw Hlen; [unfold bhead; lia|]. apply (linked_elem _ _ _ Hl) in Hi. lia. }
  assert (b ∈ l1 ++ b :: l2) as Hb by (apply elem_of_app; right; by left).
  assert (b ≠ bhead) as Hbh by (intros E; apply Hh; by rw -{1}E).
  assert (b ∉ l1 ++ l2) as Hb12.
  { apply NoDup_app in Hnd as (_ & Hd & [Hb2 _]%NoDup_cons). intros [Hi|Hi]%elem_of_app; [|done].
    apply (Hd b Hi). by left. }
  assert (∀ i, i ∈ l1 ++ l2 → i ∈ l1 ++ b :: l2) as Hsub.
  { intros i [Hi|Hi]%elem_of_app; apply elem_of_app; [by left|right; by right]. }
  assert (nxt bs b ≠ b ∧ (nxt bs b < length bs)%nat) as [Hnb Hnlt].
  { destruct (seg_succ _ _ _ _ _ _ _ Hs) as [->|Hin]; [split; [done|apply Hlt; by left]|].
    split; [intros E; rw E in Hin; apply Hb12, elem_of_app; by right|].
    apply Hlt. right. apply Hsub, elem_of_app. by right. }
  assert (prv bs b < length bs)%nat as Hplt.
  { destruct (seg_pred _ _ _ _ _ _ _ Hs) as [[-> _]|Hin]; apply Hlt; [by left|].
    right. apply elem_of_app. by left. }
  unfold relink.
  set (bs1 := alter (set_b_prev (prv bs b)) (nxt bs b) bs).
  assert (prv bs1 b = prv bs b) as E1 by (unfold bs1; rw prv_set_prev // upd_ne //).
  assert (nxt bs1 b = nxt bs b) as E2 by (unfold bs1; by rw nxt_keep).
  rw E1 E2.
  set (bs2 := alter (set_b_next (nxt bs b)) (prv bs b) bs1).
  assert (∀ j, nxt bs2 j = upd (nxt bs) (prv bs b) (nxt bs b) j) as Hn2.
  { intros j. unfold bs2. rw nxt_set_next; [|unfold bs1; by rw length_alter].
    unfold upd, bs1. case_decide; [done|by rw nxt_keep]. }
  assert (∀ j, prv bs2 j = upd (prv bs) (nxt bs b) (prv bs b) j) as Hp2.
  { intros j. unfold bs2. rw prv_keep //. unfold bs1. by rw prv_set_prev. }
  assert (length bs2 = length bs) as Hlen2 by (unfold bs2, bs1; by rw !length_alter).
  pose proof (seg_unlink _ _ _ _ _ _ _ Hs Hnd Hh Hh) as Hs2. clearbody bs2.
  split; [|by etrans; [|exact Hperm]; rw Permutation_middle|by rw length_push Hlen2].
  apply push_seg; [|..|by intros Hin%Hsub|]; try done.
  - eapply seg_frame; [..|exact Hs2]; intros i _; [apply Hn2|apply Hp2].
  - rewrite <- Permutation_middle in Hnd. by apply NoDup_cons in Hnd as [_ ?].
  - rw Hlen2. intros i [->|[->|Hi%Hsub]]; apply Hlt; auto.
Qed.

(** ** The environment of file-system code

    The hart runs process [p], no spinlock is held, and no other process is
    inside the file system. *)

Definition fs_lock (l : lockid) : bool :=
  match l with
  | LKmem | LBcache | LLog | LItable | LFtable => true
  | LBuf i => bool_decide (i < NBUF)%nat
  | LInode i => bool_decide (i < NINODE)%nat
  | _ => false
  end.
Definition fs_chan (c : chan) : bool :=
  match c with CSleep _ | CLog => true | _ => false end.

Record fsenv (p : nat) (q : proc) (s : kstate) : Prop := {
  fe_ok : cpu_ok (k_sync s);
  fe_run : running (Some p) (k_sync s);
  fe_procs : procs_free s;
  fe_proc : k_procs s !! p = Some q;
  fe_fuel : k_fuel s ≠ O;
  fe_locks l : fs_lock l = true → lock_free l (k_sync s);
  fe_quiet i k ch : k_procs s !! i = Some k → p_state k = SLEEPING → p_chan k = Some ch →
    fs_chan ch = false
}.
Arguments fe_ok {p q s}.
Arguments fe_run {p q s}.
Arguments fe_procs {p q s}.
Arguments fe_proc {p q s}.
Arguments fe_fuel {p q s}.
Arguments fe_locks {p q s} _ {l}.
Arguments fe_quiet {p q s} _ {i k ch}.

(** It depends on the locks, the process table and the fuel only. *)
Lemma fsenv_keep p q s s' :
  fsenv p q s → k_sync s' = k_sync s → k_procs s' = k_procs s → k_fuel s' = k_fuel s →
  fsenv p q s'.
Proof.
  intros [H1 H2 [H3 H3'] H4 H5 H6 H7] E1 E2 E3. split; unfold procs_free in *; rw ?E1 ?E2 ?E3 //.
Qed.

Lemma wakeup_quiet p q s ch :
  fsenv p q s → fs_chan ch = true → imap (wake ch (Some p)) (k_procs s) = k_procs s.
Proof.
  intros He Hc. apply list_eq. intros i. rw list_lookup_imap.
  destruct (k_procs s !! i) as [k|] eqn:Hk; [|done]. cbn. f_equal. unfold wake.
  rw decide_False //. intros (_ & Hst & Hch). pose proof (fe_quiet He Hk Hst Hch). congruence.
Qed.

(** A critical section of one lock around code that keeps the locks. *)
Lemma fs_section p q s l {A} (m : KM A) a s' :
  fsenv p q s → fs_lock l = true →
  m (set_k_sync (acq l (k_sync s)) s) = Ret a (set_k_sync (acq l (k_sync s)) s') →
  (kacquire l ;; a ← m; krelease l ;; mret a) s = Ret a (set_k_sync (k_sync s) s').
Proof.
  intros He Hl Hm. pose proof (fe_locks He Hl) as Hfree.
  mstep (kacquire_free _ _ (fe_ok He) Hfree). mstep Hm.
  erewrite bind_Ret; [|by apply (krelease_acq l _ (k_sync s)); [|apply He|]]. by destruct s'.
Qed.

Lemma acquiresleep_env p q s l :
  fsenv p q s → fs_lock (sl_lk l) = true → sl_free l s →
  ∃ nm, acquiresleep l s =
    Ret tt (set_k_sleeplocks (<[l := Sleeplock 1 nm (p_pid q)]> (k_sleeplocks s)) s).
Proof.
  intros He Hl (nm & pid & Hk). exists nm. eapply acquiresleep_free; try done; try apply He. done.
Qed.

Lemma releasesleep_env p q s l k :
  fsenv p q s → fs_lock (sl_lk l) = true → k_sleeplocks s !! l = Some k →
  releasesleep l s =
    Ret tt (set_k_sleeplocks (<[l := Sleeplock 0 (sl_name k) 0]> (k_sleeplocks s)) s).
Proof.
  intros He Hl Hk. erewrite releasesleep_spec; [|apply He|apply He|by apply (fe_locks He)|apply He|done].
  rewrite -> (wakeup_quiet p q) by done. by destruct s.
Qed.

Lemma holdingsleep_env p q s l nm :
  fsenv p q s → fs_lock (sl_lk l) = true → k_sleeplocks s !! l = Some (Sleeplock 1 nm (p_pid q)) →
  holdingsleep l s = Ret 1 s.
Proof.
  intros He Hl Hk. erewrite holdingsleep_spec; [|apply He|apply He|by apply (fe_locks He)|apply He|done].
  cbn. by rw Z.eqb_refl.
Qed.

(** ** The invariant of the cache *)

(** Buffer [k] is the one of block [bno]. *)
Definition is_block (bno : Z) (k : buf) : bool := (b_dev k =? ROOTDEV) && (b_blockno k =? bno).

Lemma is_block_inj bno bno' k : is_block bno k = true → is_block bno' k = true → bno = bno'.
Proof. unfold is_block. intros [_ H1]%andb_prop [_ H2]%andb_prop. lia. Qed.

Record bio_inv (s : kstate) (l : list nat) : Prop := {
  bi_linked : linked (k_bufs s) l;
  bi_uniq i j k k' bno : (i < NBUF)%nat → (j < NBUF)%nat →
    k_bufs s !! i = Some k → k_bufs s !! j = Some k' →
    is_block bno k = true → is_block bno k' = true → i = j;
  bi_ref i k : (i < NBUF)%nat → k_bufs s !! i = Some k → 0 ≤ b_refcnt k < 2 ^ 31;
  bi_clean i k : (i < NBUF)%nat → k_bufs s !! i = Some k → b_refcnt k = 0 →
    b_dev k = ROOTDEV → b_valid k ≠ 0 → b_data k = dblock (k_disk s) (b_blockno k);
  bi_sleep i k : (i < NBUF)%nat → k_bufs s !! i = Some k → b_refcnt k = 0 → sl_free (SBuf i) s
}.
Arguments bi_linked {s l}.
Arguments bi_uniq {s l} _ {i j k k' bno}.
Arguments bi_ref {s l} _ {i k}.
Arguments bi_clean {s l} _ {i k}.
Arguments bi_sleep {s l} _ {i k}.

(** The contents of block [bno] as the kernel sees it, and its reference count. *)
Definition bfind (bs : list buf) (bno : Z) : option buf :=
  i ← first (is_block bno) bs (seq 0 NBUF); bs !! i.
Definition bview (bs : list buf) (d : gmap Z (list Z)) (bno : Z) : list Z :=
  match bfind bs bno with
  | Some k => if b_valid k =? 0 then dblock d bno else b_data k
  | None => dblock d bno
  end.
Definition brefs (bs : list buf) (bno : Z) : Z :=
  match bfind bs bno with Some k => b_refcnt k | None => 0 end.

Lemma first_some P bs l i :
  first P bs l = Some i → i ∈ l ∧ ∃ k, bs !! i = Some k ∧ P k = true.
Proof.
  induction l as [|c l IH]; cbn; [done|]. destruct (bs !! c) as [k|] eqn:Hk; [|done].
  destruct (P k) eqn:HP.
  - intros [= <-]. split; [by left|]. by exists k.
  - intros [Hi Hex]%IH. split; [by right|done].
Qed.
Lemma first_none P bs l i k :
  (∀ j, j ∈ l → is_Some (bs !! j)) → first P bs l = None → i ∈ l → bs !! i = Some k → P k = false.
Proof.
  induction l as [|c l IH]; cbn; [by intros _ _ ?%elem_of_nil|]. intros Hd.
  destruct (Hd c) as [k' Hk']; [by left|]. rw Hk'. destruct (P k') eqn:HP; [done|].
  intros Hf [->|Hi]%elem_of_cons Hk; [congruence|]. apply IH; [|done..].
  intros j Hj. apply Hd. by right.
Qed.

Section cache.
Context (s : kstate) (l : list nat) (Hinv : bio_inv s l).

Lemma bufs_some i : (i < S NBUF)%nat → is_Some (k_bufs s !! i).
Proof. intros Hi. apply lookup_lt_is_Some. rw (li_len _ _ (bi_linked Hinv)). lia. Qed.

Lemma bfind_hit i k bno :
  (i < NBUF)%nat → k_bufs s !! i = Some k → is_block bno k = true → bfind (k_bufs s) bno = Some k.
Proof.
  intros Hi Hk Hb. unfold bfind. destruct (first _ _ _) as [j|] eqn:E.
  - apply first_some in E as (Hj%elem_of_seq & k' & Hk' & Hb'). cbn.
    assert (i = j) as <- by (eapply (bi_uniq Hinv); [done|lia|done..]). congruence.
  - assert (is_block bno k = false); [|congruence].
    eapply first_none; [|exact E| |done].
    + intros j Hj%elem_of_seq. apply bufs_some. lia.
    + apply elem_of_seq. lia.
Qed.

Lemma bfind_some bno k :
  bfind (k_bufs s) bno = Some k →
  ∃ i, (i < NBUF)%nat ∧ k_bufs s !! i = Some k ∧ is_block bno k = true.
Proof.
  unfold bfind. destruct (first _ _ _) as [j|] eqn:E; [|done]. cbn. intros Hk.
  apply first_some in E as (Hj%elem_of_seq & k' & Hk' & Hb').
  exists j. split_and!; [lia|done|congruence].
Qed.

Lemma bfind_none bno i k :
  bfind (k_bufs s) bno = None → (i < NBUF)%nat → k_bufs s !! i = Some k → is_block bno k = false.
Proof.
  intros E Hi Hk. destruct (is_block bno k) eqn:Hb; [|done].
  rw (bfind_hit i k) // in E.
Qed.

(** Looking a block up in the list gives the same buffer. *)
Lemma first_lru bno :
  match first (is_block bno) (k_bufs s) l with
  | Some i => (i < NBUF)%nat ∧ ∃ k, k_bufs s !! i = Some k ∧ bfind (k_bufs s) bno = Some k
  | None => bfind (k_bufs s) bno = None
  end.
Proof.
  pose proof (bi_linked Hinv) as Hl. destruct (first _ _ l) as [i|] eqn:E.
  - apply first_some in E as (Hi%(linked_elem _ _ _ Hl) & k & Hk & Hb).
    split; [done|]. exists k. split; [done|]. by eapply bfind_hit.
  - destruct (bfind (k_bufs s) bno) as [k|] eqn:Ef; [|done].
    apply bfind_some in Ef as (i & Hi & Hk & Hb).
    assert (is_block bno k = false); [|congruence]. eapply first_none; [|exact E| |done].
    + intros j Hj%(linked_elem _ _ _ Hl). apply bufs_some. lia.
    + by apply (linked_elem _ _ _ Hl).
Qed.

(** The buffer that [bget] recycles. *)
Lemma first_victim :
  (∃ i k, (i < NBUF)%nat ∧ k_bufs s !! i = Some k ∧ b_refcnt k = 0) →
  ∃ i k, first (λ k, b_refcnt k =? 0) (k_bufs s) (reverse l) = Some i ∧
    (i < NBUF)%nat ∧ k_bufs s !! i = Some k ∧ b_refcnt k = 0.
Proof.
  intros (i & k & Hi & Hk & Hr). pose proof (bi_linked Hinv) as Hl.
  destruct (first (λ k, b_refcnt k =? 0) (k_bufs s) (reverse l)) as [j|] eqn:E.
  - apply first_some in E as (Hj%elem_of_reverse%(linked_elem _ _ _ Hl) & k' & Hk' & Hr').
    exists j, k'. split_and!; [done|done|done|lia].
  - assert ((b_refcnt k =? 0) = false); [|lia].
    eapply (first_none (λ k, b_refcnt k =? 0)); [|exact E| |done].
    + intros j Hj%elem_of_reverse%(linked_elem _ _ _ Hl). apply bufs_some. lia.
    + apply elem_of_reverse. by apply (linked_elem _ _ _ Hl).
Qed.
End cache.

(** Replacing buffer [i], with its list pointers: what it does to the cache. *)
Lemma alter_to_insert (bs : list buf) i k f : bs !! i = Some k → alter f i bs = <[i := f k]> bs.
Proof. apply list_alter_insert. Qed.

Lemma linked_insert bs l i k k' :
  linked bs l → bs !! i = Some k → b_next k' = b_next k → b_prev k' = b_prev k →
  linked (<[i := k']> bs) l.
Proof.
  intros [Hs Hp Hlen] Hk Hn Hpv. split; [|done|by rw length_insert].
  eapply seg_frame; [..|exact Hs]; intros j _; [unfold nxt|unfold prv];
    (destruct (decide (i = j)) as [<-|]; [|by rw list_lookup_insert_ne]);
    rw list_lookup_insert_eq ?Hk //; by eapply lookup_lt_Some.
Qed.

(** Frame for [bfind]: replacing buffer [i] that is block [bno] before or
    recycled, and block [bno] after. *)
Lemma bfind_insert s l i k k' bno bno' :
  bio_inv s l → (i < NBUF)%nat → k_bufs s !! i = Some k → is_block bno k' = true →
  (∀ j kj, (j < NBUF)%nat → k_bufs s !! j = Some kj → is_block bno kj = true → j = i) →
  bfind (<[i := k']> (k_bufs s)) bno' =
    if decide (bno' = bno) then Some k'
    else if is_block bno' k then None else bfind (k_bufs s) bno'.
Proof.
  intros Hinv Hi Hk Hb Huniq. set (bs' := <[i := k']> (k_bufs s)).
  assert (Hlt : (i < length (k_bufs s))%nat) by by eapply lookup_lt_Some.
  assert (∀ j, is_Some (bs' !! j) ↔ is_Some (k_bufs s !! j)) as Hsome
    by (intros j; unfold bs'; by rw !lookup_lt_is_Some length_insert).
  assert (bs' !! i = Some k') as Hi' by (unfold bs'; by rw list_lookup_insert_eq).
  assert (∀ j, j ≠ i → bs' !! j = k_bufs s !! j) as Hj' by (intros j Hj; unfold bs'; by rw list_lookup_insert_ne).
  assert (∀ j, j ∈ seq 0 NBUF → is_Some (bs' !! j)) as Hall.
  { intros j Hj%elem_of_seq. apply Hsome. eapply bufs_some; [done|lia]. }
  unfold bfind at 1. destruct (first (is_block bno') bs' (seq 0 NBUF)) as [j|] eqn:E.
  - apply first_some in E as (Hj%elem_of_seq & kj & Hkj & Hbj). cbn. rw Hkj.
    destruct (decide (j = i)) as [->|Hji].
    + assert (kj = k') as -> by congruence.
      rw (is_block_inj bno' bno k') //. by rw decide_True.
    + rw Hj' // in Hkj. destruct (decide (bno' = bno)) as [->|Hne].
      { destruct Hji. eapply Huniq; [|done|done]. lia. }
      destruct (is_block bno' k) eqn:Hbk.
      { destruct Hji. eapply (bi_uniq Hinv); [|exact Hi|done..]. lia. }
      symmetry. eapply (bfind_hit s l Hinv j); [lia|done|done].
  - cbn. assert (∀ j kj, (j < NBUF)%nat → bs' !! j = Some kj → is_block bno' kj = false) as Hn.
    { intros j kj Hj Hkj. eapply first_none; [exact Hall|exact E| |done]. apply elem_of_seq. lia. }
    destruct (decide (bno' = bno)) as [->|Hne]; [rw (Hn i k') // in Hb|].
    destruct (is_block bno' k) eqn:Hbk; [done|].
    destruct (bfind (k_bufs s) bno') as [k2|] eqn:Ef; [|done].
    destruct (bfind_some s bno' k2 Ef) as (j & Hjlt & Hkj & Hbj).
    destruct (decide (j = i)) as [->|Hji]; [congruence|].
    rw (Hn j k2) // in Hbj. by rw Hj'.
Qed.

(** ** Specifications *)

(** Updates of the bufs with everything else unchanged. *)
Lemma upd_buf_insert s b k f :
  k_bufs s !! b = Some k → upd_buf b f s = Ret tt (set_k_bufs (<[b := f k]> (k_bufs s)) s).
Proof. intros Hk. unfold upd_buf, modify. by rw (list_alter_insert _ _ _ _ Hk). Qed.

Lemma disk_rw_read s b k :
  k_bufs s !! b = Some k →
  disk_rw b 0 s =
    Ret tt (set_k_bufs (<[b := set_b_data (dblock (k_disk s) (b_blockno k)) k]> (k_bufs s)) s).
Proof.
  intros Hk. unfold disk_rw. mstep (get_buf_spec s b k Hk). cbn [Z.eqb negb]. msimp.
  by apply upd_buf_insert.
Qed.
Lemma disk_rw_write s b k :
  k_bufs s !! b = Some k →
  disk_rw b 1 s = Ret tt (set_k_dtrace (k_dtrace s ++ [(b_blockno k, b_data k)])
                            (set_k_disk (<[b_blockno k := b_data k]> (k_disk s)) s)).
Proof. intros Hk. unfold disk_rw. by mstep (get_buf_spec s b k Hk). Qed.

(** [s] with buffer [b] replaced by [k] and its sleep-lock by [lk]. *)
Definition with_buf (s : kstate) (b : nat) (k : buf) (lk : sleeplock) : kstate :=
  set_k_bufs (<[b := k]> (k_bufs s)) (set_k_sleeplocks (<[SBuf b := lk]> (k_sleeplocks s)) s).

Lemma fsenv_with_buf p q s b k lk : fsenv p q s → fsenv p q (with_buf s b k lk).
Proof. intros He. by eapply fsenv_keep. Qed.

(** The end of both branches of [bget]: the buffer [b] has been set to [k]. *)
Lemma bget_finish p q s b k :
  fsenv p q s → (b < NBUF)%nat → sl_free (SBuf b) s →
  ∃ nm, (krelease LBcache ;; acquiresleep (SBuf b) ;; mret b)
      (set_k_bufs (<[b := k]> (k_bufs s)) (set_k_sync (acq LBcache (k_sync s)) s)) =
    Ret b (with_buf s b k (Sleeplock 1 nm (p_pid q))).
Proof.
  intros He Hb Hsl.
  destruct (acquiresleep_env p q (set_k_bufs (<[b := k]> (k_bufs s)) s) (SBuf b)) as [nm E].
  - by eapply fsenv_keep.
  - cbn. by rw bool_decide_true.
  - done.
  - exists nm. erewrite bind_Ret; [|by apply (krelease_acq LBcache _ (k_sync s)); [|apply He|apply He]].
    kcbn. replace (set_k_sync (k_sync s) _) with (set_k_bufs (<[b := k]> (k_bufs s)) s) by by destruct s.
    mstep E. done.
Qed.

Lemma bget_spec p q s l bno :
  fsenv p q s → bio_inv s l →
  (∀ i k, (i < NBUF)%nat → k_bufs s !! i = Some k → is_block bno k = true → sl_free (SBuf i) s) →
  (bfind (k_bufs s) bno ≠ None ∨ ∃ i k, (i < NBUF)%nat ∧ k_bufs s !! i = Some k ∧ b_refcnt k = 0) →
  ∃ b k0 k nm, (b < NBUF)%nat ∧ k_bufs s !! b = Some k0 ∧
    bget ROOTDEV bno s = Ret b (with_buf s b k (Sleeplock 1 nm (p_pid q))) ∧
    (bfind (k_bufs s) bno = Some k0 ∧ k = set_b_refcnt (b_refcnt k0 + 1) k0 ∨
     bfind (k_bufs s) bno = None ∧ b_refcnt k0 = 0 ∧
       k = set_b_refcnt 1 (set_b_valid 0 (set_b_blockno bno (set_b_dev ROOTDEV k0)))).
Proof.
  intros He Hinv Hsl Hav. unfold bget.
  pose proof (fe_locks He (l := LBcache) eq_refl) as Hfree.
  mstep (kacquire_free _ _ (fe_ok He) Hfree). set (s1 := set_k_sync _ s).
  destruct (bufs_some s l Hinv bhead) as [h Hh]; [unfold bhead; lia|].
  mstep (get_buf_spec s1 bhead h Hh).
  pose proof (bi_linked Hinv) as Hl.
  assert (b_next h = nxt (k_bufs s1) bhead) as -> by (unfold nxt; cbn; by rw Hh).
  assert (b_prev h = prv (k_bufs s1) bhead) as -> by (unfold prv; cbn; by rw Hh).
  erewrite bind_Ret; [|by apply (bscan_next s1 (is_block bno) l)].
  change (k_bufs s1) with (k_bufs s).
  pose proof (first_lru s l Hinv bno) as Hf. destruct (first (is_block bno) (k_bufs s) l) as [b|].
  - destruct Hf as (Hb & k0 & Hk0 & Hbf).
    assert (is_block bno k0 = true) as Hib.
    { apply bfind_some in Hbf as (i & Hi & Hki & Hbi). congruence. }
    erewrite bind_Ret; [|by apply upd_buf_insert]. cbv beta.
    pose proof (bi_ref Hinv Hb Hk0). rw u32_small; [|lia].
    destruct (bget_finish p q s b (set_b_refcnt (b_refcnt k0 + 1) k0) He Hb) as [nm E]; [by eapply Hsl|].
    exists b, k0, (set_b_refcnt (b_refcnt k0 + 1) k0), nm. split_and!; [done|done| |by left]. exact E.
  - destruct Hav as [|Hav]; [congruence|].
    destruct (first_victim s l Hinv Hav) as (b & k0 & Hv & Hb & Hk0 & Hr).
    erewrite bind_Ret; [|by apply (bscan_prev s1 _ l)]. change (k_bufs s1) with (k_bufs s). rw Hv.
    assert (b < length (k_bufs s))%nat as Hlt by by eapply lookup_lt_Some.
    do 4 (erewrite bind_Ret; [|apply upd_buf_insert; kcbn; rw ?list_lookup_insert_eq ?length_insert //]).
    kcbn. rw !list_insert_insert_eq.
    edestruct (bget_finish p q s b) as [nm E]; [done|done|by eapply (bi_sleep Hinv)|].
    eexists b, k0, _, nm. split_and!; [done|done|exact E|by right].
Qed.

(** What [bread] and the later operations know of the buffer they hold. *)
Record bholds (s : kstate) (q : proc) (b : nat) (bno : Z) (k : buf) : Prop := {
  bh_lt : (b < NBUF)%nat;
  bh_buf : k_bufs s !! b = Some k;
  bh_block : is_block bno k = true;
  bh_valid : b_valid k ≠ 0;
  bh_lock : ∃ nm, k_sleeplocks s !! SBuf b = Some (Sleeplock 1 nm (p_pid q))
}.

(** Conditions to read block [bno]: nobody holds it, and it is cached or a
    buffer is free. *)
Definition can_bread (s : kstate) (bno : Z) : Prop :=
  (∀ i k, (i < NBUF)%nat → k_bufs s !! i = Some k → is_block bno k = true → sl_free (SBuf i) s) ∧
  (bfind (k_bufs s) bno ≠ None ∨
   ∃ i k, (i < NBUF)%nat ∧ k_bufs s !! i = Some k ∧ b_refcnt k = 0) ∧
  brefs (k_bufs s) bno + 1 < 2 ^ 31.

Lemma is_block_fields bno k : is_block bno k = true ↔ b_dev k = ROOTDEV ∧ b_blockno k = bno.
Proof. unfold is_block. rw andb_true_iff !Z.eqb_eq. done. Qed.

Lemma bread_run p q s l bno :
  fsenv p q s → bio_inv s l → can_bread s bno →
  ∃ b k0 k nm, (b < NBUF)%nat ∧ k_bufs s !! b = Some k0 ∧
    bread ROOTDEV bno s = Ret b (with_buf s b k (Sleeplock 1 nm (p_pid q))) ∧
    (bfind (k_bufs s) bno = Some k0 ∨ bfind (k_bufs s) bno = None ∧ b_refcnt k0 = 0) ∧
    is_block bno k = true ∧ b_valid k ≠ 0 ∧ b_refcnt k = brefs (k_bufs s) bno + 1 ∧
    b_data k = bview (k_bufs s) (k_disk s) bno ∧ b_next k = b_next k0 ∧ b_prev k = b_prev k0.
Proof.
  intros He Hinv (Hsl & Hav & Href). unfold bread.
  destruct (bget_spec p q s l bno He Hinv Hsl Hav) as (b & k0 & k & nm & Hb & Hk0 & E & Hk).
  mstep E. set (s1 := with_buf s b k (Sleeplock 1 nm (p_pid q))).
  assert (b < length (k_bufs s))%nat as Hlt by by eapply lookup_lt_Some.
  assert (k_bufs s1 !! b = Some k) as Hk1 by (cbn; by rw list_lookup_insert_eq).
  mstep (get_buf_spec s1 b k Hk1).
  assert (is_block bno k = true) as Hib.
  { destruct Hk as [[Hf ->]|(_ & _ & ->)].
    - apply bfind_some in Hf as (i & _ & _ & Hbi). done.
    - by apply is_block_fields. }
  assert (b_refcnt k = brefs (k_bufs s) bno + 1 ∧ b_next k = b_next k0 ∧ b_prev k = b_prev k0 ∧
    (b_valid k ≠ 0 → b_data k = bview (k_bufs s) (k_disk s) bno) ∧
    (b_valid k = 0 → dblock (k_disk s) bno = bview (k_bufs s) (k_disk s) bno)) as (Hr & Hn & Hp & Hv1 & Hv0).
  { unfold brefs, bview. destruct Hk as [[Hf ->]|(Hf & Hr & ->)]; rw Hf; split_and!; try done; cbn.
    - intros Hv. destruct (Z.eqb_spec (b_valid k0) 0); [done|done].
    - intros ->. done. }
  assert (bfind (k_bufs s) bno = Some k0 ∨ bfind (k_bufs s) bno = None ∧ b_refcnt k0 = 0) as Hk'
    by naive_solver.
  destruct (Z.eqb_spec (b_valid k) 0) as [Hv|Hv]; cbn [whenM].
  - erewrite bind_assoc; [|by apply disk_rw_read].
    erewrite bind_Ret; [|apply upd_buf_insert; kcbn; by rw list_lookup_insert_eq; [|cbn; rw length_insert]].
    kcbn. rw list_insert_insert_eq. cbn. rw list_insert_insert_eq.
    apply is_block_fields in Hib as [Hdev Hbno]. rw Hbno.
    exists b, k0, (set_b_valid 1 (set_b_data (dblock (k_disk s) bno) k)), nm.
    split_and!; try done; cbn; [by apply is_block_fields|by rw Hv0].
  - exists b, k0, k, nm. split_and!; try done. by apply Hv1.
Qed.

(** [bread]: the block's contents are in the buffer, nothing else in the
    cache changed, and no block's contents did. *)
Lemma bread_spec p q s l bno :
  fsenv p q s → bio_inv s l → can_bread s bno →
  ∃ b k0 k nm, let s' := with_buf s b k (Sleeplock 1 nm (p_pid q)) in
    bread ROOTDEV bno s = Ret b s' ∧ bio_inv s' l ∧ bholds s' q b bno k ∧
    b_data k = bview (k_bufs s) (k_disk s) bno ∧
    k_bufs s !! b = Some k0 ∧ (is_block bno k0 = true ∨ b_refcnt k0 = 0) ∧
    b_refcnt k = brefs (k_bufs s) bno + 1 ∧
    (∀ bno', bview (k_bufs s') (k_disk s') bno' = bview (k_bufs s) (k_disk s) bno') ∧
    (∀ bno', brefs (k_bufs s') bno' =
       brefs (k_bufs s) bno' + if decide (bno' = bno) then 1 else 0).
Proof.
  intros He Hinv Hc. destruct (bread_run p q s l bno He Hinv Hc)
    as (b & k0 & k & nm & Hb & Hk0 & E & Hk & Hib & Hv & Hr & Hd & Hn & Hp).
  destruct Hc as (Hsl & _ & Href).
  assert (b < length (k_bufs s))%nat as Hlt by by eapply lookup_lt_Some.
  assert (∀ j kj, (j < NBUF)%nat → k_bufs s !! j = Some kj → is_block bno kj = true → j = b) as Huniq.
  { intros j kj Hj Hkj Hbj. destruct Hk as [Hf|[Hf _]].
    - apply bfind_some in Hf as (i & Hi & Hki & Hbi). eapply (bi_uniq Hinv); try done.
    - eapply bfind_none in Hf; [|done..]. congruence. }
  assert (is_block bno k0 = true ∨ b_refcnt k0 = 0) as Hk0'.
  { destruct Hk as [Hf|[_ ?]]; [left|by right]. by apply bfind_some in Hf as (? & _ & _ & ?). }
  pose proof (λ bno', bfind_insert s l b k0 k bno bno' Hinv Hb Hk0 Hib Huniq) as Hbf.
  assert (∀ bno', bno' ≠ bno → is_block bno' k0 = true → bfind (k_bufs s) bno' = Some k0 ∧ b_refcnt k0 = 0) as Hvict.
  { intros bno' Hne Hbk. split; [by eapply bfind_hit|].
    destruct Hk0' as [Hbk0|]; [|done]. by destruct Hne; eapply is_block_inj. }
  exists b, k0, k, nm. split; [done|]. split_and!; try done.
  - split.
    + cbn. by eapply linked_insert; [apply Hinv|..].
    + cbn. intros i j ki kj bno' Hi Hj [(<- & <- & _)|[Hib' Hki]]%list_lookup_insert_Some
        [(<- & <- & _)|[Hjb Hkj]]%list_lookup_insert_Some Hbi Hbj; try done.
      * symmetry. eapply Huniq; [done|done|]. by rewrite -> (is_block_inj bno bno' k).
      * eapply Huniq; [done|done|]. by rewrite -> (is_block_inj bno bno' k).
      * by eapply (bi_uniq Hinv).
    + cbn. intros i ki Hi [(<- & <- & _)|[Hib' Hki]]%list_lookup_insert_Some; [|by eapply (bi_ref Hinv)].
      rw Hr. split; [|done]. unfold brefs. destruct (bfind (k_bufs s) bno) as [k1|] eqn:Ef; [|lia].
      apply bfind_some in Ef as (i' & Hi' & Hki' & _). pose proof (bi_ref Hinv Hi' Hki'). lia.
    + cbn. intros i ki Hi [(<- & <- & _)|[Hib' Hki]]%list_lookup_insert_Some; [|by eapply (bi_clean Hinv)].
      intros E0. exfalso. rw Hr in E0. unfold brefs in E0.
      destruct (bfind (k_bufs s) bno) as [k1|] eqn:Ef; [|lia].
      apply bfind_some in Ef as (i' & Hi' & Hki' & _). pose proof (bi_ref Hinv Hi' Hki'). lia.
    + cbn. intros i ki Hi [(<- & <- & _)|[Hib' Hki]]%list_lookup_insert_Some E0.
      * exfalso. rw Hr in E0. unfold brefs in E0.
        destruct (bfind (k_bufs s) bno) as [k1|] eqn:Ef; [|lia].
        apply bfind_some in Ef as (i' & Hi' & Hki' & _). pose proof (bi_ref Hinv Hi' Hki'). lia.
      * destruct (bi_sleep Hinv Hi Hki E0) as (nm' & pid' & Hsl'). exists nm', pid'. cbn.
        rw lookup_insert_ne //. congruence.
  - split; try done; [cbn; by rw list_lookup_insert_eq|]. exists nm. cbn. by rw lookup_insert_eq.
  - intros bno'. cbn. unfold bview at 1. rw Hbf. destruct (decide (bno' = bno)) as [->|Hne].
    { destruct (Z.eqb_spec (b_valid k) 0); done. }
    destruct (is_block bno' k0) eqn:Hbk; [|done].
    destruct (Hvict bno' Hne Hbk) as [Hf Hr0]. unfold bview. rw Hf.
    destruct (Z.eqb_spec (b_valid k0) 0) as [|Hv0]; [done|].
    apply is_block_fields in Hbk as [Hdev <-]. symmetry. by eapply (bi_clean Hinv).
  - intros bno'. cbn. unfold brefs at 1. rw Hbf. destruct (decide (bno' = bno)) as [->|Hne]; [done|].
    destruct (is_block bno' k0) eqn:Hbk; [|unfold brefs; lia].
    destruct (Hvict bno' Hne Hbk) as [Hf Hr0]. unfold brefs. rw Hf. lia.
Qed.

(** *** Releasing a buffer *)

(** A buffer without its list pointers and the device's flag. *)
Definition content (k : buf) : Z * Z * Z * Z * list Z :=
  (b_valid k, b_dev k, b_blockno k, b_refcnt k, b_data k).

Lemma content_alter (bs : list buf) (i : nat) (f : buf → buf) :
  (∀ k, content (f k) = content k) → content <$> alter f i bs = content <$> bs.
Proof.
  intros Hf. apply list_eq. intros j. rw !list_lookup_fmap.
  destruct (decide (i = j)) as [<-|]; [|by rw list_lookup_alter_ne].
  rw list_lookup_alter_eq. destruct (bs !! i) as [k|]; [cbn; by rw Hf|done].
Qed.

Lemma content_relink b (bs : list buf) : content <$> relink b bs = content <$> bs.
Proof. unfold relink. by rw !content_alter. Qed.

Lemma content_lookup (bs bs' : list buf) i k :
  content <$> bs' = content <$> bs → bs !! i = Some k →
  ∃ k', bs' !! i = Some k' ∧ content k' = content k.
Proof.
  intros E Hk. apply (f_equal (λ x, x !! i)) in E. rw !list_lookup_fmap Hk in E.
  destruct (bs' !! i) as [k'|]; [|done]. exists k'. split; [done|]. by apply (inj Some) in E.
Qed.

Lemma first_content P (bs bs' : list buf) l :
  (∀ k k', content k = content k' → P k = P k') → content <$> bs' = content <$> bs →
  first P bs' l = first P bs l.
Proof.
  intros HP E. induction l as [|c l IH]; cbn; [done|].
  destruct (bs !! c) as [k|] eqn:Hk.
  - destruct (content_lookup _ _ _ _ E Hk) as (k' & -> & Ek). by rw (HP _ _ Ek) IH.
  - destruct (bs' !! c) as [k'|] eqn:Hk'; [|done].
    destruct (content_lookup bs' bs c k') as (k & Hk0 & _); [done|done|congruence].
Qed.

Lemma is_block_content bno k k' : content k = content k' → is_block bno k = is_block bno k'.
Proof. intros E. injection E as E1 E2 E3 E4 E5. unfold is_block. by rw E2 E3. Qed.

Lemma bfind_content bs bs' bno :
  content <$> bs' = content <$> bs → content <$> bfind bs' bno = content <$> bfind bs bno.
Proof.
  intros E. unfold bfind. rw (first_content _ bs bs'); [|apply is_block_content|done].
  destruct (first _ bs _) as [i|]; [|done]. cbn.
  apply (f_equal (λ x, x !! i)) in E. by rw !list_lookup_fmap in E.
Qed.

Lemma bview_content bs bs' d bno : content <$> bs' = content <$> bs → bview bs' d bno = bview bs d bno.
Proof.
  intros E%(bfind_content _ _ bno). unfold bview.
  destruct (bfind bs' bno), (bfind bs bno); try done. injection E as -> _ _ _ ->. done.
Qed.
Lemma brefs_content bs bs' bno : content <$> bs' = content <$> bs → brefs bs' bno = brefs bs bno.
Proof.
  intros E%(bfind_content _ _ bno). unfold brefs.
  destruct (bfind bs' bno), (bfind bs bno); try done. injection E as _ _ _ -> _. done.
Qed.

Lemma bio_inv_content s bs' l l' :
  bio_inv s l → content <$> bs' = content <$> k_bufs s → linked bs' l' →
  bio_inv (set_k_bufs bs' s) l'.
Proof.
  intros [Hl Hu Hr Hc Hs] E Hl'. symmetry in E.
  split; [done|kcbn..].
  - intros i j k k' bno Hi Hj Hk Hk' Hb Hb'.
    destruct (content_lookup _ _ _ _ E Hk) as (k1 & Hk1 & E1).
    destruct (content_lookup _ _ _ _ E Hk') as (k2 & Hk2 & E2).
    eapply (Hu i j k1 k2 bno); try done; [by rewrite -> (is_block_content _ _ _ E1)|by rewrite -> (is_block_content _ _ _ E2)].
  - intros i k Hi Hk. destruct (content_lookup _ _ _ _ E Hk) as (k1 & Hk1 & E1).
    injection E1 as _ _ _ <- _. by eapply Hr.
  - intros i k Hi Hk. destruct (content_lookup _ _ _ _ E Hk) as (k1 & Hk1 & E1).
    injection E1 as <- <- <- <- <-. by eapply Hc.
  - intros i k Hi Hk. destruct (content_lookup _ _ _ _ E Hk) as (k1 & Hk1 & E1).
    injection E1 as _ _ _ <- _. by eapply Hs.
Qed.

(** The list code of [brelse] is [relink]. *)
Lemma relink_run s b l :
  linked (k_bufs s) l → (b < NBUF)%nat →
  (k ← get_buf b;
   upd_buf (b_next k) (set_b_prev (b_prev k)) ;;
   k ← get_buf b;
   upd_buf (b_prev k) (set_b_next (b_next k)) ;;
   h ← get_buf bhead;
   upd_buf b (set_b_next (b_next h)) ;;
   upd_buf b (set_b_prev bhead) ;;
   h ← get_buf bhead;
   upd_buf (b_next h) (set_b_prev b) ;;
   upd_buf bhead (set_b_next b)) s = Ret tt (set_k_bufs (relink b (k_bufs s)) s).
Proof.
  intros [_ _ Hlen] Hb. unfold relink, upd_buf.
  assert (∀ s' i, length (k_bufs s') = S NBUF → (i ≤ NBUF)%nat →
    ∃ k, get_buf i s' = Ret k s' ∧ b_next k = nxt (k_bufs s') i ∧ b_prev k = prv (k_bufs s') i) as Hget.
  { intros s' i Hl Hi. destruct (lookup_lt_is_Some_2 (k_bufs s') i) as [k Hk]; [lia|].
    exists k. unfold nxt, prv. rw Hk. split_and!; [by apply get_buf_spec|done|done]. }
  destruct (Hget s b) as (k & E & Hn & Hp); [done|lia|]. mstep E. rw Hn Hp. msimp.
  set (bs1 := alter _ _ (k_bufs s)).
  destruct (Hget (set_k_bufs bs1 s) b) as (k1 & E1 & Hn1 & Hp1); [kcbn; unfold bs1; by rw length_alter|lia|].
  mstep E1. rw Hn1 Hp1. kcbn. msimp. kcbn. set (bs2 := alter _ _ bs1).
  replace (set_k_bufs bs2 (set_k_bufs bs1 s)) with (set_k_bufs bs2 s) by by destruct s.
  assert (length bs2 = S NBUF) as Hl2 by (unfold bs2, bs1; by rw !length_alter).
  destruct (Hget (set_k_bufs bs2 s) bhead) as (h & E2 & Hn2 & _); [done|unfold bhead; lia|].
  mstep E2. rw Hn2. kcbn. msimp. kcbn. set (bs4 := alter (set_b_prev bhead) b _).
  set (s4 := set_k_bufs bs4 _). assert (s4 = set_k_bufs bs4 s) as -> by (unfold s4; by destruct s).
  destruct (Hget (set_k_bufs bs4 s) bhead) as (h4 & E4 & Hn4 & _);
    [kcbn; unfold bs4; by rw !length_alter|unfold bhead; lia|].
  mstep E4. rw Hn4. kcbn. msimp. unfold modify. kcbn. by destruct s.
Qed.

Lemma filter_id {A} (P : A → Prop) `{∀ x, Decision (P x)} (l : list A) :
  (∀ x, x ∈ l → P x) → filter P l = l.
Proof.
  induction l as [|x l IH]; intros Hl; [done|]. rw filter_cons_True; [|apply Hl; by left].
  f_equal. apply IH. intros y Hy. apply Hl. by right.
Qed.

(** Replacing the contents of a buffer that is held. *)
Section held.
Context (s : kstate) (l : list nat) (q : proc) (b : nat) (bno : Z) (k : buf).
Context (Hinv : bio_inv s l) (Hh : bholds s q b bno k).

Lemma held_uniq j kj : (j < NBUF)%nat → k_bufs s !! j = Some kj → is_block bno kj = true → j = b.
Proof.
  intros Hj Hkj Hbj. eapply (bi_uniq Hinv); [done|apply Hh|done|apply (bh_buf _ _ _ _ _ Hh)|done|apply Hh].
Qed.

Lemma held_lock : fs_lock (sl_lk (SBuf b)) = true.
Proof. cbn. by rw bool_decide_true; [|apply Hh]. Qed.

Lemma held_bfind : bfind (k_bufs s) bno = Some k.
Proof. eapply bfind_hit; [done|apply Hh..]. Qed.

Lemma held_bfind_insert k' bno' :
  is_block bno k' = true →
  bfind (<[b := k']> (k_bufs s)) bno' =
    if decide (bno' = bno) then Some k' else bfind (k_bufs s) bno'.
Proof.
  intros Hk'. erewrite bfind_insert; [|done|apply Hh|apply Hh|done|apply held_uniq].
  destruct (decide (bno' = bno)) as [|Hne]; [done|]. destruct (is_block bno' k) eqn:E; [|done].
  destruct Hne. eapply is_block_inj; [done|apply Hh].
Qed.

Lemma set_held k' :
  is_block bno k' = true → b_valid k' ≠ 0 → b_next k' = b_next k → b_prev k' = b_prev k →
  0 < b_refcnt k' < 2 ^ 31 →
  let s' := set_k_bufs (<[b := k']> (k_bufs s)) s in
  bio_inv s' l ∧ bholds s' q b bno k' ∧
  (∀ bno', bview (k_bufs s') (k_disk s') bno' =
     if decide (bno' = bno) then b_data k' else bview (k_bufs s) (k_disk s) bno') ∧
  (∀ bno', brefs (k_bufs s') bno' =
     if decide (bno' = bno) then b_refcnt k' else brefs (k_bufs s) bno').
Proof.
  intros Hib Hv Hn Hp Hr s'. pose proof (bh_buf _ _ _ _ _ Hh) as Hk.
  assert (b < length (k_bufs s))%nat as Hlt by by eapply lookup_lt_Some.
  split_and!.
  - split; unfold s'; kcbn.
    + by eapply linked_insert; [apply Hinv|..].
    + intros i j ki kj bno' Hi Hj [(<- & <- & _)|[Hi' Hki]]%list_lookup_insert_Some
        [(<- & <- & _)|[Hj' Hkj]]%list_lookup_insert_Some Hbi Hbj; [done|..].
      * symmetry. eapply held_uniq; [done|done|]. by rewrite -> (is_block_inj bno bno' k').
      * eapply held_uniq; [done|done|]. by rewrite -> (is_block_inj bno bno' k').
      * by eapply (bi_uniq Hinv).
    + intros i ki Hi [(<- & <- & _)|[Hi' Hki]]%list_lookup_insert_Some; [lia|by eapply (bi_ref Hinv)].
    + intros i ki Hi [(<- & <- & _)|[Hi' Hki]]%list_lookup_insert_Some; [lia|by eapply (bi_clean Hinv)].
    + intros i ki Hi [(<- & <- & _)|[Hi' Hki]]%list_lookup_insert_Some E0; [lia|].
      exact (bi_sleep Hinv Hi Hki E0).
  - split; try done; [apply Hh|unfold s'; kcbn; by rw list_lookup_insert_eq|apply Hh].
  - intros bno'. unfold s', bview. kcbn. rw held_bfind_insert //.
    destruct (decide (bno' = bno)); [|done]. by destruct (Z.eqb_spec (b_valid k') 0).
  - intros bno'. unfold s', brefs. kcbn. rw held_bfind_insert //. by destruct (decide (bno' = bno)).
Qed.

(** [bwrite]: the disk block is the buffer, no block's contents change. *)
Lemma bwrite_spec p :
  fsenv p q s →
  let s' := set_k_dtrace (k_dtrace s ++ [(bno, b_data k)])
              (set_k_disk (<[bno := b_data k]> (k_disk s)) s) in
  bwrite b s = Ret tt s' ∧ bio_inv s' l ∧ bholds s' q b bno k ∧
  (∀ bno', bview (k_bufs s') (k_disk s') bno' = bview (k_bufs s) (k_disk s) bno').
Proof.
  intros He s'. pose proof (bh_buf _ _ _ _ _ Hh) as Hk.
  destruct (proj1 (is_block_fields bno k) (bh_block _ _ _ _ _ Hh)) as [Hdev Hbno].
  assert (∀ bno', bno' ≠ bno → dblock (k_disk s') bno' = dblock (k_disk s) bno') as Hd.
  { intros bno' Hne. unfold s', dblock. kcbn. by rw lookup_insert_ne. }
  split_and!.
  - unfold bwrite. destruct (bh_lock _ _ _ _ _ Hh) as [nm Hsl].
    mstep (holdingsleep_env p q s (SBuf b) nm He held_lock Hsl). cbn [Z.eqb].
    rw (disk_rw_write _ _ _ Hk). by rw Hbno.
  - split; unfold s'; kcbn; [apply Hinv|intros i j k1 k2 bno1; apply (bi_uniq Hinv)|intros i ki; apply (bi_ref Hinv)| |].
    + intros i ki Hi Hki Hr Hdv Hv. destruct (decide (b_blockno ki = bno)) as [E|Hne].
      * assert (i = b) as -> by (eapply held_uniq; [done|done|by apply is_block_fields]).
        unfold dblock. rw E lookup_insert_eq. cbn. congruence.
      * rw (bi_clean Hinv Hi Hki Hr Hdv Hv). symmetry. by apply Hd.
    + intros i ki Hi Hki Hr. exact (bi_sleep Hinv Hi Hki Hr).
  - destruct Hh. by split.
  - intros bno'. unfold bview. change (k_bufs s') with (k_bufs s).
    destruct (decide (bno' = bno)) as [->|Hne]; [|by rw Hd].
    rw held_bfind. destruct (Z.eqb_spec (b_valid k) 0); [|done]. by destruct (bh_valid _ _ _ _ _ Hh).
Qed.

(** [brelse]: the lock is free, the count is one less and no contents change,
    provided the last user leaves the buffer equal to the disk. *)
Lemma brelse_spec p :
  fsenv p q s → 0 < b_refcnt k →
  (b_refcnt k = 1 → b_data k = dblock (k_disk s) bno) →
  ∃ l' bs' nm, let s' := set_k_bufs bs' (set_k_sleeplocks (<[SBuf b := Sleeplock 0 nm 0]> (k_sleeplocks s)) s) in
    brelse b s = Ret tt s' ∧ bio_inv s' l' ∧
    (l' = if b_refcnt k =? 1 then b :: filter (λ i, i ≠ b) l else l) ∧
    (∀ bno', bview (k_bufs s') (k_disk s') bno' = bview (k_bufs s) (k_disk s) bno') ∧
    (∀ bno', brefs (k_bufs s') bno' =
       brefs (k_bufs s) bno' - if decide (bno' = bno) then 1 else 0) ∧
    content <$> bs' = content <$> <[b := set_b_refcnt (b_refcnt k - 1) k]> (k_bufs s).
Proof.
  intros He Hr Hcl. pose proof (bh_buf _ _ _ _ _ Hh) as Hk. pose proof (bh_lt _ _ _ _ _ Hh) as Hb.
  destruct (proj1 (is_block_fields bno k) (bh_block _ _ _ _ _ Hh)) as [Hdev Hbno].
  assert (b < length (k_bufs s))%nat as Hlt by by eapply lookup_lt_Some.
  pose proof (bi_ref Hinv Hb Hk) as Hrb.
  destruct (bh_lock _ _ _ _ _ Hh) as [nm Hsl].
  set (k1 := set_b_refcnt (b_refcnt k - 1) k).
  set (s1 := set_k_sleeplocks (<[SBuf b := Sleeplock 0 nm 0]> (k_sleeplocks s)) s).
  set (s2 := set_k_bufs (<[b := k1]> (k_bufs s)) s1).
  assert (bio_inv s2 l) as Hinv2.
  { split; unfold s2, s1; kcbn.
    - by eapply linked_insert; [apply Hinv|done|..].
    - intros i j ki kj bno' Hi Hj [(<- & <- & _)|[Hi' Hki]]%list_lookup_insert_Some
        [(<- & <- & _)|[Hj' Hkj]]%list_lookup_insert_Some Hbi Hbj; [done|..];
        by eapply (bi_uniq Hinv).
    - intros i ki Hi [(<- & <- & _)|[Hi' Hki]]%list_lookup_insert_Some; [cbn; lia|by eapply (bi_ref Hinv)].
    - intros i ki Hi [(<- & <- & _)|[Hi' Hki]]%list_lookup_insert_Some; [|by eapply (bi_clean Hinv)].
      cbn. intros. rw Hbno. apply Hcl. lia.
    - intros i ki Hi [(<- & <- & _)|[Hi' Hki]]%list_lookup_insert_Some E0.
      + exists nm, 0. kcbn. by rw lookup_insert_eq.
      + destruct (bi_sleep Hinv Hi Hki E0) as (nm' & pid' & Hsl'). exists nm', pid'. kcbn.
        rw lookup_insert_ne //. congruence. }
  assert (∀ bs', content <$> bs' = content <$> <[b := k1]> (k_bufs s) →
    (∀ bno', bview bs' (k_disk s) bno' = bview (k_bufs s) (k_disk s) bno') ∧
    (∀ bno', brefs bs' bno' = brefs (k_bufs s) bno' - if decide (bno' = bno) then 1 else 0)) as Hview.
  { intros bs' E. split; intros bno'.
    - rw (bview_content _ _ _ _ E). unfold bview. rw held_bfind_insert; [|apply Hh].
      destruct (decide (bno' = bno)) as [->|]; [|done]. by rw held_bfind.
    - rw (brefs_content _ _ _ E). unfold brefs. rw held_bfind_insert; [|apply Hh].
      destruct (decide (bno' = bno)) as [->|]; [by rw held_bfind|lia]. }
  unfold brelse. mstep (holdingsleep_env p q s (SBuf b) nm He held_lock Hsl). cbn [Z.eqb].
  mstep (releasesleep_env p q s (SBuf b) _ He held_lock Hsl). cbn [sl_name].
  assert (fsenv p q s1) as He1 by by eapply fsenv_keep.
  pose proof (fe_locks He1 (l := LBcache) eq_refl) as Hfree.
  mstep (kacquire_free _ _ (fe_ok He1) Hfree).
  erewrite bind_Ret; [|by apply upd_buf_insert]. cbv beta. rw u32_small; [|lia].
  erewrite bind_Ret; [|apply get_buf_spec; kcbn; by rw list_lookup_insert_eq]. cbv beta. cbn [b_refcnt set_b_refcnt].
  destruct (Z.eqb_spec (b_refcnt k) 1) as [Hr1|Hr1].
  - replace (b_refcnt k - 1 =? 0) with true by lia. cbn [whenM].
    erewrite bind_Ret; [|by eapply (relink_run _ b l); [apply (bi_linked Hinv2)|]]. kcbn.
    erewrite krelease_acq; [|done|apply He1|done]. fold k1.
    assert (b ∈ l) as (l1 & l2 & ->)%list_elem_of_split by by apply (linked_elem _ _ _ (bi_linked Hinv)).
    pose proof (linked_nodup _ _ (bi_linked Hinv)) as (Hnd1 & Hn1 & (Hnl2 & Hnd2)%NoDup_cons)%NoDup_app.
    pose proof (content_relink b (<[b := k1]> (k_bufs s))) as Ec.
    exists (b :: l1 ++ l2), (relink b (<[b := k1]> (k_bufs s))), nm. split_and!.
    + by destruct s.
    + apply (bio_inv_content s2 _ (l1 ++ b :: l2)); [done|done|]. by apply relink_linked, Hinv2.
    + f_equal. rw filter_app filter_cons_False; [|naive_solver]. f_equal; symmetry;
        apply filter_id; intros x Hx ->; [by apply (Hn1 b); [|left]|done].
    + apply (Hview _ Ec).
    + apply (Hview _ Ec).
    + exact Ec.
  - replace (b_refcnt k - 1 =? 0) with false by lia. cbn [whenM]. msimp.
    erewrite krelease_acq; [|done|apply He1|done]. fold k1.
    exists l, (<[b := k1]> (k_bufs s)), nm. split_and!; [by destruct s|done|done|apply Hview|apply Hview|]; done.
Qed.
End held.

Lemma brefs_nonneg s l bno : bio_inv s l → 0 ≤ brefs (k_bufs s) bno.
Proof.
  intros Hinv. unfold brefs. destruct (bfind (k_bufs s) bno) as [k|] eqn:E; [|lia].
  apply bfind_some in E as (i & Hi & Hk & _). by apply (bi_ref Hinv Hi Hk).
Qed.

(** A block nobody uses is what the disk holds. *)
Lemma bview_unref s l bno :
  bio_inv s l → brefs (k_bufs s) bno = 0 → bview (k_bufs s) (k_disk s) bno = dblock (k_disk s) bno.
Proof.
  intros Hinv. unfold brefs, bview. destruct (bfind (k_bufs s) bno) as [k|] eqn:E; [|done].
  apply bfind_some in E as (i & Hi & Hk & [Hdev <-]%is_block_fields). intros Hr.
  destruct (Z.eqb_spec (b_valid k) 0) as [|Hv]; [done|]. by apply (bi_clean Hinv Hi Hk).
Qed.

(** *** The three ways the file system uses a buffer *)
Section uses.
Context (p : nat) (q : proc) (s : kstate) (l : list nat) (bno : Z).
Context (He : fsenv p q s) (Hinv : bio_inv s l) (Hc : can_bread s bno).

(** Reading a block through the cache. [bread] returns a buffer with the
    current contents of the block, from the cache or from the disk, and
    [brelse] gives it back: the contents and the reference count of every
    block, and the disk, are as before. *)
Theorem bread_release {A} (f : buf → A) :
  ∃ s' l' k, (b ← bread ROOTDEV bno; k ← get_buf b; brelse b ;; mret (f k)) s = Ret (f k) s' ∧
    b_data k = bview (k_bufs s) (k_disk s) bno ∧ bio_inv s' l' ∧
    (∀ bno', bview (k_bufs s') (k_disk s') bno' = bview (k_bufs s) (k_disk s) bno') ∧
    (∀ bno', brefs (k_bufs s') bno' = brefs (k_bufs s) bno') ∧
    k_disk s' = k_disk s ∧ k_dtrace s' = k_dtrace s.
Proof.
  destruct (bread_spec p q s l bno He Hinv Hc)
    as (b & k0 & k & nm & E & Hinv1 & Hh & Hd & _ & _ & Hr & Hv & Hn).
  mstep E. set (s1 := with_buf s b k _) in *.
  mstep (get_buf_spec s1 b k (bh_buf _ _ _ _ _ Hh)).
  assert (fsenv p q s1) as He1 by by apply fsenv_with_buf.
  pose proof (brefs_nonneg s l bno Hinv) as Hr0.
  destruct (brelse_spec s1 l q b bno k Hinv1 Hh p He1) as (l' & bs' & nm' & E2 & Hinv2 & _ & Hv2 & Hn2 & _); [lia| |].
  { intros Hr1. rw Hd. apply (bview_unref s l); [done|lia]. }
  mstep E2. eexists _, l', k. split_and!; [done|done|exact Hinv2|..].
  - intros bno'. rw Hv2. apply Hv.
  - intros bno'. rw Hn2 Hn. destruct (decide (bno' = bno)); lia.
  - done.
  - done.
Qed.

(** C30. Writing a block through the cache. Reading a block, changing its data,
    writing it and releasing it changes the contents of that block and of no
    other, and writes exactly that block to the disk. *)
Theorem bread_write_release (f : list Z → list Z) :
  let d := f (bview (k_bufs s) (k_disk s) bno) in
  ∃ s' l', (b ← bread ROOTDEV bno; upd_buf b (λ k, set_b_data (f (b_data k)) k) ;;
            bwrite b ;; brelse b) s = Ret tt s' ∧ bio_inv s' l' ∧
    (∀ bno', bview (k_bufs s') (k_disk s') bno' =
       if decide (bno' = bno) then d else bview (k_bufs s) (k_disk s) bno') ∧
    (∀ bno', brefs (k_bufs s') bno' = brefs (k_bufs s) bno') ∧
    k_disk s' = <[bno := d]> (k_disk s) ∧ k_dtrace s' = k_dtrace s ++ [(bno, d)].
Proof.
  destruct (bread_spec p q s l bno He Hinv Hc)
    as (b & k0 & k & nm & E & Hinv1 & Hh & Hd & _ & _ & Hr & Hv & Hn).
  mstep E. set (s1 := with_buf s b k _) in *.
  erewrite bind_Ret; [|by apply upd_buf_insert, Hh]. cbv beta. rw Hd.
  set (k1 := set_b_data _ k).
  pose proof (brefs_nonneg s l bno Hinv) as Hr0. pose proof (bi_ref Hinv1 (bh_lt _ _ _ _ _ Hh) (bh_buf _ _ _ _ _ Hh)).
  destruct (set_held s1 l q b bno k Hinv1 Hh k1) as (Hinv2 & Hh2 & Hv2 & Hn2); [apply Hh|apply Hh|done|done|cbn; lia|].
  set (s2 := set_k_bufs _ s1) in *. assert (fsenv p q s2) as He2 by by eapply fsenv_keep.
  destruct (bwrite_spec s2 l q b bno k1 Hinv2 Hh2 p He2) as (E3 & Hinv3 & Hh3 & Hv3).
  mstep E3. set (s3 := set_k_dtrace _ _) in *. assert (fsenv p q s3) as He3 by by eapply fsenv_keep.
  destruct (brelse_spec s3 l q b bno k1 Hinv3 Hh3 p He3) as (l' & bs' & nm' & E4 & Hinv4 & _ & Hv4 & Hn4 & _).
  { cbn; lia. }
  { intros _. unfold s3, dblock. kcbn. by rw lookup_insert_eq. }
  eexists _, l'. split_and!; [exact E4|exact Hinv4|..].
  - intros bno'. rw Hv4 Hv3 Hv2. destruct (decide (bno' = bno)); [done|apply Hv].
  - intros bno'. rw Hn4. change (k_bufs s3) with (k_bufs s2). rw Hn2 Hn.
    destruct (decide (bno' = bno)) as [->|]; [cbn|]; lia.
  - done.
  - done.
Qed.
End uses.

(** ** Booting the cache *)

Lemma get_buf_links s i :
  length (k_bufs s) = S NBUF → (i ≤ NBUF)%nat →
  ∃ k, get_buf i s = Ret k s ∧ b_next k = nxt (k_bufs s) i ∧ b_prev k = prv (k_bufs s) i.
Proof.
  intros Hl Hi. destruct (lookup_lt_is_Some_2 (k_bufs s) i) as [k Hk]; [lia|].
  exists k. unfold nxt, prv. rw Hk. split_and!; [by apply get_buf_spec|done|done].
Qed.

(** What initialising buffer [b] leaves. *)
Definition init_buf (b : nat) (s : kstate) : kstate :=
  set_k_sleeplocks (<[SBuf b := Sleeplock 0 "buffer" 0]> (k_sleeplocks s))
    (set_k_sync (set_locks (<[sl_lk (SBuf b) := Spinlock 0 "sleep lock" None]> (locks (k_sync s))) (k_sync s))
       (set_k_bufs (push b (k_bufs s)) s)).

Lemma initsleeplock_run l nm s :
  initsleeplock l nm s =
    Ret tt (set_k_sleeplocks (<[l := Sleeplock 0 nm 0]> (k_sleeplocks s))
      (set_k_sync (set_locks (<[sl_lk l := Spinlock 0 "sleep lock" None]> (locks (k_sync s))) (k_sync s)) s)).
Proof. reflexivity. Qed.

Lemma binit_body s b :
  length (k_bufs s) = S NBUF → (b < NBUF)%nat →
  (h ← get_buf bhead;
   upd_buf b (set_b_next (b_next h)) ;;
   upd_buf b (set_b_prev bhead) ;;
   initsleeplock (SBuf b) "buffer" ;;
   h ← get_buf bhead;
   upd_buf (b_next h) (set_b_prev b) ;;
   upd_buf bhead (set_b_next b)) s = Ret tt (init_buf b s).
Proof.
  intros Hlen Hb. unfold upd_buf.
  destruct (get_buf_links s bhead) as (h & E & Hn & _); [done|unfold bhead; lia|]. mstep E. rw Hn. msimp.
  kcbn. erewrite bind_Ret; [|apply initsleeplock_run]. kcbn. set (bs4 := alter (set_b_prev bhead) b _).
  match goal with |- (_ ≫= _) ?s4 = _ =>
    destruct (get_buf_links s4 bhead) as (h4 & E4 & Hn4 & _); [|unfold bhead; lia|] end.
  { kcbn. unfold bs4. by rw !length_alter. }
  mstep E4. rw Hn4. kcbn. msimp. unfold modify. kcbn. by destruct s.
Qed.

(** The buffers of a booting kernel: all of them are zeroed. *)
Definition zeroed (bs : list buf) : Prop :=
  length bs = S NBUF ∧ ∀ i k, bs !! i = Some k → b_refcnt k = 0 ∧ b_dev k = 0.

Lemma zeroed_content bs bs' : content <$> bs' = content <$> bs → zeroed bs → zeroed bs'.
Proof.
  intros E [Hlen Hz]. split; [by rewrite <- (length_fmap content), E, length_fmap|].
  intros i k Hk. destruct (content_lookup _ _ _ _ (eq_sym E) Hk) as (k1 & Hk1 & E1).
  injection E1 as _ <- _ <- _. by apply (Hz i).
Qed.

Lemma binit_loop (n : nat) : ∀ a s,
  (a + n = NBUF)%nat → length (k_bufs s) = S NBUF →
  seg (nxt (k_bufs s)) (prv (k_bufs s)) bhead (reverse (seq 0 a)) bhead →
  let s' := foldl (λ s b, init_buf b s) s (seq a n) in
  eachM (seq a n) (λ b,
    h ← get_buf bhead;
    upd_buf b (set_b_next (b_next h)) ;;
    upd_buf b (set_b_prev bhead) ;;
    initsleeplock (SBuf b) "buffer" ;;
    h ← get_buf bhead;
    upd_buf (b_next h) (set_b_prev b) ;;
    upd_buf bhead (set_b_next b)) s = Ret tt s' ∧
  seg (nxt (k_bufs s')) (prv (k_bufs s')) bhead (reverse (seq 0 NBUF)) bhead ∧
  content <$> k_bufs s' = content <$> k_bufs s ∧
  (∀ i, (a ≤ i < NBUF)%nat → sl_free (SBuf i) s') ∧
  (∀ i, sl_free (SBuf i) s → sl_free (SBuf i) s').
Proof.
  induction n as [|n IH]; intros a s Han Hlen Hs s'.
  { replace a with NBUF in Hs by lia. split_and!; try done. lia. }
  cbn [seq eachM]. mstep (binit_body s a Hlen ltac:(lia)). cbn [seq foldl] in s'.
  destruct (IH (S a) (init_buf a s)) as (E & Hs' & Hc & Hf & Hk); [lia|by kcbn; rw length_push|..].
  { unfold init_buf. kcbn. rw seq_S reverse_snoc.
    apply push_seg; try done; [rewrite -> reverse_Permutation; apply NoDup_seq| | | |]; rw ?elem_of_reverse ?elem_of_seq.
    - lia.
    - unfold bhead. lia.
    - unfold bhead. lia.
    - intros i. rw elem_of_reverse elem_of_seq Hlen. unfold bhead. lia. }
  assert (∀ i, i = a ∨ sl_free (SBuf i) s → sl_free (SBuf i) (init_buf a s)) as Hi.
  { intros i Hi. unfold sl_free, init_buf. kcbn. destruct (decide (i = a)) as [->|Hne].
    - exists "buffer"%string, 0. by rw lookup_insert_eq.
    - destruct Hi as [?|Hi]; [done|]. rw lookup_insert_ne; [|congruence]. exact Hi. }
  split_and!; [exact E|exact Hs'| | |].
  - etrans; [exact Hc|]. unfold init_buf, push. kcbn. by rw !content_alter.
  - intros i Hr. destruct (decide (i = a)) as [->|]; [apply Hk, Hi; by left|apply Hf; lia].
  - intros i Hr. apply Hk, Hi. by right.
Qed.

Lemma push_head bs : length bs = S NBUF →
  let bs' := alter (set_b_next bhead) bhead (alter (set_b_prev bhead) bhead bs) in
  seg (nxt bs') (prv bs') bhead [] bhead ∧ content <$> bs' = content <$> bs.
Proof.
  intros Hlen bs'. assert (bhead < length bs)%nat by (unfold bhead; lia).
  unfold bs'. cbn [seg]. rw nxt_set_next ?length_alter // prv_keep // prv_set_prev // !upd_eq !content_alter //.
Qed.

Lemma init_bufs_keep {A} (f : kstate → A) l : ∀ s,
  (∀ b s, f (init_buf b s) = f s) → f (foldl (λ s b, init_buf b s) s l) = f s.
Proof. induction l as [|b l IH]; intros s Hf; [done|]. cbn. rw IH //. Qed.

Lemma zeroed_unblock bs bno i k : zeroed bs → bs !! i = Some k → is_block bno k = false.
Proof. intros [_ Hz] Hk. unfold is_block. destruct (Hz i k Hk) as [_ ->]. done. Qed.

Lemma zeroed_inv s l :
  zeroed (k_bufs s) → linked (k_bufs s) l → (∀ i, (i < NBUF)%nat → sl_free (SBuf i) s) →
  bio_inv s l ∧ ∀ bno, bfind (k_bufs s) bno = None.
Proof.
  intros Hz Hl Hf. split.
  - split; [done|..].
    + intros i j k k' bno _ _ Hk _ Hb. by rw (zeroed_unblock _ _ _ _ Hz Hk) in Hb.
    + intros i k _ Hk. rw (proj1 (proj2 Hz i k Hk)). lia.
    + intros i k _ Hk _ Hd. rw (proj2 (proj2 Hz i k Hk)) in Hd. done.
    + intros i k Hi _ _. by apply Hf.
  - intros bno. destruct (bfind (k_bufs s) bno) as [k|] eqn:E; [|done].
    unfold bfind in E. destruct (first _ _ _) as [i|] eqn:Ef; [|done].
    destruct (first_some _ _ _ _ Ef) as (_ & k1 & Hk1 & Hb).
    by rw (zeroed_unblock _ _ _ _ Hz Hk1) in Hb.
Qed.

(** Booting the buffer cache: from zeroed memory, [binit] returns with
    every buffer on the LRU list once, none referenced, all unlocked: the
    invariant under which every other operation of the cache is specified. *)
Theorem binit_ok s :
  zeroed (k_bufs s) →
  ∃ s', binit s = Ret tt s' ∧ bio_inv s' (reverse (seq 0 NBUF)) ∧
    (∀ i, (i < NBUF)%nat → sl_free (SBuf i) s') ∧
    (∀ bno, brefs (k_bufs s') bno = 0) ∧
    (∀ bno, bview (k_bufs s') (k_disk s') bno = dblock (k_disk s) bno).
Proof.
  intros Hz. destruct (push_head (k_bufs s) (proj1 Hz)) as [Hs Hc].
  unfold binit. erewrite bind_Ret; [|unfold kinitlock, sy, zoom, initlock, put_lock; reflexivity].
  cbn [ozoom]. unfold upd_buf. msimp. kcbn.
  set (s1 := set_k_bufs (alter (set_b_next bhead) bhead (alter (set_b_prev bhead) bhead (k_bufs s))) _).
  assert (zeroed (k_bufs s1)) as Hz1 by by eapply zeroed_content.
  destruct (binit_loop NBUF 0 s1) as (E & Hs2 & Hc2 & Hf & _); [done|apply Hz1|exact Hs|].
  set (s2 := foldl _ s1 _) in *. exists s2. split; [exact E|].
  assert (zeroed (k_bufs s2)) as Hz2 by by eapply zeroed_content.
  assert (∀ i, (i < NBUF)%nat → sl_free (SBuf i) s2) as Hf2 by (intros i Hi; apply Hf; lia).
  destruct (zeroed_inv s2 (reverse (seq 0 NBUF)) Hz2) as [Hinv Hno].
  { split; [exact Hs2|apply reverse_Permutation|apply Hz2]. }
  { exact Hf2. }
  assert (k_disk s2 = k_disk s) as Ed by (unfold s2; by rw (init_bufs_keep k_disk)).
  unfold brefs, bview. split_and!; try done; intros bno; rw Hno ?Ed //.
Qed.

(** *** The state of a booted kernel, for the witnesses *)

Definition zero_bufs : list buf := replicate (S NBUF) (Buf 0 0 0 0 0 O O zero_block).
Definition boot_bufs : list buf :=
  foldl (λ bs b, push b bs)
    (alter (set_b_next bhead) bhead (alter (set_b_prev bhead) bhead zero_bufs)) (seq 0 NBUF).
Definition kst2 : kstate := set_k_bufs boot_bufs kst1.

Lemma fsenv_kst2 : fsenv 0 (proc1 0) kst2.
Proof.
  split.
  - exact cpu_ok_sync1.
  - by eexists.
  - exact procs_free_kst1.
  - reflexivity.
  - done.
  - intros l Hl. apply sync1_free. unfold all_locks. rw !elem_of_app.
    destruct l; try done; try (left; set_solver); apply bool_decide_eq_true in Hl; right; right.
    + left. apply list_elem_of_fmap. eexists. split; [done|]. apply elem_of_seq. lia.
    + right. apply list_elem_of_fmap. eexists. split; [done|]. apply elem_of_seq. lia.
  - intros i k ch Hk Hst. change (k_procs kst2) with (proc1 <$> seq 0 NPROC) in Hk.
    rw list_lookup_fmap in Hk. destruct (seq 0 NPROC !! i) as [j|]; [|done].
    injection Hk as <-. cbn in Hst. by destruct (decide (j = O)).
Qed.

Lemma zeroed_repl : zeroed zero_bufs.
Proof. split; [by vm_compute|]. intros i k [-> _]%lookup_replicate. done. Qed.

Lemma boot_bufs_ok : zeroed boot_bufs ∧ linked boot_bufs (reverse (seq 0 NBUF)).
Proof.
  assert (zeroed boot_bufs) as Hz by (eapply zeroed_content; [|exact zeroed_repl]; by vm_compute).
  split; [exact Hz|]. split; [by vm_compute; repeat split|apply reverse_Permutation|by vm_compute].
Qed.

Lemma sl_free_kst1 i : (i < NBUF)%nat → sl_free (SBuf i) kst1.
Proof.
  intros Hi. exists "lock"%string, 0. apply list_to_map_const. apply elem_of_app. left.
  apply list_elem_of_fmap. exists i. split; [done|]. apply elem_of_seq. lia.
Qed.

(** Any kernel state with the caches of boot time. *)
Lemma bio_inv_boot s :
  k_bufs s = boot_bufs → k_sleeplocks s = k_sleeplocks kst1 →
  bio_inv s (reverse (seq 0 NBUF)) ∧ (∀ bno, bfind (k_bufs s) bno = None) ∧
  ∀ i, (i < NBUF)%nat → sl_free (SBuf i) s.
Proof.
  intros Eb Es. assert (∀ i, (i < NBUF)%nat → sl_free (SBuf i) s) as Hf.
  { intros i Hi. unfold sl_free. rewrite -> Es. by apply sl_free_kst1. }
  destruct boot_bufs_ok as [Hz Hl]. rewrite <- Eb in Hz, Hl.
  destruct (zeroed_inv s _ Hz Hl Hf) as [Hinv Hno]. split; [exact Hinv|]. split; [exact Hno|exact Hf].
Qed.

Lemma bio_inv_kst2 :
  bio_inv kst2 (reverse (seq 0 NBUF)) ∧ (∀ bno, bfind (k_bufs kst2) bno = None) ∧
  ∀ i, (i < NBUF)%nat → sl_free (SBuf i) kst2.
Proof. by apply bio_inv_boot. Qed.

Lemma can_bread_kst2 bno : can_bread kst2 bno.
Proof.
  destruct bio_inv_kst2 as (Hinv & Hno & Hf). split_and!.
  - intros i k Hi _ _. by apply Hf.
  - right. eexists O, _. split_and!; [by vm_compute; lia|by vm_compute|by vm_compute].
  - unfold brefs. by rw Hno.
Qed.

Lemma binit_ok_witness :
  ∃ s', binit (set_k_bufs zero_bufs kst1) = Ret tt s' ∧ bio_inv s' (reverse (seq 0 NBUF)).
Proof.
  destruct (binit_ok (set_k_bufs zero_bufs kst1)) as (s' & E & Hi & _).
  - exact zeroed_repl.
  - exists s'. split; [exact E|exact Hi].
Defined.

Lemma bread_release_witness :
  ∃ s' k, (b ← bread ROOTDEV 45; k ← get_buf b; brelse b ;; mret (b_data k)) kst2 = Ret (b_data k) s' ∧
    b_data k = zero_block.
Proof.
  destruct (bread_release 0 (proc1 0) kst2 (reverse (seq 0 NBUF)) 45 fsenv_kst2
    (proj1 bio_inv_kst2) (can_bread_kst2 45) b_data) as (s' & l' & k & E & Hd & _).
  exists s', k. split; [exact E|]. rewrite -> Hd. reflexivity.
Defined.

Lemma bread_write_release_witness :
  ∃ s', (b ← bread ROOTDEV 45; upd_buf b (λ k, set_b_data (<[0%nat := 7]> (b_data k)) k) ;;
         bwrite b ;; brelse b) kst2 = Ret tt s' ∧
    k_dtrace s' = [(45, <[0%nat := 7]> zero_block)].
Proof.
  destruct (bread_write_release 0 (proc1 0) kst2 (reverse (seq 0 NBUF)) 45 fsenv_kst2
    (proj1 bio_inv_kst2) (can_bread_kst2 45) (λ d, <[0%nat := 7]> d)) as (s' & l' & E & _ & _ & _ & _ & Ht).
  exists s'. split; [exact E|]. rewrite -> Ht. reflexivity.
Defined.
