(* ===== verification/Cache.v ===== *)
(** * What the buffer cache promises

    The specifications of the operations of [Bio] in the form that the log and
    the file system use them. A thread sees the cache as the contents of the
    blocks ([view]) and the number of references to them ([refs]); the
    buffers it holds are a set [H], and [holds s q b bno d r] says that
    process [q] holds buffer [b] with the data [d] of block [bno]. *)

From S2P Require Import Prelude Riscv KState Spinlock KString Kalloc Vm Sched Layout Bio.
Open Scope Z_scope.

Definition view (s : kstate) (bno : Z) : list Z := bview (k_bufs s) (k_disk s) bno.
Definition refs (s : kstate) (bno : Z) : Z := brefs (k_bufs s) bno.
(** The reference counts of the buffers. *)
Definition rcs (s : kstate) : list Z := b_refcnt <$> k_bufs s.
Definition has_free (s : kstate) : Prop := ∃ i, (i < NBUF)%nat ∧ rcs s !! i = Some 0.

Definition holds (s : kstate) (q : proc) (b : nat) (bno : Z) (d : list Z) (r : Z) : Prop :=
  ∃ k, bholds s q b bno k ∧ b_data k = d ∧ b_refcnt k = r.

(** The cache is consistent, and every buffer outside [H] is unlocked. *)
Record benv (p : nat) (q : proc) (s : kstate) (H : gset nat) : Prop := {
  be_env : fsenv p q s;
  be_inv : ∃ l, bio_inv s l;
  be_free i : (i < NBUF)%nat → i ∉ H → sl_free (SBuf i) s;
  be_ref i r : i ∈ H → rcs s !! i = Some r → 0 < r
}.
#[global] Arguments be_env {p q s H}.
#[global] Arguments be_inv {p q s H}.
#[global] Arguments be_free {p q s H} _ {i}.
#[global] Arguments be_ref {p q s H} _ {i r}.

(** Only the cache, its sleep-locks and the disk may differ. *)
Definition bio_frame (s s' : kstate) : Prop :=
  ∃ bs sl dk tr, s' = set_k_dtrace tr (set_k_disk dk (set_k_sleeplocks sl (set_k_bufs bs s))).

Lemma bio_frame_of s s' :
  s' = set_k_dtrace (k_dtrace s') (set_k_disk (k_disk s')
         (set_k_sleeplocks (k_sleeplocks s') (set_k_bufs (k_bufs s') s))) → bio_frame s s'.
Proof. intros E. by exists (k_bufs s'), (k_sleeplocks s'), (k_disk s'), (k_dtrace s'). Qed.
Lemma bio_frame_refl s : bio_frame s s.
Proof. exists (k_bufs s), (k_sleeplocks s), (k_disk s), (k_dtrace s). by destruct s. Qed.
Lemma bio_frame_trans s1 s2 s3 : bio_frame s1 s2 → bio_frame s2 s3 → bio_frame s1 s3.
Proof. intros (? & ? & ? & ? & ->) (bs & sl & dk & tr & ->). by exists bs, sl, dk, tr. Qed.

Lemma bio_frame_env p q s s' : bio_frame s s' → fsenv p q s → fsenv p q s'.
Proof. intros (? & ? & ? & ? & ->) He. by eapply fsenv_keep. Qed.
Lemma bio_frame_log s s' : bio_frame s s' → k_log s' = k_log s.
Proof. by intros (? & ? & ? & ? & ->). Qed.

(** A buffer whose contents and lock are unchanged is still held. *)
Lemma holds_frame s s' q b bno d r :
  content <$> (k_bufs s' !! b) = content <$> (k_bufs s !! b) →
  k_sleeplocks s' !! SBuf b = k_sleeplocks s !! SBuf b →
  holds s q b bno d r → holds s' q b bno d r.
Proof.
  intros Ec Es (k & [Hlt Hk Hib Hv Hl] & <- & <-). rw Hk in Ec.
  destruct (k_bufs s' !! b) as [k'|] eqn:Hk'; [|done]. apply (inj Some) in Ec.
  assert (is_block bno k' = true) by (by rewrite -> (is_block_content bno _ _ Ec)).
  injection Ec as Ev _ _ Er Ed. exists k'. split_and!; [|done|done]. split; try done; [congruence|].
  by rw Es.
Qed.

Lemma holds_block s q b bno d r k :
  holds s q b bno d r → k_bufs s !! b = Some k → is_block bno k = true.
Proof. intros (k' & Hh & _) Hk. rw (bh_buf _ _ _ _ _ Hh) in Hk. injection Hk as <-. apply Hh. Qed.

Lemma holds_lt s q b bno d r : holds s q b bno d r → (b < NBUF)%nat.
Proof. intros (k & Hh & _). apply Hh. Qed.

(** Two buffers that hold different blocks are different. *)
Lemma holds_ne s q b bno d r b' bno' d' r' :
  holds s q b bno d r → holds s q b' bno' d' r' → bno ≠ bno' → b ≠ b'.
Proof.
  intros Hh (k' & Hk' & _) Hne <-. pose proof (holds_block _ _ _ _ _ _ k' Hh (bh_buf _ _ _ _ _ Hk')).
  destruct Hne. eapply is_block_inj; [done|apply Hk'].
Qed.

Lemma holds_view s q b bno d r l : bio_inv s l → holds s q b bno d r → view s bno = d ∧ refs s bno = r.
Proof.
  intros Hinv (k & Hh & <- & <-). unfold view, refs, bview, brefs.
  rw (held_bfind s l q b bno k Hinv Hh). split; [|done].
  destruct (Z.eqb_spec (b_valid k) 0); [|done]. by destruct (bh_valid _ _ _ _ _ Hh).
Qed.

Lemma rcs_lookup s i k : k_bufs s !! i = Some k → rcs s !! i = Some (b_refcnt k).
Proof. intros Hk. unfold rcs. by rw list_lookup_fmap Hk. Qed.

Lemma rcs_insert (bs : list buf) b k0 k f :
  bs !! b = Some k0 → b_refcnt k = f (b_refcnt k0) →
  b_refcnt <$> <[b := k]> bs = alter f b (b_refcnt <$> bs).
Proof.
  intros Hk E. rw list_fmap_insert E. symmetry. apply list_alter_insert. by rw list_lookup_fmap Hk.
Qed.

Section ops.
Context (p : nat) (q : proc) (s : kstate) (H : gset nat).
Context (He : benv p q s H).

Lemma bread_ok bno :
  (∀ b k, b ∈ H → k_bufs s !! b = Some k → is_block bno k = false) →
  (refs s bno ≠ 0 ∨ has_free s) → refs s bno + 1 < 2 ^ 31 →
  ∃ b s', bread ROOTDEV bno s = Ret b s' ∧ benv p q s' ({[b]} ∪ H) ∧ (b ∉ H) ∧
    holds s' q b bno (view s bno) (refs s bno + 1) ∧
    (∀ bno', view s' bno' = view s bno') ∧
    (∀ bno', refs s' bno' = refs s bno' + if decide (bno' = bno) then 1 else 0) ∧
    (∀ b' bno' d r, b' ≠ b → holds s q b' bno' d r → holds s' q b' bno' d r) ∧
    bio_frame s s' ∧ k_disk s' = k_disk s ∧ k_dtrace s' = k_dtrace s ∧
    rcs s' = alter (λ r, r + 1) b (rcs s).
Proof.
  intros Hnh Hav Hr. destruct He as [Henv [l Hinv] Hfree Href].
  assert (can_bread s bno) as Hc.
  { split_and!; [|destruct Hav as [Hav|(i & Hi & Hri)]|done].
    - intros i k Hi Hk Hib. apply Hfree; [done|]. intros HiH. by rw (Hnh i k HiH Hk) in Hib.
    - left. intros E. apply Hav. unfold refs, brefs. by rw E.
    - right. unfold rcs in Hri. rw list_lookup_fmap in Hri.
      destruct (k_bufs s !! i) as [k|] eqn:Hk; [|done]. injection Hri as Hri. by exists i, k. }
  destruct (bread_spec p q s l bno Henv Hinv Hc)
    as (b & k0 & k & nm & E & Hinv1 & Hh & Hd & Hk0 & Hk0' & Hrk & Hv & Hn).
  pose proof (bh_lt _ _ _ _ _ Hh) as Hb.
  assert (b_refcnt k = b_refcnt k0 + 1) as Hrk0.
  { rw Hrk. f_equal. destruct Hk0' as [Hib|Hr0].
    - unfold brefs. by rw (bfind_hit s l Hinv b k0 bno Hb Hk0 Hib).
    - rw Hr0. destruct (is_block bno k0) eqn:Hib.
      { unfold brefs. by rw (bfind_hit s l Hinv b k0 bno Hb Hk0 Hib). }
      destruct (bfind (k_bufs s) bno) as [k1|] eqn:Ef; [|by unfold brefs; rw Ef].
      apply bfind_some in Ef as (i & Hi & Hki & Hib1).
      assert (i ≠ b) by (intros ->; congruence).
      exfalso. apply (bfind_hit _ _ Hinv1 i k1) in Hib1 as Hf; [|done|cbn; by rw list_lookup_insert_ne].
      rw (held_bfind _ _ _ _ _ _ Hinv1 Hh) in Hf. injection Hf as ->.
      assert (i = b); [|done]. eapply (bi_uniq Hinv1); [done|done| |apply Hh|done|done].
      cbn. by rw list_lookup_insert_ne. }
  assert (b ∉ H) as HbH.
  { intros HbH. destruct Hk0' as [Hib|Hr0]; [rw (Hnh b k0 HbH Hk0) in Hib; done|].
    pose proof (Href b _ HbH (rcs_lookup _ _ _ Hk0)). lia. }
  set (s' := with_buf s b k _) in *.
  assert (rcs s' = alter (λ r, r + 1) b (rcs s)) as Hrcs by (unfold rcs, s'; cbn; by eapply rcs_insert).
  exists b, s'. split_and!; try done.
  - split; [by apply fsenv_with_buf|by exists l|..].
    + intros i Hi HiH. destruct (Hfree i Hi) as (nm' & pid' & Hsl); [set_solver|]. exists nm', pid'.
      unfold s'. cbn. rw lookup_insert_ne //. intros [= <-]. set_solver.
    + intros i r Hi. rw Hrcs. destruct (decide (i = b)) as [->|Hne].
      * rw list_lookup_alter_eq (rcs_lookup _ _ _ Hk0). intros [= <-].
        pose proof (bi_ref Hinv Hb Hk0). lia.
      * rw list_lookup_alter_ne //. apply Href. set_solver.
  - exists k. split_and!; [done|exact Hd|exact Hrk].
  - intros b' bno' d r Hne. apply holds_frame; unfold s'; cbn.
    + by rw list_lookup_insert_ne.
    + rw lookup_insert_ne //. congruence.
  - apply bio_frame_of. unfold s', with_buf. by destruct s.
Qed.

Lemma bwrite_ok b bno d r :
  holds s q b bno d r →
  ∃ s', bwrite b s = Ret tt s' ∧ benv p q s' H ∧ holds s' q b bno d r ∧
    (∀ bno', view s' bno' = view s bno') ∧ (∀ bno', refs s' bno' = refs s bno') ∧
    (∀ b' bno' d r, holds s q b' bno' d r → holds s' q b' bno' d r) ∧
    bio_frame s s' ∧ k_disk s' = <[bno := d]> (k_disk s) ∧
    k_dtrace s' = k_dtrace s ++ [(bno, d)] ∧ rcs s' = rcs s.
Proof.
  intros (k & Hh & <- & <-). destruct He as [Henv [l Hinv] Hfree Href].
  destruct (bwrite_spec s l q b bno k Hinv Hh p Henv) as (E & Hinv1 & Hh1 & Hv).
  eexists. split; [exact E|]. split_and!; try done.
  - split; [by eapply fsenv_keep|by exists l|exact Hfree|exact Href].
  - by exists k.
  - intros b' bno' d r. by apply holds_frame.
  - apply bio_frame_of. by destruct s.
Qed.

(** Changing the data of a buffer that is held. *)
Lemma set_data_ok b bno d r d' :
  holds s q b bno d r → b ∈ H →
  ∃ s', upd_buf b (set_b_data d') s = Ret tt s' ∧ benv p q s' H ∧ holds s' q b bno d' r ∧
    (∀ bno', view s' bno' = if decide (bno' = bno) then d' else view s bno') ∧
    (∀ bno', refs s' bno' = refs s bno') ∧
    (∀ b' bno' d r, b' ≠ b → holds s q b' bno' d r → holds s' q b' bno' d r) ∧
    bio_frame s s' ∧ k_disk s' = k_disk s ∧ k_dtrace s' = k_dtrace s ∧ rcs s' = rcs s.
Proof.
  intros (k & Hh & <- & <-) HbH. destruct He as [Henv [l Hinv] Hfree Href].
  pose proof (bh_buf _ _ _ _ _ Hh) as Hk. pose proof (bi_ref Hinv (bh_lt _ _ _ _ _ Hh) Hk).
  pose proof (Href b _ HbH (rcs_lookup _ _ _ Hk)) as Hpos.
  destruct (set_held s l q b bno k Hinv Hh (set_b_data d' k)) as (Hinv1 & Hh1 & Hv & Hn);
    [apply Hh|apply Hh|done|done|cbn; lia|].
  set (s' := set_k_bufs (<[b := set_b_data d' k]> (k_bufs s)) s) in *.
  assert (rcs s' = rcs s) as Hrcs.
  { unfold rcs, s'. kcbn. erewrite (rcs_insert _ b k _ id); [|done|done].
    by eapply list_alter_same; [by rw list_lookup_fmap Hk|]. }
  exists s'. split_and!; try done.
  - by apply upd_buf_insert.
  - split; [by eapply fsenv_keep|by exists l|exact Hfree|by rw Hrcs].
  - by exists (set_b_data d' k).
  - intros bno'. unfold refs. rw Hn. destruct (decide (bno' = bno)) as [->|]; [|done].
    unfold brefs. by rw (held_bfind s l q b bno k Hinv Hh).
  - intros b' bno' d r Hne. apply holds_frame; [|done]. unfold s'. kcbn. by rw list_lookup_insert_ne.
  - apply bio_frame_of. unfold s'. by destruct s.
Qed.

(** Changing the reference count of a buffer that is held. *)
Lemma set_ref_ok b bno d r r' :
  holds s q b bno d r → 0 < r' < 2 ^ 31 →
  ∃ s', upd_buf b (set_b_refcnt r') s = Ret tt s' ∧ benv p q s' H ∧ holds s' q b bno d r' ∧
    (∀ bno', view s' bno' = view s bno') ∧
    (∀ bno', refs s' bno' = if decide (bno' = bno) then r' else refs s bno') ∧
    (∀ b' bno' d r, b' ≠ b → holds s q b' bno' d r → holds s' q b' bno' d r) ∧
    s' = set_k_bufs (k_bufs s') s ∧ rcs s' = <[b := r']> (rcs s).
Proof.
  intros (k & Hh & <- & <-) Hr'. destruct He as [Henv [l Hinv] Hfree Href].
  pose proof (bh_buf _ _ _ _ _ Hh) as Hk.
  destruct (set_held s l q b bno k Hinv Hh (set_b_refcnt r' k)) as (Hinv1 & Hh1 & Hv & Hn);
    [apply Hh|apply Hh|done|done|done|].
  set (s' := set_k_bufs (<[b := set_b_refcnt r' k]> (k_bufs s)) s) in *.
  assert (rcs s' = <[b := r']> (rcs s)) as Hrcs by (unfold rcs, s'; kcbn; by rw list_fmap_insert).
  exists s'. split_and!; try done.
  - by apply upd_buf_insert.
  - split; [by eapply fsenv_keep|by exists l|exact Hfree|]. intros i r Hi. rw Hrcs.
    intros [(<- & <- & _)|[Hne Hl]]%list_lookup_insert_Some; [lia|by eapply Href].
  - by exists (set_b_refcnt r' k).
  - intros bno'. unfold view. rw Hv. destruct (decide (bno' = bno)) as [->|]; [|done].
    unfold bview. rw (held_bfind s l q b bno k Hinv Hh).
    destruct (Z.eqb_spec (b_valid k) 0); [|done]. by destruct (bh_valid _ _ _ _ _ Hh).
  - intros b' bno' d r Hne. apply holds_frame; [|done]. unfold s'. kcbn. by rw list_lookup_insert_ne.
Qed.

Lemma brelse_ok b bno d r :
  holds s q b bno d r → b ∈ H → (r = 1 → d = dblock (k_disk s) bno) →
  ∃ s', brelse b s = Ret tt s' ∧ benv p q s' (H ∖ {[b]}) ∧
    (∀ bno', view s' bno' = view s bno') ∧
    (∀ bno', refs s' bno' = refs s bno' - if decide (bno' = bno) then 1 else 0) ∧
    (∀ b' bno' d r, b' ≠ b → holds s q b' bno' d r → holds s' q b' bno' d r) ∧
    bio_frame s s' ∧ k_disk s' = k_disk s ∧ k_dtrace s' = k_dtrace s ∧
    rcs s' = alter (λ r, r - 1) b (rcs s).
Proof.
  intros (k & Hh & <- & <-) HbH Hcl. destruct He as [Henv [l Hinv] Hfree Href].
  pose proof (bh_buf _ _ _ _ _ Hh) as Hk.
  pose proof (Href b _ HbH (rcs_lookup _ _ _ Hk)) as Hpos.
  destruct (brelse_spec s l q b bno k Hinv Hh p Henv Hpos Hcl)
    as (l' & bs' & nm & E & Hinv1 & _ & Hv & Hn & Hc).
  set (s' := set_k_bufs bs' _) in *.
  assert (rcs s' = alter (λ r, r - 1) b (rcs s)) as Hrcs.
  { unfold rcs, s'. kcbn. apply (f_equal (fmap (λ c : Z * Z * Z * Z * list Z, c.1.2))) in Hc.
    rw -!list_fmap_compose in Hc. etrans; [exact Hc|]. by eapply rcs_insert. }
  exists s'. split_and!; try done.
  - split; [by eapply fsenv_keep|by exists l'|..].
    + intros i Hi HiH. destruct (decide (i = b)) as [->|Hne].
      * exists nm, 0. unfold s'. kcbn. by rw lookup_insert_eq.
      * destruct (Hfree i Hi) as (nm' & pid' & Hsl); [set_solver|]. exists nm', pid'.
        unfold s'. kcbn. rw lookup_insert_ne //. congruence.
    + intros i r [Hi Hib]%elem_of_difference. rw Hrcs list_lookup_alter_ne; [|set_solver].
      by apply Href.
  - intros b' bno' d r Hne. apply holds_frame; unfold s'; kcbn.
    + apply (f_equal (λ x, x !! b')) in Hc. rw !list_lookup_fmap list_lookup_insert_ne // in Hc.
    + rw lookup_insert_ne //. congruence.
  - apply bio_frame_of. unfold s'. by destruct s.
Qed.

(** [bpin] and [bunpin] of a buffer that is held. *)
Lemma pin_ok (f : Z → Z) b bno d r :
  holds s q b bno d r → 0 < u32 (f r) < 2 ^ 31 →
  ∃ s', (kacquire LBcache ;; upd_buf b (λ k, set_b_refcnt (u32 (f (b_refcnt k))) k) ;; krelease LBcache) s
      = Ret tt s' ∧ benv p q s' H ∧ holds s' q b bno d (u32 (f r)) ∧
    (∀ bno', view s' bno' = view s bno') ∧
    (∀ bno', refs s' bno' = if decide (bno' = bno) then u32 (f r) else refs s bno') ∧
    (∀ b' bno' d r, b' ≠ b → holds s q b' bno' d r → holds s' q b' bno' d r) ∧
    bio_frame s s' ∧ k_disk s' = k_disk s ∧ k_dtrace s' = k_dtrace s ∧
    rcs s' = <[b := u32 (f r)]> (rcs s).
Proof.
  intros Hh Hr. destruct (set_ref_ok b bno d r _ Hh Hr) as (s' & E & He' & Hh' & Hv & Hn & Ho & Es & Hrcs).
  exists s'. destruct Hh as (k & Hb & <- & <-). pose proof (bh_buf _ _ _ _ _ Hb) as Hk.
  rw (upd_buf_insert s b k) // in E. injection E as E.
  split_and!; try done.
  - pose proof (be_env He) as Henv. pose proof (fe_locks Henv (l := LBcache) eq_refl) as Hfree.
    mstep (kacquire_free _ _ (fe_ok Henv) Hfree).
    erewrite bind_Ret; [|by apply upd_buf_insert]. cbv beta.
    erewrite krelease_acq; [|done|apply Henv|done]. rw -E. by destruct s.
  - apply bio_frame_of. rw {1}Es. rw -E. by destruct s.
  - rw -E. done.
  - rw -E. done.
Qed.

Lemma bpin_ok b bno d r :
  holds s q b bno d r → 0 < r + 1 < 2 ^ 31 →
  ∃ s', bpin b s = Ret tt s' ∧ benv p q s' H ∧ holds s' q b bno d (r + 1) ∧
    (∀ bno', view s' bno' = view s bno') ∧
    (∀ bno', refs s' bno' = if decide (bno' = bno) then r + 1 else refs s bno') ∧
    (∀ b' bno' d r, b' ≠ b → holds s q b' bno' d r → holds s' q b' bno' d r) ∧
    bio_frame s s' ∧ k_disk s' = k_disk s ∧ k_dtrace s' = k_dtrace s ∧
    rcs s' = <[b := r + 1]> (rcs s).
Proof.
  intros Hh Hr. pose proof (pin_ok (λ r, r + 1) b bno d r Hh) as Hp. cbv beta in Hp.
  rw u32_small in Hp; [|lia]. unfold bpin. apply Hp. lia.
Qed.

Lemma bunpin_ok b bno d r :
  holds s q b bno d r → 0 < r - 1 < 2 ^ 31 →
  ∃ s', bunpin b s = Ret tt s' ∧ benv p q s' H ∧ holds s' q b bno d (r - 1) ∧
    (∀ bno', view s' bno' = view s bno') ∧
    (∀ bno', refs s' bno' = if decide (bno' = bno) then r - 1 else refs s bno') ∧
    (∀ b' bno' d r, b' ≠ b → holds s q b' bno' d r → holds s' q b' bno' d r) ∧
    bio_frame s s' ∧ k_disk s' = k_disk s ∧ k_dtrace s' = k_dtrace s ∧
    rcs s' = <[b := r - 1]> (rcs s).
Proof.
  intros Hh Hr. pose proof (pin_ok (λ r, r - 1) b bno d r Hh) as Hp. cbv beta in Hp.
  rw u32_small in Hp; [|lia]. unfold bunpin. apply Hp. lia.
Qed.
End ops.

Lemma bpin_run s b k :
  cpu_ok (k_sync s) → lock_free LBcache (k_sync s) → k_bufs s !! b = Some k →
  bpin b s = Ret tt (set_k_bufs (<[b := set_b_refcnt (u32 (b_refcnt k + 1)) k]> (k_bufs s)) s).
Proof.
  intros Hok Hfree Hk. unfold bpin. mstep (kacquire_free _ _ Hok Hfree).
  erewrite bind_Ret; [|by apply upd_buf_insert]. cbv beta.
  erewrite krelease_acq; [|done|done|done]. by destruct s.
Qed.

Lemma get_held s q b bno d r :
  holds s q b bno d r → ∃ k, get_buf b s = Ret k s ∧ b_data k = d ∧ b_refcnt k = r ∧ b_blockno k = bno.
Proof.
  intros (k & Hh & Hd & Hr). exists k. split_and!; [by apply get_buf_spec, Hh|done|done|].
  by apply is_block_fields, Hh.
Qed.

(** With no buffer held, reading needs only room in the cache. *)
Lemma bread_ok0 p q s bno :
  benv p q s ∅ → (refs s bno ≠ 0 ∨ has_free s) → refs s bno + 1 < 2 ^ 31 →
  ∃ b s', bread ROOTDEV bno s = Ret b s' ∧ benv p q s' {[b]} ∧
    holds s' q b bno (view s bno) (refs s bno + 1) ∧
    (∀ bno', view s' bno' = view s bno') ∧
    (∀ bno', refs s' bno' = refs s bno' + if decide (bno' = bno) then 1 else 0) ∧
    bio_frame s s' ∧ k_disk s' = k_disk s ∧ k_dtrace s' = k_dtrace s ∧
    rcs s' = alter (λ r, r + 1) b (rcs s).
Proof.
  intros He Hav Hr. destruct (bread_ok p q s ∅ He bno) as (b & s' & E & He' & _ & Hh & Hv & Hn & _ & Hf);
    [set_solver|done|done|]. exists b, s'. rw right_id_L in He'. naive_solver.
Qed.

(** Reading a second block while a buffer is held. *)
Lemma bread_ok1 p q s b1 bno1 d1 r1 bno :
  benv p q s {[b1]} → holds s q b1 bno1 d1 r1 → bno ≠ bno1 →
  (refs s bno ≠ 0 ∨ has_free s) → refs s bno + 1 < 2 ^ 31 →
  ∃ b s', bread ROOTDEV bno s = Ret b s' ∧ benv p q s' ({[b]} ∪ {[b1]}) ∧ b ≠ b1 ∧
    holds s' q b bno (view s bno) (refs s bno + 1) ∧ holds s' q b1 bno1 d1 r1 ∧
    (∀ bno', view s' bno' = view s bno') ∧
    (∀ bno', refs s' bno' = refs s bno' + if decide (bno' = bno) then 1 else 0) ∧
    bio_frame s s' ∧ k_disk s' = k_disk s ∧ k_dtrace s' = k_dtrace s ∧
    rcs s' = alter (λ r, r + 1) b (rcs s).
Proof.
  intros He Hh1 Hne Hav Hr. destruct (bread_ok p q s {[b1]} He bno) as (b & s' & E & He' & Hb & Hh & Hv & Hn & Ho & Hf).
  - intros b' k ->%elem_of_singleton Hk. destruct (is_block bno k) eqn:E; [|done].
    destruct Hne. eapply is_block_inj; [done|]. by eapply holds_block.
  - done.
  - done.
  - assert (b ≠ b1) by set_solver. exists b, s'. split_and!; try done; try apply Hf. by apply Ho.
Qed.

(** The data of an unreferenced block is the disk's. *)
Lemma view_unref p q s H bno : benv p q s H → refs s bno = 0 → view s bno = dblock (k_disk s) bno.
Proof. intros [_ [l Hinv] _ _]. by apply (bview_unref s l). Qed.
Lemma refs_nonneg p q s H bno : benv p q s H → 0 ≤ refs s bno.
Proof. intros [_ [l Hinv] _ _]. by apply (brefs_nonneg s l). Qed.

(** A free buffer stays free when only others change. *)
Lemma has_free_alter s s' b f :
  rcs s' = alter f b (rcs s) → rcs s !! b ≠ Some 0 → has_free s → has_free s'.
Proof.
  intros E Hb (i & Hi & Hr). exists i. split; [done|]. rw E list_lookup_alter_ne //. congruence.
Qed.
Lemma has_free_same s s' : rcs s' = rcs s → has_free s → has_free s'.
Proof. intros E (i & Hi & Hr). exists i. by rw E. Qed.

Lemma alter_id_ext {A} (f : A → A) i (l : list A) : (∀ x, f x = x) → alter f i l = l.
Proof.
  intros Hf. apply list_eq. intros j. destruct (decide (i = j)) as [<-|].
  - rw list_lookup_alter_eq. destruct (l !! i); [cbn; by rw Hf|done].
  - by rw list_lookup_alter_ne.
Qed.
Lemma inc_dec (b : nat) (l : list Z) : alter (λ r, r - 1) b (alter (λ r, r + 1) b l) = l.
Proof. rw list_alter_alter. apply alter_id_ext. lia. Qed.
Lemma alter_comm {A} (f g : A → A) i j (l : list A) :
  i ≠ j → alter f i (alter g j l) = alter g j (alter f i l).
Proof.
  intros Hne. apply list_eq. intros x. rw !list_lookup_alter.
  repeat case_decide; subst; done.
Qed.
