(* ===== verification/Log.v ===== *)
(** * The log (kernel/log.c)

    Transactions of the file system: [begin_op] and [end_op] bracket a system
    call, [log_write] records the blocks it changed, and the last [end_op]
    commits: the changed blocks go to the log, then the header, then the
    blocks go home, then the header is cleared. [recover_from_log] runs at
    boot. The on-disk header is [n] followed by [LOGSIZE] block numbers, all
    32-bit integers.

    The crash theorems are about [k_dtrace], the sequence of block writes: a
    crash leaves the disk as some prefix of it made it. *)

From S2P Require Import Prelude Riscv KState Spinlock KString Kalloc Vm Sched Layout Bio.
Open Scope Z_scope.

(** ** Access to [struct log log] *)

Definition get_log : KM logst := gets k_log.
Definition upd_log (f : logst → logst) : KM unit := modify (λ s, set_k_log (f (k_log s)) s).
Definition upd_lh (f : logheader → logheader) : KM unit := upd_log (λ g, set_lg_lh (f (lg_lh g)) g).

(** [log.lh.block[i]]; the array has [LOGSIZE] entries. *)
Definition lh_get (i : Z) : KM Z :=
  g ← get_log; if i <? 0 then fault else deref (lh_block (lg_lh g) !! Z.to_nat i).
Definition lh_put (i v : Z) : KM unit :=
  lh_get i ;; upd_lh (λ h, set_lh_block (zset (lh_block h) i v) h).

(** Offsets of [n] and [block[i]] in the on-disk header. *)
Definition hb_n : Z := 0.
Definition hb_block (i : Z) : Z := 4 + 4 * i.
Definition sizeof_logheader : Z := 4 + 4 * LOGSIZE.

(** [memmove(to->data, from->data, BSIZE)] *)
Definition copy_data (to from : nat) : KM unit :=
  k ← get_buf from; upd_buf to (set_b_data (b_data k)).

(** ** log.c *)

Definition install_one (recovering tail : Z) : KM unit :=
  g ← get_log;
  lbuf ← bread (u32 (lg_dev g)) (u32 (lg_start g + tail + 1));
  bno ← lh_get tail;
  dbuf ← bread (u32 (lg_dev g)) (u32 bno);
  copy_data dbuf lbuf ;;
  bwrite dbuf ;;
  whenM (recovering =? 0) (bunpin dbuf) ;;
  brelse lbuf ;;
  brelse dbuf.
(** [log.lh.n] does not change while the loops of this file run. *)
Definition install_trans (recovering : Z) : KM unit :=
  g ← get_log;
  eachM (seqZ 0 (lh_n (lg_lh g))) (install_one recovering).

Definition read_head : KM unit :=
  g ← get_log;
  b ← bread (u32 (lg_dev g)) (u32 (lg_start g));
  k ← get_buf b;
  upd_lh (set_lh_n (i32 (rd32 (b_data k) hb_n))) ;;
  g ← get_log;
  eachM (seqZ 0 (lh_n (lg_lh g))) (λ i, lh_put i (i32 (rd32 (b_data k) (hb_block i)))) ;;
  brelse b.

(** [hb->n = log.lh.n;] and the loop over [hb->block]. *)
Definition put_head (h : logheader) (d : list Z) : list Z :=
  foldl (λ d i, wr32 d (hb_block i) (zget (lh_block h) i)) (wr32 d hb_n (lh_n h)) (seqZ 0 (lh_n h)).

Definition write_head : KM unit :=
  g ← get_log;
  b ← bread (u32 (lg_dev g)) (u32 (lg_start g));
  (if LOGSIZE <? lh_n (lg_lh g) then fault else mret tt) ;;
  upd_buf b (λ k, set_b_data (put_head (lg_lh g) (b_data k)) k) ;;
  bwrite b ;;
  brelse b.

Definition recover_from_log : KM unit :=
  read_head ;;
  install_trans 1 ;;
  upd_lh (set_lh_n 0) ;;
  write_head.

Definition initlog (dev : Z) (sb : superblock) : KM unit :=
  if BSIZE <=? sizeof_logheader then panic "initlog: too big logheader" else
  kinitlock LLog "log" ;;
  upd_log (set_lg_start (i32 (sb_logstart sb))) ;;
  upd_log (set_lg_size (i32 (sb_nlog sb))) ;;
  upd_log (set_lg_dev dev) ;;
  recover_from_log.

Definition begin_op : KM unit :=
  kacquire LLog ;;
  fuel ← gets k_fuel;
  loopM fuel (λ _ : unit,
    g ← get_log;
    if negb (lg_committing g =? 0) then sleep CLog LLog ;; mret (inl tt)
    else if LOGSIZE <? lh_n (lg_lh g) + (lg_outstanding g + 1) * MAXOPBLOCKS then
      sleep CLog LLog ;; mret (inl tt)
    else
      upd_log (λ g, set_lg_outstanding (lg_outstanding g + 1) g) ;;
      krelease LLog ;;
      mret (inr tt)) tt.

Definition write_one (tail : Z) : KM unit :=
  g ← get_log;
  to ← bread (u32 (lg_dev g)) (u32 (lg_start g + tail + 1));
  bno ← lh_get tail;
  from ← bread (u32 (lg_dev g)) (u32 bno);
  copy_data to from ;;
  bwrite to ;;
  brelse from ;;
  brelse to.
Definition write_log : KM unit :=
  g ← get_log;
  eachM (seqZ 0 (lh_n (lg_lh g))) write_one.

Definition commit : KM unit :=
  g ← get_log;
  whenM (0 <? lh_n (lg_lh g))
    (write_log ;;
     write_head ;;
     install_trans 0 ;;
     upd_lh (set_lh_n 0) ;;
     write_head).

Definition end_op : KM unit :=
  kacquire LLog ;;
  upd_log (λ g, set_lg_outstanding (lg_outstanding g - 1) g) ;;
  g ← get_log;
  if negb (lg_committing g =? 0) then panic "log.committing" else
  do_commit ← (if lg_outstanding g =? 0
               then upd_log (set_lg_committing 1) ;; mret true
               else wakeup CLog ;; mret false);
  krelease LLog ;;
  whenM do_commit
    (commit ;;
     kacquire LLog ;;
     upd_log (set_lg_committing 0) ;;
     wakeup CLog ;;
     krelease LLog).

(** The loop of [log_write]: the index of [blockno] in the log, or [n]. *)
Fixpoint log_index (blocks : list Z) (i : Z) (n : nat) (blockno : Z) : Z :=
  match n with
  | O => i
  | S n =>
      if u32 (zget blocks i) =? blockno then i else log_index blocks (i + 1) n blockno
  end.

Definition log_write (b : nat) : KM unit :=
  kacquire LLog ;;
  g ← get_log;
  if (LOGSIZE <=? lh_n (lg_lh g)) || (lg_size g - 1 <=? lh_n (lg_lh g))
  then panic "too big a transaction" else
  if lg_outstanding g <? 1 then panic "log_write outside of trans" else
  k ← get_buf b;
  let n := lh_n (lg_lh g) in
  let i := log_index (lh_block (lg_lh g)) 0 (Z.to_nat n) (b_blockno k) in
  lh_put i (i32 (b_blockno k)) ;;
  whenM (i =? n) (bpin b ;; upd_lh (λ h, set_lh_n (lh_n h + 1) h)) ;;
  krelease LLog.
