(* ===== verification/LogCorrect.v ===== *)
(** * Transactions are atomic (kernel/log.c)

    What [commit] writes, in which order ([commit_spec]), what
    [recover_from_log] makes of a disk ([recover_spec]), and that together
    they make a commit atomic: whatever prefix of the writes has reached the
    disk when the machine stops, recovery gives the disk before the
    transaction or the one after it. *)

From S2P Require Import Prelude Riscv KState Spinlock KString Kalloc Vm Sched Layout Bio Cache Log.
Open Scope Z_scope.

(** The block of the log for entry [tail]. *)
Definition log_blk (start tail : Z) : Z := start + tail + 1.

Definition refs_small (s : kstate) : Prop := ∀ bno, refs s bno < 2 ^ 30.

Lemma refs_small_eq s s' : (∀ bno, refs s' bno = refs s bno) → refs_small s → refs_small s'.
Proof. intros E Hs bno. by rw E. Qed.

(** The disk after the writes [w]. *)
Definition apply_writes (w : list (Z * list Z)) (d : gmap Z (list Z)) : gmap Z (list Z) :=
  foldl (λ d x, <[x.1 := x.2]> d) d w.

Lemma apply_writes_app w1 w2 d : apply_writes (w1 ++ w2) d = apply_writes w2 (apply_writes w1 d).
Proof. apply foldl_app. Qed.

Lemma apply_writes_notin w : ∀ d x, (x ∉ w.*1) → dblock (apply_writes w d) x = dblock d x.
Proof.
  induction w as [|[y v] w IH]; intros d x Hx; [done|]. cbn in *. rw IH; [|set_solver].
  unfold dblock. rw lookup_insert_ne //. set_solver.
Qed.

Lemma apply_writes_in w : ∀ d i x v,
  NoDup w.*1 → w !! i = Some (x, v) → dblock (apply_writes w d) x = v.
Proof.
  induction w as [|[y u] w IH]; intros d i x v Hnd Hi; [done|]. cbn in Hnd.
  apply NoDup_cons in Hnd as [Hy Hnd]. destruct i as [|i]; cbn in Hi |- *.
  - injection Hi as -> ->. rw apply_writes_notin //. unfold dblock. by rw lookup_insert_eq.
  - by eapply IH.
Qed.

(** The writes of [write_log] and [install_trans] for the entries from [t] on,
    [vw] being the contents of the blocks. *)
Definition log_writes (start t : Z) (bs : list Z) (vw : Z → list Z) : list (Z * list Z) :=
  imap (λ i b, (log_blk start (t + Z.of_nat i), vw b)) bs.
Definition home_writes (start t : Z) (bs : list Z) (vw : Z → list Z) : list (Z * list Z) :=
  imap (λ i b, (b, vw (log_blk start (t + Z.of_nat i)))) bs.

Lemma log_writes_cons start t b bs vw :
  log_writes start t (b :: bs) vw = (log_blk start t, vw b) :: log_writes start (t + 1) bs vw.
Proof.
  unfold log_writes. rw imap_cons Z.add_0_r. f_equal. apply imap_ext. intros i x _. unfold compose.
  do 2 f_equal. lia.
Qed.
Lemma home_writes_cons start t b bs vw :
  home_writes start t (b :: bs) vw = (b, vw (log_blk start t)) :: home_writes start (t + 1) bs vw.
Proof.
  unfold home_writes. rw imap_cons Z.add_0_r. f_equal. apply imap_ext. intros i x _. unfold compose.
  do 3 f_equal. lia.
Qed.
Lemma home_writes_fst start t bs vw : (home_writes start t bs vw).*1 = bs.
Proof.
  revert t. induction bs as [|b bs IH]; intros t; [done|]. rw home_writes_cons. cbn. by rw IH.
Qed.

(** A block that may be logged: not a block of the log itself. *)
Definition home_ok (start b : Z) : Prop := 0 ≤ b < 2 ^ 31 ∧ ¬ (start ≤ b ≤ start + LOGSIZE).

(** *** The encoding of the header *)

Lemma put_blocks_spec (f : Z → Z) (l : list Z) : ∀ d,
  length d = Z.to_nat BSIZE → (∀ i, i ∈ l → 0 ≤ i < LOGSIZE ∧ uint_ok (f i)) →
  let d' := foldl (λ d i, wr32 d (hb_block i) (f i)) d l in
  length d' = Z.to_nat BSIZE ∧ rd32 d' hb_n = rd32 d hb_n ∧
  (∀ i, 0 ≤ i < LOGSIZE → rd32 d' (hb_block i) = if decide (i ∈ l) then f i else rd32 d (hb_block i)).
Proof.
  unfold LOGSIZE, MAXOPBLOCKS, hb_n, hb_block, uint_ok.
  induction l as [|j l IH]; intros d Hd Hl; cbn [foldl].
  { split_and!; [done|done|]. intros i Hi. destruct (decide (i ∈ [])); [set_solver|done]. }
  assert (length (wr32 d (4 + 4 * j) (f j)) = Z.to_nat BSIZE) as Hd1.
  { rw length_wr32 //; destruct (Hl j); [by left|lia|by left|rw Hd; unfold BSIZE; lia]. }
  destruct (Hl j) as [Hj Hfj]; [by left|].
  destruct (IH _ Hd1) as (H1 & H2 & H3); [intros i Hi; apply Hl; by right|].
  split_and!; [done| |].
  - rw H2. apply rd32_wr32_ne; rw ?Hd; unfold BSIZE; lia.
  - intros i Hi. rw H3 //. destruct (decide (i ∈ l)) as [Hil|Hil].
    { rw decide_True //. by right. }
    destruct (decide (i ∈ j :: l)) as [Hin|Hin].
    + apply elem_of_cons in Hin as [->|]; [|done].
      apply rd32_wr32; rw ?Hd; unfold BSIZE; lia.
    + apply rd32_wr32_ne; rw ?Hd; unfold BSIZE; try lia. assert (i ≠ j) by set_solver. lia.
Qed.

(** The number of entries and the entries of a header block. *)
Definition head_n (hdr : list Z) : Z := i32 (rd32 hdr hb_n).
Definition head_block (hdr : list Z) (i : Z) : Z := i32 (rd32 hdr (hb_block i)).

Lemma put_head_spec h d :
  length d = Z.to_nat BSIZE → 0 ≤ lh_n h ≤ LOGSIZE →
  (∀ i, 0 ≤ i < lh_n h → 0 ≤ zget (lh_block h) i < 2 ^ 31) →
  length (put_head h d) = Z.to_nat BSIZE ∧ head_n (put_head h d) = lh_n h ∧
  (∀ i, 0 ≤ i < lh_n h → head_block (put_head h d) i = zget (lh_block h) i).
Proof.
  intros Hd Hn Hb. unfold put_head, head_n, head_block.
  assert (length (wr32 d hb_n (lh_n h)) = Z.to_nat BSIZE) as Hd1.
  { rw length_wr32 //. unfold hb_n. rw Hd. unfold BSIZE. lia. }
  assert (LOGSIZE = 30) as HL by done.
  destruct (put_blocks_spec (λ i, zget (lh_block h) i) (seqZ 0 (lh_n h)) _ Hd1) as (H1 & H2 & H3).
  { intros i Hi%elem_of_seqZ. split; [lia|]. unfold uint_ok. specialize (Hb i). lia. }
  split_and!; [exact H1| |].
  - rw H2 rd32_wr32; rw ?Hd; unfold hb_n, BSIZE; try lia. apply i32_small. lia.
  - intros i Hi. rw H3; [|lia]. rw decide_True; [|apply elem_of_seqZ; lia].
    apply i32_small. specialize (Hb i). lia.
Qed.

Section log.
Context (p : nat) (q : proc).

Lemma lh_get_ok s t x :
  0 ≤ t → lh_block (lg_lh (k_log s)) !! Z.to_nat t = Some x → lh_get t s = Ret x s.
Proof.
  intros Ht Hx. unfold lh_get, get_log. rw bind_gets.
  rewrite -> (proj2 (Z.ltb_ge _ _)) by lia. by rw Hx.
Qed.

(** Both copying loops: block [src] is copied to block [dst]. *)
Lemma write_one_ok s tail bno :
  let g := k_log s in let dst := log_blk (lg_start g) tail in
  benv p q s ∅ → has_free s → refs_small s → lg_dev g = ROOTDEV → 0 ≤ lg_start g < 2 ^ 30 →
  0 ≤ tail < LOGSIZE → lh_block (lg_lh g) !! Z.to_nat tail = Some bno → 0 ≤ bno < 2 ^ 31 →
  bno ≠ dst → 0 < refs s bno →
  ∃ s', write_one tail s = Ret tt s' ∧ benv p q s' ∅ ∧ bio_frame s s' ∧ rcs s' = rcs s ∧
    (∀ x, view s' x = if decide (x = dst) then view s bno else view s x) ∧
    (∀ x, refs s' x = refs s x) ∧
    k_disk s' = <[dst := view s bno]> (k_disk s) ∧
    k_dtrace s' = k_dtrace s ++ [(dst, view s bno)].
Proof.
  intros g dst He Hfr Hsm Hdev Hst Ht Hbno Hb Hne Hr. unfold write_one, get_log. rw bind_gets. fold g.
  rw Hdev. change (u32 ROOTDEV) with ROOTDEV.
  replace (u32 (lg_start g + tail + 1)) with dst by (unfold dst, log_blk; rw u32_small; unfold LOGSIZE, MAXOPBLOCKS in *; lia).
  destruct (bread_ok0 p q s dst He) as (b1 & s1 & E1 & He1 & Hh1 & Hv1 & Hn1 & Hf1 & Hd1 & Ht1 & Hc1);
    [by right|specialize (Hsm dst); lia|]. mstep E1.
  unfold g in Hbno; rw -(bio_frame_log _ _ Hf1) in Hbno. mstep (lh_get_ok s1 tail bno (proj1 Ht) Hbno).
  rw (u32_small bno); [|lia].
  destruct (bread_ok1 p q s1 b1 dst _ _ bno He1 Hh1 Hne) as
    (b2 & s2 & E2 & He2 & Hb21 & Hh2 & Hh12 & Hv2 & Hn2 & Hf2 & Hd2 & Ht2 & Hc2).
  { left. rw Hn1 decide_False //. lia. }
  { rw Hn1 decide_False //. specialize (Hsm bno). lia. }
  mstep E2. rw Hv1 Hn1 decide_False // Z.add_0_r in Hh2.
  destruct (get_held _ _ _ _ _ _ Hh2) as (k2 & Eg & Hk2 & _). unfold copy_data. mstep Eg. rw Hk2.
  destruct (set_data_ok p q s2 _ He2 b1 dst _ _ (view s bno) Hh12) as
    (s3 & E3 & He3 & Hh3 & Hv3 & Hn3 & Ho3 & Hf3 & Hd3 & Ht3 & Hc3); [set_solver|]. mstep E3.
  apply (Ho3 b2) in Hh2; [|done].
  destruct (bwrite_ok p q s3 _ He3 b1 dst _ _ Hh3) as
    (s4 & E4 & He4 & Hh4 & Hv4 & Hn4 & Ho4 & Hf4 & Hd4 & Ht4 & Hc4). mstep E4.
  apply Ho4 in Hh2.
  destruct (brelse_ok p q s4 _ He4 b2 bno _ _ Hh2) as
    (s5 & E5 & He5 & Hv5 & Hn5 & Ho5 & Hf5 & Hd5 & Ht5 & Hc5); [set_solver|lia|]. mstep E5.
  apply (Ho5 b1) in Hh4; [|done].
  destruct (brelse_ok p q s5 _ He5 b1 dst _ _ Hh4) as
    (s6 & E6 & He6 & Hv6 & Hn6 & Ho6 & Hf6 & Hd6 & Ht6 & Hc6); [set_solver| |].
  { intros _. rw Hd5 Hd4 Hd3 Hd2 Hd1. unfold dblock. by rw lookup_insert_eq. }
  exists s6. split_and!.
  - done.
  - by replace ((({[b2]} ∪ {[b1]}) ∖ {[b2]}) ∖ {[b1]} : gset nat) with (∅ : gset nat) in He6 by set_solver.
  - eauto 10 using bio_frame_trans.
  - rw Hc6 Hc5 Hc4 Hc3 Hc2 inc_dec Hc1 inc_dec //.
  - intros x. rw Hv6 Hv5 Hv4 Hv3 Hv2 Hv1 //.
  - intros x. rw Hn6 Hn5 Hn4 Hn3 Hn2 Hn1. lia.
  - by rw Hd6 Hd5 Hd4 Hd3 Hd2 Hd1.
  - by rw Ht6 Ht5 Ht4 Ht3 Ht2 Ht1.
Qed.

(** Two free buffers. *)
Definition free2 (s : kstate) : Prop :=
  ∃ i j, i ≠ j ∧ (i < NBUF)%nat ∧ (j < NBUF)%nat ∧ rcs s !! i = Some 0 ∧ rcs s !! j = Some 0.
Lemma free2_has s : free2 s → has_free s.
Proof. intros (i & j & _ & Hi & _ & Hr & _). by exists i. Qed.
Lemma free2_alter s s' b f : rcs s' = alter f b (rcs s) → free2 s → has_free s'.
Proof.
  intros E (i & j & Hij & Hi & Hj & Hri & Hrj). destruct (decide (i = b)) as [->|Hne].
  - exists j. rw E list_lookup_alter_ne //.
  - exists i. rw E list_lookup_alter_ne //.
Qed.

Lemma install_one_ok s rec tail bno :
  let g := k_log s in let src := log_blk (lg_start g) tail in
  let pin := if decide (rec = 0) then 1 else 0 in
  benv p q s ∅ → has_free s → refs_small s → lg_dev g = ROOTDEV → 0 ≤ lg_start g < 2 ^ 30 →
  0 ≤ tail < LOGSIZE → lh_block (lg_lh g) !! Z.to_nat tail = Some bno → 0 ≤ bno < 2 ^ 31 →
  bno ≠ src → (rec = 0 → 0 < refs s bno) → (rec ≠ 0 → free2 s) →
  ∃ s', install_one rec tail s = Ret tt s' ∧ benv p q s' ∅ ∧ bio_frame s s' ∧
    has_free s' ∧ (rec ≠ 0 → rcs s' = rcs s) ∧
    (∀ x, view s' x = if decide (x = bno) then view s src else view s x) ∧
    (∀ x, refs s' x = refs s x - if decide (x = bno) then pin else 0) ∧
    k_disk s' = <[bno := view s src]> (k_disk s) ∧
    k_dtrace s' = k_dtrace s ++ [(bno, view s src)].
Proof.
  intros g src pin He Hfr Hsm Hdev Hst Ht Hbno Hb Hne Hr Hf2. unfold install_one, get_log. rw bind_gets. fold g.
  assert (rec ≠ 0 → pin = 0) as Hpin by (intros; unfold pin; by destruct (decide (rec = 0))).
  rw Hdev. change (u32 ROOTDEV) with ROOTDEV.
  replace (u32 (lg_start g + tail + 1)) with src by (unfold src, log_blk; rw u32_small; unfold LOGSIZE, MAXOPBLOCKS in *; lia).
  destruct (bread_ok0 p q s src He) as (b1 & s1 & E1 & He1 & Hh1 & Hv1 & Hn1 & Hf1 & Hd1 & Ht1 & Hc1);
    [by right|specialize (Hsm src); lia|]. mstep E1.
  unfold g in Hbno; rw -(bio_frame_log _ _ Hf1) in Hbno. mstep (lh_get_ok s1 tail bno (proj1 Ht) Hbno).
  rw (u32_small bno); [|lia]. pose proof (refs_nonneg p q s ∅ bno He) as Hr0.
  destruct (bread_ok1 p q s1 b1 src _ _ bno He1 Hh1 Hne) as
    (b2 & s2 & E2 & He2 & Hb21 & Hh2 & Hh12 & Hv2 & Hn2 & Hf2' & Hd2 & Ht2 & Hc2).
  { rw Hn1 decide_False //. destruct (decide (rec = 0)) as [Hrec|Hrec].
    - left. specialize (Hr Hrec). lia.
    - right. by eapply free2_alter; [exact Hc1|apply Hf2]. }
  { rw Hn1 decide_False //. specialize (Hsm bno). lia. }
  mstep E2. rw Hv1 Hn1 decide_False // Z.add_0_r in Hh2.
  destruct (get_held _ _ _ _ _ _ Hh12) as (k1 & Eg & Hk1 & _). unfold copy_data. mstep Eg. rw Hk1.
  destruct (set_data_ok p q s2 _ He2 b2 bno _ _ (view s src) Hh2) as
    (s3 & E3 & He3 & Hh3 & Hv3 & Hn3 & Ho3 & Hf3 & Hd3 & Ht3 & Hc3); [set_solver|]. mstep E3.
  apply (Ho3 b1) in Hh12; [|done].
  destruct (bwrite_ok p q s3 _ He3 b2 bno _ _ Hh3) as
    (s4 & E4 & He4 & Hh4 & Hv4 & Hn4 & Ho4 & Hf4 & Hd4 & Ht4 & Hc4). mstep E4.
  apply Ho4 in Hh12.
  assert (rcs s4 !! b2 = Some (refs s bno + 1)) as Hrc.
  { destruct Hh4 as (k4 & Hb4 & _ & Hk4). rw -Hk4. apply rcs_lookup, Hb4. }
  assert (∃ s5, whenM (rec =? 0) (bunpin b2) s4 = Ret tt s5 ∧ benv p q s5 ({[b2]} ∪ {[b1]}) ∧
    holds s5 q b2 bno (view s src) (refs s bno + 1 - pin) ∧ holds s5 q b1 src (view s src) (refs s src + 1) ∧
    (∀ x, view s5 x = view s4 x) ∧ (∀ x, refs s5 x = refs s4 x - if decide (x = bno) then pin else 0) ∧
    bio_frame s4 s5 ∧ k_disk s5 = k_disk s4 ∧ k_dtrace s5 = k_dtrace s4 ∧
    rcs s5 = alter (λ r, r - pin) b2 (rcs s4)) as (s5 & E5 & He5 & Hh5 & Hh15 & Hv5 & Hn5 & Hf5 & Hd5 & Ht5 & Hc5).
  { unfold pin. destruct (decide (rec = 0)) as [->|Hrec].
    - specialize (Hr eq_refl). specialize (Hsm bno). cbn [Z.eqb whenM].
      destruct (bunpin_ok p q s4 _ He4 b2 bno _ _ Hh4) as
        (s5 & E5 & He5 & Hh5 & Hv5 & Hn5 & Ho5 & Hf5 & Hd5 & Ht5 & Hc5); [lia|].
      exists s5. split_and!; [exact E5|exact He5|exact Hh5|exact (Ho5 b1 _ _ _ (not_eq_sym Hb21) Hh12)|exact Hv5| |exact Hf5|exact Hd5|exact Ht5|].
      + intros x. rw Hn5. destruct (decide (x = bno)) as [->|]; [|lia].
        rw Hn4 Hn3 Hn2 Hn1. destruct (decide (bno = bno)), (decide (bno = src)); [congruence|lia|congruence..].
      + rw Hc5. symmetry. exact (list_alter_insert _ b2 (λ r, r - 1) _ Hrc).
    - rewrite -> (proj2 (Z.eqb_neq _ _) Hrec). cbn [whenM]. exists s4.
      rw Z.sub_0_r. split_and!; [reflexivity|exact He4|exact Hh4|exact Hh12|done| |apply bio_frame_refl|done|done|].
      + intros x. by destruct (decide (x = bno)); rw Z.sub_0_r.
      + symmetry. apply alter_id_ext. lia. }
  mstep E5.
  destruct (brelse_ok p q s5 _ He5 b1 src _ _ Hh15) as
    (s6 & E6 & He6 & Hv6 & Hn6 & Ho6 & Hf6 & Hd6 & Ht6 & Hc6); [set_solver| |].
  { intros Hr1. rw (view_unref p q s ∅ src He); [|lia]. rw Hd5 Hd4 Hd3 Hd2 Hd1.
    unfold dblock. by rw lookup_insert_ne. }
  mstep E6. apply (Ho6 b2) in Hh5; [|done].
  destruct (brelse_ok p q s6 _ He6 b2 bno _ _ Hh5) as
    (s7 & E7 & He7 & Hv7 & Hn7 & Ho7 & Hf7 & Hd7 & Ht7 & Hc7); [set_solver| |].
  { intros _. rw Hd6 Hd5 Hd4 Hd3 Hd2 Hd1. unfold dblock. by rw lookup_insert_eq. }
  assert (rcs s7 = alter (λ r, r - pin) b2 (rcs s)) as Hrcs.
  { rw Hc7 Hc6 Hc5 Hc4 Hc3 Hc2 Hc1. apply list_eq. intros i. rw !list_lookup_alter.
    repeat case_decide; subst; try done; destruct (rcs s !! _); try done; cbn; f_equal; lia. }
  exists s7. split_and!.
  - done.
  - by replace ((({[b2]} ∪ {[b1]}) ∖ {[b1]}) ∖ {[b2]} : gset nat) with (∅ : gset nat) in He7 by set_solver.
  - eauto 10 using bio_frame_trans.
  - destruct (decide (rec = 0)) as [->|Hrec].
    + eapply has_free_alter; [exact Hrcs| |done]. specialize (Hr eq_refl). intros E0.
      rw Hc4 Hc3 Hc2 Hc1 list_lookup_alter_eq list_lookup_alter_ne // E0 in Hrc. injection Hrc. lia.
    + eapply has_free_same; [|exact Hfr]. rw Hrcs. apply alter_id_ext. intros x. rw Hpin //. lia.
  - intros Hrec. rw Hrcs. apply alter_id_ext. intros x. rw Hpin //. lia.
  - intros x. rw Hv7 Hv6 Hv5 Hv4 Hv3 Hv2 Hv1 //.
  - intros x. rw Hn7 Hn6 Hn5 Hn4 Hn3 Hn2 Hn1. destruct (decide (x = bno)), (decide (x = src)); lia.
  - by rw Hd7 Hd6 Hd5 Hd4 Hd3 Hd2 Hd1.
  - by rw Ht7 Ht6 Ht5 Ht4 Ht3 Ht2 Ht1.
Qed.

(** *** The loops *)

(** The log is on the root device, and entries [t], [t+1], ... are [bs]. *)
Record log_ready (s : kstate) (start t : Z) (bs : list Z) : Prop := {
  lr_env : benv p q s ∅;
  lr_free : has_free s;
  lr_small : refs_small s;
  lr_dev : lg_dev (k_log s) = ROOTDEV;
  lr_start : lg_start (k_log s) = start;
  lr_range : 0 ≤ start < 2 ^ 30;
  lr_t : 0 ≤ t ∧ t + length bs ≤ LOGSIZE;
  lr_bs i b : bs !! i = Some b → lh_block (lg_lh (k_log s)) !! (Z.to_nat t + i)%nat = Some b;
  lr_home : Forall (home_ok start) bs
}.

Lemma log_ready_next s s' start t b bs :
  log_ready s start t (b :: bs) → benv p q s' ∅ → bio_frame s s' → has_free s' → refs_small s' →
  log_ready s' start (t + 1) bs.
Proof.
  intros [] He Hf Hfr Hsm. pose proof (bio_frame_log _ _ Hf) as El. cbn [length] in *.
  split; rw ?El //.
  - lia.
  - intros i b' Hi. replace (Z.to_nat (t + 1) + i)%nat with (Z.to_nat t + S i)%nat by lia. by apply lr_bs0.
  - by apply Forall_cons in lr_home0 as [_ ?].
Qed.

Lemma write_log_loop bs : ∀ s start t,
  log_ready s start t bs → Forall (λ b, 0 < refs s b) bs →
  ∃ s', eachM (seqZ t (length bs)) write_one s = Ret tt s' ∧ benv p q s' ∅ ∧ bio_frame s s' ∧
    rcs s' = rcs s ∧ (∀ x, refs s' x = refs s x) ∧
    (∀ x, ¬ (log_blk start t ≤ x < log_blk start t + length bs) → view s' x = view s x) ∧
    (∀ i b, bs !! i = Some b → view s' (log_blk start (t + Z.of_nat i)) = view s b) ∧
    k_disk s' = apply_writes (log_writes start t bs (view s)) (k_disk s) ∧
    k_dtrace s' = k_dtrace s ++ log_writes start t bs (view s).
Proof.
  induction bs as [|b bs IH]; intros s start t Hl Hr.
  { exists s. cbn. split_and!; try done; [apply Hl|apply bio_frame_refl|by rw app_nil_r]. }
  apply Forall_cons in Hr as [Hrb Hr]. cbn [length]. rw Nat2Z.inj_succ seqZ_cons; [|lia].
  rw Z.pred_succ. cbn [eachM]. destruct (Hl) as [He Hfr Hsm Hdev Hst Hrg Ht Hbs Hhome].
  apply Forall_cons in Hhome as [Hhb Hhome]. unfold home_ok in Hhb. cbn [length] in Ht.
  destruct (write_one_ok s t b) as (s1 & E1 & He1 & Hf1 & Hc1 & Hv1 & Hn1 & Hd1 & Ht1); try done.
  { by rw Hst. } { lia. } { specialize (Hbs 0%nat b eq_refl). by rw Nat.add_0_r in Hbs. } { lia. }
  { rw Hst. unfold log_blk. lia. }
  rw Hst in Hv1 Hd1 Ht1. mstep E1.
  destruct (IH s1 start (t + 1)) as (s2 & E2 & He2 & Hf2 & Hc2 & Hn2 & Hv2 & Hw2 & Hd2 & Ht2).
  { eapply log_ready_next; [done|done|done|by eapply has_free_same|by eapply refs_small_eq]. }
  { eapply Forall_impl; [exact Hr|]. intros x Hx. cbn in *. by rw Hn1. }
  exists s2. rw log_writes_cons. unfold Z.succ.
  assert (log_writes start (t + 1) bs (view s1) = log_writes start (t + 1) bs (view s)) as El.
  { unfold log_writes. apply imap_ext. intros i x Hx. f_equal. rw Hv1.
    rw decide_False //. rewrite -> Forall_lookup in Hhome. specialize (Hhome i x Hx). unfold home_ok, log_blk in *. lia. }
  rw El in Hd2 Ht2. split_and!.
  - exact E2.
  - done.
  - by eapply bio_frame_trans.
  - congruence.
  - intros x. by rw Hn2 Hn1.
  - intros x Hx. rw Hv2; [|unfold log_blk in *; lia]. rw Hv1 decide_False //. unfold log_blk in *. lia.
  - intros [|i] x Hx; cbn in Hx.
    + injection Hx as ->. rw Z.add_0_r Hv2; [|unfold log_blk; lia]. by rw Hv1 decide_True.
    + replace (t + Z.of_nat (S i)) with (t + 1 + Z.of_nat i) by lia. rw (Hw2 i x) // Hv1 decide_False //.
      rewrite -> Forall_lookup in Hhome. specialize (Hhome i x Hx). unfold home_ok, log_blk in *. lia.
  - by rw Hd2 Hd1.
  - rw Ht2 Ht1. by rw -app_assoc.
Qed.

Lemma install_loop rec bs : ∀ s start t,
  let pin := if decide (rec = 0) then 1 else 0 in
  log_ready s start t bs → NoDup bs → (rec = 0 → Forall (λ b, 0 < refs s b) bs) → (rec ≠ 0 → free2 s) →
  ∃ s', eachM (seqZ t (length bs)) (install_one rec) s = Ret tt s' ∧ benv p q s' ∅ ∧ bio_frame s s' ∧
    has_free s' ∧ (rec ≠ 0 → rcs s' = rcs s) ∧
    (∀ x, refs s' x = refs s x - if decide (x ∈ bs) then pin else 0) ∧
    (∀ x, (x ∉ bs) → view s' x = view s x) ∧
    (∀ i b, bs !! i = Some b → view s' b = view s (log_blk start (t + Z.of_nat i))) ∧
    k_disk s' = apply_writes (home_writes start t bs (view s)) (k_disk s) ∧
    k_dtrace s' = k_dtrace s ++ home_writes start t bs (view s).
Proof.
  induction bs as [|b bs IH]; intros s start t pin Hl Hnd Hr Hf2.
  { exists s. split_and!; [done|apply Hl|apply bio_frame_refl|apply Hl|done|..|cbn; by rw app_nil_r]; try done.
    intros x. destruct (decide (x ∈ [])); [set_solver|lia]. }
  apply NoDup_cons in Hnd as [Hb Hnd]. cbn [length]. rw Nat2Z.inj_succ seqZ_cons; [|lia].
  rw Z.pred_succ. cbn [eachM]. destruct (Hl) as [He Hfr Hsm Hdev Hst Hrg Ht Hbs Hhome].
  apply Forall_cons in Hhome as [Hhb Hhome]. unfold home_ok in Hhb. cbn [length] in Ht.
  destruct (install_one_ok s rec t b) as (s1 & E1 & He1 & Hf1 & Hfr1 & Hc1 & Hv1 & Hn1 & Hd1 & Ht1); try done.
  { by rw Hst. } { lia. } { specialize (Hbs 0%nat b eq_refl). by rw Nat.add_0_r in Hbs. } { lia. }
  { rw Hst. unfold log_blk. lia. } { intros Hrec. by apply Forall_cons in Hr as [? _]. }
  rw Hst in Hv1 Hd1 Ht1. mstep E1. fold pin in Hn1.
  assert (0 ≤ pin) as Hpin by (unfold pin; destruct (decide (rec = 0)); lia).
  destruct (IH s1 start (t + 1)) as (s2 & E2 & He2 & Hf2' & Hfr2 & Hc2 & Hn2 & Hv2 & Hw2 & Hd2 & Ht2).
  { eapply log_ready_next; [done|done|done|done|]. intros x. rw Hn1. specialize (Hsm x).
    destruct (decide (x = b)); lia. }
  { done. }
  { intros Hrec. specialize (Hr Hrec). apply Forall_cons in Hr as [_ Hr]. rewrite -> Forall_lookup in Hr |- *.
    intros i x Hx. rw Hn1 decide_False; [|intros ->; apply Hb; by eapply list_elem_of_lookup_2]. rw Z.sub_0_r. by eapply Hr. }
  { intros Hrec. destruct (Hf2 Hrec) as (i & j & ?). exists i, j. by rw Hc1. }
  assert (∀ i, 0 ≤ i → log_blk start (t + i) ≠ b ∨ LOGSIZE ≤ t + i) as Hlb by (intros i Hi; unfold log_blk; lia).
  assert (home_writes start (t + 1) bs (view s1) = home_writes start (t + 1) bs (view s)) as El.
  { unfold home_writes. apply imap_ext. intros i x Hx%lookup_lt_Some. f_equal. rw Hv1.
    rw decide_False //. unfold log_blk. lia. }
  exists s2. rw home_writes_cons. rw El in Hd2 Ht2. split_and!.
  - exact E2.
  - done.
  - by eapply bio_frame_trans.
  - done.
  - intros Hrec. rw Hc2 // Hc1 //.
  - intros x. rw Hn2 Hn1. fold pin.
    destruct (decide (x = b)), (decide (x ∈ bs)), (decide (x ∈ b :: bs)); subst; try lia; set_solver.
  - intros x Hx. rw Hv2; [|set_solver]. rw Hv1 decide_False //. set_solver.
  - intros [|i] x Hx; cbn in Hx.
    + injection Hx as ->. rw Z.add_0_r Hv2 // Hv1 decide_True //.
    + replace (t + Z.of_nat (S i)) with (t + 1 + Z.of_nat i) by lia. rw (Hw2 i x) // Hv1 decide_False //.
      apply lookup_lt_Some in Hx. unfold log_blk. lia.
  - by rw Hd2 Hd1.
  - rw Ht2 Ht1. by rw -app_assoc.
Qed.

(** *** The header *)

Lemma write_head_ok s :
  let g := k_log s in let start := lg_start g in let d := put_head (lg_lh g) (view s start) in
  benv p q s ∅ → has_free s → refs_small s → lg_dev g = ROOTDEV → 0 ≤ start < 2 ^ 30 → lh_n (lg_lh g) ≤ LOGSIZE →
  ∃ s', write_head s = Ret tt s' ∧ benv p q s' ∅ ∧ bio_frame s s' ∧ rcs s' = rcs s ∧
    (∀ x, view s' x = if decide (x = start) then d else view s x) ∧
    (∀ x, refs s' x = refs s x) ∧
    k_disk s' = <[start := d]> (k_disk s) ∧ k_dtrace s' = k_dtrace s ++ [(start, d)].
Proof.
  intros g start d He Hfr Hsm Hdev Hst Hn. unfold write_head, get_log. rw bind_gets. fold g.
  rw Hdev. change (u32 ROOTDEV) with ROOTDEV. fold start. rw (u32_small start); [|lia].
  destruct (bread_ok0 p q s start He) as (b & s1 & E1 & He1 & Hh1 & Hv1 & Hn1 & Hf1 & Hd1 & Ht1 & Hc1);
    [by right|specialize (Hsm start); lia|]. mstep E1.
  rewrite -> (proj2 (Z.ltb_ge _ _)) by lia. rw bind_mret.
  destruct (set_data_ok p q s1 _ He1 b start _ _ d Hh1) as
    (s2 & E2 & He2 & Hh2 & Hv2 & Hn2 & _ & Hf2 & Hd2 & Ht2 & Hc2); [set_solver|].
  destruct Hh1 as (k & Hbh & Hk & _).
  rw (upd_buf_insert s1 b k) // in E2; [|apply Hbh].
  erewrite bind_Ret; [|by apply (upd_buf_insert s1 b k), Hbh]. cbv beta. rw Hk. fold d.
  injection E2 as ->.
  destruct (bwrite_ok p q s2 _ He2 b start _ _ Hh2) as
    (s3 & E3 & He3 & Hh3 & Hv3 & Hn3 & _ & Hf3 & Hd3 & Ht3 & Hc3). mstep E3.
  destruct (brelse_ok p q s3 _ He3 b start _ _ Hh3) as
    (s4 & E4 & He4 & Hv4 & Hn4 & _ & Hf4 & Hd4 & Ht4 & Hc4); [set_solver| |].
  { intros _. rw Hd3. unfold dblock. by rw lookup_insert_eq. }
  exists s4. split_and!.
  - exact E4.
  - by replace ({[b]} ∖ {[b]} : gset nat) with (∅ : gset nat) in He4 by set_solver.
  - eauto 10 using bio_frame_trans.
  - by rw Hc4 Hc3 Hc2 Hc1 inc_dec.
  - intros x. rw Hv4 Hv3 Hv2 Hv1 //.
  - intros x. rw Hn4 Hn3 Hn2 Hn1. lia.
  - by rw Hd4 Hd3 Hd2 Hd1.
  - by rw Ht4 Ht3 Ht2 Ht1.
Qed.

Lemma benv_set_log s H g : benv p q s H → benv p q (set_k_log g s) H.
Proof.
  intros [He [l [H1 H2 H3 H4 H5]] Hf Hr]. split; [by eapply fsenv_keep| |exact Hf|exact Hr].
  exists l. split; [exact H1|exact H2|exact H3|exact H4|exact H5].
Qed.
Lemma bio_frame_set_log s s1 s2 g :
  bio_frame s s1 → bio_frame (set_k_log g s1) s2 → ∃ s3, bio_frame s s3 ∧ s2 = set_k_log g s3.
Proof.
  intros (? & ? & ? & ? & ->) (bs & sl & dk & tr & ->).
  exists (set_k_dtrace tr (set_k_disk dk (set_k_sleeplocks sl (set_k_bufs bs s)))).
  split; [by exists bs, sl, dk, tr|done].
Qed.

(** *** What a commit writes *)

(** The log holds the blocks [bs], all pinned in the cache. *)
Record can_commit (s : kstate) (start : Z) (bs : list Z) : Prop := {
  cc_ready : log_ready s start 0 bs;
  cc_n : lh_n (lg_lh (k_log s)) = length bs;
  cc_pos : bs ≠ [];
  cc_nodup : NoDup bs;
  cc_pinned : Forall (λ b, 0 < refs s b) bs
}.

Definition commit_head (s : kstate) : list Z := put_head (lg_lh (k_log s)) (view s (lg_start (k_log s))).
Definition commit_tail (s : kstate) : list Z := put_head (set_lh_n 0 (lg_lh (k_log s))) (commit_head s).
Definition commit_writes (s : kstate) (start : Z) (bs : list Z) : list (Z * list Z) :=
  log_writes start 0 bs (view s) ++ [(start, commit_head s)] ++
  ((λ b, (b, view s b)) <$> bs) ++ [(start, commit_tail s)].

Lemma commit_spec s start bs :
  can_commit s start bs →
  ∃ s' s1, commit s = Ret tt s' ∧ benv p q s' ∅ ∧ bio_frame s s1 ∧
    s' = set_k_log (set_lg_lh (set_lh_n 0 (lg_lh (k_log s))) (k_log s)) s1 ∧
    (∀ x, ¬ (start ≤ x ≤ start + LOGSIZE) → view s' x = view s x) ∧
    (∀ x, refs s' x = refs s x - if decide (x ∈ bs) then 1 else 0) ∧
    k_disk s' = apply_writes (commit_writes s start bs) (k_disk s) ∧
    k_dtrace s' = k_dtrace s ++ commit_writes s start bs.
Proof.
  intros [Hl Hn Hpos Hnd Hpin]. destruct (Hl) as [He Hfr Hsm Hdev Hst Hrg Ht Hbs Hhome].
  unfold commit, get_log. rw bind_gets Hn.
  rewrite -> (proj2 (Z.ltb_lt _ _)) by (destruct bs; [done|cbn; lia]). cbn [whenM].
  destruct (write_log_loop bs s start 0 Hl Hpin) as (s1 & E1 & He1 & Hf1 & Hc1 & Hn1 & Hv1 & Hw1 & Hd1 & Ht1).
  pose proof (bio_frame_log _ _ Hf1) as El1.
  unfold write_log, get_log. erewrite bind_assoc; [|unfold gets; reflexivity]. rw Hn. mstep E1.
  destruct (write_head_ok s1) as (s2 & E2 & He2 & Hf2 & Hc2 & Hv2 & Hn2 & Hd2 & Ht2); rw ?El1 ?Hst ?Hn //.
  { by eapply has_free_same. } { by eapply refs_small_eq. } { lia. }
  rw El1 Hst in Hv2 Hd2 Ht2. mstep E2. pose proof (bio_frame_log _ _ Hf2) as El2.
  assert (view s1 start = view s start) as Evs by (apply Hv1; unfold log_blk; lia).
  assert (put_head (lg_lh (k_log s)) (view s1 start) = commit_head s) as Eh by (unfold commit_head; by rw Hst Evs).
  rw Eh in Hv2 Hd2 Ht2.
  unfold install_trans, get_log. erewrite bind_assoc; [|unfold gets; reflexivity]. rw El2 El1 Hn.
  destruct (install_loop 0 bs s2 start 0) as (s3 & E3 & He3 & Hf3 & Hfr3 & _ & Hn3 & Hv3 & Hw3 & Hd3 & Ht3).
  { split; rw ?El2 ?El1 //; [eapply has_free_same; [|exact Hfr]; congruence|]. intros x. by rw Hn2 Hn1. }
  { done. }
  { intros _. eapply Forall_impl; [exact Hpin|]. intros x Hx. cbn in *. by rw Hn2 Hn1. }
  { done. }
  mstep E3. unfold upd_lh, upd_log. rw bind_modify.
  pose proof (bio_frame_log _ _ Hf3) as El3. rw El3 El2 El1. set (g := set_lg_lh _ (k_log s)).
  destruct (write_head_ok (set_k_log g s3)) as (s4 & E4 & He4 & Hf4 & Hc4 & Hv4 & Hn4 & Hd4 & Ht4); kcbn.
  { by apply benv_set_log. } { done. }
  { intros x. change (refs s3 x < 2 ^ 30). rw Hn3 Hn2 Hn1. specialize (Hsm x).
    rewrite -> (decide_True (P := 0 = 0)) by done. destruct (decide (x ∈ bs)); lia. }
  { done. } { unfold g. cbn. lia. } { done. }
  change (k_log (set_k_log g s3)) with g in Hv4, Hd4, Ht4. change (lg_start g) with (lg_start (k_log s)) in *.
  rw Hst in Hv4 Hd4 Ht4.
  assert (start ∉ bs) as Hsb.
  { intros Hin. rewrite -> Forall_forall in Hhome. specialize (Hhome _ Hin). unfold home_ok in Hhome. lia. }
  assert (put_head (lg_lh g) (view (set_k_log g s3) start) = commit_tail s) as Et.
  { unfold commit_tail. change (view (set_k_log g s3) start) with (view s3 start).
    rw Hv3 // Hv2 decide_True //. }
  rw Et in Hv4 Hd4 Ht4.
  assert (home_writes start 0 bs (view s2) = (λ b, (b, view s b)) <$> bs) as Eh3.
  { unfold home_writes. rw -(imap_const (λ b, (b, view s b))). apply imap_ext. intros i x Hx. f_equal. rw Hv2 decide_False.
    - by rw (Hw1 i x).
    - unfold log_blk. lia. }
  rw Eh3 in Hd3 Ht3.
  destruct (bio_frame_set_log s s3 s4 g) as (s5 & Hf5 & ->);
    [eauto using bio_frame_trans|done|].
  exists (set_k_log g s5), s5. split_and!.
  - exact E4.
  - done.
  - done.
  - done.
  - intros x Hx. rw Hv4 decide_False; [|lia]. change (view (set_k_log g s3) x) with (view s3 x).
    destruct (decide (x ∈ bs)) as [Hin|Hin].
    + apply list_elem_of_lookup in Hin as [i Hi]. rw (Hw3 i x) // Hv2 decide_False; [|unfold log_blk; lia].
      by rw (Hw1 i x).
    + rw Hv3 // Hv2 decide_False; [|lia]. apply Hv1. unfold log_blk. lia.
  - intros x. rw Hn4. change (refs (set_k_log g s3) x) with (refs s3 x). rw Hn3 Hn2 Hn1 //.
  - rw Hd4. kcbn. rw Hd3 Hd2 Hd1. unfold commit_writes. by rw !apply_writes_app.
  - rw Ht4. kcbn. rw Ht3 Ht2 Ht1. unfold commit_writes. by rw -!app_assoc.
Qed.

(** *** Recovery *)

(** The cache after boot: nothing is referenced, so every block is the disk's. *)
Record booted (s : kstate) (start : Z) : Prop := {
  bt_env : benv p q s ∅;
  bt_refs x : refs s x = 0;
  bt_free : free2 s;
  bt_dev : lg_dev (k_log s) = ROOTDEV;
  bt_start : lg_start (k_log s) = start;
  bt_range : 0 ≤ start < 2 ^ 30;
  bt_len : length (lh_block (lg_lh (k_log s))) = Z.to_nat LOGSIZE
}.

(** The loop of [read_head]. *)
Lemma lh_put_loop f (m : nat) : ∀ s t,
  0 ≤ t → t + m ≤ length (lh_block (lg_lh (k_log s))) →
  ∃ bl, eachM (seqZ t m) (λ i, lh_put i (f i)) s =
      Ret tt (set_k_log (set_lg_lh (set_lh_block bl (lg_lh (k_log s))) (k_log s)) s) ∧
    length bl = length (lh_block (lg_lh (k_log s))) ∧
    (∀ i : nat, t ≤ i < t + m → bl !! i = Some (f (Z.of_nat i))) ∧
    (∀ i : nat, i < t → bl !! i = lh_block (lg_lh (k_log s)) !! i).
Proof.
  induction m as [|m IH]; intros s t Ht Hm.
  { exists (lh_block (lg_lh (k_log s))). split_and!; [|done|lia|done].
    cbn. destruct s as [? ? ? ? ? ? ? ? ? ? ? g]. destruct g as [? ? ? ? ? h]. by destruct h. }
  rw Nat2Z.inj_succ seqZ_cons; [|lia]. rw Z.pred_succ. cbn [eachM].
  destruct (lookup_lt_is_Some_2 (lh_block (lg_lh (k_log s))) (Z.to_nat t)) as [x Hx]; [lia|].
  assert (lh_put t (f t) s = Ret tt (set_k_log (set_lg_lh
    (set_lh_block (zset (lh_block (lg_lh (k_log s))) t (f t)) (lg_lh (k_log s))) (k_log s)) s)) as E1.
  { unfold lh_put. by mstep (lh_get_ok s t x Ht Hx). }
  mstep E1. set (s1 := set_k_log _ s).
  destruct (IH s1 (t + 1)) as (bl & E2 & Hl & Hin & Hout); [lia|kcbn; unfold s1; kcbn; cbn; unfold zset; rw length_insert; lia|].
  exists bl. split_and!.
  - exact E2.
  - rw Hl. unfold s1. kcbn. cbn. unfold zset. by rw length_insert.
  - intros i Hi. destruct (decide (i = Z.to_nat t)) as [->|Hne].
    + rw Hout; [|lia]. unfold s1. kcbn. cbn. unfold zset. rw list_lookup_insert_eq; [|by eapply lookup_lt_Some].
      do 2 f_equal. lia.
    + apply Hin. lia.
  - intros i Hi. rw Hout; [|lia]. unfold s1. kcbn. cbn. unfold zset. rw list_lookup_insert_ne //. lia.
Qed.

Lemma read_head_ok s start :
  let hdr := dblock (k_disk s) start in
  booted s start → 0 ≤ head_n hdr ≤ LOGSIZE →
  ∃ s1 bl, let g := set_lg_lh (Logheader (head_n hdr) bl) (k_log s) in
    read_head s = Ret tt (set_k_log g s1) ∧ booted (set_k_log g s1) start ∧ bio_frame s s1 ∧
    k_disk s1 = k_disk s ∧ k_dtrace s1 = k_dtrace s ∧
    (∀ i : nat, i < head_n hdr → bl !! i = Some (head_block hdr (Z.of_nat i))).
Proof.
  intros hdr [He Hr Hfr Hdev Hst Hrg Hlen] Hn. unfold read_head, get_log. rw bind_gets.
  rw Hdev Hst. change (u32 ROOTDEV) with ROOTDEV. rw (u32_small start); [|lia].
  destruct (bread_ok0 p q s start He) as (b & s1 & E1 & He1 & Hh1 & Hv1 & Hn1 & Hf1 & Hd1 & Ht1 & Hc1);
    [right; by apply free2_has|rw Hr; lia|]. mstep E1.
  rw (view_unref p q s ∅ start He (Hr start)) Hr in Hh1. fold hdr in Hh1.
  destruct (get_held _ _ _ _ _ _ Hh1) as (k & Eg & Hk & _). mstep Eg. rw Hk. fold (head_n hdr).
  pose proof (bio_frame_log _ _ Hf1) as El1.
  unfold upd_lh, upd_log. rw bind_modify. rw El1. set (g1 := set_lg_lh _ (k_log s)). rw bind_gets.
  change (lh_n (lg_lh (k_log (set_k_log g1 s1)))) with (head_n hdr).
  destruct (lh_put_loop (head_block hdr) (Z.to_nat (head_n hdr)) (set_k_log g1 s1) 0) as (bl & E2 & Hl & Hin & _);
    [lia|unfold g1; kcbn; cbn; rw Hlen; lia|].
  rw Z2Nat.id in E2; [|lia]. mstep E2.
  set (s2 := set_k_log (set_lg_lh (set_lh_block bl _) _) (set_k_log g1 s1)) in *.
  assert (holds s2 q b start hdr 1) as Hh2 by by eapply holds_frame; [..|exact Hh1].
  destruct (brelse_ok p q s2 {[b]}) with (b := b) (bno := start) (d := hdr) (r := 1) as
    (s3 & E3 & He3 & Hv3 & Hn3 & _ & Hf3 & Hd3 & Ht3 & Hc3); [do 2 apply benv_set_log; exact He1|exact Hh2|set_solver| |].
  { intros _. change (k_disk s2) with (k_disk s1). by rw Hd1. }
  replace ({[b]} ∖ {[b]} : gset nat) with (∅ : gset nat) in He3 by set_solver.
  set (g := set_lg_lh (Logheader (head_n hdr) bl) (k_log s)).
  assert (s2 = set_k_log g s1) as Es2 by (unfold s2, g; by destruct s1).
  rw Es2 in Hf3. destruct (bio_frame_set_log s s1 s3 g Hf1 Hf3) as (s4 & Hf4 & ->).
  exists s4, bl. split_and!.
  - exact E3.
  - split; [exact He3| |..]; try done.
    + intros x. rw Hn3. change (refs s2 x) with (refs s1 x). rw Hn1 Hr. destruct (decide (x = start)); lia.
    + destruct Hfr as (i & j & Hij). exists i, j. rw Hc3. change (rcs s2) with (rcs s1). by rw Hc1 inc_dec.
    + unfold g. cbn. rw Hl. unfold g1. cbn. done.
  - done.
  - change (k_disk (set_k_log g s4) = k_disk s). by rw Hd3 Es2.
  - change (k_dtrace (set_k_log g s4) = k_dtrace s). by rw Ht3 Es2.
  - intros i Hi. apply Hin. lia.
Qed.

(** The blocks named by a header block. *)
Definition head_blocks (hdr : list Z) : list Z := head_block hdr <$> seqZ 0 (head_n hdr).

Lemma recover_spec s start :
  let hdr := dblock (k_disk s) start in
  booted s start → 0 ≤ head_n hdr ≤ LOGSIZE → Forall (home_ok start) (head_blocks hdr) →
  NoDup (head_blocks hdr) →
  ∃ s', recover_from_log s = Ret tt s' ∧
    k_disk s' = apply_writes (home_writes start 0 (head_blocks hdr) (dblock (k_disk s)) ++
                              [(start, wr32 hdr hb_n 0)]) (k_disk s).
Proof.
  intros hdr Hb Hn Hhome Hnd. set (bs := head_blocks hdr) in *.
  destruct (read_head_ok s start Hb Hn) as (s1 & bl & E1 & Hb1 & Hf1 & Hd1 & Ht1 & Hbl). fold hdr in E1, Hb1, Hbl.
  set (g1 := set_lg_lh (Logheader (head_n hdr) bl) (k_log s)) in *. set (s2 := set_k_log g1 s1) in *.
  unfold recover_from_log. mstep E1. unfold install_trans at 1, get_log. erewrite bind_assoc; [|unfold gets; reflexivity].
  change (lh_n (lg_lh (k_log s2))) with (head_n hdr).
  destruct Hb1 as [He1 Hr1 Hfr1 Hdev1 Hst1 Hrg1 Hlen1].
  assert (length bs = Z.to_nat (head_n hdr)) as Hlbs by (unfold bs, head_blocks; by rw length_fmap length_seqZ).
  destruct (install_loop 1 bs s2 start 0) as (s3 & E3 & He3 & Hf3 & Hfr3 & Hc3 & Hn3 & Hv3 & Hw3 & Hd3 & Ht3).
  { split; try done.
    - by apply free2_has.
    - intros x. by rw Hr1.
    - rw Hlbs. lia.
    - intros i b Hi. rw Nat.add_0_l. change (bl !! i = Some b).
      unfold bs, head_blocks in Hi. rw list_lookup_fmap in Hi.
      destruct (seqZ 0 (head_n hdr) !! i) as [j|] eqn:Hj; [|done]. injection Hi as <-.
      apply lookup_seqZ in Hj as [-> Hj]. rw Hbl; [|lia]. done. }
  { done. } { done. } { done. }
  rw Hlbs Z2Nat.id in E3; [|lia]. mstep E3. unfold upd_lh, upd_log. rw bind_modify.
  pose proof (bio_frame_log _ _ Hf3) as El3. rw El3. change (k_log s2) with g1. set (g := set_lg_lh _ g1).
  assert (∀ x, refs s3 x = 0) as Hr3.
  { intros x. rw Hn3 Hr1. rewrite -> (decide_False (P := 1 = 0)) by lia. by destruct (decide (x ∈ bs)). }
  destruct (write_head_ok (set_k_log g s3)) as (s4 & E4 & He4 & Hf4 & Hc4 & Hv4 & Hn4 & Hd4 & Ht4); kcbn.
  { by apply benv_set_log. } { done. } { intros x. change (refs s3 x < 2 ^ 30). by rw Hr3. }
  { exact Hdev1. } { change (lg_start g) with (lg_start (k_log s2)). by rw Hst1. } { done. }
  exists s4. split; [exact E4|]. rw Hd4. kcbn. rw Hd3 apply_writes_app.
  change (lg_start g) with (lg_start (k_log s2)). rw Hst1. change (k_disk s2) with (k_disk s1). rw Hd1.
  assert (start ∉ bs) as Hsb.
  { intros Hin. rewrite -> Forall_forall in Hhome. specialize (Hhome _ Hin). unfold home_ok in Hhome. lia. }
  change (view (set_k_log g s3) start) with (view s3 start). rw Hv3 //.
  assert (∀ x, view s2 x = dblock (k_disk s) x) as Hv2.
  { intros x. rw (view_unref p q s2 ∅ x He1 (Hr1 x)). change (k_disk s2) with (k_disk s1). by rw Hd1. }
  rw Hv2. fold hdr. cbn [apply_writes foldl]. f_equal.
  unfold home_writes. f_equal. apply imap_ext. intros i x _. by rw Hv2.
Qed.

(** *** Recording a block *)

Lemma log_index_spec blocks bno (n : nat) : ∀ i : nat,
  let r := log_index blocks (Z.of_nat i) n bno in
  (∃ j : nat, r = Z.of_nat j ∧ (i ≤ j < i + n)%nat ∧ u32 (zget blocks (Z.of_nat j)) = bno) ∨
  (r = Z.of_nat (i + n) ∧ ∀ j : nat, (i ≤ j < i + n)%nat → u32 (zget blocks (Z.of_nat j)) ≠ bno).
Proof.
  induction n as [|n IH]; intros i; cbn [log_index].
  { right. split; [f_equal; lia|lia]. }
  destruct (Z.eqb_spec (u32 (zget blocks (Z.of_nat i))) bno) as [E|E].
  { left. exists i. split_and!; [done|lia|lia|done]. }
  replace (Z.of_nat i + 1) with (Z.of_nat (S i)) by lia. destruct (IH (S i)) as [(j & -> & Hj & Ej)|[-> Hn]].
  - left. exists j. split_and!; [done|lia|lia|done].
  - right. split; [f_equal; lia|]. intros j Hj. destruct (decide (j = i)) as [->|]; [done|]. apply Hn. lia.
Qed.

(** The blocks in the log. *)
Definition logged (g : logst) : list Z := take (Z.to_nat (lh_n (lg_lh g))) (lh_block (lg_lh g)).

(** The log accepts one more block. *)
Record log_room (s : kstate) : Prop := {
  rm_n : 0 ≤ lh_n (lg_lh (k_log s)) < LOGSIZE;
  rm_size : lh_n (lg_lh (k_log s)) < lg_size (k_log s) - 1;
  rm_out : 1 ≤ lg_outstanding (k_log s);
  rm_len : length (lh_block (lg_lh (k_log s))) = Z.to_nat LOGSIZE;
  rm_blocks : Forall (λ b, 0 ≤ b < 2 ^ 31) (logged (k_log s))
}.

(** The index found by the loop of [log_write]. *)
Lemma log_write_index g bno :
  let n := lh_n (lg_lh g) in let new := bool_decide (bno ∉ logged g) in
  let i := log_index (lh_block (lg_lh g)) 0 (Z.to_nat n) bno in
  0 ≤ n ≤ length (lh_block (lg_lh g)) → Forall (λ b, 0 ≤ b < 2 ^ 31) (logged g) →
  0 ≤ i ≤ n ∧ (i =? n) = new ∧ (new = false → zget (lh_block (lg_lh g)) i = bno).
Proof.
  intros n new i Hn Hbl. pose proof (log_index_spec (lh_block (lg_lh g)) bno (Z.to_nat n) 0%nat) as Hs.
  change (Z.of_nat 0) with 0 in Hs. fold i in Hs.
  assert (length (logged g) = Z.to_nat n) as Hll by (unfold logged; rw length_take; lia).
  assert (∀ j : nat, (j < Z.to_nat n)%nat → logged g !! j = Some (zget (lh_block (lg_lh g)) (Z.of_nat j)) ∧
    u32 (zget (lh_block (lg_lh g)) (Z.of_nat j)) = zget (lh_block (lg_lh g)) (Z.of_nat j)) as Hget.
  { intros j Hj. destruct (lookup_lt_is_Some_2 (logged g) j) as [x Hx]; [lia|].
    assert (zget (lh_block (lg_lh g)) (Z.of_nat j) = x) as ->.
    { unfold zget. rw Nat2Z.id. apply list_lookup_total_correct. unfold logged in Hx. by apply lookup_take_Some in Hx as [? _]. }
    split; [done|]. rewrite -> Forall_lookup in Hbl. specialize (Hbl j x Hx). apply u32_small. lia. }
  destruct Hs as [(j & -> & Hj & Ej)|[-> Hno]].
  - destruct (Hget j) as [Hj1 Hj2]; [lia|]. rw Hj2 in Ej. subst bno.
    assert (new = false) as -> by (apply bool_decide_eq_false; intros Hx; apply Hx; by eapply list_elem_of_lookup_2).
    split_and!; [lia|lia|lia|done].
  - assert (new = true) as ->; [|rw Nat.add_0_l Z2Nat.id; [|lia]; rw Z.eqb_refl; split_and!; [lia|lia|done|done]].
    apply bool_decide_eq_true. intros [j Hj]%list_elem_of_lookup. apply lookup_lt_Some in Hj as Hj'.
    destruct (Hget j) as [Hj1 Hj2]; [lia|]. apply (Hno j); [lia|]. congruence.
Qed.

(** The log after [log_write] of block [bno]. *)
Definition log_add (bno : Z) (g : logst) : logst :=
  let n := lh_n (lg_lh g) in
  let i := log_index (lh_block (lg_lh g)) 0 (Z.to_nat n) bno in
  set_lg_lh (Logheader (if i =? n then n + 1 else n) (zset (lh_block (lg_lh g)) i bno)) g.

Lemma log_add_spec bno g :
  let new := bool_decide (bno ∉ logged g) in
  0 ≤ lh_n (lg_lh g) < length (lh_block (lg_lh g)) → Forall (λ b, 0 ≤ b < 2 ^ 31) (logged g) →
  logged (log_add bno g) = logged g ++ (if new then [bno] else []) ∧
  length (lh_block (lg_lh (log_add bno g))) = length (lh_block (lg_lh g)) ∧
  lh_n (lg_lh (log_add bno g)) = lh_n (lg_lh g) + b2z new.
Proof.
  intros new Hn Hbl. destruct (log_write_index g bno) as (Hi & Hin & Hold); [lia|done|]. fold new in Hin, Hold.
  unfold log_add. set (n := lh_n (lg_lh g)) in *. set (i := log_index _ _ _ _) in *.
  unfold logged. cbn [lg_lh set_lg_lh lh_n lh_block]. rw Hin. fold n. unfold zset. rw length_insert.
  destruct new eqn:En; cbn [b2z]; (split_and!; [|done|lia]).
  - assert (i = n) as -> by lia. replace (Z.to_nat (n + 1)) with (S (Z.to_nat n)) by lia.
    erewrite take_S_r; [|apply list_lookup_insert_eq; lia]. by rw take_insert_ge.
  - rw app_nil_r list_insert_id //. rw -(Hold eq_refl). unfold zget.
    apply list_lookup_lookup_total_lt. lia.
Qed.

Lemma log_write_run s b k :
  let new := bool_decide (b_blockno k ∉ logged (k_log s)) in
  fsenv p q s → log_room s → k_bufs s !! b = Some k → 0 ≤ b_blockno k < 2 ^ 31 →
  log_write b s = Ret tt (set_k_log (log_add (b_blockno k) (k_log s))
    (if new then set_k_bufs (<[b := set_b_refcnt (u32 (b_refcnt k + 1)) k]> (k_bufs s)) s else s)).
Proof.
  intros new Henv [Hn Hsz Ho Hl Hbl] Hk Hb. unfold log_add. set (g := k_log s) in *. set (n := lh_n (lg_lh g)) in *.
  assert (LOGSIZE = 30) as HL by done.
  destruct (log_write_index g (b_blockno k)) as (Hi & Hin & Hold); [lia|done|]. fold new n in Hin, Hold, Hi.
  set (i := log_index _ _ _ _) in *. unfold log_write. pose proof (fe_locks Henv (l := LLog) eq_refl) as Hfree.
  mstep (kacquire_free _ _ (fe_ok Henv) Hfree). set (s1 := set_k_sync _ s). unfold get_log at 1. rw bind_gets.
  change (k_log s1) with g. fold n.
  replace ((LOGSIZE <=? n) || (lg_size g - 1 <=? n)) with false by lia.
  replace (lg_outstanding g <? 1) with false by lia.
  mstep (get_buf_spec s1 b k Hk). fold i. rw (i32_small (b_blockno k)); [|lia].
  set (bl := zset (lh_block (lg_lh g)) i (b_blockno k)).
  set (s2 := set_k_log (set_lg_lh (set_lh_block bl (lg_lh g)) g) s1).
  assert (lh_put i (b_blockno k) s1 = Ret tt s2) as E2.
  { destruct (lookup_lt_is_Some_2 (lh_block (lg_lh g)) (Z.to_nat i)) as [x Hx]; [lia|].
    unfold lh_put. by mstep (lh_get_ok s1 i x (proj1 Hi) Hx). }
  mstep E2. rw Hin. destruct new; cbn [whenM].
  - erewrite bind_assoc; [|apply (bpin_run s2 b k); [apply acq_ok, Henv|apply acq_free_ne; [done|by apply (fe_locks Henv)]|exact Hk]].
    unfold upd_lh, upd_log. rw bind_modify. erewrite krelease_acq; [|done|apply Henv|done].
    unfold s2, s1. by f_equal.
  - rw bind_mret. erewrite krelease_acq; [|done|apply Henv|done].
    unfold s2, s1, n, bl, g. destruct s as [? ? ? ? ? ? ? ? ? ? ? [? ? ? ? ? []]]. done.
Qed.

Lemma log_write_ok s H b bno d r :
  benv p q s H → holds s q b bno d r → log_room s → 0 ≤ bno < 2 ^ 31 → 0 < r → r + 1 < 2 ^ 31 →
  let new := bool_decide (bno ∉ logged (k_log s)) in
  ∃ s', log_write b s = Ret tt s' ∧ benv p q s' H ∧ holds s' q b bno d (r + b2z new) ∧
    k_log s' = log_add bno (k_log s) ∧
    (∀ x, view s' x = view s x) ∧
    (∀ x, refs s' x = refs s x + if decide (x = bno) then b2z new else 0) ∧
    (∀ b' bno' d r, b' ≠ b → holds s q b' bno' d r → holds s' q b' bno' d r) ∧
    k_disk s' = k_disk s ∧ k_dtrace s' = k_dtrace s ∧
    rcs s' = alter (λ r, r + b2z new) b (rcs s).
Proof.
  intros He Hh Hrm Hb Hr Hr1 new. destruct (Hh) as (k & Hbh & Hkd & Hkr).
  pose proof (bh_buf _ _ _ _ _ Hbh) as Hk.
  destruct (proj1 (is_block_fields bno k) (bh_block _ _ _ _ _ Hbh)) as [_ Hkb].
  rw -Hkb in Hb. pose proof (log_write_run s b k (be_env He) Hrm Hk Hb) as E.
  rw Hkb Hkr in E. fold new in E. destruct (be_inv He) as [l Hinv].
  destruct (holds_view s q b bno d r l Hinv Hh) as [_ Hrf]. destruct new eqn:En; cbn [b2z].
  - rw u32_small in E; [|lia].
    destruct (set_ref_ok p q s H He b bno d r (r + 1) Hh) as (s1 & E1 & He1 & Hh1 & Hv1 & Hn1 & Ho1 & Es1 & Hc1); [lia|].
    rw (upd_buf_insert s b k) // in E1. injection E1 as E1. rw E1 in E.
    eexists. split; [exact E|]. split_and!; try done.
    + by apply benv_set_log.
    + by eapply holds_frame; [..|exact Hh1].
    + intros x. change (refs s1 x = refs s x + if decide (x = bno) then 1 else 0). rw Hn1.
      destruct (decide (x = bno)) as [->|]; lia.
    + intros b' bno' d' r' Hne Hb'. by eapply holds_frame; [..|apply Ho1; [done|exact Hb']].
    + change (k_disk s1 = k_disk s). by rw -E1.
    + change (k_dtrace s1 = k_dtrace s). by rw -E1.
    + change (rcs s1 = alter (λ r, r + 1) b (rcs s)). rw Hc1. symmetry. rw -Hkr.
      exact (list_alter_insert _ b (λ r, r + 1) _ (rcs_lookup _ _ _ Hk)).
  - eexists. split; [exact E|]. rw Z.add_0_r. split_and!; try done.
    + by apply benv_set_log.
    + by eapply holds_frame; [..|exact Hh].
    + intros x. change (refs s x = refs s x + if decide (x = bno) then 0 else 0). destruct (decide (x = bno)); lia.
    + intros b' bno' d' r' _ Hb'. by eapply holds_frame; [..|exact Hb'].
    + change (rcs s = alter (λ r, r + 0) b (rcs s)). symmetry. apply alter_id_ext. lia.
Qed.

(** *** Beginning and ending an operation *)

(** There is room for one more operation. *)
Definition admits (g : logst) : Prop :=
  lg_committing g = 0 ∧ lh_n (lg_lh g) + (lg_outstanding g + 1) * MAXOPBLOCKS ≤ LOGSIZE.

Lemma begin_op_ok s :
  fsenv p q s → admits (k_log s) →
  begin_op s = Ret tt (set_k_log (set_lg_outstanding (lg_outstanding (k_log s) + 1) (k_log s)) s).
Proof.
  intros Henv [Hc Hn]. unfold begin_op. pose proof (fe_locks Henv (l := LLog) eq_refl) as Hfree.
  mstep (kacquire_free _ _ (fe_ok Henv) Hfree). rw bind_gets. kcbn.
  destruct (k_fuel s) as [|fuel] eqn:Hf; [by destruct (fe_fuel Henv)|]. cbn [loopM].
  unfold get_log. rewrite -> bind_assoc with (a := k_log s) (s' := set_k_sync (acq LLog (k_sync s)) s) by done.
  rw Hc. cbn [negb Z.eqb]. rewrite -> (proj2 (Z.ltb_ge _ _)) by lia.
  unfold upd_log. erewrite bind_assoc; [|reflexivity].
  erewrite bind_assoc; [|by apply (krelease_acq LLog _ (k_sync s)); [|apply Henv|]].
  rw bind_mret. unfold mret, M_ret. f_equal.
Qed.

Lemma fsenv_set_log g s : fsenv p q s → fsenv p q (set_k_log g s).
Proof. intros He. by eapply fsenv_keep. Qed.

(** [commit] does not look at the two counters. *)
Lemma can_commit_set s start bs g :
  can_commit s start bs → lg_dev g = lg_dev (k_log s) → lg_start g = lg_start (k_log s) →
  lg_lh g = lg_lh (k_log s) → can_commit (set_k_log g s) start bs.
Proof.
  intros [[He Hfr Hsm Hdev Hst Hrg Ht Hbs Hhome] Hn Hpos Hnd Hpin] E1 E2 E3.
  split; [|by kcbn; rw E3|done|done|done].
  split; kcbn; rw ?E1 ?E2 ?E3 //. by apply benv_set_log.
Qed.

(** [end_op] calls [wakeup] under [log.lock]. *)
Lemma wakeup_log s :
  fsenv p q s → wakeup CLog (set_k_sync (acq LLog (k_sync s)) s) = Ret tt (set_k_sync (acq LLog (k_sync s)) s).
Proof.
  intros He. pose proof (wakeup_quiet p q s CLog He eq_refl) as Hq.
  rewrite -> (wakeup_spec _ CLog (Some p)); kcbn.
  - rw Hq. by destruct s.
  - apply acq_ok, He.
  - apply running_acq, He.
  - destruct (fe_procs He) as [Hlen Hfree]. split; [done|]. intros i Hi. apply acq_free_ne; [done|by apply Hfree].
Qed.

(** An [end_op] that is not the last one only gives its reservation back. *)
Lemma end_op_more s :
  fsenv p q s → lg_committing (k_log s) = 0 → lg_outstanding (k_log s) ≠ 1 →
  end_op s = Ret tt (set_k_log (set_lg_outstanding (lg_outstanding (k_log s) - 1) (k_log s)) s).
Proof.
  intros Henv Hc Ho. unfold end_op. pose proof (fe_locks Henv (l := LLog) eq_refl) as Hfree.
  mstep (kacquire_free _ _ (fe_ok Henv) Hfree). unfold upd_log, get_log. msimp. kcbn. rw Hc. cbn [negb Z.eqb lg_outstanding set_lg_outstanding].
  rewrite -> (proj2 (Z.eqb_neq (lg_outstanding (k_log s) - 1) 0)) by lia. cbv beta iota.
  set (s1 := set_k_log (set_lg_outstanding (lg_outstanding (k_log s) - 1) (k_log s)) s). assert (fsenv p q s1) as He1 by by apply fsenv_set_log.
  erewrite bind_assoc; [|exact (wakeup_log s1 He1)]. rw bind_mret.
  erewrite bind_Ret; [|by apply (krelease_acq LLog _ (k_sync s)); [|apply Henv|]].
  unfold whenM, mret, M_ret. by destruct s.
Qed.

(** The last one commits. *)
Lemma end_op_last s start bs :
  can_commit s start bs → lg_committing (k_log s) = 0 → lg_outstanding (k_log s) = 1 →
  ∃ s', end_op s = Ret tt s' ∧ benv p q s' ∅ ∧
    lg_committing (k_log s') = 0 ∧ lg_outstanding (k_log s') = 0 ∧ lh_n (lg_lh (k_log s')) = 0 ∧
    (∀ x, ¬ (start ≤ x ≤ start + LOGSIZE) → view s' x = view s x) ∧
    (∀ x, refs s' x = refs s x - if decide (x ∈ bs) then 1 else 0) ∧
    k_disk s' = apply_writes (commit_writes s start bs) (k_disk s) ∧
    k_dtrace s' = k_dtrace s ++ commit_writes s start bs.
Proof.
  intros Hcc Hc Ho. pose proof (be_env (lr_env _ _ _ _ (cc_ready _ _ _ Hcc))) as Henv.
  unfold end_op. pose proof (fe_locks Henv (l := LLog) eq_refl) as Hfree.
  mstep (kacquire_free _ _ (fe_ok Henv) Hfree). unfold upd_log, get_log. msimp. kcbn. rw Hc Ho.
  cbn [negb Z.eqb lg_outstanding set_lg_outstanding]. rw Z.sub_diag Z.eqb_refl. erewrite bind_assoc; [|reflexivity]. rw bind_mret. kcbn.
  erewrite bind_Ret; [|by apply (krelease_acq LLog _ (k_sync s)); [|apply Henv|]]. cbn [whenM].
  set (s1 := set_k_sync _ _).
  assert (s1 = set_k_log (set_lg_committing 1 (set_lg_outstanding 0 (k_log s))) s) as E1 by (unfold s1; by destruct s).
  clearbody s1. assert (can_commit s1 start bs) as Hcc1 by (rw E1; by apply can_commit_set).
  destruct (commit_spec s1 start bs Hcc1) as (s3 & s2 & E2 & He3 & Hf & E3 & Hv & Hr & Hd & Ht).
  mstep E2. pose proof (be_env He3) as Henv3. pose proof (fe_locks Henv3 (l := LLog) eq_refl) as Hfree3.
  mstep (kacquire_free _ _ (fe_ok Henv3) Hfree3). msimp. kcbn.
  set (s4 := set_k_log (set_lg_committing 0 (k_log s3)) s3).
  mstep (wakeup_log s4 (fsenv_set_log _ _ Henv3)).
  rewrite -> (krelease_acq LLog (set_k_sync (acq LLog (k_sync s4)) s4) (k_sync s4)); [|done|apply Henv3|done].
  exists s4. assert (commit_writes s1 start bs = commit_writes s start bs) as Ew by by rw E1.
  assert (lg_outstanding (k_log s3) = 0 ∧ lh_n (lg_lh (k_log s3)) = 0) as [Eo En].
  { rw E3. kcbn. split; [|done]. by rw E1. }
  split_and!; try done.
  - by apply benv_set_log.
  - intros x Hx. transitivity (view s1 x); [by apply Hv|by rw E1].
  - intros x. transitivity (refs s1 x - if decide (x ∈ bs) then 1 else 0); [by apply Hr|by rw E1].
  - change (k_disk s4) with (k_disk s3). rw Hd Ew. by rw E1.
  - change (k_dtrace s4) with (k_dtrace s3). rw Ht Ew. by rw E1.
Qed.

(** *** Atomicity *)

Lemma log_writes_fst start t bs vw :
  (log_writes start t bs vw).*1 = (λ i, log_blk start i) <$> seqZ t (length bs).
Proof.
  revert t. induction bs as [|b bs IH]; intros t; [done|]. rw log_writes_cons. cbn [length fmap list_fmap fst].
  rw Nat2Z.inj_succ seqZ_cons; [|lia]. rw Z.pred_succ. cbn. f_equal. apply IH.
Qed.

Lemma length_log_writes start t bs vw : length (log_writes start t bs vw) = length bs.
Proof. apply length_imap. Qed.

(** What a header block of the crash states says. *)
Lemma commit_head_blocks s start bs :
  can_commit s start bs → length (view s start) = Z.to_nat BSIZE →
  head_n (commit_head s) = length bs ∧ head_blocks (commit_head s) = bs ∧
  head_n (commit_tail s) = 0.
Proof.
  intros [Hl Hn Hpos Hnd Hpin] Hlen. destruct Hl as [He Hfr Hsm Hdev Hst Hrg Ht Hbs Hhome].
  assert (∀ i : nat, (i < length bs)%nat → bs !! i = Some (zget (lh_block (lg_lh (k_log s))) (Z.of_nat i))) as Hz.
  { intros i Hi. destruct (lookup_lt_is_Some_2 bs i Hi) as [b Hb]. rw Hb. f_equal.
    unfold zget. specialize (Hbs i b Hb). rw Nat2Z.id. symmetry. by apply list_lookup_total_correct. }
  assert (∀ i, 0 ≤ i < length bs → 0 ≤ zget (lh_block (lg_lh (k_log s))) i < 2 ^ 31) as Hzr.
  { intros i Hi. specialize (Hz (Z.to_nat i)). rw Z2Nat.id in Hz; [|lia].
    rewrite -> Forall_lookup in Hhome. eapply Hhome. apply Hz. lia. }
  destruct (put_head_spec (lg_lh (k_log s)) (view s start)) as (H1 & H2 & H3); [done|lia|by rw Hn|].
  unfold commit_tail, commit_head. rw Hst. split_and!.
  - by rw H2.
  - unfold head_blocks. rw H2 Hn. apply list_eq. intros i. rw list_lookup_fmap.
    destruct (decide (i < length bs)%nat) as [Hi|Hi].
    + rw lookup_seqZ_lt; [|lia]. cbn. rw Z.add_0_l H3; [|lia]. symmetry. by apply Hz.
    + rw lookup_seqZ_ge; [|lia]. cbn. symmetry. apply lookup_ge_None. lia.
  - destruct (put_head_spec (set_lh_n 0 (lg_lh (k_log s))) (put_head (lg_lh (k_log s)) (view s start)))
      as (_ & -> & _); [done|cbn; unfold LOGSIZE, MAXOPBLOCKS; lia|cbn; lia|done].
Qed.

(** Home blocks after recovery, when no block or all of [bs] are in the log. *)
Lemma recover_empty t start :
  booted t start → head_n (dblock (k_disk t) start) = 0 →
  ∃ t', recover_from_log t = Ret tt t' ∧ ∀ x, x ≠ start → dblock (k_disk t') x = dblock (k_disk t) x.
Proof.
  intros Hb Hn. destruct (recover_spec t start Hb) as (t' & E & Hd).
  - rw Hn. unfold LOGSIZE, MAXOPBLOCKS. lia.
  - unfold head_blocks. by rw Hn.
  - unfold head_blocks. rw Hn. constructor.
  - exists t'. split; [done|]. intros x Hx. rw Hd. unfold head_blocks. rw Hn. cbn. unfold dblock. by rw lookup_insert_ne.
Qed.

Lemma recover_full t start bs :
  booted t start → head_n (dblock (k_disk t) start) = length bs → head_blocks (dblock (k_disk t) start) = bs →
  length bs ≤ LOGSIZE → Forall (home_ok start) bs → NoDup bs →
  ∃ t', recover_from_log t = Ret tt t' ∧
    (∀ i b, bs !! i = Some b → dblock (k_disk t') b = dblock (k_disk t) (log_blk start (Z.of_nat i))) ∧
    (∀ x, x ≠ start → (x ∉ bs) → dblock (k_disk t') x = dblock (k_disk t) x).
Proof.
  intros Hb Hn Hbs Hl Hhome Hnd. destruct (recover_spec t start Hb) as (t' & E & Hd); rw ?Hbs //; [lia|].
  rw Hbs in Hd. exists t'. split; [done|]. rw Hd apply_writes_app. cbn [apply_writes foldl fst snd].
  split; [intros i b Hi|intros x Hx Hxb].
  - assert (b ≠ start).
    { rewrite -> Forall_lookup in Hhome. specialize (Hhome i b Hi). unfold home_ok in Hhome. lia. }
    transitivity (dblock (apply_writes (home_writes start 0 bs (dblock (k_disk t))) (k_disk t)) b).
    { unfold dblock. by rw lookup_insert_ne. }
    apply (apply_writes_in _ _ i); [by rw home_writes_fst|]. unfold home_writes. rw list_lookup_imap Hi. cbn. by rw Z.add_0_l.
  - transitivity (dblock (apply_writes (home_writes start 0 bs (dblock (k_disk t))) (k_disk t)) x).
    { unfold dblock. by rw lookup_insert_ne. }
    apply apply_writes_notin. by rw home_writes_fst.
Qed.

(** The disk once the header has been written, with [j] blocks installed. *)
Lemma mid_disk start bs h vw j d :
  Forall (home_ok start) bs → NoDup bs → length bs ≤ LOGSIZE →
  let d' := apply_writes (log_writes start 0 bs vw ++ [(start, h)] ++ take j ((λ b, (b, vw b)) <$> bs)) d in
  dblock d' start = h ∧
  (∀ i b, bs !! i = Some b → dblock d' (log_blk start (Z.of_nat i)) = vw b) ∧
  (∀ i b, bs !! i = Some b → (i < j)%nat → dblock d' b = vw b) ∧
  (∀ x, home_ok start x → (x ∉ bs) → dblock d' x = dblock d x).
Proof.
  intros Hhome Hnd Hl d'. set (lw := log_writes start 0 bs vw) in *.
  set (hw := (λ b, (b, vw b)) <$> bs) in *.
  assert (length lw = length bs) as Hll by apply length_log_writes.
  assert (hw.*1 = bs) as Hhw by (unfold hw; rw -list_fmap_compose; apply list_fmap_id).
  assert (∀ x, x ∈ lw.*1 → start < x ≤ start + LOGSIZE) as Hlw.
  { intros x. unfold lw. rw log_writes_fst. intros (i & -> & Hi%elem_of_seqZ)%list_elem_of_fmap.
    unfold log_blk. lia. }
  assert (∀ x, x ∈ (take j hw).*1 → home_ok start x) as Hhm.
  { intros x. rw fmap_take Hhw. intros Hx%elem_of_take. destruct Hx as (i & Hi & _).
    rewrite -> Forall_lookup in Hhome. by eapply Hhome. }
  assert (NoDup (lw ++ [(start, h)] ++ take j hw).*1) as Hk.
  { rw !fmap_app. apply NoDup_app. split_and!.
    - unfold lw. rw log_writes_fst. apply NoDup_fmap_2; [|apply NoDup_seqZ]. intros ??. unfold log_blk. lia.
    - intros x Hx%Hlw. rw elem_of_app. intros [->%list_elem_of_singleton|Hx'%Hhm]; unfold home_ok in *; cbn in *; lia.
    - cbn. apply NoDup_cons. split; [intros Hx%Hhm; unfold home_ok in Hx; unfold LOGSIZE, MAXOPBLOCKS in *; lia|].
      rw fmap_take Hhw. eapply sublist_NoDup; [exact Hnd|apply sublist_take]. }
  split_and!.
  - eapply (apply_writes_in _ _ (length bs)); [done|]. rw lookup_app_r; [|lia]. by rw Hll Nat.sub_diag.
  - intros i b Hi. eapply (apply_writes_in _ _ i); [done|]. apply lookup_lt_Some in Hi as Hi'.
    rw lookup_app_l; [|lia]. unfold lw, log_writes. rw list_lookup_imap Hi. cbn. by rw Z.add_0_l.
  - intros i b Hi Hij. eapply (apply_writes_in _ _ (length bs + S i)); [done|].
    rw lookup_app_r; [|lia]. rw Hll Nat.add_sub_swap // Nat.sub_diag. cbn. rw lookup_take_lt //.
    unfold hw. by rw list_lookup_fmap Hi.
  - intros x Hx Hxb. apply apply_writes_notin. rw !fmap_app !elem_of_app. cbn.
    intros [Hx'%Hlw|[->%list_elem_of_singleton|Hx']]; unfold home_ok in *; [lia|unfold LOGSIZE, MAXOPBLOCKS in *; lia|].
    rw fmap_take Hhw in Hx'. apply elem_of_take in Hx' as (i & Hi & _). apply Hxb. by eapply list_elem_of_lookup_2.
Qed.

(** The disk after the whole commit. *)
Lemma commit_disk s start bs x :
  can_commit s start bs → home_ok start x →
  dblock (apply_writes (commit_writes s start bs) (k_disk s)) x =
    if decide (x ∈ bs) then view s x else dblock (k_disk s) x.
Proof.
  intros [[_ _ _ _ _ _ Hbl _ Hhome] _ _ Hnd _] Hx.
  destruct (mid_disk start bs (commit_head s) (view s) (length bs) (k_disk s)) as (_ & _ & Hm3 & Hm4); [done|done|lia|].
  rw take_ge in Hm3 Hm4; [|by rw length_fmap]. unfold commit_writes.
  rewrite -> (app_assoc [_]), app_assoc, apply_writes_app. set (d1 := apply_writes _ (k_disk s)).
  assert (x ≠ start) as Hne by (unfold home_ok, LOGSIZE, MAXOPBLOCKS in *; lia).
  transitivity (dblock d1 x); [unfold dblock; cbn; by rw lookup_insert_ne|].
  destruct (decide (x ∈ bs)) as [Hin|Hin]; [|by apply Hm4].
  apply list_elem_of_lookup in Hin as [i Hi]. apply (Hm3 i x Hi). by eapply lookup_lt_Some.
Qed.

(** A crash before the header is written, while it is in force, and after
    it has been cleared; [lw] are the writes to the log, [hw] those home. *)
Section crash.
Context (s : kstate) (start : Z) (bs : list Z) (t : kstate).
Context (Hcc : can_commit s start bs) (Hlen : length (view s start) = Z.to_nat BSIZE).
Context (Hb : booted t start).
Let lw : list (Z * list Z) := log_writes start 0 bs (view s).
Let hw : list (Z * list Z) := (λ b, (b, view s b)) <$> bs.

Lemma crash_before (k : nat) :
  head_n (dblock (k_disk s) start) = 0 → k_disk t = apply_writes (take k lw) (k_disk s) →
  ∃ t', recover_from_log t = Ret tt t' ∧
    ∀ x, home_ok start x → dblock (k_disk t') x = dblock (k_disk s) x.
Proof.
  intros Hn0 Hk. destruct Hcc as [[_ _ _ _ _ _ Hbl _ _] _ _ _ _].
  assert (∀ x, (x = start ∨ home_ok start x) → dblock (k_disk t) x = dblock (k_disk s) x) as Hold.
  { intros x Hx. rw Hk. apply apply_writes_notin. rw fmap_take. unfold lw. rw log_writes_fst.
    intros (i & Hi & _)%elem_of_take. apply list_elem_of_lookup_2 in Hi.
    apply list_elem_of_fmap in Hi as (j & -> & Hj%elem_of_seqZ). unfold home_ok, log_blk in *. lia. }
  destruct (recover_empty t start Hb) as (t' & Er & Hr); [by rw Hold; [|left]|].
  exists t'. split; [done|]. intros x Hx. rw Hr; [|unfold home_ok, LOGSIZE, MAXOPBLOCKS in *; lia].
  apply Hold. by right.
Qed.

Lemma crash_during (j : nat) :
  k_disk t = apply_writes (lw ++ [(start, commit_head s)] ++ take j hw) (k_disk s) →
  ∃ t', recover_from_log t = Ret tt t' ∧
    ∀ x, home_ok start x →
      dblock (k_disk t') x = if decide (x ∈ bs) then view s x else dblock (k_disk s) x.
Proof.
  intros Hk. destruct (commit_head_blocks s start bs Hcc Hlen) as (Hhn & Hhb & _).
  destruct Hcc as [[_ _ _ _ _ _ Hbl _ Hhome] _ _ Hnd _].
  destruct (mid_disk start bs (commit_head s) (view s) j (k_disk s)) as (Hm1 & Hm2 & _ & Hm4); [done|done|lia|].
  fold lw hw in Hm1, Hm2, Hm4. rw -Hk in Hm1 Hm2 Hm4.
  destruct (recover_full t start bs Hb) as (t' & Er & Hr1 & Hr2); [by rw Hm1|by rw Hm1|lia|done|done|].
  exists t'. split; [done|]. intros x Hx. destruct (decide (x ∈ bs)) as [Hin|Hin].
  - apply list_elem_of_lookup in Hin as [i Hi]. rw (Hr1 i x Hi). by apply Hm2.
  - rw Hr2 //; [by apply Hm4|]. unfold home_ok, LOGSIZE, MAXOPBLOCKS in *. lia.
Qed.

Lemma crash_after :
  k_disk t = apply_writes (commit_writes s start bs) (k_disk s) →
  ∃ t', recover_from_log t = Ret tt t' ∧
    ∀ x, home_ok start x →
      dblock (k_disk t') x = if decide (x ∈ bs) then view s x else dblock (k_disk s) x.
Proof.
  intros Hk. destruct (commit_head_blocks s start bs Hcc Hlen) as (_ & _ & Htn).
  destruct (recover_empty t start Hb) as (t' & Er & Hr).
  { rw Hk. unfold commit_writes. rw !app_assoc apply_writes_app. unfold dblock. cbn. by rw lookup_insert_eq. }
  exists t'. split; [done|]. intros x Hx. rw Hr; [|unfold home_ok, LOGSIZE, MAXOPBLOCKS in *; lia].
  rw Hk. by apply commit_disk.
Qed.

Lemma crash_any (k : nat) :
  head_n (dblock (k_disk s) start) = 0 →
  k_disk t = apply_writes (take k (commit_writes s start bs)) (k_disk s) →
  ∃ t', recover_from_log t = Ret tt t' ∧
    ∀ x, home_ok start x →
      dblock (k_disk t') x =
        if decide (length bs < k)%nat
        then (if decide (x ∈ bs) then view s x else dblock (k_disk s) x)
        else dblock (k_disk s) x.
Proof.
  intros Hn0 Hk. assert (length lw = length bs) as Hll by apply length_log_writes.
  assert (length hw = length bs) as Hlh by (unfold hw; by rw length_fmap).
  assert (commit_writes s start bs = lw ++ [(start, commit_head s)] ++ hw ++ [(start, commit_tail s)]) as Ew by done.
  destruct (decide (length bs < k)%nat) as [Hlt|Hge].
  2: { apply (crash_before k Hn0). rw Hk Ew take_app_le //. lia. }
  destruct (decide (k ≤ length bs + S (length bs))%nat) as [Hle|Hgt].
  - apply (crash_during (k - length bs - 1)). rw Hk Ew. f_equal.
    rw take_app_ge; [|lia]. f_equal. replace (k - length lw)%nat with (S (k - length bs - 1)) by lia.
    cbn. f_equal. rw take_app_le //. lia.
  - apply crash_after. rw Hk take_ge //. rw Ew !length_app. cbn. lia.
Qed.
End crash.

(** C1. A transaction is atomic. The last [end_op] returns, with the
    transaction's blocks [bs] written by a sequence [w] of block writes; and
    whichever prefix of [w] is on the disk when the machine stops, recovery
    after the next boot returns, and leaves every block outside the log as it
    was before the transaction if the header had not been written, and with
    the whole transaction in place if it had. *)
Theorem end_op_atomic s start bs :
  can_commit s start bs → lg_committing (k_log s) = 0 → lg_outstanding (k_log s) = 1 →
  length (view s start) = Z.to_nat BSIZE → head_n (dblock (k_disk s) start) = 0 →
  ∃ s' w, end_op s = Ret tt s' ∧ k_dtrace s' = k_dtrace s ++ w ∧
    k_disk s' = apply_writes w (k_disk s) ∧
    lg_committing (k_log s') = 0 ∧ lg_outstanding (k_log s') = 0 ∧ lh_n (lg_lh (k_log s')) = 0 ∧
    ∀ k t, booted t start → k_disk t = apply_writes (take k w) (k_disk s) →
      ∃ t', recover_from_log t = Ret tt t' ∧
        ∀ x, home_ok start x →
          dblock (k_disk t') x =
            if decide (length bs < k)%nat
            then (if decide (x ∈ bs) then view s x else dblock (k_disk s) x)
            else dblock (k_disk s) x.
Proof.
  intros Hcc Hc Ho Hlen Hn0.
  destruct (end_op_last s start bs Hcc Hc Ho) as (s' & E & _ & Ec & Eo & En & _ & _ & Hd & Ht).
  exists s', (commit_writes s start bs). split_and!; try done.
  intros k t Hb Hk. by apply (crash_any s start bs t Hcc Hlen Hb k).
Qed.
End log.
