(* ===== verification/Txn.v ===== *)
(** * Transactions as the file system uses them

    Between [begin_op] and [end_op] the code of kernel/fs.c reads blocks with
    [bread], changes them in place, records the change with [log_write] and
    gives them back with [brelse]. [op_env s n W hs] describes such a state: the
    thread holds the buffers [hs] (buffer and block number), the log has room
    for the blocks [W] and for [n] others, and every cached block that is
    referenced is held or recorded in the log. The contents of the blocks are [view s]; a rule per
    operation says what it does to them. *)

From S2P Require Import Prelude Riscv KState Spinlock KString Kalloc Vm Sched Layout Bio Cache Log LogCorrect.
Open Scope Z_scope.

(** The number of buffers without references. *)
Definition nfree (s : kstate) : nat := length (filter (λ r : Z, r = 0) (take NBUF (rcs s))).

(** The blocks that must stay in the cache. *)
Definition busy (s : kstate) (hs : list (nat * Z)) : gset Z :=
  list_to_set (logged (k_log s)) ∪ list_to_set hs.*2.

(** Only the cache and the log may differ. *)
Definition op_frame (s s' : kstate) : Prop :=
  ∃ bs sl g, s' = set_k_log g (set_k_sleeplocks sl (set_k_bufs bs s)).

Section txn.
Context (p : nat) (q : proc).

Record op_env (s : kstate) (n : nat) (W : gset Z) (hs : list (nat * Z)) : Prop := {
  oe_env : benv p q s (list_to_set hs.*1);
  oe_nodup : NoDup hs.*2;
  oe_holds b bno : (b, bno) ∈ hs → ∃ r, holds s q b bno (view s bno) r;
  oe_n : Z.of_nat (length (logged (k_log s))) = lh_n (lg_lh (k_log s));
  oe_cap : size (list_to_set (logged (k_log s)) ∪ W) + n < lg_size (k_log s) - 1 ∧
           size (list_to_set (logged (k_log s)) ∪ W) + n + 2 ≤ NBUF;
  oe_W x : x ∈ W → 0 ≤ x < 2 ^ 31;
  oe_out : 1 ≤ lg_outstanding (k_log s);
  oe_len : length (lh_block (lg_lh (k_log s))) = Z.to_nat LOGSIZE;
  oe_blocks : Forall (λ b, 0 ≤ b < 2 ^ 31) (logged (k_log s));
  oe_logged : NoDup (logged (k_log s));
  oe_refs x : refs s x = b2z (bool_decide (x ∈ logged (k_log s))) + b2z (bool_decide (x ∈ hs.*2));
  oe_free : (NBUF ≤ nfree s + size (busy s hs))%nat
}.

Lemma op_frame_refl s : op_frame s s.
Proof. exists (k_bufs s), (k_sleeplocks s), (k_log s). by destruct s. Qed.
Lemma op_frame_trans s1 s2 s3 : op_frame s1 s2 → op_frame s2 s3 → op_frame s1 s3.
Proof. intros (? & ? & ? & ->) (bs & sl & g & ->). by exists bs, sl, g. Qed.

(** ** Counting free buffers *)

Lemma filter_insert_length (l : list Z) (i : nat) (x y : Z) :
  l !! i = Some x →
  (length (filter (λ r : Z, r = 0) (<[i := y]> l)) + (if decide (x = 0)%Z then 1 else 0) =
   length (filter (λ r : Z, r = 0) l) + (if decide (y = 0)%Z then 1 else 0))%nat.
Proof.
  intros Hx. rewrite <- (take_drop_middle _ _ _ Hx) at 2.
  rw insert_take_drop; [|by eapply lookup_lt_Some].
  rw !filter_app !filter_cons !length_app. repeat case_decide; cbn [length]; lia.
Qed.

Lemma nfree_alter s s' b (f : Z → Z) (r : Z) :
  rcs s' = alter f b (rcs s) → (b < NBUF)%nat → rcs s !! b = Some r →
  (nfree s' + (if decide (r = 0)%Z then 1 else 0) = nfree s + (if decide (f r = 0)%Z then 1 else 0))%nat.
Proof.
  intros E Hb Hr. unfold nfree. rw E. rewrite -> (list_alter_insert _ _ _ _ Hr).
  rw take_insert_lt //. apply filter_insert_length. by rw lookup_take_lt.
Qed.

Lemma nfree_has_free s : (0 < nfree s)%nat → has_free s.
Proof.
  unfold nfree. destruct (filter _ _) as [|x l] eqn:E; [cbn; lia|]. intros _.
  assert (x ∈ filter (λ r : Z, r = 0) (take NBUF (rcs s))) as Hx by (rw E; by left).
  apply list_elem_of_filter in Hx as [-> Hx]. apply elem_of_take in Hx as (i & Hi & Hlt). by exists i.
Qed.

Lemma size_busy s hs :
  NoDup (logged (k_log s)) → NoDup hs.*2 → (size (busy s hs) ≤ length (logged (k_log s)) + length hs)%nat.
Proof.
  intros Hnd Hnd2. unfold busy. rw size_union_alt size_list_to_set //.
  apply Nat.add_le_mono_l. etrans; [apply subseteq_size, subseteq_difference_l; reflexivity|].
  by rw size_list_to_set // length_fmap.
Qed.

Lemma logged_room s n W hs :
  op_env s n W hs →
  0 ≤ lh_n (lg_lh (k_log s)) < lg_size (k_log s) - 1 ∧ lh_n (lg_lh (k_log s)) + 2 ≤ NBUF.
Proof.
  intros Ho. destruct (oe_cap _ _ _ _ Ho) as [H1 H2]. rewrite <- (oe_n _ _ _ _ Ho).
  pose proof (size_list_to_set (C := gset Z) _ (oe_logged _ _ _ _ Ho)) as Hs.
  assert (size (list_to_set (logged (k_log s)) : gset Z) ≤ size (list_to_set (logged (k_log s)) ∪ W))%nat
    by (apply subseteq_size; set_solver). lia.
Qed.

Lemma op_grow s n W hs x :
  op_env s (S n) W hs → 0 ≤ x < 2 ^ 31 → op_env s n ({[x]} ∪ W) hs.
Proof.
  intros Ho Hx. destruct (oe_cap _ _ _ _ Ho) as [H1 H2].
  assert (size (list_to_set (logged (k_log s)) ∪ ({[x]} ∪ W)) ≤ S (size (list_to_set (logged (k_log s)) ∪ W)))%nat.
  { replace (list_to_set (logged (k_log s)) ∪ ({[x]} ∪ W)) with
      ({[x]} ∪ (list_to_set (logged (k_log s)) ∪ W) : gset Z) by set_solver.
    rw size_union_alt size_singleton. apply le_n_S, subseteq_size. set_solver. }
  destruct Ho. split; try done; [lia|]. intros y [->%elem_of_singleton|Hy]%elem_of_union; auto.
Qed.

Lemma op_has_free s n W hs : op_env s n W hs → (length hs < 2)%nat → has_free s.
Proof.
  intros Ho Hlt. apply nfree_has_free. destruct (logged_room _ _ _ _ Ho) as [_ H3].
  rewrite <- (oe_n _ _ _ _ Ho) in H3. pose proof (oe_free _ _ _ _ Ho) as Hf.
  pose proof (size_busy s hs (oe_logged _ _ _ _ Ho) (oe_nodup _ _ _ _ Ho)). lia.
Qed.

Lemma holds_rc s b bno d r : holds s q b bno d r → rcs s !! b = Some r.
Proof. intros (k & Hh & _ & <-). apply rcs_lookup, Hh. Qed.

Lemma alter_rc_back s s' b (f : Z → Z) r' :
  rcs s' = alter f b (rcs s) → rcs s' !! b = Some r' → ∃ r, rcs s !! b = Some r ∧ r' = f r.
Proof.
  intros E H. rw E list_lookup_alter_eq in H. destruct (rcs s !! b) as [r|]; [|done].
  exists r. split; [done|]. by injection H as <-.
Qed.

(** ** The rules *)

Lemma op_bread s n W hs bno :
  op_env s n W hs → (bno ∉ hs.*2) → (length hs < 2)%nat →
  ∃ b s', bread ROOTDEV bno s = Ret b s' ∧ op_env s' n W ((b, bno) :: hs) ∧
    (∀ x, view s' x = view s x) ∧ op_frame s s' ∧ k_log s' = k_log s.
Proof.
  intros Ho Hbno Hlt. pose proof (oe_refs _ _ _ _ Ho bno) as Hr. rw (bool_decide_eq_false_2 _ Hbno) in Hr.
  destruct (bread_ok p q s _ (oe_env _ _ _ _ Ho) bno)
    as (b & s' & E & He' & HbH & Hh & Hv & Hn & Hoth & Hf & Hd & Ht & Hc).
  { intros b k Hb Hk. apply elem_of_list_to_set, list_elem_of_fmap in Hb as ([b' x] & -> & Hb).
    destruct (oe_holds _ _ _ _ Ho _ _ Hb) as (r & Hh). pose proof (holds_block _ _ _ _ _ _ _ Hh Hk) as Hib.
    destruct (is_block bno k) eqn:Hib'; [|done]. destruct Hbno.
    rw (is_block_inj bno x k Hib' Hib). by apply list_elem_of_fmap_2 with (f := snd) in Hb. }
  { right. by eapply op_has_free. }
  { rw Hr. by destruct (bool_decide _). }
  assert (k_log s' = k_log s) as El by by apply bio_frame_log.
  exists b, s'. split_and!; try done.
  - split; rw ?El; try apply Ho.
    + by rw fmap_cons list_to_set_cons.
    + rw fmap_cons. apply NoDup_cons. split; [done|apply Ho].
    + intros b' x [[= -> ->]|Hin]%elem_of_cons.
      * eexists. rw Hv. exact Hh.
      * destruct (oe_holds _ _ _ _ Ho _ _ Hin) as (r & Hh'). exists r. rw Hv. apply Hoth; [|done].
        intros ->. apply HbH. apply elem_of_list_to_set. by apply list_elem_of_fmap_2 with (f := fst) in Hin.
    + intros x. rw Hn (oe_refs _ _ _ _ Ho x) fmap_cons. cbn [snd].
      destruct (decide (x = bno)) as [->|Hne].
      * rewrite -> (bool_decide_eq_false_2 (bno ∈ hs.*2)) by done.
        rewrite -> (bool_decide_eq_true_2 (bno ∈ bno :: hs.*2)) by by left. cbn. lia.
      * rewrite -> (bool_decide_ext (x ∈ bno :: hs.*2) (x ∈ hs.*2)); [lia|]. set_solver.
    + destruct (alter_rc_back _ _ _ _ _ Hc (holds_rc _ _ _ _ _ Hh)) as (r & Hrb & Er).
      pose proof (nfree_alter _ _ _ _ _ Hc (holds_lt _ _ _ _ _ _ Hh) Hrb) as Hnf. cbv beta in Hnf.
      pose proof (oe_free _ _ _ _ Ho) as Hfr. unfold busy in *. rw El fmap_cons list_to_set_cons. cbn [snd].
      destruct (bool_decide_reflect (bno ∈ logged (k_log s))) as [Hin|Hin]; cbn [b2z] in Hr.
      * replace (_ ∪ ({[bno]} ∪ _)) with (list_to_set (logged (k_log s)) ∪ list_to_set hs.*2 : gset Z)
          by set_solver.
        destruct (decide (r = 0)); [lia|]. destruct (decide (r + 1 = 0)); lia.
      * replace (_ ∪ ({[bno]} ∪ _)) with ({[bno]} ∪ (list_to_set (logged (k_log s)) ∪ list_to_set hs.*2) : gset Z)
          by set_solver.
        rw size_union; [|set_solver]. rw size_singleton.
        destruct (decide (r = 0)); [|lia]. destruct (decide (r + 1 = 0)); lia.
  - destruct Hf as (bs & sl & dk & tr & ->). cbn in Hd, Ht. subst. exists bs, sl, (k_log s). by destruct s.
Qed.

Lemma op_get s n W hs b bno :
  op_env s n W hs → (b, bno) ∈ hs → ∃ k, get_buf b s = Ret k s ∧ b_data k = view s bno ∧ b_blockno k = bno.
Proof.
  intros Ho Hin. destruct (oe_holds _ _ _ _ Ho _ _ Hin) as (r & Hh).
  destruct (get_held _ _ _ _ _ _ Hh) as (k & E & Hd & _ & Hb). by exists k.
Qed.

Lemma op_frame_of_bio s s' :
  bio_frame s s' → k_disk s' = k_disk s → k_dtrace s' = k_dtrace s → op_frame s s'.
Proof.
  intros (bs & sl & dk & tr & ->) Hd Ht. cbn in Hd, Ht. subst. exists bs, sl, (k_log s). by destruct s.
Qed.

Lemma held_fst (hs : list (nat * Z)) b bno : (b, bno) ∈ hs → b ∈ (list_to_set hs.*1 : gset nat).
Proof. intros Hin. apply elem_of_list_to_set. by apply list_elem_of_fmap_2 with (f := fst) in Hin. Qed.
Lemma held_snd (hs : list (nat * Z)) b bno : (b, bno) ∈ hs → bno ∈ hs.*2.
Proof. intros Hin. by apply list_elem_of_fmap_2 with (f := snd) in Hin. Qed.

(** One buffer per held block, and one block per held buffer. *)
Lemma held_same s n W hs b bno b' bno' :
  op_env s n W hs → (b, bno) ∈ hs → (b', bno') ∈ hs → bno' ≠ bno → b' ≠ b.
Proof.
  intros Ho H1 H2 Hne. destruct (oe_holds _ _ _ _ Ho _ _ H1) as (r1 & Hh1).
  destruct (oe_holds _ _ _ _ Ho _ _ H2) as (r2 & Hh2). by eapply holds_ne.
Qed.

Lemma held_one s n W hs b b' bno : op_env s n W hs → (b, bno) ∈ hs → (b', bno) ∈ hs → b' = b.
Proof.
  intros Ho H1 H2. destruct (oe_holds _ _ _ _ Ho _ _ H1) as (r1 & k & Hk & _).
  destruct (oe_holds _ _ _ _ Ho _ _ H2) as (r2 & k' & Hk' & _).
  destruct (be_inv (oe_env _ _ _ _ Ho)) as [l Hinv].
  eapply (bi_uniq Hinv); [apply Hk'|apply Hk|apply Hk'|apply Hk|apply Hk'|apply Hk].
Qed.

Lemma op_upd s n W hs b bno (f : list Z → list Z) :
  op_env s n W hs → (b, bno) ∈ hs →
  ∃ s', upd_buf b (λ k, set_b_data (f (b_data k)) k) s = Ret tt s' ∧ op_env s' n W hs ∧
    (∀ x, view s' x = if decide (x = bno) then f (view s bno) else view s x) ∧
    op_frame s s' ∧ k_log s' = k_log s.
Proof.
  intros Ho Hin. destruct (oe_holds _ _ _ _ Ho _ _ Hin) as (r & Hh).
  destruct (set_data_ok p q s _ (oe_env _ _ _ _ Ho) b bno _ r (f (view s bno)) Hh (held_fst _ _ _ Hin))
    as (s' & E & He' & Hh' & Hv & Hn & Hoth & Hf & Hd & Ht & Hc).
  assert (k_log s' = k_log s) as El by by apply bio_frame_log.
  assert (upd_buf b (λ k, set_b_data (f (b_data k)) k) s = Ret tt s') as E'.
  { destruct (Hh) as (k & Hbh & Hkd & _). pose proof (bh_buf _ _ _ _ _ Hbh) as Hk.
    rw -E !(upd_buf_insert s b k) // Hkd //. }
  exists s'. split_and!; try done; [|by apply op_frame_of_bio].
  split; rw ?El; try apply Ho; [done|..].
  - intros b' x Hx. destruct (decide (x = bno)) as [->|Hne].
    + rw (held_one _ _ _ _ _ _ _ Ho Hin Hx). exists r. by rw Hv decide_True.
    + destruct (oe_holds _ _ _ _ Ho _ _ Hx) as (r' & Hh2). exists r'. rw Hv decide_False //.
      apply Hoth; [|done]. by eapply held_same.
  - intros x. rw Hn. apply Ho.
  - unfold busy, nfree. rw El Hc. apply Ho.
Qed.

Lemma op_room s n W hs : op_env s n W hs → log_room s.
Proof.
  intros Ho. destruct (logged_room _ _ _ _ Ho) as [H1 H2]. split; try apply Ho; [|lia].
  unfold LOGSIZE, NBUF, MAXOPBLOCKS in *. lia.
Qed.

Lemma op_held_refs s n W hs b bno r d :
  op_env s n W hs → (b, bno) ∈ hs → holds s q b bno d r →
  r = b2z (bool_decide (bno ∈ logged (k_log s))) + 1.
Proof.
  intros Ho Hin Hh. destruct (be_inv (oe_env _ _ _ _ Ho)) as [l Hinv].
  destruct (holds_view _ _ _ _ _ _ _ Hinv Hh) as [_ <-]. rw (oe_refs _ _ _ _ Ho bno).
  by rw (bool_decide_eq_true_2 _ (held_snd _ _ _ Hin)).
Qed.

Lemma log_write_frame s s' b bno d r :
  fsenv p q s → holds s q b bno d r → log_room s → 0 ≤ bno < 2 ^ 31 → log_write b s = Ret tt s' → op_frame s s'.
Proof.
  intros He (k & Hbh & _) Hrm Hb E. destruct (proj1 (is_block_fields bno k) (bh_block _ _ _ _ _ Hbh)) as [_ Hkb].
  rewrite -> (log_write_run p q s b k He Hrm (bh_buf _ _ _ _ _ Hbh)) in E by by rw Hkb.
  injection E as <-. set (g := log_add _ _). destruct (bool_decide _).
  - exists (<[b := set_b_refcnt (u32 (b_refcnt k + 1)) k]> (k_bufs s)), (k_sleeplocks s), g. by destruct s.
  - exists (k_bufs s), (k_sleeplocks s), g. by destruct s.
Qed.

(** [log_write] records the block, unless it is recorded already. *)
Lemma op_log_write s n W hs b bno :
  op_env s n W hs → (b, bno) ∈ hs → bno ∈ W →
  ∃ s', log_write b s = Ret tt s' ∧ op_env s' n W hs ∧
    (∀ x, view s' x = view s x) ∧ op_frame s s' ∧ k_log s' = log_add bno (k_log s) ∧
    (∀ x, x ∈ logged (k_log s') ↔ x ∈ logged (k_log s) ∨ x = bno).
Proof.
  intros Ho Hin HW. pose proof (oe_W _ _ _ _ Ho bno HW) as Hb. destruct (oe_holds _ _ _ _ Ho _ _ Hin) as (r & Hh).
  pose proof (op_held_refs _ _ _ _ _ _ _ _ Ho Hin Hh) as Er. set (new := bool_decide (bno ∉ logged (k_log s))).
  assert (bool_decide (bno ∈ logged (k_log s)) = negb new) as En.
  { unfold new. by destruct (bool_decide_reflect (bno ∈ logged (k_log s))), (bool_decide_reflect (bno ∉ logged (k_log s))). }
  rw En in Er.
  destruct (log_write_ok p q s _ b bno _ r (oe_env _ _ _ _ Ho) Hh (op_room _ _ _ _ Ho) Hb)
    as (s' & E & He' & Hh' & El & Hv & Hn & Hoth & Hd & Ht & Hc); [by rw Er; destruct new..|].
  fold new in Hh', Hn, Hc. destruct (logged_room _ _ _ _ Ho) as [Hr1 Hr2].
  destruct (log_add_spec bno (k_log s)) as (Hlg & Hll & Hln); [|apply Ho|].
  { rw (oe_len _ _ _ _ Ho). unfold LOGSIZE, NBUF, MAXOPBLOCKS in *. lia. }
  fold new in Hlg, Hln. rw -El in Hlg Hll Hln.
  assert (∀ x, x ∈ logged (k_log s') ↔ x ∈ logged (k_log s) ∨ x = bno) as Hmem.
  { intros x. rw Hlg elem_of_app. destruct new eqn:Hnew; [by rw list_elem_of_singleton|].
    apply bool_decide_eq_true in En. rw elem_of_nil. naive_solver. }
  assert (list_to_set (logged (k_log s')) ∪ W = (list_to_set (logged (k_log s)) ∪ W : gset Z)) as EW.
  { apply set_eq. intros x. rw !elem_of_union !elem_of_list_to_set Hmem. naive_solver. }
  exists s'. split_and!; try done.
  - assert (lg_size (k_log s') = lg_size (k_log s) ∧ lg_outstanding (k_log s') = lg_outstanding (k_log s)) as [Es Eo]
      by by rw El.
    split; rw ?Hll ?Hln ?Es ?Eo ?EW; try apply Ho; try done.
    + intros b' x Hx. rw Hv. destruct (decide (x = bno)) as [->|Hne].
      * rw (held_one _ _ _ _ _ _ _ Ho Hin Hx). by eexists.
      * destruct (oe_holds _ _ _ _ Ho _ _ Hx) as (r' & Hh2). exists r'. apply Hoth; [|done]. by eapply held_same.
    + rw -(oe_n _ _ _ _ Ho) Hlg length_app. destruct new; cbn [length b2z]; lia.
    + rw Hlg. apply Forall_app. split; [apply Ho|]. destruct new; [by apply Forall_singleton|by apply Forall_nil].
    + rw Hlg. apply NoDup_app. split; [apply Ho|]. destruct new eqn:Hnew; [|split; [set_solver|constructor]].
      apply bool_decide_eq_true in Hnew. split; [set_solver|apply NoDup_singleton].
    + intros x. rw Hn (oe_refs _ _ _ _ Ho x). destruct (decide (x = bno)) as [->|Hne].
      * rw En. rewrite -> (bool_decide_eq_true_2 (bno ∈ logged (k_log s'))) by (apply Hmem; by right).
        destruct new; cbn [negb b2z]; lia.
      * rewrite -> (bool_decide_ext (x ∈ logged (k_log s')) (x ∈ logged (k_log s))); [lia|]. rw Hmem. naive_solver.
    + pose proof (nfree_alter _ _ _ _ _ Hc (holds_lt _ _ _ _ _ _ Hh) (holds_rc _ _ _ _ _ Hh)) as Hnf. cbv beta in Hnf.
      rw !decide_False in Hnf; [|destruct new; cbn in *; lia|destruct new; cbn in *; lia].
      pose proof (oe_free _ _ _ _ Ho) as Hf. replace (busy s' hs) with (busy s hs); [lia|].
      unfold busy. apply set_eq. intros x. rw !elem_of_union !elem_of_list_to_set Hmem.
      pose proof (held_snd _ _ _ Hin). naive_solver.
  - eapply log_write_frame; [apply (oe_env _ _ _ _ Ho)|exact Hh|by eapply op_room|done|done].
Qed.

Lemma op_brelse s n W b bno hs :
  op_env s n W ((b, bno) :: hs) → (bno ∈ logged (k_log s) ∨ view s bno = dblock (k_disk s) bno) →
  ∃ s', brelse b s = Ret tt s' ∧ op_env s' n W hs ∧
    (∀ x, view s' x = view s x) ∧ op_frame s s' ∧ k_log s' = k_log s.
Proof.
  intros Ho Hcl. assert ((b, bno) ∈ (b, bno) :: hs) as Hin by by left.
  destruct (oe_holds _ _ _ _ Ho _ _ Hin) as (r & Hh). pose proof (op_held_refs _ _ _ _ _ _ _ _ Ho Hin Hh) as Er.
  destruct (brelse_ok p q s _ (oe_env _ _ _ _ Ho) b bno _ r Hh (held_fst _ _ _ Hin))
    as (s' & E & He' & Hv & Hn & Hoth & Hf & Hd & Ht & Hc).
  { intros ->. destruct Hcl as [Hl|]; [|done]. by rw (bool_decide_eq_true_2 _ Hl) in Er. }
  assert (k_log s' = k_log s) as El by by apply bio_frame_log.
  pose proof (oe_nodup _ _ _ _ Ho) as [Hbno Hnd]%NoDup_cons.
  assert (∀ b' x, (b', x) ∈ hs → b' ≠ b) as Hnb.
  { intros b' x Hx. eapply (held_same _ _ _ _ b bno b' x Ho); [done|by right|]. intros ->. by apply held_snd in Hx. }
  exists s'. split_and!; try done; [|by apply op_frame_of_bio].
  split; rw ?El; try apply Ho; try done.
  - replace (list_to_set hs.*1) with (list_to_set ((b, bno) :: hs).*1 ∖ {[b]} : gset nat); [done|].
    rw fmap_cons list_to_set_cons. cbn [fst]. apply set_eq. intros x.
    rw elem_of_difference elem_of_union !elem_of_singleton elem_of_list_to_set list_elem_of_fmap.
    split; [naive_solver|]. intros ([b' y] & -> & Hx). split; [|by eapply Hnb]. right. by exists (b', y).
  - intros b' x Hx. destruct (oe_holds _ _ _ _ Ho b' x) as (r' & Hh'); [by right|].
    exists r'. rw Hv. apply Hoth; [by eapply Hnb|done].
  - intros x. rw Hn (oe_refs _ _ _ _ Ho x) fmap_cons. cbn [snd].
    destruct (decide (x = bno)) as [->|Hne].
    + rewrite -> (bool_decide_eq_true_2 (bno ∈ bno :: hs.*2)) by by left.
      rewrite -> (bool_decide_eq_false_2 (bno ∈ hs.*2)) by done. cbn. lia.
    + rewrite -> (bool_decide_ext (x ∈ bno :: hs.*2) (x ∈ hs.*2)); [lia|]. set_solver.
  - pose proof (nfree_alter _ _ _ _ _ Hc (holds_lt _ _ _ _ _ _ Hh) (holds_rc _ _ _ _ _ Hh)) as Hnf. cbv beta in Hnf.
    pose proof (oe_free _ _ _ _ Ho) as Hfr. unfold busy in *. rw El. rw fmap_cons list_to_set_cons in Hfr. cbn [snd] in Hfr.
    destruct (bool_decide_reflect (bno ∈ logged (k_log s))) as [Hl|Hl]; cbn [b2z] in Er; subst r.
    + replace (_ ∪ ({[bno]} ∪ _)) with (list_to_set (logged (k_log s)) ∪ list_to_set hs.*2 : gset Z) in Hfr
        by set_solver. repeat case_decide; lia.
    + replace (_ ∪ ({[bno]} ∪ _)) with ({[bno]} ∪ (list_to_set (logged (k_log s)) ∪ list_to_set hs.*2) : gset Z) in Hfr
        by set_solver.
      rw size_union in Hfr; [|set_solver]. rw size_singleton in Hfr. repeat case_decide; lia.
Qed.

Lemma op_view_clean s n W hs x :
  op_env s n W hs → (x ∉ logged (k_log s)) → (x ∉ hs.*2) → view s x = dblock (k_disk s) x.
Proof.
  intros Ho Hl Hh. eapply view_unref; [apply (oe_env _ _ _ _ Ho)|]. rw (oe_refs _ _ _ _ Ho x).
  by rw !bool_decide_eq_false_2.
Qed.

Lemma op_frame_disk s s' : op_frame s s' → k_disk s' = k_disk s.
Proof. by intros (? & ? & ? & ->). Qed.

(** Reading a block: the data it returns, and nothing changes. *)
Lemma op_read s n W hs bno :
  op_env s n W hs → (bno ∉ hs.*2) → (length hs < 2)%nat →
  ∃ b k s1 s2, bread ROOTDEV bno s = Ret b s1 ∧ get_buf b s1 = Ret k s1 ∧ b_data k = view s bno ∧
    brelse b s1 = Ret tt s2 ∧ op_env s2 n W hs ∧ (∀ x, view s2 x = view s x) ∧ op_frame s s2 ∧ k_log s2 = k_log s.
Proof.
  intros Ho Hb Hl. destruct (op_bread s n W hs bno Ho Hb Hl) as (b & s1 & E1 & Ho1 & Hv1 & Hf1 & El1).
  destruct (op_get s1 n W _ b bno Ho1) as (k & E2 & Hd & _); [by left|].
  destruct (op_brelse s1 n W b bno hs Ho1) as (s2 & E3 & Ho2 & Hv2 & Hf2 & El2).
  { rw El1 Hv1 (op_frame_disk _ _ Hf1). destruct (decide (bno ∈ logged (k_log s))); [by left|right].
    by eapply op_view_clean. }
  exists b, k, s1, s2. split_and!; try done.
  - by rw Hd Hv1.
  - intros x. by rw Hv2 Hv1.
  - by eapply op_frame_trans.
  - by rw El2.
Qed.

(** Changing a block: only its contents change, and the log has it. *)
Lemma op_modify s n W hs bno (f : list Z → list Z) :
  op_env s n W hs → (bno ∉ hs.*2) → (length hs < 2)%nat → bno ∈ W →
  ∃ s', (b ← bread ROOTDEV bno; upd_buf b (λ k, set_b_data (f (b_data k)) k) ;; log_write b ;; brelse b) s
          = Ret tt s' ∧ op_env s' n W hs ∧
    (∀ x, view s' x = if decide (x = bno) then f (view s bno) else view s x) ∧ op_frame s s' ∧
    k_log s' = log_add bno (k_log s) ∧
    (∀ x, x ∈ logged (k_log s') ↔ x ∈ logged (k_log s) ∨ x = bno).
Proof.
  intros Ho Hb Hl HW. destruct (op_bread s n _ hs bno Ho Hb Hl) as (b & s1 & E1 & Ho1 & Hv1 & Hf1 & El1).
  mstep E1. destruct (op_upd s1 n _ _ b bno f Ho1) as (s2 & E2 & Ho2 & Hv2 & Hf2 & El2); [by left|]. mstep E2.
  destruct (op_log_write s2 n W _ b bno Ho2) as (s3 & E3 & Ho3 & Hv3 & Hf3 & El3 & Hl3); [by left|done|]. mstep E3.
  rw El2 El1 in El3 Hl3.
  destruct (op_brelse s3 n _ b bno hs Ho3) as (s4 & E4 & Ho4 & Hv4 & Hf4 & El4); [left; apply Hl3; by right|].
  exists s4. split_and!; try done.
  - intros x. rw Hv4 Hv3 Hv2 !Hv1. done.
  - by eapply op_frame_trans, op_frame_trans, op_frame_trans.
  - by rw El4.
  - intros x. rw El4. apply Hl3.
Qed.

(** The same with what follows, as the code of fs.c is written. *)
Definition op_same (s s' : kstate) : Prop :=
  (∀ x, view s' x = view s x) ∧ op_frame s s' ∧ k_log s' = k_log s.
Lemma op_same_trans s1 s2 s3 : op_same s1 s2 → op_same s2 s3 → op_same s1 s3.
Proof.
  intros (Hv1 & Hf1 & El1) (Hv2 & Hf2 & El2). split_and!; [|by eapply op_frame_trans|by rw El2].
  intros x. by rw Hv2.
Qed.
Lemma op_same_clean s s' x :
  op_same s s' → (x ∈ logged (k_log s) ∨ view s x = dblock (k_disk s) x) →
  x ∈ logged (k_log s') ∨ view s' x = dblock (k_disk s') x.
Proof. intros (Hv & Hf & El). by rw El Hv (op_frame_disk _ _ Hf). Qed.

Lemma op_load s n W hs bno :
  op_env s n W hs → (bno ∉ hs.*2) → (length hs < 2)%nat →
  ∃ b k s1, (∀ A (K : nat → buf → KM A), (b ← bread ROOTDEV bno; k ← get_buf b; K b k) s = K b k s1) ∧
    b_data k = view s bno ∧
    op_env s1 n W ((b, bno) :: hs) ∧ op_same s s1 ∧
    (bno ∈ logged (k_log s1) ∨ view s1 bno = dblock (k_disk s1) bno).
Proof.
  intros Ho Hb Hl. destruct (op_bread s n W hs bno Ho Hb Hl) as (b & s1 & E1 & Ho1 & Hv1 & Hf1 & El1).
  destruct (op_get s1 n W _ b bno Ho1) as (k & E2 & Hd & _); [by left|].
  exists b, k, s1. split_and!; try done.
  - intros A K. by rw (bind_Ret _ _ _ _ _ E1) (bind_Ret _ _ _ _ _ E2).
  - by rw Hd Hv1.
  - apply (op_same_clean s s1); [done|]. destruct (decide (bno ∈ logged (k_log s))); [by left|right].
    by eapply op_view_clean.
Qed.

Lemma op_store s n W hs b bno (f : list Z → list Z) :
  op_env s n W ((b, bno) :: hs) → bno ∈ W →
  ∃ s', (upd_buf b (λ k, set_b_data (f (b_data k)) k) ;; log_write b ;; brelse b) s = Ret tt s' ∧
    (∀ A (K : KM A),
       (upd_buf b (λ k, set_b_data (f (b_data k)) k) ;; log_write b ;; brelse b ;; K) s = K s') ∧
    op_env s' n W hs ∧ (∀ x, view s' x = if decide (x = bno) then f (view s bno) else view s x) ∧
    op_frame s s' ∧ (∀ x, x ∈ logged (k_log s') ↔ x ∈ logged (k_log s) ∨ x = bno).
Proof.
  intros Ho HW. destruct (op_upd s n _ _ b bno f Ho) as (s2 & E2 & Ho2 & Hv2 & Hf2 & El2); [by left|].
  destruct (op_log_write s2 n W _ b bno Ho2) as (s3 & E3 & Ho3 & Hv3 & Hf3 & El3 & Hl3); [by left|done|].
  destruct (op_brelse s3 n _ b bno hs Ho3) as (s4 & E4 & Ho4 & Hv4 & Hf4 & El4); [left; apply Hl3; by right|].
  exists s4. split_and!; try done.
  - by rw (bind_Ret _ _ _ _ _ E2) (bind_Ret _ _ _ _ _ E3).
  - intros A K. by rw (bind_Ret _ _ _ _ _ E2) (bind_Ret _ _ _ _ _ E3) (bind_Ret _ _ _ _ _ E4).
  - intros x. by rw Hv4 Hv3 Hv2.
  - by eapply op_frame_trans, op_frame_trans.
  - intros x. rw El4 Hl3 El2. done.
Qed.

(** The rules concern the cache, the log, the locks and the processes only. *)
Lemma op_env_keep s s' n W hs :
  op_env s n W hs → k_bufs s' = k_bufs s → k_sleeplocks s' = k_sleeplocks s → k_log s' = k_log s →
  k_disk s' = k_disk s → k_sync s' = k_sync s → k_procs s' = k_procs s → k_fuel s' = k_fuel s →
  op_env s' n W hs.
Proof.
  intros Ho Eb Es El Ed Ey Ep Ef.
  assert (rcs s' = rcs s) as Er by (unfold rcs; by rw Eb).
  assert (∀ x, view s' x = view s x) as Ev by (intros x; unfold view; by rw Eb Ed).
  destruct Ho as [[He [l [I1 I2 I3 I4 I5]] Hfr Hrf] H2 H3 H4 H5 H6 H7 H8 H9 H10 H11 H12].
  split; rw ?El; try done.
  - split; rw ?Er; try done.
    + by eapply fsenv_keep.
    + exists l. split; rw ?Eb ?Ed; unfold sl_free in *; rw ?Es; done.
    + unfold sl_free in *. by rw Es.
  - intros b bno Hin. destruct (H3 b bno Hin) as (r & Hh). exists r. rw Ev.
    eapply holds_frame; [..|exact Hh]; [by rw Eb|by rw Es].
  - intros x. unfold refs. rw Eb. apply H11.
  - unfold nfree, busy. rw Er El. exact H12.
Qed.

(** ** Whole transactions *)

Lemma op_can_commit s n W start :
  op_env s n W [] → logged (k_log s) ≠ [] → lg_dev (k_log s) = ROOTDEV → lg_start (k_log s) = start →
  0 ≤ start < 2 ^ 30 → Forall (home_ok start) (logged (k_log s)) →
  can_commit p q s start (logged (k_log s)).
Proof.
  intros Ho Hne Hdev Hst Hr Hh. destruct (logged_room _ _ _ _ Ho) as [Hr1 Hr2].
  pose proof (oe_n _ _ _ _ Ho) as Hn.
  split; [split|..]; try done.
  - exact (oe_env _ _ _ _ Ho).
  - eapply op_has_free; [done|cbn; lia].
  - intros x. rw (oe_refs _ _ _ _ Ho x). by destruct (bool_decide _), (bool_decide _).
  - unfold LOGSIZE, NBUF, MAXOPBLOCKS in *. lia.
  - intros i b Hi. unfold logged in Hi. apply lookup_take_Some in Hi as [Hi _]. done.
  - apply Ho.
  - apply Forall_forall. intros x Hx. rw (oe_refs _ _ _ _ Ho x) (bool_decide_eq_true_2 _ Hx). by destruct (bool_decide _).
Qed.

(** The state between transactions: the log is empty and no buffer is held. *)
Record idle (s : kstate) (start : Z) : Prop := {
  id_env : benv p q s ∅;
  id_refs x : refs s x = 0;
  id_free : nfree s = NBUF;
  id_dev : lg_dev (k_log s) = ROOTDEV;
  id_start : lg_start (k_log s) = start;
  id_range : 0 ≤ start < 2 ^ 30;
  id_size : MAXOPBLOCKS < lg_size (k_log s) - 1;
  id_n : lh_n (lg_lh (k_log s)) = 0;
  id_len : length (lh_block (lg_lh (k_log s))) = Z.to_nat LOGSIZE;
  id_out : lg_outstanding (k_log s) = 0;
  id_com : lg_committing (k_log s) = 0;
  id_head : length (view s start) = Z.to_nat BSIZE ∧ head_n (dblock (k_disk s) start) = 0
}.

Lemma idle_begin s start (n : nat) (W : gset Z) :
  idle s start → size W + n ≤ MAXOPBLOCKS → (∀ x, x ∈ W → 0 ≤ x < 2 ^ 31) →
  let s' := set_k_log (set_lg_outstanding 1 (k_log s)) s in
  begin_op s = Ret tt s' ∧ op_env s' n W [].
Proof.
  intros [He Hr Hf Hd Hst Hrg Hsz Hn Hl Ho Hc _] HW HW2 s'. split.
  - rewrite -> (begin_op_ok p q s (be_env He)) by (split; [done|rw Hn Ho; done]). by rw Ho.
  - assert (logged (k_log s') = []) as El by (unfold logged, s'; kcbn; by rw Hn).
    split; rw ?El; try done.
    + by apply benv_set_log.
    + constructor.
    + by intros b bno ?%elem_of_nil.
    + unfold s'. kcbn. cbn [lg_size set_lg_outstanding lg_lh list_to_set]. rw left_id_L.
      unfold NBUF, MAXOPBLOCKS in *. lia.
    + constructor.
    + unfold nfree in *. change (rcs s') with (rcs s). lia.
Qed.

(** C19. A whole transaction. From an idle file system, [begin_op], a change of
    one block through the cache and the log, and [end_op] return with the
    change on the disk; no other block outside the log differs, and the log
    is empty again. *)
Theorem transaction_durable s start bno (f : list Z → list Z) :
  idle s start → home_ok start bno →
  ∃ s', (begin_op ;;
         (b ← bread ROOTDEV bno; upd_buf b (λ k, set_b_data (f (b_data k)) k) ;; log_write b ;; brelse b) ;;
         end_op) s = Ret tt s' ∧
    (∀ x, home_ok start x →
       dblock (k_disk s') x = if decide (x = bno) then f (dblock (k_disk s) bno) else dblock (k_disk s) x) ∧
    lg_outstanding (k_log s') = 0 ∧ lg_committing (k_log s') = 0 ∧ lh_n (lg_lh (k_log s')) = 0.
Proof.
  intros Hi Hb. destruct (idle_begin s start 0 {[bno]} Hi) as [E0 Ho].
  { by rw size_singleton. }
  { intros x ->%elem_of_singleton. apply Hb. }
  mstep E0. set (s0 := set_k_log _ s) in *.
  assert (logged (k_log s0) = []) as El0 by (unfold logged, s0; kcbn; by rw (id_n _ _ Hi)).
  destruct (op_modify s0 0 _ [] bno f Ho) as (s1 & E1 & Ho1 & Hv1 & Hf1 & Hlg & _);
    [by intros ?%elem_of_nil|cbn; lia|by apply elem_of_singleton|].
  destruct (log_add_spec bno (k_log s0)) as (El1 & _); [|by rw El0|].
  { unfold s0. kcbn. cbn [lg_lh set_lg_outstanding]. rw (id_n _ _ Hi) (id_len _ _ Hi). done. }
  rw -Hlg El0 in El1. rewrite -> bool_decide_eq_true_2 in El1 by by intros ?%elem_of_nil. cbn [app] in El1.
  assert (lg_dev (k_log s1) = ROOTDEV ∧ lg_start (k_log s1) = start ∧
          lg_outstanding (k_log s1) = 1 ∧ lg_committing (k_log s1) = 0) as (Hd & Hst & Hou & Hc).
  { rw Hlg. split_and!; [apply (id_dev _ _ Hi)|apply (id_start _ _ Hi)|done|apply (id_com _ _ Hi)]. }
  assert (can_commit p q s1 start [bno]) as Hcc.
  { rewrite <- El1. eapply op_can_commit; rw ?El1; [exact Ho1|done|done|done|apply Hi|by apply Forall_singleton]. }
  destruct (end_op_last p q s1 start [bno] Hcc Hc Hou) as (s2 & E2 & _ & Ec & Eo & En & _ & _ & Hdk & _).
  mstep E1. exists s2. split_and!; try done. intros x Hx. rw Hdk (commit_disk p q s1 start [bno] x Hcc Hx).
  assert (∀ y, view s0 y = dblock (k_disk s) y) as Hv0.
  { intros y. change (view s0 y) with (view s y). eapply view_unref; [apply Hi|apply Hi]. }
  rw Hv1 !Hv0 (op_frame_disk _ _ Hf1). destruct (decide (x = bno)) as [->|Hne].
  - by rw decide_True; [|left].
  - rw decide_False // list_elem_of_singleton //.
Qed.

Lemma log_write_full s b :
  fsenv p q s → lg_size (k_log s) - 1 ≤ lh_n (lg_lh (k_log s)) →
  ∃ s', log_write b s = Stop (Panic "too big a transaction") s'.
Proof.
  intros He Hn. unfold log_write. pose proof (fe_locks He (l := LLog) eq_refl) as Hfree.
  mstep (kacquire_free _ _ (fe_ok He) Hfree). unfold get_log. rw bind_gets. kcbn.
  rewrite -> (proj2 (Z.leb_le (lg_size (k_log s) - 1) _)) by done. rw orb_true_r. by eexists.
Qed.

(** C29. The reservations of [begin_op] do not fit the log that mkfs makes.
    With a log of [LOGSIZE] blocks, header included, and nothing in it, three
    operations are admitted, which reserves all of [3 * MAXOPBLOCKS = LOGSIZE]
    blocks; but once [LOGSIZE - 1] blocks are recorded, [log_write] panics,
    also for a block that is recorded already. *)
Theorem log_reservation_gap s b (g : logheader) :
  fsenv p q s → lg_size (k_log s) = LOGSIZE → lg_outstanding (k_log s) = 0 →
  lg_committing (k_log s) = 0 → lh_n (lg_lh (k_log s)) = 0 → lh_n g = LOGSIZE - 1 →
  ∃ s3 s4, (begin_op ;; begin_op ;; begin_op) s = Ret tt s3 ∧
    lg_outstanding (k_log s3) * MAXOPBLOCKS = LOGSIZE ∧
    log_write b (set_k_log (set_lg_lh g (k_log s3)) s3) = Stop (Panic "too big a transaction") s4.
Proof.
  intros He Hsz Ho Hc Hn Hg.
  set (sn := λ n, set_k_log (set_lg_outstanding n (k_log s)) s).
  assert (∀ n, 0 ≤ n < 3 → begin_op (sn n) = Ret tt (sn (n + 1))) as Hb.
  { intros n Hr. rewrite -> (begin_op_ok p q (sn n)); [done|by apply fsenv_set_log|].
    split; [done|]. change (lh_n (lg_lh (k_log s)) + (n + 1) * MAXOPBLOCKS ≤ LOGSIZE). rw Hn.
    unfold LOGSIZE, MAXOPBLOCKS. lia. }
  assert (s = sn 0) as E0 by (unfold sn; rw -Ho; by destruct s, k_log).
  destruct (log_write_full (set_k_log (set_lg_lh g (k_log (sn 3))) (sn 3)) b) as (s4 & E4).
  { by apply fsenv_set_log, fsenv_set_log. }
  { cbn. rw Hsz Hg. lia. }
  exists (sn 3), s4. split_and!; [|done|exact E4].
  rewrite -> E0 at 1. mstep (Hb 0 ltac:(lia)). mstep (Hb 1 ltac:(lia)). apply Hb. lia.
Qed.
End txn.

(** *** Witnesses *)

(** An idle file system on the disk [d], with its log at block 2. *)
Definition kst3 (d : gmap Z (list Z)) : kstate :=
  set_k_disk d (set_k_log (Log 2 LOGSIZE 0 0 ROOTDEV (Logheader 0 (replicate (Z.to_nat LOGSIZE) 0))) kst2).

Lemma benv_kst3 d : benv 0 (proc1 0) (kst3 d) ∅ ∧ ∀ x, refs (kst3 d) x = 0.
Proof.
  assert (k_bufs (kst3 d) = boot_bufs) as Eb by (unfold kst3, kst2; by kcbn).
  assert (k_sleeplocks (kst3 d) = k_sleeplocks kst1) as Es by (unfold kst3, kst2; by kcbn).
  assert (fsenv 0 (proc1 0) (kst3 d)) as He.
  { eapply fsenv_keep; [exact fsenv_kst2|unfold kst3; by kcbn..]. }
  destruct (bio_inv_boot (kst3 d) Eb Es) as (Hinv & Hno & Hf). split; [split|].
  - exact He.
  - by eexists.
  - intros i Hi _. exact (Hf i Hi).
  - intros i r Hi. destruct (not_elem_of_empty (C := gset nat) i Hi).
  - intros x. unfold refs, brefs. by rewrite -> Hno.
Qed.

Lemma idle_kst3 : idle 0 (proc1 0) (kst3 ∅) 2.
Proof.
  split; [exact (proj1 (benv_kst3 ∅))|exact (proj2 (benv_kst3 ∅))|..]; by vm_compute.
Qed.

Lemma transaction_durable_witness :
  ∃ s', (begin_op ;;
         (b ← bread ROOTDEV 45; upd_buf b (λ k, set_b_data (<[0%nat := 7]> (b_data k)) k) ;; log_write b ;; brelse b) ;;
         end_op) (kst3 ∅) = Ret tt s' ∧ dblock (k_disk s') 45 = <[0%nat := 7]> zero_block.
Proof.
  destruct (transaction_durable 0 (proc1 0) (kst3 ∅) 2 45 (λ d, <[0%nat := 7]> d) idle_kst3) as (s' & E & Hd & _).
  - unfold home_ok, LOGSIZE, MAXOPBLOCKS. lia.
  - cbv beta in E. exists s'. split; [exact E|].
    rewrite -> Hd; [|unfold home_ok, LOGSIZE, MAXOPBLOCKS; lia].
    destruct (decide (45 = 45)) as [_|Hn]; [reflexivity|by destruct Hn].
Defined.

Lemma booted_kst3 d : booted 0 (proc1 0) (kst3 d) 2.
Proof.
  split; [apply benv_kst3|apply benv_kst3|..|by vm_compute|by vm_compute|by vm_compute|by vm_compute].
  exists 0%nat, 1%nat. split_and!; [done|unfold NBUF; lia|unfold NBUF; lia|by vm_compute|by vm_compute].
Qed.

(** A transaction on block 45 that is about to commit. *)
Lemma kst3_commits :
  ∃ s, can_commit 0 (proc1 0) s 2 [45] ∧ lg_committing (k_log s) = 0 ∧ lg_outstanding (k_log s) = 1 ∧
    length (view s 2) = Z.to_nat BSIZE ∧ head_n (dblock (k_disk s) 2) = 0 ∧
    view s 45 = <[0%nat := 7]> zero_block.
Proof.
  destruct (idle_begin 0 (proc1 0) (kst3 ∅) 2 0 {[45]} idle_kst3) as [_ Ho].
  { by vm_compute. }
  { intros x ->%elem_of_singleton. lia. }
  set (s0 := set_k_log _ (kst3 ∅)) in *.
  destruct (op_modify 0 (proc1 0) s0 0 _ [] 45 (λ d, <[0%nat := 7]> d) Ho) as (s1 & _ & Ho1 & Hv1 & Hf1 & Hlg & _);
    [by intros ?%elem_of_nil|cbn; lia|by apply elem_of_singleton|]. exists s1.
  assert (logged (k_log s1) = [45]) as El by (rewrite -> Hlg; reflexivity).
  split.
  - rewrite <- El. eapply op_can_commit; rewrite -> ?El, ?Hlg; [exact Ho1|done|reflexivity|reflexivity|lia|].
    apply Forall_singleton. unfold home_ok, LOGSIZE, MAXOPBLOCKS. lia.
  - rewrite -> !Hlg, !Hv1, (op_frame_disk _ _ Hf1). by vm_compute.
Qed.

Lemma end_op_atomic_witness :
  ∃ s s' w t', end_op s = Ret tt s' ∧
    recover_from_log (kst3 (apply_writes (take 2 w) (k_disk s))) = Ret tt t' ∧
    dblock (k_disk t') 45 = <[0%nat := 7]> zero_block.
Proof.
  destruct kst3_commits as (s & Hcc & Hc & Ho & Hl & Hn & Hv).
  destruct (end_op_atomic 0 (proc1 0) s 2 [45] Hcc Hc Ho Hl Hn) as (s' & w & E & _ & _ & _ & _ & _ & Hrec).
  destruct (Hrec 2%nat (kst3 (apply_writes (take 2 w) (k_disk s)))) as (t' & Er & Hd).
  - apply booted_kst3.
  - reflexivity.
  - exists s, s', w, t'. split; [exact E|]. split; [exact Er|].
    rewrite -> Hd; [|unfold home_ok, LOGSIZE, MAXOPBLOCKS; lia]. exact Hv.
Defined.

Lemma log_reservation_gap_witness :
  ∃ s3 s4, (begin_op ;; begin_op ;; begin_op) (kst3 ∅) = Ret tt s3 ∧
    log_write 0 (set_k_log (set_lg_lh (Logheader 29 (replicate 30 45)) (k_log s3)) s3) =
      Stop (Panic "too big a transaction") s4.
Proof.
  destruct (log_reservation_gap 0 (proc1 0) (kst3 ∅) 0 (Logheader 29 (replicate 30 45))
    (be_env (proj1 (benv_kst3 ∅)))) as (s3 & s4 & E3 & _ & E4); [reflexivity..|].
  exists s3, s4. split; [exact E3|exact E4].
Defined.
