(* ===== verification/Fs.v ===== *)
(** * The file system (kernel/fs.c)

    Block allocation, inodes, their contents, directories and path names, on
    top of the buffer cache and the log. An [struct inode *] is an index into
    [k_itable]. [readi] returns, with its result, the bytes it copied, which
    are what it stores when the destination is a kernel variable; [writei]
    from a kernel variable is given its bytes. Path names and directory names
    are character arrays, with the end of the list as their NUL. *)

From S2P Require Import Prelude Riscv KState Spinlock KString Kalloc Vm Sched Layout Bio Log.
Open Scope Z_scope.

(** ** Blocks *)

Definition readsb (dev : Z) : KM superblock :=
  b ← bread dev 1;
  k ← get_buf b;
  brelse b ;;
  mret (dec_superblock (b_data k)).

Definition fsinit (dev : Z) : KM unit :=
  sb ← readsb dev;
  modify (set_k_sb sb) ;;
  if negb (sb_magic sb =? FSMAGIC) then panic "invalid file system" else
  initlog dev sb.

Definition bzero (dev bno : Z) : KM unit :=
  b ← bread dev (u32 bno);
  upd_buf b (set_b_data zero_block) ;;
  log_write b ;;
  brelse b.

(** Bit [bi] of a block of the bitmap. *)
Definition bit_mask (bi : Z) : Z := Z.shiftl 1 (bi mod 8).
Definition bit_free (d : list Z) (bi : Z) : bool := Z.land (zget d (bi / 8)) (bit_mask bi) =? 0.
Definition bit_set (bi : Z) (d : list Z) : list Z :=
  zset d (bi / 8) (u8 (Z.lor (zget d (bi / 8)) (bit_mask bi))).
Definition bit_clear (bi : Z) (d : list Z) : list Z :=
  zset d (bi / 8) (u8 (Z.land (zget d (bi / 8)) (Z.lnot (bit_mask bi)))).

(** [for(bi = 0; bi < BPB && b + bi < sb.size; bi++)]: the first free bit. *)
Definition balloc_bits (size b : Z) : list Z := seqZ 0 (Z.min BPB (size - b)).
Definition find_free (d : list Z) (bis : list Z) : option Z :=
  snd <$> list_find (λ bi, bit_free d bi = true) bis.

(** One iteration of the outer loop of [balloc]. *)
Definition balloc_one (dev b : Z) : KM (option Z) :=
  sb ← gets k_sb;
  bp ← bread dev (BBLOCK b sb);
  k ← get_buf bp;
  match find_free (b_data k) (balloc_bits (sb_size sb) b) with
  | Some bi =>
      upd_buf bp (λ k, set_b_data (bit_set bi (b_data k)) k) ;;
      log_write bp ;;
      brelse bp ;;
      bzero dev (b + bi) ;;
      mret (Some (b + bi))
  | None => brelse bp ;; mret None
  end.
(** The values of [b] in [for(b = 0; b < sb.size; b += BPB)]. *)
Definition balloc_starts (size : Z) : list Z := (λ i, i * BPB) <$> seqZ 0 ((size + BPB - 1) / BPB).
Definition balloc (dev : Z) : KM Z :=
  sb ← gets k_sb;
  r ← forM (balloc_starts (sb_size sb)) (balloc_one dev);
  match r with
  | Some b => mret b
  | None => panic "balloc: out of blocks"
  end.

Definition bfree (dev b : Z) : KM unit :=
  sb ← gets k_sb;
  bp ← bread dev (BBLOCK b sb);
  let bi := b mod BPB in
  k ← get_buf bp;
  if bit_free (b_data k) bi then panic "freeing free block" else
  upd_buf bp (λ k, set_b_data (bit_clear bi (b_data k)) k) ;;
  log_write bp ;;
  brelse bp.

(** ** Inodes *)

Definition get_inode (ip : nat) : KM inode := t ← gets k_itable; deref (t !! ip).
Definition upd_inode (ip : nat) (f : inode → inode) : KM unit :=
  modify (λ s, set_k_itable (alter f ip (k_itable s)) s).

Definition iinit : KM unit :=
  kinitlock LItable "itable" ;;
  eachM (seq 0 NINODE) (λ i, initsleeplock (SInode i) "inode").

(** The loop of [iget] over the entries from [i] on: the entry that holds the
    inode, and otherwise the first empty one. *)
Fixpoint iget_scan (l : list inode) (i : nat) (dev inum : Z) (empty : option nat)
    : option nat * option nat :=
  match l with
  | [] => (None, empty)
  | ip :: l =>
      if (0 <? i_ref ip) && (i_dev ip =? dev) && (i_inum ip =? inum) then (Some i, empty)
      else iget_scan l (S i) dev inum
             (match empty with
              | None => if i_ref ip =? 0 then Some i else None
              | Some _ => empty
              end)
  end.
Definition iget (dev inum : Z) : KM nat :=
  kacquire LItable ;;
  t ← gets k_itable;
  match iget_scan t 0 dev inum None with
  | (Some ip, _) =>
      upd_inode ip (λ k, set_i_ref (i32 (i_ref k + 1)) k) ;;
      krelease LItable ;;
      mret ip
  | (None, None) => panic "iget: no inodes"
  | (None, Some ip) =>
      upd_inode ip (set_i_dev dev) ;;
      upd_inode ip (set_i_inum inum) ;;
      upd_inode ip (set_i_ref 1) ;;
      upd_inode ip (set_i_valid 0) ;;
      krelease LItable ;;
      mret ip
  end.

(** [(struct dinode * )bp->data + inum%IPB], as an offset. *)
Definition dip_off (inum : Z) : Z := inum mod IPB * sizeof_dinode.

Definition ialloc_one (dev type inum : Z) : KM (option nat) :=
  sb ← gets k_sb;
  bp ← bread dev (IBLOCK inum sb);
  k ← get_buf bp;
  if di_type (dec_dinode (bslice (b_data k) (dip_off inum) sizeof_dinode)) =? 0 then
    upd_buf bp (λ k, set_b_data
      (bsplice (b_data k) (dip_off inum) (enc_dinode (Dinode type 0 0 0 0 (replicate 13 0)))) k) ;;
    log_write bp ;;
    brelse bp ;;
    ip ← iget dev inum;
    mret (Some ip)
  else brelse bp ;; mret None.
Definition ialloc (dev type : Z) : KM nat :=
  sb ← gets k_sb;
  r ← forM (seqZ 1 (sb_ninodes sb - 1)) (ialloc_one dev type);
  match r with
  | Some ip => mret ip
  | None => panic "ialloc: no inodes"
  end.

(** The on-disk part of an inode. *)
Definition inode_dinode (k : inode) : dinode :=
  Dinode (i_type k) (i_major k) (i_minor k) (i_nlink k) (i_size k) (i_addrs k).

Definition iupdate (ip : nat) : KM unit :=
  k ← get_inode ip;
  sb ← gets k_sb;
  bp ← bread (i_dev k) (IBLOCK (i_inum k) sb);
  upd_buf bp (λ b, set_b_data
    (bsplice (b_data b) (dip_off (i_inum k)) (enc_dinode (inode_dinode k))) b) ;;
  log_write bp ;;
  brelse bp.

Definition idup (ip : nat) : KM nat :=
  kacquire LItable ;;
  upd_inode ip (λ k, set_i_ref (i32 (i_ref k + 1)) k) ;;
  krelease LItable ;;
  mret ip.

Definition ilock (ip : option nat) : KM unit :=
  match ip with
  | None => panic "ilock"
  | Some ip =>
      k ← get_inode ip;
      if i_ref k <? 1 then panic "ilock" else
      acquiresleep (SInode ip) ;;
      k ← get_inode ip;
      whenM (i_valid k =? 0)
        (sb ← gets k_sb;
         bp ← bread (i_dev k) (IBLOCK (i_inum k) sb);
         b ← get_buf bp;
         let dip := dec_dinode (bslice (b_data b) (dip_off (i_inum k)) sizeof_dinode) in
         upd_inode ip (set_i_type (di_type dip)) ;;
         upd_inode ip (set_i_major (di_major dip)) ;;
         upd_inode ip (set_i_minor (di_minor dip)) ;;
         upd_inode ip (set_i_nlink (di_nlink dip)) ;;
         upd_inode ip (set_i_size (di_size dip)) ;;
         upd_inode ip (set_i_addrs (di_addrs dip)) ;;
         brelse bp ;;
         upd_inode ip (set_i_valid 1) ;;
         k ← get_inode ip;
         whenM (i_type k =? 0) (panic "ilock: no type"))
  end.

Definition iunlock (ip : option nat) : KM unit :=
  match ip with
  | None => panic "iunlock"
  | Some ip =>
      h ← holdingsleep (SInode ip);
      if h =? 0 then panic "iunlock" else
      k ← get_inode ip;
      if i_ref k <? 1 then panic "iunlock" else
      releasesleep (SInode ip)
  end.

(** ** Contents of inodes *)

(** [a[i]], a [uint] of an indirect block. *)
Definition uint_at (d : list Z) (i : Z) : Z := rd32 d (4 * i).

Definition bmap (ip : nat) (bn : Z) : KM Z :=
  k ← get_inode ip;
  if bn <? NDIRECT then
    let addr := zget (i_addrs k) bn in
    if addr =? 0 then
      addr ← balloc (i_dev k);
      upd_inode ip (λ k, set_i_addrs (zset (i_addrs k) bn addr) k) ;;
      mret addr
    else mret addr
  else
  let bn := bn - NDIRECT in
  if bn <? NINDIRECT then
    addr ← (let addr := zget (i_addrs k) NDIRECT in
            if addr =? 0 then
              addr ← balloc (i_dev k);
              upd_inode ip (λ k, set_i_addrs (zset (i_addrs k) NDIRECT addr) k) ;;
              mret addr
            else mret addr);
    bp ← bread (i_dev k) addr;
    b ← get_buf bp;
    let addr := uint_at (b_data b) bn in
    addr ← (if addr =? 0 then
              addr ← balloc (i_dev k);
              upd_buf bp (λ b, set_b_data (wr32 (b_data b) (4 * bn) addr) b) ;;
              log_write bp ;;
              mret addr
            else mret addr);
    brelse bp ;;
    mret addr
  else panic "bmap: out of range".

Definition itrunc (ip : nat) : KM unit :=
  eachM (seqZ 0 NDIRECT) (λ i,
    k ← get_inode ip;
    whenM (negb (zget (i_addrs k) i =? 0))
      (bfree (i_dev k) (zget (i_addrs k) i) ;;
       upd_inode ip (λ k, set_i_addrs (zset (i_addrs k) i 0) k))) ;;
  k ← get_inode ip;
  whenM (negb (zget (i_addrs k) NDIRECT =? 0))
    (bp ← bread (i_dev k) (zget (i_addrs k) NDIRECT);
     eachM (seqZ 0 NINDIRECT) (λ j,
       b ← get_buf bp;
       whenM (negb (uint_at (b_data b) j =? 0)) (bfree (i_dev k) (uint_at (b_data b) j))) ;;
     brelse bp ;;
     bfree (i_dev k) (zget (i_addrs k) NDIRECT) ;;
     upd_inode ip (λ k, set_i_addrs (zset (i_addrs k) NDIRECT 0) k)) ;;
  upd_inode ip (set_i_size 0) ;;
  iupdate ip.

Definition iput (ip : nat) : KM unit :=
  kacquire LItable ;;
  k ← get_inode ip;
  whenM ((i_ref k =? 1) && negb (i_valid k =? 0) && (i_nlink k =? 0))
    (acquiresleep (SInode ip) ;;
     krelease LItable ;;
     itrunc ip ;;
     upd_inode ip (set_i_type 0) ;;
     iupdate ip ;;
     upd_inode ip (set_i_valid 0) ;;
     releasesleep (SInode ip) ;;
     kacquire LItable) ;;
  upd_inode ip (λ k, set_i_ref (i32 (i_ref k - 1)) k) ;;
  krelease LItable.

Definition iunlockput (ip : nat) : KM unit :=
  iunlock (Some ip) ;;
  iput ip.

Definition stati (ip : nat) : KM stat :=
  k ← get_inode ip;
  mret (Stat (i32 (i_dev k)) (i_inum k) (i_type k) (i_nlink k) (i_size k)).

(** The variables of the loop of [readi]: [tot], [off], [dst] and the bytes
    copied so far. *)
Definition readi_body (ip : nat) (n : Z) (v : Z * Z * addr * list Z)
    : KM (Z * Z * addr * list Z + Z * list Z) :=
  let '(tot, off, dst, acc) := v in
  if negb (tot <? n) then mret (inr (i32 tot, acc)) else
  k ← get_inode ip;
  bno ← bmap ip (off / BSIZE);
  bp ← bread (i_dev k) bno;
  let m := Z.min (n - tot) (BSIZE - off mod BSIZE) in
  b ← get_buf bp;
  let bytes := bslice (b_data b) (off mod BSIZE) m in
  r ← either_copyout dst bytes m;
  if r =? -1 then brelse bp ;; mret (inr (-1, acc)) else
  brelse bp ;;
  mret (inl (u32 (tot + m), u32 (off + m), addr_add dst m, acc ++ bytes)).
Definition readi (ip : nat) (dst : addr) (off n : Z) : KM (Z * list Z) :=
  k ← get_inode ip;
  if (i_size k <? off) || (u32 (off + n) <? off) then mret (0, []) else
  let n := if i_size k <? u32 (off + n) then u32 (i_size k - off) else n in
  loopM (Z.to_nat (n / BSIZE + 3)) (readi_body ip n) (0, off, dst, []).

(** A failed copy leaves in the buffer the bytes it had stored. *)
Definition writei_body (ip : nat) (n : Z) (v : Z * Z * addr)
    : KM (Z * Z * addr + Z * Z) :=
  let '(tot, off, src) := v in
  if negb (tot <? n) then mret (inr (tot, off)) else
  k ← get_inode ip;
  bno ← bmap ip (off / BSIZE);
  bp ← bread (i_dev k) bno;
  let m := Z.min (n - tot) (BSIZE - off mod BSIZE) in
  r ← either_copyin src m;
  upd_buf bp (λ b, set_b_data (bsplice (b_data b) (off mod BSIZE) r.2) b) ;;
  if r.1 =? -1 then brelse bp ;; mret (inr (tot, off)) else
  log_write bp ;;
  brelse bp ;;
  mret (inl (u32 (tot + m), u32 (off + m), addr_add src m)).
Definition writei (ip : nat) (src : addr) (off n : Z) : KM Z :=
  k ← get_inode ip;
  if (i_size k <? off) || (u32 (off + n) <? off) then mret (-1) else
  if MAXFILE * BSIZE <? u32 (off + n) then mret (-1) else
  r ← loopM (Z.to_nat (n / BSIZE + 3)) (writei_body ip n) (0, off, src);
  let '(tot, off) := r in
  k ← get_inode ip;
  whenM (i_size k <? off) (upd_inode ip (set_i_size off)) ;;
  iupdate ip ;;
  mret (i32 tot).

(** ** Directories *)

Definition namecmp (s t : list Z) : Z := strncmp s t (Z.to_nat DIRSIZ).

(** [readi(dp, 0, (uint64)&de, off, sizeof(de))] with its check. *)
Definition read_dirent (msg : string) (dp : nat) (off : Z) : KM dirent :=
  r ← readi dp (AVar []) off sizeof_dirent;
  if negb (r.1 =? sizeof_dirent) then panic msg else
  mret (dec_dirent r.2).

(** The entries' offsets: [for(off = 0; off < dp->size; off += sizeof(de))]. *)
Definition dirent_offs (size : Z) : list Z :=
  (λ i, i * sizeof_dirent) <$> seqZ 0 ((size + sizeof_dirent - 1) / sizeof_dirent).

(** The inode of the entry [name] and [*poff]. *)
Definition dirlookup (dp : nat) (name : list Z) : KM (option (nat * Z)) :=
  k ← get_inode dp;
  if negb (i_type k =? T_DIR) then panic "dirlookup not DIR" else
  forM (dirent_offs (i_size k)) (λ off,
    de ← read_dirent "dirlookup read" dp off;
    if de_inum de =? 0 then mret None else
    if namecmp name (de_name de) =? 0 then
      ip ← iget (i_dev k) (de_inum de);
      mret (Some (ip, off))
    else mret None).

Definition dirlink (dp : nat) (name : list Z) (inum : Z) : KM Z :=
  r ← dirlookup dp name;
  match r with
  | Some (ip, _) => iput ip ;; mret (-1)
  | None =>
      k ← get_inode dp;
      r ← forM (dirent_offs (i_size k)) (λ off,
        de ← read_dirent "dirlink read" dp off;
        mret (if de_inum de =? 0 then Some off else None));
      let off := match r with
                 | Some off => off
                 | None => (i_size k + sizeof_dirent - 1) / sizeof_dirent * sizeof_dirent
                 end in
      let de := Dirent (u16 inum) (strncpy (replicate 14 0) name DIRSIZ) in
      r ← writei dp (AVar (enc_dirent de)) off sizeof_dirent;
      if negb (r =? sizeof_dirent) then panic "dirlink" else mret 0
  end.

(** ** Path names *)

Definition slash : Z := 47.

(** [while( *path == '/') path++;] *)
Fixpoint skip_slashes (path : list Z) : list Z :=
  match path with
  | c :: rest => if c =? slash then skip_slashes rest else path
  | [] => []
  end.
(** [while( *path != '/' && *path != 0) path++;]: the characters passed and
    the rest of the path. *)
Fixpoint elem (path : list Z) : list Z * list Z :=
  match path with
  | c :: rest =>
      if (c =? slash) || (c =? 0) then ([], path)
      else let '(s, path') := elem rest in (c :: s, path')
  | [] => ([], [])
  end.

(** The rest of the path and the new contents of [name]. *)
Definition skipelem (path name : list Z) : option (list Z * list Z) :=
  let path := skip_slashes path in
  if hd 0 path =? 0 then None else
  let '(s, path) := elem path in
  let len := Z.of_nat (length s) in
  let name := if DIRSIZ <=? len then bsplice name 0 (take (Z.to_nat DIRSIZ) s)
              else bsplice name 0 (s ++ [0]) in
  Some (skip_slashes path, name).

(** One iteration of the loop of [namex], on [ip], [path] and [name]. *)
Definition namex_body (nameiparent : bool) (v : nat * list Z * list Z)
    : KM (nat * list Z * list Z + option nat * list Z) :=
  let '(ip, path, name) := v in
  match skipelem path name with
  | None => if nameiparent then iput ip ;; mret (inr (None, name)) else mret (inr (Some ip, name))
  | Some (path, name) =>
      ilock (Some ip) ;;
      k ← get_inode ip;
      if negb (i_type k =? T_DIR) then iunlockput ip ;; mret (inr (None, name)) else
      if nameiparent && (hd 0 path =? 0) then iunlock (Some ip) ;; mret (inr (Some ip, name)) else
      r ← dirlookup ip name;
      match r with
      | None => iunlockput ip ;; mret (inr (None, name))
      | Some (next, _) => iunlockput ip ;; mret (inl (next, path, name))
      end
  end.
Definition namex (path : list Z) (nameiparent : bool) (name : list Z) : KM (option nat * list Z) :=
  ip ← (if hd 0 path =? slash then iget ROOTDEV ROOTINO else
        p ← curproc;
        q ← get_proc p;
        cwd ← deref (p_cwd q);
        idup cwd);
  loopM (S (length path)) (namex_body nameiparent) (ip, path, name).

(** [char name[DIRSIZ]], not initialised. *)
Definition name_buf : list Z := replicate (Z.to_nat DIRSIZ) 0.
Definition namei (path : list Z) : KM (option nat) :=
  r ← namex path false name_buf; mret r.1.
Definition nameiparent (path name : list Z) : KM (option nat * list Z) := namex path true name.
