(* ===== verification/FsBlocks.v ===== *)
(** * Block allocation (kernel/fs.c: bzero, balloc, bfree)

    The bitmap is the set of the blocks in use. [balloc] takes the first free
    block and zeroes it, [bfree] gives one back. *)

From S2P Require Import Prelude Riscv KState Spinlock KString Kalloc Vm Sched Layout Bio Cache Log LogCorrect Txn Fs.
Open Scope Z_scope.

(** ** Bits of a bitmap block *)

Lemma land_mask x k : 0 ≤ k → (Z.land x (Z.shiftl 1 k) =? 0) = negb (Z.testbit x k).
Proof.
  intros Hk. rw Z.shiftl_1_l. destruct (Z.testbit x k) eqn:Hb; cbn.
  - apply Z.eqb_neq. intros E. apply (f_equal (λ y, Z.testbit y k)) in E.
    cbv beta in E. rw Z.land_spec Hb Z.pow2_bits_true // Z.bits_0 in E. done.
  - apply Z.eqb_eq. apply Z.bits_inj'. intros i Hi. rw Z.land_spec Z.bits_0.
    destruct (decide (i = k)) as [->|Hne]; [by rw Hb|]. rw Z.pow2_bits_false; [by rw andb_false_r|lia].
Qed.

Lemma bit_free_testbit d bi : bit_free d bi = negb (Z.testbit (zget d (bi / 8)) (bi mod 8)).
Proof. unfold bit_free, bit_mask. apply land_mask. zlia. Qed.

Lemma testbit_u8 x k : 0 ≤ k < 8 → Z.testbit (u8 x) k = Z.testbit x k.
Proof. intros Hk. unfold u8. change 256 with (2 ^ 8). apply Z.mod_pow2_bits_low. lia. Qed.

Lemma zget_zset (d : list Z) i v j :
  0 ≤ i < length d → 0 ≤ j → zget (zset d i v) j = if decide (j = i) then v else zget d j.
Proof.
  intros Hi Hj. unfold zget, zset. case_decide as E.
  - subst. rw list_lookup_total_insert_eq //. lia.
  - rw list_lookup_total_insert_ne //. lia.
Qed.

Lemma testbit_mask bi k : 0 ≤ k < 8 → Z.testbit (bit_mask bi) k = (k =? bi mod 8).
Proof. intros Hk. unfold bit_mask. rw Z.shiftl_1_l Z.pow2_bits_eqb; [lia|zlia]. Qed.

Section bits.
Context (d : list Z) (bi bi' : Z).
Context (Hd : length d = Z.to_nat BSIZE) (Hi : 0 ≤ bi < BPB) (Hi' : 0 ≤ bi' < BPB).

Lemma bit_index : 0 ≤ bi / 8 < length d ∧ 0 ≤ bi' / 8 ∧ 0 ≤ bi' mod 8 < 8 ∧
  (bi = bi' ↔ bi / 8 = bi' / 8 ∧ bi mod 8 = bi' mod 8).
Proof. rw Hd. unfold BPB, BSIZE in *. split_and!; zlia. Qed.

Lemma bit_free_set : bit_free (bit_set bi d) bi' = bit_free d bi' && negb (bi =? bi').
Proof.
  destruct bit_index as (H1 & H2 & H3 & H4). rw !bit_free_testbit. unfold bit_set. rw zget_zset //.
  destruct (decide (bi' / 8 = bi / 8)) as [E|E].
  - rw testbit_u8 // Z.lor_spec testbit_mask // E negb_orb. f_equal. f_equal. lia.
  - assert (bi ≠ bi') by naive_solver. rewrite -> (proj2 (Z.eqb_neq bi bi')) by done. by rw andb_true_r.
Qed.
Lemma bit_free_clear : bit_free (bit_clear bi d) bi' = bit_free d bi' || (bi =? bi').
Proof.
  destruct bit_index as (H1 & H2 & H3 & H4). rw !bit_free_testbit. unfold bit_clear. rw zget_zset //.
  destruct (decide (bi' / 8 = bi / 8)) as [E|E].
  - rw testbit_u8 // Z.land_spec Z.lnot_spec; [|lia]. rw testbit_mask // E negb_andb negb_involutive. f_equal. lia.
  - assert (bi ≠ bi') by naive_solver. rewrite -> (proj2 (Z.eqb_neq bi bi')) by done. by rw orb_false_r.
Qed.
End bits.

(** ** The bitmap as a set *)

(** Block [x] is in use. *)
Definition used (s : kstate) (x : Z) : bool :=
  negb (bit_free (view s (BBLOCK x (k_sb s))) (x mod BPB)).

(** The bitmap covers the disk, and its own blocks are in use. *)
Record bitmap_ok (s : kstate) : Prop := {
  bm_size : 0 ≤ sb_size (k_sb s) < 2 ^ 31;
  bm_start : 0 ≤ sb_bmapstart (k_sb s);
  bm_own x : 0 ≤ x < sb_size (k_sb s) →
    x / BPB + sb_bmapstart (k_sb s) < sb_size (k_sb s) ∧
    used s (BBLOCK x (k_sb s)) = true ∧ length (view s (BBLOCK x (k_sb s))) = Z.to_nat BSIZE
}.

Lemma op_frame_sb s s' : op_frame s s' → k_sb s' = k_sb s.
Proof. by intros (? & ? & ? & ->). Qed.

Lemma BBLOCK_small s x :
  bitmap_ok s → 0 ≤ x < sb_size (k_sb s) →
  BBLOCK x (k_sb s) = x / BPB + sb_bmapstart (k_sb s) ∧ 0 ≤ BBLOCK x (k_sb s) < sb_size (k_sb s).
Proof.
  intros [Hs Hst Ho] Hx. destruct (Ho x Hx) as [H1 _]. assert (0 ≤ x / BPB) by (unfold BPB, BSIZE; zlia).
  unfold BBLOCK. rewrite -> u32_small by lia. lia.
Qed.

(** Two blocks with the same bitmap block and the same bit are the same. *)
Lemma BBLOCK_inj s x y :
  bitmap_ok s → 0 ≤ x < sb_size (k_sb s) → 0 ≤ y < sb_size (k_sb s) →
  BBLOCK x (k_sb s) = BBLOCK y (k_sb s) → (x mod BPB =? y mod BPB) = (x =? y).
Proof.
  intros Hb Hx Hy E. destruct (BBLOCK_small s x Hb Hx) as [E1 _], (BBLOCK_small s y Hb Hy) as [E2 _].
  rw E1 E2 in E. assert (x / BPB = y / BPB) by lia. unfold BPB, BSIZE in *.
  destruct (Z.eqb_spec x y) as [->|Hne]; [apply Z.eqb_refl|apply Z.eqb_neq; zlia].
Qed.

Lemma mod_BPB x : 0 ≤ x mod BPB < BPB.
Proof. unfold BPB, BSIZE. zlia. Qed.

(** Changing one bit of the bitmap. *)
Lemma used_change s s' b v (f : list Z → list Z) :
  bitmap_ok s → 0 ≤ b < sb_size (k_sb s) → k_sb s' = k_sb s →
  (∀ x, view s' x = if decide (x = BBLOCK b (k_sb s)) then f (view s (BBLOCK b (k_sb s))) else view s x) →
  (∀ d bi, length d = Z.to_nat BSIZE → 0 ≤ bi < BPB →
     bit_free (f d) bi = if b mod BPB =? bi then negb v else bit_free d bi) →
  ∀ y, 0 ≤ y < sb_size (k_sb s) → used s' y = if b =? y then v else used s y.
Proof.
  intros Hbm Hb Esb Hv Hf y Hy. unfold used. rw Esb Hv. case_decide as E.
  - rw Hf; [|apply (bm_own _ Hbm b Hb)|apply mod_BPB]. rw (BBLOCK_inj s b y) //.
    destruct (b =? y); [apply negb_involutive|]. by rw E.
  - destruct (Z.eqb_spec b y) as [->|]; done.
Qed.

Lemma op_same_used s s' : op_same s s' → ∀ y, used s' y = used s y.
Proof. intros (Hv & Hf & _) y. unfold used. by rw (op_frame_sb _ _ Hf) Hv. Qed.
Lemma op_same_bitmap s s' : op_same s s' → bitmap_ok s → bitmap_ok s'.
Proof.
  intros Hs [H1 H2 H3]. pose proof (op_same_used _ _ Hs) as Hu. destruct Hs as (Hv & Hf & _).
  split; rw (op_frame_sb _ _ Hf) //. intros x Hx. rw Hu Hv. by apply H3.
Qed.

(** The bitmap depends on its own blocks only. *)
Lemma bitmap_view s s' :
  bitmap_ok s → k_sb s' = k_sb s →
  (∀ y, 0 ≤ y < sb_size (k_sb s) → view s' (BBLOCK y (k_sb s)) = view s (BBLOCK y (k_sb s))) →
  bitmap_ok s' ∧ ∀ y, 0 ≤ y < sb_size (k_sb s) → used s' y = used s y.
Proof.
  intros Hbm Esb Hv. assert (∀ y, 0 ≤ y < sb_size (k_sb s) → used s' y = used s y) as Hu.
  { intros y Hy. unfold used. by rw Esb Hv. }
  split; [|done]. split; rw Esb; try apply Hbm. intros x Hx. destruct (BBLOCK_small s x Hbm Hx) as [_ Hr].
  rw Hu // Hv //. by apply Hbm.
Qed.

Section alloc.
Context (p : nat) (q : proc).

Lemma bzero_ok s n W hs bno :
  op_env p q s n W hs → (bno ∉ hs.*2) → (length hs < 2)%nat → bno ∈ W →
  ∃ s', bzero ROOTDEV bno s = Ret tt s' ∧ op_env p q s' n W hs ∧
    (∀ x, view s' x = if decide (x = bno) then zero_block else view s x) ∧ op_frame s s' ∧
    (∀ x, x ∈ logged (k_log s') ↔ x ∈ logged (k_log s) ∨ x = bno).
Proof.
  intros Ho Hb Hl HW. destruct (op_modify p q s n W hs bno (λ _, zero_block) Ho Hb Hl HW)
    as (s' & E & Ho' & Hv & Hf & _ & Hlg).
  exists s'. split_and!; try done. unfold bzero. rewrite -> u32_small; [exact E|].
  pose proof (oe_W _ _ _ _ _ _ Ho bno HW). lia.
Qed.

(** The blocks that the thread holds are in use and not of the bitmap. *)
Definition held_ok (s : kstate) (hs : list (nat * Z)) : Prop :=
  (length hs < 2)%nat ∧
  ∀ x, x ∈ hs.*2 → used s x = true ∧ ∀ y, 0 ≤ y < sb_size (k_sb s) → BBLOCK y (k_sb s) ≠ x.

(** What allocating block [x] does. *)
Record took (s s' : kstate) (x : Z) : Prop := {
  tk_range : 0 ≤ x < sb_size (k_sb s);
  tk_free : used s x = false;
  tk_used y : 0 ≤ y < sb_size (k_sb s) → used s' y = if x =? y then true else used s y;
  tk_zero : view s' x = zero_block;
  tk_other z : z ≠ x → z ≠ BBLOCK x (k_sb s) → view s' z = view s z;
  tk_frame : op_frame s s';
  tk_log z : z ∈ logged (k_log s') ↔ z ∈ logged (k_log s) ∨ z = x ∨ z = BBLOCK x (k_sb s);
  tk_bitmap : bitmap_ok s'
}.

Lemma bit_set_spec b d bi :
  length d = Z.to_nat BSIZE → 0 ≤ bi < BPB →
  bit_free (bit_set (b mod BPB) d) bi = if b mod BPB =? bi then negb true else bit_free d bi.
Proof.
  intros Hd Hi. rw bit_free_set //; [|apply mod_BPB].
  destruct (b mod BPB =? bi); [apply andb_false_r|apply andb_true_r].
Qed.

Lemma length_zset {A} (l : list A) i v : length (zset l i v) = length l.
Proof. apply length_insert. Qed.

(** Marking a free block and zeroing it. *)
Lemma take_block s s1 n W hs bp x :
  bitmap_ok s → held_ok s hs → (∀ y, 0 ≤ y < sb_size (k_sb s) → BBLOCK y (k_sb s) ∈ W) →
  op_same s s1 → op_env p q s1 (S n) W ((bp, BBLOCK x (k_sb s)) :: hs) →
  0 ≤ x < sb_size (k_sb s) → used s x = false →
  ∃ s', (upd_buf bp (λ k, set_b_data (bit_set (x mod BPB) (b_data k)) k) ;; log_write bp ;; brelse bp ;;
         bzero ROOTDEV x ;; mret (Some x)) s1 = Ret (Some x) s' ∧
    op_env p q s' n ({[x]} ∪ W) hs ∧ took s s' x.
Proof.
  intros Hbm [Hl Hh] HW Hs1 Ho1 Hx Hu. destruct (BBLOCK_small s x Hbm Hx) as [_ Hbr].
  pose proof (bm_size _ Hbm) as Hsz. destruct (bm_own _ Hbm x Hx) as (_ & Hbu & Hbl).
  destruct (op_store p q s1 (S n) W hs bp (BBLOCK x (k_sb s)) (bit_set (x mod BPB))
    Ho1 (HW x Hx)) as (s2 & _ & E2 & Ho2 & Hv2 & Hf2 & Hl2).
  destruct (Hs1) as (Hv1 & Hf1 & El1).
  assert (∀ z, view s2 z = if decide (z = BBLOCK x (k_sb s)) then bit_set (x mod BPB) (view s (BBLOCK x (k_sb s))) else view s z) as Hv2'.
  { intros z. rw Hv2 !Hv1 //. }
  assert (op_frame s s2) as Hfr2 by by eapply op_frame_trans.
  assert (x ≠ BBLOCK x (k_sb s)) as Hxb by congruence.
  assert (x ∉ hs.*2) as Hxh by (intros Hin; destruct (Hh x Hin); congruence).
  destruct (bzero_ok s2 n ({[x]} ∪ W) hs x) as (s3 & E3 & Ho3 & Hv3 & Hf3 & Hl3);
    [apply op_grow; [done|lia]|done|done|set_solver|].
  rw E2. mstep E3. exists s3. split; [done|]. split; [done|].
  assert (op_frame s s3) as Hfr3 by by eapply op_frame_trans.
  assert (∀ y, 0 ≤ y < sb_size (k_sb s) → view s3 (BBLOCK y (k_sb s)) = view s2 (BBLOCK y (k_sb s))) as Hbv.
  { intros y Hy. rw Hv3 decide_False //. intros E. destruct (bm_own _ Hbm y Hy) as (_ & Hyu & _). congruence. }
  assert (∀ y, 0 ≤ y < sb_size (k_sb s) → used s3 y = if x =? y then true else used s y) as Hu3.
  { intros y Hy. transitivity (used s2 y).
    { unfold used. rw (op_frame_sb _ _ Hfr3) (op_frame_sb _ _ Hfr2). by rw Hbv. }
    apply (used_change s s2 x true (bit_set (x mod BPB))); try done; [by apply op_frame_sb|].
    intros d bi. apply bit_set_spec. }
  split; try done.
  - by rw Hv3 decide_True.
  - intros z Hz1 Hz2. by rw Hv3 decide_False // Hv2' decide_False.
  - intros z. rw Hl3 Hl2 El1. naive_solver.
  - split; rw (op_frame_sb _ _ Hfr3); try apply Hbm. intros y Hy.
    destruct (bm_own _ Hbm y Hy) as (H1 & H2 & H3). split_and!; [done| |].
    + destruct (BBLOCK_small s y Hbm Hy) as [_ Hyr]. rw Hu3 // H2. by destruct (x =? _).
    + rw Hbv // Hv2'. case_decide; [|done]. unfold bit_set. by rw length_zset.
Qed.

(** The first free bit of a bitmap block. *)
Lemma find_free_spec d size b :
  match find_free d (balloc_bits size b) with
  | Some bi => 0 ≤ bi < Z.min BPB (size - b) ∧ bit_free d bi = true ∧ ∀ j, 0 ≤ j < bi → bit_free d j = false
  | None => ∀ j, 0 ≤ j < Z.min BPB (size - b) → bit_free d j = false
  end.
Proof.
  unfold find_free, balloc_bits. destruct (list_find _ _) as [[i bi]|] eqn:E; cbn.
  - apply list_find_Some in E as (Hi & Hf & Hb). apply lookup_seqZ in Hi as [-> Hi].
    split_and!; [lia|lia|done|]. intros j Hj. specialize (Hb (Z.to_nat j) j).
    rw lookup_seqZ in Hb. destruct (bit_free d j); [|done]. destruct Hb; [lia|lia|done].
  - apply list_find_None in E. rewrite -> Forall_forall in E. intros j Hj.
    specialize (E j). rw elem_of_seqZ in E. destruct (bit_free d j); [|done]. destruct E; [lia|done].
Qed.

Section balloc.
Context (s : kstate) (n : nat) (W : gset Z) (hs : list (nat * Z)).
Context (Hbm : bitmap_ok s) (Hheld : held_ok s hs).
Context (HW : ∀ y, 0 ≤ y < sb_size (k_sb s) → BBLOCK y (k_sb s) ∈ W).

Lemma bit_of_block i bi :
  0 ≤ i → 0 ≤ bi < Z.min BPB (sb_size (k_sb s) - i * BPB) →
  BBLOCK (i * BPB + bi) (k_sb s) = BBLOCK (i * BPB) (k_sb s) ∧ (i * BPB + bi) mod BPB = bi ∧
  0 ≤ i * BPB + bi < sb_size (k_sb s).
Proof.
  intros Hi Hbi. unfold BBLOCK, BPB, BSIZE in *. split_and!; [|zlia|lia|lia]. do 2 f_equal. zlia.
Qed.

Lemma balloc_one_ok s0 i :
  op_same s s0 → op_env p q s0 (S n) W hs → 0 ≤ i → i * BPB < sb_size (k_sb s) →
  (∃ x s', balloc_one ROOTDEV (i * BPB) s0 = Ret (Some x) s' ∧ i * BPB ≤ x ∧
     (∀ y, i * BPB ≤ y < x → used s y = true) ∧ op_env p q s' n ({[x]} ∪ W) hs ∧ took s s' x) ∨
  (∃ s', balloc_one ROOTDEV (i * BPB) s0 = Ret None s' ∧
     (∀ y, i * BPB ≤ y < (i + 1) * BPB → y < sb_size (k_sb s) → used s y = true) ∧
     op_env p q s' (S n) W hs ∧ op_same s s').
Proof.
  intros Hs0 Ho0 Hi Hlt. destruct Hheld as [Hl Hh]. destruct (Hs0) as (Hv0 & Hf0 & El0).
  unfold balloc_one. rw bind_gets. cbn beta. rw (op_frame_sb _ _ Hf0).
  set (bno := BBLOCK (i * BPB) (k_sb s)). assert (0 ≤ i * BPB < sb_size (k_sb s)) as Hr by (unfold BPB, BSIZE in *; lia).
  assert (bno ∉ hs.*2) as Hbh. { intros Hin. destruct (Hh _ Hin) as [_ Hne]. by apply (Hne (i * BPB)). }
  destruct (op_load p q s0 (S n) W hs bno) as (bp & k & s1 & E & Hd & Ho1 & Hs1 & Hc1); [done|done|done|].
  rw E. clear E. rw Hv0 in Hd. rw Hd. pose proof (find_free_spec (view s bno) (sb_size (k_sb s)) (i * BPB)) as Hff.
  assert (op_same s s1) as Hss1 by by eapply op_same_trans.
  assert (∀ bi, 0 ≤ bi < Z.min BPB (sb_size (k_sb s) - i * BPB) →
    used s (i * BPB + bi) = negb (bit_free (view s bno) bi)) as Hub.
  { intros bi Hbi. destruct (bit_of_block i bi Hi Hbi) as (E1 & E2 & _). unfold used. by rw E1 E2. }
  destruct (find_free _ _) as [bi|].
  - left. destruct Hff as (Hbi & Hfree & Hmin). destruct (bit_of_block i bi Hi Hbi) as (E1 & E2 & E3).
    destruct (take_block s s1 n W hs bp (i * BPB + bi)) as (s' & E' & Ho' & Ht); try done.
    { by rw E1. } { by rw Hub // Hfree. }
    rw E2 in E'. exists (i * BPB + bi), s'. split_and!; [exact E'|lia| |done|done].
    intros y Hy. replace y with (i * BPB + (y - i * BPB)) by lia. rw Hub; [|lia]. rw Hmin //. lia.
  - right. destruct (op_brelse p q s1 _ W bp bno hs Ho1 Hc1) as (s2 & E2 & Ho2 & Hs2). mstep E2.
    exists s2. split_and!; [done| |done|by eapply op_same_trans].
    intros y Hy Hys. replace y with (i * BPB + (y - i * BPB)) by lia. rw Hub; [|lia]. rw Hff //. lia.
Qed.

Lemma balloc_loop (m : nat) : ∀ s0 i,
  op_same s s0 → op_env p q s0 (S n) W hs → 0 ≤ i →
  (i + m - 1) * BPB < sb_size (k_sb s) → (∀ y, 0 ≤ y < i * BPB → y < sb_size (k_sb s) → used s y = true) →
  (∃ x s', forM ((λ i, i * BPB) <$> seqZ i m) (balloc_one ROOTDEV) s0 = Ret (Some x) s' ∧
     (∀ y, 0 ≤ y < x → used s y = true) ∧ op_env p q s' n ({[x]} ∪ W) hs ∧ took s s' x) ∨
  (∃ s', forM ((λ i, i * BPB) <$> seqZ i m) (balloc_one ROOTDEV) s0 = Ret None s' ∧
     ∀ y, 0 ≤ y < (i + m) * BPB → y < sb_size (k_sb s) → used s y = true).
Proof.
  induction m as [|m IH]; intros s0 i Hs0 Ho0 Hi Hlt Hbelow.
  { right. exists s0. split; [done|]. intros y Hy. apply Hbelow. lia. }
  rw seqZ_cons; [|lia]. rw fmap_cons. cbn [forM]. replace (Z.pred (S m)) with (Z.of_nat m) by lia.
  assert (i * BPB < sb_size (k_sb s)) as Hlt' by (unfold BPB, BSIZE in *; nia).
  destruct (balloc_one_ok s0 i Hs0 Ho0 Hi Hlt') as [(x & s' & E & Hx & Hmin & Ho' & Ht)|(s' & E & Hall & Ho' & Hs')].
  - left. mstep E. exists x, s'. split_and!; try done.
    intros y Hy. pose proof (tk_range _ _ _ Ht). destruct (decide (y < i * BPB)); [apply Hbelow; lia|apply Hmin; lia].
  - mstep E. destruct (IH s' (Z.succ i)) as [Hres|(s2 & E2 & Hr)]; try done.
    + lia.
    + unfold BPB, BSIZE in *. lia.
    + intros y Hy Hys. destruct (decide (y < i * BPB)); [apply Hbelow; lia|].
      apply Hall; unfold BPB, BSIZE in *; lia.
    + by left.
    + right. exists s2. split; [done|]. intros y Hy. apply Hr. unfold BPB, BSIZE in *. lia.
Qed.

(** [balloc] takes the first free block, and panics when there is none. *)
Lemma balloc_ok :
  op_env p q s (S n) W hs →
  (∃ x s', balloc ROOTDEV s = Ret x s' ∧ (∀ y, 0 ≤ y < x → used s y = true) ∧
     op_env p q s' n ({[x]} ∪ W) hs ∧ took s s' x) ∨
  (∃ s', balloc ROOTDEV s = Stop (Panic "balloc: out of blocks") s' ∧
     ∀ y, 0 ≤ y < sb_size (k_sb s) → used s y = true).
Proof.
  intros Ho. unfold balloc. rw bind_gets. cbn beta. unfold balloc_starts. pose proof (bm_size _ Hbm) as Hsz.
  set (m := (sb_size (k_sb s) + BPB - 1) / BPB).
  assert (0 ≤ m ∧ (m - 1) * BPB < sb_size (k_sb s) ≤ m * BPB) as Hm by (unfold m, BPB, BSIZE in *; zlia).
  assert (op_same s s) as Hss by (split_and!; [done|apply op_frame_refl|done]).
  destruct (balloc_loop (Z.to_nat m) s 0 Hss Ho) as [(x & s' & E & Hmin & Ho' & Ht)|(s' & E & Hall)].
  - lia.
  - unfold BPB, BSIZE in *. lia.
  - intros y Hy. lia.
  - rw Z2Nat.id in E; [|lia]. left. mstep E. by exists x, s'.
  - rw Z2Nat.id in E; [|lia]. right. mstep E. exists s'. split; [done|].
    intros y Hy. apply Hall; unfold BPB, BSIZE in *; lia.
Qed.
End balloc.

Lemma bit_clear_spec b d bi :
  length d = Z.to_nat BSIZE → 0 ≤ bi < BPB →
  bit_free (bit_clear (b mod BPB) d) bi = if b mod BPB =? bi then negb false else bit_free d bi.
Proof.
  intros Hd Hi. rw bit_free_clear //; [|apply mod_BPB].
  destruct (b mod BPB =? bi); [apply orb_true_r|apply orb_false_r].
Qed.

(** What freeing block [x] does. *)
Record gave (s s' : kstate) (x : Z) : Prop := {
  gv_used y : 0 ≤ y < sb_size (k_sb s) → used s' y = if x =? y then false else used s y;
  gv_other z : z ≠ BBLOCK x (k_sb s) → view s' z = view s z;
  gv_len : length (view s' (BBLOCK x (k_sb s))) = length (view s (BBLOCK x (k_sb s)));
  gv_frame : op_frame s s'
}.

(** A block that is freed is not of the bitmap. *)
Lemma gave_bitmap s s' x :
  bitmap_ok s → gave s s' x → (∀ y, 0 ≤ y < sb_size (k_sb s) → BBLOCK y (k_sb s) ≠ x) → bitmap_ok s'.
Proof.
  intros Hb [Hu Hv Hl Hf] Hx. pose proof (op_frame_sb _ _ Hf) as Es. split; rw Es; try apply Hb.
  intros y Hy. destruct (bm_own _ Hb y Hy) as (H1 & H2 & H3). destruct (BBLOCK_small s y Hb Hy) as [_ Hr].
  split_and!; [done| |].
  - rw Hu //. destruct (Z.eqb_spec x (BBLOCK y (k_sb s))) as [->|]; [by destruct (Hx y Hy)|done].
  - destruct (decide (BBLOCK y (k_sb s) = BBLOCK x (k_sb s))) as [E|E]; [by rw E Hl -E|by rw Hv].
Qed.

(** [bfree] frees a block in use, and panics on a free one. *)
Lemma bfree_ok s n W hs x :
  bitmap_ok s → held_ok s hs → op_env p q s n W hs → BBLOCK x (k_sb s) ∈ W → 0 ≤ x < sb_size (k_sb s) →
  if used s x
  then ∃ s', bfree ROOTDEV x s = Ret tt s' ∧ op_env p q s' n W hs ∧ gave s s' x
  else ∃ s', bfree ROOTDEV x s = Stop (Panic "freeing free block") s'.
Proof.
  intros Hbm [Hl Hh] Ho HW Hx. unfold bfree. rw bind_gets. cbn beta. set (bno := BBLOCK x (k_sb s)) in *.
  assert (bno ∉ hs.*2) as Hbh. { intros Hin. destruct (Hh _ Hin) as [_ Hne]. by apply (Hne x). }
  destruct (op_load p q s n W hs bno) as (bp & k & s1 & E & Hd & Ho1 & Hs1 & _); [done|done|done|].
  rw E. clear E. rw Hd. unfold used. fold bno. destruct (bit_free (view s bno) (x mod BPB)) eqn:Hbit; cbn [negb].
  { by eexists. }
  destruct (op_store p q s1 n W hs bp bno (bit_clear (x mod BPB)) Ho1 HW) as (s2 & E2 & _ & Ho2 & Hv2 & Hf2 & _).
  destruct Hs1 as (Hv1 & Hf1 & El1). exists s2.
  assert (op_frame s s2) as Hfr by by eapply op_frame_trans.
  split; [exact E2|split; [done|]].
  split; [|intros z Hz; by rw Hv2 decide_False // Hv1|by rw Hv2 decide_True // length_zset Hv1|done].
  apply (used_change s s2 x false (bit_clear (x mod BPB))); try done; [by apply op_frame_sb|..].
  - intros z. by rw Hv2 !Hv1.
  - intros d bi. apply bit_clear_spec.
Qed.
End alloc.

(** C22. The block allocator implements a set of blocks in use. [balloc] returns
    the first free block, zeroed, and marks it in use and no other; [bfree]
    undoes this; freeing the block once more panics. [balloc] panics exactly
    when every block is in use. *)
Theorem balloc_bfree p q s n W :
  bitmap_ok s → op_env p q s (S n) W [] → (∀ y, 0 ≤ y < sb_size (k_sb s) → BBLOCK y (k_sb s) ∈ W) →
  (∃ x s1 s2 s3, balloc ROOTDEV s = Ret x s1 ∧ 0 ≤ x < sb_size (k_sb s) ∧ used s x = false ∧
     (∀ y, 0 ≤ y < x → used s y = true) ∧ view s1 x = zero_block ∧
     (∀ y, 0 ≤ y < sb_size (k_sb s) → used s1 y = if x =? y then true else used s y) ∧
     bfree ROOTDEV x s1 = Ret tt s2 ∧ (∀ y, 0 ≤ y < sb_size (k_sb s) → used s2 y = used s y) ∧
     bfree ROOTDEV x s2 = Stop (Panic "freeing free block") s3) ∨
  (∃ s', balloc ROOTDEV s = Stop (Panic "balloc: out of blocks") s' ∧
     ∀ y, 0 ≤ y < sb_size (k_sb s) → used s y = true).
Proof.
  intros Hb Ho HW. assert (∀ t, held_ok t []) as Hh by (intros t; split; [cbn; lia|by intros x ?%elem_of_nil]).
  destruct (balloc_ok p q s n W [] Hb (Hh s) HW Ho) as [(x & s1 & E1 & Hmin & Ho1 & Ht)|Hp]; [left|by right].
  destruct Ht as [Hr Hf Hu Hz _ Hfr _ Hb1]. pose proof (op_frame_sb _ _ Hfr) as Es1.
  pose proof (bfree_ok p q s1 n ({[x]} ∪ W) [] x Hb1 (Hh s1) Ho1) as Hfree.
  rw Es1 Hu // Z.eqb_refl in Hfree. destruct Hfree as (s2 & E2 & Ho2 & Hg);
    [apply elem_of_union_r; by apply HW|done|].
  assert (bitmap_ok s2) as Hb2.
  { eapply gave_bitmap; [exact Hb1|exact Hg|]. rw Es1. intros y Hy <-.
    destruct (bm_own _ Hb y Hy) as (_ & Hy' & _). congruence. }
  destruct Hg as [Hu2 Hv2 _ Hfr2].
  pose proof (op_frame_sb _ _ Hfr2) as Es2. rw Es1 in Hu2 Es2 Hv2.
  assert (∀ y, 0 ≤ y < sb_size (k_sb s) → used s2 y = used s y) as Hu2'.
  { intros y Hy. rw Hu2 // Hu //. destruct (Z.eqb_spec x y) as [<-|]; done. }
  pose proof (bfree_ok p q s2 n ({[x]} ∪ W) [] x Hb2 (Hh s2) Ho2) as Hfree2.
  rw Es2 Hu2' // Hf in Hfree2. destruct Hfree2 as (s3 & E3); [apply elem_of_union_r; by apply HW|done|].
  exists x, s1, s2, s3. split_and!; try done; lia.
Qed.
