(* ===== verification/FsInode.v ===== *)
(** * Contents of inodes (kernel/fs.c: bmap, readi, writei, iupdate)

    An inode maps file block numbers to disk blocks through its direct
    addresses and one indirect block. [slot] numbers all the addresses of an
    inode: the direct ones, the indirect block, and the entries of the
    indirect block. [fcontent] is the file as a sequence of blocks, [fbyte]
    as a sequence of bytes; blocks that are not allocated read as zeroes. *)

From S2P Require Import Prelude Riscv KState Spinlock KString Kalloc Vm Sched Layout Bio Cache Log LogCorrect Txn Fs FsBlocks.
Open Scope Z_scope.

(** ** The address map of an inode *)

Definition slot (vw : Z → list Z) (addrs : list Z) (j : Z) : Z :=
  if j <=? NDIRECT then zget addrs j
  else let a := zget addrs NDIRECT in
       if a =? 0 then 0 else uint_at (vw a) (j - NDIRECT - 1).
(** The slot of file block [bn]. *)
Definition bslot (bn : Z) : Z := if bn <? NDIRECT then bn else bn + 1.

Definition fcontent (vw : Z → list Z) (addrs : list Z) (bn : Z) : list Z :=
  let a := slot vw addrs (bslot bn) in if a =? 0 then zero_block else vw a.
Definition fbyte (vw : Z → list Z) (addrs : list Z) (off : Z) : Z :=
  zget (fcontent vw addrs (off / BSIZE)) (off mod BSIZE).

(** A block that belongs to a file. *)
Record data_block (s : kstate) (a : Z) : Prop := {
  db_range : 0 ≤ a < sb_size (k_sb s);
  db_used : used s a = true;
  db_bitmap y : 0 ≤ y < sb_size (k_sb s) → BBLOCK y (k_sb s) ≠ a;
  db_inode i : 0 ≤ i < sb_ninodes (k_sb s) → IBLOCK i (k_sb s) ≠ a;
  db_len : length (view s a) = Z.to_nat BSIZE
}.

Record file_ok (s : kstate) (addrs : list Z) : Prop := {
  fo_len : length addrs = 13%nat;
  fo_data j : 0 ≤ j ≤ MAXFILE → slot (view s) addrs j ≠ 0 → data_block s (slot (view s) addrs j);
  fo_inj j j' : 0 ≤ j ≤ MAXFILE → 0 ≤ j' ≤ MAXFILE →
    slot (view s) addrs j = slot (view s) addrs j' → slot (view s) addrs j ≠ 0 → j = j'
}.

(** The boot block and the blocks of inodes are in use. *)
Record meta_ok (s : kstate) : Prop := {
  mo_zero : used s 0 = true;
  mo_inode i : 0 ≤ i < sb_ninodes (k_sb s) →
    used s (IBLOCK i (k_sb s)) = true ∧ 0 < IBLOCK i (k_sb s) < sb_size (k_sb s) ∧
    ∀ y, 0 ≤ y < sb_size (k_sb s) → BBLOCK y (k_sb s) ≠ IBLOCK i (k_sb s)
}.

Lemma NDIRECT_eq : NDIRECT = 12.
Proof. done. Qed.
Lemma MAXFILE_eq : MAXFILE = 268.
Proof. done. Qed.

Lemma slot_direct vw addrs j : j ≤ NDIRECT → slot vw addrs j = zget addrs j.
Proof. intros Hj. unfold slot. by rewrite -> (proj2 (Z.leb_le _ _)). Qed.
Lemma slot_indirect vw addrs j :
  NDIRECT < j → zget addrs NDIRECT ≠ 0 →
  slot vw addrs j = uint_at (vw (zget addrs NDIRECT)) (j - NDIRECT - 1).
Proof.
  intros Hj Ha. unfold slot. rewrite -> (proj2 (Z.leb_gt _ _)) by done. by rewrite -> (proj2 (Z.eqb_neq _ _)).
Qed.
Lemma slot_ext vw vw' addrs j :
  (zget addrs NDIRECT ≠ 0 → vw' (zget addrs NDIRECT) = vw (zget addrs NDIRECT)) →
  slot vw' addrs j = slot vw addrs j.
Proof.
  intros Hv. unfold slot. destruct (j <=? NDIRECT); [done|]. destruct (Z.eqb_spec (zget addrs NDIRECT) 0); [done|].
  by rw Hv.
Qed.
Lemma bslot_range bn : 0 ≤ bn < MAXFILE → 0 ≤ bslot bn ≤ MAXFILE ∧ bslot bn ≠ NDIRECT.
Proof. unfold bslot. rw MAXFILE_eq NDIRECT_eq. intros Hb. destruct (Z.ltb_spec bn 12); lia. Qed.
Lemma bslot_inj bn bn' : bslot bn = bslot bn' → bn = bn'.
Proof. unfold bslot. rw NDIRECT_eq. destruct (Z.ltb_spec bn 12), (Z.ltb_spec bn' 12); lia. Qed.

(** ** Giving the file a new block *)

Lemma uint_at_zero i : 0 ≤ i < NINDIRECT → uint_at zero_block i = 0.
Proof.
  intros Hi. unfold uint_at, rd32, zero_block, bslice. rw drop_replicate take_replicate.
  unfold NINDIRECT, BSIZE in *. change (1024 / 4) with 256 in Hi.
  replace (Z.to_nat 4 `min` (Z.to_nat 1024 - Z.to_nat (4 * i)))%nat with 4%nat by lia. done.
Qed.

(** Slot [j] gets the new block [x]. *)
Record grew (s s' : kstate) (addrs addrs' : list Z) (j x : Z) : Prop := {
  gr_sb : k_sb s' = k_sb s;
  gr_range : 0 ≤ x < sb_size (k_sb s) ∧ used s x = false;
  gr_len : length addrs' = 13%nat;
  gr_old : slot (view s) addrs j = 0;
  gr_slot j' : 0 ≤ j' ≤ MAXFILE →
    slot (view s') addrs' j' = if decide (j' = j) then x else slot (view s) addrs j';
  gr_used y : 0 ≤ y < sb_size (k_sb s) → used s' y = if x =? y then true else used s y;
  gr_bitmap : bitmap_ok s';
  gr_zero : view s' x = zero_block;
  gr_view z : z ≠ x → (∀ y, 0 ≤ y < sb_size (k_sb s) → BBLOCK y (k_sb s) ≠ z) →
    (NDIRECT < j → z ≠ zget addrs NDIRECT) → view s' z = view s z;
  gr_ind : NDIRECT < j → zget addrs NDIRECT ≠ 0 ∧ length (view s' (zget addrs NDIRECT)) = Z.to_nat BSIZE
}.

Section grow.
Context (s s' : kstate) (addrs addrs' : list Z) (j x : Z).
Context (Hf : file_ok s addrs) (Hbm : bitmap_ok s) (Hm : meta_ok s) (Hg : grew s s' addrs addrs' j x).
Context (Hj : 0 ≤ j ≤ MAXFILE).

Lemma grew_new : x ≠ 0 ∧ ∀ j', 0 ≤ j' ≤ MAXFILE → slot (view s) addrs j' ≠ x.
Proof.
  destruct (gr_range _ _ _ _ _ _ Hg) as [Hr Hu]. assert (x ≠ 0) as Hx0 by (intros ->; by rw (mo_zero _ Hm) in Hu).
  split; [done|]. intros j' Hj' E. rw -E in Hx0. pose proof (db_used _ _ (fo_data _ _ Hf j' Hj' Hx0)). congruence.
Qed.

Lemma grew_block a : data_block s a → a ≠ x → data_block s' a.
Proof.
  intros [H1 H2 H3 H4 H5] Hx. split; rw ?(gr_sb _ _ _ _ _ _ Hg) //.
  - rw (gr_used _ _ _ _ _ _ Hg) // H2. by destruct (x =? a).
  - destruct (decide (NDIRECT < j ∧ a = zget addrs NDIRECT)) as [[Hj1 ->]|Hn].
    + by apply (gr_ind _ _ _ _ _ _ Hg).
    + rw (gr_view _ _ _ _ _ _ Hg) //. intros Hj1 Ha. by apply Hn.
Qed.

Lemma grew_new_block : data_block s' x.
Proof.
  destruct (gr_range _ _ _ _ _ _ Hg) as [Hr Hu]. split; rw ?(gr_sb _ _ _ _ _ _ Hg) //.
  - by rw (gr_used _ _ _ _ _ _ Hg) // Z.eqb_refl.
  - intros y Hy <-. destruct (bm_own _ Hbm y Hy) as (_ & Hu' & _). congruence.
  - intros i Hi <-. destruct (mo_inode _ Hm i Hi). congruence.
  - by rw (gr_zero _ _ _ _ _ _ Hg).
Qed.

Lemma grew_file : file_ok s' addrs'.
Proof.
  destruct grew_new as [Hx0 Hxs]. split; [apply Hg|..].
  - intros j' Hj'. rw (gr_slot _ _ _ _ _ _ Hg) //. case_decide; [intros _; apply grew_new_block|].
    intros Hne. apply grew_block; [by apply Hf|by apply Hxs].
  - intros j1 j2 H1 H2. rw !(gr_slot _ _ _ _ _ _ Hg) //. repeat case_decide; subst; try done.
    + intros E _. by destruct (Hxs j2 H2).
    + intros E _. by destruct (Hxs j1 H1).
    + intros E Hne. by apply Hf.
Qed.

Lemma grew_content bn : 0 ≤ bn < MAXFILE → fcontent (view s') addrs' bn = fcontent (view s) addrs bn.
Proof.
  intros Hbn. destruct (bslot_range bn Hbn) as [Hb Hbi]. destruct grew_new as [Hx0 Hxs].
  unfold fcontent. rw (gr_slot _ _ _ _ _ _ Hg) //. case_decide as E.
  - rw E (gr_old _ _ _ _ _ _ Hg). rewrite -> (proj2 (Z.eqb_neq x 0)) by done. apply Hg.
  - destruct (Z.eqb_spec (slot (view s) addrs (bslot bn)) 0) as [|Hne]; [done|].
    apply (gr_view _ _ _ _ _ _ Hg); [by apply Hxs|apply (fo_data _ _ Hf _ Hb Hne)|].
    intros Hj1 Ea. destruct Hbi. by apply (fo_inj _ _ Hf).
Qed.
End grow.

Lemma zget_zset13 (addrs : list Z) j x j' :
  length addrs = 13%nat → 0 ≤ j ≤ NDIRECT → 0 ≤ j' →
  zget (zset addrs j x) j' = if decide (j' = j) then x else zget addrs j'.
Proof. intros Hl Hj Hj'. apply zget_zset; [|done]. rw Hl. rw NDIRECT_eq in Hj. lia. Qed.

Section took.
Context (s s1 : kstate) (addrs : list Z) (j x : Z).
Context (Hf : file_ok s addrs) (Hbm : bitmap_ok s) (Hm : meta_ok s) (Ht : took s s1 x).
Context (Hold : slot (view s) addrs j = 0).

Lemma took_sb : k_sb s1 = k_sb s.
Proof. apply op_frame_sb, Ht. Qed.
Lemma took_new : x ≠ 0.
Proof. intros ->. pose proof (tk_free _ _ _ Ht). by rw (mo_zero _ Hm) in H. Qed.

(** Blocks of the file do not change. *)
Lemma took_view a : data_block s a → a ≠ x ∧ view s1 a = view s a.
Proof.
  intros Hd. assert (a ≠ x) as Hne.
  { intros ->. pose proof (db_used _ _ Hd). pose proof (tk_free _ _ _ Ht). congruence. }
  split; [done|]. apply (tk_other _ _ _ Ht); [done|]. intros E.
  by apply (db_bitmap _ _ Hd x (tk_range _ _ _ Ht)).
Qed.
Lemma took_ind : zget addrs NDIRECT ≠ 0 → data_block s (zget addrs NDIRECT).
Proof. intros Hne. apply (fo_data _ _ Hf NDIRECT); [rw NDIRECT_eq MAXFILE_eq; lia|done]. Qed.

(** A new block for a direct address, or for the indirect block. *)
Lemma took_direct : 0 ≤ j ≤ NDIRECT → grew s s1 addrs (zset addrs j x) j x.
Proof.
  intros Hj. pose proof took_new as Hx0. pose proof (fo_len _ _ Hf) as Hl. split.
  - exact took_sb.
  - split; apply Ht.
  - by rw length_zset.
  - done.
  - intros j' Hj'. destruct (decide (j' ≤ NDIRECT)) as [Hle|Hgt].
    + rw !slot_direct // zget_zset13 //. lia.
    + rewrite -> (decide_False (P := j' = j)) by lia.
      unfold slot. rewrite -> !(proj2 (Z.leb_gt j' NDIRECT)) by lia. rw zget_zset13 //.
      destruct (decide (NDIRECT = j)) as [E|E].
      * rewrite -> (proj2 (Z.eqb_neq x 0)) by done. assert (zget addrs NDIRECT = 0) as E0 by (rewrite <- Hold, slot_direct by lia; by rw E).
        rw E0. cbn. rw (tk_zero _ _ _ Ht). apply uint_at_zero. rw MAXFILE_eq NDIRECT_eq in Hj' Hgt *.
        unfold NINDIRECT, BSIZE. change (1024 / 4) with 256. lia.
      * destruct (Z.eqb_spec (zget addrs NDIRECT) 0) as [|Hne]; [done|].
        by destruct (took_view _ (took_ind Hne)) as [_ ->].
  - apply Ht.
  - apply Ht.
  - apply Ht.
  - intros z Hz Hb _. apply (tk_other _ _ _ Ht); [done|]. intros E. by apply (Hb x (tk_range _ _ _ Ht)).
  - lia.
Qed.

(** A new block for an entry of the indirect block, whose address is then
    written into it. *)
Lemma took_entry s2 :
  NDIRECT < j ≤ MAXFILE → zget addrs NDIRECT ≠ 0 → k_sb s2 = k_sb s1 →
  (∀ z, view s2 z = if decide (z = zget addrs NDIRECT)
                    then wr32 (view s1 (zget addrs NDIRECT)) (4 * (j - NDIRECT - 1)) x else view s1 z) →
  grew s s2 addrs addrs j x.
Proof.
  intros Hj Hind Esb Hv. set (ind := zget addrs NDIRECT) in *. pose proof (took_ind Hind) as Hdi. fold ind in Hdi.
  destruct (took_view ind Hdi) as [Hix Hiv]. pose proof (db_len _ _ Hdi) as Hlen.
  pose proof (tk_range _ _ _ Ht) as Hxr. pose proof (bm_size _ Hbm) as Hsz.
  assert (length (view s1 ind) = Z.to_nat BSIZE) as Hlen1 by by rw Hiv.
  destruct (bitmap_view s1 s2 (tk_bitmap _ _ _ Ht) Esb) as [Hbm2 Hu2].
  { intros y Hy. rw Hv decide_False // took_sb. rw took_sb in Hy. by apply (db_bitmap _ _ Hdi). }
  rw took_sb in Hu2.
  assert (0 ≤ 4 * (j - NDIRECT - 1) ∧ 4 * (j - NDIRECT - 1) + 4 ≤ BSIZE) as Hoff.
  { rw MAXFILE_eq NDIRECT_eq in Hj *. unfold BSIZE. lia. }
  split.
  - by rw Esb took_sb.
  - split; apply Ht.
  - apply Hf.
  - done.
  - intros j' Hj'. destruct (decide (j' ≤ NDIRECT)) as [Hle|Hgt].
    + rewrite -> (decide_False (P := j' = j)) by lia. by rw !slot_direct.
    + rewrite -> !slot_indirect by (try done; lia). fold ind. rw Hv decide_True //.
      unfold uint_at. case_decide as E; [subst j'; apply rd32_wr32; lia|].
      rw rd32_wr32_ne; [by rw Hiv|lia|lia|lia|lia].
  - intros y Hy. rw Hu2 //. by apply Ht.
  - done.
  - rw Hv decide_False; [apply Ht|done].
  - intros z Hz Hb Hzi. rw Hv decide_False; [|apply Hzi; lia]. apply (tk_other _ _ _ Ht); [done|].
    intros E. by apply (Hb x Hxr).
  - intros _. split; [done|]. rw Hv decide_True // length_wr32 //; lia.
Qed.
End took.

(** ** The file after some blocks have been added *)

Record extends (s s' : kstate) (addrs addrs' : list Z) : Prop := {
  ex_sb : k_sb s' = k_sb s;
  ex_file : file_ok s' addrs';
  ex_bitmap : bitmap_ok s';
  ex_meta : meta_ok s';
  ex_used y : 0 ≤ y < sb_size (k_sb s) → used s y = true → used s' y = true;
  ex_content bn : 0 ≤ bn < MAXFILE → fcontent (view s') addrs' bn = fcontent (view s) addrs bn;
  ex_slot j : 0 ≤ j ≤ MAXFILE → slot (view s) addrs j ≠ 0 → slot (view s') addrs' j = slot (view s) addrs j;
  ex_new j : 0 ≤ j ≤ MAXFILE → slot (view s') addrs' j ≠ 0 →
    slot (view s') addrs' j = slot (view s) addrs j ∨ used s (slot (view s') addrs' j) = false;
  ex_view z : 0 < z < sb_size (k_sb s) → used s z = true →
    (∀ y, 0 ≤ y < sb_size (k_sb s) → BBLOCK y (k_sb s) ≠ z) →
    z ≠ zget addrs NDIRECT → view s' z = view s z
}.

Lemma extends_refl s addrs : file_ok s addrs → bitmap_ok s → meta_ok s → extends s s addrs addrs.
Proof. intros Hf Hb Hm. split; try done. intros j _ _. by left. Qed.

Lemma extends_grew s s' addrs addrs' j x :
  file_ok s addrs → bitmap_ok s → meta_ok s → 0 ≤ j ≤ MAXFILE → grew s s' addrs addrs' j x →
  extends s s' addrs addrs'.
Proof.
  intros Hf Hb Hm Hj Hg. destruct (gr_range _ _ _ _ _ _ Hg) as [Hxr Hxu].
  assert (∀ y, 0 ≤ y < sb_size (k_sb s) → used s y = true → used s' y = true) as Hu.
  { intros y Hy Huy. rw (gr_used _ _ _ _ _ _ Hg) // Huy. by destruct (x =? y). }
  split; try done.
  - apply Hg.
  - by eapply grew_file.
  - apply Hg.
  - split; [apply Hu; [|apply Hm]; pose proof (bm_size _ Hb); lia|].
    rw (gr_sb _ _ _ _ _ _ Hg). intros i Hi. destruct (mo_inode _ Hm i Hi) as (H1 & H2 & H3). split; [|done]. apply Hu; [lia|done].
  - intros bn Hbn. by eapply grew_content.
  - intros j' Hj' Hne. rw (gr_slot _ _ _ _ _ _ Hg) // decide_False //. intros ->.
    by rw (gr_old _ _ _ _ _ _ Hg) in Hne.
  - intros j' Hj'. rw (gr_slot _ _ _ _ _ _ Hg) //. case_decide; [by right|by left].
  - intros z Hz Huz Hbz Hzi. apply (gr_view _ _ _ _ _ _ Hg); [congruence|done|done].
Qed.

Lemma extends_trans s1 s2 s3 a1 a2 a3 :
  bitmap_ok s1 → extends s1 s2 a1 a2 → extends s2 s3 a2 a3 → extends s1 s3 a1 a3.
Proof.
  intros Hb1 [E1 F1 B1 M1 U1 C1 S1 I1 V1] [E2 F2 B2 M2 U2 C2 S2 I2 V2]. rw E1 in U2 V2. split; try done.
  - by rw E2.
  - naive_solver.
  - intros bn Hbn. by rw C2 // C1.
  - intros j Hj Hne. rewrite <- S1 by done. apply S2; [done|]. by rewrite -> S1.
  - intros j Hj Hne. destruct (I2 j Hj Hne) as [E|Hu].
    + rw E. rw E in Hne. by apply I1.
    + right. destruct (used s1 (slot (view s3) a3 j)) eqn:Hu1; [|done].
      pose proof (db_range _ _ (fo_data _ _ F2 j Hj Hne)) as Hr. rw E2 E1 in Hr. by rw U1 in Hu.
  - intros z Hz Huz Hbz Hzi. rw V2; [by apply V1|done|apply U1; [lia|done]|done|].
    intros ->. pose proof (I1 NDIRECT) as I. rw !slot_direct // in I.
    destruct I as [E|Hu]; [rw NDIRECT_eq MAXFILE_eq; lia|lia|done|congruence].
Qed.

(** All of this depends on the contents of the blocks only. *)
Definition same_blocks (s s' : kstate) : Prop := k_sb s' = k_sb s ∧ ∀ x, view s' x = view s x.
Lemma op_same_blocks s s' : op_same s s' → same_blocks s s'.
Proof. intros (Hv & Hf & _). split; [by apply op_frame_sb|done]. Qed.

Section keep.
Context (s s' : kstate) (Hs : same_blocks s s').
Lemma same_used x : used s' x = used s x.
Proof. destruct Hs as [Es Hv]. unfold used. by rw Es Hv. Qed.
Lemma same_slot addrs j : slot (view s') addrs j = slot (view s) addrs j.
Proof. destruct Hs as [Es Hv]. apply slot_ext. intros _. apply Hv. Qed.
Lemma same_content addrs bn : fcontent (view s') addrs bn = fcontent (view s) addrs bn.
Proof. unfold fcontent. rw same_slot. case_match; [done|]. apply Hs. Qed.
Lemma same_bitmap : bitmap_ok s → bitmap_ok s'.
Proof. intros Hb. destruct Hs as [Es Hv]. by apply (bitmap_view s s'). Qed.
Lemma same_meta : meta_ok s → meta_ok s'.
Proof.
  intros [H1 H2]. destruct Hs as [Es Hv]. split; [by rw same_used|]. rw Es. intros i Hi. rw same_used. by apply H2.
Qed.
Lemma same_data a : data_block s a → data_block s' a.
Proof. intros [H1 H2 H3 H4 H5]. destruct Hs as [Es Hv]. by split; rw ?Es ?same_used ?Hv. Qed.
Lemma same_file addrs : file_ok s addrs → file_ok s' addrs.
Proof.
  intros [H1 H2 H3]. split; [done|..].
  - intros j Hj. rw same_slot. intros Hne. by apply same_data, H2.
  - intros j j' Hj Hj'. rw !same_slot. by apply H3.
Qed.
Lemma same_extends : ∀ addrs, file_ok s addrs → bitmap_ok s → meta_ok s → extends s s' addrs addrs.
Proof.
  intros addrs Hf Hb Hm. split; try apply Hs.
  - by apply same_file.
  - by apply same_bitmap.
  - by apply same_meta.
  - intros y _. by rw same_used.
  - intros bn _. apply same_content.
  - intros j _ _. apply same_slot.
  - intros j _ _. left. apply same_slot.
  - intros z _ _ _ _. apply Hs.
Qed.
End keep.

Lemma extends_same s s' s'' addrs addrs' :
  bitmap_ok s → extends s s' addrs addrs' → same_blocks s' s'' → extends s s'' addrs addrs'.
Proof.
  intros Hb He Hs. eapply extends_trans; [done|exact He|]. apply same_extends; [done|apply He..].
Qed.

(** ** bmap *)

(** Only the cache, the log and the inode table may differ. *)
Definition ino_frame (s s' : kstate) : Prop :=
  ∃ bs sl g t, s' = set_k_itable t (set_k_log g (set_k_sleeplocks sl (set_k_bufs bs s))).
Lemma ino_frame_refl s : ino_frame s s.
Proof. exists (k_bufs s), (k_sleeplocks s), (k_log s), (k_itable s). by destruct s. Qed.
Lemma ino_frame_trans s1 s2 s3 : ino_frame s1 s2 → ino_frame s2 s3 → ino_frame s1 s3.
Proof. intros (? & ? & ? & ? & ->) (bs & sl & g & t & ->). by exists bs, sl, g, t. Qed.
Lemma op_ino_frame s s' : op_frame s s' → ino_frame s s' ∧ k_itable s' = k_itable s.
Proof. intros (bs & sl & g & ->). split; [|done]. by exists bs, sl, g, (k_itable s). Qed.
Lemma ino_frame_set s t : ino_frame s (set_k_itable t s).
Proof. exists (k_bufs s), (k_sleeplocks s), (k_log s), t. by destruct s. Qed.

Lemma get_inode_ok s ip k : k_itable s !! ip = Some k → get_inode ip s = Ret k s.
Proof. intros Hk. unfold get_inode. rw bind_gets. by rw Hk. Qed.
Lemma upd_inode_ok s ip k f :
  k_itable s !! ip = Some k →
  upd_inode ip f s = Ret tt (set_k_itable (<[ip := f k]> (k_itable s)) s).
Proof. intros Hk. unfold upd_inode, modify. by rw (list_alter_insert _ _ _ _ Hk). Qed.
Lemma same_itable s t : same_blocks s (set_k_itable t s).
Proof. done. Qed.

Section bmap.
Context (p : nat) (q : proc).

Lemma op_env_itable s n W hs t : op_env p q s n W hs → op_env p q (set_k_itable t s) n W hs.
Proof. intros Ho. by eapply op_env_keep. Qed.

Lemma op_env_mono s n n' W hs : op_env p q s n W hs → (n' ≤ n)%nat → op_env p q s n' W hs.
Proof. intros [] Hn. split; try done. lia. Qed.

(** The state of an operation on the inode [ip]: [k] is its entry in the
    table, and its blocks are in order. *)
Record ino_env (s : kstate) (n : nat) (W : gset Z) (hs : list (nat * Z)) (ip : nat) (k : inode) : Prop := {
  ie_op : op_env p q s n W hs;
  ie_bitmap : bitmap_ok s;
  ie_meta : meta_ok s;
  ie_W y : 0 ≤ y < sb_size (k_sb s) → BBLOCK y (k_sb s) ∈ W;
  ie_inode : k_itable s !! ip = Some k;
  ie_dev : i_dev k = ROOTDEV;
  ie_file : file_ok s (i_addrs k)
}.

(** Allocating the block of a direct address or the indirect block. *)
Lemma bmap_direct s n W ip k j :
  ino_env s (S n) W [] ip k → 0 ≤ j ≤ NDIRECT → zget (i_addrs k) j = 0 →
  (∃ x s', (addr ← balloc (i_dev k);
           upd_inode ip (λ k, set_i_addrs (zset (i_addrs k) j addr) k) ;; mret addr) s = Ret x s' ∧
     let addrs' := zset (i_addrs k) j x in
     ino_env s' n ({[x]} ∪ W) [] ip (set_i_addrs addrs' k) ∧
     k_itable s' = <[ip := set_i_addrs addrs' k]> (k_itable s) ∧
     extends s s' (i_addrs k) addrs' ∧ ino_frame s s' ∧ x ≠ 0 ∧ slot (view s') addrs' j = x) ∨
  (∃ s', (addr ← balloc (i_dev k);
          upd_inode ip (λ k, set_i_addrs (zset (i_addrs k) j addr) k) ;; mret addr) s
         = Stop (Panic "balloc: out of blocks") s').
Proof.
  intros [Ho Hb Hm HW Hk Hdev Hf] Hj Hz. rw Hdev.
  assert (slot (view s) (i_addrs k) j = 0) as Hold by (by rw slot_direct; [|lia]).
  destruct (balloc_ok p q s n W [] Hb) as [(x & s1 & E & _ & Ho1 & Ht)|(s1 & E & _)]; try done.
  { split; [cbn; lia|]. by intros x ?%elem_of_nil. }
  - left. mstep E. destruct (op_ino_frame _ _ (tk_frame _ _ _ Ht)) as [Hfr Et].
    assert (k_itable s1 !! ip = Some k) as Hk1 by by rw Et.
    mstep (upd_inode_ok s1 ip k (λ k, set_i_addrs (zset (i_addrs k) j x) k) Hk1).
    set (s2 := set_k_itable _ s1). set (addrs' := zset (i_addrs k) j x).
    pose proof (took_direct s s1 (i_addrs k) j x Hf Hm Ht Hold Hj) as Hg.
    assert (0 ≤ j ≤ MAXFILE) as Hj' by (rw MAXFILE_eq; rw NDIRECT_eq in Hj; lia).
    pose proof (extends_grew s s1 _ _ j x Hf Hb Hm Hj' Hg) as Hx1.
    pose proof (extends_same s s1 s2 _ _ Hb Hx1 (same_itable _ _)) as Hx2.
    exists x, s2. split; [done|]. cbv zeta. fold addrs'. split_and!.
    + split; [by apply op_env_itable|apply (ex_bitmap _ _ _ _ Hx2)|apply (ex_meta _ _ _ _ Hx2)|..|exact (ex_file _ _ _ _ Hx2)].
      * rw (ex_sb _ _ _ _ Hx2). intros y Hy. apply elem_of_union_r. by apply HW.
      * unfold s2. kcbn. by rw list_lookup_insert_eq; [|apply lookup_lt_Some in Hk1].
      * exact Hdev.
    + unfold s2. kcbn. by rw Et.
    + done.
    + eapply ino_frame_trans; [done|apply ino_frame_set].
    + by eapply took_new.
    + change (view s2) with (view s1). by rw (gr_slot _ _ _ _ _ _ Hg) // decide_True.
  - right. mstep E. by eexists.
Qed.

(** Changing states and the set of writable blocks without changing blocks. *)
Lemma ino_env_next s s' n n' W W' hs hs' ip k k' addrs :
  ino_env s n W hs ip k → op_env p q s' n' W' hs' → W ⊆ W' → extends s s' addrs (i_addrs k') →
  k_itable s' !! ip = Some k' → i_dev k' = ROOTDEV → ino_env s' n' W' hs' ip k'.
Proof.
  intros [_ _ _ HW _ _ _] Ho HWW [E1 F1 B1 M1 _ _ _ _ _] Hk Hd. split; try done.
  rw E1. intros y Hy. by apply HWW, HW.
Qed.

Lemma ind_held s k hs b :
  file_ok s (i_addrs k) → zget (i_addrs k) NDIRECT ≠ 0 → hs = [(b, zget (i_addrs k) NDIRECT)] → held_ok s hs.
Proof.
  intros Hf Hne ->. split; [cbn; lia|]. intros x ->%list_elem_of_singleton. cbn.
  pose proof (fo_data _ _ Hf NDIRECT) as Hd. rw slot_direct // in Hd.
  destruct Hd as [_ Hu Hb _ _]; [rw NDIRECT_eq MAXFILE_eq; lia|done|]. split; [done|]. exact Hb.
Qed.

(** The part of [bmap] that works on the indirect block. *)
Definition bmap_ind (k : inode) (i : Z) : KM Z :=
  bp ← bread (i_dev k) (zget (i_addrs k) NDIRECT);
  b ← get_buf bp;
  let addr := uint_at (b_data b) i in
  addr ← (if addr =? 0 then
            addr ← balloc (i_dev k);
            upd_buf bp (λ b, set_b_data (wr32 (b_data b) (4 * i) addr) b) ;;
            log_write bp ;;
            mret addr
          else mret addr);
  brelse bp ;;
  mret addr.

Lemma bmap_ind_ok s n W ip k i :
  ino_env s (S n) W [] ip k → zget (i_addrs k) NDIRECT ≠ 0 → zget (i_addrs k) NDIRECT ∈ W → 0 ≤ i < NINDIRECT →
  (∃ a s' W', bmap_ind k i s = Ret a s' ∧ ino_env s' n W' [] ip k ∧ W ⊆ W' ∧ a ∈ W' ∧
     k_itable s' = k_itable s ∧ extends s s' (i_addrs k) (i_addrs k) ∧ ino_frame s s' ∧ a ≠ 0 ∧
     slot (view s') (i_addrs k) (NDIRECT + 1 + i) = a) ∨
  (∃ s', bmap_ind k i s = Stop (Panic "balloc: out of blocks") s').
Proof.
  intros Hie Hind HiW Hi. destruct (Hie) as [Ho Hb Hm HW Hk Hdev Hf]. unfold bmap_ind. rw Hdev.
  set (ind := zget (i_addrs k) NDIRECT) in *. set (j := NDIRECT + 1 + i).
  pose proof NDIRECT_eq as HN. assert (NDIRECT < j ≤ MAXFILE) as Hj.
  { unfold j. rw NDIRECT_eq MAXFILE_eq. unfold NINDIRECT, BSIZE in Hi. change (1024 / 4) with 256 in Hi. lia. }
  assert (slot (view s) (i_addrs k) j = uint_at (view s ind) i) as Hsl.
  { rw slot_indirect //; [|lia]. fold ind. f_equal. unfold j. lia. }
  destruct (op_load p q s _ W [] ind Ho) as (bp & kb & s1 & E & Hd & Ho1 & Hs1 & Hc1);
    [by intros ?%elem_of_nil|cbn; lia|].
  rw E. clear E. rw Hd -Hsl. pose proof (op_same_blocks _ _ Hs1) as Hb1.
  pose proof (same_extends s s1 Hb1 _ Hf Hb Hm) as Hx1. destruct (op_ino_frame _ _ (proj1 (proj2 Hs1))) as [Hfr1 Et1].
  destruct (Z.eqb_spec (slot (view s) (i_addrs k) j) 0) as [Hz|Hnz].
  - pose proof (ex_file _ _ _ _ Hx1) as Hf1. pose proof (ex_bitmap _ _ _ _ Hx1) as Hbm1.
    destruct (balloc_ok p q s1 n W [(bp, ind)] Hbm1) as [(x & s2 & E2 & _ & Ho2 & Ht)|(s2 & E2 & _)].
    { by eapply ind_held. }
    { rw (ex_sb _ _ _ _ Hx1). exact HW. }
    { exact Ho1. }
    2: { right. rewrite -> (bind_Stop _ _ _ (Panic "balloc: out of blocks") s2); [by eexists|].
         by rewrite -> (bind_Stop _ _ _ _ _ E2). }
    left. erewrite bind_assoc; [|exact E2].
    destruct (op_upd p q s2 n _ _ bp ind (λ d, wr32 d (4 * i) x) Ho2) as (s3 & E3 & Ho3 & Hv3 & Hf3 & El3); [by left|].
    erewrite bind_assoc; [|exact E3].
    destruct (op_log_write p q s3 n _ _ bp ind Ho3) as (s4 & E4 & Ho4 & Hv4 & Hf4 & _ & Hl4); [by left|by apply elem_of_union_r|].
    erewrite bind_assoc; [|exact E4]. rw bind_mret.
    destruct (op_brelse p q s4 n _ bp ind [] Ho4) as (s5 & E5 & Ho5 & Hs5); [left; apply Hl4; by right|]. mstep E5.
    assert (slot (view s1) (i_addrs k) j = 0) as Hold1 by by rw (same_slot s s1 Hb1).
    assert (grew s1 s4 (i_addrs k) (i_addrs k) j x) as Hg.
    { apply (took_entry s1 s2); try done; [by rw (op_frame_sb _ _ Hf4) (op_frame_sb _ _ Hf3)|].
      intros z. rw Hv4 Hv3. fold ind. by replace (j - NDIRECT - 1) with i by (unfold j; lia). }
    pose proof (extends_grew s1 s4 _ _ j x Hf1 Hbm1 (ex_meta _ _ _ _ Hx1) ltac:(lia) Hg) as Hx4.
    pose proof (extends_same _ _ s5 _ _ Hbm1 Hx4 (op_same_blocks _ _ Hs5)) as Hx5.
    pose proof (extends_trans _ _ _ _ _ _ Hb Hx1 Hx5) as Hx.
    destruct (op_ino_frame _ _ (op_frame_trans _ _ _ (tk_frame _ _ _ Ht)
      (op_frame_trans _ _ _ Hf3 (op_frame_trans _ _ _ Hf4 (proj1 (proj2 Hs5)))))) as [Hfr5 Et5].
    exists x, s5, ({[x]} ∪ W). assert (W ⊆ {[x]} ∪ W) as HWW by apply union_subseteq_r.
    split; [reflexivity|]. split; [|split; [exact HWW|split; [by apply elem_of_union_l, elem_of_singleton|]]].
    { eapply ino_env_next; [exact Hie|exact Ho5|exact HWW|exact Hx|by rw Et5 Et1|done]. }
    split; [by rw Et5|]. split; [exact Hx|]. split; [by eapply ino_frame_trans|]. split.
    { by eapply (took_new s1 s2 x (ex_meta _ _ _ _ Hx1)). }
    rw (same_slot s4 s5 (op_same_blocks _ _ Hs5)) (gr_slot _ _ _ _ _ _ Hg); [|lia]. by rw decide_True.
  - left. set (a := slot _ _ _) in *. rw bind_mret.
    destruct (op_brelse p q s1 _ W bp ind [] Ho1 Hc1) as (s2 & E2 & Ho2 & Hs2). mstep E2.
    destruct (op_ino_frame _ _ (proj1 (proj2 Hs2))) as [Hfr2 Et2].
    pose proof (extends_same _ _ s2 _ _ Hb Hx1 (op_same_blocks _ _ Hs2)) as Hx2.
    assert (data_block s a) as Hda by (apply (fo_data _ _ Hf); [lia|done]).
    pose proof (db_range _ _ Hda) as Har. pose proof (bm_size _ Hb) as Hsz.
    exists a, s2, ({[a]} ∪ W). split_and!; try done; try set_solver.
    + eapply ino_env_next; [exact Hie|..|done]; [|set_solver|exact Hx2|by rw Et2 Et1].
      apply op_grow; [exact Ho2|lia].
    + by rw Et2.
    + by eapply ino_frame_trans.
    + apply (ex_slot _ _ _ _ Hx2); [lia|done].
Qed.

(** [a] is the block of slot [j], and what it took to get it. *)
Record mapped (s : kstate) (n : nat) (W : gset Z) (ip : nat) (k : inode) (j a : Z)
    (s' : kstate) (W' : gset Z) (addrs' : list Z) : Prop := {
  mp_env : ino_env s' n W' [] ip (set_i_addrs addrs' k);
  mp_sub : W ⊆ W';
  mp_in : a ∈ W';
  mp_itable : k_itable s' = <[ip := set_i_addrs addrs' k]> (k_itable s);
  mp_extends : extends s s' (i_addrs k) addrs';
  mp_frame : ino_frame s s';
  mp_ne : a ≠ 0;
  mp_slot : slot (view s') addrs' j = a
}.

Lemma ino_env_grow s n W ip k a :
  ino_env s (S n) W [] ip k → data_block s a → ino_env s n ({[a]} ∪ W) [] ip k.
Proof.
  intros [Ho Hb Hm HW Hk Hd Hf] Ha. pose proof (bm_size _ Hb). pose proof (db_range _ _ Ha). split; try done.
  - apply op_grow; [done|lia].
  - intros y Hy. apply elem_of_union_r. by apply HW.
Qed.
Lemma ino_env_mono s n n' W ip k : ino_env s n W [] ip k → (n' ≤ n)%nat → ino_env s n' W [] ip k.
Proof. intros [] Hn. split; try done. by eapply op_env_mono. Qed.

Lemma set_addrs_id k : set_i_addrs (i_addrs k) k = k.
Proof. by destruct k. Qed.

Lemma bmap_ok_direct s n W ip k bn :
  ino_env s (S n) W [] ip k → 0 ≤ bn < NDIRECT →
  (∃ a s' W' addrs', bmap ip bn s = Ret a s' ∧ mapped s n W ip k bn a s' W' addrs') ∨
  (∃ s', bmap ip bn s = Stop (Panic "balloc: out of blocks") s').
Proof.
  intros Hie Hbn. destruct (Hie) as [Ho Hb Hm HW Hk Hdev Hf]. pose proof NDIRECT_eq as HN. pose proof MAXFILE_eq as HM.
  unfold bmap. mstep (get_inode_ok s ip k Hk). cbv zeta. rewrite -> (proj2 (Z.ltb_lt bn NDIRECT)) by lia.
  destruct (Z.eqb_spec (zget (i_addrs k) bn) 0) as [Hz|Hnz].
  - destruct (bmap_direct s n W ip k bn Hie ltac:(lia) Hz)
      as [(x & s' & E & Hie' & Et' & Hx & Hfr & Hx0 & Hs)|Hp]; [left|by right].
    exists x, s', ({[x]} ∪ W), (zset (i_addrs k) bn x). split; [exact E|]. split; try done; set_solver.
  - left. set (a := zget (i_addrs k) bn) in *.
    assert (slot (view s) (i_addrs k) bn = a) as Hsa by (apply slot_direct; lia).
    pose proof (fo_data _ _ Hf bn ltac:(lia)) as Hda. rw Hsa in Hda. specialize (Hda Hnz).
    exists a, s, ({[a]} ∪ W), (i_addrs k). split; [done|].
    split; rw ?set_addrs_id; try done; [by apply ino_env_grow|set_solver|set_solver| |by apply extends_refl|apply ino_frame_refl].
    by rw list_insert_id.
Qed.

Lemma bmap_ok_indirect s n W ip k bn :
  ino_env s (S (S n)) W [] ip k → NDIRECT ≤ bn < MAXFILE →
  (∃ a s' W' addrs', bmap ip bn s = Ret a s' ∧ mapped s n W ip k (bn + 1) a s' W' addrs') ∨
  (∃ s', bmap ip bn s = Stop (Panic "balloc: out of blocks") s').
Proof.
  intros Hie Hbn. destruct (Hie) as [Ho Hb Hm HW Hk Hdev Hf]. pose proof NDIRECT_eq as HN. pose proof MAXFILE_eq as HM.
  unfold bmap. mstep (get_inode_ok s ip k Hk). cbv zeta. rewrite -> (proj2 (Z.ltb_ge bn NDIRECT)) by lia.
  assert (0 ≤ bn - NDIRECT < NINDIRECT) as Hi. { unfold NINDIRECT, BSIZE. change (1024 / 4) with 256. lia. }
  rewrite -> (proj2 (Z.ltb_lt (bn - NDIRECT) NINDIRECT)) by lia.
  replace (bn + 1) with (NDIRECT + 1 + (bn - NDIRECT)) by lia.
  destruct (Z.eqb_spec (zget (i_addrs k) NDIRECT) 0) as [Hz|Hnz].
  - destruct (bmap_direct s (S n) W ip k NDIRECT Hie ltac:(lia) Hz)
      as [(x & s1 & E & Hie1 & Et1 & Hx1 & Hfr1 & Hx0 & Hs1)|(s1 & E)].
    2: { right. rewrite -> (bind_Stop _ _ _ _ _ E). by eexists. }
    set (addrs1 := zset (i_addrs k) NDIRECT x) in *. set (k1 := set_i_addrs addrs1 k) in *.
    assert (zget (i_addrs k1) NDIRECT = x) as Ex. { rw slot_direct // in Hs1. }
    destruct (bmap_ind_ok s1 n _ ip k1 (bn - NDIRECT) Hie1) as [(a & s2 & W2 & E2 & Hie2 & HW2 & Ha & Et2 & Hx2 & Hfr2 & Ha0 & Hs2)|(s2 & E2)];
      rw ?Ex; [done|by apply elem_of_union_l, elem_of_singleton|done| |].
    + left. exists a, s2, W2, addrs1. split; [rw (bind_Ret _ _ _ _ _ E) -Ex; exact E2|]. split; try done.
      * etrans; [apply union_subseteq_r|exact HW2].
      * by rw Et2.
      * by eapply extends_trans.
      * by eapply ino_frame_trans.
    + right. exists s2. rw (bind_Ret _ _ _ _ _ E) -Ex. exact E2.
  - rw bind_mret. pose proof (took_ind s (i_addrs k) Hf Hnz) as Hdi.
    destruct (bmap_ind_ok s n ({[zget (i_addrs k) NDIRECT]} ∪ W) ip k (bn - NDIRECT) (ino_env_grow _ _ _ _ _ _ Hie Hdi))
      as [(a & s2 & W2 & E2 & Hie2 & HW2 & Ha & Et2 & Hx2 & Hfr2 & Ha0 & Hs2)|(s2 & E2)];
      [done|by apply elem_of_union_l, elem_of_singleton|done| |by right; exists s2].
    left. exists a, s2, W2, (i_addrs k). split; [exact E2|]. split; rw ?set_addrs_id; try done.
    + etrans; [apply union_subseteq_r|exact HW2].
    + by rw list_insert_id.
Qed.

(** [bmap] returns the block of file block [bn], allocating it when there is
    none; the file's contents do not change. *)
Lemma bmap_ok s n W ip k bn :
  ino_env s (S (S n)) W [] ip k → 0 ≤ bn < MAXFILE →
  (∃ a s' W' addrs', bmap ip bn s = Ret a s' ∧ mapped s n W ip k (bslot bn) a s' W' addrs') ∨
  (∃ s', bmap ip bn s = Stop (Panic "balloc: out of blocks") s').
Proof.
  intros Hie Hbn. unfold bslot. destruct (Z.ltb_spec bn NDIRECT).
  - apply bmap_ok_direct; [|lia]. by eapply ino_env_mono; [|apply Nat.le_succ_diag_r].
  - apply bmap_ok_indirect; [done|lia].
Qed.

(** On a block that is there, [bmap] only reads. *)
Lemma bmap_hit s n W ip k bn :
  ino_env s n W [] ip k → 0 ≤ bn < MAXFILE → slot (view s) (i_addrs k) (bslot bn) ≠ 0 →
  ∃ s', bmap ip bn s = Ret (slot (view s) (i_addrs k) (bslot bn)) s' ∧ ino_env s' n W [] ip k ∧ op_same s s'.
Proof.
  intros Hie Hbn. destruct (Hie) as [Ho Hb Hm HW Hk Hdev Hf]. pose proof NDIRECT_eq as HN. pose proof MAXFILE_eq as HM.
  unfold bmap, bslot. mstep (get_inode_ok s ip k Hk). cbv zeta. destruct (Z.ltb_spec bn NDIRECT) as [Hlt|Hge].
  - rw slot_direct; [|lia]. intros Hne. rewrite -> (proj2 (Z.eqb_neq _ _)) by done.
    exists s. split_and!; [done|done|]. split_and!; [done|apply op_frame_refl|done].
  - assert (0 ≤ bn - NDIRECT < NINDIRECT) as Hi. { unfold NINDIRECT, BSIZE. change (1024 / 4) with 256. lia. }
    rewrite -> (proj2 (Z.ltb_lt (bn - NDIRECT) NINDIRECT)) by lia.
    destruct (Z.eqb_spec (zget (i_addrs k) NDIRECT) 0) as [Hz|Hnz].
    { unfold slot. rewrite -> (proj2 (Z.leb_gt _ _)) by lia. rw Hz. done. }
    rw slot_indirect; [|lia|done]. replace (bn + 1 - NDIRECT - 1) with (bn - NDIRECT) by lia. intros Hne.
    rw bind_mret Hdev.
    destruct (op_load p q s _ W [] (zget (i_addrs k) NDIRECT) Ho) as (bp & kb & s1 & E & Hd & Ho1 & Hs1 & Hc1);
      [by intros ?%elem_of_nil|cbn; lia|].
    rw E. clear E. rw Hd. rewrite -> (proj2 (Z.eqb_neq _ _)) by done. rw bind_mret.
    destruct (op_brelse p q s1 _ W bp _ [] Ho1 Hc1) as (s2 & E2 & Ho2 & Hs2). mstep E2.
    exists s2. assert (op_same s s2) as Hss by by eapply op_same_trans. split_and!; [done| |done].
    destruct (op_ino_frame _ _ (proj1 (proj2 Hss))) as [_ Et].
    eapply ino_env_next; [exact Hie|done|done|by apply (same_extends s s2 (op_same_blocks _ _ Hss))|by rw Et|done].
Qed.

(** ** readi *)

Lemma either_copyout_var s n W hs l bytes m :
  op_env p q s n W hs → either_copyout (AVar l) bytes m s = Ret 0 s.
Proof.
  intros Ho. pose proof (be_env (oe_env _ _ _ _ _ _ Ho)) as He. unfold either_copyout.
  by mstep (myproc_spec s (Some p) (fe_ok He) (fe_run He)).
Qed.

Lemma either_copyin_var s n W hs l m :
  op_env p q s n W hs → either_copyin (AVar l) m s = Ret (0, take (Z.to_nat m) l) s.
Proof.
  intros Ho. pose proof (be_env (oe_env _ _ _ _ _ _ Ho)) as He. unfold either_copyin.
  by mstep (myproc_spec s (Some p) (fe_ok He) (fe_run He)).
Qed.
End bmap.

(** [n] bytes of the file from [off] on. *)
Definition fbytes (vw : Z → list Z) (addrs : list Z) (off n : Z) : list Z := fbyte vw addrs <$> seqZ off n.

Lemma fbytes_app vw addrs off m n :
  0 ≤ m → 0 ≤ n → fbytes vw addrs off (m + n) = fbytes vw addrs off m ++ fbytes vw addrs (off + m) n.
Proof. intros Hm Hn. unfold fbytes. rw seqZ_app // fmap_app //. Qed.

(** The bytes of one block. *)
Lemma fbytes_block vw addrs off m :
  0 ≤ off → 0 ≤ m → off mod BSIZE + m ≤ BSIZE →
  length (fcontent vw addrs (off / BSIZE)) = Z.to_nat BSIZE →
  fbytes vw addrs off m = bslice (fcontent vw addrs (off / BSIZE)) (off mod BSIZE) m.
Proof.
  intros Ho Hm Hle Hlen. apply list_eq. intros i. unfold fbytes. rw list_lookup_fmap lookup_bslice.
  unfold BSIZE in *. case_decide as Hi.
  - rw lookup_seqZ_lt; [|lia]. cbn. unfold fbyte, BSIZE.
    assert ((off + i) / 1024 = off / 1024 ∧ (off + i) mod 1024 = off mod 1024 + i) as [-> ->] by zlia.
    unfold zget. rewrite -> list_lookup_lookup_total_lt by (rw Hlen; zlia). do 2 f_equal. zlia.
  - rw lookup_seqZ_ge //. lia.
Qed.

Lemma same_fbytes s s' addrs off n : same_blocks s s' → fbytes (view s') addrs off n = fbytes (view s) addrs off n.
Proof.
  intros Hs. unfold fbytes. apply list_fmap_ext. intros i x _. unfold fbyte. by rw (same_content s s' Hs).
Qed.
