(* ===== verification/FsFile.v ===== *)
(** * Reading and writing files (kernel/fs.c: readi, writei, iupdate)

    A file is the sequence of bytes [fbytes]: [readi] returns a part of it,
    [writei] replaces a part of it and extends it. *)

From S2P Require Import Prelude Riscv KState Spinlock KString Kalloc Vm Sched Layout Bio Cache Log LogCorrect Txn Fs FsBlocks FsInode.
Open Scope Z_scope.

(** The largest file. *)
Definition MAXBYTES : Z := MAXFILE * BSIZE.
Lemma MAXBYTES_eq : MAXBYTES = 274432.
Proof. done. Qed.

(** Every block below the size of the file is there. *)
Definition no_holes (s : kstate) (k : inode) : Prop :=
  0 ≤ i_size k ≤ MAXBYTES ∧
  ∀ bn, 0 ≤ bn → bn * BSIZE < i_size k → slot (view s) (i_addrs k) (bslot bn) ≠ 0.

(** The bytes that one iteration of the loops handles. *)
Definition chunk (n tot off : Z) : Z := Z.min (n - tot) (BSIZE - off mod BSIZE).
Lemma chunk_range n tot off : 0 ≤ off → tot < n → 0 < chunk n tot off ≤ n - tot ∧ off mod BSIZE + chunk n tot off ≤ BSIZE.
Proof. intros Ho Ht. unfold chunk, BSIZE. zlia. Qed.

(** The number of iterations that are left. *)
Definition iters (n tot off : Z) : Z := if tot <? n then (off + (n - tot) - 1) / BSIZE - off / BSIZE + 1 else 0.
Lemma iters_next n tot off :
  0 ≤ off → tot < n → iters n (tot + chunk n tot off) (off + chunk n tot off) = iters n tot off - 1.
Proof.
  intros Ho Ht. destruct (chunk_range n tot off Ho Ht) as [Hc1 Hc2]. unfold iters.
  rewrite -> (proj2 (Z.ltb_lt tot n)) by done. destruct (Z.ltb_spec (tot + chunk n tot off) n) as [Hlt|Hge].
  - assert (chunk n tot off = BSIZE - off mod BSIZE) as -> by (unfold chunk in *; lia). unfold BSIZE in *. zlia.
  - assert (chunk n tot off = n - tot) as E by lia. rw E in Hc2. unfold BSIZE in *. zlia.
Qed.
Lemma iters_bound n off : 0 ≤ off → 0 ≤ n → 0 ≤ iters n 0 off < n / BSIZE + 3.
Proof. intros Ho Hn. unfold iters, BSIZE. destruct (Z.ltb_spec 0 n); zlia. Qed.

Section file.
Context (p : nat) (q : proc).
Abbreviation ino_env := (ino_env p q).

Lemma fcontent_len s n W hs ip k bn :
  ino_env s n W hs ip k → 0 ≤ bn < MAXFILE → length (fcontent (view s) (i_addrs k) bn) = Z.to_nat BSIZE.
Proof.
  intros Hie Hbn. unfold fcontent. destruct (bslot_range bn Hbn) as [Hb _].
  destruct (Z.eqb_spec (slot (view s) (i_addrs k) (bslot bn)) 0) as [|Hne]; [done|].
  apply (fo_data _ _ (ie_file _ _ _ _ _ _ _ _ Hie) _ Hb Hne).
Qed.

Lemma ino_env_same s s' n W ip k : ino_env s n W [] ip k → op_env p q s' n W [] → op_same s s' → ino_env s' n W [] ip k.
Proof.
  intros Hie Ho Hs. destruct (Hie) as [_ Hb Hm HW Hk Hdev Hf].
  destruct (op_ino_frame _ _ (proj1 (proj2 Hs))) as [_ Et].
  eapply ino_env_next; [exact Hie|done|done|by apply (same_extends s s' (op_same_blocks _ _ Hs))|by rw Et|done].
Qed.

Lemma readi_step s n0 W ip k n tot off l acc :
  ino_env s n0 W [] ip k → 0 ≤ tot < n → n ≤ MAXBYTES → 0 ≤ off → off < MAXBYTES →
  slot (view s) (i_addrs k) (bslot (off / BSIZE)) ≠ 0 →
  let m := chunk n tot off in
  ∃ s', readi_body ip n (tot, off, AVar l, acc) s =
          Ret (inl (tot + m, off + m, AVar (drop (Z.to_nat m) l), acc ++ fbytes (view s) (i_addrs k) off m)) s' ∧
    ino_env s' n0 W [] ip k ∧ op_same s s'.
Proof.
  intros Hie Ht Hn Ho1 Ho2 Hsl m. destruct (chunk_range n tot off Ho1 ltac:(lia)) as [Hc1 Hc2]. fold m in Hc1, Hc2.
  pose proof MAXBYTES_eq as HM. assert (0 ≤ off / BSIZE < MAXFILE) as Hbn by (rw MAXFILE_eq; unfold BSIZE; zlia).
  unfold readi_body. rewrite -> (proj2 (Z.ltb_lt tot n)) by lia. cbn [negb].
  mstep (get_inode_ok s ip k (ie_inode _ _ _ _ _ _ _ _ Hie)).
  destruct (bmap_hit p q s n0 W ip k (off / BSIZE) Hie Hbn Hsl) as (s1 & E1 & Hie1 & Hs1). mstep E1.
  set (a := slot _ _ _) in *. rw (ie_dev _ _ _ _ _ _ _ _ Hie).
  destruct (op_load p q s1 _ W [] a (ie_op _ _ _ _ _ _ _ _ Hie1)) as (bp & kb & s2 & E2 & Hd & Ho2' & Hs2 & Hc);
    [by intros ?%elem_of_nil|cbn; lia|].
  cbv zeta. rw E2. clear E2. rw Hd.
  mstep (either_copyout_var p q s2 _ _ _ l (bslice (view s1 a) (off mod BSIZE) m) m Ho2').
  change (0 =? -1) with false. cbv iota.
  destruct (op_brelse p q s2 _ W bp a [] Ho2' Hc) as (s3 & E3 & Ho3 & Hs3). mstep E3.
  assert (op_same s s3) as Hss by (eapply op_same_trans; [done|by eapply op_same_trans]).
  exists s3. split_and!; [|exact (ino_env_same _ _ _ _ _ _ Hie Ho3 Hss)|done].
  rewrite -> !u32_small by (unfold BSIZE in *; lia). do 4 f_equal.
  rw (fbytes_block (view s) (i_addrs k) off m); [|lia|lia|done|by eapply fcontent_len].
  f_equal. unfold fcontent. fold a. rewrite -> (proj2 (Z.eqb_neq a 0)) by done. apply Hs1.
Qed.

Lemma readi_done ip n tot off dst acc s :
  n ≤ tot → readi_body ip n (tot, off, dst, acc) s = Ret (inr (i32 tot, acc)) s.
Proof. intros Hn. unfold readi_body. by rewrite -> (proj2 (Z.ltb_ge tot n)). Qed.

Lemma readi_loop (fuel : nat) : ∀ s n0 W ip k n tot off l acc,
  ino_env s n0 W [] ip k → 0 ≤ tot ≤ n → n ≤ MAXBYTES → 0 ≤ off → off + (n - tot) ≤ MAXBYTES →
  (∀ bn, 0 ≤ bn → bn * BSIZE < off + (n - tot) → slot (view s) (i_addrs k) (bslot bn) ≠ 0) →
  iters n tot off < fuel →
  ∃ s', loopM fuel (readi_body ip n) (tot, off, AVar l, acc) s =
          Ret (n, acc ++ fbytes (view s) (i_addrs k) off (n - tot)) s' ∧
    ino_env s' n0 W [] ip k ∧ op_same s s'.
Proof.
  induction fuel as [|fuel IH]; intros s n0 W ip k n tot off l acc Hie Ht Hn Ho1 Ho2 Hsl Hf.
  { exfalso. unfold iters, BSIZE in Hf. destruct (Z.ltb_spec tot n); zlia. }
  pose proof MAXBYTES_eq as HM. cbn [loopM]. destruct (decide (tot = n)) as [->|Hne].
  - mstep (readi_done ip n n off (AVar l) acc s ltac:(lia)). rw Z.sub_diag. exists s.
    unfold mret, M_ret, fbytes. rw app_nil_r. rewrite -> i32_small by lia. split_and!; try done.
    split_and!; [done|apply op_frame_refl|done].
  - destruct (chunk_range n tot off Ho1 ltac:(lia)) as [Hc1 Hc2].
    destruct (readi_step s n0 W ip k n tot off l acc Hie) as (s1 & E1 & Hie1 & Hs1); try lia.
    { apply Hsl; unfold BSIZE; zlia. }
    mstep E1. set (m := chunk n tot off) in *.
    destruct (IH s1 n0 W ip k n (tot + m) (off + m) (drop (Z.to_nat m) l)
      (acc ++ fbytes (view s) (i_addrs k) off m)) as (s2 & E2 & Hie2 & Hs2); try done; try lia.
    { intros bn Hb1 Hb2. rw (same_slot s s1 (op_same_blocks _ _ Hs1)). apply Hsl; lia. }
    { unfold m. rw iters_next; lia. }
    exists s2. rw E2. split_and!; [|done|by eapply op_same_trans]. f_equal. f_equal.
    rw (same_fbytes s s1 _ _ _ (op_same_blocks _ _ Hs1)) -app_assoc. f_equal.
    replace (n - tot) with (m + (n - (tot + m))) by lia. rw fbytes_app //; lia.
Qed.

Lemma readi_ok s n0 W ip k l off n :
  ino_env s n0 W [] ip k → no_holes s k → 0 ≤ off ≤ i_size k → 0 ≤ n → off + n < 2 ^ 32 →
  let m := Z.min n (i_size k - off) in
  ∃ s', readi ip (AVar l) off n s = Ret (m, fbytes (view s) (i_addrs k) off m) s' ∧
    ino_env s' n0 W [] ip k ∧ op_same s s'.
Proof.
  intros Hie [Hsz Hnh] Ho Hn Hon m. pose proof MAXBYTES_eq as HM. unfold readi.
  mstep (get_inode_ok s ip k (ie_inode _ _ _ _ _ _ _ _ Hie)).
  rewrite -> (u32_small (off + n)) by lia. rewrite -> (proj2 (Z.ltb_ge (i_size k) off)) by lia.
  rewrite -> (proj2 (Z.ltb_ge (off + n) off)) by lia. cbn [orb]. cbv zeta.
  replace (if i_size k <? off + n then u32 (i_size k - off) else n) with m.
  2: { unfold m. destruct (Z.ltb_spec (i_size k) (off + n)); [rewrite -> u32_small by lia|]; lia. }
  pose proof (iters_bound m off) as Hib.
  destruct (readi_loop (Z.to_nat (m / BSIZE + 3)) s n0 W ip k m 0 off l []) as (s' & E & Hie' & Hs'); try done; try lia.
  { intros bn Hb1 Hb2. apply Hnh; lia. }
  rw Z.sub_0_r in E. by exists s'.
Qed.

(** ** Changing a block of a file *)

(** Blocks that belong to others: in use, and neither of the bitmap nor of
    this file. *)
Record foreign (s : kstate) (addrs : list Z) (z : Z) : Prop := {
  fg_range : 0 < z < sb_size (k_sb s);
  fg_used : used s z = true;
  fg_bitmap y : 0 ≤ y < sb_size (k_sb s) → BBLOCK y (k_sb s) ≠ z;
  fg_slot j : 0 ≤ j ≤ MAXFILE → slot (view s) addrs j ≠ z
}.

Lemma foreign_extends s s' addrs addrs' z :
  extends s s' addrs addrs' → foreign s addrs z → foreign s' addrs' z ∧ view s' z = view s z.
Proof.
  intros Hx [H1 H2 H3 H4]. pose proof (ex_used _ _ _ _ Hx z ltac:(lia) H2) as Hu. split.
  - split; rw ?(ex_sb _ _ _ _ Hx) //. intros j Hj E. pose proof (ex_new _ _ _ _ Hx j Hj) as Hn. rw E in Hn.
    destruct Hn as [E'|Hf]; [lia|by apply (H4 j Hj)|congruence].
  - apply (ex_view _ _ _ _ Hx); try done. rewrite <- (slot_direct (view s)) by done.
    intros E. by apply (H4 NDIRECT); [rw NDIRECT_eq MAXFILE_eq; lia|].
Qed.

Section put.
Context (s s' : kstate) (addrs : list Z) (bn : Z) (d : list Z).
Context (Hf : file_ok s addrs) (Hbm : bitmap_ok s) (Hm : meta_ok s) (Hbn : 0 ≤ bn < MAXFILE).
Context (Hne : slot (view s) addrs (bslot bn) ≠ 0) (Hd : length d = Z.to_nat BSIZE).
Context (Esb : k_sb s' = k_sb s).
Context (Hv : ∀ z, view s' z = if decide (z = slot (view s) addrs (bslot bn)) then d else view s z).

Lemma put_data : data_block s (slot (view s) addrs (bslot bn)).
Proof. apply (fo_data _ _ Hf); [|done]. by apply bslot_range. Qed.
Lemma put_bitmap : bitmap_ok s' ∧ ∀ y, 0 ≤ y < sb_size (k_sb s) → used s' y = used s y.
Proof.
  apply bitmap_view; [done|done|]. intros y Hy. rw Hv decide_False //. by apply (db_bitmap _ _ put_data).
Qed.
Lemma put_meta : meta_ok s'.
Proof.
  destruct put_bitmap as [_ Hu]. pose proof (db_range _ _ put_data). pose proof (bm_size _ Hbm).
  split; [rw Hu; [apply Hm|lia]|]. rw Esb. intros i Hi. destruct (mo_inode _ Hm i Hi) as (Hi1 & Hi2 & Hi3). rw Hu //. lia.
Qed.
Lemma put_slot j : 0 ≤ j ≤ MAXFILE → slot (view s') addrs j = slot (view s) addrs j.
Proof.
  intros Hj. apply slot_ext. intros Hi. rw Hv decide_False //. intros E.
  destruct (bslot_range bn Hbn) as [Hb Hb']. apply Hb'. by apply (fo_inj _ _ Hf).
Qed.
Lemma put_file : file_ok s' addrs.
Proof.
  destruct put_bitmap as [_ Hu]. split; [apply Hf|..].
  - intros j Hj. rw put_slot //. intros Hn. destruct (fo_data _ _ Hf j Hj Hn) as [H1 H2 H3 H4 H5].
    split; rw ?Esb ?Hu //. rw Hv. by case_decide.
  - intros j j' Hj Hj'. rw !put_slot //. by apply Hf.
Qed.
Lemma put_content bn' :
  0 ≤ bn' < MAXFILE → fcontent (view s') addrs bn' = if decide (bn' = bn) then d else fcontent (view s) addrs bn'.
Proof.
  intros Hb'. destruct (bslot_range _ Hbn) as [H1 _], (bslot_range _ Hb') as [H2 _].
  unfold fcontent. rw put_slot //. destruct (decide (bn' = bn)) as [->|Hn].
  - rewrite -> (proj2 (Z.eqb_neq _ 0)) by done. by rw Hv decide_True.
  - destruct (Z.eqb_spec (slot (view s) addrs (bslot bn')) 0) as [|Hn0]; [done|]. rw Hv decide_False //.
    intros E. apply Hn, bslot_inj. by apply (fo_inj _ _ Hf).
Qed.
Lemma put_foreign z : foreign s addrs z → foreign s' addrs z ∧ view s' z = view s z.
Proof.
  intros [H1 H2 H3 H4]. destruct put_bitmap as [_ Hu]. split.
  - split; rw ?Esb ?Hu //; [lia|]. intros j Hj. rw put_slot //. by apply H4.
  - rw Hv decide_False //. intros E. apply (H4 (bslot bn)); [by apply bslot_range|done].
Qed.
End put.

(** The bytes of the file after [l] has been written at [off]. *)
Definition overwrite (f : Z → Z) (off : Z) (l : list Z) (x : Z) : Z :=
  if decide (off ≤ x < off + length l) then l !!! Z.to_nat (x - off) else f x.

(** ** writei *)

(** Bytes spliced into one block of the file. *)
Lemma overwrite_block (vw vw' : Z → list Z) addrs addrs' off bs x :
  0 ≤ off → off mod BSIZE + length bs ≤ BSIZE → 0 ≤ x →
  (∀ bn, bn = x / BSIZE → length (fcontent vw addrs bn) = Z.to_nat BSIZE ∧
     fcontent vw' addrs' bn =
       if decide (bn = off / BSIZE) then bsplice (fcontent vw addrs bn) (off mod BSIZE) bs
       else fcontent vw addrs bn) →
  fbyte vw' addrs' x = overwrite (fbyte vw addrs) off bs x.
Proof.
  intros Ho Hle Hx Hc. destruct (Hc _ eq_refl) as [Hlen E]. unfold overwrite, fbyte. rw E. unfold zget.
  unfold BSIZE in *. destruct (decide (x / 1024 = off / 1024)) as [Eb|Eb].
  - apply Some_inj.
    rewrite <- list_lookup_lookup_total_lt by (rw length_bsplice; [rw Hlen; zlia|zlia|rw Hlen; zlia]).
    rw lookup_bsplice; [|zlia|rw Hlen; zlia]. repeat case_decide; try zlia.
    + rewrite -> list_lookup_lookup_total_lt by zlia. do 2 f_equal. zlia.
    + rewrite -> list_lookup_lookup_total_lt by (rw Hlen; zlia). done.
  - rw decide_False //. zlia.
Qed.

(** Copying a part of the source into the block [a] of the file. *)
Definition store_chunk (a : Z) (src : addr) (m off : Z) : KM bool :=
  bp ← bread ROOTDEV a;
  r ← either_copyin src m;
  upd_buf bp (λ b, set_b_data (bsplice (b_data b) (off mod BSIZE) r.2) b) ;;
  if r.1 =? -1 then brelse bp ;; mret false else
  log_write bp ;;
  brelse bp ;;
  mret true.

Lemma writei_body_chunk ip n tot off src s k a s1 b s2 :
  tot < n → k_itable s !! ip = Some k → i_dev k = ROOTDEV → bmap ip (off / BSIZE) s = Ret a s1 →
  store_chunk a src (chunk n tot off) off s1 = Ret b s2 →
  writei_body ip n (tot, off, src) s =
    Ret (if b then inl (u32 (tot + chunk n tot off), u32 (off + chunk n tot off), addr_add src (chunk n tot off))
         else inr (tot, off)) s2.
Proof.
  intros Ht Hk Hdev E1. unfold writei_body, store_chunk. rewrite -> (proj2 (Z.ltb_lt tot n)) by lia. cbn [negb].
  mstep (get_inode_ok s ip k Hk). mstep E1. cbv zeta. rw Hdev. fold (chunk n tot off).
  unfold mbind, M_bind. destruct (bread ROOTDEV a s1) as [bp s3|w s3|s3 K]; cbn [obind]; [|done|done].
  destruct (either_copyin src (chunk n tot off) s3) as [r s4|w s4|s4 K]; cbn [obind]; [|done|done].
  destruct (upd_buf bp _ s4) as [[] s5|w s5|s5 K]; cbn [obind]; [|done|done].
  destruct (r.1 =? -1).
  - destruct (brelse bp s5) as [[] s6|w s6|s6 K]; cbn [obind]; [|done|done]. by intros [= <- <-].
  - destruct (log_write bp s5) as [[] s6|w s6|s6 K]; cbn [obind]; [|done|done].
    destruct (brelse bp s6) as [[] s7|w s7|s7 K]; cbn [obind]; [|done|done]. by intros [= <- <-].
Qed.

Lemma store_chunk_ok s n W ip k bn l m off :
  let a := slot (view s) (i_addrs k) (bslot bn) in
  ino_env s n W [] ip k → a ∈ W → a ≠ 0 → bn = off / BSIZE → 0 ≤ off < MAXBYTES →
  0 ≤ m ≤ length l → off mod BSIZE + m ≤ BSIZE →
  ∃ s', store_chunk a (AVar l) m off s = Ret true s' ∧ ino_env s' n W [] ip k ∧ op_frame s s' ∧
    (∀ j, 0 ≤ j ≤ MAXFILE → slot (view s') (i_addrs k) j = slot (view s) (i_addrs k) j) ∧
    (∀ x, 0 ≤ x < MAXBYTES → fbyte (view s') (i_addrs k) x =
       overwrite (fbyte (view s) (i_addrs k)) off (take (Z.to_nat m) l) x) ∧
    (∀ z, foreign s (i_addrs k) z → foreign s' (i_addrs k) z ∧ view s' z = view s z).
Proof.
  intros a Hie HaW Ha0 Hbo Hoff Hm Hle. destruct (Hie) as [Ho Hb Hmt HW Hk Hdev Hf]. pose proof MAXBYTES_eq as HM.
  assert (0 ≤ bn < MAXFILE) as Hbn by (rw MAXFILE_eq Hbo; unfold BSIZE; zlia).
  unfold store_chunk.
  destruct (op_bread p q s _ W [] a Ho) as (bp & s1 & E1 & Ho1 & Hv1 & Hf1 & El1); [by intros ?%elem_of_nil|cbn; lia|].
  mstep E1. mstep (either_copyin_var p q s1 _ _ _ l m Ho1). cbn [fst snd].
  destruct (op_upd p q s1 _ _ _ bp a (λ d, bsplice d (off mod BSIZE) (take (Z.to_nat m) l)) Ho1)
    as (s2 & E2 & Ho2 & Hv2 & Hf2 & El2); [by left|]. mstep E2. change (0 =? -1) with false. cbv iota.
  destruct (op_log_write p q s2 _ W _ bp a Ho2) as (s3 & E3 & Ho3 & Hv3 & Hf3 & El3 & Hl3); [by left|done|]. mstep E3.
  destruct (op_brelse p q s3 _ W bp a [] Ho3) as (s4 & E4 & Ho4 & Hv4 & Hf4 & El4); [left; apply Hl3; by right|].
  mstep E4.
  assert (op_frame s s4) as Hfr by by eapply op_frame_trans, op_frame_trans, op_frame_trans.
  set (d := bsplice (view s a) (off mod BSIZE) (take (Z.to_nat m) l)).
  assert (∀ z, view s4 z = if decide (z = a) then d else view s z) as Hv by (intros z; by rw Hv4 Hv3 Hv2 !Hv1).
  assert (length d = Z.to_nat BSIZE) as Hd.
  { unfold d. pose proof (db_len _ _ (put_data s (i_addrs k) bn Hf Hbn Ha0)) as Hlen. fold a in Hlen.
    rw length_bsplice; [done| |]; rw ?Hlen ?length_take; unfold BSIZE in *; zlia. }
  pose proof (op_frame_sb _ _ Hfr) as Esb. destruct (op_ino_frame _ _ Hfr) as [_ Et].
  exists s4. split_and!; try done.
  - split; rw ?Esb ?Et //.
    + by apply (put_bitmap s s4 (i_addrs k) bn d).
    + by apply (put_meta s s4 (i_addrs k) bn d).
    + by apply (put_file s s4 (i_addrs k) bn d).
  - intros j Hj. by apply (put_slot s s4 (i_addrs k) bn d).
  - intros x Hx. apply overwrite_block; [lia|rw length_take; lia|lia|]. intros bn' ->.
    assert (0 ≤ x / BSIZE < MAXFILE) as Hb' by (rw MAXFILE_eq; unfold BSIZE; zlia).
    split; [by eapply fcontent_len|]. rw (put_content s s4 (i_addrs k) bn d) // Hbo. case_decide as E; [|done].
    rw E -Hbo. unfold d, fcontent. fold a. by rewrite -> (proj2 (Z.eqb_neq a 0)).
  - intros z. by apply (put_foreign s s4 (i_addrs k) bn d).
Qed.

(** What writing the bytes [l] at [off] does to the inode [ip]. *)
Record wrote (s : kstate) (ip : nat) (k : inode) (off : Z) (l : list Z) (s' : kstate) (addrs' : list Z) : Prop := {
  wr_itable : k_itable s' = <[ip := set_i_addrs addrs' k]> (k_itable s);
  wr_frame : ino_frame s s';
  wr_new x : off ≤ x < off + length l → slot (view s') addrs' (bslot (x / BSIZE)) ≠ 0;
  wr_keep j : 0 ≤ j ≤ MAXFILE → slot (view s) (i_addrs k) j ≠ 0 → slot (view s') addrs' j ≠ 0;
  wr_bytes x : 0 ≤ x < MAXBYTES → fbyte (view s') addrs' x = overwrite (fbyte (view s) (i_addrs k)) off l x;
  wr_foreign z : foreign s (i_addrs k) z → foreign s' addrs' z ∧ view s' z = view s z
}.

Lemma overwrite_app f off l1 l2 x :
  overwrite (overwrite f off l1) (off + length l1) l2 x = overwrite f off (l1 ++ l2) x.
Proof.
  unfold overwrite. rw length_app. repeat case_decide; try lia; try done.
  - rw lookup_total_app_r; [|lia]. f_equal. lia.
  - rw lookup_total_app_l; [done|lia].
Qed.

Lemma wrote_nil s ip k off : k_itable s !! ip = Some k → 0 ≤ off → wrote s ip k off [] s (i_addrs k).
Proof.
  intros Hk Ho. split; rw ?set_addrs_id; try done.
  - by rw list_insert_id.
  - apply ino_frame_refl.
  - intros x Hx. cbn [length] in Hx. lia.
  - intros x Hx. unfold overwrite. rw decide_False //. cbn. lia.
Qed.

Lemma wrote_app s ip k off l1 s1 a1 l2 s2 a2 :
  0 ≤ off → off + length l1 + length l2 ≤ MAXBYTES →
  wrote s ip k off l1 s1 a1 → wrote s1 ip (set_i_addrs a1 k) (off + length l1) l2 s2 a2 →
  wrote s ip k off (l1 ++ l2) s2 a2.
Proof.
  intros Ho Hle [T1 F1 N1 K1 B1 G1] [T2 F2 N2 K2 B2 G2]. cbn [i_addrs set_i_addrs] in *. pose proof MAXBYTES_eq as HM. split.
  - by rw T2 T1 list_insert_insert_eq.
  - by eapply ino_frame_trans.
  - rw length_app. intros x Hx. destruct (decide (x < off + length l1)) as [Hlt|Hge]; [|apply N2; lia].
    apply K2; [|apply N1; lia]. apply bslot_range. rw MAXFILE_eq. unfold BSIZE. zlia.
  - intros j Hj Hn. apply K2; [done|]. by apply K1.
  - intros x Hx. rw B2 // -overwrite_app. unfold overwrite at 1 2. case_decide; [done|]. by apply B1.
  - intros z Hz. destruct (G1 z Hz) as [Hz1 <-]. by apply G2.
Qed.

Lemma writei_step s n0 W ip k n tot off l :
  ino_env s (S (S n0)) W [] ip k → 0 ≤ tot < n → n ≤ MAXBYTES → 0 ≤ off < MAXBYTES → length l = Z.to_nat (n - tot) →
  let m := chunk n tot off in
  (∃ s' W' addrs', writei_body ip n (tot, off, AVar l) s = Ret (inl (tot + m, off + m, AVar (drop (Z.to_nat m) l))) s' ∧
    ino_env s' n0 W' [] ip (set_i_addrs addrs' k) ∧ W ⊆ W' ∧ wrote s ip k off (take (Z.to_nat m) l) s' addrs') ∨
  (∃ s', writei_body ip n (tot, off, AVar l) s = Stop (Panic "balloc: out of blocks") s').
Proof.
  intros Hie Ht Hn Hoff Hl m. destruct (chunk_range n tot off ltac:(lia) ltac:(lia)) as [Hc1 Hc2]. fold m in Hc1, Hc2.
  pose proof MAXBYTES_eq as HM. assert (0 ≤ off / BSIZE < MAXFILE) as Hbn by (rw MAXFILE_eq; unfold BSIZE; zlia).
  destruct (bmap_ok p q s n0 W ip k (off / BSIZE) Hie Hbn) as [(a & s1 & W' & addrs' & E1 & Hmp)|(s1 & E1)].
  2: { right. exists s1. unfold writei_body. rewrite -> (proj2 (Z.ltb_lt tot n)) by lia. cbn [negb].
       mstep (get_inode_ok s ip k (ie_inode _ _ _ _ _ _ _ _ Hie)). by rewrite -> (bind_Stop _ _ _ _ _ E1). }
  left. destruct Hmp as [Hie1 HWW HaW Et1 Hx1 Hfr1 Ha0 Hsl]. set (k1 := set_i_addrs addrs' k) in *.
  destruct (store_chunk_ok s1 n0 W' ip k1 (off / BSIZE) l m off) as (s2 & E2 & Hie2 & Hfr2 & Hsl2 & Hby2 & Hfg2);
    try done; try lia; cbn [k1 i_addrs set_i_addrs] in *; [by rw Hsl|by rw Hsl|]. rw Hsl in E2.
  destruct (op_ino_frame _ _ Hfr2) as [Hfr2' Et2]. destruct (bslot_range _ Hbn) as [Hbr _].
  exists s2, W', addrs'. split_and!; try done.
  - erewrite writei_body_chunk; [|lia|apply Hie|apply Hie|exact E1|exact E2]. fold m.
    rewrite -> !u32_small by (unfold BSIZE in *; lia). done.
  - split.
    + by rw Et2.
    + by eapply ino_frame_trans.
    + rw length_take. intros x Hx. replace (x / BSIZE) with (off / BSIZE) by (unfold BSIZE in *; zlia). by rw Hsl2 // Hsl.
    + intros j Hj Hn0. rw Hsl2 // (ex_slot _ _ _ _ Hx1) //.
    + intros x Hx. rw Hby2 //. unfold overwrite. case_decide; [done|]. unfold fbyte.
      rw (ex_content _ _ _ _ Hx1) //. rw MAXFILE_eq. unfold BSIZE. zlia.
    + intros z Hz. destruct (foreign_extends _ _ _ _ z Hx1 Hz) as [Hz1 E]. rw -E. by apply Hfg2.
Qed.

Lemma writei_done ip n tot off src s : n ≤ tot → writei_body ip n (tot, off, src) s = Ret (inr (tot, off)) s.
Proof. intros Hn. unfold writei_body. by rewrite -> (proj2 (Z.ltb_ge tot n)). Qed.

Lemma writei_loop (fuel : nat) : ∀ s n0 W ip k n tot off l,
  ino_env s (2 * Z.to_nat (iters n tot off) + n0) W [] ip k → 0 ≤ tot ≤ n → n ≤ MAXBYTES → 0 ≤ off →
  off + (n - tot) ≤ MAXBYTES → length l = Z.to_nat (n - tot) → iters n tot off < fuel →
  (∃ s' W' addrs', loopM fuel (writei_body ip n) (tot, off, AVar l) s = Ret (n, off + (n - tot)) s' ∧
     ino_env s' n0 W' [] ip (set_i_addrs addrs' k) ∧ W ⊆ W' ∧ wrote s ip k off l s' addrs') ∨
  (∃ s', loopM fuel (writei_body ip n) (tot, off, AVar l) s = Stop (Panic "balloc: out of blocks") s').
Proof.
  induction fuel as [|fuel IH]; intros s n0 W ip k n tot off l Hie Ht Hn Ho1 Ho2 Hl Hf.
  { exfalso. unfold iters, BSIZE in Hf. destruct (Z.ltb_spec tot n); zlia. }
  pose proof MAXBYTES_eq as HM. cbn [loopM]. destruct (decide (tot = n)) as [->|Hne].
  - left. mstep (writei_done ip n n off (AVar l) s ltac:(lia)). rw Z.sub_diag Z.add_0_r.
    exists s, W, (i_addrs k). rw set_addrs_id. split_and!; try done; [by eapply ino_env_mono; [exact Hie|lia]|].
    assert (l = []) as -> by (apply nil_length_inv; lia). apply wrote_nil; [apply Hie|done].
  - destruct (chunk_range n tot off Ho1 ltac:(lia)) as [Hc1 Hc2].
    assert (1 ≤ iters n tot off) as Hit.
    { unfold iters, BSIZE. rewrite -> (proj2 (Z.ltb_lt tot n)) by lia. zlia. }
    pose proof (iters_next n tot off Ho1 ltac:(lia)) as Hin. set (m := chunk n tot off) in *.
    destruct (writei_step s (2 * Z.to_nat (iters n (tot + m) (off + m)) + n0) W ip k n tot off l)
      as [(s1 & W1 & a1 & E1 & Hie1 & HW1 & Hw1)|(s1 & E1)]; [|lia|lia|lia|done| |].
    { eapply ino_env_mono; [exact Hie|]. rw Hin. lia. }
    2: { right. exists s1. by rewrite -> (bind_Stop _ _ _ _ _ E1). }
    fold m in E1, Hw1. mstep E1.
    destruct (IH s1 n0 W1 ip (set_i_addrs a1 k) n (tot + m) (off + m) (drop (Z.to_nat m) l) Hie1)
      as [(s2 & W2 & a2 & E2 & Hie2 & HW2 & Hw2)|Hp]; [lia|lia|lia|lia|rw length_drop; lia|lia| |by right].
    left. exists s2, W2, a2. split_and!; [rw E2; do 2 f_equal; lia|exact Hie2|by etrans|].
    rewrite <- (take_drop (Z.to_nat m) l). eapply wrote_app; [done|rw length_take length_drop; lia|exact Hw1|].
    replace (off + length (take (Z.to_nat m) l)) with (off + m) by (rw length_take; lia). exact Hw2.
Qed.

(** ** iupdate *)

Lemma inode_foreign s n W hs ip k i :
  ino_env s n W hs ip k → 0 ≤ i < sb_ninodes (k_sb s) → foreign s (i_addrs k) (IBLOCK i (k_sb s)).
Proof.
  intros Hie Hi. destruct (Hie) as [Ho Hb Hm HW Hk Hdev Hf]. destruct (mo_inode _ Hm i Hi) as (H1 & H2 & H3).
  split; try done. intros j Hj E. assert (slot (view s) (i_addrs k) j ≠ 0) as Hn by lia.
  by apply (db_inode _ _ (fo_data _ _ Hf j Hj Hn) i Hi).
Qed.

(** Changing a foreign block does not touch the file. *)
Lemma foreign_put s s' n W hs ip k z d :
  ino_env s n W hs ip k → foreign s (i_addrs k) z → op_frame s s' → op_env p q s' n W hs →
  (∀ x, view s' x = if decide (x = z) then d else view s x) →
  ino_env s' n W hs ip k ∧ (∀ j, 0 ≤ j ≤ MAXFILE → slot (view s') (i_addrs k) j = slot (view s) (i_addrs k) j) ∧
  (∀ bn, 0 ≤ bn < MAXFILE → fcontent (view s') (i_addrs k) bn = fcontent (view s) (i_addrs k) bn).
Proof.
  intros Hie [F1 F2 F3 F4] Hfr Ho' Hv. destruct (Hie) as [Ho Hb Hm HW Hk Hdev Hf].
  pose proof (op_frame_sb _ _ Hfr) as Esb. destruct (op_ino_frame _ _ Hfr) as [_ Et].
  assert (∀ j, 0 ≤ j ≤ MAXFILE → slot (view s') (i_addrs k) j = slot (view s) (i_addrs k) j) as Hsl.
  { intros j Hj. apply slot_ext. intros Hn. rw Hv decide_False //. rewrite <- (slot_direct (view s)) by done.
    apply F4. rw NDIRECT_eq MAXFILE_eq. lia. }
  destruct (bitmap_view s s' Hb Esb) as [Hb' Hu].
  { intros y Hy. rw Hv decide_False //. by apply F3. }
  split_and!; [|done|].
  - split; rw ?Esb ?Et //.
    + pose proof (bm_size _ Hb). split; [rw Hu; [apply Hm|lia]|]. rw Esb. intros i Hi.
      destruct (mo_inode _ Hm i Hi) as (Hi1 & Hi2 & Hi3). rw Hu //. lia.
    + split; [apply Hf|..].
      * intros j Hj. rw Hsl //. intros Hn. destruct (fo_data _ _ Hf j Hj Hn) as [H1 H2 H3 H4 H5].
        split; rw ?Esb ?Hu //. rw Hv decide_False //. by apply F4.
      * intros j j' Hj Hj'. rw !Hsl //. by apply Hf.
  - intros bn Hbn. destruct (bslot_range bn Hbn) as [Hbr _]. unfold fcontent. rw Hsl //.
    case_match; [done|]. rw Hv decide_False //. by apply F4.
Qed.

Lemma bslice_dinode d inum di :
  length d = Z.to_nat BSIZE → 0 ≤ inum → dinode_ok di →
  dec_dinode (bslice (bsplice d (dip_off inum) (enc_dinode di)) (dip_off inum) sizeof_dinode) = di ∧
  (∀ inum', 0 ≤ inum' → inum' mod IPB ≠ inum mod IPB →
     bslice (bsplice d (dip_off inum) (enc_dinode di)) (dip_off inum') sizeof_dinode =
     bslice d (dip_off inum') sizeof_dinode).
Proof.
  intros Hd Hi Hok. destruct (Hok) as (_ & _ & _ & _ & _ & _ & Hlen).
  pose proof (length_enc_dinode di Hlen) as Hl. unfold dip_off, sizeof_dinode, IPB, BSIZE, sizeof_dinode in *.
  change (1024 / 64) with 16. split.
  - rw bslice_bsplice_same; [|zlia|rw Hl Hd; zlia|by rw Hl].
    rewrite <- (app_nil_r (enc_dinode di)). by apply dec_enc_dinode.
  - intros i' Hi' Hne. change (1024 / 64) with 16 in Hne. apply bslice_bsplice_disj; rw ?Hl ?Hd; zlia.
Qed.

Lemma iupdate_ok s n W ip k :
  let ib := IBLOCK (i_inum k) (k_sb s) in
  ino_env s n W [] ip k → ib ∈ W → 0 ≤ i_inum k < sb_ninodes (k_sb s) →
  length (view s ib) = Z.to_nat BSIZE → dinode_ok (inode_dinode k) →
  ∃ s', iupdate ip s = Ret tt s' ∧ ino_env s' n W [] ip k ∧ op_frame s s' ∧
    dec_dinode (bslice (view s' ib) (dip_off (i_inum k)) sizeof_dinode) = inode_dinode k ∧
    (∀ inum', 0 ≤ inum' → inum' mod IPB ≠ i_inum k mod IPB →
       bslice (view s' ib) (dip_off inum') sizeof_dinode = bslice (view s ib) (dip_off inum') sizeof_dinode) ∧
    (∀ x, x ≠ ib → view s' x = view s x) ∧
    (∀ j, 0 ≤ j ≤ MAXFILE → slot (view s') (i_addrs k) j = slot (view s) (i_addrs k) j) ∧
    (∀ bn, 0 ≤ bn < MAXFILE → fcontent (view s') (i_addrs k) bn = fcontent (view s) (i_addrs k) bn).
Proof.
  intros ib Hie HW Hi Hlen Hok. pose proof (inode_foreign s n W [] ip k (i_inum k) Hie Hi) as Hfg. fold ib in Hfg.
  unfold iupdate. mstep (get_inode_ok s ip k (ie_inode _ _ _ _ _ _ _ _ Hie)). rw bind_gets.
  rw (ie_dev _ _ _ _ _ _ _ _ Hie). fold ib.
  destruct (op_modify p q s n W [] ib (λ d, bsplice d (dip_off (i_inum k)) (enc_dinode (inode_dinode k)))
    (ie_op _ _ _ _ _ _ _ _ Hie)) as (s' & E & Ho' & Hv & Hfr & _ & _); [by intros ?%elem_of_nil|cbn; lia|done|].
  destruct (foreign_put s s' n W [] ip k ib _ Hie Hfg Hfr Ho' Hv) as (Hie' & Hsl & Hct).
  destruct (bslice_dinode (view s ib) (i_inum k) (inode_dinode k) Hlen ltac:(lia) Hok) as [Hd1 Hd2].
  assert (view s' ib = bsplice (view s ib) (dip_off (i_inum k)) (enc_dinode (inode_dinode k))) as Ev
    by by rw Hv decide_True.
  exists s'. split_and!; try done.
  - by rw Ev.
  - rw Ev. done.
  - intros x Hx. by rw Hv decide_False.
Qed.

Lemma file_addrs_ok s addrs : file_ok s addrs → bitmap_ok s → Forall uint_ok addrs.
Proof.
  intros Hf Hb. apply Forall_lookup. intros i a Hi. pose proof (bm_size _ Hb) as Hsz.
  assert (i < 13)%nat as Hlt by (rw -(fo_len _ _ Hf); by eapply lookup_lt_Some).
  assert (slot (view s) addrs i = a) as E.
  { rw slot_direct; [|rw NDIRECT_eq; lia]. unfold zget. rw Nat2Z.id. by apply list_lookup_total_correct. }
  unfold uint_ok. destruct (decide (a = 0)) as [->|Hn]; [lia|]. rw -E in Hn.
  pose proof (db_range _ _ (fo_data _ _ Hf i ltac:(rw MAXFILE_eq; lia) Hn)). lia.
Qed.

(** ** writei *)

(** The inode's other fields fit their on-disk types, and its block is whole. *)
Record inode_fields (s : kstate) (k : inode) : Prop := {
  if_type : short_ok (i_type k);
  if_major : short_ok (i_major k);
  if_minor : short_ok (i_minor k);
  if_nlink : short_ok (i_nlink k);
  if_inum : 0 ≤ i_inum k < sb_ninodes (k_sb s);
  if_block : length (view s (IBLOCK (i_inum k) (k_sb s))) = Z.to_nat BSIZE
}.

(** The result of writing [l] at [off]: the in-memory inode [k'], which is
    also on its inode block, and the contents of the file. *)
Record written (s : kstate) (ip : nat) (k : inode) (off : Z) (l : list Z) (s' : kstate) (k' : inode) : Prop := {
  wn_inode : k_itable s' = <[ip := k']> (k_itable s);
  wn_size : i_size k' = Z.max (i_size k) (off + length l);
  wn_same : k' = set_i_addrs (i_addrs k') (set_i_size (i_size k') k);
  wn_holes : no_holes s' k';
  wn_bytes x : 0 ≤ x < MAXBYTES →
    fbyte (view s') (i_addrs k') x = overwrite (fbyte (view s) (i_addrs k)) off l x;
  wn_disk : dec_dinode (bslice (view s' (IBLOCK (i_inum k) (k_sb s))) (dip_off (i_inum k)) sizeof_dinode)
    = inode_dinode k';
  wn_foreign z : foreign s (i_addrs k) z → z ≠ IBLOCK (i_inum k) (k_sb s) → view s' z = view s z;
  wn_frame : ino_frame s s'
}.

Lemma writei_size s ip k off :
  k_itable s !! ip = Some k →
  whenM (i_size k <? off) (upd_inode ip (set_i_size off)) s =
    Ret tt (set_k_itable (<[ip := set_i_size (Z.max (i_size k) off) k]> (k_itable s)) s).
Proof.
  intros Hk. destruct (Z.ltb_spec (i_size k) off); cbn [whenM].
  - rw Z.max_r; [|lia]. by apply upd_inode_ok.
  - rw Z.max_l; [|lia]. rewrite -> list_insert_id by (rw Hk; by destruct k). by destruct s.
Qed.

Lemma ino_env_set s n W ip k k' :
  ino_env s n W [] ip k → i_addrs k' = i_addrs k → i_dev k' = i_dev k →
  ino_env (set_k_itable (<[ip := k']> (k_itable s)) s) n W [] ip k'.
Proof.
  intros Hie Ea Ed. destruct (Hie) as [Ho Hb Hm HW Hk Hdev Hf].
  eapply ino_env_next; [exact Hie|by apply op_env_itable|done| | |by rw Ed].
  - rw Ea. by apply (same_extends s).
  - kcbn. apply list_lookup_insert_eq. by eapply lookup_lt_Some.
Qed.

Lemma writei_ok s n0 W ip k off l :
  let n := Z.of_nat (length l) in
  ino_env s (2 * Z.to_nat (iters n 0 off) + n0) W [] ip k → IBLOCK (i_inum k) (k_sb s) ∈ W →
  inode_fields s k → no_holes s k → 0 ≤ off ≤ i_size k → off + n ≤ MAXBYTES →
  (∃ s' W' k', writei ip (AVar l) off n s = Ret n s' ∧ ino_env s' n0 W' [] ip k' ∧ W ⊆ W' ∧
     written s ip k off l s' k') ∨
  (∃ s', writei ip (AVar l) off n s = Stop (Panic "balloc: out of blocks") s').
Proof.
  intros n Hie HW Hif Hnh Hoff Hle. pose proof MAXBYTES_eq as HM. unfold writei.
  mstep (get_inode_ok s ip k (ie_inode _ _ _ _ _ _ _ _ Hie)).
  rewrite -> (u32_small (off + n)) by lia. rewrite -> (proj2 (Z.ltb_ge (i_size k) off)) by lia.
  rewrite -> (proj2 (Z.ltb_ge (off + n) off)) by lia. cbn [orb]. fold MAXBYTES.
  rewrite -> (proj2 (Z.ltb_ge MAXBYTES (off + n))) by lia.
  pose proof (iters_bound n off) as Hib.
  destruct (writei_loop (Z.to_nat (n / BSIZE + 3)) s n0 W ip k n 0 off l Hie)
    as [(s1 & W1 & a1 & E1 & Hie1 & HW1 & Hw)|(s1 & E1)]; [lia|lia|lia|lia|lia|lia| |].
  2: { right. rewrite -> (bind_Stop _ _ _ _ _ E1). by eexists. }
  left. mstep E1. rw Z.sub_0_r. set (k1 := set_i_addrs a1 k) in *.
  mstep (get_inode_ok s1 ip k1 (ie_inode _ _ _ _ _ _ _ _ Hie1)).
  mstep (writei_size s1 ip k1 (off + n) (ie_inode _ _ _ _ _ _ _ _ Hie1)).
  set (k2 := set_i_size _ k1). set (s2 := set_k_itable _ s1).
  pose proof (ino_env_set s1 n0 W1 ip k1 k2 Hie1 eq_refl eq_refl) as Hie2. fold s2 in Hie2.
  destruct Hw as [T1 F1 N1 K1 B1 G1]. destruct Hif as [I1 I2 I3 I4 I5 I6]. pose proof (proj1 Hnh) as Hszr.
  assert (k_sb s2 = k_sb s) as Esb by (destruct F1 as (? & ? & ? & ? & E); unfold s2; by rw E).
  set (ib := IBLOCK (i_inum k) (k_sb s)) in *.
  destruct (G1 ib) as [_ Hib1]; [by eapply inode_foreign|].
  destruct (iupdate_ok s2 n0 W1 ip k2 Hie2) as (s3 & E3 & Hie3 & F3 & D3 & _ & V3 & S3 & C3);
    change (i_inum k2) with (i_inum k) in *; rw ?Esb; fold ib.
  { by apply HW1. } { done. } { by change (view s2 ib) with (view s1 ib); rw Hib1. }
  { split_and!; try done; [unfold uint_ok; cbn; lia| |].
    - apply (file_addrs_ok s2); [apply (ie_file _ _ _ _ _ _ _ _ Hie2)|apply (ie_bitmap _ _ _ _ _ _ _ _ Hie2)].
    - apply (fo_len _ _ (ie_file _ _ _ _ _ _ _ _ Hie2)). }
  mstep E3. rewrite -> i32_small by lia. exists s3, W1, k2. split_and!; try done.
  rw Esb in D3 V3. fold ib in D3, V3. destruct (op_ino_frame _ _ F3) as [F3' T3].
  assert (∀ bn, 0 ≤ bn < MAXFILE → slot (view s3) a1 (bslot bn) = slot (view s1) a1 (bslot bn)) as HS.
  { intros bn Hbn. rw (S3 (bslot bn)) //. by apply bslot_range. }
  split; fold ib; try done.
  - by rw T3; unfold s2; kcbn; rw T1 list_insert_insert_eq.
  - destruct Hnh as [Hsz Hnh]. split; [cbn; lia|]. intros bn Hb1 Hb2. cbn [k2 i_addrs set_i_size k1 set_i_addrs].
    assert (0 ≤ bn < MAXFILE) as Hbn.
    { rw MAXFILE_eq. cbn in Hb2. unfold BSIZE in *. lia. }
    rw HS //. destruct (decide (bn * BSIZE < i_size k)) as [Hlt|Hge].
    { apply K1; [by apply bslot_range|]. by apply Hnh. }
    cbn in Hb2. replace bn with (Z.max off (bn * BSIZE) / BSIZE) by (unfold BSIZE in *; zlia). apply N1. lia.
  - intros x Hx. rw -B1 //. unfold fbyte. f_equal. rw (C3 (x / BSIZE)) //. rw MAXFILE_eq. unfold BSIZE. zlia.
  - intros z Hz Hzi. rw V3 //. by apply G1.
  - eapply ino_frame_trans; [exact F1|]. eapply ino_frame_trans; [apply ino_frame_set|exact F3'].
Qed.
End file.

(** C6. What is written to a file is read back. On a well-formed file, and with
    log space for two blocks per block touched, [writei] of the bytes [l] at an
    offset inside the file either panics because the disk is full, or returns
    their number; the file then has those bytes there and its old bytes
    elsewhere, the larger of the two sizes, and its inode on the disk, no block
    of another file has changed; and [readi] returns the bytes. *)
Theorem writei_readi p q s n0 W ip k off l :
  let n := Z.of_nat (length l) in
  ino_env p q s (2 * Z.to_nat (iters n 0 off) + n0) W [] ip k → IBLOCK (i_inum k) (k_sb s) ∈ W →
  inode_fields s k → no_holes s k → 0 ≤ off ≤ i_size k → off + n ≤ MAXBYTES →
  (∃ s1 s2 k', writei ip (AVar l) off n s = Ret n s1 ∧ written s ip k off l s1 k' ∧
     readi ip (AVar []) off n s1 = Ret (n, l) s2) ∨
  (∃ s', writei ip (AVar l) off n s = Stop (Panic "balloc: out of blocks") s').
Proof.
  intros n Hie HW Hif Hnh Hoff Hle. pose proof MAXBYTES_eq as HM.
  destruct (writei_ok p q s n0 W ip k off l Hie HW Hif Hnh Hoff Hle)
    as [(s1 & W1 & k1 & E1 & Hie1 & _ & Hw)|Hp]; [left|by right].
  pose proof (wn_size _ _ _ _ _ _ _ Hw) as Hsz.
  destruct (readi_ok p q s1 n0 W1 ip k1 [] off n Hie1 (wn_holes _ _ _ _ _ _ _ Hw)) as (s2 & E2 & _); try lia.
  exists s1, s2, k1. split_and!; [done|done|]. rw E2 Z.min_l; [|lia]. do 2 f_equal.
  apply list_eq. intros i. unfold fbytes. rw list_lookup_fmap. destruct (decide (i < length l)%nat) as [Hi|Hi].
  - rw lookup_seqZ_lt; [|lia]. cbn. rw (wn_bytes _ _ _ _ _ _ _ Hw); [|lia]. unfold overwrite.
    rw decide_True; [|lia]. rw list_lookup_lookup_total_lt //. do 2 f_equal. lia.
  - rw lookup_seqZ_ge; [|lia]. symmetry. apply lookup_ge_None. lia.
Qed.

(** *** A small file system, for the witnesses

    200 blocks: the log at 2, one block of inodes at 32, the bitmap at 45. *)

Definition bitmap0 : list Z := replicate 6 255 ++ replicate (Z.to_nat BSIZE - 6) 0.
Definition sb0 : superblock := Superblock FSMAGIC 200 150 16 30 2 32 45.
Definition file0 : inode := Inode ROOTDEV 1 1 1 T_FILE 0 0 1 0 (replicate 13 0).
Definition kst4 : kstate :=
  set_k_itable [file0] (set_k_sb sb0
    (set_k_log (set_lg_outstanding 1 (k_log (kst3 {[45 := bitmap0]}))) (kst3 {[45 := bitmap0]}))).
Definition W4 : gset Z := {[45; 32]}.

Lemma idle_kst3_disk : idle 0 (proc1 0) (kst3 {[45 := bitmap0]}) 2.
Proof.
  split; [apply benv_kst3|apply benv_kst3|..]; by vm_compute.
Qed.

Lemma op_env_kst4 : op_env 0 (proc1 0) kst4 8 W4 [].
Proof.
  destruct (idle_begin 0 (proc1 0) _ 2 8 W4 idle_kst3_disk) as [_ Ho].
  - by vm_compute.
  - intros x Hx. unfold W4 in Hx. rewrite -> elem_of_union, !elem_of_singleton in Hx. lia.
  - eapply op_env_keep; [exact Ho|unfold kst4; by kcbn..].
Qed.

Lemma view_kst4 x : view kst4 x = dblock {[45 := bitmap0]} x.
Proof. by rewrite -> (op_view_clean 0 (proc1 0) kst4 8 W4 [] x op_env_kst4) by apply not_elem_of_nil. Qed.

Lemma BBLOCK_kst4 x : 0 ≤ x < 200 → BBLOCK x (k_sb kst4) = 45.
Proof.
  intros Hx. change (k_sb kst4) with sb0. unfold BBLOCK, BPB, BSIZE. cbn [sb_bmapstart sb0].
  replace (x / (1024 * 8)) with 0 by zlia. done.
Qed.
Lemma IBLOCK_kst4 i : 0 ≤ i < 16 → IBLOCK i (k_sb kst4) = 32.
Proof.
  intros Hx. change (k_sb kst4) with sb0. unfold IBLOCK, IPB, BSIZE, sizeof_dinode. cbn [sb_inodestart sb0].
  change (1024 / 64) with 16. replace (i / 16) with 0 by zlia. done.
Qed.
Lemma used_kst4 x : 0 ≤ x < 200 → used kst4 x = negb (bit_free bitmap0 x).
Proof.
  intros Hx. unfold used. rewrite -> BBLOCK_kst4, view_kst4 by done. unfold BPB, BSIZE. rewrite -> Z.mod_small by lia.
  reflexivity.
Qed.

Lemma bitmap_kst4 : bitmap_ok kst4.
Proof.
  split; change (k_sb kst4) with sb0; cbn [sb_size sb_bmapstart sb0]; [lia|lia|]. intros x Hx.
  rewrite <- (eq_refl : k_sb kst4 = sb0), BBLOCK_kst4, used_kst4, view_kst4 by lia.
  split; [unfold BPB, BSIZE; zlia|]. by vm_compute.
Qed.
Lemma meta_kst4 : meta_ok kst4.
Proof.
  split; [rewrite -> used_kst4 by lia; by vm_compute|].
  intros i Hi. rewrite -> IBLOCK_kst4, used_kst4 by (exact Hi || lia). split; [by vm_compute|].
  split; [by vm_compute|]. intros y Hy. by rewrite -> BBLOCK_kst4.
Qed.
Lemma slot_kst4 vw j : 0 ≤ j → slot vw (replicate 13 0) j = 0.
Proof.
  intros Hj. unfold slot. destruct (Z.leb_spec j NDIRECT) as [Hle|]; [|done]. unfold zget.
  rewrite -> NDIRECT_eq in Hle. apply lookup_total_replicate_2. lia.
Qed.
Lemma file_kst4 : file_ok kst4 (replicate 13 0).
Proof.
  split; [done|..].
  - intros j Hj Hn. by rewrite -> slot_kst4 in Hn by lia.
  - intros j j' Hj Hj' _ Hn. by rewrite -> slot_kst4 in Hn by lia.
Qed.

Lemma ino_env_kst4 : ino_env 0 (proc1 0) kst4 8 W4 [] 0 file0.
Proof.
  split; [exact op_env_kst4|exact bitmap_kst4|exact meta_kst4| |done|done|exact file_kst4].
  intros y Hy. rewrite -> BBLOCK_kst4 by exact Hy. by vm_compute.
Qed.

Lemma writei_runs :
  match writei 0 (AVar [72; 105]) 0 2 kst4 with Ret r _ => r | _ => -1 end = 2.
Proof. by vm_compute. Qed.

Lemma writei_readi_witness :
  ∃ s1 s2, writei 0 (AVar [72; 105]) 0 2 kst4 = Ret 2 s1 ∧ readi 0 (AVar []) 0 2 s1 = Ret (2, [72; 105]) s2.
Proof.
  destruct (writei_readi 0 (proc1 0) kst4 6 W4 0 file0 0 [72; 105]) as [(s1 & s2 & k' & E1 & _ & E2)|(s' & E)].
  - exact ino_env_kst4.
  - by vm_compute.
  - split; [by vm_compute|by vm_compute|by vm_compute|by vm_compute|by vm_compute|].
    rewrite -> view_kst4. by vm_compute.
  - split; [by vm_compute|]. intros bn H1 H2. exfalso. revert H2. cbn [i_size file0]. unfold BSIZE. lia.
  - by vm_compute.
  - by vm_compute.
  - exists s1, s2. split; [exact E1|exact E2].
  - exfalso. pose proof writei_runs as Hr. change (Z.of_nat (length [72; 105])) with 2 in E. rewrite -> E in Hr. done.
Defined.

Lemma balloc_bfree_witness :
  ∃ x s1 s2, balloc ROOTDEV kst4 = Ret x s1 ∧ used kst4 x = false ∧ bfree ROOTDEV x s1 = Ret tt s2.
Proof.
  destruct (balloc_bfree 0 (proc1 0) kst4 7 W4 bitmap_kst4 op_env_kst4)
    as [(x & s1 & s2 & s3 & E1 & _ & Hf & _ & _ & _ & E2 & _)|(s' & _ & Hall)].
  - exact (ie_W _ _ _ _ _ _ _ _ ino_env_kst4).
  - exists x, s1, s2. split; [exact E1|]. split; [exact Hf|exact E2].
  - exfalso. specialize (Hall 100 ltac:(by vm_compute)). rewrite -> used_kst4 in Hall by lia. by vm_compute in Hall.
Defined.
