(* ===== verification/FsPath.v ===== *)
(** * Path names (kernel/fs.c: skipelem)

    A path is a sequence of elements separated by slashes; [elems] splits it
    all at once, [skipelem] one element at a time. *)

From S2P Require Import Prelude Riscv KState Spinlock KString Layout Fs.
Open Scope Z_scope.

Definition flush (cur : list Z) : list (list Z) := match cur with [] => [] | _ => [cur] end.
(** The elements of [path], up to its NUL; [cur] is the part of an element
    that has been read. *)
Fixpoint elems_from (cur path : list Z) : list (list Z) :=
  match path with
  | [] => flush cur
  | c :: rest =>
      if c =? 0 then flush cur
      else if c =? slash then flush cur ++ elems_from [] rest
      else elems_from (cur ++ [c]) rest
  end.
Definition elems (path : list Z) : list (list Z) := elems_from [] path.

Lemma skip_slashes_elems path : elems (skip_slashes path) = elems path.
Proof.
  unfold elems. induction path as [|c path IH]; [done|]. cbn. destruct (Z.eqb_spec c slash) as [->|Hne].
  - rw IH. done.
  - cbn. by rewrite -> (proj2 (Z.eqb_neq c slash)).
Qed.
Lemma skip_slashes_length path : (length (skip_slashes path) ≤ length path)%nat.
Proof. induction path as [|c path IH]; cbn; [lia|]. destruct (c =? slash); cbn; lia. Qed.
Lemma skip_slashes_hd path : hd 0 (skip_slashes path) ≠ slash.
Proof. induction path as [|c path IH]; [done|]. cbn. by destruct (Z.eqb_spec c slash). Qed.

Lemma elem_spec path : ∀ cur,
  let '(s, rest) := elem path in
  elems_from cur path = flush (cur ++ s) ++ elems rest ∧ path = s ++ rest ∧ Forall (λ c, c ≠ slash ∧ c ≠ 0) s ∧
  (rest = [] ∨ hd 0 rest = slash ∨ hd 0 rest = 0).
Proof.
  induction path as [|c path IH]; intros cur.
  { cbn. rw app_nil_r. split_and!; [by rw app_nil_r|done|constructor|by left]. }
  cbn [elem elems_from]. destruct (Z.eqb_spec c 0) as [->|H0].
  - cbn. unfold elems. cbn. rw !app_nil_r. split_and!; [done|done|constructor|auto].
  - destruct (Z.eqb_spec c slash) as [->|Hs].
    + cbn. unfold elems. cbn. rw app_nil_r. split_and!; [done|done|constructor|auto].
    + cbn. specialize (IH (cur ++ [c])). destruct (elem path) as [s rest]. destruct IH as (E & -> & Hf & Hr).
      split_and!; [by rw E -app_assoc|done|by constructor|done].
Qed.

(** The name in a buffer of [DIRSIZ] characters. *)
Definition dirname (name : list Z) : list Z := cstr (take (Z.to_nat DIRSIZ) name).

Lemma cstr_app s rest : Forall (λ c, c ≠ slash ∧ c ≠ 0) s → cstr (s ++ rest) = s ++ cstr rest.
Proof.
  induction 1 as [|c s [_ Hc] Hs IH]; [done|]. cbn. rewrite -> (proj2 (Z.eqb_neq c 0)) by done. by rw IH.
Qed.

(** Storing an element in the name buffer. *)
Lemma store_elem s name :
  length name = Z.to_nat DIRSIZ → Forall (λ c, c ≠ slash ∧ c ≠ 0) s →
  let name' := if DIRSIZ <=? length s then bsplice name 0 (take (Z.to_nat DIRSIZ) s) else bsplice name 0 (s ++ [0]) in
  length name' = Z.to_nat DIRSIZ ∧ dirname name' = take (Z.to_nat DIRSIZ) s.
Proof.
  intros Hl Hs. unfold dirname, DIRSIZ in *. destruct (Z.leb_spec 14 (length s)) as [Hle|Hgt]; cbv zeta.
  - rewrite -> bsplice_all by (rw length_take Hl; lia). split; [rw length_take; lia|].
    rw take_take Nat.min_id. rewrite <- (app_nil_r (take _ s)) at 1. rw cstr_app; [by rw app_nil_r|by apply Forall_take].
  - rw length_bsplice; [|lia|rw length_app Hl; cbn; lia]. split; [done|].
    unfold bsplice. change (Z.to_nat 0) with 0%nat. rw take_0 app_nil_l -app_assoc. rewrite -> take_app_ge by lia.
    rw cstr_app //. rewrite -> (take_ge s) by lia.
    destruct (Z.to_nat 14 - length s)%nat eqn:E; [lia|]. cbn [app take cstr Z.eqb]. apply app_nil_r.
Qed.

(** C33. Splitting a path. [skipelem] fails exactly on a path without elements;
    otherwise it stores the first element, cut to [DIRSIZ] characters, and
    returns the rest of the path, without leading slashes and shorter than
    the path it was given, so that [namex] ends. *)
Theorem skipelem_elems path name :
  length name = Z.to_nat DIRSIZ →
  match skipelem path name with
  | None => elems path = []
  | Some (path', name') =>
      ∃ e, elems path = e :: elems path' ∧ e ≠ [] ∧ Forall (λ c, c ≠ slash ∧ c ≠ 0) e ∧
        length name' = Z.to_nat DIRSIZ ∧ dirname name' = take (Z.to_nat DIRSIZ) e ∧
        hd 0 path' ≠ slash ∧ (length path' < length path)%nat
  end.
Proof.
  intros Hl. unfold skipelem. pose proof (skip_slashes_elems path) as Ee. pose proof (skip_slashes_length path) as Hlen.
  pose proof (skip_slashes_hd path) as Hhd. set (p1 := skip_slashes path) in *.
  destruct (Z.eqb_spec (hd 0 p1) 0) as [H0|H0].
  { rw -Ee. destruct p1 as [|c p1]; [done|]. cbn in H0. subst c. done. }
  pose proof (elem_spec p1 []) as He. destruct (elem p1) as [e rest] eqn:Eel.
  destruct He as (He1 & He2 & He3 & _). cbn [app] in He1.
  assert (e ≠ []) as Hne.
  { intros ->. destruct p1 as [|c p1]; [done|]. cbn in Eel, H0, Hhd.
    rewrite -> (proj2 (Z.eqb_neq c slash)), (proj2 (Z.eqb_neq c 0)) in Eel by done. cbn in Eel.
    by destruct (elem p1). }
  destruct (store_elem e name Hl He3) as [Hn1 Hn2].
  exists e. split_and!; try done.
  - rw -Ee. unfold elems at 1. rw He1 skip_slashes_elems. by destruct e.
  - apply skip_slashes_hd.
  - pose proof (skip_slashes_length rest). apply (f_equal length) in He2. rw length_app in He2.
    destruct e; [done|]. cbn in He2. lia.
Qed.

Lemma skipelem_elems_witness :
  ∃ e, elems (str "///a//bb") = e :: elems (str "bb") ∧ e = str "a".
Proof.
  pose proof (skipelem_elems (str "///a//bb") (replicate 14 0) eq_refl) as H.
  change (skipelem (str "///a//bb") (replicate 14 0)) with (Some (str "bb", str "a" ++ replicate 13 0)) in H.
  cbv beta iota in H. destruct H as (e & He & _ & _ & _ & Hd & _). exists e. split; [exact He|].
  vm_compute in He. injection He as <-. reflexivity.
Defined.
