(* ===== verification/FsDir.v ===== *)
(** * Directories are finite maps (kernel/fs.c: dirlookup, dirlink, iget)

    The entries of a directory stand for a map from names to inode numbers;
    [dirlookup] looks a name up in it and [dirlink] inserts one. *)

From S2P Require Import Prelude Riscv KState Spinlock KString Kalloc Vm Sched Layout Bio Cache Log LogCorrect Txn Fs FsBlocks FsInode FsFile FsPath.
Open Scope Z_scope.

(** ** The map of a directory *)

Definition dent (vw : Z → list Z) (k : inode) (i : Z) : dirent :=
  dec_dirent (fbytes vw (i_addrs k) (i * sizeof_dirent) sizeof_dirent).
Definition dents (vw : Z → list Z) (k : inode) : list dirent :=
  dent vw k <$> seqZ 0 (i_size k / sizeof_dirent).
(** The bindings of the entries in use. *)
Definition bindings (des : list dirent) : list (list Z * Z) :=
  (λ de, (dirname (de_name de), de_inum de)) <$> filter (λ de, de_inum de ≠ 0) des.
Definition dir (vw : Z → list Z) (k : inode) : gmap (list Z) Z := list_to_map (bindings (dents vw k)).

(** The abstract directory: [dirlookup] reads the map, [dirlink] inserts into it
    unless the name is there. *)
Definition spec_lookup (d : gmap (list Z) Z) (name : list Z) : option Z := d !! dirname name.
Definition spec_link (d : gmap (list Z) Z) (name : list Z) (inum : Z) : gmap (list Z) Z * Z :=
  match d !! dirname name with
  | Some _ => (d, -1)
  | None => (<[dirname name := inum]> d, 0)
  end.

Record dir_ok (s : kstate) (k : inode) : Prop := {
  do_type : i_type k = T_DIR;
  do_size : (sizeof_dirent | i_size k);
  do_holes : no_holes s k
}.

Lemma cstr_take s (n : nat) : cstr (take n s) = take n (cstr s).
Proof.
  revert n. induction s as [|c s IH]; intros [|n]; try done. cbn. destruct (c =? 0); [done|]. cbn. by rw IH.
Qed.
Lemma namecmp_dirname a b : namecmp a b = 0 ↔ dirname a = dirname b.
Proof. unfold namecmp, dirname. rw cstr_take_eq !cstr_take. done. Qed.

Lemma dirent_offs_eq s k : dir_ok s k →
  dirent_offs (i_size k) = (λ i, i * sizeof_dirent) <$> seqZ 0 (i_size k / sizeof_dirent).
Proof.
  intros [_ [c Hc] _]. unfold dirent_offs. do 2 f_equal. unfold sizeof_dirent in *. zlia.
Qed.

(** The first entry in use with a name. *)
Definition named (name : list Z) (de : dirent) : Prop := de_inum de ≠ 0 ∧ dirname name = dirname (de_name de).
#[export] Instance named_dec name de : Decision (named name de).
Proof. unfold named. apply _. Defined.

Lemma bindings_cons de des : bindings (de :: des) =
  (if decide (de_inum de ≠ 0) then [(dirname (de_name de), de_inum de)] else []) ++ bindings des.
Proof. unfold bindings. rw filter_cons. by case_decide. Qed.

Lemma bindings_find name des :
  (list_to_map (bindings des) : gmap (list Z) Z) !! dirname name = de_inum ∘ snd <$> list_find (named name) des.
Proof.
  induction des as [|de des IH]; [done|]. rw bindings_cons. cbn [list_find].
  destruct (decide (named name de)) as [[Hn He]|Hn].
  - rw decide_True //. cbn. by rw He lookup_insert_eq.
  - rw -option_fmap_compose /compose. cbn. replace (list_to_map _ !! _) with ((list_to_map (bindings des) : gmap (list Z) Z) !! dirname name).
    + rw IH. by destruct (list_find _ des) as [[]|].
    + case_decide as Hi; [|done]. cbn. rw lookup_insert_ne //. intros E. apply Hn. by split.
Qed.

(** ** The table of inodes *)

(** The entry is in use for inode [inum] of [dev]. *)
Definition holds_inode (dev inum : Z) (k : inode) : Prop := 0 < i_ref k ∧ i_dev k = dev ∧ i_inum k = inum.

Lemma iget_scan_spec dev inum l : ∀ (i : nat) e,
  match iget_scan l i dev inum e with
  | (Some j, _) => ∃ (x : nat) k, j = (i + x)%nat ∧ l !! x = Some k ∧ holds_inode dev inum k
  | (None, e') => Forall (λ k, ¬ holds_inode dev inum k) l ∧
      match e with
      | Some _ => e' = e
      | None => match e' with
                | Some j => ∃ (x : nat) k, j = (i + x)%nat ∧ l !! x = Some k ∧ i_ref k = 0
                | None => Forall (λ k, i_ref k ≠ 0) l
                end
      end
  end.
Proof.
  induction l as [|k l IH]; intros i e; cbn [iget_scan].
  { split; [constructor|]. by destruct e. }
  destruct ((0 <? i_ref k) && (i_dev k =? dev) && (i_inum k =? inum)) eqn:Ek.
  { exists 0%nat, k. apply andb_prop in Ek as [[H1 H2]%andb_prop H3].
    split_and!; [lia|done|]. unfold holds_inode. lia. }
  assert (¬ holds_inode dev inum k) as Hno.
  { intros (H1 & H2 & H3). apply Z.ltb_lt in H1. apply Z.eqb_eq in H2, H3. by rw H1 H2 H3 in Ek. }
  specialize (IH (S i) (match e with None => if i_ref k =? 0 then Some i else None | Some _ => e end)).
  destruct (iget_scan l (S i) dev inum _) as [[j|] e'].
  { destruct IH as (x & k' & -> & Hx & Hk'). exists (S x), k'. split_and!; [lia|done|done]. }
  destruct IH as [Hall IH]. split; [by constructor|]. destruct e as [e0|]; [done|].
  destruct (Z.eqb_spec (i_ref k) 0) as [E0|E0].
  { rw IH. exists 0%nat, k. split_and!; [lia|done|done]. }
  destruct e' as [j|]; [|by constructor]. destruct IH as (x & k' & -> & Hx & Hk').
  exists (S x), k'. split_and!; [lia|done|done].
Qed.

(** The entry [ip] before and after [iget]. *)
Definition igot (dev inum : Z) (t : list inode) (k k' : inode) : Prop :=
  holds_inode dev inum k ∧ k' = set_i_ref (i_ref k + 1) k ∨
  i_ref k = 0 ∧ Forall (λ k, ¬ holds_inode dev inum k) t ∧
    k' = set_i_valid 0 (set_i_ref 1 (set_i_inum inum (set_i_dev dev k))).

Lemma upd_inode_at s t ip k f :
  t !! ip = Some k → upd_inode ip f (set_k_itable t s) = Ret tt (set_k_itable (<[ip := f k]> t) s).
Proof.
  intros Hk. unfold upd_inode, modify. kcbn.
  assert (alter f ip t = <[ip := f k]> t) as ->; [|done]. apply list_eq. intros j.
  destruct (decide (ip = j)) as [<-|Hne].
  - rw list_lookup_alter_eq Hk list_lookup_insert_eq //. by eapply lookup_lt_Some.
  - by rw list_lookup_alter_ne // list_lookup_insert_ne.
Qed.

Lemma iget_ok s dev inum :
  cpu_ok (k_sync s) → lock_free LItable (k_sync s) → Forall (λ k, 0 ≤ i_ref k < 2 ^ 31 - 1) (k_itable s) →
  (∃ ip k k', iget dev inum s = Ret ip (set_k_itable (<[ip := k']> (k_itable s)) s) ∧
     k_itable s !! ip = Some k ∧ igot dev inum (k_itable s) k k') ∨
  (∃ s', iget dev inum s = Stop (Panic "iget: no inodes") s').
Proof.
  intros Hok Hl Ht. unfold iget. mstep (kacquire_free LItable s Hok Hl).
  set (s1 := set_k_sync (acq LItable (k_sync s)) s). msimp. change (k_itable s1) with (k_itable s).
  assert (∀ t', krelease LItable (set_k_itable t' s1) = Ret tt (set_k_itable t' s)) as Hrel.
  { intros t'. rewrite -> (krelease_acq LItable _ (k_sync s)) by done. by destruct s. }
  assert (s1 = set_k_itable (k_itable s) s1) as Es1 by by destruct s.
  pose proof (iget_scan_spec dev inum (k_itable s) 0 None) as Hs. revert Es1 Hrel. generalize s1. intros s2 Es Hrel.
  destruct (iget_scan (k_itable s) 0 dev inum None) as [[ip|] e].
  { destruct Hs as (x & k & -> & Hk & Hh). left. exists x, k, (set_i_ref (i_ref k + 1) k).
    rewrite -> Forall_lookup in Ht. pose proof (Ht _ _ Hk) as Hr. rw Es. rewrite -> (bind_Ret _ _ _ _ _ (upd_inode_at s2 _ x k _ Hk)).
    rewrite -> i32_small by lia. rewrite -> (bind_Ret _ _ _ _ _ (Hrel _)). split_and!; [done|done|]. by left. }
  destruct Hs as [Hall Hs]. destruct e as [ip|].
  2: { right. by eexists. }
  destruct Hs as (x & k & -> & Hk & H0). left.
  exists x, k, (set_i_valid 0 (set_i_ref 1 (set_i_inum inum (set_i_dev dev k)))).
  assert (x < length (k_itable s))%nat as Hx by by eapply lookup_lt_Some.
  rw Es. rewrite -> (bind_Ret _ _ _ _ _ (upd_inode_at s2 _ x k _ Hk)).
  repeat (rewrite -> (bind_Ret _ _ _ _ _ (upd_inode_at s2 _ x _ _ (list_lookup_insert_eq _ x _ ltac:(rw ?length_insert; exact Hx))));
    rewrite -> ?list_insert_insert_eq).
  rewrite -> (bind_Ret _ _ _ _ _ (Hrel _)). split_and!; [done|done|]. by right.
Qed.

(** ** Reading the entries *)

Lemma same_dent s s' k i : op_same s s' → dent (view s') k i = dent (view s) k i.
Proof. intros Hs. unfold dent. by rw (same_fbytes s s' _ _ _ (op_same_blocks _ _ Hs)). Qed.
Lemma same_dir s s' k : op_same s s' → dir (view s') k = dir (view s) k.
Proof.
  intros Hs. unfold dir, dents. do 2 f_equal. apply list_fmap_ext. intros ? i _. by apply same_dent.
Qed.
Lemma same_dir_ok s s' k : same_blocks s s' → dir_ok s k → dir_ok s' k.
Proof.
  intros Hs [H1 H2 [H3 H4]]. split; [done|done|]. split; [done|]. intros bn Hb1 Hb2.
  rw (same_slot s s' Hs). by apply H4.
Qed.

Section dir.
Context (p : nat) (q : proc).
Abbreviation ino_env := (ino_env p q).

Lemma read_dirent_ok s n0 W dp k msg i :
  ino_env s n0 W [] dp k → dir_ok s k → 0 ≤ i < i_size k / sizeof_dirent →
  ∃ s', read_dirent msg dp (i * sizeof_dirent) s = Ret (dent (view s) k i) s' ∧
    ino_env s' n0 W [] dp k ∧ op_same s s'.
Proof.
  intros Hie [_ [c Hc] Hnh] Hi. pose proof (proj1 Hnh) as Hsz. rw MAXBYTES_eq in Hsz.
  assert (i * 16 + 16 ≤ i_size k) as Hle by (unfold sizeof_dirent in *; zlia).
  destruct (readi_ok p q s n0 W dp k [] (i * sizeof_dirent) sizeof_dirent Hie Hnh) as (s' & E & Hie' & Hs');
    try (unfold sizeof_dirent in *; lia).
  exists s'. split_and!; try done. unfold read_dirent. mstep E.
  rewrite -> Z.min_l by (unfold sizeof_dirent in *; lia). done.
Qed.

(** A loop over the entries that stops at the first with [P]. *)
Lemma scan_entries {R} (P : dirent → Prop) `{HP : !∀ de, Decision (P de)} (f : dirent → Z → KM (option R)) msg dp k n0 W :
  (∀ de off s, ¬ P de → f de off s = Ret None s) →
  ∀ (ls : list Z) s, ino_env s n0 W [] dp k → dir_ok s k → Forall (λ i, 0 ≤ i < i_size k / sizeof_dirent) ls →
  let body := λ off, de ← read_dirent msg dp off; f de off in
  ∃ s', ino_env s' n0 W [] dp k ∧ op_same s s' ∧
  match list_find P (dent (view s) k <$> ls) with
  | None => forM ((λ i, i * sizeof_dirent) <$> ls) body s = Ret None s'
  | Some (j, de) => ∃ i g, ls !! j = Some i ∧ forM ((λ i, i * sizeof_dirent) <$> ls) body s =
      (r ← f de (i * sizeof_dirent); match r with Some r => mret (Some r) | None => g end) s'
  end.
Proof.
  intros Hf. induction ls as [|i ls IH]; intros s Hie Hd Hls.
  { exists s. split; [done|]. split; [|done]. split_and!; [done|apply op_frame_refl|done]. }
  apply Forall_cons in Hls as [Hi Hls]. cbn zeta in *. cbn [fmap list_fmap forM list_find].
  destruct (read_dirent_ok s n0 W dp k msg i Hie Hd Hi) as (s1 & E1 & Hie1 & Hs1).
  destruct (decide (P (dent (view s) k i))) as [Hy|Hy].
  { exists s1. split_and!; try done. eexists i, _. split; [done|]. by rewrite -> (bind_assoc _ _ _ _ _ _ E1). }
  destruct (IH s1 Hie1 (same_dir_ok _ _ _ (op_same_blocks _ _ Hs1) Hd) Hls) as (s2 & Hie2 & Hs2 & H).
  exists s2. split; [done|]. split; [by eapply op_same_trans|].
  replace (dent (view s1) k <$> ls) with (dent (view s) k <$> ls) in H
    by (apply list_fmap_ext; intros ? j _; symmetry; by apply same_dent).
  assert (∀ g : KM (option R), (r ← (de ← read_dirent msg dp (i * sizeof_dirent); f de (i * sizeof_dirent));
    match r with Some r => mret (Some r) | None => g end) s = g s1) as Estep.
  { intros g. rewrite -> (bind_assoc _ _ _ _ _ _ E1). by mstep (Hf _ (i * sizeof_dirent) s1 Hy). }
  rw Estep. destruct (list_find P (dent (view s) k <$> ls)) as [[j de]|]; cbn; [|done].
  destruct H as (i' & g & Hi' & E). by exists i', g.
Qed.
End dir.

(** ** The bindings of changed entries *)

Lemma bindings_app l r : bindings (l ++ r) = bindings l ++ bindings r.
Proof. unfold bindings. by rw filter_app fmap_app. Qed.

Lemma bindings_insert name de l r :
  de_inum de ≠ 0 → dirname (de_name de) = dirname name →
  (list_to_map (bindings (l ++ r)) : gmap (list Z) Z) !! dirname name = None →
  (list_to_map (bindings (l ++ de :: r)) : gmap (list Z) Z) =
    <[dirname name := de_inum de]> (list_to_map (bindings (l ++ r))).
Proof.
  intros H0 En Hno. rw !bindings_app bindings_cons decide_True // En. cbn [app].
  rw bindings_app in Hno. rw !list_to_map_app in Hno |- *. cbn. symmetry. apply insert_union_r.
  by apply lookup_union_None in Hno as [? _].
Qed.

Lemma bindings_unused de l r : de_inum de = 0 → bindings (l ++ de :: r) = bindings (l ++ r).
Proof. intros H0. rw !bindings_app bindings_cons decide_False //. by intros []. Qed.

Lemma cstr_pad s (m : nat) : cstr (cstr s ++ replicate m 0) = cstr s.
Proof.
  induction s as [|c s IH]; [by destruct m|]. cbn. destruct (Z.eqb_spec c 0) as [->|Hc]; [by destruct m|].
  cbn. rewrite -> (proj2 (Z.eqb_neq c 0)) by done. by rw IH.
Qed.

(** The name that [dirlink] stores. *)
Lemma dirlink_name name :
  let nm := strncpy (replicate 14 0) name DIRSIZ in length nm = 14%nat ∧ dirname nm = dirname name.
Proof.
  cbv zeta. unfold strncpy, DIRSIZ. change (Z.to_nat 14) with 14%nat.
  rw strncpy_loop_eq; [|by rw length_replicate].
  rewrite -> (drop_ge (replicate 14 0)), app_nil_r by (by rw length_replicate).
  assert (length (take 14 (cstr name)) ≤ 14)%nat as Hl by (rw length_take; lia). split.
  - rw length_app length_replicate. lia.
  - unfold dirname, DIRSIZ. change (Z.to_nat 14) with 14%nat.
    rw take_ge; [|rw length_app length_replicate; lia]. rw -cstr_take. apply cstr_pad.
Qed.

(** ** An entry written *)

Section link.
Context (s s' : kstate) (dp : nat) (k k' : inode) (de : dirent) (i : Z).
Context (Hd : dir_ok s k) (Hi : 0 ≤ i ≤ i_size k / sizeof_dirent) (Hroom : i_size k + sizeof_dirent ≤ MAXBYTES).
Context (Hde : 0 ≤ de_inum de < 65536) (Hnm : length (de_name de) = 14%nat).
Context (Hw : written s dp k (i * sizeof_dirent) (enc_dirent de) s' k').

Lemma length_enc_dirent : length (enc_dirent de) = 16%nat.
Proof. unfold enc_dirent. by rw length_app length_le_enc Hnm. Qed.

Lemma link_dent j :
  0 ≤ j ≤ i_size k / sizeof_dirent → dent (view s') k' j = if decide (j = i) then de else dent (view s) k j.
Proof.
  intros Hj. pose proof MAXBYTES_eq as HM. unfold dent, fbytes.
  assert (∀ x, x ∈ seqZ (j * sizeof_dirent) sizeof_dirent →
    fbyte (view s') (i_addrs k') x = overwrite (fbyte (view s) (i_addrs k)) (i * sizeof_dirent) (enc_dirent de) x) as Hx.
  { intros x Hx. apply elem_of_seqZ in Hx. apply (wn_bytes _ _ _ _ _ _ _ Hw). unfold sizeof_dirent in *. zlia. }
  case_decide as E.
  - subst j. transitivity (dec_dirent (enc_dirent de ++ [])); [|by apply dec_enc_dirent]. rw app_nil_r. f_equal.
    apply list_eq. intros x. rw list_lookup_fmap. destruct (decide (x < 16)%nat) as [Hlt|Hge].
    + rw lookup_seqZ_lt; [|unfold sizeof_dirent; lia]. cbn [fmap option_fmap option_map].
      rw Hx; [|apply elem_of_seqZ; unfold sizeof_dirent; lia]. unfold overwrite. rw length_enc_dirent.
      rw decide_True; [|lia]. rw list_lookup_lookup_total_lt; [|rw length_enc_dirent; lia]. do 2 f_equal. lia.
    + rw lookup_seqZ_ge; [|unfold sizeof_dirent; lia]. symmetry. apply lookup_ge_None. rw length_enc_dirent. lia.
  - f_equal. apply list_fmap_ext. intros y x Hy. rw Hx; [|by eapply list_elem_of_lookup_2]. unfold overwrite.
    rw length_enc_dirent decide_False //. apply list_elem_of_lookup_2, elem_of_seqZ in Hy. unfold sizeof_dirent in *. lia.
Qed.

Lemma link_size : i_size k' = Z.max (i_size k) (i * sizeof_dirent + sizeof_dirent).
Proof. rw (wn_size _ _ _ _ _ _ _ Hw) length_enc_dirent. done. Qed.

Lemma link_ok : dir_ok s' k'.
Proof.
  destruct Hd as [H1 [c Hc] _]. split.
  - rw (wn_same _ _ _ _ _ _ _ Hw). done.
  - rw link_size. destruct (Z.max_spec (i_size k) (i * sizeof_dirent + sizeof_dirent)) as [[_ ->]|[_ ->]].
    + exists (i + 1). lia.
    + by exists c.
  - apply (wn_holes _ _ _ _ _ _ _ Hw).
Qed.

(** The entry [i] is overwritten, or appended when it is the first beyond the
    last. *)
Lemma link_dents : ∃ l r, dents (view s') k' = l ++ de :: r ∧
  dents (view s) k = if decide (i < i_size k / sizeof_dirent) then l ++ dent (view s) k i :: r else l ++ r.
Proof.
  destruct Hd as [_ [c Hc] [Hsz _]]. set (m := i_size k / sizeof_dirent) in *.
  exists (dent (view s) k <$> seqZ 0 i), (dent (view s) k <$> seqZ (i + 1) (m - i - 1)). unfold dents.
  assert (∀ a n, 0 ≤ a → a + n ≤ m → i < a ∨ a + n ≤ i → dent (view s') k' <$> seqZ a n = dent (view s) k <$> seqZ a n) as He.
  { intros a n Ha Hn Hin. apply list_fmap_ext. intros y x Hy. apply list_elem_of_lookup_2, elem_of_seqZ in Hy.
    rw link_dent; [|unfold m in *; lia]. rw decide_False //. lia. }
  assert (∀ n, i < n → seqZ 0 n = seqZ 0 i ++ i :: seqZ (i + 1) (n - i - 1)) as Hsplit.
  { intros n Hn. replace n with (i + (1 + (n - i - 1))) at 1 by lia. rw seqZ_app; [|lia|lia].
    rw (seqZ_app (0 + i) 1); [|lia|lia]. cbn. do 3 f_equal; lia. }
  assert (i_size k' / sizeof_dirent = Z.max m (i + 1)) as Em.
  { rw link_size. unfold m, sizeof_dirent in *. zlia. }
  rw Em. case_decide as Hlt.
  - rw Z.max_l; [|lia]. rw (Hsplit m) // !fmap_app !fmap_cons. split; [|done].
    rw !He; try lia. rw link_dent; [|unfold m in *; lia]. by rw decide_True.
  - assert (i = m) as Ei by lia. rw Z.max_r; [|lia]. rw (Hsplit (i + 1)); [|lia].
    rewrite -> !(seqZ_nil _ (m - i - 1)), !(seqZ_nil _ (i + 1 - i - 1)) by lia.
    rw fmap_app fmap_cons !fmap_nil app_nil_r. rw He; try lia. rw link_dent; [|unfold m in *; lia].
    rw decide_True //. split; [done|]. by rw Ei.
Qed.
End link.

(** ** dirlookup and dirlink *)

Lemma iput_ref s t ip k :
  cpu_ok (k_sync s) → lock_free LItable (k_sync s) → t !! ip = Some k → 0 < i_ref k < 2 ^ 31 →
  1 < i_ref k ∨ i_valid k = 0 →
  iput ip (set_k_itable t s) = Ret tt (set_k_itable (<[ip := set_i_ref (i_ref k - 1) k]> t) s).
Proof.
  intros Hok Hl Hk Hr Hv. unfold iput. mstep (kacquire_free LItable (set_k_itable t s) Hok Hl).
  set (s1 := set_k_sync (acq LItable (k_sync s)) s). change (set_k_sync _ _) with (set_k_itable t s1).
  assert (∀ t', krelease LItable (set_k_itable t' s1) = Ret tt (set_k_itable t' s)) as Hrel.
  { intros t'. rewrite -> (krelease_acq LItable _ (k_sync s)) by done. by destruct s. }
  revert Hrel. generalize s1. intros s2 Hrel. rewrite -> (bind_Ret _ _ _ _ _ (get_inode_ok (set_k_itable t s2) ip k Hk)).
  replace ((i_ref k =? 1) && negb (i_valid k =? 0) && (i_nlink k =? 0)) with false.
  2: { destruct Hv as [Hv|Hv]; [by rewrite -> (proj2 (Z.eqb_neq (i_ref k) 1)) by lia|]. rw Hv. by destruct (i_ref k =? 1). }
  cbn [whenM]. msimp. rewrite -> (bind_Ret _ _ _ _ _ (upd_inode_at s2 _ ip k _ Hk)).
  rewrite -> i32_small by lia. apply Hrel.
Qed.

Lemma set_ref_id k m n : n = i_ref k → set_i_ref n (set_i_ref m k) = k.
Proof. intros ->. by destruct k. Qed.

Section dirops.
Context (p : nat) (q : proc).
Abbreviation ino_env := (ino_env p q).
Context (s : kstate) (n0 : nat) (W : gset Z) (dp : nat) (k : inode) (name : list Z).
Context (Hie : ino_env s (2 + n0) W [] dp k) (Hd : dir_ok s k).
Context (Hrefs : Forall (λ k, 0 ≤ i_ref k < 2 ^ 31 - 1) (k_itable s)).

Lemma offs_seq : dirent_offs (i_size k) = (λ i, i * sizeof_dirent) <$> seqZ 0 (i_size k / sizeof_dirent).
Proof. by apply (dirent_offs_eq s). Qed.
Lemma seq_range : Forall (λ i, 0 ≤ i < i_size k / sizeof_dirent) (seqZ 0 (i_size k / sizeof_dirent)).
Proof. apply Forall_forall. intros i Hi. apply elem_of_seqZ in Hi. lia. Qed.

(** The body of the loop of [dirlookup]. *)
Definition lookup_step (de : dirent) (off : Z) : KM (option (nat * Z)) :=
  if de_inum de =? 0 then mret None else
  if namecmp name (de_name de) =? 0 then
    ip ← iget (i_dev k) (de_inum de);
    mret (Some (ip, off))
  else mret None.

Lemma lookup_skip de off s0 : ¬ named name de → lookup_step de off s0 = Ret None s0.
Proof.
  intros Hn. unfold lookup_step. destruct (Z.eqb_spec (de_inum de) 0) as [E|E]; [done|].
  destruct (Z.eqb_spec (namecmp name (de_name de)) 0) as [E'|E']; [|done].
  exfalso. apply Hn. split; [done|]. by apply namecmp_dirname.
Qed.

Lemma dirlookup_scan : ∃ s', ino_env s' (2 + n0) W [] dp k ∧ op_same s s' ∧
  match list_find (named name) (dents (view s) k) with
  | None => dirlookup dp name s = Ret None s'
  | Some (j, de) => named name de ∧ ∃ g, dirlookup dp name s =
      (r ← lookup_step de (Z.of_nat j * sizeof_dirent); match r with Some r => mret (Some r) | None => g end) s'
  end.
Proof.
  destruct (scan_entries p q (named name) lookup_step "dirlookup read" dp k (2 + n0) W lookup_skip _ s Hie Hd seq_range)
    as (s' & Hie' & Hs' & H).
  exists s'. split_and!; [done|done|]. fold (dents (view s) k) in H.
  assert (dirlookup dp name s = forM ((λ i, i * sizeof_dirent) <$> seqZ 0 (i_size k / sizeof_dirent))
    (λ off, de ← read_dirent "dirlookup read" dp off; lookup_step de off) s) as E.
  { unfold dirlookup. mstep (get_inode_ok s dp k (ie_inode _ _ _ _ _ _ _ _ Hie)).
    rewrite -> (do_type _ _ Hd). cbn [Z.eqb Pos.eqb T_DIR negb]. by rw offs_seq. }
  rw E. destruct (list_find (named name) (dents (view s) k)) as [[j de]|] eqn:Ef; [|done].
  destruct H as (i & g & Hi & H). split; [by eapply list_find_Some in Ef as (_ & ? & _)|].
  apply lookup_seqZ in Hi as [-> _]. exists g. exact H.
Qed.

Lemma dirlookup_miss :
  dir (view s) k !! dirname name = None →
  ∃ s', dirlookup dp name s = Ret None s' ∧ ino_env s' (2 + n0) W [] dp k ∧ op_same s s'.
Proof.
  intros Hno. destruct dirlookup_scan as (s' & Hie' & Hs' & H). unfold dir in Hno. rw bindings_find in Hno.
  destruct (list_find _ _) as [[]|]; [done|]. by exists s'.
Qed.

Lemma dirlookup_hit inum :
  dir (view s) k !! dirname name = Some inum →
  ∃ s1 j de, op_same s s1 ∧ k_sync s1 = k_sync s ∧ k_itable s1 = k_itable s ∧
  list_find (named name) (dents (view s) k) = Some (j, de) ∧
  let off := Z.of_nat j * sizeof_dirent in
  ((∃ ip ki ki', dirlookup dp name s = Ret (Some (ip, off)) (set_k_itable (<[ip := ki']> (k_itable s)) s1) ∧
      k_itable s !! ip = Some ki ∧ igot ROOTDEV inum (k_itable s) ki ki') ∨
   (∃ s', dirlookup dp name s = Stop (Panic "iget: no inodes") s')).
Proof.
  intros Hin. destruct dirlookup_scan as (s' & Hie' & Hs' & H). unfold dir in Hin. rw bindings_find in Hin.
  destruct (list_find _ _) as [[j de]|]; [|done]. cbn in Hin. injection Hin as Hin.
  destruct H as ([Hn0 Hnm] & g & E).
  assert (k_sync s' = k_sync s ∧ k_itable s' = k_itable s) as [Ey Et].
  { destruct Hs' as (_ & (bs & sl & gg & ->) & _). done. }
  exists s', j, de. split_and!; [done|done|done|done|]. intros off.
  assert (∃ g', dirlookup dp name s = (r ← (ip ← iget ROOTDEV inum; mret (Some (ip, off))); match r with Some r => mret (Some r) | None => g' end) s') as [g' E'].
  { exists g. rw E. unfold lookup_step. rewrite -> (proj2 (Z.eqb_neq _ _) Hn0).
    rewrite -> (proj2 (namecmp_dirname _ _) Hnm). by rw (ie_dev _ _ _ _ _ _ _ _ Hie) Hin. }
  pose proof (oe_env _ _ _ _ _ _ (ie_op _ _ _ _ _ _ _ _ Hie')) as Hb. pose proof (be_env Hb) as Hfe.
  destruct (iget_ok s' ROOTDEV inum (fe_ok Hfe)) as [(ip & ki & ki' & Eg & Hki & Hg)|(s2 & Eg)].
  - by apply (fe_locks Hfe).
  - by rw Et.
  - left. exists ip, ki, ki'. rw -Et. split_and!; [|done|done]. rw E'. by rewrite -> (bind_assoc _ _ _ _ _ _ Eg).
  - right. exists s2. rw E'. cbn. unfold mbind, M_bind. by rw Eg.
Qed.

(** The entry that [dirlink] writes: the first unused one, or a new one. *)
Lemma dirlink_scan s1 :
  ino_env s1 (2 + n0) W [] dp k → dir_ok s1 k →
  ∃ s' i, ino_env s' (2 + n0) W [] dp k ∧ op_same s1 s' ∧ 0 ≤ i ≤ i_size k / sizeof_dirent ∧
    (i < i_size k / sizeof_dirent → de_inum (dent (view s1) k i) = 0) ∧
    ∃ r, forM (dirent_offs (i_size k)) (λ off,
        de ← read_dirent "dirlink read" dp off;
        mret (if de_inum de =? 0 then Some off else None)) s1 = Ret r s' ∧
      match r with
      | Some off => off
      | None => (i_size k + sizeof_dirent - 1) / sizeof_dirent * sizeof_dirent
      end = i * sizeof_dirent.
Proof.
  intros Hie1 Hd1. rw offs_seq.
  destruct (scan_entries p q (λ de, de_inum de = 0) (λ de off, mret (if de_inum de =? 0 then Some off else None))
    "dirlink read" dp k (2 + n0) W) with (ls := seqZ 0 (i_size k / sizeof_dirent)) (s := s1) as (s' & Hie' & Hs' & H).
  { intros de off s0 Hne. by rewrite -> (proj2 (Z.eqb_neq _ _) Hne). }
  1,2: done. { apply seq_range. }
  destruct (do_size _ _ Hd) as [c Hc]. pose proof (proj1 (do_holes _ _ Hd)) as Hsz.
  destruct (list_find _ _) as [[j de]|] eqn:Ef.
  - destruct H as (i & g & Hi & E). apply list_find_Some in Ef as (Hj & H0 & _).
    rw list_lookup_fmap Hi in Hj. injection Hj as Hj. apply list_elem_of_lookup_2, elem_of_seqZ in Hi.
    exists s', i. split_and!; [done|done|lia|lia|by rw Hj|].
    rw H0 in E. cbn in E. eexists. by split; [exact E|].
  - exists s', (i_size k / sizeof_dirent). split_and!; [done|done| |lia|lia|].
    + unfold sizeof_dirent. zlia.
    + exists None. split; [done|]. unfold sizeof_dirent in *. zlia.
Qed.

Lemma op_same_fields s' : op_same s s' → inode_fields s k → inode_fields s' k ∧ k_sb s' = k_sb s ∧ k_itable s' = k_itable s.
Proof.
  intros (Hv & (bs & sl & g & ->) & _) [H1 H2 H3 H4 H5 H6]. split; [|done]. split; try done.
  change (k_sb _) with (k_sb s). by rw Hv.
Qed.

Lemma dirlink_miss inum :
  IBLOCK (i_inum k) (k_sb s) ∈ W → inode_fields s k → 0 < inum < 65536 → i_size k + sizeof_dirent ≤ MAXBYTES →
  dir (view s) k !! dirname name = None →
  (∃ s' k', dirlink dp name inum s = Ret 0 s' ∧ k_itable s' = <[dp := k']> (k_itable s) ∧ dir_ok s' k' ∧
     dir (view s') k' = <[dirname name := inum]> (dir (view s) k)) ∨
  (∃ s', dirlink dp name inum s = Stop (Panic "balloc: out of blocks") s').
Proof.
  intros HW Hif Hin Hroom Hno. destruct (dirlookup_miss Hno) as (s1 & E1 & Hie1 & Hs1).
  pose proof (same_dir_ok _ _ _ (op_same_blocks _ _ Hs1) Hd) as Hd1.
  destruct (dirlink_scan s1 Hie1 Hd1) as (s2 & i & Hie2 & Hs2 & Hi & H0 & r & E2 & Er).
  set (de := Dirent (u16 inum) (strncpy (replicate 14 0) name DIRSIZ)).
  destruct (dirlink_name name) as [Hl Hn].
  assert (dirlink dp name inum s = (r ← writei dp (AVar (enc_dirent de)) (i * sizeof_dirent) sizeof_dirent;
    if negb (r =? sizeof_dirent) then panic "dirlink" else mret 0) s2) as E.
  { unfold dirlink. mstep E1. mstep (get_inode_ok s1 dp k (ie_inode _ _ _ _ _ _ _ _ Hie1)). mstep E2. by rw Er. }
  pose proof (op_same_trans _ _ _ Hs1 Hs2) as Hs. destruct (op_same_fields s2 Hs Hif) as (Hif2 & Esb & Et).
  pose proof (same_dir_ok _ _ _ (op_same_blocks _ _ Hs) Hd) as Hd2. pose proof (length_enc_dirent de Hl) as Hlen.
  destruct (do_size _ _ Hd) as [c Hc]. pose proof (do_holes _ _ Hd2) as Hnh2.
  assert (0 ≤ i * 16 ≤ i_size k) as Hoff by (unfold sizeof_dirent in *; zlia).
  destruct (writei_ok p q s2 n0 W dp k (i * sizeof_dirent) (enc_dirent de)) as [(s3 & W3 & k3 & E3 & _ & _ & Hw)|(s3 & E3)];
    rw ?Hlen ?Esb; try done; try (unfold sizeof_dirent in *; lia).
  { replace (iters _ _ _) with 1; [done|]. unfold iters, sizeof_dirent, BSIZE. change (0 <? Z.of_nat 16) with true. cbv iota. zlia. }
  2: { right. exists s3. rw E. rw Hlen in E3. by rewrite -> (bind_Stop _ _ _ _ _ E3). }
  left. exists s3, k3. rw Hlen in E3. split; [rw E; by mstep E3|]. rw -Et.
  split; [apply (wn_inode _ _ _ _ _ _ _ Hw)|].
  assert (0 ≤ de_inum de < 65536) as Hde by (cbn; rewrite -> u16_small by lia; lia).
  split; [by apply (link_ok s2 s3 dp k k3 de i)|].
  destruct (link_dents s2 s3 dp k k3 de i) as (l & r' & El & Ek); try done.
  rw -(same_dir s s2) // in Hno |- *. unfold dir in *. rw El.
  assert (list_to_map (bindings (dents (view s2) k)) = (list_to_map (bindings (l ++ r')) : gmap (list Z) Z)) as Eb.
  { rw Ek. case_decide as Hlt; [|done]. rw bindings_unused //. rw (same_dent s1 s2) //. by apply H0. }
  rw Eb in Hno |- *. replace inum with (de_inum de) by (cbn; by rewrite -> u16_small by lia).
  apply bindings_insert; [cbn; rewrite -> u16_small by lia; lia|done|done].
Qed.

Lemma dirlink_hit inum i :
  0 < i_ref k → dir (view s) k !! dirname name = Some i →
  (∃ s', dirlink dp name inum s = Ret (-1) s' ∧ k_itable s' !! dp = Some k ∧ same_blocks s s') ∨
  (∃ s', dirlink dp name inum s = Stop (Panic "iget: no inodes") s').
Proof.
  intros Hk Hin. pose proof (ie_inode _ _ _ _ _ _ _ _ Hie) as Hdp.
  pose proof (be_env (oe_env _ _ _ _ _ _ (ie_op _ _ _ _ _ _ _ _ Hie))) as Hfe.
  destruct (dirlookup_hit i Hin) as (s1 & j & de & Hs1 & Ey & Et & _ & [(ip & ki & ki' & E & Hki & Hg)|(s' & E)]).
  2: { right. exists s'. unfold dirlink. by rewrite -> (bind_Stop _ _ _ _ _ E). }
  left. assert (ip < length (k_itable s))%nat as Hlt by by eapply lookup_lt_Some.
  rewrite -> Forall_lookup in Hrefs. pose proof (Hrefs _ _ Hki) as Hr.
  assert (0 < i_ref ki' < 2 ^ 31 ∧ (1 < i_ref ki' ∨ i_valid ki' = 0)) as [Hr' Hv].
  { destruct Hg as [[[Hp _] ->]|(_ & _ & ->)]; cbn; lia. }
  exists (set_k_itable (<[ip := set_i_ref (i_ref ki' - 1) ki']> (k_itable s)) s1). split_and!.
  - unfold dirlink. mstep E. rewrite -> (bind_Ret _ _ _ _ _ (iput_ref s1 _ ip ki' ltac:(rw Ey; apply (fe_ok Hfe))
      ltac:(rw Ey; by apply (fe_locks Hfe)) (list_lookup_insert_eq _ _ _ Hlt) Hr' Hv)).
    by rw list_insert_insert_eq.
  - kcbn. destruct (decide (ip = dp)) as [->|Hne]; [|by rw list_lookup_insert_ne].
    rw list_lookup_insert_eq //. rw Hdp in Hki. injection Hki as <-.
    destruct Hg as [[_ ->]|(H0 & _)]; [|lia]. f_equal. apply set_ref_id. cbn. lia.
  - destruct (op_same_blocks _ _ Hs1) as [E1 E2]. by split.
Qed.
End dirops.

(** What [dirlookup] answers when the map has [i] for the name: the offset of the
    first entry in use with the name, and entry [ip] of the inode table, on
    which it has taken a reference: one more, or the first one when no entry held
    the inode. The rest of the table is as it was. *)
Definition found (s : kstate) (k : inode) (name : list Z) (i : Z) (ip : nat) (off : Z) (s' : kstate) : Prop :=
  (∃ j de, list_find (named name) (dents (view s) k) = Some (j, de) ∧ de_inum de = i ∧
     off = Z.of_nat j * sizeof_dirent) ∧
  ∃ ki ki', k_itable s !! ip = Some ki ∧ igot ROOTDEV i (k_itable s) ki ki' ∧
    k_itable s' = <[ip := ki']> (k_itable s).


(** *** An empty directory, for the witness *)

Definition dir0 : inode := set_i_type T_DIR file0.
Definition kst5 : kstate := set_k_itable [dir0] kst4.

Lemma ino_env_kst5 : ino_env 0 (proc1 0) kst5 8 W4 [] 0 dir0.
Proof. exact (ino_env_set 0 (proc1 0) kst4 8 W4 0 file0 dir0 ino_env_kst4 eq_refl eq_refl). Qed.
Lemma dirlink_runs : match dirlink 0 [97] 2 kst5 with Ret r _ => r | _ => -1 end = 0.
Proof. by vm_compute. Qed.

