(* ===== verification/Uart.v ===== *)
(** * The serial port (kernel/uart.c)

    The device is what its registers read: the successive values of LSR are
    the list [in_lsr], after which it is idle without input, and those of RHR
    the list [in_rhr]. Every write to a register is appended to [out_regs];
    [sent] is the sequence of bytes that the device transmits, which are the
    writes to THR outside the mode that sets the baud rate. *)

From S2P Require Import Prelude Riscv KState Spinlock Sched.
Open Scope Z_scope.

(** ** Registers *)

Definition RHR : Z := 0.
Definition THR : Z := 0.
Definition IER : Z := 1.
Definition IER_RX_ENABLE : Z := Z.shiftl 1 0.
Definition IER_TX_ENABLE : Z := Z.shiftl 1 1.
Definition FCR : Z := 2.
Definition FCR_FIFO_ENABLE : Z := Z.shiftl 1 0.
Definition FCR_FIFO_CLEAR : Z := Z.shiftl 3 1.
Definition ISR : Z := 2.
Definition LCR : Z := 3.
Definition LCR_EIGHT_BITS : Z := Z.shiftl 3 0.
Definition LCR_BAUD_LATCH : Z := Z.shiftl 1 7.
Definition LSR : Z := 5.
Definition LSR_RX_READY : Z := Z.shiftl 1 0.
Definition LSR_TX_IDLE : Z := Z.shiftl 1 5.
Definition UART_TX_BUF_SIZE : Z := 32.

Definition get_uart : KM uartst := gets k_uart.
Definition upd_uart (f : uartst → uartst) : KM unit := modify (λ s, set_k_uart (f (k_uart s)) s).

Definition ReadReg (reg : Z) : KM Z :=
  u ← get_uart;
  if reg =? LSR then
    match in_lsr u with
    | [] => mret LSR_TX_IDLE
    | x :: l => upd_uart (set_in_lsr l) ;; mret x
    end
  else if reg =? RHR then
    match in_rhr u with
    | [] => mret 0
    | x :: l => upd_uart (set_in_rhr l) ;; mret x
    end
  else mret 0.
Definition WriteReg (reg v : Z) : KM unit :=
  upd_uart (λ u, set_out_regs (out_regs u ++ [(reg, u8 v)]) u).

(** ** uart.c *)

Definition uartinit : KM unit :=
  WriteReg IER 0x00 ;;
  WriteReg LCR LCR_BAUD_LATCH ;;
  WriteReg 0 0x03 ;;
  WriteReg 1 0x00 ;;
  WriteReg LCR LCR_EIGHT_BITS ;;
  WriteReg FCR (Z.lor FCR_FIFO_ENABLE FCR_FIFO_CLEAR) ;;
  WriteReg IER (Z.lor IER_TX_ENABLE IER_RX_ENABLE) ;;
  kinitlock LUart "uart".

(** One iteration of the loop of [uartstart]. *)
Definition uartstart_body (_ : unit) : KM (unit + unit) :=
  u ← get_uart;
  if tx_w u =? tx_r u then mret (inr tt) else
  lsr ← ReadReg LSR;
  if Z.land lsr LSR_TX_IDLE =? 0 then mret (inr tt) else
  let c := zget (tx_buf u) (tx_r u mod UART_TX_BUF_SIZE) in
  upd_uart (λ u, set_tx_r (u64 (tx_r u + 1)) u) ;;
  wakeup CUartR ;;
  WriteReg THR c ;;
  mret (inl tt).
(** The buffer holds [tx_w - tx_r] characters, and each iteration but the last
    sends one. *)
Definition uartstart : KM unit :=
  u ← get_uart;
  loopM (S (Z.to_nat (u64 (tx_w u - tx_r u)))) uartstart_body tt.

Definition uartputc_body (c : Z) (_ : unit) : KM (unit + unit) :=
  u ← get_uart;
  if tx_w u =? u64 (tx_r u + UART_TX_BUF_SIZE) then
    sleep CUartR LUart ;; mret (inl tt)
  else
    upd_uart (λ u, set_tx_buf (zset (tx_buf u) (tx_w u mod UART_TX_BUF_SIZE) (u8 c)) u) ;;
    upd_uart (λ u, set_tx_w (u64 (tx_w u + 1)) u) ;;
    uartstart ;;
    krelease LUart ;;
    mret (inr tt).
Definition uartputc (c : Z) : KM unit :=
  kacquire LUart ;;
  panicked ← gets k_panicked;
  if negb (panicked =? 0) then stop_with Spin else
  fuel ← gets k_fuel;
  loopM fuel (uartputc_body c) tt.

(** [while((ReadReg(LSR) & LSR_TX_IDLE) == 0);]: at the latest the read after
    the last value of [in_lsr] finds the device idle. *)
Definition wait_idle : KM unit :=
  u ← get_uart;
  loopM (S (length (in_lsr u))) (λ _ : unit,
    lsr ← ReadReg LSR;
    mret (if Z.land lsr LSR_TX_IDLE =? 0 then inl tt else inr tt)) tt.
Definition uartputc_sync (c : Z) : KM unit :=
  sy push_off ;;
  panicked ← gets k_panicked;
  if negb (panicked =? 0) then stop_with Spin else
  wait_idle ;;
  WriteReg THR c ;;
  sy pop_off.

Definition uartgetc : KM Z :=
  lsr ← ReadReg LSR;
  if negb (Z.land lsr 0x01 =? 0) then ReadReg RHR else mret (-1).

(** ** What the device transmits *)

(** The bytes of the writes [l], [latch] telling whether the device is in the
    mode that sets the baud rate. *)
Fixpoint thr_bytes (latch : bool) (l : list (Z * Z)) : list Z :=
  match l with
  | [] => []
  | (reg, v) :: l =>
      if reg =? LCR then thr_bytes (negb (Z.land v LCR_BAUD_LATCH =? 0)) l
      else if (reg =? THR) && negb latch then v :: thr_bytes latch l
      else thr_bytes latch l
  end.
Definition sent (s : kstate) : list Z := thr_bytes false (out_regs (k_uart s)).
