(* ===== verification/KPrintf.v ===== *)
(** * Formatted output of the kernel (kernel/printf.c)

    [printf] takes its variable arguments as a list of [arg]s. [panic] of
    printf.c prints its message and freezes the machine; the other files use
    the [panic] of the monad, which is its effect on the calling thread.
    [consputc] of console.c and [procdump] of proc.c are here too, since
    [printf] calls the one and the other calls [printf]. *)

From S2P Require Import Prelude Riscv KState Spinlock Sched Uart.
Open Scope Z_scope.

Definition BACKSPACE : Z := 0x100.
(** [consputc] of kernel/console.c. *)
Definition consputc (c : Z) : KM unit :=
  if c =? BACKSPACE then
    uartputc_sync 8 ;; uartputc_sync 32 ;; uartputc_sync 8
  else uartputc_sync c.

(** [digits[i]] *)
Definition digits : list Z := str "0123456789abcdef".
Definition digit (i : Z) : Z := zget digits i.

(** [do { buf[i++] = digits[x % base]; } while((x /= base) != 0);]: the digits
    of [x], least significant first. A [uint] has at most 32 digits. *)
Fixpoint digits_loop (fuel : nat) (x base : Z) : list Z :=
  match fuel with
  | O => []
  | S fuel =>
      digit (x mod base) :: (if x / base =? 0 then [] else digits_loop fuel (x / base) base)
  end.
(** The buffer of [printint], in the order in which it is filled. *)
Definition printint_buf (xx base sign : Z) : list Z :=
  let neg := negb (sign =? 0) && (xx <? 0) in
  let x := if neg then u32 (- xx) else u32 xx in
  digits_loop 32 x base ++ (if neg then [45] else []).
Definition printint (xx base sign : Z) : KM unit :=
  eachM (reverse (printint_buf xx base sign)) consputc.

(** The characters that [printptr] prints. *)
Definition printptr_chars (x : Z) : list Z :=
  [48; 120] ++ ((λ i : Z, digit (Z.shiftr (u64 (Z.shiftl x (4 * i))) 60)) <$> seqZ 0 16).
Definition printptr (x : Z) : KM unit := eachM (printptr_chars x) consputc.

(** A variable argument: [int], [uint64] or [char *] (the null pointer as
    [None]). *)
Inductive arg : Type := AInt (x : Z) | AU64 (x : Z) | AStr (s : option (list Z)).

(** The characters of a C string. *)
Fixpoint cstr (s : list Z) : list Z :=
  match s with
  | [] => []
  | c :: s => if c =? 0 then [] else c :: cstr s
  end.

(** [va_arg], of the type the conversion asks for. *)
Definition va_int (ap : list arg) : KM (Z * list arg) :=
  match ap with AInt x :: ap => mret (x, ap) | _ => fault end.
Definition va_u64 (ap : list arg) : KM (Z * list arg) :=
  match ap with AU64 x :: ap => mret (x, ap) | _ => fault end.
Definition va_str (ap : list arg) : KM (option (list Z) * list arg) :=
  match ap with AStr x :: ap => mret (x, ap) | _ => fault end.

(** The loop over the format. *)
Fixpoint printf_loop (fmt : list Z) (ap : list arg) : KM unit :=
  match fmt with
  | [] => mret tt
  | c :: fmt =>
      if c =? 0 then mret tt else
      if negb (c =? 37) then consputc c ;; printf_loop fmt ap else
      match fmt with
      | [] => mret tt
      | c :: fmt =>
          if c =? 0 then mret tt else
          if c =? 100 then
            r ← va_int ap; printint r.1 10 1 ;; printf_loop fmt r.2
          else if c =? 120 then
            r ← va_int ap; printint r.1 16 1 ;; printf_loop fmt r.2
          else if c =? 112 then
            r ← va_u64 ap; printptr r.1 ;; printf_loop fmt r.2
          else if c =? 115 then
            r ← va_str ap;
            eachM (cstr (default (str "(null)") r.1)) consputc ;; printf_loop fmt r.2
          else if c =? 37 then consputc 37 ;; printf_loop fmt ap
          else consputc 37 ;; consputc c ;; printf_loop fmt ap
      end
  end.

(** [fmt] is a pointer, [None] the null pointer. *)
Definition printf_ptr (fmt : option (list Z)) (ap : list arg) : KM unit :=
  locking ← gets k_locking;
  whenM (negb (locking =? 0)) (kacquire LPr) ;;
  match fmt with
  | None => panic "null fmt"
  | Some fmt =>
      printf_loop fmt ap ;;
      whenM (negb (locking =? 0)) (krelease LPr)
  end.
(** The calls have a string. *)
Definition printf (fmt : list Z) (ap : list arg) : KM unit := printf_ptr (Some fmt) ap.

(** [panic] of printf.c: it never returns. *)
Definition panic_printf (s : list Z) : KM unit :=
  modify (set_k_locking 0) ;;
  printf (str "panic: ") [] ;;
  printf s [] ;;
  printf [10] [] ;;
  modify (set_k_panicked 1) ;;
  stop_with Spin.

Definition printfinit : KM unit :=
  kinitlock LPr "pr" ;;
  modify (set_k_locking 1).

(** [states[p->state]] of [procdump]: the array has no entry for [USED]. *)
Definition state_name (st : procstate) : list Z :=
  match st with
  | UNUSED => str "unused"
  | USED => str "???"
  | SLEEPING => str "sleep "
  | RUNNABLE => str "runble"
  | RUNNING => str "run   "
  | ZOMBIE => str "zombie"
  end.
(** [procdump] of kernel/proc.c. *)
Definition procdump : KM unit :=
  printf [10] [] ;;
  eachM (seq 0 NPROC) (λ p,
    k ← get_proc p;
    if decide (p_state k = UNUSED) then mret tt else
    printf (str "%d %s %s") [AInt (p_pid k); AStr (Some (state_name (p_state k)));
                            AStr (Some (p_name k))] ;;
    printf [10] []).
