(* ===== verification/KPrintfCorrect.v ===== *)
(** * What the kernel prints (kernel/printf.c, console.c: consputc, uart.c)

    Characters go to the serial port with [uartputc_sync]; [sends bs s s'] says
    that the bytes [bs] were transmitted and nothing else happened. [printf]
    transmits what [format] says of its format and arguments, with numbers in
    the numerals that [value] reads back, and [procdump] the process table. *)

From S2P Require Import Prelude Riscv KState Spinlock Sched Uart KPrintf.
Open Scope Z_scope.

Definition rubout : list Z := [8; 32; 8].

(** ** The device *)

(** Whether the device is in the mode that sets the baud rate. *)
Fixpoint latch (b : bool) (l : list (Z * Z)) : bool :=
  match l with [] => b | (reg, v) :: l => latch (if reg =? LCR then negb (Z.land v LCR_BAUD_LATCH =? 0) else b) l end.

Lemma thr_bytes_app b l l' : thr_bytes b (l ++ l') = thr_bytes b l ++ thr_bytes (latch b l) l'.
Proof.
  revert b. induction l as [|[reg v] l IH]; intros b; cbn [app thr_bytes latch]; [done|].
  destruct (reg =? LCR); [apply IH|]. destruct ((reg =? THR) && negb b); [|apply IH]. cbn [app]. by rw IH.
Qed.
Lemma latch_app b l l' : latch b (l ++ l') = latch (latch b l) l'.
Proof. revert b. induction l as [|[reg v] l IH]; intros b; cbn [app latch]; [done|apply IH]. Qed.

(** The console can print. *)
Record tty (s : kstate) : Prop := {
  tt_cpu : cpu_ok (k_sync s);
  tt_panicked : k_panicked s = 0;
  tt_latch : latch false (out_regs (k_uart s)) = false
}.
(** From [s] to [s'] the bytes [bs] were transmitted, and nothing else happened. *)
Definition sends (bs : list Z) (s s' : kstate) : Prop :=
  ∃ u, s' = set_k_uart u s ∧ sent s' = sent s ++ bs ∧ latch false (out_regs u) = false.

Lemma sends_trans bs bs' s1 s2 s3 : sends bs s1 s2 → sends bs' s2 s3 → sends (bs ++ bs') s1 s3.
Proof.
  intros (u1 & -> & E1 & L1) (u2 & -> & E2 & L2). exists u2. split; [by destruct s1|]. split; [|done].
  by rw E2 E1 app_assoc.
Qed.
Lemma sends_tty bs s s' : tty s → sends bs s s' → tty s'.
Proof. intros [] (u & -> & _ & L). by split. Qed.

Lemma set_k_uart_id s u : u = k_uart s → set_k_uart u s = s.
Proof. intros ->. by destruct s. Qed.

Lemma ReadReg_lsr s :
  ReadReg LSR s = Ret (hd LSR_TX_IDLE (in_lsr (k_uart s))) (set_k_uart (set_in_lsr (tl (in_lsr (k_uart s))) (k_uart s)) s).
Proof.
  unfold ReadReg, get_uart. rw bind_gets. change (LSR =? LSR) with true. cbv iota.
  destruct (in_lsr (k_uart s)) as [|x l] eqn:E; [|done]. cbn [hd tl]. rw set_k_uart_id //.
  destruct (k_uart s). cbn in E. by subst.
Qed.

Lemma wait_idle_ok s : ∃ l, wait_idle s = Ret tt (set_k_uart (set_in_lsr l (k_uart s)) s).
Proof.
  unfold wait_idle, get_uart. rw bind_gets. remember (in_lsr (k_uart s)) as l eqn:E. revert s E.
  induction l as [|x l IH]; intros s E; cbn [length loopM]; mstep (ReadReg_lsr s); rw -E; cbn [hd tl].
  - by exists [].
  - rw bind_mret. destruct (Z.land x LSR_TX_IDLE =? 0); [|by exists l].
    destruct (IH (set_k_uart (set_in_lsr l (k_uart s)) s) eq_refl) as [l' E']. exists l'. etrans; [exact E'|by destruct s].
Qed.

Lemma uartputc_sync_ok c s : tty s → ∃ s', uartputc_sync c s = Ret tt s' ∧ sends [u8 c] s s'.
Proof.
  intros [Hok Hp Hl]. unfold uartputc_sync.
  assert (sy push_off s = Ret tt (set_k_sync (pushed (k_sync s)) s)) as E1 by by apply zoom_Ret, push_off_ok.
  mstep E1. rw bind_gets. change (k_panicked (set_k_sync (pushed (k_sync s)) s)) with (k_panicked s). rw Hp. cbn [negb Z.eqb].
  destruct (wait_idle_ok (set_k_sync (pushed (k_sync s)) s)) as [l E2]. mstep E2.
  unfold WriteReg, upd_uart. rw bind_modify. kcbn. set (u := set_out_regs _ _).
  eexists. split; [apply zoom_Ret; kcbn; by apply pop_off_pushed|].
  exists u. split; [by destruct s|]. unfold u, sent. kcbn. cbn [out_regs set_out_regs set_in_lsr].
  rw thr_bytes_app latch_app Hl. done.
Qed.

Lemma consputc_ok c s : tty s → 0 ≤ c < 256 → ∃ s', consputc c s = Ret tt s' ∧ sends [c] s s'.
Proof.
  intros Ht Hc. unfold consputc. rewrite -> (proj2 (Z.eqb_neq c BACKSPACE)) by (unfold BACKSPACE; lia).
  destruct (uartputc_sync_ok c s Ht) as (s' & E & Hs). exists s'. split; [done|]. unfold u8 in Hs. rw Z.mod_small in Hs; done.
Qed.
Lemma consputc_backspace s : tty s → ∃ s', consputc BACKSPACE s = Ret tt s' ∧ sends rubout s s'.
Proof.
  intros Ht. unfold consputc. rw Z.eqb_refl. destruct (uartputc_sync_ok 8 s Ht) as (s1 & E1 & H1). mstep E1.
  pose proof (sends_tty _ _ _ Ht H1) as Ht1. destruct (uartputc_sync_ok 32 s1 Ht1) as (s2 & E2 & H2). mstep E2.
  pose proof (sends_tty _ _ _ Ht1 H2) as Ht2. destruct (uartputc_sync_ok 8 s2 Ht2) as (s3 & E3 & H3). rw E3.
  exists s3. split; [done|]. exact (sends_trans _ _ _ _ _ H1 (sends_trans _ _ _ _ _ H2 H3)).
Qed.


(** ** The specification of printf *)

Definition dval (c : Z) : Z := if c <=? 57 then c - 48 else c - 87.
(** The number that a sequence of digits stands for. *)
Definition value (base : Z) (ds : list Z) : Z := foldl (λ a c, a * base + dval c) 0 ds.

(** [n] is the numeral of [x]: a sign and digits, without leading zeros. *)
Definition numeral (base x : Z) (n : list Z) : Prop :=
  ∃ ds, n = (if x <? 0 then [45] else []) ++ ds ∧ ds ≠ [] ∧ Forall (λ c, c ∈ digits ∧ 0 ≤ dval c < base) ds ∧
    value base ds = Z.abs x ∧ (hd 0 ds = 48 → ds = [48]).
(** [n] is the pointer [x]: 16 hexadecimal digits. *)
Definition pointer (x : Z) (n : list Z) : Prop :=
  ∃ ds, n = [48; 120] ++ ds ∧ length ds = 16%nat ∧ Forall (λ c, c ∈ digits) ds ∧ value 16 ds = x.

Inductive formats : list Z → list arg → list Z → Prop :=
| f_end ap : formats [] ap []
| f_nul fmt ap : formats (0 :: fmt) ap []
| f_char c fmt ap out : c ≠ 0 → c ≠ 37 → formats fmt ap out → formats (c :: fmt) ap (c :: out)
| f_lone ap : formats [37] ap []
| f_lone_nul fmt ap : formats (37 :: 0 :: fmt) ap []
| f_d x n fmt ap out : numeral 10 x n → formats fmt ap out → formats (37 :: 100 :: fmt) (AInt x :: ap) (n ++ out)
| f_x x n fmt ap out : numeral 16 x n → formats fmt ap out → formats (37 :: 120 :: fmt) (AInt x :: ap) (n ++ out)
| f_p x n fmt ap out : pointer x n → formats fmt ap out → formats (37 :: 112 :: fmt) (AU64 x :: ap) (n ++ out)
| f_s x fmt ap out : formats fmt ap out → formats (37 :: 115 :: fmt) (AStr x :: ap) (cstr (default (str "(null)") x) ++ out)
| f_percent fmt ap out : formats fmt ap out → formats (37 :: 37 :: fmt) ap (37 :: out)
| f_other c fmt ap out : c ∉ [0; 100; 120; 112; 115; 37] → formats fmt ap out → formats (37 :: c :: fmt) ap (37 :: c :: out).

(** The arguments are those that the format asks for. *)
Fixpoint well_typed (fmt : list Z) (ap : list arg) : Prop :=
  match fmt with
  | [] => True
  | c :: fmt =>
      if c =? 0 then True else
      0 ≤ c < 256 ∧
      if negb (c =? 37) then well_typed fmt ap else
      match fmt with
      | [] => True
      | c :: fmt =>
          if c =? 0 then True else
          0 ≤ c < 256 ∧
          if (c =? 100) || (c =? 120) then
            match ap with AInt x :: ap => - 2 ^ 31 ≤ x < 2 ^ 31 ∧ well_typed fmt ap | _ => False end
          else if c =? 112 then
            match ap with AU64 x :: ap => 0 ≤ x < 2 ^ 64 ∧ well_typed fmt ap | _ => False end
          else if c =? 115 then
            match ap with AStr x :: ap => Forall (λ c, 0 ≤ c < 256) (default [] x) ∧ well_typed fmt ap | _ => False end
          else well_typed fmt ap
      end
  end.

(** ** Numerals *)

Lemma digit_ok i : 0 ≤ i < 16 → digit i ∈ digits ∧ dval (digit i) = i.
Proof.
  intros Hi. assert (i ∈ seqZ 0 16) as H by (apply elem_of_seqZ; lia). revert H.
  enough (Forall (λ i, digit i ∈ digits ∧ dval (digit i) = i) (seqZ 0 16)) as HF by (rewrite -> Forall_forall in HF; apply HF).
  apply (bool_decide_unpack _). by vm_compute.
Qed.

Lemma value_snoc base ds c : value base (ds ++ [c]) = value base ds * base + dval c.
Proof. unfold value. by rw foldl_snoc. Qed.

Lemma digits_loop_ok base : 2 ≤ base ≤ 16 → ∀ fuel x, 0 ≤ x < base ^ Z.of_nat fuel → fuel ≠ O →
  let ds := reverse (digits_loop fuel x base) in
  ds ≠ [] ∧ Forall (λ c, c ∈ digits ∧ 0 ≤ dval c < base) ds ∧ value base ds = x ∧ (hd 0 ds = 48 → ds = [48]).
Proof.
  intros Hb. induction fuel as [|fuel IH]; intros x Hx Hf; [done|]. cbn [digits_loop]. cbv zeta. rw reverse_cons.
  pose proof (Z.mod_pos_bound x base ltac:(lia)) as Hm. destruct (digit_ok (x mod base) ltac:(lia)) as [Hd1 Hd2].
  pose proof (Z.div_mod x base ltac:(lia)) as Hdm.
  destruct (Z.eqb_spec (x / base) 0) as [E|E].
  - rw reverse_nil app_nil_l. split_and!; [done| | |].
    + apply Forall_singleton. split; [done|lia].
    + unfold value. cbn [foldl]. lia.
    + cbn [hd]. by intros ->.
  - destruct (IH (x / base)) as (H1 & H2 & H3 & H4).
    { rewrite -> Nat2Z.inj_succ, Z.pow_succ_r in Hx by lia. split; [apply Z.div_pos; lia|]. apply Z.div_lt_upper_bound; lia. }
    { intros ->. cbn in Hx. assert (x / base = 0); [|done]. apply Z.div_small. lia. }
    split_and!.
    + intros [? ?]%app_eq_nil. done.
    + apply Forall_app. split; [done|]. apply Forall_singleton. split; [done|lia].
    + rw value_snoc H3 Hd2. lia.
    + destruct (reverse (digits_loop fuel (x / base) base)) as [|c ds] eqn:Er; [done|]. cbn [app hd]. intros ->.
      specialize (H4 eq_refl). rw H4 in H3. unfold value in H3. cbn [foldl] in H3. change (dval 48) with 0 in H3. lia.
Qed.

Lemma numeral_printint base x : base = 10 ∨ base = 16 → - 2 ^ 31 ≤ x < 2 ^ 31 → numeral base x (reverse (printint_buf x base 1)).
Proof.
  intros Hb Hx. unfold printint_buf, numeral. change (negb (1 =? 0)) with true. cbn [andb].
  assert ((if x <? 0 then u32 (- x) else u32 x) = Z.abs x) as ->.
  { destruct (Z.ltb_spec x 0); rewrite -> u32_small by lia; lia. }
  destruct (digits_loop_ok base ltac:(lia) 32 (Z.abs x)) as (H1 & H2 & H3 & H4); [|done|].
  { split; [apply Z.abs_nonneg|]. apply (Z.lt_le_trans _ 4294967296).
    - clear - Hx. change (2 ^ 31) with 2147483648 in Hx. lia.
    - destruct Hb as [-> | ->]; vm_compute; done. }
  exists (reverse (digits_loop 32 (Z.abs x) base)). split_and!; try done.
  rw reverse_app. by destruct (x <? 0).
Qed.

Lemma hex_digit x i : 0 ≤ x < 2 ^ 64 → 0 ≤ i < 16 → Z.shiftr (u64 (Z.shiftl x (4 * i))) 60 = (x / 16 ^ (15 - i)) mod 16.
Proof.
  intros Hx Hi. assert (i ∈ seqZ 0 16) as H by (apply elem_of_seqZ; lia). revert H.
  rewrite -> Z.shiftl_mul_pow2, Z.shiftr_div_pow2 by lia. unfold u64.
  enough (Forall (λ i, (x * 2 ^ (4 * i)) mod 18446744073709551616 / 2 ^ 60 = (x / 16 ^ (15 - i)) mod 16) (seqZ 0 16)) as HF
    by (rewrite -> Forall_forall in HF; apply HF).
  clear i Hi. change (seqZ 0 16) with [0; 1; 2; 3; 4; 5; 6; 7; 8; 9; 10; 11; 12; 13; 14; 15].
  repeat (apply Forall_cons; split; [cbn; zlia|]). by apply Forall_nil.
Qed.

Lemma hex_value n : 0 ≤ n → ∀ x, 0 ≤ x →
  value 16 ((λ i, digit ((x / 16 ^ (n - 1 - i)) mod 16)) <$> seqZ 0 n) = x mod 16 ^ n.
Proof.
  revert n. apply (natlike_ind (λ n, ∀ x, 0 ≤ x → value 16 ((λ i, digit ((x / 16 ^ (n - 1 - i)) mod 16)) <$> seqZ 0 n) = x mod 16 ^ n)).
  { intros x Hx. cbn. unfold value. cbn. by rw Z.mod_1_r. }
  intros n Hn IH x Hx. rw (seqZ_app 0 n 1); [|lia|lia]. rw fmap_app.
  assert (seqZ (0 + n) 1 = [0 + n]) as -> by (rw seqZ_cons //).
  assert ((λ i, digit ((x / 16 ^ (Z.succ n - 1 - i)) mod 16)) <$> seqZ 0 n = (λ i, digit ((x / 16 / 16 ^ (n - 1 - i)) mod 16)) <$> seqZ 0 n) as ->.
  { apply list_fmap_ext. intros i j Hj. apply lookup_seqZ in Hj as [-> Hj]. do 2 f_equal.
    rewrite -> Z.div_div by lia. f_equal. rewrite <- Z.pow_succ_r by lia. f_equal. lia. }
  cbn [fmap list_fmap]. rw value_snoc IH; [|apply Z.div_pos; lia].
  replace (Z.succ n - 1 - (0 + n)) with 0 by lia. rw Z.pow_0_r Z.div_1_r.
  rewrite -> (proj2 (digit_ok (x mod 16) ltac:(pose proof (Z.mod_pos_bound x 16); lia))), Z.pow_succ_r by lia.
  rewrite -> (Z.rem_mul_r x 16 (16 ^ n)) by lia. lia.
Qed.

Lemma pointer_printptr x : 0 ≤ x < 2 ^ 64 → pointer x (printptr_chars x).
Proof.
  intros Hx. unfold printptr_chars. eexists. split; [reflexivity|].
  assert ((λ i, digit (Z.shiftr (u64 (Z.shiftl x (4 * i))) 60)) <$> seqZ 0 16 = (λ i, digit ((x / 16 ^ (16 - 1 - i)) mod 16)) <$> seqZ 0 16) as ->.
  { apply list_fmap_ext. intros i j Hj. apply lookup_seqZ in Hj as [-> Hj]. f_equal. by apply hex_digit; [|lia]. }
  split_and!; [by rw length_fmap length_seqZ| |].
  - apply Forall_fmap, Forall_forall. intros i _. apply digit_ok. apply Z.mod_pos_bound. lia.
  - rw hex_value; [|lia|lia]. by apply Z.mod_small.
Qed.

(** ** printf *)

Definition byte (c : Z) : Prop := 0 ≤ c < 256.
Lemma kdigits_bytes ds : Forall (λ c, c ∈ digits) ds → Forall byte ds.
Proof.
  intros H. eapply Forall_impl; [exact H|]. intros c Hc. assert (Forall byte digits) as HF by (apply (bool_decide_unpack _); by vm_compute).
  rewrite -> Forall_forall in HF. by apply HF.
Qed.
Lemma numeral_bytes base x n : numeral base x n → Forall byte n.
Proof.
  intros (ds & -> & _ & H & _). apply Forall_app. split; [by destruct (x <? 0); repeat constructor|].
  apply kdigits_bytes. eapply Forall_impl; [exact H|]. by intros c [? _].
Qed.
Lemma pointer_bytes x n : pointer x n → Forall byte n.
Proof. intros (ds & -> & _ & H & _). apply Forall_app. split; [by repeat constructor|by apply kdigits_bytes]. Qed.
Lemma cstr_bytes l : Forall byte l → Forall byte (cstr l).
Proof. induction 1 as [|c l Hc Hl IH]; cbn; [done|]. destruct (c =? 0); [done|by constructor]. Qed.

Lemma sends_nil s : tty s → sends [] s s.
Proof. intros [_ _ L]. exists (k_uart s). split; [by destruct s|]. by rw app_nil_r. Qed.

Lemma sends_each l : Forall byte l → ∀ s, tty s → ∃ s', eachM l consputc s = Ret tt s' ∧ sends l s s'.
Proof.
  induction 1 as [|c l Hc Hl IH]; intros s Ht; [exists s; split; [done|by apply sends_nil]|].
  destruct (consputc_ok c s Ht Hc) as (s1 & E1 & H1). destruct (IH s1 (sends_tty _ _ _ Ht H1)) as (s2 & E2 & H2).
  exists s2. split; [cbn [eachM]; by mstep E1|]. exact (sends_trans [c] l _ _ _ H1 H2).
Qed.

(** Sending [bs], then the rest [fmt'] of the format. *)
Lemma sends_then (bs : list Z) (m : KM unit) fmt ap fmt' ap' s :
  tty s → (∃ s1, m s = Ret tt s1 ∧ sends bs s s1) →
  (∀ s1, tty s1 → ∃ out s', printf_loop fmt' ap' s1 = Ret tt s' ∧ sends out s1 s' ∧ formats fmt' ap' out) →
  (∀ out, formats fmt' ap' out → formats fmt ap (bs ++ out)) →
  ∃ out s', (m ;; printf_loop fmt' ap') s = Ret tt s' ∧ sends out s s' ∧ formats fmt ap out.
Proof.
  intros Ht (s1 & E1 & H1) Hf HP. destruct (Hf s1 (sends_tty _ _ _ Ht H1)) as (out & s' & E & H2 & H3).
  exists (bs ++ out), s'. split; [by mstep E1|]. split; [exact (sends_trans _ _ _ _ _ H1 H2)|by apply HP].
Qed.

Lemma printf_stop fmt ap s : tty s → formats fmt ap [] →
  ∃ out s', (mret tt : KM unit) s = Ret tt s' ∧ sends out s s' ∧ formats fmt ap out.
Proof. intros Ht Hf. exists [], s. split; [done|]. split; [by apply sends_nil|done]. Qed.

Lemma printf_loop_ok : ∀ n fmt ap s, (length fmt ≤ n)%nat → tty s → well_typed fmt ap →
  ∃ out s', printf_loop fmt ap s = Ret tt s' ∧ sends out s s' ∧ formats fmt ap out.
Proof.
  induction n as [|n IH]; intros fmt ap s Hlen Ht Hw; (destruct fmt as [|c fmt]; [|cbn in Hlen; try lia]).
  1,2: apply printf_stop; [done|constructor].
  cbn [printf_loop well_typed] in *. destruct (Z.eqb_spec c 0) as [->|N0]; [apply printf_stop; [done|constructor]|].
  destruct Hw as [Hc Hw]. destruct (Z.eqb_spec c 37) as [->|N37]; cbn [negb] in *.
  2:{ apply (sends_then [c]); [done|by apply consputc_ok|intros; apply IH; [lia|done..]|by constructor]. }
  destruct fmt as [|d fmt]; [apply printf_stop; [done|constructor]|]. cbn in Hlen.
  destruct (Z.eqb_spec d 0) as [->|M0]; [apply printf_stop; [done|constructor]|]. destruct Hw as [Hd Hw].
  destruct (Z.eqb_spec d 100) as [->|M1]; cbn [orb] in Hw.
  { destruct ap as [|[x| |] ap]; try done. destruct Hw as [Hx Hw]. cbn [va_int]. rw bind_mret. cbn [fst snd].
    pose proof (numeral_printint 10 x ltac:(by left) Hx) as Hn. unfold printint.
    eapply sends_then; [done|apply sends_each; [by eapply numeral_bytes|done]|intros; apply IH; [lia|done..]|by constructor]. }
  destruct (Z.eqb_spec d 120) as [->|M2]; cbn [orb] in Hw.
  { destruct ap as [|[x| |] ap]; try done. destruct Hw as [Hx Hw]. cbn [va_int]. rw bind_mret. cbn [fst snd].
    pose proof (numeral_printint 16 x ltac:(by right) Hx) as Hn. unfold printint.
    eapply sends_then; [done|apply sends_each; [by eapply numeral_bytes|done]|intros; apply IH; [lia|done..]|by constructor]. }
  destruct (Z.eqb_spec d 112) as [->|M3].
  { destruct ap as [|[|x|] ap]; try done. destruct Hw as [Hx Hw]. cbn [va_u64]. rw bind_mret. cbn [fst snd].
    pose proof (pointer_printptr x Hx) as Hn. unfold printptr.
    eapply sends_then; [done|apply sends_each; [by eapply pointer_bytes|done]|intros; apply IH; [lia|done..]|by constructor]. }
  destruct (Z.eqb_spec d 115) as [->|M4].
  { destruct ap as [|[| |x] ap]; try done. destruct Hw as [Hx Hw]. cbn [va_str]. rw bind_mret. cbn [fst snd].
    eapply sends_then; [done|apply sends_each; [|done]|intros; apply IH; [lia|done..]|by constructor].
    apply cstr_bytes. destruct x as [x|]; [done|]. by repeat constructor. }
  destruct (Z.eqb_spec d 37) as [->|M5].
  { apply (sends_then [37]); [done|by apply consputc_ok|intros; apply IH; [lia|done..]|by constructor]. }
  destruct (consputc_ok 37 s Ht ltac:(done)) as (s1 & E1 & H1). mstep E1. pose proof (sends_tty _ _ _ Ht H1) as Ht1.
  destruct (consputc_ok d s1 Ht1 Hd) as (s2 & E2 & H2). mstep E2.
  destruct (IH fmt ap s2 ltac:(lia) (sends_tty _ _ _ Ht1 H2) Hw) as (out & s' & E & H3 & H4).
  exists (37 :: d :: out), s'. split; [done|]. split; [exact (sends_trans [37] _ _ _ _ H1 (sends_trans [d] _ _ _ _ H2 H3))|].
  apply f_other; [|done]. by rewrite -> !elem_of_cons, elem_of_nil; intuition.
Qed.

(** The console can print, and the lock of [printf] is free when it is used. *)
Definition can_print (s : kstate) : Prop := tty s ∧ (k_locking s ≠ 0 → lock_free LPr (k_sync s)).

Lemma printf_ok fmt ap s : can_print s → well_typed fmt ap →
  ∃ out s', printf fmt ap s = Ret tt s' ∧ sends out s s' ∧ formats fmt ap out.
Proof.
  intros [Ht Hlk] Hw. unfold printf, printf_ptr. rw bind_gets. destruct (Z.eqb_spec (k_locking s) 0) as [E0|N0]; cbn [negb whenM].
  - destruct (printf_loop_ok (length fmt) fmt ap s ltac:(done) Ht Hw) as (out & s' & E & H1 & H2).
    exists out, s'. rw bind_mret. split; [by mstep E|done].
  - specialize (Hlk N0). destruct (Ht) as [Hok Hp L]. mstep (kacquire_free _ _ Hok Hlk).
    set (s1 := set_k_sync (acq LPr (k_sync s)) s). assert (tty s1) as Ht1 by (split; [by apply acq_ok|done|done]).
    destruct (printf_loop_ok (length fmt) fmt ap s1 ltac:(done) Ht1 Hw) as (out & s' & E & (u & -> & Hs & L') & H2). mstep E.
    exists out, (set_k_uart u s). split; [|split; [exists u; by split_and!|done]].
    erewrite krelease_acq; [|reflexivity|exact Hok|exact Hlk]. by destruct s.
Qed.

(** ** procdump *)

(** The line of a process. *)
Definition dump_line (k : proc) (out : list Z) : Prop :=
  if decide (p_state k = UNUSED) then out = []
  else ∃ n, numeral 10 (p_pid k) n ∧ out = n ++ 32 :: state_name (p_state k) ++ 32 :: cstr (p_name k) ++ [10].

Definition printable (k : proc) : Prop := - 2 ^ 31 ≤ p_pid k < 2 ^ 31 ∧ Forall byte (p_name k).

Ltac not_other :=
  try match goal with H : _ ∉ [0; 100; 120; 112; 115; 37] |- _ => exfalso; apply H; apply (bool_decide_unpack _); vm_compute; exact I end.

Lemma formats_line x a b out :
  formats (str "%d %s %s") [AInt x; AStr (Some a); AStr (Some b)] out →
  ∃ n, numeral 10 x n ∧ out = n ++ 32 :: cstr a ++ 32 :: cstr b.
Proof.
  change (str "%d %s %s") with [37; 100; 32; 37; 115; 32; 37; 115]. intros H.
  repeat match goal with H : formats (_ :: _) _ _ |- _ => inversion H; clear H; subst; try congruence; not_other end.
  match goal with H : formats [] _ _ |- _ => inversion H; subst end.
  eexists. split; [eassumption|]. cbn [default from_option id]. by rw app_nil_r.
Qed.
Lemma formats_newline out : formats [10] [] out → out = [10].
Proof. intros H. inversion H as [| |? ? ? ? ? ? H1| | | | | | | |]; subst. by inversion H1. Qed.

Lemma state_name_bytes st : Forall byte (state_name st) ∧ cstr (state_name st) = state_name st.
Proof. destruct st; (split; [by repeat constructor|done]). Qed.

Lemma can_print_sends bs s s' : can_print s → sends bs s s' → can_print s'.
Proof. intros [Ht Hl] H. split; [by eapply sends_tty|]. by destruct H as (u & -> & _). Qed.

Lemma dump_loop m : ∀ j s, can_print s → Forall printable (k_procs s) → (j + m = length (k_procs s))%nat →
  ∃ outs s', eachM (seq j m) (λ p,
    k ← get_proc p;
    if decide (p_state k = UNUSED) then mret tt else
    printf (str "%d %s %s") [AInt (p_pid k); AStr (Some (state_name (p_state k)));
                            AStr (Some (p_name k))] ;;
    printf [10] []) s = Ret tt s' ∧ sends (concat outs) s s' ∧ Forall2 dump_line (drop j (k_procs s)) outs.
Proof.
  induction m as [|m IH]; intros j s Hc Hp Hj; cbn [seq eachM].
  { exists [], s. rw drop_ge; [|lia]. split; [done|]. split; [by apply sends_nil, Hc|done]. }
  destruct (lookup_lt_is_Some_2 (k_procs s) j) as [k Hk]; [lia|].
  assert (∃ out s1, (k ← get_proc j; if decide (p_state k = UNUSED) then mret tt else
    printf (str "%d %s %s") [AInt (p_pid k); AStr (Some (state_name (p_state k))); AStr (Some (p_name k))] ;;
    printf [10] []) s = Ret tt s1 ∧ sends out s s1 ∧ dump_line k out) as (out & s1 & E1 & H1 & D1).
  { mstep (get_proc_spec s j k Hk). unfold dump_line. destruct (decide (p_state k = UNUSED)) as [Hu|Hu].
    - exists [], s. split; [done|]. split; [by apply sends_nil, Hc|done].
    - destruct (Forall_lookup_1 _ _ _ _ Hp Hk) as [Hpid Hname]. destruct (state_name_bytes (p_state k)) as [Hsb Hsc].
      destruct (printf_ok (str "%d %s %s") [AInt (p_pid k); AStr (Some (state_name (p_state k))); AStr (Some (p_name k))] s Hc)
        as (o1 & s1 & E1 & H1 & F1).
      { change (str "%d %s %s") with [37; 100; 32; 37; 115; 32; 37; 115]. cbn. split_and!; try done; lia. }
      mstep E1. apply formats_line in F1 as (n & Hn & ->).
      destruct (printf_ok [10] [] s1 (can_print_sends _ _ _ Hc H1)) as (o2 & s2 & E2 & H2 & F2); [by cbn|].
      apply formats_newline in F2 as ->. eexists _, s2. split; [exact E2|]. split; [exact (sends_trans _ _ _ _ _ H1 H2)|].
      exists n. split; [done|]. rw Hsc -app_assoc. cbn [app]. rw -app_assoc. done. }
  mstep E1. assert (k_procs s1 = k_procs s) as Ep by by destruct H1 as (u & -> & _).
  destruct (IH (S j) s1 (can_print_sends _ _ _ Hc H1)) as (outs & s' & E & H2 & H3); [by rw Ep|rw Ep; lia|].
  exists (out :: outs), s'. split; [done|]. split; [exact (sends_trans _ _ _ _ _ H1 H2)|].
  rw (drop_S _ k) //. rw Ep in H3. by constructor.
Qed.

Lemma procdump_ok s : can_print s → Forall printable (k_procs s) → length (k_procs s) = NPROC →
  ∃ outs s', procdump s = Ret tt s' ∧ sends (10 :: concat outs) s s' ∧ Forall2 dump_line (k_procs s) outs.
Proof.
  intros Hc Hp Hl. unfold procdump. destruct (printf_ok [10] [] s Hc) as (o & s1 & E1 & H1 & F1); [by cbn|].
  apply formats_newline in F1 as ->. mstep E1. assert (k_procs s1 = k_procs s) as Ep by by destruct H1 as (u & -> & _).
  destruct (dump_loop NPROC 0 s1 (can_print_sends _ _ _ Hc H1)) as (outs & s' & E & H2 & H3); [by rw Ep|by rw Ep Hl|].
  exists outs, s'. split; [done|]. split; [exact (sends_trans _ _ _ _ _ H1 H2)|]. by rw Ep in H3.
Qed.

(** ** Theorem *)

Lemma formats_plain l ap out : Forall (λ c, c ≠ 0 ∧ c ≠ 37) l → formats l ap out → out = l.
Proof.
  intros Hl. revert out. induction Hl as [|c l [H0 H37] Hl IH]; intros out H; inversion H; subst; try congruence.
  f_equal. by apply IH.
Qed.

(** C32. What the kernel prints. Given arguments of the types that its format
    asks for, [printf] returns and transmits exactly the text of the format,
    with %d and %x replaced by the signed numeral without leading zeros, %p by
    16 hexadecimal digits, %s by the string, "(null)" for the null pointer,
    and nothing else changes, the locks included. [panic] transmits its message
    after "panic: ", on a line of its own, and then stops the machine for
    all. *)
Theorem kernel_prints fmt ap s :
  can_print s → well_typed fmt ap →
  (∃ out s', printf fmt ap s = Ret tt s' ∧ sends out s s' ∧ formats fmt ap out) ∧
  (well_typed fmt [] → ∃ out s', panic_printf fmt s = Stop Spin s' ∧ formats fmt [] out ∧
    sent s' = sent s ++ str "panic: " ++ out ++ [10] ∧ k_panicked s' = 1 ∧ k_sync s' = k_sync s).
Proof.
  intros Hc Hw. split; [by apply printf_ok|]. intros Hw0. unfold panic_printf. rw bind_modify.
  assert (can_print (set_k_locking 0 s)) as Hc0 by (destruct Hc as [[] _]; split; [by split|done]).
  destruct (printf_ok (str "panic: ") [] _ Hc0) as (o1 & s1 & E1 & H1 & F1).
  { change (str "panic: ") with [112; 97; 110; 105; 99; 58; 32]. by cbn. }
  apply formats_plain in F1 as ->; [|by repeat constructor]. mstep E1. pose proof (can_print_sends _ _ _ Hc0 H1) as Hc1.
  destruct (printf_ok fmt [] s1 Hc1 Hw0) as (o2 & s2 & E2 & H2 & F2). mstep E2.
  destruct (printf_ok [10] [] s2 (can_print_sends _ _ _ Hc1 H2)) as (o3 & s3 & E3 & H3 & F3); [by cbn|]. mstep E3.
  apply formats_newline in F3 as ->. rw bind_modify.
  destruct (sends_trans _ _ _ _ _ H1 (sends_trans _ _ _ _ _ H2 H3)) as (u & -> & Hs & _).
  exists o2. eexists. split; [reflexivity|]. split; [done|]. split; [exact Hs|]. split; done.
Qed.

Definition kst_print : kstate := set_k_locking 1 kst1.
Lemma can_print_kst : can_print kst_print.
Proof.
  split; [split; [exact cpu_ok_sync1|done|done]|]. intros _. apply sync1_free. unfold all_locks. set_solver.
Qed.
Lemma kernel_prints_witness :
  ∃ out s', printf (str "pid %d: %p") [AInt (-7); AU64 255] kst_print = Ret tt s' ∧ sends out kst_print s' ∧
    formats (str "pid %d: %p") [AInt (-7); AU64 255] out.
Proof.
  destruct (kernel_prints (str "pid %d: %p") [AInt (-7); AU64 255] kst_print) as [H _].
  - exact can_print_kst.
  - change (str "pid %d: %p") with [112; 105; 100; 32; 37; 100; 58; 32; 37; 112]. cbn. lia.
  - exact H.
Defined.
