(* ===== verification/Console.v ===== *)
(** * The console (kernel/console.c)

    Line editing on the ring [cons.buf], with the three indices [r], [w] and
    [e] counting modulo 2^32; [consoleintr] handles one typed character,
    [consoleread] gives a line to a process. [uartintr] of uart.c, which calls
    [consoleintr], is here too. *)

From S2P Require Import Prelude Riscv KState Spinlock Sched Uart KPrintf.
Open Scope Z_scope.

Definition INPUT_BUF : Z := 128.
(** [C(x)] for the character [x]. *)
Definition Ctrl (x : Z) : Z := x - 64.

Definition get_cons : KM consst := gets k_cons.
Definition upd_cons (f : consst → consst) : KM unit := modify (λ s, set_k_cons (f (k_cons s)) s).

(** One iteration of the loop of [consolewrite]. *)
Definition consolewrite_body (src : addr) (n i : Z) : KM (Z + Z) :=
  if negb (i <? n) then mret (inr i) else
  r ← either_copyin (addr_add src i) 1;
  if r.1 =? -1 then mret (inr i) else
  uartputc (zget r.2 0) ;;
  mret (inl (i + 1)).
Definition consolewrite (src : addr) (n : Z) : KM Z :=
  loopM (S (Z.to_nat n)) (consolewrite_body src n) 0.

(** The inner loop of [consoleread]; [true] if the process was killed. *)
Definition cons_wait : KM bool :=
  fuel ← gets k_fuel;
  loopM fuel (λ _ : unit,
    c ← get_cons;
    if negb (cons_r c =? cons_w c) then mret (inr false) else
    p ← curproc;
    q ← get_proc p;
    if negb (p_killed q =? 0) then krelease LCons ;; mret (inr true) else
    sleep CConsR LCons ;;
    mret (inl tt)) tt.

(** One iteration of the outer loop, on [dst] and [n]; [None] is the return
    of a killed process. *)
Definition consoleread_body (target : Z) (v : addr * Z) : KM (addr * Z + option Z) :=
  let '(dst, n) := v in
  if negb (0 <? n) then mret (inr (Some n)) else
  killed ← cons_wait;
  if killed : bool then mret (inr None) else
  k ← get_cons;
  let c := zget (cons_buf k) (cons_r k mod INPUT_BUF) in
  upd_cons (λ k, set_cons_r (u32 (cons_r k + 1)) k) ;;
  if c =? Ctrl 68 then
    whenM (u32 n <? target) (upd_cons (λ k, set_cons_r (u32 (cons_r k - 1)) k)) ;;
    mret (inr (Some n))
  else
  r ← either_copyout dst [c] 1;
  if r =? -1 then mret (inr (Some n)) else
  if c =? 10 then mret (inr (Some (n - 1)))
  else mret (inl (addr_add dst 1, n - 1)).
Definition consoleread (dst : addr) (n : Z) : KM Z :=
  let target := u32 n in
  kacquire LCons ;;
  r ← loopM (S (Z.to_nat n)) (consoleread_body target) (dst, n);
  match r with
  | None => mret (-1)
  | Some n => krelease LCons ;; mret (i32 (u32 (target - n)))
  end.

(** The loop of [case C('U')]: it goes back from [e] at most to [w]. *)
Definition kill_line : KM unit :=
  c ← get_cons;
  loopM (S (Z.to_nat (u32 (cons_e c - cons_w c)))) (λ _ : unit,
    c ← get_cons;
    if negb (cons_e c =? cons_w c)
       && negb (zget (cons_buf c) (u32 (cons_e c - 1) mod INPUT_BUF) =? 10)
    then upd_cons (λ c, set_cons_e (u32 (cons_e c - 1)) c) ;;
         consputc BACKSPACE ;;
         mret (inl tt)
    else mret (inr tt)) tt.

Definition consoleintr (c : Z) : KM unit :=
  kacquire LCons ;;
  (if c =? Ctrl 80 then procdump
   else if c =? Ctrl 85 then kill_line
   else if (c =? Ctrl 72) || (c =? 127) then
     k ← get_cons;
     whenM (negb (cons_e k =? cons_w k))
       (upd_cons (λ c, set_cons_e (u32 (cons_e c - 1)) c) ;;
        consputc BACKSPACE)
   else
     k ← get_cons;
     whenM (negb (c =? 0) && (u32 (cons_e k - cons_r k) <? INPUT_BUF))
       (let c := if c =? 13 then 10 else c in
        consputc c ;;
        upd_cons (λ k, set_cons_buf (zset (cons_buf k) (cons_e k mod INPUT_BUF) (u8 c)) k) ;;
        upd_cons (λ k, set_cons_e (u32 (cons_e k + 1)) k) ;;
        k ← get_cons;
        whenM ((c =? 10) || (c =? Ctrl 68) || (cons_e k =? u32 (cons_r k + INPUT_BUF)))
          (upd_cons (λ k, set_cons_w (cons_e k) k) ;;
           wakeup CConsR))) ;;
  krelease LCons.

Definition CONSOLE : nat := 1.
Definition consoleinit : KM unit :=
  kinitlock LCons "cons" ;;
  uartinit ;;
  modify (λ s, set_k_devsw (alter (set_d_read DevConsole) CONSOLE (k_devsw s)) s) ;;
  modify (λ s, set_k_devsw (alter (set_d_write DevConsole) CONSOLE (k_devsw s)) s).

(** [uartintr] of kernel/uart.c: the loop ends when LSR has no input bit. *)
Definition uartintr : KM unit :=
  u ← get_uart;
  loopM (S (length (in_lsr u))) (λ _ : unit,
    c ← uartgetc;
    if c =? -1 then mret (inr tt) else
    consoleintr c ;; mret (inl tt)) tt ;;
  kacquire LUart ;;
  uartstart ;;
  krelease LUart.
