(* ===== verification/Pipe.v ===== *)
(** * Pipes (kernel/pipe.c)

    A [struct pipe *] is the address of the page that holds it, and the pipes
    are the finite map [k_pipes] from these addresses; [nread] and [nwrite]
    count modulo 2^32. [pipealloc], which needs the file table, is in
    [File]. *)

From S2P Require Import Prelude Riscv KState Spinlock KString Kalloc Vm Sched.
Open Scope Z_scope.

Definition PIPESIZE : Z := 512.

Definition get_pipe (pi : Z) : KM pipe := m ← gets k_pipes; deref (m !! pi).
Definition upd_pipe (pi : Z) (f : pipe → pipe) : KM unit :=
  modify (λ s, set_k_pipes (alter f pi (k_pipes s)) s).

Section pipe.
Context `{Image}.

Definition pipeclose (pi writable : Z) : KM unit :=
  kacquire (LPipe pi) ;;
  (if negb (writable =? 0) then
     upd_pipe pi (set_pi_writeopen 0) ;;
     wakeup (CPipeR pi)
   else
     upd_pipe pi (set_pi_readopen 0) ;;
     wakeup (CPipeW pi)) ;;
  k ← get_pipe pi;
  if (pi_readopen k =? 0) && (pi_writeopen k =? 0) then
    krelease (LPipe pi) ;;
    modify (λ s, set_k_pipes (delete pi (k_pipes s)) s) ;;
    kfree pi
  else krelease (LPipe pi).

(** One iteration of the loop of [pipewrite], [pr] being [myproc()]. *)
Definition pipewrite_body (pi addr n : Z) (pr : nat) (i : Z) : KM (Z + option Z) :=
  if negb (i <? n) then mret (inr (Some i)) else
  k ← get_pipe pi;
  q ← get_proc pr;
  if (pi_readopen k =? 0) || negb (p_killed q =? 0) then
    krelease (LPipe pi) ;; mret (inr None)
  else if pi_nwrite k =? u32 (pi_nread k + PIPESIZE) then
    wakeup (CPipeR pi) ;;
    sleep (CPipeW pi) (LPipe pi) ;;
    mret (inl i)
  else
    r ← copyin (p_pagetable q) (u64 (addr + i)) 1;
    if r.1 =? -1 then mret (inr (Some i)) else
    upd_pipe pi (λ k, set_pi_nwrite (u32 (pi_nwrite k + 1))
      (set_pi_data (zset (pi_data k) (pi_nwrite k mod PIPESIZE) (zget r.2 0)) k)) ;;
    mret (inl (i + 1)).
(** Every iteration stores a byte or sleeps; [k_fuel] bounds the sleeps. *)
Definition pipewrite (pi addr n : Z) : KM Z :=
  pr ← curproc;
  kacquire (LPipe pi) ;;
  fuel ← gets k_fuel;
  r ← loopM (fuel + S (Z.to_nat n)) (pipewrite_body pi addr n pr) 0;
  match r with
  | None => mret (-1)
  | Some i =>
      wakeup (CPipeR pi) ;;
      krelease (LPipe pi) ;;
      mret i
  end.

(** The first loop of [piperead]; [true] if the process was killed. *)
Definition piperead_wait (pi : Z) (pr : nat) : KM bool :=
  fuel ← gets k_fuel;
  loopM fuel (λ _ : unit,
    k ← get_pipe pi;
    if negb ((pi_nread k =? pi_nwrite k) && negb (pi_writeopen k =? 0)) then mret (inr false) else
    q ← get_proc pr;
    if negb (p_killed q =? 0) then krelease (LPipe pi) ;; mret (inr true) else
    sleep (CPipeR pi) (LPipe pi) ;;
    mret (inl tt)) tt.
(** One iteration of the second loop. *)
Definition piperead_body (pi addr n : Z) (pr : nat) (i : Z) : KM (Z + Z) :=
  if negb (i <? n) then mret (inr i) else
  k ← get_pipe pi;
  if pi_nread k =? pi_nwrite k then mret (inr i) else
  let ch := zget (pi_data k) (pi_nread k mod PIPESIZE) in
  upd_pipe pi (λ k, set_pi_nread (u32 (pi_nread k + 1)) k) ;;
  q ← get_proc pr;
  r ← copyout (p_pagetable q) (u64 (addr + i)) [ch] 1;
  if r =? -1 then mret (inr i) else mret (inl (i + 1)).
Definition piperead (pi addr n : Z) : KM Z :=
  pr ← curproc;
  kacquire (LPipe pi) ;;
  killed ← piperead_wait pi pr;
  if killed : bool then mret (-1) else
  i ← loopM (S (Z.to_nat n)) (piperead_body pi addr n pr) 0;
  wakeup (CPipeW pi) ;;
  krelease (LPipe pi) ;;
  mret i.
End pipe.
