(* ===== verification/PipeCorrect.v ===== *)
(** * Pipes are queues (kernel/pipe.c)

    The ring buffer of a pipe implements a queue of at most [PIPESIZE] bytes:
    [pipewrite] appends the bytes of the user buffer, [piperead] takes bytes
    from the front. A writer sleeps while the queue is full and a reader while
    it is empty; what they do is stated for every way in which the pipe may
    have changed when they are resumed. *)

From S2P Require Import Prelude Riscv KState Spinlock KString Kalloc Vm PageTable Uspace VmCorrect Sched Pipe.
Open Scope Z_scope.

(** ** The ring buffer *)

Definition qlen (k : pipe) : Z := u32 (pi_nwrite k - pi_nread k).
Definition queue (k : pipe) : list Z :=
  (λ i, zget (pi_data k) ((pi_nread k + i) mod PIPESIZE)) <$> seqZ 0 (qlen k).

Record pipe_ok (k : pipe) : Prop := {
  po_data : length (pi_data k) = Z.to_nat PIPESIZE;
  po_nread : 0 ≤ pi_nread k < 2 ^ 32;
  po_nwrite : 0 ≤ pi_nwrite k < 2 ^ 32;
  po_len : qlen k ≤ PIPESIZE
}.

(** [pi->data[pi->nwrite++ % PIPESIZE] = b] and [pi->data[pi->nread++ % PIPESIZE]] *)
Definition push (b : Z) (k : pipe) : pipe :=
  set_pi_nwrite (u32 (pi_nwrite k + 1)) (set_pi_data (zset (pi_data k) (pi_nwrite k mod PIPESIZE) b) k).
Definition pop (k : pipe) : pipe := set_pi_nread (u32 (pi_nread k + 1)) k.

Lemma qlen_nonneg k : 0 ≤ qlen k.
Proof. unfold qlen. apply u32_range. Qed.
Lemma length_queue k : length (queue k) = Z.to_nat (qlen k).
Proof. unfold queue. by rw length_fmap length_seqZ. Qed.

Lemma seqZ_one a : seqZ a 1 = [a].
Proof. rw seqZ_cons; [|lia]. done. Qed.

Lemma full_spec k : pipe_ok k → (pi_nwrite k =? u32 (pi_nread k + PIPESIZE)) = (qlen k =? PIPESIZE).
Proof. intros [_ Hr Hw _]. unfold qlen, u32, PIPESIZE in *. apply eq_bool_prop_intro. rw !Is_true_true !Z.eqb_eq. zlia. Qed.
Lemma empty_spec k : pipe_ok k → (pi_nread k =? pi_nwrite k) = (qlen k =? 0).
Proof. intros [_ Hr Hw _]. unfold qlen, u32 in *. apply eq_bool_prop_intro. rw !Is_true_true !Z.eqb_eq. zlia. Qed.

Lemma push_ok b k : pipe_ok k → qlen k < PIPESIZE → pipe_ok (push b k) ∧ queue (push b k) = queue k ++ [b].
Proof.
  intros [Hd Hr Hw Hl] Hlt. assert (qlen (push b k) = qlen k + 1) as Hq.
  { unfold qlen, push in *. cbn [pi_nwrite pi_nread set_pi_nwrite set_pi_data]. unfold u32, PIPESIZE in *. zlia. }
  split.
  - split; [by cbn; rw length_insert|done|apply u32_range|lia].
  - unfold queue. rw Hq. pose proof (qlen_nonneg k). rw seqZ_app; [|done|lia]. rw fmap_app. f_equal.
    + apply list_fmap_ext. intros i j Hj. apply lookup_seqZ in Hj as [-> Hj].
      cbn [push pi_nread pi_data set_pi_nwrite set_pi_data]. unfold zget, zset.
      rw list_lookup_total_insert_ne //. unfold qlen, u32, PIPESIZE in *. zlia.
    + cbn [push pi_nread pi_data set_pi_nwrite set_pi_data fmap list_fmap seqZ]. rw Z.add_0_l seqZ_one. cbn. f_equal.
      replace ((pi_nread k + qlen k) mod PIPESIZE) with (pi_nwrite k mod PIPESIZE)
        by (unfold qlen, u32, PIPESIZE in *; zlia).
      unfold zget, zset. apply list_lookup_total_insert_eq. rw Hd. unfold PIPESIZE. zlia.
Qed.

Lemma pop_ok k :
  pipe_ok k → qlen k ≠ 0 →
  pipe_ok (pop k) ∧ queue k = zget (pi_data k) (pi_nread k mod PIPESIZE) :: queue (pop k).
Proof.
  intros [Hd Hr Hw Hl] Hne. pose proof (qlen_nonneg k). assert (qlen (pop k) = qlen k - 1) as Hq.
  { unfold qlen, pop in *. cbn [pi_nwrite pi_nread set_pi_nread]. unfold u32, PIPESIZE in *. zlia. }
  split.
  - split; [done|apply u32_range|done|lia].
  - unfold queue. rw Hq. replace (qlen k) with (1 + (qlen k - 1)) at 1 by lia. rw seqZ_app; [|lia|lia]. cbn [app].
    rw fmap_app seqZ_one. cbn [fmap list_fmap app]. rw Z.add_0_r. f_equal.
    apply list_eq. intros i. rw 2!list_lookup_fmap. destruct (decide (i < qlen k - 1)) as [Hi|Hi].
    + rw !lookup_seqZ_lt //. cbn [fmap option_fmap option_map]. do 2 f_equal. unfold pop, u32, PIPESIZE. cbn. zlia.
    + rw !lookup_seqZ_ge //; lia.
Qed.

Lemma push_flags b k : pi_readopen (push b k) = pi_readopen k ∧ pi_writeopen (push b k) = pi_writeopen k.
Proof. done. Qed.

(** ** The system calls *)

Section pipes.
Context `{Image}.
Context (p : nat) (q : proc) (pi : Z) (root : Z) (N : ptree) (u : umap).

Lemma uspace_keep s s' l :
  uspace s root l N u → k_mem s' = k_mem s → k_freelist s' = k_freelist s → can_lock LKmem s' →
  uspace s' root l N u.
Proof.
  intros [[O1 O2 O3 O4] U2 U3 U4 U5 U6] Em Ef Hl. split; rw ?Em //. split; rw ?Em //.
  destruct O2 as [F1 F2]. split; rw ?Em ?Ef //.
Qed.

(** The running process [q] with its memory, and the pipe [k]. *)
Record penv (s : kstate) (k : pipe) : Prop := {
  pe_kmem : can_lock LKmem s;
  pe_proc : k_procs s !! p = Some q;
  pe_root : p_pagetable q = root;
  pe_alive : p_killed q = 0;
  pe_mem : ∃ l, uspace s root l N u;
  pe_pipe : k_pipes s !! pi = Some k;
  pe_ok : pipe_ok k
}.

Lemma get_pipe_ok s k : k_pipes s !! pi = Some k → get_pipe pi s = Ret k s.
Proof. intros Hk. unfold get_pipe. rw bind_gets. by rw Hk. Qed.
Lemma upd_pipe_ok s k f :
  k_pipes s !! pi = Some k → upd_pipe pi f s = Ret tt (set_k_pipes (<[pi := f k]> (k_pipes s)) s).
Proof.
  intros Hk. unfold upd_pipe, modify. do 2 f_equal. apply map_eq. intros j.
  destruct (decide (j = pi)) as [->|Hne].
  - by rw lookup_alter_eq lookup_insert_eq Hk.
  - by rw lookup_alter_ne // lookup_insert_ne.
Qed.

Lemma penv_set s k k' : penv s k → pipe_ok k' → penv (set_k_pipes (<[pi := k']> (k_pipes s)) s) k'.
Proof.
  intros [? ? ? ? [l Hu] ? ?] Hk. split; try done; [exists l; by eapply uspace_keep|]. kcbn. by rw lookup_insert_eq.
Qed.

(** The user bytes from [a] on. *)
Definition ubytes (s : kstate) (a n : Z) : list Z := ubyte (k_mem s) u <$> seqZ a n.

Lemma ubytes_cons s a n : 0 < n → ubytes s a n = ubyte (k_mem s) u a :: ubytes s (a + 1) (n - 1).
Proof. intros Hn. unfold ubytes. rw seqZ_cons //. Qed.

Lemma pipewrite_step s k addr n i :
  penv s k → pi_readopen k ≠ 0 → 0 ≤ i < n → 0 ≤ addr → addr + n ≤ MAXVA →
  user_ok u (addr + i) → qlen k < PIPESIZE →
  let k' := push (ubyte (k_mem s) u (addr + i)) k in
  pipewrite_body pi addr n p i s = Ret (inl (i + 1)) (set_k_pipes (<[pi := k']> (k_pipes s)) s).
Proof.
  intros [Hl Hp Hroot Hal [l Hu] Hk Hok] Hro Hi Ha Hm Huo Hq k'. unfold pipewrite_body.
  rewrite -> (proj2 (Z.ltb_lt i n)) by lia. cbn [negb]. mstep (get_pipe_ok s k Hk).
  mstep (get_proc_spec s p q Hp). rw Hal. rewrite -> (proj2 (Z.eqb_neq (pi_readopen k) 0)) by done. cbn [orb negb Z.eqb].
  rw full_spec //. rewrite -> (proj2 (Z.eqb_neq (qlen k) PIPESIZE)) by lia. rw Hroot.
  change MAXVA with (2 ^ 38) in Hm. rewrite -> (u64_small (addr + i)) by lia.
  erewrite bind_Ret.
  2: { eapply (copyin_spec s root l N u (addr + i) 1); [done|lia|lia|change MAXVA with (2 ^ 38); lia|].
       intros x Hx. by replace x with (addr + i) by lia. }
  rw seqZ_one. cbn [fst snd fmap list_fmap]. change (0 =? -1) with false. cbv iota.
  by mstep (upd_pipe_ok s k (λ k, set_pi_nwrite (u32 (pi_nwrite k + 1))
      (set_pi_data (zset (pi_data k) (pi_nwrite k mod PIPESIZE) (zget [ubyte (k_mem s) u (addr + i)] 0)) k)) Hk).
Qed.

Lemma pipewrite_done s addr n : pipewrite_body pi addr n p n s = Ret (inr (Some n)) s.
Proof. unfold pipewrite_body. by rw Z.ltb_irrefl. Qed.

(** The iterations that store [m] bytes for which there is room. *)
Lemma pipewrite_loop (m : nat) : ∀ fuel s k addr n i,
  penv s k → pi_readopen k ≠ 0 → 0 ≤ i → i + m ≤ n → 0 ≤ addr → addr + n ≤ MAXVA →
  (∀ x, addr + i ≤ x < addr + n → user_ok u x) → qlen k + m ≤ PIPESIZE →
  ∃ k', loopM (m + fuel) (pipewrite_body pi addr n p) i s =
          loopM fuel (pipewrite_body pi addr n p) (i + m) (set_k_pipes (<[pi := k']> (k_pipes s)) s) ∧ pipe_ok k' ∧
    queue k' = queue k ++ ubytes s (addr + i) m ∧ pi_readopen k' = pi_readopen k ∧ pi_writeopen k' = pi_writeopen k.
Proof.
  induction m as [|m IH]; intros fuel s k addr n i Hpe Hro Hi Hin Ha Hmx Huo Hq.
  - exists k. rw Z.add_0_r. split_and!; [|apply Hpe|by rw app_nil_r|done|done]. cbn [Nat.add].
    rw insert_id; [by destruct s|apply Hpe].
  - cbn [Nat.add loopM]. assert (qlen k < PIPESIZE) as Hlt by lia. set (b := ubyte (k_mem s) u (addr + i)).
    erewrite bind_Ret; [|apply pipewrite_step; [done|done|lia|done|done|apply Huo; lia|done]]. fold b.
    destruct (push_ok b k (pe_ok _ _ Hpe) Hlt) as [Hok1 Hq1].
    set (s1 := set_k_pipes _ s).
    assert (qlen (push b k) = qlen k + 1) as Hql.
    { apply (f_equal length) in Hq1. rw length_app !length_queue in Hq1. cbn in Hq1.
      pose proof (qlen_nonneg k). pose proof (qlen_nonneg (push b k)). lia. }
    destruct (IH fuel s1 (push b k) addr n (i + 1)) as (k' & E & Hok' & Hq' & Hr' & Hw'); try done; try lia.
    { exact (penv_set s k _ Hpe Hok1). } { intros x Hx. apply Huo. lia. }
    exists k'. split_and!; try done.
    + rw E. unfold s1. kcbn. rw insert_insert_eq. f_equal. lia.
    + rw Hq' Hq1 -app_assoc. f_equal. rw (ubytes_cons s (addr + i) (S m)); [|lia]. cbn [app]. fold b. f_equal.
      change (ubytes s1) with (ubytes s). f_equal; lia.
Qed.

Lemma piperead_step s k addr n i b :
  penv s k → 0 ≤ i < n → 0 ≤ addr → addr + n ≤ MAXVA → user_ok u (addr + i) →
  qlen k ≠ 0 → b = zget (pi_data k) (pi_nread k mod PIPESIZE) →
  ∃ m', let s' := set_k_mem m' (set_k_pipes (<[pi := pop k]> (k_pipes s)) s) in
    piperead_body pi addr n p i s = Ret (inl (i + 1)) s' ∧ penv s' (pop k) ∧
    ∀ x, ubyte m' u x = if decide (x = addr + i) then b else ubyte (k_mem s) u x.
Proof.
  intros Hpe Hi Ha Hm Huo Hq ->. destruct (pop_ok k (pe_ok _ _ Hpe) Hq) as [Hok1 _].
  pose proof (penv_set s k (pop k) Hpe Hok1) as Hpe1. set (s1 := set_k_pipes _ s) in *.
  set (b := zget _ _). change MAXVA with (2 ^ 38) in Hm.
  destruct (pe_mem _ _ Hpe1) as [l Hu1]. destruct (copyout_spec s1 root l N u (addr + i) [b] Hu1) as (m' & E & Hu' & _ & Hb);
    [lia|change MAXVA with (2 ^ 38); cbn; lia|intros x Hx; cbn in Hx; by replace x with (addr + i) by lia|].
  exists m'. cbv zeta. split_and!.
  - unfold piperead_body. rewrite -> (proj2 (Z.ltb_lt i n)) by lia. cbn [negb].
    mstep (get_pipe_ok s k (pe_pipe _ _ Hpe)). rw empty_spec; [|apply Hpe].
    rewrite -> (proj2 (Z.eqb_neq (qlen k) 0)) by done.
    erewrite bind_Ret; [|exact (upd_pipe_ok s k (λ k, set_pi_nread (u32 (pi_nread k + 1)) k) (pe_pipe _ _ Hpe))].
    change (set_pi_nread (u32 (pi_nread k + 1)) k) with (pop k). fold s1.
    mstep (get_proc_spec s1 p q (pe_proc _ _ Hpe1)). rw (pe_root _ _ Hpe). rewrite -> (u64_small (addr + i)) by lia.
    fold b. cbn [length] in E. by mstep E.
  - destruct Hpe1. split; try done. by exists l.
  - intros x. rw Hb. cbn [length]. repeat case_decide; try lia; [|done]. subst x. by rw Z.sub_diag.
Qed.

Lemma piperead_stop s k addr n i :
  penv s k → n ≤ i ∨ qlen k = 0 → piperead_body pi addr n p i s = Ret (inr i) s.
Proof.
  intros Hpe Hs. unfold piperead_body. destruct (Z.ltb_spec i n) as [Hlt|Hge]; cbn [negb]; [|done].
  mstep (get_pipe_ok s k (pe_pipe _ _ Hpe)). rw empty_spec; [|apply Hpe].
  by rewrite -> (proj2 (Z.eqb_eq (qlen k) 0)) by lia.
Qed.

Lemma piperead_loop (m : nat) : ∀ fuel s k addr n i,
  penv s k → m = Z.to_nat (Z.min (n - i) (qlen k)) → 0 ≤ i ≤ n → 0 ≤ addr → addr + n ≤ MAXVA →
  (∀ x, addr + i ≤ x < addr + n → user_ok u x) → (m < fuel)%nat →
  ∃ k' m', let s' := set_k_mem m' (set_k_pipes (<[pi := k']> (k_pipes s)) s) in
    loopM fuel (piperead_body pi addr n p) i s = Ret (i + m) s' ∧ penv s' k' ∧
    queue k = take m (queue k) ++ queue k' ∧
    ∀ x, ubyte m' u x = if decide (addr + i ≤ x < addr + i + m) then queue k !!! Z.to_nat (x - (addr + i))
                        else ubyte (k_mem s) u x.
Proof.
  induction m as [|m IH]; intros fuel s k addr n i Hpe Hm Hi Ha Hmx Huo Hf; (destruct fuel as [|fuel]; [lia|]); cbn [loopM];
    pose proof (qlen_nonneg k) as Hq0.
  - mstep (piperead_stop s k addr n i Hpe ltac:(lia)). exists k, (k_mem s). cbv zeta.
    assert (set_k_mem (k_mem s) (set_k_pipes (<[pi := k]> (k_pipes s)) s) = s) as ->.
    { rw insert_id; [by destruct s|apply Hpe]. }
    split_and!; [by rw Z.add_0_r|done|done|]. intros x. rw decide_False //. lia.
  - assert (qlen k ≠ 0) as Hq by lia.
    destruct (pop_ok k (pe_ok _ _ Hpe) Hq) as [Hok1 Hqk]. set (b := zget _ _) in Hqk.
    destruct (piperead_step s k addr n i b Hpe) as (m1 & E1 & Hpe1 & Hb1); try done; try lia; [apply Huo; lia|].
    mstep E1. set (s1 := set_k_mem m1 _) in *.
    assert (qlen (pop k) = qlen k - 1) as Hql.
    { apply (f_equal length) in Hqk. cbn in Hqk. rw !length_queue in Hqk. pose proof (qlen_nonneg (pop k)). lia. }
    destruct (IH fuel s1 (pop k) addr n (i + 1)) as (k' & m' & E & Hpe' & Hq' & Hb'); try done; try lia.
    { intros x Hx. apply Huo. lia. }
    exists k', m'. cbv zeta in *.
    assert (set_k_mem m' (set_k_pipes (<[pi := k']> (k_pipes s1)) s1) =
            set_k_mem m' (set_k_pipes (<[pi := k']> (k_pipes s)) s)) as Es.
    { unfold s1. kcbn. by rw insert_insert_eq. }
    rw Es in E Hpe'. split_and!; [rw E; f_equal; lia|done|rw Hqk; cbn [take app]; by rw -Hq'|].
    intros x. rw Hb' Hqk. change (k_mem s1) with m1. rw Hb1. repeat case_decide; try lia; try done.
    + replace (Z.to_nat (x - (addr + i))) with (S (Z.to_nat (x - (addr + (i + 1))))) by lia. done.
    + subst x. by rw Z.sub_diag.
Qed.

(** The state outside of a critical section: besides, no lock is held. *)
Record penv0 (s : kstate) (k : pipe) : Prop := {
  p0_env : penv s k;
  p0_rest : at_rest p (k_sync s);
  p0_procs : procs_free s;
  p0_lock : lock_free (LPipe pi) (k_sync s);
  p0_fuel : k_fuel s ≠ O
}.

(** In the critical section. *)
Definition locked (s : kstate) : kstate := set_k_sync (acq (LPipe pi) (k_sync s)) s.

Lemma penv_locked s k : penv0 s k → penv (locked s) k.
Proof.
  intros [[[Hok Hkm] P2 P3 P4 [l P5] P6 P7] _ _ _ _].
  assert (can_lock LKmem (locked s)) as Hl.
  { split; [by apply acq_ok|]. by apply acq_free_ne. }
  split; try done. exists l. by eapply uspace_keep.
Qed.

Lemma wake_self ch ps : ps !! p = Some q → imap (wake ch (Some p)) ps !! p = Some q.
Proof.
  intros Hp. rw list_lookup_imap Hp. cbn. f_equal. unfold wake. rw decide_False //. by intros [? _].
Qed.

Lemma wakeup_locked s k ch m pk :
  penv0 s k → let s1 := set_k_mem m (set_k_pipes (<[pi := pk]> (k_pipes s)) s) in
  wakeup ch (locked s1) = Ret tt (locked (set_k_procs (imap (wake ch (Some p)) (k_procs s)) s1)).
Proof.
  intros [[[Hok _] _ _ _ _ _ _] Hr [Hlen Hpf] _ _] s1.
  rewrite -> (wakeup_spec (locked s1) ch (Some p)); [done|by apply acq_ok|by apply running_acq, at_rest_running|].
  split; [done|]. intros i Hi. apply acq_free_ne; [done|by apply Hpf].
Qed.

(** Leaving the critical section: wake up the other side, release the lock. *)
Lemma pipe_leave s k ms pk ch :
  penv0 s k → pipe_ok pk →
  let s1 := set_k_mem ms (set_k_pipes (<[pi := pk]> (k_pipes s)) s) in
  let s2 := set_k_procs (imap (wake ch (Some p)) (k_procs s)) s1 in
  (∃ l, uspace s1 root l N u) →
  (∀ A (r : A), (wakeup ch ;; krelease (LPipe pi) ;; mret r) (locked s1) = Ret r s2) ∧ penv0 s2 pk.
Proof.
  intros Hpe Hpk s1 s2 [l Hu1]. pose proof Hpe as [[[Hok Hkm] P2 P3 P4 P5 P6 P7] Hr [Hlen Hpf] Hlk Hf]. split.
  - intros A r. rewrite -> (bind_Ret _ _ _ _ _ (wakeup_locked s k ch ms pk Hpe)).
    erewrite bind_Ret; [|by apply (krelease_acq (LPipe pi) _ (k_sync s))]. unfold s2, s1. by destruct s.
  - split; try done.
    + split; try done; [by apply wake_self|exists l; by eapply uspace_keep|]. unfold s2, s1. kcbn. by rw lookup_insert_eq.
    + split; [unfold s2; kcbn; by rw length_imap|done].
Qed.

(** ** Sleeping and waking up *)

(** The process sleeps on [ch], the lock of the pipe is released, and nobody
    else sleeps on [other], the channel of the other side. *)
Record asleep (ch other : chan) (s : kstate) (k : pipe) : Prop := {
  as_proc : k_procs s !! p = Some (set_p_state SLEEPING (set_p_chan (Some ch) q));
  as_lock : lock_free (LPipe pi) (k_sync s);
  as_pipe : k_pipes s !! pi = Some k;
  as_ok : pipe_ok k;
  as_other i ki : i ≠ p → k_procs s !! i = Some ki → ¬ (p_state ki = SLEEPING ∧ p_chan ki = Some other)
}.

(** The scheduler resumes the process, which slept in [s1], in [s2]: it runs as
    before, its memory is as it was, and the pipe is now [k2]. *)
Record woken (intr : Z) (s1 s2 : kstate) (k2 : pipe) : Prop := {
  wk_sync : ∃ y2, at_rest p y2 ∧ k_sync s2 = acq (LProc p) y2 ∧ intr_enabled y2 = intr ∧
    lock_free (LPipe pi) y2 ∧ lock_free LKmem y2 ∧ ∀ i, (i < NPROC)%nat → lock_free (LProc i) y2;
  wk_procs : length (k_procs s2) = NPROC;
  wk_proc : ∃ q2, k_procs s2 !! p = Some q2 ∧ set_p_chan None q2 = q;
  wk_mem : ∃ l, uspace s2 root l N u;
  wk_bytes x : ubyte (k_mem s2) u x = ubyte (k_mem s1) u x;
  wk_pipe : k_pipes s2 !! pi = Some k2;
  wk_ok : pipe_ok k2;
  wk_fuel : k_fuel s2 ≠ O
}.

(** [sleep] in the critical section. After it the process is in the critical
    section again, as if it had just entered it. *)
Lemma sleep_locked s k m pk ch ps :
  penv0 s k → length ps = NPROC → ps !! p = Some q →
  let s1 := set_k_procs ps (set_k_mem m (set_k_pipes (<[pi := pk]> (k_pipes s)) s)) in
  ∃ s2 kont, sleep ch (LPipe pi) (locked s1) = Switch s2 kont ∧
    k_procs s2 = <[p := set_p_state SLEEPING (set_p_chan (Some ch) q)]> ps ∧
    k_sync s2 = acq (LProc p) (k_sync s) ∧ k_mem s2 = m ∧ k_pipes s2 = <[pi := pk]> (k_pipes s) ∧
    ∀ s3 k3, woken (intr_enabled (k_sync s)) s2 s3 k3 →
      ∃ s4, kont s3 = Ret tt (locked s4) ∧ penv0 s4 k3 ∧ k_mem s4 = k_mem s3 ∧
        intr_enabled (k_sync s4) = intr_enabled (k_sync s).
Proof.
  intros [[[Hok Hkm] P2 P3 P4 P5 P6 P7] Hr [Hlen Hpf] Hlk Hf] Hps Hp s1.
  destruct (sleep_spec (locked s1) p (k_sync s) q ch (LPipe pi) Hr Hlk) as (kont & E & Hk); [done|done|done|].
  eexists _, kont. split; [exact E|]. split_and!; [done|done|done|done|].
  intros s3 k3 [(y2 & R1 & R2 & R3 & R4 & R5 & R6) W2 (q2 & W3 & W3') [l W4] _ W5 W6 W7].
  exists (set_k_procs (alter (set_p_chan None) p (k_procs s3)) (set_k_sync y2 s3)).
  split; [|split; [|by split]].
  - rewrite -> (Hk s3 y2) by done. by destruct s3.
  - assert (cpu_ok y2) as Hok2 by apply R1.
    split; [|done|split; [kcbn; by rw length_alter|done]|done|done].
    split; try done; [|exists l; by eapply uspace_keep].
    kcbn. by rw list_lookup_alter_eq W3 -W3'.
Qed.

(** ** The bounded queue *)

(** [pwrites n intr que bs o]: the outcome [o] of a call that still has to append
    [bs] to a pipe that holds [que]. When they fit, it returns [n] with the bytes
    appended. Otherwise it fills the pipe to the last byte and sleeps; whenever it
    is resumed while there is room and a reader, it goes on with the rest. *)
Inductive pwrites (n intr : Z) : list Z → list Z → outcome kstate Z → Prop :=
| pw_ret que bs s' k' :
    Z.of_nat (length que + length bs) ≤ PIPESIZE → penv0 s' k' → queue k' = que ++ bs →
    pwrites n intr que bs (Ret n s')
| pw_sleep que bs s1 k1 kont :
    let room := (Z.to_nat PIPESIZE - length que)%nat in
    PIPESIZE < Z.of_nat (length que + length bs) →
    asleep (CPipeW pi) (CPipeR pi) s1 k1 → queue k1 = que ++ take room bs → qlen k1 = PIPESIZE →
    (∀ s2 k2, woken intr s1 s2 k2 → pi_readopen k2 ≠ 0 → qlen k2 < PIPESIZE →
       pwrites n intr (queue k2) (drop room bs) (kont s2)) →
    pwrites n intr que bs (Switch s1 kont).

(** What a call leaves that has read [c] bytes into [addr] from the pipe [k]: they
    are the first ones. *)
Record taken (addr c : Z) (s : kstate) (k : pipe) (s' : kstate) (k' : pipe) : Prop := {
  tk_env : penv0 s' k';
  tk_queue : queue k = ubytes s' addr c ++ queue k';
  tk_rest x : ¬ (addr ≤ x < addr + c) → ubyte (k_mem s') u x = ubyte (k_mem s) u x
}.

(** [preads addr n intr s k o]: the outcome of a call that reads up to [n] bytes.
    When the pipe holds bytes, or no writer has it open, it returns with as many
    as there are, so 0 at the end. Otherwise it sleeps with the pipe as it is, and
    reads when it is resumed and there are bytes or the writers have gone. *)
Inductive preads (addr n intr : Z) (s : kstate) (k : pipe) : outcome kstate Z → Prop :=
| pr_ret s' k' :
    0 < qlen k ∨ pi_writeopen k = 0 → taken addr (Z.min n (qlen k)) s k s' k' →
    preads addr n intr s k (Ret (Z.min n (qlen k)) s')
| pr_sleep s1 kont :
    qlen k = 0 → pi_writeopen k ≠ 0 → k_procs s1 !! p = Some (set_p_state SLEEPING (set_p_chan (Some (CPipeR pi)) q)) →
    lock_free (LPipe pi) (k_sync s1) → k_pipes s1 !! pi = Some k →
    (∀ s2 k2, woken intr s1 s2 k2 → 0 < qlen k2 ∨ pi_writeopen k2 = 0 →
       ∃ s3 k3, kont s2 = Ret (Z.min n (qlen k2)) s3 ∧ taken addr (Z.min n (qlen k2)) s2 k2 s3 k3) →
    preads addr n intr s k (Switch s1 kont).

Lemma wake_none ch ps i ki :
  i ≠ p → imap (wake ch (Some p)) ps !! i = Some ki → ¬ (p_state ki = SLEEPING ∧ p_chan ki = Some ch).
Proof.
  intros Hi. rw list_lookup_imap. destruct (ps !! i) as [k0|]; [|done]. cbn. intros [= <-]. unfold wake.
  case_decide as E; [by intros [? _]|]. intros [H1 H2]. apply E. split_and!; [congruence|done|done].
Qed.

(** The rest of [pipewrite] after the loop. *)
Definition write_end (r : option Z) : KM Z :=
  match r with
  | None => mret (-1)
  | Some i => wakeup (CPipeR pi) ;; krelease (LPipe pi) ;; mret i
  end.

Lemma qlen_queue k : Z.of_nat (length (queue k)) = qlen k.
Proof. rw length_queue. pose proof (qlen_nonneg k). lia. Qed.

Lemma length_ubytes s a n : length (ubytes s a n) = Z.to_nat n.
Proof. unfold ubytes. by rw length_fmap length_seqZ. Qed.
Lemma ubytes_split s a (m n : nat) : (m ≤ n)%nat →
  take m (ubytes s a n) = ubytes s a m ∧ drop m (ubytes s a n) = ubytes s (a + m) (n - m).
Proof.
  intros Hm. assert (ubytes s a n = ubytes s a m ++ ubytes s (a + m) (n - m)) as E.
  { unfold ubytes. rw -fmap_app -seqZ_app; [|lia|lia]. do 2 f_equal. lia. }
  rw E take_app_length' ?drop_app_length' //; rw length_ubytes; lia.
Qed.

(** The state with the pipe changed, and memory as it is. *)
Lemma with_pipe s k' : set_k_mem (k_mem s) (set_k_pipes (<[pi := k']> (k_pipes s)) s) = set_k_pipes (<[pi := k']> (k_pipes s)) s.
Proof. by destruct s. Qed.

(** The iteration that finds the pipe full. *)
Lemma pipewrite_full s k k' addr n i :
  penv0 s k → pipe_ok k' → pi_readopen k' ≠ 0 → qlen k' = PIPESIZE → i < n →
  ∃ s1 kont, pipewrite_body pi addr n p i (locked (set_k_pipes (<[pi := k']> (k_pipes s)) s)) = Switch s1 kont ∧
    asleep (CPipeW pi) (CPipeR pi) s1 k' ∧ k_mem s1 = k_mem s ∧
    ∀ s2 k2, woken (intr_enabled (k_sync s)) s1 s2 k2 →
      ∃ s3, kont s2 = Ret (inl i) (locked s3) ∧ penv0 s3 k2 ∧ k_mem s3 = k_mem s2 ∧
        intr_enabled (k_sync s3) = intr_enabled (k_sync s).
Proof.
  intros Hpe Hok Hro Hq Hi. pose proof Hpe as [[_ P2 _ P4 _ P6 _] Hr [Hlen _] Hlk _].
  set (sA := set_k_pipes _ s). unfold pipewrite_body.
  rewrite -> (proj2 (Z.ltb_lt i n)) by lia. cbn [negb].
  assert (k_pipes (locked sA) !! pi = Some k') as Hk' by (unfold sA; kcbn; by rw lookup_insert_eq).
  mstep (get_pipe_ok (locked sA) k' Hk'). mstep (get_proc_spec (locked sA) p q P2).
  rw P4. rewrite -> (proj2 (Z.eqb_neq (pi_readopen k') 0)) by done. cbn [orb negb Z.eqb].
  rw full_spec // Hq Z.eqb_refl. pose proof (wakeup_locked s k (CPipeR pi) (k_mem s) k' Hpe) as Ew. cbn zeta in Ew.
  rw with_pipe in Ew. rewrite -> (bind_Ret _ _ _ _ _ Ew).
  set (ps := imap (wake (CPipeR pi) (Some p)) (k_procs s)).
  destruct (sleep_locked s k (k_mem s) k' (CPipeW pi) ps Hpe) as (s1 & kont & E & E1 & E2 & E3 & E4 & Hk);
    [unfold ps; by rw length_imap|by apply wake_self|].
  rw with_pipe in E. rewrite -> (bind_Switch _ _ _ _ _ E). eexists s1, _. split; [done|]. split; [|split; [done|]].
  - split; [|by rw E2; apply acq_free_ne|by rw E4 lookup_insert_eq|done|].
    + rw E1 list_lookup_insert_eq //. unfold ps. rw length_imap. by eapply lookup_lt_Some.
    + intros j kj Hj. rw E1 list_lookup_insert_ne //. by apply wake_none.
  - intros s2 k2 Hw. destruct (Hk s2 k2 Hw) as (s3 & Ek & H3). exists s3. split; [|done]. by rw Ek.
Qed.

(** The loop, from byte [i] on, [m] bytes before the end. *)
Section write.
Context (intr addr n : Z) (Ha : 0 ≤ addr) (Hmx : addr + n ≤ MAXVA) (Huo : ∀ x, addr ≤ x < addr + n → user_ok u x).

Lemma pipewrite_fits fuel s k i (m : nat) :
  penv0 s k → pi_readopen k ≠ 0 → 0 ≤ i → i + m = n → qlen k + m ≤ PIPESIZE → (m < fuel)%nat →
  pwrites n intr (queue k) (ubytes s (addr + i) m) ((loopM fuel (pipewrite_body pi addr n p) i ≫= write_end) (locked s)).
Proof.
  intros Hpe Hro Hi Hn Hfit Hf. pose proof (penv_locked s k Hpe) as Hpl.
  destruct (pipewrite_loop m (fuel - m) (locked s) k addr n i Hpl Hro) as (k' & E & Hok' & Hq' & _); try lia; try done.
  { intros x Hx. apply Huo. lia. }
  replace (m + (fuel - m))%nat with fuel in E by lia.
  assert (loopM fuel (pipewrite_body pi addr n p) i (locked s) = Ret (Some n) (locked (set_k_pipes (<[pi := k']> (k_pipes s)) s))) as El.
  { rw E. destruct (fuel - m)%nat as [|f'] eqn:Ef; [lia|]. cbn [loopM]. rw Hn.
    by mstep (pipewrite_done (set_k_pipes (<[pi := k']> (k_pipes s)) (locked s)) addr n). }
  rewrite -> (bind_Ret _ _ _ _ _ El). cbn [write_end].
  destruct (pipe_leave s k (k_mem s) k' (CPipeR pi) Hpe Hok') as [Elv Hpe'].
  { destruct (pe_mem _ _ (p0_env _ _ Hpe)) as [l Hu]. exists l. eapply uspace_keep; [exact Hu|done|done|apply Hpe]. }
  rw with_pipe in Elv Hpe'. rw Elv. eapply pw_ret; [|exact Hpe'|by rw Hq'].
  rw length_ubytes. pose proof (qlen_queue k). lia.
Qed.

Lemma pipewrite_from (μ : nat) : ∀ fuel s k i (m : nat),
  penv0 s k → intr_enabled (k_sync s) = intr → pi_readopen k ≠ 0 → 0 ≤ i → i + m = n →
  (2 * m + (if decide (qlen k = PIPESIZE) then 1 else 0) = μ)%nat → (μ < fuel)%nat →
  pwrites n intr (queue k) (ubytes s (addr + i) m) ((loopM fuel (pipewrite_body pi addr n p) i ≫= write_end) (locked s)).
Proof.
  induction (lt_wf μ) as [μ _ IH]. intros fuel s k i m Hpe Hy Hro Hi Hn Hμ Hf.
  pose proof (penv_locked s k Hpe) as Hpl. pose proof (qlen_nonneg k) as Hq0. pose proof (po_len _ (pe_ok _ _ Hpl)) as Hql.
  destruct (decide (qlen k + m ≤ PIPESIZE)) as [Hfit|Hnf]; [apply pipewrite_fits; try done; lia|].
  set (r := Z.to_nat (PIPESIZE - qlen k)). pose proof (qlen_queue k) as Hlq.
  destruct (ubytes_split s (addr + i) r m ltac:(lia)) as [Et Ed].
  destruct (pipewrite_loop r (fuel - r) (locked s) k addr n i Hpl Hro) as (k' & E & Hok' & Hq' & Hro' & _); try lia; try done.
  { intros x Hx. apply Huo. lia. }
  assert (qlen k' = PIPESIZE) as Hfull.
  { pose proof (qlen_queue k') as Hl'. rw Hq' length_app length_ubytes in Hl'. lia. }
  destruct (pipewrite_full s k k' addr n (i + r) Hpe Hok') as (s1 & kont & Eb & Has & Em & Hk); [by rw Hro'|done|lia|].
  replace (r + (fuel - r))%nat with fuel in E by lia.
  destruct (fuel - r)%nat as [|f'] eqn:Ef; [case_decide; lia|].
  assert ((loopM fuel (pipewrite_body pi addr n p) i ≫= write_end) (locked s) = Switch s1 (λ t,
    obind (obind (kont t) (λ x, match x return KM (option Z) with inl x' => loopM f' (pipewrite_body pi addr n p) x' | inr y => mret y end)) write_end)) as El.
  { apply bind_Switch. rw E. cbn [loopM]. by apply bind_Switch. }
  rw El. replace (Z.to_nat PIPESIZE - length (queue k))%nat with r by lia.
  eapply pw_sleep; [rw length_ubytes; lia|exact Has| |done|]; replace (Z.to_nat PIPESIZE - length (queue k))%nat with r by lia.
  - by rw Et.
  - intros s2 k2 Hw Hro2 Hq2. rw -Hy in Hw. destruct (Hk s2 k2 Hw) as (s3 & Ek & Hpe3 & Em3 & Hy3).
    rw Ek Ed. cbn [obind].
    assert (ubytes s (addr + i + r) (m - r) = ubytes s3 (addr + (i + r)) (m - r)%nat) as ->.
    { unfold ubytes. rw Em3. replace (addr + (i + r)) with (addr + i + r) by lia. replace (Z.of_nat (m - r)) with (m - r) by lia.
      apply list_fmap_ext. intros ? x _. rw (wk_bytes _ _ _ _ Hw). by rw Em. }
    change (obind (loopM f' (pipewrite_body pi addr n p) (i + r) (locked s3)) write_end)
      with ((loopM f' (pipewrite_body pi addr n p) (i + r) ≫= write_end) (locked s3)).
    eapply IH; [|exact Hpe3|congruence|done|lia|lia|reflexivity|].
    + subst μ. rewrite -> (decide_False (P := qlen k2 = _)) by lia. case_decide; lia.
    + rewrite -> (decide_False (P := qlen k2 = _)) by lia. case_decide; lia.
Qed.
End write.

(** *** Reading *)

(** The rest of [piperead] after the first loop. *)
Definition read_end (addr n : Z) (killed : bool) : KM Z :=
  if killed then mret (-1) else
  i ← loopM (S (Z.to_nat n)) (piperead_body pi addr n p) 0;
  wakeup (CPipeW pi) ;;
  krelease (LPipe pi) ;;
  mret i.

Section read.
Context (addr n : Z) (Hn : 0 ≤ n) (Ha : 0 ≤ addr) (Hm : addr + n ≤ MAXVA) (Huo : ∀ x, addr ≤ x < addr + n → user_ok u x).

Lemma piperead_rest s k :
  penv0 s k → let c := Z.min n (qlen k) in
  ∃ s' k', read_end addr n false (locked s) = Ret c s' ∧ taken addr c s k s' k'.
Proof.
  intros Hpe c. pose proof (qlen_nonneg k) as Hq0. pose proof (penv_locked s k Hpe) as Hpe1. unfold read_end.
  destruct (piperead_loop (Z.to_nat c) (S (Z.to_nat n)) (locked s) k addr n 0 Hpe1) as (k' & m' & E & Hpe' & Hq' & Hb); try lia.
  { intros x Hx. apply Huo. lia. }
  mstep E. destruct (pipe_leave s k m' k' (CPipeW pi) Hpe) as [El Hpe2]; [apply Hpe'|..].
  { destruct (pe_mem _ _ Hpe') as [l Hu]. exists l. eapply uspace_keep; [exact Hu|done|done|apply Hpe]. }
  eexists _, k'. split; [|split; [exact Hpe2| |]].
  - replace (0 + Z.to_nat c) with c by lia. rewrite <- (El _ c). f_equal.
  - rewrite -> Hq' at 1. f_equal. apply list_eq. intros i. unfold ubytes. rw list_lookup_fmap. kcbn.
    pose proof (length_queue k) as Hlq. destruct (decide (i < Z.to_nat c)%nat) as [Hi|Hi].
    + rw lookup_take_lt // lookup_seqZ_lt; [|lia]. cbn. rw Hb decide_True; [|lia].
      rewrite -> list_lookup_lookup_total_lt by lia. do 2 f_equal. lia.
    + rw lookup_take_ge; [|lia]. rw lookup_seqZ_ge //. lia.
  - intros x Hx. kcbn. rw Hb decide_False //. lia.
Qed.

(** The first loop: there is something to read, or the writers have gone. *)
Definition wait_body (_ : unit) : KM (unit + bool) :=
  k ← get_pipe pi;
  if negb ((pi_nread k =? pi_nwrite k) && negb (pi_writeopen k =? 0)) then mret (inr false) else
  q ← get_proc p;
  if negb (p_killed q =? 0) then krelease (LPipe pi) ;; mret (inr true) else
  sleep (CPipeR pi) (LPipe pi) ;;
  mret (inl tt).

Lemma wait_ready fuel s k :
  penv s k → 0 < qlen k ∨ pi_writeopen k = 0 → loopM (S fuel) wait_body tt s = Ret false s.
Proof.
  intros Hpe Hq. cbn [loopM]. unfold wait_body at 2. rewrite -> (bind_assoc _ _ _ _ _ _ (get_pipe_ok s k (pe_pipe _ _ Hpe))).
  rw empty_spec; [|apply Hpe]. replace ((qlen k =? 0) && negb (pi_writeopen k =? 0)) with false; [by rw bind_mret|].
  destruct Hq as [Hq| ->]; [|by rw andb_false_r]. by rewrite -> (proj2 (Z.eqb_neq (qlen k) 0)) by lia.
Qed.

Lemma wait_empty s k :
  penv0 s k → qlen k = 0 → pi_writeopen k ≠ 0 →
  ∃ s1 kont, wait_body tt (locked s) = Switch s1 kont ∧
    k_procs s1 !! p = Some (set_p_state SLEEPING (set_p_chan (Some (CPipeR pi)) q)) ∧
    lock_free (LPipe pi) (k_sync s1) ∧ k_pipes s1 !! pi = Some k ∧
    ∀ s2 k2, woken (intr_enabled (k_sync s)) s1 s2 k2 →
      ∃ s3, kont s2 = Ret (inl tt) (locked s3) ∧ penv0 s3 k2 ∧ k_mem s3 = k_mem s2.
Proof.
  intros Hpe Hq Hw. pose proof Hpe as [[_ P2 _ P4 _ P6 P7] Hr [Hlen _] Hlk _]. unfold wait_body.
  mstep (get_pipe_ok (locked s) k P6). rw empty_spec // Hq.
  rewrite -> (proj2 (Z.eqb_neq (pi_writeopen k) 0)) by done. cbn [Z.eqb andb negb].
  mstep (get_proc_spec (locked s) p q P2). rw P4. cbn [Z.eqb negb].
  destruct (sleep_locked s k (k_mem s) k (CPipeR pi) (k_procs s) Hpe Hlen P2) as (s1 & kont & E & E1 & E2 & _ & E4 & Hk).
  assert (set_k_procs (k_procs s) (set_k_mem (k_mem s) (set_k_pipes (<[pi := k]> (k_pipes s)) s)) = s) as Es
    by (rw insert_id //; by destruct s).
  rw Es in E. rewrite -> (bind_Switch _ _ _ _ _ E). eexists s1, _. split; [done|]. split_and!.
  - rw E1 list_lookup_insert_eq //. by eapply lookup_lt_Some.
  - rw E2. by apply acq_free_ne.
  - by rw E4 lookup_insert_eq.
  - intros s2 k2 Hwk. destruct (Hk s2 k2 Hwk) as (s3 & Ek & H3 & H4 & _). exists s3. split; [by rw Ek|done].
Qed.

Lemma piperead_at s k :
  penv0 s k → (1 < k_fuel s)%nat → preads addr n (intr_enabled (k_sync s)) s k (piperead pi addr n s).
Proof.
  intros Hpe Hf. pose proof Hpe as [[[Hok _] _ _ _ _ _ _] Hr _ Hlk _]. pose proof (at_rest_running _ _ Hr) as Hrun.
  assert (piperead pi addr n s = (loopM (k_fuel s) wait_body tt ≫= read_end addr n) (locked s)) as E.
  { unfold piperead. mstep (curproc_spec s p Hok Hrun). mstep (kacquire_free _ _ Hok Hlk). unfold piperead_wait.
    by rewrite -> (bind_assoc _ _ _ _ _ _ (eq_refl : gets k_fuel (locked s) = Ret (k_fuel s) (locked s))). }
  rw E. destruct (k_fuel s) as [|[|fuel]]; [lia|lia|]. pose proof (qlen_nonneg k) as Hq0.
  destruct (decide (0 < qlen k ∨ pi_writeopen k = 0)) as [Hq|Hq].
  - rewrite -> (bind_Ret _ _ _ _ _ (wait_ready (S fuel) _ k (penv_locked s k Hpe) Hq)).
    destruct (piperead_rest s k Hpe) as (s' & k' & Er & Ht). rw Er. by eapply pr_ret.
  - destruct (wait_empty s k Hpe) as (s1 & kont & Ew & H1 & H2 & H3 & Hk); [lia|tauto|].
    erewrite bind_Switch; [|cbn [loopM]; by apply bind_Switch]. apply pr_sleep; try done; [lia|tauto|].
    intros s2 k2 Hwk Hq2. destruct (Hk s2 k2 Hwk) as (s3 & Ek & Hpe3 & Em).
    destruct (piperead_rest s3 k2 Hpe3) as (s' & k' & Er & [T1 T2 T3]). exists s', k'. split.
    + rw Ek. cbn [obind]. change (obind (loopM (S fuel) wait_body tt (locked s3)) (read_end addr n) = Ret (Z.min n (qlen k2)) s').
      by rewrite -> (wait_ready fuel _ k2 (penv_locked s3 k2 Hpe3) Hq2).
    + split; [done|done|]. intros x Hx. rw T3 //. by rw Em.
Qed.
End read.

(** *** Writing without a reader *)
Lemma pipewrite_unread s k fuel addr n :
  penv0 s k → pi_readopen k = 0 → 0 < n →
  (loopM (S fuel) (pipewrite_body pi addr n p) 0 ≫= write_end) (locked s) = Ret (-1) s.
Proof.
  intros [[[Hok _] P2 _ _ _ P6 _] _ _ Hlk _] Hro Hn. cbn [loopM].
  assert (pipewrite_body pi addr n p 0 (locked s) = Ret (inr None) s) as E.
  { unfold pipewrite_body. rewrite -> (proj2 (Z.ltb_lt 0 n) Hn). cbn [negb].
    mstep (get_pipe_ok (locked s) k P6). mstep (get_proc_spec (locked s) p q P2). rw Hro. cbn [Z.eqb orb].
    erewrite bind_Ret; [|by apply (krelease_acq (LPipe pi) _ (k_sync s))]. by destruct s. }
  by rewrite -> (bind_assoc _ _ _ _ _ _ E).
Qed.

End pipes.

(** *** A process with one page and an empty pipe, for the witness *)
Section small.
#[local] Existing Instance image0.

Definition proc_p : proc := set_p_pagetable (pg 1) (proc1 0).
Definition sync_p : syncst := set_locks (<[LPipe (pg 7) := Spinlock 0 "pipe" None]> (locks sync1)) sync1.
Definition pipe0 : pipe := Pipe (replicate 512 0) 0 0 1 1.
Definition kst_pipe : kstate :=
  set_k_pipes {[pg 7 := pipe0]} (set_k_procs (<[0%nat := proc_p]> (k_procs kst1))
    (set_k_sync sync_p (set_k_mem mem_small (set_k_freelist (pg 5) kst1)))).

Lemma sync_p_free l : l ∈ all_locks → lock_free l sync_p.
Proof.
  intros Hl. destruct (sync1_free l Hl) as [nm E]. exists nm. unfold sync_p. cbn [locks set_locks].
  rw lookup_insert_ne //. intros <-. revert Hl. by apply (bool_decide_unpack (LPipe (pg 7) ∉ all_locks)).
Qed.
Lemma cpu_ok_sync_p : cpu_ok sync_p.
Proof. exists (Cpu (Some O) context0 0 1). split_and!; done. Qed.

Lemma penv_kst_pipe : penv0 0 proc_p (pg 7) (pg 1) table_small user_small kst_pipe pipe0.
Proof.
  assert (can_lock LKmem kst_pipe) as Hl.
  { split; [exact cpu_ok_sync_p|]. apply sync_p_free. unfold all_locks. set_solver. }
  split.
  - split; try done. eexists. eapply uspace_keep; [exact uspace_small|done|done|exact Hl].
  - split; [exact cpu_ok_sync_p|by eexists|]. apply sync_p_free. unfold all_locks. set_solver.
  - split; [by vm_compute|]. intros i Hi. apply sync_p_free. unfold all_locks. rw !elem_of_app.
    right; left. apply list_elem_of_fmap. exists i. split; [done|]. apply elem_of_seq. lia.
  - exists "pipe"%string. apply lookup_insert_eq.
  - done.
Qed.

End small.
