(* ===== verification/ConsoleCorrect.v ===== *)
(** * The line discipline of the console (kernel/console.c)

    The ring [cons.buf] with its three indices holds two sequences of
    characters: those of the finished lines, which [consoleread] may take, and
    those of the line being edited. [consoleintr] and [consoleread] implement
    the operations [typed] and [take_line] on them, and [consoleintr] echoes
    what [echo] says. *)

From S2P Require Import Prelude Riscv KState Spinlock KString Kalloc Vm PageTable Uspace VmCorrect Sched.
From S2P Require Import Uart KPrintf KPrintfCorrect Console Pipe PipeCorrect.
Open Scope Z_scope.

(** ** The specification *)

(** Lines that are finished, and the line being edited. *)
Abbreviation lines := (list Z * list Z)%type.

(** The effect of typing [c], other than [C('P')]. *)
Definition typed (c : Z) (l : lines) : lines :=
  let '(ready, edit) := l in
  if c =? Ctrl 85 then (ready, [])
  else if (c =? Ctrl 72) || (c =? 127) then (ready, removelast edit)
  else if (c =? 0) || (INPUT_BUF <=? Z.of_nat (length (ready ++ edit))) then l
  else
    let c := if c =? 13 then 10 else c in
    let edit := edit ++ [c] in
    if (c =? 10) || (c =? Ctrl 68) || (Z.of_nat (length (ready ++ edit)) =? INPUT_BUF) then (ready ++ edit, [])
    else (ready, edit).

Definition echo (c : Z) (l : lines) : list Z :=
  let '(ready, edit) := l in
  if c =? Ctrl 85 then concat (replicate (length edit) rubout)
  else if (c =? Ctrl 72) || (c =? 127) then if decide (edit = []) then [] else rubout
  else if (c =? 0) || (INPUT_BUF <=? Z.of_nat (length (ready ++ edit))) then []
  else [if c =? 13 then 10 else c].

(** Several characters, one after another. *)
Definition typed_all (cs : list Z) (l : lines) : lines := foldl (λ l c, typed c l) l cs.
Fixpoint echoes (cs : list Z) (l : lines) : list Z :=
  match cs with [] => [] | c :: cs => echo c l ++ echoes cs (typed c l) end.

(** At most [n] characters of [l] up to the end of the line: those read, and
    the rest. A [C('D')] ends the read, and is left for the next one unless it
    comes first. [None]: the reader has to wait. *)
Fixpoint take_line (n : nat) (first : bool) (l : list Z) : option (list Z * list Z) :=
  match n, l with
  | O, _ => Some ([], l)
  | S _, [] => None
  | S n, c :: l' =>
      if c =? Ctrl 68 then Some ([], if first then l' else l)
      else if c =? 10 then Some ([c], l')
      else match take_line n false l' with Some (d, rest) => Some (c :: d, rest) | None => None end
  end.

Lemma take_line_length n : ∀ first l d rest, take_line n first l = Some (d, rest) → (length d ≤ n)%nat.
Proof.
  induction n as [|n IH]; intros first [|c l] d rest; cbn [take_line]; try (by intros [= <- <-]).
  destruct (c =? Ctrl 68); [intros [= <- _]; cbn; lia|]. destruct (c =? 10); [intros [= <- _]; cbn; lia|].
  destruct (take_line n false l) as [[d' r']|] eqn:E; [|done]. intros [= <- <-]. specialize (IH _ _ _ _ E). cbn. lia.
Qed.

(** ** The ring *)

Definition ring (buf : list Z) (a n : Z) : list Z := (λ i, zget buf ((a + i) mod INPUT_BUF)) <$> seqZ 0 n.
Definition nready (k : consst) : Z := u32 (cons_w k - cons_r k).
Definition nedit (k : consst) : Z := u32 (cons_e k - cons_w k).
Definition lines_of (k : consst) : lines := (ring (cons_buf k) (cons_r k) (nready k), ring (cons_buf k) (cons_w k) (nedit k)).

Record ring_ok (k : consst) : Prop := {
  co_buf : length (cons_buf k) = Z.to_nat INPUT_BUF;
  co_r : 0 ≤ cons_r k < 2 ^ 32;
  co_w : 0 ≤ cons_w k < 2 ^ 32;
  co_e : 0 ≤ cons_e k < 2 ^ 32;
  co_len : nready k + nedit k ≤ INPUT_BUF
}.
(** No newline in the edited line: it would have ended it. *)
Definition cons_ok (k : consst) : Prop := ring_ok k ∧ 10 ∉ (lines_of k).2.

Lemma length_ring buf a n : length (ring buf a n) = Z.to_nat n.
Proof. unfold ring. by rw length_fmap length_seqZ. Qed.

Lemma ring_shift buf a a' n : a mod INPUT_BUF = a' mod INPUT_BUF → ring buf a n = ring buf a' n.
Proof.
  intros E. apply list_fmap_ext. intros i j _. f_equal.
  rewrite <- (Zplus_mod_idemp_l a), E, Zplus_mod_idemp_l. done.
Qed.
Lemma ring_app buf a m n : 0 ≤ m → 0 ≤ n → ring buf a (m + n) = ring buf a m ++ ring buf (a + m) n.
Proof.
  intros Hm Hn. unfold ring. rw seqZ_app //. rw fmap_app. f_equal. apply list_eq. intros i. rw 2!list_lookup_fmap.
  destruct (decide (i < n)) as [Hi|Hi]; [|rw !lookup_seqZ_ge //; lia].
  rw !lookup_seqZ_lt //. cbn. do 2 f_equal. f_equal. lia.
Qed.
Lemma ring_one buf a : ring buf a 1 = [zget buf (a mod INPUT_BUF)].
Proof. unfold ring. rw seqZ_one. cbn. by rw Z.add_0_r. Qed.
Lemma ring_nil buf a : ring buf a 0 = [].
Proof. done. Qed.

(** Storing outside the ring's part leaves it. *)
Lemma ring_store buf a n e v :
  0 ≤ n → n ≤ INPUT_BUF → e = a + n → n < INPUT_BUF → ring (zset buf (e mod INPUT_BUF) v) a n = ring buf a n.
Proof.
  intros Hn Hl -> Hlt. apply list_fmap_ext. intros i j Hj. apply lookup_seqZ in Hj as [-> Hj].
  unfold zget, zset. rw list_lookup_total_insert_ne //. unfold INPUT_BUF in *. zlia.
Qed.

(** *** Editing the ring *)

Definition rub (k : consst) : consst := set_cons_e (u32 (cons_e k - 1)) k.
Definition clear (k : consst) : consst := set_cons_e (cons_w k) k.
Definition store (c : Z) (k : consst) : consst :=
  set_cons_e (u32 (cons_e k + 1)) (set_cons_buf (zset (cons_buf k) (cons_e k mod INPUT_BUF) c) k).
Definition commit_line (k : consst) : consst := set_cons_w (cons_e k) k.
Definition advance (k : consst) : consst := set_cons_r (u32 (cons_r k + 1)) k.

Lemma counts k : ring_ok k → 0 ≤ nready k ∧ 0 ≤ nedit k ∧ u32 (cons_e k - cons_r k) = nready k + nedit k.
Proof. intros [_ Hr Hw He Hl]. unfold nready, nedit, u32, INPUT_BUF in *. zlia. Qed.

Lemma length_lines k : ring_ok k →
  Z.of_nat (length (lines_of k).1) = nready k ∧ Z.of_nat (length (lines_of k).2) = nedit k.
Proof. intros Hk. destruct (counts k Hk) as (? & ? & _). cbn. rw !length_ring. lia. Qed.

Lemma edit_empty k : ring_ok k → (cons_e k =? cons_w k) = (nedit k =? 0).
Proof. intros [_ _ Hw He _]. unfold nedit, u32 in *. apply eq_bool_prop_intro. rw !Is_true_true !Z.eqb_eq. zlia. Qed.
Lemma ready_empty k : ring_ok k → (cons_r k =? cons_w k) = (nready k =? 0).
Proof. intros [_ Hr Hw _ _]. unfold nready, u32 in *. apply eq_bool_prop_intro. rw !Is_true_true !Z.eqb_eq. zlia. Qed.
Lemma ring_full k : ring_ok k → (cons_e k =? u32 (cons_r k + INPUT_BUF)) = (nready k + nedit k =? INPUT_BUF).
Proof.
  intros Hk. destruct (counts k Hk) as (_ & _ & <-). destruct Hk as [_ Hr _ He _].
  unfold u32, INPUT_BUF in *. apply eq_bool_prop_intro. rw !Is_true_true !Z.eqb_eq. zlia.
Qed.

(** The last character of the edited line. *)
Lemma rub_ok k : ring_ok k → nedit k ≠ 0 →
  (lines_of k).2 = (lines_of (rub k)).2 ++ [zget (cons_buf k) (u32 (cons_e k - 1) mod INPUT_BUF)] ∧
  ring_ok (rub k) ∧ (lines_of (rub k)).1 = (lines_of k).1 ∧ nedit (rub k) = nedit k - 1.
Proof.
  intros Hk Hn. destruct (counts k Hk) as (H1 & H2 & _). destruct Hk as [Hb Hr Hw He Hl].
  assert (nedit (rub k) = nedit k - 1) as Hq by (unfold nedit, rub in *; cbn; unfold u32, INPUT_BUF in *; zlia).
  split_and!; [|split; [done|done|done|apply u32_range|unfold nready in *; cbn in *; lia]|done|done].
  cbn [lines_of snd]. rw Hq. replace (nedit k) with (nedit k - 1 + 1) at 1 by lia. rw ring_app; [|lia|lia].
  f_equal. rw ring_one. do 2 f_equal. unfold nedit, u32, INPUT_BUF in *. zlia.
Qed.

Lemma clear_ok k : ring_ok k → cons_ok (clear k) ∧ lines_of (clear k) = ((lines_of k).1, []).
Proof.
  intros Hk. destruct (counts k Hk) as (H1 & H2 & _). destruct Hk as [Hb Hr Hw He Hl].
  assert (nedit (clear k) = 0) as Hq by (unfold nedit, clear; cbn; by rw Z.sub_diag).
  assert (lines_of (clear k) = ((lines_of k).1, [])) as E by (unfold lines_of; by rw Hq).
  split; [|done]. split; [split; try done; unfold nready in *; cbn in *; lia|]. rw E. by intros ?%elem_of_nil.
Qed.

Lemma store_ok c k : ring_ok k → nready k + nedit k < INPUT_BUF →
  ring_ok (store c k) ∧ lines_of (store c k) = ((lines_of k).1, (lines_of k).2 ++ [c]) ∧
  nready (store c k) = nready k ∧ nedit (store c k) = nedit k + 1.
Proof.
  intros Hk Hlt. destruct (counts k Hk) as (H1 & H2 & _). destruct Hk as [Hb Hr Hw He Hl].
  assert (nedit (store c k) = nedit k + 1) as Hq by (unfold nedit, store in *; cbn; unfold u32, INPUT_BUF in *; zlia).
  assert (nready (store c k) = nready k) as Hq' by done.
  assert (cons_e k mod INPUT_BUF = (cons_w k + nedit k) mod INPUT_BUF) as E1 by (unfold nedit, u32, INPUT_BUF in *; zlia).
  assert (cons_w k mod INPUT_BUF = (cons_r k + nready k) mod INPUT_BUF) as E2 by (unfold nready, u32, INPUT_BUF in *; zlia).
  split_and!; [|unfold lines_of; rw Hq Hq'; cbn [store cons_buf cons_r cons_w set_cons_e set_cons_buf]|done|done].
  - split; [by cbn; rw length_insert|done|done|apply u32_range|lia].
  - assert (∀ a n, 0 ≤ n → n < INPUT_BUF → (∀ i, 0 ≤ i < n → (a + i) mod INPUT_BUF ≠ cons_e k mod INPUT_BUF) →
      ring (zset (cons_buf k) (cons_e k mod INPUT_BUF) c) a n = ring (cons_buf k) a n) as Hkeep.
    { intros a n Hn Hn' Hne. apply list_fmap_ext. intros i j Hj. apply lookup_seqZ in Hj as [-> Hj].
      unfold zget, zset. rw list_lookup_total_insert_ne //. specialize (Hne i ltac:(lia)). unfold INPUT_BUF in *. zlia. }
    f_equal.
    + apply Hkeep; [lia|lia|]. intros i Hi. rw E1. unfold INPUT_BUF in *. zlia.
    + rw ring_app; [|lia|lia]. f_equal.
      * apply Hkeep; [lia|lia|]. intros i Hi. rw E1. unfold INPUT_BUF in *. zlia.
      * rw ring_one -E1. f_equal. unfold zget, zset. apply list_lookup_total_insert_eq. rw Hb. unfold INPUT_BUF. zlia.
Qed.

Lemma commit_line_ok k : ring_ok k → cons_ok (commit_line k) ∧ lines_of (commit_line k) = ((lines_of k).1 ++ (lines_of k).2, []).
Proof.
  intros Hk. destruct (counts k Hk) as (H1 & H2 & E). destruct Hk as [Hb Hr Hw He Hl].
  assert (nedit (commit_line k) = 0) as Hq by (unfold nedit; cbn; by rw Z.sub_diag).
  assert (nready (commit_line k) = nready k + nedit k) as Hq' by done.
  assert (lines_of (commit_line k) = ((lines_of k).1 ++ (lines_of k).2, [])) as El.
  { unfold lines_of. rw Hq Hq'. cbn [commit_line cons_buf cons_r cons_w set_cons_w fst snd]. f_equal. rw ring_app //. f_equal.
    apply ring_shift. unfold nready, u32, INPUT_BUF in *. zlia. }
  split; [|done]. split; [split; try done; lia|]. rw El. by intros ?%elem_of_nil.
Qed.

Lemma advance_ok k : ring_ok k → nready k ≠ 0 →
  ring_ok (advance k) ∧ (lines_of k).1 = zget (cons_buf k) (cons_r k mod INPUT_BUF) :: (lines_of (advance k)).1 ∧
  (lines_of (advance k)).2 = (lines_of k).2.
Proof.
  intros Hk Hn. destruct (counts k Hk) as (H1 & H2 & _). destruct Hk as [Hb Hr Hw He Hl].
  assert (nready (advance k) = nready k - 1) as Hq by (unfold nready, advance in *; cbn; unfold u32, INPUT_BUF in *; zlia).
  assert (nedit (advance k) = nedit k) as Hq' by done.
  split_and!; [split; [done|apply u32_range|done|done|lia]| |done].
  unfold lines_of. cbn [fst]. rw Hq. replace (nready k) with (1 + (nready k - 1)) at 1 by lia. rw ring_app; [|lia|lia].
  rw ring_one. cbn [app]. f_equal. apply ring_shift. cbn [advance cons_r set_cons_r]. unfold u32, INPUT_BUF in *. zlia.
Qed.

(** ** Typing *)

(** From [s] to [s'] the bytes [bs] were transmitted and the ring became [k]. *)
Definition edits (bs : list Z) (k : consst) (s s' : kstate) : Prop :=
  ∃ u, s' = set_k_cons k (set_k_uart u s) ∧ sent s' = sent s ++ bs ∧ latch false (out_regs u) = false.

Lemma edits_id s : tty s → edits [] (k_cons s) s s.
Proof. intros [_ _ L]. exists (k_uart s). split; [by destruct s|]. by rw app_nil_r. Qed.
Lemma edits_upd bs k k' s s' : edits bs k s s' → edits bs k' s (set_k_cons k' s').
Proof. intros (u & -> & E & L). exists u. split; [by destruct s|done]. Qed.
Lemma edits_sends bs bs' k s s1 s2 : edits bs k s s1 → sends bs' s1 s2 → edits (bs ++ bs') k s s2.
Proof.
  intros (u & -> & E & L) (u' & -> & E' & L'). exists u'. split; [by destruct s|]. split; [|done]. by rw E' E app_assoc.
Qed.
Lemma edits_tty bs k s s' : tty s → edits bs k s s' → tty s'.
Proof. intros [] (u & -> & _ & L). by split. Qed.
Lemma edits_trans bs bs' k k' s s1 s2 : edits bs k s s1 → edits bs' k' s1 s2 → edits (bs ++ bs') k' s s2.
Proof.
  intros (u & -> & E & L) (u' & -> & E' & L'). exists u'. split; [by destruct s|]. split; [|done]. by rw E' E app_assoc.
Qed.

(** Rub out one character. *)
Lemma rub_run s : tty s → ∃ s',
  (∀ A (m : KM A), (upd_cons (λ c, set_cons_e (u32 (cons_e c - 1)) c) ;; consputc BACKSPACE ;; m) s = m s') ∧
  (upd_cons (λ c, set_cons_e (u32 (cons_e c - 1)) c) ;; consputc BACKSPACE) s = Ret tt s' ∧
  edits rubout (rub (k_cons s)) s s'.
Proof.
  intros Ht. pose proof (edits_upd [] _ (rub (k_cons s)) _ _ (edits_id s Ht)) as H1.
  destruct (consputc_backspace _ (edits_tty _ _ _ _ Ht H1)) as (s' & E & H2). exists s'. split_and!.
  - intros A m. unfold upd_cons. rw bind_modify. by mstep E.
  - exact E.
  - exact (edits_sends _ _ _ _ _ _ H1 H2).
Qed.

Lemma rub_loop (n : nat) : ∀ fuel s, tty s → cons_ok (k_cons s) → nedit (k_cons s) = n → (n < fuel)%nat →
  ∃ s', loopM fuel (λ _ : unit,
    c ← get_cons;
    if negb (cons_e c =? cons_w c)
       && negb (zget (cons_buf c) (u32 (cons_e c - 1) mod INPUT_BUF) =? 10)
    then upd_cons (λ c, set_cons_e (u32 (cons_e c - 1)) c) ;;
         consputc BACKSPACE ;;
         mret (inl tt)
    else mret (inr tt)) tt s = Ret tt s' ∧ edits (concat (replicate n rubout)) (clear (k_cons s)) s s'.
Proof.
  induction n as [|n IH]; intros fuel s Ht Hk Hn Hf; (destruct fuel as [|fuel]; [lia|]); cbn [loopM];
    unfold get_cons at 1; rewrite -> (bind_assoc _ _ _ _ _ _ (eq_refl : gets k_cons s = Ret (k_cons s) s)); cbv beta;
    pose proof (edit_empty _ (proj1 Hk)) as E; rw Hn in E; rw E.
  - cbn. exists s. split; [done|]. replace (clear (k_cons s)) with (k_cons s); [by apply edits_id|].
    apply Z.eqb_eq in E. unfold clear. rw -E. by destruct (k_cons s).
  - destruct (rub_ok _ (proj1 Hk) ltac:(lia)) as (El & Hr & _ & Hn'). destruct Hk as [_ Ht10]. rw El in Ht10.
    assert (zget (cons_buf (k_cons s)) (u32 (cons_e (k_cons s) - 1) mod INPUT_BUF) ≠ 10) as Hne.
    { intros E10. apply Ht10. rw E10. apply elem_of_app. right. by left. }
    rewrite -> (proj2 (Z.eqb_neq _ 10) Hne), (proj2 (Z.eqb_neq (S n) 0)) by lia. cbn [negb andb].
    destruct (rub_run s Ht) as (s1 & E1 & _ & H1).
    erewrite bind_Ret by (rewrite -> E1; reflexivity).
    assert (k_cons s1 = rub (k_cons s)) as Ek by (by destruct H1 as (u & -> & _)).
    destruct (IH fuel s1) as (s' & E' & H').
    { by eapply edits_tty. } { rw Ek. split; [done|]. intros Hin. apply Ht10, elem_of_app. by left. } { rw Ek. lia. } { lia. }
    exists s'. split; [exact E'|]. rw Ek in H'. exact (edits_trans _ _ _ _ _ _ _ H1 H').
Qed.

(** What [consoleintr] needs: no lock is held. *)
Record cenv (m : option nat) (s : kstate) : Prop := {
  ce_tty : tty s;
  ce_lock : lock_free LCons (k_sync s);
  ce_run : running m (k_sync s);
  ce_procs : procs_free s;
  ce_cons : cons_ok (k_cons s)
}.

(** Whether typing [c] ends a line, so that readers are woken up. *)
Definition commits (c : Z) (l : lines) : bool :=
  negb ((c =? Ctrl 85) || (c =? Ctrl 72) || (c =? 127) || (c =? 0)) &&
  (Z.of_nat (length (l.1 ++ l.2)) <? INPUT_BUF) &&
  let c := if c =? 13 then 10 else c in
  ((c =? 10) || (c =? Ctrl 68) || (Z.of_nat (length (l.1 ++ l.2)) + 1 =? INPUT_BUF)).

(** From [s] to [s'] the character [c] was handled. *)
Definition handled (m : option nat) (c : Z) (s s' : kstate) : Prop :=
  lines_of (k_cons s') = typed c (lines_of (k_cons s)) ∧
  sent s' = sent s ++ echo c (lines_of (k_cons s)) ∧
  k_procs s' = (if commits c (lines_of (k_cons s)) then imap (wake CConsR m) (k_procs s) else k_procs s).

(** The same with nothing else changed, while the lock is held. *)
Definition acted (m : option nat) (c : Z) (s s' : kstate) : Prop :=
  ∃ k ps u, s' = set_k_procs ps (set_k_cons k (set_k_uart u s)) ∧ latch false (out_regs u) = false ∧ cons_ok k ∧ handled m c s s'.

Lemma acted_edits m c bs k s s' :
  edits bs k s s' → cons_ok k → lines_of k = typed c (lines_of (k_cons s)) → bs = echo c (lines_of (k_cons s)) →
  commits c (lines_of (k_cons s)) = false → acted m c s s'.
Proof.
  intros (u & -> & Hs & L) Hk El -> Ec. exists k, (k_procs s), u. split; [by destruct s|]. split; [done|]. split; [done|].
  split; [done|]. split; [done|]. by rw Ec.
Qed.

Lemma kill_line_ok m s : tty s → cons_ok (k_cons s) → ∃ s', kill_line s = Ret tt s' ∧ acted m (Ctrl 85) s s'.
Proof.
  intros Ht Hk. unfold kill_line, get_cons at 1. rw bind_gets. destruct (counts _ (proj1 Hk)) as (_ & H0 & _).
  change (u32 (cons_e (k_cons s) - cons_w (k_cons s))) with (nedit (k_cons s)).
  destruct (rub_loop (Z.to_nat (nedit (k_cons s))) (S (Z.to_nat (nedit (k_cons s)))) s Ht Hk) as (s' & E & He); [lia|lia|].
  exists s'. split; [exact E|]. destruct (clear_ok _ (proj1 Hk)) as [Hk' El].
  eapply acted_edits; [exact He|done| | |done].
  - rw El. unfold typed. by destruct (lines_of (k_cons s)).
  - unfold echo. destruct (length_lines _ (proj1 Hk)) as [_ Hl]. destruct (lines_of (k_cons s)) as [ready edit]. cbn in *.
    by replace (length edit) with (Z.to_nat (nedit (k_cons s))) by lia.
Qed.

Lemma removelast_snoc (l : list Z) x : removelast (l ++ [x]) = l.
Proof. apply removelast_last. Qed.

Lemma erase_ok m c s : tty s → cons_ok (k_cons s) → c = Ctrl 72 ∨ c = 127 →
  ∃ s', (k ← get_cons; whenM (negb (cons_e k =? cons_w k))
           (upd_cons (λ c, set_cons_e (u32 (cons_e c - 1)) c) ;; consputc BACKSPACE)) s = Ret tt s' ∧ acted m c s s'.
Proof.
  intros Ht Hk Hc. unfold get_cons. rw bind_gets edit_empty; [|apply Hk].
  assert (commits c (lines_of (k_cons s)) = false) as Ec by (by destruct Hc as [-> | ->]).
  assert ((c =? Ctrl 85) = false ∧ (c =? Ctrl 72) || (c =? 127) = true) as [E1 E2] by (by destruct Hc as [-> | ->]).
  destruct (length_lines _ (proj1 Hk)) as [_ Hl].
  destruct (Z.eqb_spec (nedit (k_cons s)) 0) as [H0|H0]; cbn [negb whenM].
  - exists s. split; [done|]. eapply acted_edits; [by apply edits_id|done| | |done]; unfold typed, echo; rw E1 E2;
      destruct (lines_of (k_cons s)) as [ready [|x edit]]; cbn in Hl; try lia; done.
  - destruct (rub_run s Ht) as (s' & _ & E & He). exists s'. split; [exact E|].
    destruct (rub_ok _ (proj1 Hk) H0) as (El & Hr & El1 & _). destruct Hk as [_ H10]. rw El in H10.
    eapply acted_edits; [exact He| | | |done].
    + split; [done|]. intros Hin. apply H10, elem_of_app. by left.
    + unfold typed. rw E1 E2. rewrite -> (surjective_pairing (lines_of (k_cons s))), El, removelast_snoc, <- El1. by destruct (lines_of (rub (k_cons s))).
    + unfold echo. rw E1 E2. rewrite -> (surjective_pairing (lines_of (k_cons s))), El. case_decide as Hd; [|done].
      by apply app_eq_nil in Hd as [_ ?].
Qed.

Lemma char_ok m c s :
  tty s → running m (k_sync s) → procs_free s → cons_ok (k_cons s) → 0 ≤ c < 256 →
  c ≠ Ctrl 85 → c ≠ Ctrl 72 → c ≠ 127 →
  ∃ s', (k ← get_cons;
     whenM (negb (c =? 0) && (u32 (cons_e k - cons_r k) <? INPUT_BUF))
       (let c := if c =? 13 then 10 else c in
        consputc c ;;
        upd_cons (λ k, set_cons_buf (zset (cons_buf k) (cons_e k mod INPUT_BUF) (u8 c)) k) ;;
        upd_cons (λ k, set_cons_e (u32 (cons_e k + 1)) k) ;;
        k ← get_cons;
        whenM ((c =? 10) || (c =? Ctrl 68) || (cons_e k =? u32 (cons_r k + INPUT_BUF)))
          (upd_cons (λ k, set_cons_w (cons_e k) k) ;;
           wakeup CConsR))) s = Ret tt s' ∧ acted m c s s'.
Proof.
  intros Ht Hr Hp [Hk H10] Hc N1 N2 N3. unfold get_cons at 1. rw bind_gets. destruct (counts _ Hk) as (_ & _ & ->).
  destruct (length_lines _ Hk) as [L1 L2]. set (k := k_cons s) in *.
  assert (Z.of_nat (length ((lines_of k).1 ++ (lines_of k).2)) = nready k + nedit k) as Hl by (rw length_app; lia).
  assert (lines_of k = ((lines_of k).1, (lines_of k).2)) as Ep by by destruct (lines_of k).
  assert (typed c (lines_of k) = if (c =? 0) || (INPUT_BUF <=? nready k + nedit k) then lines_of k else
    let c := if c =? 13 then 10 else c in
    if (c =? 10) || (c =? Ctrl 68) || (nready k + nedit k + 1 =? INPUT_BUF) then ((lines_of k).1 ++ (lines_of k).2 ++ [c], [])
    else ((lines_of k).1, (lines_of k).2 ++ [c])) as Ety.
  { rewrite -> Ep at 1. unfold typed. rewrite -> (proj2 (Z.eqb_neq _ _) N1), (proj2 (Z.eqb_neq _ _) N2), (proj2 (Z.eqb_neq _ _) N3).
    cbn [orb]. rw Hl app_assoc (length_app (_ ++ _)) Nat2Z.inj_add Hl. done. }
  assert (echo c (lines_of k) = if (c =? 0) || (INPUT_BUF <=? nready k + nedit k) then [] else [if c =? 13 then 10 else c]) as Eec.
  { rewrite -> Ep at 1. unfold echo. rewrite -> (proj2 (Z.eqb_neq _ _) N1), (proj2 (Z.eqb_neq _ _) N2), (proj2 (Z.eqb_neq _ _) N3).
    cbn [orb]. by rw Hl. }
  assert (commits c (lines_of k) = negb (c =? 0) && (nready k + nedit k <? INPUT_BUF) &&
    let c := if c =? 13 then 10 else c in ((c =? 10) || (c =? Ctrl 68) || (nready k + nedit k + 1 =? INPUT_BUF))) as Ecm.
  { unfold commits. rewrite -> (proj2 (Z.eqb_neq _ _) N1), (proj2 (Z.eqb_neq _ _) N2), (proj2 (Z.eqb_neq _ _) N3). cbn [orb]. by rw Hl. }
  rewrite -> Z.leb_antisym in Ety, Eec.
  destruct (c =? 0) eqn:E0; cbn [negb andb orb whenM] in *.
  { exists s. split; [done|]. eapply acted_edits; [by apply edits_id|done|done|done|done]. }
  destruct (Z.ltb_spec (nready k + nedit k) INPUT_BUF) as [Hlt|]; cbn [negb andb orb whenM] in *.
  2:{ exists s. split; [done|]. eapply acted_edits; [by apply edits_id|done|done|done|done]. }
  cbv zeta in *. set (c' := if c =? 13 then 10 else c) in *. assert (0 ≤ c' < 256) as Hc' by (unfold c'; destruct (c =? 13); lia).
  destruct (consputc_ok c' s Ht Hc') as (s1 & E1 & H1). mstep E1. unfold upd_cons. rw bind_modify. rw bind_modify. unfold get_cons. rw bind_gets.
  assert (k_cons s1 = k) as Ek by by destruct H1 as (u & -> & _). kcbn. rw Ek.
  replace (u8 c') with c' by (unfold u8; rw Z.mod_small; done).
  change (set_cons_e _ (set_cons_buf _ _)) with (store c' k).
  destruct (store_ok c' k Hk Hlt) as (Hk2 & El2 & Er2 & Ee2). rw ring_full; [|done]. rw Er2 Ee2 Z.add_assoc.
  pose proof (edits_upd _ _ (store c' k) _ _ (edits_sends _ _ _ _ _ _ (edits_id s Ht) H1)) as H2. cbn [app] in H2.
  assert (set_k_cons (store c' k) (set_k_cons (set_cons_buf (zset (cons_buf k) (cons_e k mod INPUT_BUF) c') k) s1) =
    set_k_cons (store c' k) s1) as -> by by destruct s1.
  destruct ((c' =? 10) || (c' =? Ctrl 68) || (nready k + nedit k + 1 =? INPUT_BUF)) eqn:Ecc; cbn [whenM].
  - rw bind_modify. kcbn. change (set_cons_w _ _) with (commit_line (store c' k)).
    destruct (commit_line_ok _ Hk2) as [Hk3 El3]. destruct H2 as (u & Eu & Hs & L).
    assert (set_k_cons (commit_line (store c' k)) (set_k_cons (store c' k) s1) = set_k_cons (commit_line (store c' k)) (set_k_uart u s)) as ->.
    { rw Eu. by destruct s. }
    erewrite (wakeup_spec _ CConsR m); [|apply Ht|done|done]. eexists. split; [reflexivity|].
    exists (commit_line (store c' k)), (imap (wake CConsR m) (k_procs s)), u. split; [done|]. split; [done|]. split; [done|].
    split; [|split].
    + kcbn. by rw El3 El2 Ety.
    + fold k. rewrite -> Eec. rewrite <- Hs, Eu. done.
    + kcbn. by rw Ecm.
  - eexists. split; [reflexivity|]. eapply acted_edits; [exact H2| | |done|done].
    + split; [done|]. rw El2. cbn [snd]. intros [Hin|Hin%list_elem_of_singleton]%elem_of_app; [done|].
      rewrite <- Hin in Ecc. by vm_compute in Ecc.
    + by rw El2 Ety.
Qed.

Lemma consoleintr_ok m c s :
  cenv m s → 0 ≤ c < 256 → c ≠ Ctrl 80 →
  ∃ s', consoleintr c s = Ret tt s' ∧ handled m c s s' ∧ cenv m s' ∧
    ∃ k ps u, s' = set_k_procs ps (set_k_cons k (set_k_uart u s)).
Proof.
  intros [[Hok Hpan L] Hlk Hr [Hlen Hpf] Hk] Hc HP. unfold consoleintr. mstep (kacquire_free _ _ Hok Hlk).
  set (s1 := set_k_sync (acq LCons (k_sync s)) s).
  assert (tty s1) as Ht1 by (split; [by apply acq_ok|done|done]).
  assert (running m (k_sync s1)) as Hr1 by by apply running_acq.
  assert (procs_free s1) as Hp1 by (split; [done|]; intros i Hi; apply acq_free_ne; [done|by apply Hpf]).
  assert (∀ body, (∃ s2, body s1 = Ret tt s2 ∧ acted m c s1 s2) → ∃ s', (body ;; krelease LCons) s1 = Ret tt s' ∧ handled m c s s' ∧ cenv m s' ∧
    ∃ k ps u, s' = set_k_procs ps (set_k_cons k (set_k_uart u s))) as Hgo.
  { intros body (s2 & E & k & ps & u & -> & L2 & Hk2 & Hh). mstep E.
    exists (set_k_procs ps (set_k_cons k (set_k_uart u s))). split_and!.
    - erewrite krelease_acq; [|reflexivity|exact Hok|exact Hlk]. by destruct s.
    - exact Hh.
    - split; [split; done|done|done| |exact Hk2]. split; [|exact Hpf]. destruct Hh as (_ & _ & Ep). cbn [k_procs set_k_procs] in Ep |- *. rw Ep.
      destruct (commits _ _); [by rw length_imap|done].
    - by eexists _, _, _. }
  rewrite -> (proj2 (Z.eqb_neq _ _) HP).
  destruct (Z.eqb_spec c (Ctrl 85)) as [->|N1]; [apply Hgo; by apply kill_line_ok|].
  destruct ((c =? Ctrl 72) || (c =? 127)) eqn:E2.
  - apply Hgo. apply erase_ok; [done|done|]. apply orb_true_iff in E2 as [E2|E2]; apply Z.eqb_eq in E2; auto.
  - apply orb_false_iff in E2 as [E2 E3]. apply Z.eqb_neq in E2, E3. apply Hgo. by apply char_ok.
Qed.

(** The characters [cs] typed one after another. *)
Lemma typing_ok m cs : ∀ s, cenv m s → Forall (λ c, 0 ≤ c < 256 ∧ c ≠ Ctrl 80) cs →
  ∃ s' k ps u, eachM cs consoleintr s = Ret tt s' ∧ cenv m s' ∧ s' = set_k_procs ps (set_k_cons k (set_k_uart u s)) ∧
    lines_of (k_cons s') = typed_all cs (lines_of (k_cons s)) ∧ sent s' = sent s ++ echoes cs (lines_of (k_cons s)) ∧
    ∀ i q, m = Some i → k_procs s !! i = Some q → k_procs s' !! i = Some q.
Proof.
  induction cs as [|c cs IH]; intros s He Hcs.
  - exists s, (k_cons s), (k_procs s), (k_uart s). split; [done|]. split; [done|]. split; [by destruct s|]. split; [done|]. split; [by rw app_nil_r|done].
  - apply Forall_cons in Hcs as [[Hc HP] Hcs].
    destruct (consoleintr_ok m c s He Hc HP) as (s1 & E1 & (H1 & H2 & H3) & He1 & k1 & ps1 & u1 & Es1).
    destruct (IH s1 He1 Hcs) as (s' & k & ps & u & E' & He' & Es' & Hl & Ho & Hq). exists s', k, ps, u.
    split; [cbn [eachM]; by mstep E1|]. split; [done|]. split; [rw Es' Es1; by destruct s|].
    rw Hl Ho H1 H2. split; [done|]. split; [by rw -app_assoc|]. intros i q -> Hi. apply Hq; [done|]. rw H3.
    destruct (commits _ _); [by apply wake_self|done].
Qed.

(** ** Reading *)

Section reading.
Context `{Image}.
Context (p : nat) (q : proc) (root : Z) (l : list Z) (N : ptree) (u : umap).

(** The running process [q] with its memory, and the ring. *)
Record renv (s : kstate) : Prop := {
  re_kmem : can_lock LKmem s;
  re_running : running (Some p) (k_sync s);
  re_proc : k_procs s !! p = Some q;
  re_root : p_pagetable q = root;
  re_mem : uspace s root l N u;
  re_ring : ring_ok (k_cons s);
  re_fuel : k_fuel s ≠ O
}.

(** The user's memory after [d] was stored at [dst]. *)
Definition stored (dst : Z) (d : list Z) (m m' : bytemem) : Prop :=
  ∀ x, ubyte m' u x = if decide (dst ≤ x < dst + Z.of_nat (length d)) then d !!! Z.to_nat (x - dst) else ubyte m u x.

Lemma stored_nil dst m : stored dst [] m m.
Proof. intros x. cbn. rw decide_False //. lia. Qed.
Lemma stored_cons dst c d m m1 m2 : stored dst [c] m m1 → stored (dst + 1) d m1 m2 → stored dst (c :: d) m m2.
Proof.
  intros H1 H2 x. rw H2 H1. cbn [length]. repeat case_decide; try lia; try done.
  - replace (Z.to_nat (x - dst)) with (S (Z.to_nat (x - (dst + 1)))) by lia. done.
  - assert (x = dst) as -> by lia. by rw Z.sub_diag.
Qed.

Lemma renv_cons s k : renv s → ring_ok k → renv (set_k_cons k s).
Proof. intros [] Hk. split; try done. by eapply uspace_keep. Qed.

Lemma cons_wait_ready s : renv s → nready (k_cons s) ≠ 0 → cons_wait s = Ret false s.
Proof.
  intros He Hn. unfold cons_wait. rw bind_gets. pose proof (re_fuel _ He) as Hf. destruct (k_fuel s) as [|fuel]; [done|].
  cbn [loopM]. unfold get_cons. rewrite -> (bind_assoc _ _ _ _ _ _ (eq_refl : gets k_cons s = Ret (k_cons s) s)). cbv beta.
  rw ready_empty; [|apply He]. by rewrite -> (proj2 (Z.eqb_neq _ 0) Hn).
Qed.

(** Take a character from the ring; [consoleread] of a character other than
    [C('D')] stores it. *)
Lemma read_char s dst n target c rest :
  renv s → (lines_of (k_cons s)).1 = c :: rest → 0 < n → 0 ≤ dst → dst + 1 ≤ MAXVA → user_ok u dst → c ≠ Ctrl 68 →
  ∃ m', let s' := set_k_mem m' (set_k_cons (advance (k_cons s)) s) in
    consoleread_body target (AUser dst, n) s =
      Ret (if c =? 10 then inr (Some (n - 1)) else inl (AUser (u64 (dst + 1)), n - 1)) s' ∧
    renv s' ∧ (lines_of (k_cons s')).1 = rest ∧ (lines_of (k_cons s')).2 = (lines_of (k_cons s)).2 ∧ stored dst [c] (k_mem s) m'.
Proof.
  intros He El Hn Hd Hm Hu Hc. destruct (length_lines _ (re_ring _ He)) as [Hl _]. rw El in Hl. cbn in Hl.
  destruct (advance_ok _ (re_ring _ He) ltac:(lia)) as (Hk1 & Ea & Eb). rw El in Ea. injection Ea as Ec Erest.
  pose proof (renv_cons s _ He Hk1) as He1. set (s1 := set_k_cons _ s) in He1.
  destruct (copyout_spec s1 root l N u dst [c] (re_mem _ He1)) as (m' & E & Hu' & _ & Hb); [done|cbn; lia| |].
  { intros x Hx. cbn in Hx. by replace x with dst by lia. }
  exists m'. cbv zeta. split_and!.
  - unfold consoleread_body. rewrite -> (proj2 (Z.ltb_lt 0 n)) by lia. cbn [negb].
    mstep (cons_wait_ready s He ltac:(lia)). unfold get_cons. rw bind_gets. rw -Ec. unfold upd_cons. rw bind_modify.
    change (set_k_cons (set_cons_r (u32 (cons_r (k_cons s) + 1)) (k_cons s)) s) with s1. rewrite -> (proj2 (Z.eqb_neq c _) Hc).
    assert (either_copyout (AUser dst) [c] 1 s1 = Ret 0 (set_k_mem m' s1)) as E1.
    { unfold either_copyout. mstep (myproc_spec s1 (Some p) (proj1 (re_kmem _ He1)) (re_running _ He1)).
      cbn [deref]. rw bind_mret. mstep (get_proc_spec s1 p q (re_proc _ He1)). rw (re_root _ He). exact E. }
    mstep E1. change (0 =? -1) with false. cbv iota. destruct (c =? 10); done.
  - destruct He1. split; try done.
  - done.
  - done.
  - exact Hb.
Qed.

(** [C('D')] ends the read. *)
Lemma read_eof s dst n target rest :
  renv s → (lines_of (k_cons s)).1 = Ctrl 68 :: rest → 0 < n < 2 ^ 31 → n ≤ target →
  ∃ k', consoleread_body target (AUser dst, n) s = Ret (inr (Some n)) (set_k_cons k' s) ∧ ring_ok k' ∧
    (lines_of k').1 = (if n <? target then Ctrl 68 :: rest else rest) ∧ (lines_of k').2 = (lines_of (k_cons s)).2.
Proof.
  intros He El Hn Ht. destruct (length_lines _ (re_ring _ He)) as [Hl _]. rw El in Hl. cbn in Hl.
  destruct (advance_ok _ (re_ring _ He) ltac:(lia)) as (Hk1 & Ea & Eb). rw El in Ea. injection Ea as Ec Erest.
  set (s1 := set_k_cons (advance (k_cons s)) s).
  assert (∀ r s2, (whenM (u32 n <? target) (upd_cons (λ k, set_cons_r (u32 (cons_r k - 1)) k)) s1 = Ret r s2 →
    consoleread_body target (AUser dst, n) s = Ret (inr (Some n)) s2)) as Hgo.
  { intros r s2 E. unfold consoleread_body. rewrite -> (proj2 (Z.ltb_lt 0 n)) by lia. cbn [negb].
    mstep (cons_wait_ready s He ltac:(lia)). unfold get_cons. rw bind_gets. rw -Ec. unfold upd_cons at 1. rw bind_modify.
    change (set_k_cons (set_cons_r (u32 (cons_r (k_cons s) + 1)) (k_cons s)) s) with s1. rw Z.eqb_refl. by mstep E. }
  assert (u32 n = n) as Eu by (apply u32_small; lia). rw Eu in Hgo.
  destruct (n <? target); cbn [whenM] in Hgo.
  - exists (k_cons s). rw (Hgo _ _ eq_refl). split_and!; [|apply He|done|done]. f_equal. unfold s1. kcbn.
    assert (set_cons_r (u32 (cons_r (advance (k_cons s)) - 1)) (advance (k_cons s)) = k_cons s) as ->; [|by destruct s].
    destruct (re_ring _ He) as [_ Hr _ _ _]. destruct (k_cons s) as [b r w e]. cbn in *. unfold set_cons_r, u32. cbn. f_equal. zlia.
  - exists (advance (k_cons s)). by rw (Hgo _ _ eq_refl).
Qed.

Lemma read_loop (n : nat) : ∀ fuel s dst target d rest,
  renv s → take_line n (Z.of_nat n =? target) (lines_of (k_cons s)).1 = Some (d, rest) →
  Z.of_nat n ≤ target → Z.of_nat n < 2 ^ 31 → (n < fuel)%nat →
  0 ≤ dst → dst + Z.of_nat n ≤ MAXVA → (∀ x, dst ≤ x < dst + Z.of_nat n → user_ok u x) →
  ∃ m' k', let s' := set_k_mem m' (set_k_cons k' s) in
    loopM fuel (consoleread_body target) (AUser dst, Z.of_nat n) s = Ret (Some (Z.of_nat n - Z.of_nat (length d))) s' ∧
    renv s' ∧ lines_of k' = (rest, (lines_of (k_cons s)).2) ∧ stored dst d (k_mem s) m'.
Proof.
  induction n as [|n IH]; intros fuel s dst target d rest He El Ht Hn Hf Hd Hm Hu; (destruct fuel as [|fuel]; [lia|]); cbn [loopM take_line] in *.
  - injection El as <- <-. exists (k_mem s), (k_cons s). cbv zeta.
    assert (set_k_mem (k_mem s) (set_k_cons (k_cons s) s) = s) as -> by by destruct s.
    split; [done|]. split; [done|]. split; [apply surjective_pairing|]. apply stored_nil.
  - destruct (lines_of (k_cons s)).1 as [|c l'] eqn:Er; [done|]. destruct (Z.eqb_spec c (Ctrl 68)) as [->|Hc].
    + injection El as <- <-. destruct (read_eof s dst (Z.of_nat (S n)) target l' He Er) as (k' & E & Hk & H1 & H2); [lia|lia|].
      mstep E. exists (k_mem s), k'. cbv zeta.
      assert (set_k_mem (k_mem s) (set_k_cons k' s) = set_k_cons k' s) as -> by by destruct s.
      split; [by cbn; rw Z.sub_0_r|]. split; [by apply renv_cons|]. split; [|apply stored_nil].
      rewrite -> (surjective_pairing (lines_of k')), H1, H2. f_equal.
      etrans; [|exact (eq_refl : (if Z.of_nat (S n) =? target then l' else Ctrl 68 :: l') = _)].
      destruct (Z.ltb_spec (Z.of_nat (S n)) target), (Z.eqb_spec (Z.of_nat (S n)) target); try done; lia.
    + change MAXVA with (2 ^ 38) in Hm.
      destruct (read_char s dst (Z.of_nat (S n)) target c l' He Er) as (m1 & E1 & He1 & H1 & H2 & H3);
        [lia|done|change MAXVA with (2 ^ 38); lia|apply Hu; lia|done|]. mstep E1.
      destruct (c =? 10).
      * injection El as <- <-. exists m1, (advance (k_cons s)). cbv zeta. split; [do 2 f_equal; cbn; lia|]. split; [done|].
        split; [|done]. by rewrite -> (surjective_pairing (lines_of _)), <- H1, <- H2.
      * destruct (take_line n false l') as [[d' rest']|] eqn:Et; [|done]. injection El as <- <-.
        rewrite -> (u64_small (dst + 1)) by lia. replace (Z.of_nat (S n) - 1) with (Z.of_nat n) by lia.
        destruct (IH fuel _ (dst + 1) target d' rest' He1) as (m2 & k2 & E2 & He2 & Hl2 & Hs2);
          [|lia|lia|lia|lia|change MAXVA with (2 ^ 38); lia|intros x Hx; apply Hu; lia|].
        { rw H1. by rewrite -> (proj2 (Z.eqb_neq (Z.of_nat n) target)) by lia. }
        exists m2, k2. cbv zeta in *.
        assert (∀ k, set_k_mem m2 (set_k_cons k (set_k_mem m1 (set_k_cons (advance (k_cons s)) s))) = set_k_mem m2 (set_k_cons k s)) as Es by by destruct s.
        rw Es in E2 He2. split; [rw E2; do 2 f_equal; cbn; lia|]. split; [done|]. split; [by rw Hl2 H2|].
        by eapply stored_cons.
Qed.

Lemma consoleread_ok s dst (n : nat) d rest :
  renv s → lock_free LCons (k_sync s) → take_line n true (lines_of (k_cons s)).1 = Some (d, rest) →
  Z.of_nat n < 2 ^ 31 → 0 ≤ dst → dst + Z.of_nat n ≤ MAXVA → (∀ x, dst ≤ x < dst + Z.of_nat n → user_ok u x) →
  ∃ s', consoleread (AUser dst) (Z.of_nat n) s = Ret (Z.of_nat (length d)) s' ∧
    lines_of (k_cons s') = (rest, (lines_of (k_cons s)).2) ∧ stored dst d (k_mem s) (k_mem s').
Proof.
  intros He Hlk El Hn Hd Hm Hu. destruct (He) as [[Hok Hkm] H2 H3 H4 H5 H6 H7]. unfold consoleread.
  assert (u32 (Z.of_nat n) = Z.of_nat n) as Eu by (apply u32_small; lia). cbv zeta. rw Eu Nat2Z.id.
  mstep (kacquire_free _ _ Hok Hlk). set (s1 := set_k_sync (acq LCons (k_sync s)) s).
  assert (can_lock LKmem s1) as Hkm1 by (split; [by apply acq_ok|by apply acq_free_ne]).
  assert (renv s1) as He1 by (split; try done; [by apply running_acq|by eapply uspace_keep]).
  destruct (read_loop n (S n) s1 dst (Z.of_nat n) d rest He1) as (m' & k' & E & _ & Hl & Hs); try done; try lia; [by rw Z.eqb_refl|].
  mstep E. erewrite bind_Ret; [|by apply (krelease_acq LCons _ (k_sync s))].
  exists (set_k_sync (k_sync s) (set_k_mem m' (set_k_cons k' s1))). split; [|split; [exact Hl|exact Hs]].
  pose proof (take_line_length _ _ _ _ _ El).
  unfold mret, M_ret. f_equal. rewrite -> u32_small, i32_small by lia. lia.
Qed.

(** C11. The console edits and delivers lines. However the ring and its indices
    have wrapped around, typing the characters [cs] changes the finished lines
    and the edited line as [typed] says: characters are appended, a backspace
    rubs out one and [C('U')] all that has been typed since the last line end,
    carriage return is newline, a newline, [C('D')] or a full buffer ends the
    line, and nothing is lost but what does not fit. It transmits exactly the
    echo. A read of [n] bytes then returns the beginning of the finished lines,
    up to and including the first newline or up to [C('D')], stores it in the
    user's buffer and nothing elsewhere, and leaves the rest. *)
Theorem console_lines s cs dst (n : nat) :
  cenv (Some p) s → can_lock LKmem s → k_procs s !! p = Some q → p_pagetable q = root → uspace s root l N u → k_fuel s ≠ O →
  Forall (λ c, 0 ≤ c < 256 ∧ c ≠ Ctrl 80) cs →
  Z.of_nat n < 2 ^ 31 → 0 ≤ dst → dst + Z.of_nat n ≤ MAXVA → (∀ x, dst ≤ x < dst + Z.of_nat n → user_ok u x) →
  let lines := typed_all cs (lines_of (k_cons s)) in
  ∃ s1, eachM cs consoleintr s = Ret tt s1 ∧ lines_of (k_cons s1) = lines ∧
    sent s1 = sent s ++ echoes cs (lines_of (k_cons s)) ∧
    ∀ d rest, take_line n true lines.1 = Some (d, rest) →
      ∃ s2, consoleread (AUser dst) (Z.of_nat n) s1 = Ret (Z.of_nat (length d)) s2 ∧
        lines_of (k_cons s2) = (rest, lines.2) ∧ stored dst d (k_mem s) (k_mem s2).
Proof.
  intros Hc Hkm Hp Hr Hu Hf Hcs Hn Hd Hm Huo lines.
  destruct (typing_ok (Some p) cs s Hc Hcs) as (s1 & k & ps & v & E & Hc1 & Es & Hl & Ho & Hq).
  exists s1. split; [done|]. split; [done|]. split; [done|]. intros d rest Et.
  assert (k_sync s1 = k_sync s ∧ k_mem s1 = k_mem s ∧ k_freelist s1 = k_freelist s ∧ k_fuel s1 = k_fuel s) as (Y1 & Y2 & Y3 & Y4) by by rw Es.
  assert (can_lock LKmem s1) as Hkm1 by (unfold can_lock; by rw Y1).
  assert (renv s1) as He.
  { split; [done|apply Hc1|by apply Hq|done|by eapply uspace_keep|apply Hc1|by rw Y4]. }
  destruct (consoleread_ok s1 dst n d rest He (ce_lock _ _ Hc1)) as (s2 & E2 & Hl2 & Hs2); [by rw Hl|done..|].
  exists s2. split; [done|]. rw Hl2 Hl -Y2. done.
Qed.
End reading.

(** ** A process that reads a line, for the witness *)

Section small.
#[local] Existing Instance image0.

(** The indices are about to wrap around. *)
Definition cons_wrap : consst := Cons (replicate 128 0) (2 ^ 32 - 2) (2 ^ 32 - 2) (2 ^ 32 - 2).
Definition kst_cons : kstate := set_k_uart (Uart [] 0 0 [] [] []) (set_k_cons cons_wrap kst_pipe).

Lemma cenv_kst_cons : cenv (Some O) kst_cons.
Proof.
  pose proof penv_kst_pipe as [He Hr Hp _ _]. split.
  - split; [apply He|done|done].
  - apply sync_p_free. unfold all_locks. set_solver.
  - exact (at_rest_running _ _ Hr).
  - done.
  - split; [split; by vm_compute|]. by intros ?%elem_of_nil.
Qed.

(** [h], [x], backspace, [i], carriage return *)
Lemma console_lines_witness :
  ∃ s1 s2, eachM [104; 120; 8; 105; 13] consoleintr kst_cons = Ret tt s1 ∧
    sent s1 = [104; 120; 8; 32; 8; 105; 10] ∧
    consoleread (AUser 100) 10 s1 = Ret 3 s2 ∧ ubyte (k_mem s2) user_small 101 = 105.
Proof.
  pose proof penv_kst_pipe as [He _ _ _ _].
  destruct (console_lines 0 proc_p (pg 1) [pg 5] table_small user_small kst_cons [104; 120; 8; 105; 13] 100 10)
    as (s1 & E & _ & Hs & H).
  - exact cenv_kst_cons.
  - apply He.
  - apply He.
  - apply He.
  - eapply uspace_keep; [exact uspace_small|done|done|apply He].
  - done.
  - repeat constructor; done.
  - lia.
  - lia.
  - by vm_compute.
  - intros x Hx. apply user_small_ok. lia.
  - destruct (H [104; 105; 10] [] eq_refl) as (s2 & E2 & _ & Hst). exists s1, s2.
    split; [exact E|]. split; [exact Hs|]. split; [exact E2|]. exact (Hst 101).
Defined.
End small.
