(* ===== verification/File.v ===== *)
(** * Open files (kernel/file.c, and [pipealloc] of kernel/pipe.c)

    A [struct file *] is an index into [k_ftable]. *)

From S2P Require Import Prelude Riscv KState Spinlock KString Kalloc Vm Sched Layout Bio Log Fs.
From S2P Require Import Uart KPrintf Console Pipe.
Open Scope Z_scope.

Definition get_file (f : nat) : KM file := t ← gets k_ftable; deref (t !! f).
Definition upd_file (f : nat) (g : file → file) : KM unit :=
  modify (λ s, set_k_ftable (alter g f (k_ftable s)) s).

Section file.
Context `{Image}.

Definition fileinit : KM unit := kinitlock LFtable "ftable".

Definition filealloc : KM (option nat) :=
  kacquire LFtable ;;
  r ← forM (seq 0 NFILE) (λ f,
    k ← get_file f;
    if f_ref k =? 0 then upd_file f (set_f_ref 1) ;; krelease LFtable ;; mret (Some f)
    else mret None);
  match r with
  | Some f => mret (Some f)
  | None => krelease LFtable ;; mret None
  end.

Definition filedup (f : nat) : KM nat :=
  kacquire LFtable ;;
  k ← get_file f;
  if f_ref k <? 1 then panic "filedup" else
  upd_file f (λ k, set_f_ref (i32 (f_ref k + 1)) k) ;;
  krelease LFtable ;;
  mret f.

Definition fileclose (f : nat) : KM unit :=
  kacquire LFtable ;;
  k ← get_file f;
  if f_ref k <? 1 then panic "fileclose" else
  upd_file f (λ k, set_f_ref (i32 (f_ref k - 1)) k) ;;
  k ← get_file f;
  if 0 <? f_ref k then krelease LFtable else
  ff ← get_file f;
  upd_file f (set_f_ref 0) ;;
  upd_file f (set_f_type FD_NONE) ;;
  krelease LFtable ;;
  match f_type ff with
  | FD_PIPE => pipeclose (f_pipe ff) (f_writable ff)
  | FD_INODE | FD_DEVICE =>
      begin_op ;;
      ip ← deref (f_ip ff);
      iput ip ;;
      end_op
  | FD_NONE => mret tt
  end.

Definition filestat (f : nat) (addr : Z) : KM Z :=
  p ← curproc;
  k ← get_file f;
  if decide (f_type k = FD_INODE ∨ f_type k = FD_DEVICE) then
    ilock (f_ip k) ;;
    ip ← deref (f_ip k);
    st ← stati ip;
    iunlock (Some ip) ;;
    q ← get_proc p;
    r ← copyout (p_pagetable q) addr (enc_stat st) sizeof_stat;
    if r <? 0 then mret (-1) else mret 0
  else mret (-1).

(** [devsw[major].read] and [.write], if they are not null. *)
Definition dev_fn (d : devsw → devfn) (major : Z) : KM devfn :=
  if (major <? 0) || (Z.of_nat NDEV <=? major) then mret DevNone else
  t ← gets k_devsw;
  k ← deref (t !! Z.to_nat major);
  mret (d k).

Definition fileread (f : nat) (addr n : Z) : KM Z :=
  k ← get_file f;
  if f_readable k =? 0 then mret (-1) else
  match f_type k with
  | FD_PIPE => piperead (f_pipe k) addr n
  | FD_DEVICE =>
      d ← dev_fn d_read (f_major k);
      match d with
      | DevNone => mret (-1)
      | DevConsole => consoleread (AUser addr) n
      end
  | FD_INODE =>
      ilock (f_ip k) ;;
      k ← get_file f;
      ip ← deref (f_ip k);
      r ← readi ip (AUser addr) (f_off k) (u32 n);
      whenM (0 <? r.1) (upd_file f (λ k, set_f_off (u32 (f_off k + r.1)) k)) ;;
      iunlock (Some ip) ;;
      mret r.1
  | FD_NONE => panic "fileread"
  end.

(** The most bytes [filewrite] writes in one transaction. *)
Definition filewrite_max : Z := (MAXOPBLOCKS - 1 - 1 - 2) / 2 * BSIZE.

Definition filewrite_body (f : nat) (addr n i : Z) : KM (Z + Z) :=
  if negb (i <? n) then mret (inr i) else
  let n1 := Z.min (n - i) filewrite_max in
  begin_op ;;
  k ← get_file f;
  ilock (f_ip k) ;;
  k ← get_file f;
  ip ← deref (f_ip k);
  r ← writei ip (AUser (u64 (addr + i))) (f_off k) (u32 n1);
  whenM (0 <? r) (upd_file f (λ k, set_f_off (u32 (f_off k + r)) k)) ;;
  iunlock (Some ip) ;;
  end_op ;;
  if negb (r =? n1) then mret (inr i) else mret (inl (i + r)).
Definition filewrite (f : nat) (addr n : Z) : KM Z :=
  k ← get_file f;
  if f_writable k =? 0 then mret (-1) else
  match f_type k with
  | FD_PIPE => pipewrite (f_pipe k) addr n
  | FD_DEVICE =>
      d ← dev_fn d_write (f_major k);
      match d with
      | DevNone => mret (-1)
      | DevConsole => consolewrite (AUser addr) n
      end
  | FD_INODE =>
      i ← loopM (Z.to_nat (Z.max 0 n / filewrite_max + 2)) (filewrite_body f addr n) 0;
      mret (if i =? n then n else -1)
  | FD_NONE => panic "filewrite"
  end.

(** ** pipealloc *)

(** [bad:] of [pipealloc]; [pi] is null there whenever it is reached. *)
Definition pipealloc_bad (f0 f1 : option nat) : KM (option (nat * nat)) :=
  match f0 with Some f => fileclose f | None => mret tt end ;;
  match f1 with Some f => fileclose f | None => mret tt end ;;
  mret None.

(** The two files, or [None] for the result -1. *)
Definition pipealloc : KM (option (nat * nat)) :=
  r0 ← filealloc;
  match r0 with
  | None => pipealloc_bad None None
  | Some f0 =>
      r1 ← filealloc;
      match r1 with
      | None => pipealloc_bad (Some f0) None
      | Some f1 =>
          pi ← kalloc;
          if pi =? 0 then pipealloc_bad (Some f0) (Some f1) else
          modify (λ s, set_k_pipes
            (<[pi := Pipe (replicate (Z.to_nat PIPESIZE) 5) 0 0 1 1]> (k_pipes s)) s) ;;
          kinitlock (LPipe pi) "pipe" ;;
          upd_file f0 (set_f_type FD_PIPE) ;;
          upd_file f0 (set_f_readable 1) ;;
          upd_file f0 (set_f_writable 0) ;;
          upd_file f0 (set_f_pipe pi) ;;
          upd_file f1 (set_f_type FD_PIPE) ;;
          upd_file f1 (set_f_readable 0) ;;
          upd_file f1 (set_f_writable 1) ;;
          upd_file f1 (set_f_pipe pi) ;;
          mret (Some (f0, f1))
      end
  end.
End file.
