(* ===== verification/Process.v ===== *)
(** * Creating, ending and awaiting processes (kernel/proc.c)

    The part of proc.c that uses the file system: [userinit], [fork], [exit]
    and [wait]. [forkret] is in [Trap]. *)

From S2P Require Import Prelude Riscv KState Spinlock KString Kalloc Vm Sched Layout Bio Log Fs.
From S2P Require Import Uart KPrintf Console Pipe File.
Open Scope Z_scope.

(** [uchar initcode[]] *)
Definition initcode : list Z := [
  0x17; 0x05; 0x00; 0x00; 0x13; 0x05; 0x45; 0x02;
  0x97; 0x05; 0x00; 0x00; 0x93; 0x85; 0x35; 0x02;
  0x93; 0x08; 0x70; 0x00; 0x73; 0x00; 0x00; 0x00;
  0x93; 0x08; 0x20; 0x00; 0x73; 0x00; 0x00; 0x00;
  0xef; 0xf0; 0x9f; 0xff; 0x2f; 0x69; 0x6e; 0x69;
  0x74; 0x00; 0x00; 0x24; 0x00; 0x00; 0x00; 0x00;
  0x00; 0x00; 0x00; 0x00].

(** A store to a field of [p->trapframe]. *)
Definition st_tf (p : nat) (off v : Z) : KM unit :=
  k ← get_proc p; st (p_trapframe k + off) v.
Definition ld_tf (p : nat) (off : Z) : KM Z :=
  k ← get_proc p; ld (p_trapframe k + off).

(** [sizeof(p->name)] *)
Definition sizeof_name : Z := 16.

Section process.
Context `{Image}.

Definition userinit : KM unit :=
  r ← allocproc;
  modify (set_k_initproc r) ;;
  p ← deref r;
  k ← get_proc p;
  uvminit (p_pagetable k) initcode (Z.of_nat (length initcode)) ;;
  upd_proc p (set_p_sz PGSIZE) ;;
  st_tf p tf_epc 0 ;;
  st_tf p tf_sp PGSIZE ;;
  upd_proc p (λ k, set_p_name (safestrcpy (p_name k) (str "initcode") sizeof_name) k) ;;
  cwd ← namei (str "/");
  upd_proc p (set_p_cwd cwd) ;;
  upd_proc p (set_p_state RUNNABLE) ;;
  krelease (LProc p).

(** The loop over the open files in [fork]. *)
Definition fork_files (p np : nat) : KM unit :=
  eachM (seq 0 NOFILE) (λ i,
    k ← get_proc p;
    match p_ofile k !! i with
    | Some (Some f) =>
        f ← filedup f;
        upd_proc np (λ k, set_p_ofile (<[i := Some f]> (p_ofile k)) k)
    | _ => mret tt
    end).

Definition fork : KM Z :=
  p ← curproc;
  r ← allocproc;
  match r with
  | None => mret (-1)
  | Some np =>
      k ← get_proc p;
      nk ← get_proc np;
      r ← uvmcopy (p_pagetable k) (p_pagetable nk) (p_sz k);
      if r <? 0 then freeproc np ;; krelease (LProc np) ;; mret (-1) else
      upd_proc np (set_p_sz (p_sz k)) ;;
      kmemmove (p_trapframe nk) (p_trapframe k) tf_size ;;
      st_tf np tf_a0 0 ;;
      fork_files p np ;;
      k ← get_proc p;
      cwd ← deref (p_cwd k);
      cwd ← idup cwd;
      upd_proc np (set_p_cwd (Some cwd)) ;;
      upd_proc np (λ nk, set_p_name (safestrcpy (p_name nk) (p_name k) sizeof_name) nk) ;;
      nk ← get_proc np;
      let pid := p_pid nk in
      krelease (LProc np) ;;
      kacquire LWait ;;
      upd_proc np (set_p_parent (Some p)) ;;
      krelease LWait ;;
      kacquire (LProc np) ;;
      upd_proc np (set_p_state RUNNABLE) ;;
      krelease (LProc np) ;;
      mret pid
  end.

(** [wakeup(p)] for a [struct proc *p]; no process sleeps on the null pointer. *)
Definition wakeup_proc (p : option nat) : KM unit :=
  match p with Some p => wakeup (CProc p) | None => mret tt end.

Definition reparent (p : nat) : KM unit :=
  eachM (seq 0 NPROC) (λ pp,
    k ← get_proc pp;
    whenM (bool_decide (p_parent k = Some p))
      (init ← gets k_initproc;
       upd_proc pp (set_p_parent init) ;;
       wakeup_proc init)).

(** The loop over the open files in [exit]. *)
Definition exit_files (p : nat) : KM unit :=
  eachM (seq 0 NOFILE) (λ fd,
    k ← get_proc p;
    match p_ofile k !! fd with
    | Some (Some f) =>
        fileclose f ;;
        upd_proc p (λ k, set_p_ofile (<[fd := None]> (p_ofile k)) k)
    | _ => mret tt
    end).

Definition exit {A} (status : Z) : KM A :=
  p ← curproc;
  init ← gets k_initproc;
  if decide (init = Some p) then panic "init exiting" else
  exit_files p ;;
  begin_op ;;
  k ← get_proc p;
  cwd ← deref (p_cwd k);
  iput cwd ;;
  end_op ;;
  upd_proc p (set_p_cwd None) ;;
  kacquire LWait ;;
  reparent p ;;
  k ← get_proc p;
  wakeup_proc (p_parent k) ;;
  kacquire (LProc p) ;;
  upd_proc p (set_p_xstate status) ;;
  upd_proc p (set_p_state ZOMBIE) ;;
  krelease LWait ;;
  sched ;;
  panic "zombie exit".

(** The scan of the table in [wait]: [inl havekids] at its end, [inr] the
    result when it returns from [wait]. *)
Fixpoint wait_scan (p : nat) (addr : Z) (nps : list nat) (havekids : bool) : KM (bool + Z) :=
  match nps with
  | [] => mret (inl havekids)
  | np :: nps =>
      k ← get_proc np;
      if negb (bool_decide (p_parent k = Some p)) then wait_scan p addr nps havekids else
      kacquire (LProc np) ;;
      k ← get_proc np;
      if decide (p_state k = ZOMBIE) then
        let pid := p_pid k in
        q ← get_proc p;
        r ← (if addr =? 0 then mret 0
             else copyout (p_pagetable q) addr (le_enc 4 (p_xstate k)) 4);
        if r <? 0 then
          krelease (LProc np) ;; krelease LWait ;; mret (inr (-1))
        else
          freeproc np ;;
          krelease (LProc np) ;;
          krelease LWait ;;
          mret (inr pid)
      else
        krelease (LProc np) ;;
        wait_scan p addr nps true
  end.
Definition wait (addr : Z) : KM Z :=
  p ← curproc;
  kacquire LWait ;;
  fuel ← gets k_fuel;
  loopM fuel (λ _ : unit,
    r ← wait_scan p addr (seq 0 NPROC) false;
    match r with
    | inr v => mret (inr v)
    | inl havekids =>
        k ← get_proc p;
        if negb havekids || negb (p_killed k =? 0) then krelease LWait ;; mret (inr (-1)) else
        sleep (CProc p) LWait ;;
        mret (inl tt)
    end) tt.
End process.
