(* ===== verification/ProcMem.v ===== *)
(** * Page tables of processes (kernel/vm.c: freewalk, uvmfree; kernel/proc.c:
    proc_pagetable, proc_freepagetable, freeproc)

    Building the page table of a process takes pages off the free list, and
    tearing it down gives all of them back: [freewalk] frees exactly the pages
    of the tree, and every path out of [proc_pagetable] leaves the pages in the
    table or in the free list. *)

From S2P Require Import Prelude Riscv KState Spinlock KString Kalloc Vm PageTable Uspace Sched.
Open Scope Z_scope.

Section freewalk.
Context `{Image}.

Lemma eachM_seqZ {S} (body : Z → M S unit) (J : Z → S → Prop) (n : Z) s :
  0 ≤ n →
  (∀ i s, 0 ≤ i < n → J i s → ∃ s', body i s = Ret tt s' ∧ J (i + 1) s') →
  J 0 s → ∃ s', eachM (seqZ 0 n) body s = Ret tt s' ∧ J n s'.
Proof.
  intros Hn Hb.
  assert (∀ k a s, a + Z.of_nat k = n → 0 ≤ a → J a s →
    ∃ s', eachM (seqZ a k) body s = Ret tt s' ∧ J n s') as Hk.
  { induction k as [|k IH]; intros a t Ha H0 HJ.
    - exists t. split; [done|]. by replace n with a by lia.
    - rw seqZ_cons; [|lia]. cbn [eachM]. destruct (Hb a t) as (t1 & E & HJ1); [lia|done|].
      rewrite -> (bind_Ret _ _ _ _ _ E). replace (Z.pred (Datatypes.S k)) with (Z.of_nat k) by lia.
      replace (Z.succ a) with (a + 1) by lia. apply IH; [lia|lia|done]. }
  intros HJ. destruct (Hk (Z.to_nat n) 0 s) as (s' & E & HJ'); [lia|lia|done|].
  exists s'. split; [|done]. rw -E. do 3 f_equal. lia.
Qed.

(** ** [freewalk] *)

Section tree.
Context (N : ptree).
Hypothesis Hpage : ∀ π p, N !! π = Some p → page_ok p.
Hypothesis Hinj : ∀ π π' p, N !! π = Some p → N !! π' = Some p → π = π'.
Hypothesis Hpre : ∀ π i p,
  N !! (π ++ [i]) = Some p → is_Some (N !! π) ∧ (length π < 2)%nat ∧ 0 ≤ i < 512.

(** The pages of the tree at and below [π]. *)
Definition below (π : list Z) (a : Z) : Prop := ∃ π', N !! (π ++ π') = Some a.

(** The entries of these pages point to their children and map nothing. *)
Definition no_leaves (m : bytemem) (π : list Z) : Prop := ∀ π' p i,
  N !! (π ++ π') = Some p → 0 ≤ i < 512 →
  match N !! (π ++ π' ++ [i]) with
  | Some q => ld64 m (pte_at p i) = Z.lor (PA2PTE q) PTE_V
  | None => Z.land (ld64 m (pte_at p i)) PTE_V = 0
  end.

Lemma path_prefix π π' p : N !! (π ++ π') = Some p → is_Some (N !! π).
Proof.
  revert p. induction π' as [|i π' IH] using rev_ind; intros p Hp; [rw app_nil_r in Hp; by eexists|].
  rw app_assoc in Hp. destruct (Hpre _ _ _ Hp) as ([q Hq] & _). by eapply IH.
Qed.
Lemma path_short π p : N !! π = Some p → (length π < 3)%nat.
Proof.
  destruct π as [|i π _] using rev_ind; cbn; [lia|]. intros Hp. destruct (Hpre _ _ _ Hp) as (_ & ? & _).
  rw length_app. cbn. lia.
Qed.
Lemma path_index π i π' p : N !! (π ++ i :: π') = Some p → 0 ≤ i < 512.
Proof.
  intros Hp. rw (cons_middle i) app_assoc in Hp. destruct (path_prefix _ _ _ Hp) as [q Hq].
  by apply Hpre in Hq as (_ & _ & ?).
Qed.

Lemma not_self π p i π' : N !! π = Some p → N !! (π ++ i :: π') ≠ Some p.
Proof.
  intros Hp Hi. pose proof (Hinj _ _ _ Hp Hi) as E.
  apply (f_equal length) in E. rw length_app in E. cbn in E. lia.
Qed.
Lemma subtrees_apart π i j π' π'' a :
  N !! (π ++ i :: π') = Some a → N !! (π ++ j :: π'') = Some a → i = j.
Proof. intros Hi Hj. by injection (app_inv_head _ _ _ (Hinj _ _ _ Hi Hj)). Qed.

(** Entries that point to a table have no R, W or X. *)
Lemma entry_inner q : Z.land (Z.lor (PA2PTE q) PTE_V) (Z.lor (Z.lor PTE_R PTE_W) PTE_X) = 0.
Proof.
  apply Z.bits_inj'. intros i Hi. rw Z.land_spec Z.lor_spec Z.bits_0.
  destruct (decide (i < 4)) as [E|E].
  - assert (Z.testbit (PA2PTE q) i = false) as ->.
    { unfold PA2PTE, u64. rewrite -> (Z.mod_pow2_bits_low _ 64) by lia. apply Z.shiftl_spec_low. lia. }
    by assert (i = 0 ∨ i = 1 ∨ i = 2 ∨ i = 3) as [->|[->|[->| ->]]] by lia.
  - rewrite -> (Z.bits_above_log2 (Z.lor _ PTE_X)); [apply andb_false_r|done|change (Z.log2 _) with 3; lia].
Qed.

(** What one call of [freewalk] does: it frees the pages [l'] at and below
    [π], and changes no other page. *)
Record freed (π : list Z) (l : list Z) (s s' : kstate) : Prop := {
  fr_lock : can_lock LKmem s';
  fr_list : ∃ l', kmem_inv s' (l' ++ l) ∧ ∀ a, a ∈ l' ↔ below π a;
  fr_state : ∃ m f, s' = set_k_mem m (set_k_freelist f s);
  fr_agree b : b mod 4096 = 0 → ¬ below π b → agree (k_mem s) (k_mem s') b
}.

(** The loop over the entries of the page [p] at [π], before entry [i]. *)
Record freeing (π : list Z) (p : Z) (l : list Z) (s : kstate) (i : Z) (s' : kstate) : Prop := {
  fg_lock : can_lock LKmem s';
  fg_list : ∃ l', kmem_inv s' (l' ++ l) ∧
    ∀ a, a ∈ l' ↔ ∃ j π', 0 ≤ j < i ∧ N !! (π ++ j :: π') = Some a;
  fg_state : ∃ m f, s' = set_k_mem m (set_k_freelist f s);
  fg_entry j : i ≤ j < 512 → ld64 (k_mem s') (pte_at p j) = ld64 (k_mem s) (pte_at p j);
  fg_agree b : b mod 4096 = 0 → b ≠ p → (∀ j π', 0 ≤ j < i → N !! (π ++ j :: π') ≠ Some b) →
    agree (k_mem s) (k_mem s') b
}.

Lemma freeing_start π p l s : can_lock LKmem s → kmem_inv s l → freeing π p l s 0 s.
Proof.
  intros Hlk Hf. split; [done| | |done|done].
  - exists []. split; [done|]. intros a. split; [by intros ?%elem_of_nil|intros (j & π' & ? & _); lia].
  - exists (k_mem s), (k_freelist s). by destruct s.
Qed.

(** An entry without a child is passed over. *)
Lemma freeing_skip π p l s i s' :
  freeing π p l s i s' → 0 ≤ i → N !! (π ++ [i]) = None → freeing π p l s (i + 1) s'.
Proof.
  intros [Hlk (l' & Hf & Hl') Hst He Hag] Hi Hn.
  assert (∀ π' a, N !! (π ++ i :: π') ≠ Some a) as Hno.
  { intros π' a Ha. rw (cons_middle i) app_assoc in Ha. destruct (path_prefix _ _ _ Ha) as [q Hq].
    congruence. }
  split; [done| |done| |].
  - exists l'. split; [done|]. intros a. rw Hl'. split; intros (j & π' & Hj & Ha); exists j, π'.
    + split; [lia|done].
    + split; [|done]. destruct (decide (j = i)) as [->|]; [by destruct (Hno π' a)|lia].
  - intros j Hj. apply He. lia.
  - intros b Hb Hbp Hbn. apply Hag; [done|done|]. intros j π' Hj. apply Hbn. lia.
Qed.

Lemma below_cons π i a : below (π ++ [i]) a ↔ ∃ π', N !! (π ++ i :: π') = Some a.
Proof. unfold below. by setoid_rewrite <- app_assoc. Qed.

(** The child at entry [i] has been freed, and its entry is cleared. *)
Lemma freeing_child π p l s i q s1 l1 s2 :
  freeing π p l s i s1 → N !! π = Some p → 0 ≤ i < 512 → N !! (π ++ [i]) = Some q →
  (∀ a, below π a → a ∉ l) →
  (∀ a, a ∈ l1 ↔ ∃ j π', 0 ≤ j < i ∧ N !! (π ++ j :: π') = Some a) →
  freed (π ++ [i]) (l1 ++ l) s1 s2 →
  freeing π p l s (i + 1) (set_k_mem (st64 (k_mem s2) (pte_at p i) 0) s2).
Proof.
  intros [Hlk _ (m1 & f1 & E1) He Hag] Hp Hi Hq Hdis Hl1 [Hlk2 (l2 & Hf2 & Hl2) (m2 & f2 & E2) Hag2].
  pose proof (Hpage _ _ Hp) as Hpp.
  assert (∀ j π', N !! (π ++ j :: π') ≠ Some p) as Hpn by (intros; by apply not_self).
  assert (¬ below (π ++ [i]) p) as Hbp by (rw below_cons; intros [π' Hb]; by eapply Hpn).
  assert (p ∉ l2 ++ l1 ++ l) as Hpl.
  { rw !not_elem_of_app. split_and!; [by rw Hl2| |].
    - rw Hl1. intros (j & π' & _ & Hj). by eapply Hpn.
    - apply Hdis. exists []. by rw app_nil_r. }
  split.
  - done.
  - exists (l2 ++ l1). split.
    + rw -app_assoc. destruct Hf2 as [Hf2 Hnd]. split; [|done]. kcbn. unfold st64.
      apply (flist_write _ _ _ p); rw ?length_le_enc; unfold pte_at; try done; lia.
    + intros a. rw elem_of_app Hl2 Hl1 below_cons. split.
      * intros [[π' Ha]|(j & π' & Hj & Ha)]; [exists i, π'|exists j, π']; (split; [lia|done]).
      * intros (j & π' & Hj & Ha). destruct (decide (j = i)) as [->|]; [left; by exists π'|].
        right. exists j, π'. split; [lia|done].
  - exists (st64 (k_mem s2) (pte_at p i) 0), f2. rw E2 E1. by destruct s.
  - intros j Hj. kcbn. rw ld64_st64_ne; [|unfold pte_at; lia].
    rewrite -> (agree_ld64 (k_mem s1)); [|apply Hag2; [by destruct Hpp|done]|lia].
    apply He. lia.
  - intros b Hb Hbn Hbj. kcbn. eapply agree_trans; [|apply (agree_stn _ _ p)];
      rw ?length_le_enc; unfold pte_at; try done; try lia; [|by destruct Hpp].
    eapply agree_trans; [apply Hag|apply Hag2]; try done.
    + intros j π' Hj. apply Hbj. lia.
    + rw below_cons. intros [π' Hb']. by apply (Hbj i π'); [lia|].
Qed.

(** [freewalk] from a page at depth [3 - d]. *)
Definition frees (d : nat) : Prop := ∀ π p s l,
  (length π + d = 3)%nat → N !! π = Some p → can_lock LKmem s → kmem_inv s l →
  no_leaves (k_mem s) π → (∀ a, below π a → a ∉ l) →
  ∃ s', freewalk_depth d p s = Ret tt s' ∧ freed π l s s'.

Lemma freewalk_entry d π p s l i s1 :
  frees d → (length π + S d = 3)%nat → N !! π = Some p →
  no_leaves (k_mem s) π → (∀ a, below π a → a ∉ l) → 0 ≤ i < 512 → freeing π p l s i s1 →
  ∃ s2, (pte ← ld (pte_at p i);
    if negb (Z.land pte PTE_V =? 0) && (Z.land pte (Z.lor (Z.lor PTE_R PTE_W) PTE_X) =? 0)
    then freewalk_depth d (PTE2PA pte) ;; st (pte_at p i) 0
    else whenM (negb (Z.land pte PTE_V =? 0)) (panic "freewalk: leaf")) s1 = Ret tt s2 ∧
    freeing π p l s (i + 1) s2.
Proof.
  intros IH Hlen Hp Hno Hdis Hi Hfg. unfold ld. rewrite -> bind_gets.
  rewrite -> (fg_entry _ _ _ _ _ _ Hfg) by lia.
  pose proof (Hno [] p i) as He. rw app_nil_r app_nil_l in He. specialize (He Hp Hi).
  destruct (N !! (π ++ [i])) as [q|] eqn:Hq.
  - rw He entry_inner entry_pa; [|by eapply Hpage].
    destruct (Z.eqb_spec (Z.land (Z.lor (PA2PTE q) PTE_V) PTE_V) 0) as [E|_];
      [by apply entry_valid in E|]. cbn [negb andb Z.eqb].
    destruct (fg_list _ _ _ _ _ _ Hfg) as (l1 & Hf1 & Hl1).
    destruct (IH (π ++ [i]) q s1 (l1 ++ l)) as (s2 & E2 & Hfr);
      [rw length_app; cbn; lia|done|apply Hfg|done| | |].
    + intros π' b j Hb Hj. rw -!app_assoc in Hb |- *. cbn [app] in *.
      rewrite -> (agree_ld64 (k_mem s)); [exact (Hno (i :: π') b j Hb Hj)| |done].
      apply (fg_agree _ _ _ _ _ _ Hfg); [by apply (Hpage _ _ Hb)| |].
      * intros ->. by apply (not_self _ _ i π' Hp).
      * intros j' π'' Hj' Hb'. pose proof (subtrees_apart _ _ _ _ _ _ Hb Hb'). lia.
    + intros a Ha. pose proof (proj1 (below_cons _ _ _) Ha) as [π' Hb]. rw not_elem_of_app Hl1. split.
      * intros (j & π'' & Hj & Hb'). pose proof (subtrees_apart _ _ _ _ _ _ Hb Hb'). lia.
      * apply Hdis. by exists (i :: π').
    + rewrite -> (bind_Ret _ _ _ _ _ E2). unfold st. eexists. split; [done|]. by eapply freeing_child.
  - destruct (Z.eqb_spec (Z.land (ld64 (k_mem s) (pte_at p i)) PTE_V) 0); [|done]. cbn [negb andb whenM].
    exists s1. split; [done|]. apply freeing_skip; [done|lia|done].
Qed.

Lemma freewalk_depth_spec d : frees d.
Proof.
  induction d as [|d IH]; intros π p s l Hlen Hp Hlk Hf Hno Hdis.
  { pose proof (path_short _ _ Hp). lia. }
  cbn [freewalk_depth]. pose proof (Hpage _ _ Hp) as Hpp.
  match goal with |- context [eachM _ ?b] =>
    destruct (eachM_seqZ b (freeing π p l s) 512 s)
      as (s1 & E1 & [Hlk1 (l1 & Hf1 & Hl1) (m1 & f1 & Es1) He1 Hag1]); [done| | |] end.
  { intros i s1 Hi Hfg. by eapply freewalk_entry. }
  { by apply freeing_start. }
  rewrite -> (bind_Ret _ _ _ _ _ E1).
  assert (p ∉ l1 ++ l) as Hpl.
  { rw not_elem_of_app Hl1. split; [|apply Hdis; exists []; by rw app_nil_r].
    intros (j & π' & _ & Hj). by apply (not_self _ _ j π' Hp). }
  assert (∀ a, a ∈ p :: l1 ↔ below π a) as Hl.
  { intros a. rw elem_of_cons Hl1. split.
    - intros [->|(j & π' & _ & Ha)]; [exists []; by rw app_nil_r|by exists (j :: π')].
    - intros [[|j π'] Ha]; [left; rw app_nil_r in Ha; congruence|]. right. exists j, π'.
      split; [by eapply path_index|done]. }
  eexists. split; [by apply kfree_page|]. split.
  - done.
  - exists (p :: l1). split; [by apply kmem_inv_free|done].
  - eexists _, _. rw Es1. by destruct s.
  - intros b Hb Hn. rw -Hl not_elem_of_cons Hl1 in Hn. destruct Hn as [Hbp Hbn]. kcbn.
    eapply agree_trans; [apply Hag1; [done|done|]|].
    + intros j π' Hj Hb'. apply Hbn. by exists j, π'.
    + eapply agree_trans; [apply (agree_memset _ _ p); [done|by destruct Hpp|done]|].
      apply (agree_stn _ _ p); rw ?length_le_enc; try done; try lia. by destruct Hpp.
Qed.
End tree.

Lemma PX_compose i2 i1 i0 :
  0 ≤ i2 < 512 → 0 ≤ i1 < 512 → 0 ≤ i0 < 512 →
  let x := i2 * 1073741824 + i1 * 2097152 + i0 * 4096 in PX 2 x = i2 ∧ PX 1 x = i1 ∧ PX 0 x = i0.
Proof.
  intros H2 H1 H0 x. rw !PX_div //. change (2 ^ (12 + 9 * 2)) with 1073741824.
  change (2 ^ (12 + 9 * 1)) with 2097152. change (2 ^ (12 + 9 * 0)) with 4096. unfold x. zlia.
Qed.

(** A table that maps nothing: all its pages go to the free list. *)
Lemma freewalk_spec s root l N :
  own s root l N → (∀ x, 0 ≤ x < MAXVA → Z.land (leaf (k_mem s) N x) PTE_V = 0) →
  ∃ s' l', freewalk root s = Ret tt s' ∧ can_lock LKmem s' ∧ kmem_inv s' (l' ++ l) ∧
    (∀ a, a ∈ l' ↔ ∃ π, N !! π = Some a) ∧ (∃ m f, s' = set_k_mem m (set_k_freelist f s)) ∧
    (∀ b, b mod 4096 = 0 → (∀ π, N !! π ≠ Some b) → agree (k_mem s) (k_mem s') b).
Proof.
  intros [Hlk Hf Hrep Hdis] Hleaf.
  destruct (freewalk_depth_spec N (@rep_page _ _ _ _ Hrep) (@rep_inj _ _ _ _ Hrep) (@rep_prefix _ _ _ _ Hrep)
    3 [] root s l) as (s' & E & [Hlk' (l' & Hf' & Hl') Hst Hag]);
    [done|apply (rep_root Hrep)|done|done| | |].
  - intros π p i Hp Hi. cbn [app] in *. destruct (decide (length π < 2)%nat) as [Hlen|Hlen].
    { by apply (rep_entry Hrep). }
    pose proof (path_short N (@rep_prefix _ _ _ _ Hrep) _ _ Hp) as Hlen'.
    destruct π as [|i2 [|i1 [|]]]; cbn in Hlen, Hlen'; try lia.
    destruct (N !! ([i2; i1] ++ [i])) as [q|] eqn:Hq.
    { apply (rep_prefix Hrep) in Hq as (_ & Hq & _). cbn in Hq. lia. }
    pose proof (rep_low Hrep Hp) as H2. pose proof (rep_prefix Hrep (π := [i2]) Hp) as (_ & _ & H1).
    assert (0 ≤ i2) as H2'.
    { destruct (rep_prefix Hrep (π := [i2]) Hp) as ([q2 Hq2] & _).
      pose proof (rep_prefix Hrep (π := []) Hq2). tauto. }
    destruct (PX_compose i2 i1 i) as (E2 & E1 & E0); [lia|done|done|].
    specialize (Hleaf (i2 * 1073741824 + i1 * 2097152 + i * 4096)).
    unfold leaf, leaf_page in Hleaf. rw E2 E1 E0 Hp in Hleaf. apply Hleaf.
    change MAXVA with 274877906944. lia.
  - intros a [π Ha]. by apply (Hdis π).
  - exists s', l'. split_and!; try done. intros b Hb Hn. apply Hag; [done|]. intros [π Hπ]. by apply (Hn π).
Qed.
End freewalk.

Section proc_table.
Context `{ImageOk}.

(** ** Mappings that the table does not own

    The trampoline and the trapframe are mapped for the kernel's own use, and
    [uvmunmap] without [do_free] takes them out again. *)

Lemma leaf_walk s root l N va :
  own s root l N → 0 ≤ va < MAXVA → leaf (k_mem s) N va ≠ 0 →
  ∃ q, leaf_page N va = Some q ∧ page_ok q ∧
    walk root va 0 s = Ret (pte_at q (PX 0 va)) s ∧ pte_at q (PX 0 va) ≠ 0 ∧
    ld64 (k_mem s) (pte_at q (PX 0 va)) = leaf (k_mem s) N va.
Proof.
  intros Ho Hva Hne. unfold leaf in *. destruct (leaf_page N va) as [q|] eqn:Hq; [|done].
  pose proof (rep_page (own_rep Ho) Hq) as Hpq. exists q. split_and!; [done|done| | |done].
  - rewrite -> (walk_read s root l N); [by rw Hq|done|done].
  - unfold pte_at. pose proof (PX_range 0 va). destruct Hpq as (_ & _ & ?). lia.
Qed.

Lemma uvmunmap_keep s root l N k pa perm :
  own s root l N → 0 ≤ k → 4096 * k + 4096 ≤ MAXVA → leaf (k_mem s) N (4096 * k) = pte_of pa perm →
  0 ≤ pa < 2 ^ 56 → pa mod 4096 = 0 → 0 ≤ perm < 1024 → Z.lor perm PTE_V ≠ PTE_V →
  ∃ s', uvmunmap root (4096 * k) 1 0 s = Ret tt s' ∧ own s' root l N ∧ evolves s l N s' l N ∧
    (∀ x, 0 ≤ x < MAXVA → leaf (k_mem s') N x =
       if decide (x / 4096 = k) then 0 else leaf (k_mem s) N x).
Proof.
  intros Ho Hk Hm Hl Hpa Hpal Hp HpV.
  destruct (leaf_walk s root l N (4096 * k) Ho ltac:(lia)) as (q & Hq & Hpq & Hw & Hq0 & Hld).
  { rw Hl. intros E. by destruct (pte_of_valid pa perm); rw E. }
  destruct (st_leaf s root l N (4096 * k) q 0 Ho ltac:(lia) Hq ltac:(done)) as (Ho' & Hev & Hl').
  set (s' := set_k_mem _ _) in *.
  assert (uvmunmap_body root (4096 * (k + 1)) 0 (4096 * k) s = Ret (inl (4096 * (k + 1))) s') as E1.
  { unfold uvmunmap_body. destruct (Z.ltb_spec (4096 * k) (4096 * (k + 1))); [|lia]. cbn [negb].
    rewrite -> (bind_Ret _ _ _ _ _ Hw). destruct (Z.eqb_spec (pte_at q (PX 0 (4096 * k))) 0); [done|].
    unfold ld. msimp. rw Hld Hl.
    destruct (Z.eqb_spec (Z.land (pte_of pa perm) PTE_V) 0) as [E|_]; [by apply pte_of_valid in E|].
    rw pte_of_perm //. destruct (Z.eqb_spec (Z.lor perm PTE_V) PTE_V); [done|].
    cbn [Z.eqb negb whenM]. unfold st. msimp. rw u64_small; [|vlia]. unfold mret, M_ret. do 2 f_equal. vlia. }
  assert (uvmunmap_body root (4096 * (k + 1)) 0 (4096 * (k + 1)) s' = Ret (inr tt) s') as E2
    by (unfold uvmunmap_body; by destruct (Z.ltb_spec (4096 * (k + 1)) (4096 * (k + 1))); [lia|]).
  exists s'. split_and!; [|done|done|].
  - unfold uvmunmap. destruct (Z.eqb_spec (4096 * k mod PGSIZE) 0); [|vlia]. cbn [negb].
    change (Z.to_nat 1 + 1)%nat with 2%nat. rw u64_small; [|vlia].
    replace (4096 * k + 1 * PGSIZE) with (4096 * (k + 1)) by vlia. cbn [loopM].
    rewrite -> (bind_Ret _ _ _ _ _ E1). by rewrite -> (bind_Ret _ _ _ _ _ E2).
  - intros x Hx. rw Hl' //. by rewrite -> (Z.mul_comm 4096 k), Z.div_mul by lia.
Qed.

(** ** Building the table *)

(** The page numbers of the trampoline and the trapframe. *)
Definition tramp_page : Z := 67108863.
Definition frame_page : Z := 67108862.
Definition perm_rx : Z := Z.lor PTE_R PTE_X.
Definition perm_rw : Z := Z.lor PTE_R PTE_W.

(** The page table of a process: the user pages [u], the trampoline, the
    trapframe [tf], and nothing else. *)
Record proc_table (s : kstate) (root : Z) (l : list Z) (N : ptree) (u : umap) (tf : Z) : Prop := {
  pt_space : uspace s root l N u;
  pt_user j e : u !! j = Some e → j < frame_page;
  pt_tramp : leaf (k_mem s) N TRAMPOLINE = pte_of trampoline perm_rx;
  pt_frame : leaf (k_mem s) N TRAPFRAME = pte_of tf perm_rw;
  pt_none x : 0 ≤ x < MAXVA → x / 4096 < frame_page → u !! (x / 4096) = None →
    Z.land (leaf (k_mem s) N x) PTE_V = 0
}.

Lemma uvmcreate_spec s a l :
  can_lock LKmem s → kmem_inv s (a :: l) →
  ∃ s', uvmcreate s = Ret a s' ∧ page_ok a ∧ own s' a l {[ [] := a ]} ∧
    (∃ m f, s' = set_k_mem m (set_k_freelist f s)) ∧
    (∀ x, leaf (k_mem s') {[ [] := a ]} x = 0) ∧
    (∀ b, b mod 4096 = 0 → b ≠ a → agree (k_mem s) (k_mem s') b).
Proof.
  intros Hlk Hf. unfold uvmcreate. rewrite -> (bind_Ret _ _ _ _ _ (kalloc_cons s a l Hlk Hf)).
  destruct (Hf) as [(_ & Ha & Hfl) [Hnin Hnd]%NoDup_cons].
  destruct (Z.eqb_spec a 0); [destruct Ha as (_ & _ & ?); lia|]. unfold kmemset. rewrite -> bind_modify.
  kcbn. set (m1 := memset _ a 0 PGSIZE). eexists. split; [done|]. split; [done|].
  assert (∀ x, a ≤ x < a + 4096 → ldb m1 x = 0) as Hz.
  { intros x Hx. unfold m1. rw ldb_memset // decide_True //. }
  assert (∀ b, b mod 4096 = 0 → b ≠ a → agree (k_mem s) m1 b) as Hag.
  { intros b Hb Hne. destruct Ha. eapply agree_trans; by apply agree_memset. }
  split_and!; [split| | |].
  - done.
  - split; [|done]. kcbn. unfold m1. rw !memset_stn. by repeat (apply flist_st; [done|done|done|]).
  - split.
    + by rw lookup_singleton_eq.
    + by intros π p [_ <-]%lookup_singleton_Some.
    + by intros π π' p [<- _]%lookup_singleton_Some [<- _]%lookup_singleton_Some.
    + intros π i p [E _]%lookup_singleton_Some. by destruct π.
    + by intros i π p [? _]%lookup_singleton_Some.
    + intros π p i [<- <-]%lookup_singleton_Some _ Hi. rw lookup_singleton_ne //. kcbn.
      rw ld64_zero //. intros x Hx. apply Hz. unfold pte_at in Hx. lia.
  - by intros π p [_ <-]%lookup_singleton_Some.
  - by do 2 eexists.
  - intros x. unfold leaf, leaf_page. by rw lookup_singleton_ne.
  - done.
Qed.

(** A page that the table does not own, mapped at page [k]. *)
Lemma map_kernel_page s root l N k pa perm :
  own s root l N → 0 ≤ k → 4096 * k + 4096 ≤ MAXVA →
  0 ≤ pa < 2 ^ 55 → pa mod 4096 = 0 → 0 ≤ perm < 1024 →
  Z.land (leaf (k_mem s) N (4096 * k)) PTE_V = 0 →
  ∃ r s' l' N', mappages root (4096 * k) PGSIZE pa perm s = Ret r s' ∧
    own s' root l' N' ∧ evolves s l N s' l' N' ∧
    (r = -1 ∧ l' = [] ∧ (∀ x, 0 ≤ x < MAXVA → leaf (k_mem s') N' x = leaf (k_mem s) N x) ∨
     r = 0 ∧ (∀ x, 0 ≤ x < MAXVA → leaf (k_mem s') N' x =
       if decide (x / 4096 = k) then pte_of pa perm else leaf (k_mem s) N x)).
Proof.
  intros Ho Hk Hm Hpa Hpal Hp Hfree.
  destruct (mappages_spec s root l N (4096 * k) PGSIZE pa perm Ho)
    as (r & s' & l' & N' & c & E & Ho' & Hev & Hl & Hr); [lia|done|vlia|lia|done|vlia|done| |].
  { intros x Hx Hx'. rw (leaf_same_page _ _ x (4096 * k)) //. vlia. }
  exists r, s', l', N'. split_and!; [done|done|done|].
  destruct Hr as [[-> Hc]|(-> & -> & Hc)]; [right|left]; split_and!; try done; intros x Hx; rw Hl //;
    unfold map_range; repeat case_decide; try vlia; try done. f_equal. vlia.
Qed.

(** From [s] to [s'] only memory and the head of the free list changed, and
    memory only in the pages [P]. *)
Record mem_step (P : Z → Prop) (s s' : kstate) : Prop := {
  ms_state : ∃ m f, s' = set_k_mem m (set_k_freelist f s);
  ms_agree b : b mod 4096 = 0 → ¬ P b → agree (k_mem s) (k_mem s') b
}.

Lemma mem_step_refl P s : mem_step P s s.
Proof. split; [exists (k_mem s), (k_freelist s); by destruct s|done]. Qed.
Lemma mem_step_trans (P P' Q : Z → Prop) s s1 s2 :
  mem_step P s s1 → mem_step P' s1 s2 → (∀ b, P b → Q b) → (∀ b, P' b → Q b) → mem_step Q s s2.
Proof.
  intros [(m1 & f1 & E1) H1] [(m2 & f2 & E2) H2] HP HP'. split.
  - exists m2, f2. rw E2 E1. by destruct s.
  - intros b Hb Hn. eapply agree_trans; [apply H1|apply H2]; auto.
Qed.
Lemma mem_step_mono (P Q : Z → Prop) s s' : mem_step P s s' → (∀ b, P b → Q b) → mem_step Q s s'.
Proof. intros [Hst Hag] HPQ. split; [done|]. intros b Hb Hn. apply Hag; auto. Qed.

Lemma evolves_step s l N u s' l' N' : evolves s l N s' l' N' → mem_step (footprint l N u) s s'.
Proof.
  intros [Hst _ _ _ Hag]. split; [done|]. intros b Hb Hn. apply Hag; [done| |].
  - intros ?. apply Hn. by left.
  - intros π ?. apply Hn. right; left. by exists π.
Qed.
Lemma evolves_footprint s l N u s' l' N' b :
  evolves s l N s' l' N' → footprint l N u b ↔ footprint l' N' u b.
Proof.
  intros [_ (used & Hused & HN) Ht Hsub _]. unfold footprint. split.
  - intros [Hb|[[π Hπ]|Hb]]; [destruct (Ht b Hb); auto|right; left; exists π; by eapply lookup_weaken|auto].
  - intros [Hb|[[π Hπ]|Hb]]; [left; rw Hused elem_of_app; by right| |auto].
    destruct (HN _ _ Hπ); [right; left; by exists π|]. left. rw Hused elem_of_app. by left.
Qed.
Lemma ustep_step s l N u s' l' N' u' : ustep s l N u s' l' N' u' → mem_step (footprint l N u) s s'.
Proof. intros [Hst Hf _ _ _]. by split. Qed.
Lemma ustep_footprint s l N u s' l' N' u' b :
  ustep s l N u s' l' N' u' → footprint l N u b ↔ footprint l' N' u' b.
Proof. intros [_ _ Hs Hw _]. split; [apply Hw|apply Hs]. Qed.

(** Freeing a table that maps nothing: the pages of table and free list are all
    free. *)
Lemma uvmfree_empty s root l N :
  own s root l N → (∀ x, 0 ≤ x < MAXVA → Z.land (leaf (k_mem s) N x) PTE_V = 0) →
  ∃ s' l', uvmfree root 0 s = Ret tt s' ∧ can_lock LKmem s' ∧ kmem_inv s' l' ∧
    (∀ a, a ∈ l' ↔ footprint l N ∅ a) ∧ mem_step (footprint l N ∅) s s'.
Proof.
  intros Ho Hl. destruct (freewalk_spec s root l N Ho Hl) as (s' & l' & E & Hlk & Hf & Hl' & Hst & Hag).
  exists s', (l' ++ l). split_and!; [done|done|done| |split; [done|]].
  - intros a. rw elem_of_app Hl'. unfold footprint. split; [naive_solver|].
    intros [?|[?|(k & fl & Hk)]]; [by right|by left|by rw lookup_empty in Hk].
  - intros b Hb Hn. apply Hag; [done|]. intros π Hπ. apply Hn. right; left. by exists π.
Qed.

Lemma uspace_empty s root l N : own s root l N → uspace s root l N ∅.
Proof. intros Ho. by split; [done|intros ?..]. Qed.

(** A table is under construction, of the pages [l0]. *)
Lemma building_start root l a : a ∈ root :: l ↔ footprint l {[ [] := root ]} ∅ a.
Proof.
  rw elem_of_cons. unfold footprint. split.
  - intros [->|?]; [right; left; exists []; by rw lookup_singleton_eq|by left].
  - intros [?|[[π [_ ->]%lookup_singleton_Some]|(j & fl & Hj)]]; [by right|by left|by rw lookup_empty in Hj].
Qed.
Lemma building_step (l0 : list Z) s s1 l N s2 l2 N2 :
  mem_step (λ b, b ∈ l0) s s1 → (∀ a, a ∈ l0 ↔ footprint l N ∅ a) → evolves s1 l N s2 l2 N2 →
  mem_step (λ b, b ∈ l0) s s2 ∧ (∀ a, a ∈ l0 ↔ footprint l2 N2 ∅ a).
Proof.
  intros Hms Hfp Hev. split; [|intros a; by rw Hfp (evolves_footprint _ _ _ _ _ _ _ _ Hev)].
  eapply mem_step_trans; [done|by eapply (evolves_step _ _ _ ∅)|done|]. intros b. by rw Hfp.
Qed.

Lemma abandon (l0 : list Z) s s1 root l N :
  mem_step (λ b, b ∈ l0) s s1 → (∀ a, a ∈ l0 ↔ footprint l N ∅ a) → own s1 root l N →
  (∀ x, 0 ≤ x < MAXVA → Z.land (leaf (k_mem s1) N x) PTE_V = 0) →
  ∃ s2 l2, uvmfree root 0 s1 = Ret tt s2 ∧ can_lock LKmem s2 ∧ kmem_inv s2 l2 ∧
    mem_step (λ b, b ∈ l0) s s2 ∧ (∀ a, a ∈ l2 ↔ a ∈ l0).
Proof.
  intros Hms Hfp Ho Hl. destruct (uvmfree_empty s1 root l N Ho Hl) as (s2 & l2 & E & Hlk & Hf & Hl2 & Hms2).
  exists s2, l2. split_and!; [done|done|done| |].
  - eapply mem_step_trans; [done|done|done|]. intros b. by rw Hfp.
  - intros a. by rw Hl2 -Hfp.
Qed.

Lemma trampoline_ok : 0 ≤ trampoline < 2 ^ 55 ∧ trampoline mod 4096 = 0.
Proof.
  pose proof image_layout as Hi. pose proof trampoline_aligned as Ha. split; [|done].
  change PHYSTOP with 2281701376 in Hi. change KERNBASE with 2147483648 in Hi. lia.
Qed.

(** [proc_pagetable] gives a table without user pages, or 0 for lack of memory
    and then every page it took is free again. *)
Lemma proc_pagetable_spec s l p k :
  can_lock LKmem s → kmem_inv s l → k_procs s !! p = Some k → page_ok (p_trapframe k) →
  ∃ r s' l', proc_pagetable p s = Ret r s' ∧ can_lock LKmem s' ∧ kmem_inv s' l' ∧
    mem_step (λ b, b ∈ l) s s' ∧
    (r = 0 ∧ (∀ a, a ∈ l' ↔ a ∈ l) ∨
     0 < r ∧ ∃ N, proc_table s' r l' N ∅ (p_trapframe k) ∧ (∀ a, a ∈ l ↔ footprint l' N ∅ a)).
Proof.
  intros Hlk Hf Hp Htf. unfold proc_pagetable. destruct l as [|root l].
  { unfold uvmcreate. rewrite -> (bind_assoc _ _ _ _ _ _ (kalloc_nil s Hlk Hf)). cbn [Z.eqb].
    rewrite -> bind_mret. cbn [Z.eqb]. exists 0, s, []. split_and!; try done; [apply mem_step_refl|by left]. }
  destruct (uvmcreate_spec s root l Hlk Hf) as (s1 & E1 & Hr & Ho1 & Hst1 & Hl1 & Hag1).
  rewrite -> (bind_Ret _ _ _ _ _ E1). pose proof Hr as (_ & _ & Hr0). destruct (Z.eqb_spec root 0); [lia|].
  assert (mem_step (λ b, b ∈ root :: l) s s1) as Hms1.
  { split; [done|]. intros b Hb [Hn _]%not_elem_of_cons. by apply Hag1. }
  destruct trampoline_ok as [Ht1 Ht2]. change TRAMPOLINE with (4096 * tramp_page).
  change TRAPFRAME with (4096 * frame_page).
  destruct (map_kernel_page s1 root l _ tramp_page trampoline perm_rx Ho1)
    as (r & s2 & l2 & N2 & E2 & Ho2 & Hev2 & R); [done|done|done|done|done|by rw Hl1|].
  rewrite -> (bind_Ret _ _ _ _ _ E2).
  destruct (building_step _ _ _ _ _ _ _ _ Hms1 (building_start root l) Hev2) as [Hms2 Hfp2].
  destruct R as [(-> & -> & Hl2)|(-> & Hl2)]; cbn [Z.ltb Z.compare].
  { destruct (abandon (root :: l) s s2 root [] N2 Hms2 Hfp2 Ho2) as (s3 & l3 & E3 & Hlk3 & Hf3 & Hms3 & Hl3).
    - intros x Hx. rw Hl2 // Hl1 //.
    - rewrite -> (bind_Ret _ _ _ _ _ E3). exists 0, s3, l3. split_and!; try done. by left. }
  assert (k_procs s2 !! p = Some k) as Hp2 by (destruct (ms_state _ _ _ Hms2) as (? & ? & ->); done).
  rewrite -> (bind_Ret _ _ _ _ _ (get_proc_spec s2 p k Hp2)).
  destruct (map_kernel_page s2 root l2 N2 frame_page (p_trapframe k) perm_rw Ho2)
    as (r & s3 & l3 & N3 & E3 & Ho3 & Hev3 & R); [done|done| |by destruct Htf|done| |].
  { destruct Htf as (_ & Htf & ?). change PHYSTOP with 2281701376 in Htf. lia. }
  { by rw Hl2. }
  rewrite -> (bind_Ret _ _ _ _ _ E3).
  destruct (building_step _ _ _ _ _ _ _ _ Hms2 Hfp2 Hev3) as [Hms3 Hfp3].
  destruct R as [(-> & -> & Hl3)|(-> & Hl3)]; cbn [Z.ltb Z.compare].
  - destruct (uvmunmap_keep s3 root [] N3 tramp_page trampoline perm_rx Ho3) as (s4 & E4 & Ho4 & Hev4 & Hl4);
      [done|done|by rw Hl3 // Hl2|lia|done|done|done|].
    rewrite -> (bind_Ret _ _ _ _ _ E4).
    destruct (abandon (root :: l) s s4 root [] N3) as (s5 & l5 & E5 & Hlk5 & Hf5 & Hms5 & Hl5);
      [by eapply (building_step _ _ s3)|done|done| |].
    + intros x Hx. rw Hl4 //. case_decide; [done|]. rw Hl3 // Hl2 // decide_False // Hl1 //.
    + rewrite -> (bind_Ret _ _ _ _ _ E5). exists 0, s5, l5. split_and!; try done. by left.
  - exists root, s3, l3. split_and!; [done|apply Ho3|apply Ho3|done|]. right. split; [done|].
    exists N3. split; [|done]. split.
    + by apply uspace_empty.
    + intros j e He. by rw lookup_empty in He.
    + change TRAMPOLINE with (4096 * tramp_page). by rw Hl3 // Hl2.
    + change TRAPFRAME with (4096 * frame_page). by rw Hl3.
    + intros x Hx Hlt _. rw Hl3 // decide_False; [|lia]. rw Hl2 // decide_False; [|unfold frame_page, tramp_page in *; lia].
      by rw Hl1.
Qed.

(** ** Tearing it down *)

(** [sz] bytes of user memory: the user pages are those below [sz]. *)
Definition user_pages (u : umap) (sz : Z) : Prop :=
  0 ≤ sz ≤ TRAPFRAME ∧ ∀ j, is_Some (u !! j) ↔ 0 ≤ j < (sz + 4095) / 4096.

Lemma uvmfree_spec s root l N u sz :
  uspace s root l N u → user_pages u sz →
  (∀ x, 0 ≤ x < MAXVA → u !! (x / 4096) = None → Z.land (leaf (k_mem s) N x) PTE_V = 0) →
  ∃ s' l', uvmfree root sz s = Ret tt s' ∧ can_lock LKmem s' ∧ kmem_inv s' l' ∧
    (∀ a, a ∈ l' ↔ footprint l N u a) ∧ mem_step (footprint l N u) s s'.
Proof.
  intros Hu [Hsz Hd] Hl. change TRAPFRAME with 274877898752 in Hsz.
  set (n := (sz + 4095) / 4096) in *. assert (0 ≤ n) by (unfold n; zlia).
  destruct (uvmunmap_spec s root l N u 0 n Hu) as (s1 & l1 & u1 & E1 & Hu1 & Hst1 & Hd1 & Hl1);
    [done|done|unfold n; vlia|by intros j Hj; apply Hd|].
  assert (u1 = ∅) as ->.
  { apply map_eq. intros j. rw Hd1 lookup_empty. case_decide as Hj; [done|].
    destruct (u !! j) eqn:E; [|done]. destruct Hj. apply Hd. by eexists. }
  destruct (uvmfree_empty s1 root l1 N (us_own Hu1)) as (s2 & l2 & E2 & Hlk2 & Hf2 & Hl2 & Hms2).
  { intros x Hx. rw Hl1 //. case_decide as Hj; [done|]. apply Hl; [done|].
    destruct (u !! _) eqn:E; [|done]. destruct Hj. apply Hd. by eexists. }
  exists s2, l2. split_and!; [|done|done| |].
  - unfold uvmfree in *. destruct (Z.ltb_spec 0 sz).
    + cbn [whenM]. rw PGROUNDUP_spec; [|vlia]. rw Z.div_mul //. rewrite -> (bind_Ret _ _ _ _ _ E1).
      exact E2.
    + assert (sz = 0) as -> by lia. unfold uvmunmap in E1. cbn in E1. injection E1 as <-. done.
  - intros a. by rw Hl2 (ustep_footprint _ _ _ _ _ _ _ _ _ Hst1).
  - eapply mem_step_trans; [by eapply ustep_step|done|done|].
    intros b. by rw (ustep_footprint _ _ _ _ _ _ _ _ _ Hst1).
Qed.

(** A mapping above the user pages is taken out. *)
Lemma unmap_kernel_page s root l N u k pa perm :
  uspace s root l N u → (∀ j e, u !! j = Some e → j < frame_page) →
  frame_page ≤ k ≤ tramp_page → leaf (k_mem s) N (4096 * k) = pte_of pa perm →
  0 ≤ pa < 2 ^ 55 → pa mod 4096 = 0 → 0 ≤ perm < 1024 → Z.lor perm PTE_V ≠ PTE_V →
  ∃ s', uvmunmap root (4096 * k) 1 0 s = Ret tt s' ∧ uspace s' root l N u ∧
    mem_step (footprint l N u) s s' ∧
    (∀ x, 0 ≤ x < MAXVA → leaf (k_mem s') N x =
       if decide (x / 4096 = k) then 0 else leaf (k_mem s) N x).
Proof.
  intros Hu Hlt Hk Hl Hpa Hpal Hp HpV. unfold tramp_page, frame_page in *.
  destruct (uvmunmap_keep s root l N k pa perm (us_own Hu)) as (s' & E & Ho' & Hev & Hl');
    [lia|vlia|done|lia|done|done|done|].
  destruct (evolves_ustep s root l N u s' l N Hu Ho' Hev) as [Hu' Hst'].
  { intros j e He. pose proof (us_range Hu He). pose proof (Hlt j e He).
    rw Hl'; [|lia]. rw decide_False //. zlia. }
  exists s'. split_and!; [done|done|by eapply ustep_step|done].
Qed.

Lemma proc_freepagetable_spec s root l N u tf sz :
  proc_table s root l N u tf → user_pages u sz → page_ok tf →
  ∃ s' l', proc_freepagetable root sz s = Ret tt s' ∧ can_lock LKmem s' ∧ kmem_inv s' l' ∧
    (∀ a, a ∈ l' ↔ footprint l N u a) ∧ mem_step (footprint l N u) s s'.
Proof.
  intros [Hu Hlt Ht Hf Hn] Hsz Htf. destruct trampoline_ok as [Ht1 Ht2].
  assert (0 ≤ tf < 2 ^ 55) as Htf'
    by (destruct Htf as (_ & Htf & ?); change PHYSTOP with 2281701376 in Htf; lia).
  destruct Htf as (Htfa & _). unfold proc_freepagetable.
  change TRAMPOLINE with (4096 * tramp_page) in *. change TRAPFRAME with (4096 * frame_page) in *.
  destruct (unmap_kernel_page s root l N u tramp_page trampoline perm_rx Hu Hlt)
    as (s1 & E1 & Hu1 & Hms1 & Hl1); try done.
  rewrite -> (bind_Ret _ _ _ _ _ E1).
  destruct (unmap_kernel_page s1 root l N u frame_page tf perm_rw Hu1 Hlt)
    as (s2 & E2 & Hu2 & Hms2 & Hl2); try done; [by rw Hl1|].
  rewrite -> (bind_Ret _ _ _ _ _ E2).
  destruct (uvmfree_spec s2 root l N u sz Hu2 Hsz) as (s3 & l3 & E3 & Hlk3 & Hf3 & Hl3 & Hms3).
  { intros x Hx Hnx. rw Hl2 //. case_decide; [done|]. rw Hl1 //. case_decide; [done|].
    apply Hn; [done| |done]. unfold frame_page, tramp_page in *. vlia. }
  exists s3, l3. split_and!; try done.
  eapply mem_step_trans; [|done|done|done]. by eapply mem_step_trans.
Qed.
End proc_table.
