(* ===== verification/ProcAlloc.v ===== *)
(** * Allocating and freeing processes (kernel/proc.c: allocproc, freeproc)

    [allocproc] takes an unused entry of the process table, a trapframe and a
    page table; [freeproc] gives the memory back and clears the entry. Both
    are stated on the pages involved: no page is lost on any path. *)

From S2P Require Import Prelude Riscv KState Spinlock KString Kalloc Vm PageTable Uspace Sched ProcMem.
Open Scope Z_scope.

(** The state with entry [p] of the process table replaced. *)
Definition with_proc (p : nat) (k : proc) (s : kstate) : kstate :=
  set_k_procs (<[p := k]> (k_procs s)) s.

Lemma upd_proc_spec s p k f :
  k_procs s !! p = Some k → upd_proc p f s = Ret tt (with_proc p (f k) s).
Proof. intros Hk. unfold upd_proc, modify, with_proc. by rw (list_alter_insert _ _ _ _ Hk). Qed.
Lemma with_proc_lookup p k s :
  (p < length (k_procs s))%nat → k_procs (with_proc p k s) !! p = Some k.
Proof. intros Hp. unfold with_proc. kcbn. by apply list_lookup_insert_eq. Qed.
Lemma with_proc_with p k k' s : with_proc p k' (with_proc p k s) = with_proc p k' s.
Proof. unfold with_proc. kcbn. rw list_insert_insert_eq. by destruct s. Qed.
Lemma with_proc_same p k s : k_procs s !! p = Some k → with_proc p k s = s.
Proof. intros Hk. unfold with_proc. rw list_insert_id //. by destruct s. Qed.
Lemma upd_with p k f s :
  (p < length (k_procs s))%nat → upd_proc p f (with_proc p k s) = Ret tt (with_proc p (f k) s).
Proof. intros Hp. rewrite -> (upd_proc_spec _ _ k) by by apply with_proc_lookup. by rw with_proc_with. Qed.

(** [upds] runs a sequence of updates of one entry. *)
Ltac upds := repeat (erewrite bind_Ret; [|by apply upd_with]).

Section proc_alloc.
Context `{ImageOk}.

Lemma leaf_agree m m' N x :
  (∀ π p, N !! π = Some p → agree m m' p) → leaf m' N x = leaf m N x.
Proof.
  intros Hag. unfold leaf, leaf_page. destruct (N !! _) as [p|] eqn:Hp; [|done].
  apply agree_ld64; [by eapply Hag|apply PX_range].
Qed.

Lemma footprint_apart s root l N u b :
  uspace s root l N u → footprint [] N u b → page_ok b ∧ (b ∉ l) ∧ footprint l N u b.
Proof.
  intros Hu [?%elem_of_nil|[[π Hb]|(j & fl & Hb)]]; [done| |].
  - split_and!; [apply (rep_page (own_rep (us_own Hu)) Hb)|apply (own_disj (us_own Hu) Hb)|].
    right; left. by exists π.
  - destruct (us_page Hu Hb) as (? & ? & _). split_and!; [done|done|]. right; right. by exists j, fl.
Qed.
Lemma footprint_split l N u b : footprint l N u b ↔ b ∈ l ∨ footprint [] N u b.
Proof.
  unfold footprint. split; [naive_solver|]. intros [?|[?%elem_of_nil|?]]; [by left|done|by right].
Qed.

(** An address space stays what it is as long as its own pages do, and is
    kept apart from the free list. *)
Lemma uspace_moved s root l N u s' l' :
  uspace s root l N u → can_lock LKmem s' → kmem_inv s' l' →
  (∀ b, footprint [] N u b → (b ∉ l') ∧ agree (k_mem s) (k_mem s') b) → uspace s' root l' N u.
Proof.
  intros Hu Hlk Hf Hb.
  assert (∀ π p, N !! π = Some p → (p ∉ l') ∧ agree (k_mem s) (k_mem s') p) as HN
    by (intros π p Hp; apply Hb; right; left; by exists π).
  split.
  - split; [done|done| |by intros π p Hp; apply (HN π)].
    eapply pt_rep_frame; [|apply (own_rep (us_own Hu))]. intros π p Hp _. by apply (HN π).
  - intros j e. apply (us_range Hu).
  - intros j e He. rewrite -> (leaf_agree (k_mem s)); [by apply (us_leaf Hu)|].
    intros π p Hp. by apply (HN π).
  - intros j e. apply (us_perm Hu).
  - intros j e He. destruct (us_page Hu He) as (? & _ & ?). split_and!; [done| |done].
    apply Hb. right; right. exists j, e.2. by destruct e.
  - intros j j' e e'. apply (us_inj Hu).
Qed.

Lemma proc_table_moved s root l N u tf s' l' :
  proc_table s root l N u tf → can_lock LKmem s' → kmem_inv s' l' →
  (∀ b, footprint [] N u b → (b ∉ l') ∧ agree (k_mem s) (k_mem s') b) → proc_table s' root l' N u tf.
Proof.
  intros [Hu Hlt Ht Hfr Hn] Hlk Hf Hb.
  assert (∀ x, leaf (k_mem s') N x = leaf (k_mem s) N x) as Hl.
  { intros x. apply leaf_agree. intros π p Hp. apply Hb. right; left. by exists π. }
  split; [by eapply uspace_moved|done|by rw Hl|by rw Hl|]. intros x. rw Hl. apply Hn.
Qed.

(** ** [freeproc] *)

Definition reaped (k : proc) : proc :=
  Proc UNUSED None 0 0 0 None (p_kstack k) 0 0 0 (p_context k) (p_ofile k) (p_cwd k)
    (<[0%nat := 0]> (p_name k)).

(** The updates of [freeproc] after the memory has been freed. *)
Lemma clear_proc s p k :
  (p < length (k_procs s))%nat →
  (upd_proc p (set_p_pagetable 0) ;;
   upd_proc p (set_p_sz 0) ;;
   upd_proc p (set_p_pid 0) ;;
   upd_proc p (set_p_parent None) ;;
   upd_proc p (λ k, set_p_name (<[0%nat := 0]> (p_name k)) k) ;;
   upd_proc p (set_p_chan None) ;;
   upd_proc p (set_p_killed 0) ;;
   upd_proc p (set_p_xstate 0) ;;
   upd_proc p (set_p_state UNUSED)) (with_proc p (set_p_trapframe 0 k) s) =
  Ret tt (with_proc p (reaped k) s).
Proof. intros Hp. upds. by rw upd_with. Qed.

Lemma mem_step_with P p k s s' : mem_step P s s' → mem_step P (with_proc p k s) (with_proc p k s').
Proof. intros [(m & f & ->) Hag]. split; [exists m, f; by destruct s|done]. Qed.
Lemma mem_step_procs P s s' : mem_step P s s' → k_procs s' = k_procs s.
Proof. by intros [(m & f & ->) _]. Qed.

Lemma kfree_step s l a :
  can_lock LKmem s → kmem_inv s l → page_ok a → a ∉ l →
  ∃ s', kfree a s = Ret tt s' ∧ can_lock LKmem s' ∧ kmem_inv s' (a :: l) ∧ mem_step (λ b, b = a) s s'.
Proof.
  intros Hlk Hf Ha Hl. eexists. split_and!; [by apply kfree_page|done|by apply kmem_inv_free|].
  destruct Ha as [Hal _]. split; [by do 2 eexists|]. intros b Hb Hne. kcbn.
  eapply agree_trans; [by apply (agree_memset _ _ a)|].
  apply (agree_stn _ _ a); rw ?length_le_enc; try done; lia.
Qed.

Lemma kalloc_step s a l :
  can_lock LKmem s → kmem_inv s (a :: l) →
  ∃ s', kalloc s = Ret a s' ∧ can_lock LKmem s' ∧ kmem_inv s' l ∧ page_ok a ∧ (a ∉ l) ∧
    mem_step (λ b, b = a) s s'.
Proof.
  intros Hlk Hf. eexists. split_and!; [by eapply kalloc_cons|done|by apply kmem_inv_alloc|..].
  - by destruct Hf as [(_ & ? & _) _].
  - by destruct Hf as [_ [? _]%NoDup_cons].
  - destruct Hf as [(_ & [Ha _] & _) _]. split; [by do 2 eexists|]. intros b Hb Hne. by apply agree_memset.
Qed.

(** A process with its memory. *)
Lemma freeproc_spec s p k l N u :
  k_procs s !! p = Some k → proc_table s (p_pagetable k) l N u (p_trapframe k) →
  0 < p_pagetable k → user_pages u (p_sz k) →
  page_ok (p_trapframe k) → ¬ footprint l N u (p_trapframe k) →
  ∃ s' l', freeproc p s = Ret tt s' ∧ can_lock LKmem s' ∧ kmem_inv s' l' ∧
    (∀ a, a ∈ l' ↔ a = p_trapframe k ∨ footprint l N u a) ∧
    mem_step (λ b, b = p_trapframe k ∨ footprint l N u b) (with_proc p (reaped k) s) s'.
Proof.
  intros Hk Hpt Hpos Hsz Htf Hnfp. unfold freeproc.
  pose proof (us_own (pt_space _ _ _ _ _ _ Hpt)) as Ho.
  rewrite -> (bind_Ret _ _ _ _ _ (get_proc_spec s p k Hk)).
  destruct (kfree_step s l (p_trapframe k) (own_lock Ho) (own_free Ho) Htf) as (s1 & E1 & Hlk1 & Hf1 & Hms1).
  { intros ?. apply Hnfp. by left. }
  destruct (Z.eqb_spec (p_trapframe k) 0); [destruct Htf as (_ & _ & ?); lia|]. cbn [negb whenM].
  rewrite -> (bind_Ret _ _ _ _ _ E1).
  assert (k_procs s1 !! p = Some k) as Hk1 by by rw (mem_step_procs _ _ _ Hms1).
  assert (p < length (k_procs s1))%nat as Hp by by eapply lookup_lt_Some.
  rewrite -> (bind_Ret _ _ _ _ _ (upd_proc_spec s1 p k _ Hk1)). set (s2 := with_proc p _ s1).
  destruct (Z.eqb_spec (p_pagetable k) 0); [lia|]. cbn [negb whenM].
  destruct (proc_freepagetable_spec s2 (p_pagetable k) (p_trapframe k :: l) N u (p_trapframe k) (p_sz k))
    as (s3 & l3 & E3 & Hlk3 & Hf3 & Hl3 & Hms3); [|done|done|].
  { eapply proc_table_moved; [done|done|done|]. intros b Hb.
    destruct (footprint_apart _ _ _ _ _ _ (pt_space _ _ _ _ _ _ Hpt) Hb) as ([Hal _] & Hbl & Hbf).
    assert (b ≠ p_trapframe k) as Hne by (intros ->; done).
    split; [by rw not_elem_of_cons|]. by apply Hms1. }
  rewrite -> (bind_Ret _ _ _ _ _ E3).
  assert (k_procs s3 !! p = Some (set_p_trapframe 0 k)) as Hk3
    by (rw (mem_step_procs _ _ _ Hms3); by apply with_proc_lookup).
  rewrite <- (with_proc_same p _ s3 Hk3). exists (with_proc p (reaped k) s3), l3. split_and!.
  - apply clear_proc. by eapply lookup_lt_Some.
  - done.
  - done.
  - intros a. rw Hl3 (footprint_split (_ :: _)) (footprint_split l) elem_of_cons. tauto.
  - eapply mem_step_trans; [apply mem_step_with, Hms1| |by left|].
    + rewrite <- (with_proc_with p (set_p_trapframe 0 k) (reaped k) s1). apply mem_step_with, Hms3.
    + intros b. rw (footprint_split (_ :: _)) (footprint_split l) elem_of_cons. tauto.
Qed.

(** A process that has a trapframe at most. *)
Lemma freeproc_frame s p k l :
  k_procs s !! p = Some k → can_lock LKmem s → kmem_inv s l → p_pagetable k = 0 →
  p_trapframe k = 0 ∨ page_ok (p_trapframe k) ∧ (p_trapframe k ∉ l) →
  ∃ s' l', freeproc p s = Ret tt s' ∧ can_lock LKmem s' ∧ kmem_inv s' l' ∧
    (∀ a, a ∈ l' ↔ a ≠ 0 ∧ a = p_trapframe k ∨ a ∈ l) ∧
    mem_step (λ b, b ≠ 0 ∧ b = p_trapframe k) (with_proc p (reaped k) s) s'.
Proof.
  intros Hk Hlk Hf Hpt Htf. unfold freeproc.
  rewrite -> (bind_Ret _ _ _ _ _ (get_proc_spec s p k Hk)). rw Hpt. cbn [Z.eqb negb whenM].
  assert (p < length (k_procs s))%nat as Hp by by eapply lookup_lt_Some.
  destruct (Z.eqb_spec (p_trapframe k) 0) as [E|E]; cbn [negb whenM].
  - rewrite -> bind_mret, (bind_Ret _ _ _ _ _ (upd_proc_spec s p k _ Hk)), bind_mret.
    exists (with_proc p (reaped k) s), l. split_and!; [by apply clear_proc|done|done| |apply mem_step_refl].
    intros a. rw E. naive_solver.
  - destruct Htf as [?|[Htf Hnl]]; [done|].
    destruct (kfree_step s l _ Hlk Hf Htf Hnl) as (s1 & E1 & Hlk1 & Hf1 & Hms1).
    assert (k_procs s1 !! p = Some k) as Hk1 by by rw (mem_step_procs _ _ _ Hms1).
    rewrite -> (bind_Ret _ _ _ _ _ E1), (bind_Ret _ _ _ _ _ (upd_proc_spec s1 p k _ Hk1)), bind_mret.
    exists (with_proc p (reaped k) s1), (p_trapframe k :: l).
    split_and!; [apply clear_proc; by eapply lookup_lt_Some|done|done| |].
    + intros a. rw elem_of_cons. naive_solver.
    + eapply mem_step_mono; [by apply mem_step_with|]. by intros b ->.
Qed.

(** ** [allocproc] *)

Lemma find_unused_loop s (n : nat) : ∀ a,
  cpu_ok (k_sync s) → procs_free s → (a + n = NPROC)%nat →
  let find := forM (seq a n) (λ p,
    kacquire (LProc p) ;;
    k ← get_proc p;
    if decide (p_state k = UNUSED) then mret (Some p)
    else krelease (LProc p) ;; mret None) in
  (∃ p k, find s = Ret (Some p) (set_k_sync (acq (LProc p) (k_sync s)) s) ∧
     k_procs s !! p = Some k ∧ p_state k = UNUSED) ∨
  (find s = Ret None s ∧ ∀ i k, (a ≤ i)%nat → k_procs s !! i = Some k → p_state k ≠ UNUSED).
Proof.
  induction n as [|n IH]; intros a Hok [Hlen Hl] Hn; cbn [seq forM].
  { right. split; [done|]. intros i k Hi Hk%lookup_lt_Some. lia. }
  destruct (lookup_lt_is_Some_2 (k_procs s) a) as [k Hk]; [lia|].
  assert (lock_free (LProc a) (k_sync s)) as Hla by (apply Hl; lia).
  rewrite -> (bind_assoc _ _ _ _ _ _ (kacquire_free (LProc a) s Hok Hla)).
  set (s1 := set_k_sync _ s).
  rewrite -> (bind_assoc _ _ _ _ _ _ (get_proc_spec s1 a k Hk)).
  destruct (decide (p_state k = UNUSED)) as [E|E]; cbv zeta.
  { left. exists a, k. by rewrite -> bind_mret. }
  assert (krelease (LProc a) s1 = Ret tt s) as Er.
  { unfold s1. erewrite krelease_acq; [|done|done|done]. by destruct s. }
  rewrite -> (bind_assoc _ _ _ _ _ _ Er). cbv beta. rewrite -> bind_mret.
  destruct (IH (S a) Hok (conj Hlen Hl) ltac:(lia)) as [?|[E' Hno]]; [by left|right]. split; [done|].
  intros i k' Hi Hk'. destruct (decide (i = a)) as [->|]; [congruence|]. apply (Hno i); [lia|done].
Qed.

Lemma find_unused_spec s :
  cpu_ok (k_sync s) → procs_free s →
  (∃ p k, find_unused s = Ret (Some p) (set_k_sync (acq (LProc p) (k_sync s)) s) ∧
     k_procs s !! p = Some k ∧ p_state k = UNUSED) ∨
  (find_unused s = Ret None s ∧ ∀ i k, k_procs s !! i = Some k → p_state k ≠ UNUSED).
Proof.
  intros Hok Hf. destruct (find_unused_loop s NPROC 0 Hok Hf ltac:(lia)) as [?|[E Hno]]; [by left|].
  right. split; [done|]. intros i k. apply Hno. lia.
Qed.

Lemma allocpid_spec s :
  cpu_ok (k_sync s) → lock_free LPid (k_sync s) →
  allocpid s = Ret (k_nextpid s) (set_k_nextpid (i32 (k_nextpid s + 1)) s).
Proof.
  intros Hok Hl. unfold allocpid. rewrite -> (bind_Ret _ _ _ _ _ (kacquire_free LPid s Hok Hl)).
  msimp. kcbn. erewrite bind_Ret; [|by apply krelease_acq]. keq s.
Qed.

(** What [allocproc] relies on: the locks are free, and an unused entry has no
    memory. *)
Record alloc_env (s : kstate) (l : list Z) : Prop := {
  ae_cpu : cpu_ok (k_sync s);
  ae_procs : procs_free s;
  ae_pid : lock_free LPid (k_sync s);
  ae_kmem : lock_free LKmem (k_sync s);
  ae_free : kmem_inv s l;
  ae_unused i k : k_procs s !! i = Some k → p_state k = UNUSED → p_pagetable k = 0 ∧ p_sz k = 0
}.

Definition newproc (pid tf pt : Z) (k : proc) : proc :=
  Proc USED (p_chan k) (p_killed k) (p_xstate k) pid (p_parent k) (p_kstack k) (p_sz k) pt tf
    (Context forkret_pc (p_kstack k + PGSIZE) (replicate 12 0)) (p_ofile k) (p_cwd k) (p_name k).

(** The pid is used up also when memory runs out. *)
Definition next_pid (s : kstate) : kstate := set_k_nextpid (i32 (k_nextpid s + 1)) s.

Lemma mem_step_eq P s s1 s' : mem_step P s s' → s = s1 → mem_step P s1 s'.
Proof. by intros ? <-. Qed.
Lemma mem_step_sync P y s s' : mem_step P s s' → mem_step P (set_k_sync y s) (set_k_sync y s').
Proof. intros [(m & f & ->) Hag]. split; [exists m, f; by destruct s|done]. Qed.

(** The state with [p->lock] held and the pid taken. *)
Definition held (p : nat) (k : proc) (s : kstate) : kstate :=
  set_k_sync (acq (LProc p) (k_sync s)) (with_proc p k (next_pid s)).

(** No process: nothing happened, or the entry [p] was cleared again, up to its
    context. *)
Definition no_proc (s : kstate) (l : list Z) (s' : kstate) (l' : list Z) : Prop :=
  (∀ a, a ∈ l' ↔ a ∈ l) ∧ ∃ s0, mem_step (λ b, b ∈ l) s0 s' ∧
    (s0 = s ∨ ∃ p k c, k_procs s !! p = Some k ∧ p_state k = UNUSED ∧
      s0 = with_proc p (reaped (set_p_context c k)) (next_pid s)).

(** Process [p], with [p->lock] held. *)
Definition got_proc (p : nat) (s : kstate) (l : list Z) (s' : kstate) (l' : list Z) (N : ptree)
    (k : proc) (tf pt : Z) : Prop :=
  k_procs s !! p = Some k ∧ p_state k = UNUSED ∧
  mem_step (λ b, b ∈ l) (held p (newproc (k_nextpid s) tf pt k) s) s' ∧
  0 < pt ∧ page_ok tf ∧ proc_table s' pt l' N ∅ tf ∧ ¬ footprint l' N ∅ tf ∧
  (∀ a, a ∈ l ↔ a = tf ∨ footprint l' N ∅ a).

(** The entry is given up, with the lock held. *)
Lemma cleared (P : Z → Prop) s l p k c k' s1 s2 l2 :
  cpu_ok (k_sync s) → lock_free (LProc p) (k_sync s) →
  k_procs s !! p = Some k → p_state k = UNUSED → mem_step (λ b, b ∈ l) (held p k' s) s1 →
  freeproc p s1 = Ret tt s2 → mem_step P (with_proc p (reaped (set_p_context c k)) s1) s2 → (∀ b, P b → b ∈ l) →
  kmem_inv s2 l2 → (∀ a, a ∈ l2 ↔ a ∈ l) →
  ∃ s', (∀ A (r : A), (freeproc p ;; krelease (LProc p) ;; mret r) s1 = Ret r s') ∧
    kmem_inv s' l2 ∧ no_proc s l s' l2.
Proof.
  intros Hok Hlk Hk Hst Hms E2 Hms2 HP Hf2 Hl2.
  assert (k_sync s2 = acq (LProc p) (k_sync s)) as Hsy.
  { destruct (ms_state _ _ _ Hms2) as (? & ? & ->). by destruct (ms_state _ _ _ Hms) as (? & ? & ->). }
  exists (set_k_sync (k_sync s) s2). split; [|split; [done|split; [done|]]].
  - intros A r. by rewrite -> (bind_Ret _ _ _ _ _ E2), (bind_Ret _ _ _ _ _ (krelease_acq (LProc p) s2 _ Hsy Hok Hlk)).
  - exists (with_proc p (reaped (set_p_context c k)) (next_pid s)). split; [|right; by exists p, k, c].
    apply (mem_step_sync _ (k_sync s)) in Hms2.
    apply (mem_step_with _ p (reaped (set_p_context c k))), (mem_step_sync _ (k_sync s)) in Hms.
    eapply (mem_step_trans (λ b, b ∈ l)); [|exact Hms2|done|done].
    eapply mem_step_eq; [exact Hms|]. destruct s. unfold held, with_proc, next_pid. kcbn. by rw list_insert_insert_eq.
Qed.

Lemma held_lookup P p k s s' :
  (p < length (k_procs s))%nat → mem_step P (held p k s) s' → k_procs s' !! p = Some k.
Proof. intros Hp Hms. rw (mem_step_procs _ _ _ Hms). by apply with_proc_lookup. Qed.

Lemma give_back s l p k k' s1 l1 :
  cpu_ok (k_sync s) → lock_free (LProc p) (k_sync s) →
  k_procs s !! p = Some k → p_state k = UNUSED → reaped k' = reaped k → p_pagetable k' = 0 →
  mem_step (λ b, b ∈ l) (held p k' s) s1 →
  can_lock LKmem s1 → kmem_inv s1 l1 → (∀ a, a ∈ l ↔ a ≠ 0 ∧ a = p_trapframe k' ∨ a ∈ l1) →
  p_trapframe k' = 0 ∨ page_ok (p_trapframe k') ∧ (p_trapframe k' ∉ l1) →
  ∃ s' l', (freeproc p ;; krelease (LProc p) ;; mret None) s1 = Ret (@None nat) s' ∧
    kmem_inv s' l' ∧ no_proc s l s' l'.
Proof.
  intros Hok Hlk Hk Hst Hre Hpt Hms Hlk1 Hf1 Hl1 Htf.
  assert (k_procs s1 !! p = Some k') as Hk1 by (eapply held_lookup; [by eapply lookup_lt_Some|done]).
  destruct (freeproc_frame s1 p k' l1 Hk1 Hlk1 Hf1 Hpt Htf) as (s2 & l2 & E2 & Hlk2 & Hf2 & Hl2 & Hms2).
  assert (reaped k' = reaped (set_p_context (p_context k) k)) as Hre' by (rw Hre; by destruct k).
  rw Hre' in Hms2.
  destruct (cleared _ s l p k (p_context k) k' s1 s2 l2 Hok Hlk Hk Hst Hms E2 Hms2) as (s' & E & Hf' & R); [|done| |].
  - intros b Hb. apply Hl1. by left.
  - intros a. by rw Hl1 Hl2.
  - exists s', l2. split; [apply E|done].
Qed.

(** The same with other memory. *)
Definition heldm (p : nat) (k : proc) (m : bytemem) (f : Z) (s : kstate) : kstate :=
  set_k_mem m (set_k_freelist f (held p k s)).

Lemma heldm_step P p k m f s s' :
  mem_step P (heldm p k m f s) s' → ∃ m' f', s' = heldm p k m' f' s ∧
    ∀ b, b mod 4096 = 0 → ¬ P b → agree m m' b.
Proof. intros [(m' & f' & ->) Hag]. exists m', f'. split; [by destruct s|done]. Qed.
Lemma heldm_lookup p k m f s :
  (p < length (k_procs s))%nat → k_procs (heldm p k m f s) !! p = Some k.
Proof. intros Hp. by apply with_proc_lookup. Qed.
Lemma upd_heldm p k g m f s :
  (p < length (k_procs s))%nat → upd_proc p g (heldm p k m f s) = Ret tt (heldm p (g k) m f s).
Proof.
  intros Hp. rewrite -> (upd_proc_spec _ _ k) by by apply heldm_lookup. f_equal.
  destruct s. unfold heldm, held, with_proc, next_pid. kcbn. by rw list_insert_insert_eq.
Qed.
Lemma heldm_intro (P : Z → Prop) p k m f s :
  (∀ b, b mod 4096 = 0 → ¬ P b → agree (k_mem s) m b) → mem_step P (held p k s) (heldm p k m f s).
Proof. intros Hag. split; [by exists m, f|done]. Qed.

(** [allocproc] once it has a trapframe. *)
Definition alloc_table (p : nat) : KM (option nat) :=
  pt ← proc_pagetable p;
  upd_proc p (set_p_pagetable pt) ;;
  if pt =? 0 then freeproc p ;; krelease (LProc p) ;; mret None else
  upd_proc p (set_p_context (Context 0 0 (replicate 12 0))) ;;
  upd_proc p (λ k, set_p_context (set_c_ra forkret_pc (p_context k)) k) ;;
  upd_proc p (λ k, set_p_context (set_c_sp (p_kstack k + PGSIZE) (p_context k)) k) ;;
  mret (Some p).

(** The outcomes of [allocproc]. *)
Definition allocated (s : kstate) (l : list Z) (r : option nat) (s' : kstate) (l' : list Z) : Prop :=
  kmem_inv s' l' ∧
  match r with
  | None => no_proc s l s' l'
  | Some p => ∃ N k tf pt, got_proc p s l s' l' N k tf pt
  end.

Lemma alloc_table_spec s p k k3 tf l m f :
  cpu_ok (k_sync s) → lock_free (LProc p) (k_sync s) → k_procs s !! p = Some k → p_state k = UNUSED →
  k3 = set_p_trapframe tf (set_p_state USED (set_p_pid (k_nextpid s) k)) → page_ok tf → tf ∉ l →
  can_lock LKmem (heldm p k3 m f s) → kmem_inv (heldm p k3 m f s) l →
  (∀ b, b mod 4096 = 0 → b ≠ tf → agree (k_mem s) m b) →
  ∃ r s' l', alloc_table p (heldm p k3 m f s) = Ret r s' ∧ allocated s (tf :: l) r s' l'.
Proof.
  intros Hok Hlp Hk Hst -> Htf Htfl Hlk Hf Hag3. set (k3 := set_p_trapframe tf _) in *. unfold alloc_table, allocated.
  assert (p < length (k_procs s))%nat as Hp by by eapply lookup_lt_Some.
  destruct (proc_pagetable_spec (heldm p k3 m f s) l p k3) as (pt & s4 & l4 & E4 & Hlk4 & Hf4 & Hms4 & R);
    [done|done|by apply heldm_lookup|done|].
  rewrite -> (bind_Ret _ _ _ _ _ E4).
  destruct (heldm_step _ _ _ _ _ _ _ Hms4) as (m4 & f4 & -> & Hag4).
  rewrite -> (bind_Ret _ _ _ _ _ (upd_heldm p _ _ _ _ s Hp)). set (k4 := set_p_pagetable pt k3).
  assert (∀ b, b mod 4096 = 0 → b ∉ tf :: l → agree (k_mem s) m4 b) as Hag.
  { intros b Hb [Hbt Hbl]%not_elem_of_cons. eapply agree_trans; [by apply Hag3|by apply Hag4]. }
  destruct R as [[-> Hl4]|(Hpos & N & Hpt & Hl4)].
  - cbn [Z.eqb]. destruct (give_back s (tf :: l) p k k4 (heldm p k4 m4 f4 s) l4) as (s' & l' & E' & Hf' & R); try done.
    + by apply heldm_intro.
    + intros a. rw elem_of_cons Hl4. cbn. destruct Htf as (_ & _ & ?). naive_solver lia.
    + right. by rw Hl4.
    + rw E'. by exists None, s', l'.
  - destruct (Z.eqb_spec pt 0); [lia|].
    do 3 (rewrite -> (bind_Ret _ _ _ _ _ (upd_heldm p _ _ _ _ s Hp))).
    eexists (Some p), _, l4. split; [done|]. split; [done|]. exists N, k, tf, pt.
    split_and!; try done.
    + by apply heldm_intro.
    + eapply proc_table_moved; [exact Hpt|done|done|]. intros b Hb. split; [|done].
      by apply (footprint_apart _ _ _ _ _ _ (pt_space _ _ _ _ _ _ Hpt)).
    + by rw -Hl4.
    + intros a. by rw elem_of_cons Hl4.
Qed.

Lemma allocproc_spec s l :
  alloc_env s l → ∃ r s' l', allocproc s = Ret r s' ∧ allocated s l r s' l'.
Proof.
  intros [Hok Hpf Hpid Hkm Hf Hun]. unfold allocproc.
  destruct (find_unused_spec s Hok Hpf) as [(p & k & E & Hk & Hst)|[E Hno]]; rewrite -> (bind_Ret _ _ _ _ _ E).
  2: { exists None, s, l. split; [done|]. split; [done|]. split; [done|]. exists s.
       split; [apply mem_step_refl|by left]. }
  assert (p < length (k_procs s))%nat as Hp by by eapply lookup_lt_Some.
  assert (lock_free (LProc p) (k_sync s)) as Hlp by (apply Hpf; destruct Hpf; lia).
  assert (cpu_ok (acq (LProc p) (k_sync s))) as Hok1 by by apply acq_ok.
  set (s1 := set_k_sync _ s).
  rewrite -> (bind_Ret _ _ _ _ _ (allocpid_spec s1 Hok1 ltac:(by apply acq_free_ne))).
  assert (set_k_nextpid (i32 (k_nextpid s1 + 1)) s1 = heldm p k (k_mem s) (k_freelist s) s) as ->.
  { unfold s1. destruct s. unfold heldm, held, with_proc, next_pid. kcbn. by rw list_insert_id. }
  change (k_nextpid s1) with (k_nextpid s).
  do 2 (rewrite -> (bind_Ret _ _ _ _ _ (upd_heldm p _ _ _ _ s Hp))).
  set (k2 := set_p_state USED _). destruct (Hun p k Hk Hst) as [Hpt0 Hsz0].
  assert (can_lock LKmem (heldm p k2 (k_mem s) (k_freelist s) s)) as Hlk2
    by (split; [done|by apply acq_free_ne]).
  destruct l as [|tf l].
  { rewrite -> (bind_Ret _ _ _ _ _ (kalloc_nil _ Hlk2 Hf)).
    rewrite -> (bind_Ret _ _ _ _ _ (upd_heldm p _ _ _ _ s Hp)). cbn [Z.eqb].
    destruct (give_back s [] p k (set_p_trapframe 0 k2)
      (heldm p (set_p_trapframe 0 k2) (k_mem s) (k_freelist s) s) []) as (s' & l' & E' & Hf' & R); try done.
    - by apply heldm_intro.
    - intros a. split; [by intros ?%elem_of_nil|intros [[? ?]|?]; [done|done]].
    - by left.
    - rw E'. by exists None, s', l'. }
  destruct (kalloc_step _ tf l Hlk2 Hf) as (s3 & E3 & Hlk3 & Hf3 & Htf & Htfl & Hms3).
  rewrite -> (bind_Ret _ _ _ _ _ E3).
  destruct (heldm_step _ _ _ _ _ _ _ Hms3) as (m3 & f3 & -> & Hag3).
  rewrite -> (bind_Ret _ _ _ _ _ (upd_heldm p _ _ _ _ s Hp)).
  destruct (Z.eqb_spec tf 0); [destruct Htf as (_ & _ & ?); lia|]. by eapply alloc_table_spec.
Qed.
End proc_alloc.
