(* ===== verification/ForkCorrect.v ===== *)
(** * fork (kernel/proc.c)

    [fork] makes a process that is a copy of the caller, or gives back all it
    had taken. *)

From S2P Require Import Prelude Riscv KState Spinlock KString Kalloc Vm PageTable Uspace VmCorrect Sched.
From S2P Require Import Layout Bio Log Fs Uart KPrintf Console Pipe File Process ProcMem ProcAlloc.
Open Scope Z_scope.

Section fork.
Context `{ImageOk}.

(** ** Open files *)

(** How often [f] occurs among the descriptors. *)
Definition opens (f : nat) (l : list (option nat)) : Z :=
  Z.of_nat (length (filter (λ o, o = Some f) l)).

(** [filedup] on each descriptor of [l]. *)
Definition dup1 (o : option nat) (t : list file) : list file :=
  match o with Some f => alter (λ k, set_f_ref (i32 (f_ref k + 1)) k) f t | None => t end.
Definition dups (l : list (option nat)) (t : list file) : list file := foldl (λ t o, dup1 o t) t l.

(** The files are in use, and [n] more references fit. *)
Definition files_ok (l : list (option nat)) (n : Z) (t : list file) : Prop :=
  ∀ f, Some f ∈ l → ∃ k, t !! f = Some k ∧ 1 ≤ f_ref k ∧ f_ref k + n < 2 ^ 31.

Lemma filedup_spec s f k :
  cpu_ok (k_sync s) → lock_free LFtable (k_sync s) → k_ftable s !! f = Some k → 1 ≤ f_ref k →
  filedup f s = Ret f (set_k_ftable (dup1 (Some f) (k_ftable s)) s).
Proof.
  intros Hok Hl Hk Hr. unfold filedup. rewrite -> (bind_Ret _ _ _ _ _ (kacquire_free LFtable s Hok Hl)).
  unfold get_file, upd_file. mrun. kcbn. rw Hk. mrun. destruct (Z.ltb_spec (f_ref k) 1); [lia|]. mrun.
  erewrite krelease_acq; [|done|done|done]. keq s.
Qed.

Lemma files_ok_dup1 o l n t : files_ok (o :: l) (n + 1) t → 0 ≤ n → files_ok l n (dup1 o t).
Proof.
  intros Ht Hn f Hf. destruct (Ht f) as (k & Hk & Hr & Hb); [by right|].
  destruct o as [g|]; cbn; [|by exists k; split_and!; [done|done|lia]].
  destruct (decide (g = f)) as [->|Hne].
  - exists (set_f_ref (i32 (f_ref k + 1)) k). rw list_lookup_alter_eq Hk. cbn.
    rw i32_small; [|lia]. split_and!; [done|lia|lia].
  - exists k. rw list_lookup_alter_ne //. split_and!; [done|done|lia].
Qed.

Lemma dups_lookup l : ∀ t f k,
  t !! f = Some k → 0 ≤ f_ref k → f_ref k + length l < 2 ^ 31 →
  dups l t !! f = Some (set_f_ref (f_ref k + opens f l) k).
Proof.
  induction l as [|o l IH]; intros t f k Hk Hr Hb; cbn [dups foldl].
  { unfold opens. cbn. rw Z.add_0_r Hk. by destruct k. }
  cbn [length] in Hb. fold (dups l (dup1 o t)). unfold opens.
  destruct o as [g|]; cbn [dup1]; [destruct (decide (g = f)) as [->|Hne]|].
  - rewrite -> filter_cons_True by done. erewrite IH; [|by rw list_lookup_alter_eq Hk|..]; cbn.
    + rw i32_small; [|lia]. unfold opens. f_equal. destruct k. unfold set_f_ref. cbn. f_equal. lia.
    + rw i32_small; lia.
    + rw i32_small; lia.
  - rewrite -> filter_cons_False by congruence. erewrite IH; [done|by rw list_lookup_alter_ne|done|lia].
  - rewrite -> filter_cons_False by done. erewrite IH; [done|done|done|lia].
Qed.

Lemma with_proc_ne p q k s : p ≠ q → k_procs (with_proc q k s) !! p = k_procs s !! p.
Proof. intros Hne. unfold with_proc. kcbn. by apply list_lookup_insert_ne. Qed.

Lemma fork_files_loop p np k (n : nat) : ∀ i s nk,
  p ≠ np → (i + n = NOFILE)%nat → length (p_ofile k) = NOFILE →
  cpu_ok (k_sync s) → lock_free LFtable (k_sync s) →
  k_procs s !! p = Some k → k_procs s !! np = Some nk →
  p_ofile nk = take i (p_ofile k) ++ replicate n None →
  files_ok (drop i (p_ofile k)) n (k_ftable s) →
  eachM (seq i n) (λ i,
    k ← get_proc p;
    match p_ofile k !! i with
    | Some (Some f) =>
        f ← filedup f;
        upd_proc np (λ k, set_p_ofile (<[i := Some f]> (p_ofile k)) k)
    | _ => mret tt
    end) s =
  Ret tt (set_k_ftable (dups (drop i (p_ofile k)) (k_ftable s)) (with_proc np (set_p_ofile (p_ofile k) nk) s)).
Proof.
  induction n as [|n IH]; intros i s nk Hne Hi Hlen Hok Hlk Hk Hnk Hof Hfs; cbn [seq eachM].
  { rewrite -> drop_ge by lia. cbn [dups foldl]. rewrite -> app_nil_r, take_ge in Hof by lia.
    rw -Hof. unfold mret, M_ret. f_equal. rw with_proc_same; [by destruct s|]. rw Hnk. by destruct nk. }
  destruct (lookup_lt_is_Some_2 (p_ofile k) i) as [o Ho]; [lia|].
  rewrite -> (drop_S _ _ _ Ho) in Hfs |- *. cbn [dups foldl]. fold (dups (drop (S i) (p_ofile k))).
  rewrite -> (bind_assoc _ _ _ _ _ _ (get_proc_spec s p k Hk)). rw Ho.
  assert (<[i := o]> (p_ofile nk) = take (S i) (p_ofile k) ++ replicate n None) as Hof'.
  { rw Hof (take_S_r _ _ _ Ho) -app_assoc. cbn.
    rw insert_app_r_alt; [|rw length_take; lia]. rw length_take Nat.min_l; [|lia]. by rw Nat.sub_diag. }
  assert (files_ok (drop (S i) (p_ofile k)) n (dup1 o (k_ftable s))) as Hfs'.
  { apply files_ok_dup1; [|lia]. by replace (Z.of_nat n + 1) with (Z.of_nat (S n)) by lia. }
  destruct o as [f|].
  - destruct (Hfs f) as (kf & Hkf & Hr & _); [by left|].
    rewrite -> (bind_assoc _ _ _ _ _ _ (filedup_spec s f kf Hok Hlk Hkf Hr)).
    set (s1 := set_k_ftable _ s). assert (k_procs s1 !! np = Some nk) as Hnk1 by done.
    rewrite -> (bind_Ret _ _ _ _ _ (upd_proc_spec s1 np nk _ Hnk1)).
    erewrite (IH (S i) _ (set_p_ofile (<[i := Some f]> (p_ofile nk)) nk)); try done; try lia.
    + f_equal. unfold s1. destruct s. unfold with_proc. kcbn. by rw list_insert_insert_eq.
    + by rw with_proc_ne.
    + apply with_proc_lookup. by eapply lookup_lt_Some.
  - rewrite -> bind_mret. apply IH; try done; try lia.
    rw -Hof'. symmetry. apply list_insert_id. rw Hof lookup_app_r; rw length_take; [|lia].
    by rw Nat.min_l; [|lia]; rw Nat.sub_diag.
Qed.

Lemma fork_files_spec s p np k nk :
  p ≠ np → length (p_ofile k) = NOFILE → cpu_ok (k_sync s) → lock_free LFtable (k_sync s) →
  k_procs s !! p = Some k → k_procs s !! np = Some nk → p_ofile nk = replicate NOFILE None →
  files_ok (p_ofile k) (Z.of_nat NOFILE) (k_ftable s) →
  fork_files p np s =
    Ret tt (set_k_ftable (dups (p_ofile k) (k_ftable s)) (with_proc np (set_p_ofile (p_ofile k) nk) s)).
Proof. intros. by apply (fork_files_loop p np k NOFILE 0 s nk). Qed.

Lemma idup_spec s ip :
  cpu_ok (k_sync s) → lock_free LItable (k_sync s) →
  idup ip s = Ret ip (set_k_itable (alter (λ k, set_i_ref (i32 (i_ref k + 1)) k) ip (k_itable s)) s).
Proof.
  intros Hok Hl. unfold idup. rewrite -> (bind_Ret _ _ _ _ _ (kacquire_free LItable s Hok Hl)).
  unfold upd_inode. mrun. kcbn. erewrite krelease_acq; [|done|done|done]. keq s.
Qed.

(** ** What [fork] relies on

    Process [p], whose entry is [k], is running on this hart; its table is
    [N] with the user pages [u], [l] are the free pages. *)
Record fork_env (s : kstate) (p : nat) (k : proc) (l : list Z) (N : ptree) (u : umap) : Prop := {
  fk_alloc : alloc_env s l;
  fk_run : running (Some p) (k_sync s);
  fk_ftable : lock_free LFtable (k_sync s);
  fk_itable : lock_free LItable (k_sync s);
  fk_wait : lock_free LWait (k_sync s);
  fk_proc : k_procs s !! p = Some k;
  fk_used : p_state k ≠ UNUSED;
  fk_new i k' : k_procs s !! i = Some k' → p_state k' = UNUSED →
    p_ofile k' = replicate NOFILE None ∧ p_killed k' = 0;
  fk_table : proc_table s (p_pagetable k) l N u (p_trapframe k);
  fk_size : user_pages u (p_sz k);
  fk_frame : page_ok (p_trapframe k) ∧ (p_trapframe k ∉ l);
  fk_fds : length (p_ofile k) = NOFILE;
  fk_files : files_ok (p_ofile k) (Z.of_nat NOFILE) (k_ftable s);
  fk_cwd : ∃ ip ki, p_cwd k = Some ip ∧ k_itable s !! ip = Some ki ∧ 0 ≤ i_ref ki < 2 ^ 31 - 1
}.

(** The pages of the caller are not among those that [fork] may use. *)
Lemma caller_kept s p k l N u s' l' :
  fork_env s p k l N u → can_lock LKmem s' → kmem_inv s' l' → (∀ a, a ∈ l' → a ∈ l) →
  (∀ b, b mod 4096 = 0 → b ∉ l → agree (k_mem s) (k_mem s') b) →
  proc_table s' (p_pagetable k) l' N u (p_trapframe k) ∧
  ∀ b, footprint [] N u b ∨ b = p_trapframe k → agree (k_mem s) (k_mem s') b.
Proof.
  intros He Hlk Hf Hsub Hag. pose proof (fk_table _ _ _ _ _ _ He) as Hpt.
  assert (∀ b, footprint [] N u b → (b ∉ l) ∧ agree (k_mem s) (k_mem s') b) as Hb.
  { intros b Hb. destruct (footprint_apart _ _ _ _ _ _ (pt_space _ _ _ _ _ _ Hpt) Hb) as ([? _] & ? & _).
    split; [done|by apply Hag]. }
  destruct (fk_frame _ _ _ _ _ _ He) as [[Htf _] Htfl]. split.
  - eapply proc_table_moved; [done|done|done|]. intros b Hb'. destruct (Hb b Hb') as [Hbl ?].
    split; [|done]. intros ?. by apply Hbl, Hsub.
  - intros b [?| ->]; [by apply Hb|by apply Hag].
Qed.

Lemma frame_above sz x :
  0 ≤ sz ≤ TRAPFRAME → frame_page ≤ x → (sz + 4095) / 4096 ≤ x.
Proof. change TRAPFRAME with 274877898752. unfold frame_page. zlia. Qed.

(** [uvmcopy] into a table without user pages. *)
Lemma fork_memory s old No uo new l N tf sz :
  uspace s old l No uo → proc_table s new l N ∅ tf → user_pages uo sz →
  (∀ b, footprint [] No uo b → ¬ footprint l N ∅ b) →
  ∃ r s' l' N' u', uvmcopy old new sz s = Ret r s' ∧ mem_step (footprint l N ∅) s s' ∧
    (∀ b, footprint l N ∅ b ↔ footprint l' N' u' b) ∧ proc_table s' new l' N' u' tf ∧
    (r = 0 ∧ user_pages u' sz ∧ (∀ x, 0 ≤ x < sz → ubyte (k_mem s') u' x = ubyte (k_mem s) uo x) ∨
     r = -1 ∧ u' = ∅).
Proof.
  intros Hold [Hu Hlt Ht Hfr Hn] [Hsz Hd] Hdis.
  assert (∀ j, 0 ≤ j < (sz + 4095) / 4096 → j < frame_page) as Hfp.
  { intros j Hj. pose proof (frame_above sz frame_page Hsz ltac:(done)). lia. }
  destruct (uvmcopy_spec s old new l No N uo ∅ Hold Hdis sz Hu)
    as (r & s' & l' & N' & u' & E & Hu' & Hst & _ & _ & Hl & R).
  { change MAXVA with 274877906944. change TRAPFRAME with 274877898752 in Hsz. lia. }
  { intros j Hj. split; [by apply Hd|]. split; [done|]. apply Hn; [|by rw Z.mul_comm Z.div_mul; [apply Hfp|]|done].
    pose proof (Hfp j Hj). unfold frame_page in *. change MAXVA with 274877906944. lia. }
  assert (leaf (k_mem s') N' TRAMPOLINE = pte_of trampoline perm_rx ∧
    leaf (k_mem s') N' TRAPFRAME = pte_of tf perm_rw) as [Ht' Hfr'].
  { split; rw Hl //; by apply frame_above. }
  exists r, s', l', N', u'. split_and!; [done|by eapply ustep_step| | |].
  - intros b. by apply (ustep_footprint _ _ _ _ _ _ _ _ _ Hst).
  - split; [done| |done|done|].
    + intros j e He. destruct R as [(_ & Ho & _)|(_ & -> & _)]; [|by rw lookup_empty in He].
      destruct (decide (0 ≤ j < (sz + 4095) / 4096)) as [|Hj]; [by apply Hfp|]. by rw Ho in He.
    + intros x Hx Hxf Hnx. destruct R as [(_ & _ & Hnew)|(_ & -> & Hl')].
      * destruct (decide (0 ≤ x / 4096 < (sz + 4095) / 4096)) as [Hj|Hj].
        -- destruct (Hnew _ Hj) as (e & He & _). congruence.
        -- rw Hl //; [by apply Hn|]. assert (0 ≤ x / 4096) by zlia. lia.
      * destruct (Hl' x Hx) as [->| ->]; [done|by apply Hn].
  - destruct R as [(-> & Ho & Hnew)|(-> & -> & _)]; [left|by right]. split; [done|]. split.
    + split; [done|]. intros j. destruct (decide (0 ≤ j < (sz + 4095) / 4096)) as [Hj|Hj].
      * destruct (Hnew j Hj) as (e & He & _). rw He. split; [done|by eexists].
      * rw Ho //. rw lookup_empty. split; [by intros []|done].
    + intros x Hx. destruct (Hnew (x / 4096)) as (e & He & e0 & He0 & _ & Hc); [zlia|].
      unfold ubyte. rw He He0. apply Hc. zlia.
Qed.

(** ** The two ends of [fork] *)

(** The states that [fork] goes through once the memory is copied. *)
Definition mid (y : syncst) (np : nat) (kc : proc) (m : bytemem) (t : list file) (it : list inode)
    (s : kstate) : kstate :=
  set_k_sync y (set_k_mem m (set_k_itable it (set_k_ftable t (with_proc np kc s)))).

Lemma mid_lookup y np kc m t it s :
  (np < length (k_procs s))%nat → k_procs (mid y np kc m t it s) !! np = Some kc.
Proof. apply with_proc_lookup. Qed.
Lemma mid_upd y np kc m t it s g :
  (np < length (k_procs s))%nat →
  upd_proc np g (mid y np kc m t it s) = Ret tt (mid y np (g kc) m t it s).
Proof.
  intros Hp. rewrite -> (upd_proc_spec _ _ kc) by by apply mid_lookup. f_equal.
  destruct s. unfold mid, with_proc. kcbn. by rw list_insert_insert_eq.
Qed.
Lemma mid_acquire l y np kc m t it s :
  cpu_ok y → lock_free l y → kacquire l (mid y np kc m t it s) = Ret tt (mid (acq l y) np kc m t it s).
Proof. intros Hok Hl. by rewrite -> (kacquire_free l). Qed.
Lemma mid_release l y np kc m t it s :
  cpu_ok y → lock_free l y → krelease l (mid (acq l y) np kc m t it s) = Ret tt (mid y np kc m t it s).
Proof. intros Hok Hl. by rewrite -> (krelease_acq l _ y). Qed.

Lemma mid_store y np kc m t it s f :
  modify (λ s, set_k_mem (f (k_mem s)) s) (mid y np kc m t it s) = Ret tt (mid y np kc (f m) t it s).
Proof. done. Qed.

Lemma mid_files y p np k kc m t it s :
  p ≠ np → (np < length (k_procs s))%nat → k_procs s !! p = Some k → length (p_ofile k) = NOFILE →
  cpu_ok y → lock_free LFtable y → p_ofile kc = replicate NOFILE None →
  files_ok (p_ofile k) (Z.of_nat NOFILE) t →
  fork_files p np (mid y np kc m t it s) =
    Ret tt (mid y np (set_p_ofile (p_ofile k) kc) m (dups (p_ofile k) t) it s).
Proof.
  intros Hne Hnp Hk Hfds Hok Hl Hof Hfs. rewrite -> (fork_files_spec _ p np k kc); try done.
  - f_equal. destruct s. unfold mid, with_proc. kcbn. by rw list_insert_insert_eq.
  - unfold mid. kcbn. by rw with_proc_ne.
  - by apply mid_lookup.
Qed.
Lemma mid_idup y np kc m t it s ip :
  cpu_ok y → lock_free LItable y →
  idup ip (mid y np kc m t it s) =
    Ret ip (mid y np kc m t (alter (λ k, set_i_ref (i32 (i_ref k + 1)) k) ip it) s).
Proof. intros Hok Hl. by rewrite -> idup_spec. Qed.

(** The child's entry at the end. *)
Definition child (p : nat) (k kn : proc) : proc :=
  Proc RUNNABLE (p_chan kn) (p_killed kn) (p_xstate kn) (p_pid kn) (Some p) (p_kstack kn) (p_sz k)
    (p_pagetable kn) (p_trapframe kn) (p_context kn) (p_ofile k) (p_cwd k)
    (safestrcpy (p_name kn) (p_name k) sizeof_name).

(** The child's trapframe: the caller's, with 0 for the result of [fork]. *)
Definition frame_copied (m : bytemem) (tf tfc : Z) : bytemem :=
  st64 (memmove m tfc tf tf_size) (tfc + tf_a0) 0.

Lemma fork_success s p k np kn s1 s2 ip :
  let y := k_sync s in
  cpu_ok y → running (Some p) y → lock_free (LProc np) y →
  lock_free LFtable y → lock_free LItable y → lock_free LWait y →
  p ≠ np → length (p_ofile k) = NOFILE → p_ofile kn = replicate NOFILE None →
  files_ok (p_ofile k) (Z.of_nat NOFILE) (k_ftable s2) → p_cwd k = Some ip →
  allocproc s = Ret (Some np) s1 → k_procs s1 !! p = Some k → k_procs s1 !! np = Some kn →
  uvmcopy (p_pagetable k) (p_pagetable kn) (p_sz k) s1 = Ret 0 s2 →
  k_procs s2 = k_procs s1 → k_sync s2 = acq (LProc np) y →
  fork s = Ret (p_pid kn) (mid y np (child p k kn)
    (frame_copied (k_mem s2) (p_trapframe k) (p_trapframe kn)) (dups (p_ofile k) (k_ftable s2))
    (alter (λ k, set_i_ref (i32 (i_ref k + 1)) k) ip (k_itable s2)) s2).
Proof.
  intros y Hok Hrun Hlp Hlf Hli Hlw Hne Hfds Hof Hfs Hcwd E1 Hk1 Hkn1 E2 Hps Hsy. unfold fork.
  rewrite -> (bind_Ret _ _ _ _ _ (curproc_spec s p Hok Hrun)), (bind_Ret _ _ _ _ _ E1).
  rewrite -> (bind_Ret _ _ _ _ _ (get_proc_spec s1 p k Hk1)), (bind_Ret _ _ _ _ _ (get_proc_spec s1 np kn Hkn1)).
  rewrite -> (bind_Ret _ _ _ _ _ E2). cbn [Z.ltb Z.compare]. clear E1 E2.
  rewrite <- Hps in Hk1, Hkn1. rename Hk1 into Hk. assert (np < length (k_procs s2))%nat as Hnp by by eapply lookup_lt_Some.
  assert (∀ y kc m t it, k_procs (mid y np kc m t it s2) !! p = Some k) as Hk'.
  { intros. unfold mid. kcbn. by rw with_proc_ne. }
  assert (s2 = mid (acq (LProc np) y) np kn (k_mem s2) (k_ftable s2) (k_itable s2) s2) as Es2.
  { unfold mid. rw -Hsy with_proc_same //. by destruct s2. }
  rw {1}Es2. clear Es2. set (m := k_mem s2).
  rewrite -> (bind_Ret _ _ _ _ _ (mid_upd _ np _ _ _ _ s2 _ Hnp)).
  unfold kmemmove at 1. rewrite -> (bind_Ret _ _ _ _ _ (mid_store _ np _ _ _ _ s2 (λ m, memmove m _ _ _))).
  assert (∀ kc m t it, get_proc np (mid (acq (LProc np) y) np kc m t it s2) = Ret kc (mid (acq (LProc np) y) np kc m t it s2)) as Hget.
  { intros. by apply get_proc_spec, mid_lookup. }
  unfold st_tf. rewrite -> (bind_assoc _ _ _ _ _ _ (Hget _ _ _ _)). unfold st.
  rewrite -> (bind_Ret _ _ _ _ _ (mid_store _ np _ _ _ _ s2 (λ m, st64 m _ _))).
  cbn [p_trapframe set_p_sz]. fold (frame_copied m (p_trapframe k) (p_trapframe kn)).
  assert (cpu_ok (acq (LProc np) y)) as Hok1 by by apply acq_ok.
  rewrite -> (bind_Ret _ _ _ _ _ (mid_files _ p np k (set_p_sz (p_sz k) kn) _ _ _ s2 Hne Hnp Hk Hfds Hok1
    (acq_free_ne (LProc np) LFtable y ltac:(done) Hlf) Hof Hfs)).
  rewrite -> (bind_Ret _ _ _ _ _ (get_proc_spec _ p k (Hk' _ _ _ _ _))). rw Hcwd. cbn [deref]. rewrite -> bind_mret.
  rewrite -> (bind_Ret _ _ _ _ _ (mid_idup _ np _ _ _ _ s2 ip Hok1 (acq_free_ne (LProc np) LItable y ltac:(done) Hli))).
  do 2 (rewrite -> (bind_Ret _ _ _ _ _ (mid_upd _ np _ _ _ _ s2 _ Hnp))).
  rewrite -> (bind_Ret _ _ _ _ _ (Hget _ _ _ _)).
  rewrite -> (bind_Ret _ _ _ _ _ (mid_release (LProc np) y np _ _ _ _ s2 Hok Hlp)).
  rewrite -> (bind_Ret _ _ _ _ _ (mid_acquire LWait y np _ _ _ _ s2 Hok Hlw)).
  rewrite -> (bind_Ret _ _ _ _ _ (mid_upd _ np _ _ _ _ s2 _ Hnp)).
  rewrite -> (bind_Ret _ _ _ _ _ (mid_release LWait y np _ _ _ _ s2 Hok Hlw)).
  rewrite -> (bind_Ret _ _ _ _ _ (mid_acquire (LProc np) y np _ _ _ _ s2 Hok Hlp)).
  rewrite -> (bind_Ret _ _ _ _ _ (mid_upd _ np _ _ _ _ s2 _ Hnp)).
  rewrite -> (bind_Ret _ _ _ _ _ (mid_release (LProc np) y np _ _ _ _ s2 Hok Hlp)).
  unfold mret, M_ret, child. by rw Hcwd.
Qed.
(** The memory for the copy does not suffice. *)
Lemma fork_failure s p k l np nk kn s1 s2 l2 N2 :
  cpu_ok (k_sync s) → running (Some p) (k_sync s) → lock_free (LProc np) (k_sync s) →
  k_procs s !! np = Some nk → p_state nk = UNUSED → reaped kn = reaped (set_p_context (p_context kn) nk) → p_sz kn = 0 →
  0 < p_pagetable kn → page_ok (p_trapframe kn) → ¬ footprint l2 N2 ∅ (p_trapframe kn) →
  (∀ a, a ∈ l ↔ a = p_trapframe kn ∨ footprint l2 N2 ∅ a) →
  allocproc s = Ret (Some np) s1 → k_procs s1 !! p = Some k → k_procs s1 !! np = Some kn →
  uvmcopy (p_pagetable k) (p_pagetable kn) (p_sz k) s1 = Ret (-1) s2 →
  mem_step (λ b, b ∈ l) (held np kn s) s2 → proc_table s2 (p_pagetable kn) l2 N2 ∅ (p_trapframe kn) →
  ∃ s' l', fork s = Ret (-1) s' ∧ kmem_inv s' l' ∧ no_proc s l s' l'.
Proof.
  intros Hok Hrun Hlk Hnk Hun Hre Hsz Hpos Htf Hnf Hl E1 Hk1 Hkn1 E2 Hms Hpt. unfold fork.
  rewrite -> (bind_Ret _ _ _ _ _ (curproc_spec s p Hok Hrun)), (bind_Ret _ _ _ _ _ E1).
  rewrite -> (bind_Ret _ _ _ _ _ (get_proc_spec s1 p k Hk1)), (bind_Ret _ _ _ _ _ (get_proc_spec s1 np kn Hkn1)).
  rewrite -> (bind_Ret _ _ _ _ _ E2). cbn [Z.ltb Z.compare].
  assert (k_procs s2 !! np = Some kn) as Hkn2 by (eapply held_lookup, Hms; by eapply lookup_lt_Some).
  destruct (freeproc_spec s2 np kn l2 N2 ∅ Hkn2 Hpt Hpos) as (s3 & l3 & E3 & Hlk3 & Hf3 & Hl3 & Hms3); [|done|done|].
  { rw Hsz. split; [done|]. intros j. rw lookup_empty. change ((0 + 4095) / 4096) with 0. split; [by intros []|lia]. }
  rw Hre in Hms3.
  destruct (cleared _ s l np nk (p_context kn) kn s2 s3 l3 Hok Hlk Hnk Hun Hms E3 Hms3) as (s' & E & Hf' & R); [|done| |].
  - intros b Hb. by apply Hl.
  - intros b. by rw Hl Hl3.
  - exists s', l3. split; [apply E|done].
Qed.

(** ** Memory of the child *)
Lemma frame_copied_agree m tf tfc b :
  b mod 4096 = 0 → tfc mod 4096 = 0 → b ≠ tfc → agree m (frame_copied m tf tfc) b.
Proof.
  intros Hb Ht Hne x Hx. unfold frame_copied, st64, tf_a0, tf_size.
  rw ldb_stn length_le_enc decide_False; [|intros ?; zlia]. rw ldb_memmove // decide_False //. intros ?; zlia.
Qed.
Lemma frame_copied_bytes m tf tfc o :
  0 ≤ o < tf_size →
  ldb (frame_copied m tf tfc) (tfc + o) = if decide (tf_a0 ≤ o < tf_a0 + 8) then 0 else ldb m (tf + o).
Proof.
  intros Ho. unfold frame_copied, st64. unfold tf_a0, tf_size in *. rw ldb_stn length_le_enc.
  destruct (decide (112 ≤ o < 112 + 8)) as [Ha|Ha].
  - rw decide_True; [|lia]. assert (∃ i : nat, (i < 8)%nat ∧ Z.to_nat (tfc + o - (tfc + 112)) = i) as (i & Hi & ->) by (eexists; split; [|done]; lia).
    by do 8 (destruct i as [|i]; [done|]); lia.
  - rw decide_False; [|lia]. rw ldb_memmove // decide_True; [|lia]. f_equal. lia.
Qed.
Lemma ubyte_agree N u m m' x :
  (∀ b, footprint [] N u b → agree m m' b) → ubyte m' u x = ubyte m u x.
Proof.
  intros Hag. unfold ubyte. destruct (u !! (x / 4096)) as [[b fl]|] eqn:E; [|done]. apply (Hag b); [|cbn; zlia].
  right; right. by exists (x / 4096), fl.
Qed.

(** ** [fork] *)

(** The child [kc] in entry [np], with table [Nc] and user pages [uc]. *)
Record forked (s : kstate) (p : nat) (k : proc) (l : list Z) (u : umap) (s' : kstate) (l' : list Z)
    (np : nat) (kc : proc) (Nc : ptree) (uc : umap) : Prop := {
  fd_slot : ∃ nk, k_procs s !! np = Some nk ∧ p_state nk = UNUSED ∧ p_kstack kc = p_kstack nk;
  fd_procs : k_procs s' = <[np := kc]> (k_procs s);
  fd_state : p_state kc = RUNNABLE ∧ p_pid kc = k_nextpid s ∧ p_parent kc = Some p ∧ p_killed kc = 0;
  fd_context : p_context kc = Context forkret_pc (p_kstack kc + PGSIZE) (replicate 12 0);
  fd_same : p_sz kc = p_sz k ∧ p_ofile kc = p_ofile k ∧ p_cwd kc = p_cwd k;
  fd_table : proc_table s' (p_pagetable kc) l' Nc uc (p_trapframe kc);
  fd_size : user_pages uc (p_sz k);
  fd_bytes x : 0 ≤ x < p_sz k → ubyte (k_mem s') uc x = ubyte (k_mem s) u x;
  fd_frame o : 0 ≤ o < tf_size → ldb (k_mem s') (p_trapframe kc + o) =
    if decide (tf_a0 ≤ o < tf_a0 + 8) then 0 else ldb (k_mem s) (p_trapframe k + o);
  fd_pages a : a ∈ l ↔ a = p_trapframe kc ∨ footprint l' Nc uc a;
  fd_files f kf : k_ftable s !! f = Some kf → 0 ≤ f_ref kf < 2 ^ 31 - NOFILE →
    k_ftable s' !! f = Some (set_f_ref (f_ref kf + opens f (p_ofile k)) kf);
  fd_cwd i ki : k_itable s !! i = Some ki →
    k_itable s' !! i = Some (if decide (p_cwd k = Some i) then set_i_ref (i_ref ki + 1) ki else ki)
}.

Lemma forked_intro s p k l N u np nk tf pt s2 l2 N2 uc ip ki (s' := mid (k_sync s) np
      (child p k (newproc (k_nextpid s) tf pt nk)) (frame_copied (k_mem s2) (p_trapframe k) tf)
      (dups (p_ofile k) (k_ftable s2)) (alter (λ k, set_i_ref (i32 (i_ref k + 1)) k) ip (k_itable s2)) s2) :
  fork_env s p k l N u → k_procs s !! np = Some nk → p_state nk = UNUSED →
  p_cwd k = Some ip → k_itable s !! ip = Some ki → 0 ≤ i_ref ki < 2 ^ 31 - 1 →
  mem_step (λ b, b ∈ l) (held np (newproc (k_nextpid s) tf pt nk) s) s2 →
  proc_table s2 pt l2 N2 uc tf → page_ok tf → ¬ footprint l2 N2 uc tf →
  (∀ a, a ∈ l ↔ a = tf ∨ footprint l2 N2 uc a) → user_pages uc (p_sz k) →
  (∀ x, 0 ≤ x < p_sz k → ubyte (k_mem s2) uc x = ubyte (k_mem s) u x) →
  forked s p k l u s' l2 np (child p k (newproc (k_nextpid s) tf pt nk)) N2 uc.
Proof.
  intros He Hnk Hun Hcwd Hip Hr Hms Hpt Htf Hnf Hl Hsz Hb. destruct (ms_state _ _ _ Hms) as (m & f & E).
  assert (∀ b, footprint [] N2 uc b → agree (k_mem s2) (k_mem s') b) as Hag.
  { intros b Hb'. destruct (footprint_apart _ _ _ _ _ _ (pt_space _ _ _ _ _ _ Hpt) Hb') as ([? _] & ? & Hbf).
    apply frame_copied_agree; [done|apply Htf|by intros ->]. }
  split.
  - by exists nk.
  - unfold s', mid. rw E. unfold held, with_proc. kcbn. by rw list_insert_insert_eq.
  - split_and!; [done|done|done|]. by apply (fk_new _ _ _ _ _ _ He np nk).
  - done.
  - done.
  - eapply proc_table_moved; [exact Hpt|split; apply (fk_alloc _ _ _ _ _ _ He)| |].
    + destruct (own_free (us_own (pt_space _ _ _ _ _ _ Hpt))) as [Hfl Hnd]. split; [|done].
      eapply flist_frame, Hfl. intros b x Hb'. apply frame_copied_agree; [|apply Htf|].
      * apply flist_pages in Hfl. rw Forall_forall in Hfl. by apply Hfl.
      * intros ->. apply Hnf. by left.
    + intros b Hb'. split; [|by apply Hag]. by apply (footprint_apart _ _ _ _ _ _ (pt_space _ _ _ _ _ _ Hpt)).
  - done.
  - intros x Hx. rw -Hb //. by apply (ubyte_agree N2).
  - intros o Ho. unfold s', mid. kcbn. rw frame_copied_bytes //. case_decide; [done|].
    apply (ms_agree _ _ _ Hms (p_trapframe k)); try apply (fk_frame _ _ _ _ _ _ He). unfold tf_size in Ho. lia.
  - done.
  - intros g kf Hg Hrf. unfold s', mid. kcbn. rw E. kcbn. apply dups_lookup; [done|lia|].
    rw (fk_fds _ _ _ _ _ _ He). lia.
  - intros i k0 Hi. unfold s', mid. kcbn. rw E Hcwd. kcbn. destruct (decide (i = ip)) as [->|Hne].
    + rw list_lookup_alter_eq Hi decide_True //. cbn. rw i32_small //; simplify_eq; lia.
    + rw list_lookup_alter_ne // decide_False //. congruence.
Qed.

Lemma no_proc_caller s p k l N u s' l' :
  fork_env s p k l N u → no_proc s l s' l' →
  k_sync s' = k_sync s ∧ k_procs s' !! p = Some k ∧
  (∀ b, b mod 4096 = 0 → b ∉ l → agree (k_mem s) (k_mem s') b).
Proof.
  intros He [_ (s0 & Hms & Hs0)]. pose proof (fk_proc _ _ _ _ _ _ He) as Hk.
  assert (k_sync s0 = k_sync s ∧ k_procs s0 !! p = Some k ∧ k_mem s0 = k_mem s) as (Ey & Ek & Em).
  { destruct Hs0 as [->|(np & nk & c & Hnk & Hun & ->)]; [done|]. split_and!; [done| |done].
    rw with_proc_ne //. intros ->. apply (fk_used _ _ _ _ _ _ He). congruence. }
  destruct (ms_state _ _ _ Hms) as (m & f & E). rw -Em. split_and!; [by rw E|by rw E|].
  apply (ms_agree _ _ _ Hms).
Qed.

(** The outcomes; the caller's pages are dealt with below. *)
Definition fork_ends (s : kstate) (p : nat) (k : proc) (l : list Z) (u : umap) : Prop :=
  ∃ r s' l', fork s = Ret r s' ∧ kmem_inv s' l' ∧ k_sync s' = k_sync s ∧ k_procs s' !! p = Some k ∧
    (∀ a, a ∈ l' → a ∈ l) ∧ (∀ b, b mod 4096 = 0 → b ∉ l → agree (k_mem s) (k_mem s') b) ∧
    (r = -1 ∧ no_proc s l s' l' ∨
     r = k_nextpid s ∧ ∃ np kc Nc uc, forked s p k l u s' l' np kc Nc uc).

Lemma fork_ends_none s p k l N u s' l' :
  fork_env s p k l N u → fork s = Ret (-1) s' → kmem_inv s' l' → no_proc s l s' l' → fork_ends s p k l u.
Proof.
  intros He E Hf R. destruct (no_proc_caller _ _ _ _ _ _ _ _ He R) as (? & ? & ?).
  exists (-1), s', l'. split_and!; try done; [|by left]. intros a. apply (proj1 R a).
Qed.

Lemma fork_ends_forked s p k l N u r s' l' np kc Nc uc :
  fork_env s p k l N u → forked s p k l u s' l' np kc Nc uc → fork s = Ret r s' → r = k_nextpid s →
  k_sync s' = k_sync s → (∀ b, b mod 4096 = 0 → b ∉ l → agree (k_mem s) (k_mem s') b) →
  fork_ends s p k l u.
Proof.
  intros He R E Er Hy Hag. exists r, s', l'. split_and!; [done| |done| | |done|].
  - apply (own_free (us_own (pt_space _ _ _ _ _ _ (fd_table _ _ _ _ _ _ _ _ _ _ _ R)))).
  - rw (fd_procs _ _ _ _ _ _ _ _ _ _ _ R) list_lookup_insert_ne; [by apply (fk_proc _ _ _ _ _ _ He)|].
    intros <-. destruct (fd_slot _ _ _ _ _ _ _ _ _ _ _ R) as (nk & Hnk & Hun & _).
    pose proof (fk_proc _ _ _ _ _ _ He). apply (fk_used _ _ _ _ _ _ He). congruence.
  - intros a Ha. apply (fd_pages _ _ _ _ _ _ _ _ _ _ _ R). right; by left.
  - right. split; [done|]. by exists np, kc, Nc, uc.
Qed.

Lemma fork_got s p k l N u np s1 l1 N1 nk tf pt :
  fork_env s p k l N u → allocproc s = Ret (Some np) s1 → kmem_inv s1 l1 →
  got_proc np s l s1 l1 N1 nk tf pt → fork_ends s p k l u.
Proof.
  intros He E1 Hf1 (Hnk & Hun & Hms1 & Hpos & Htf & Hpt1 & Hnf1 & Hl1).
  destruct (fk_alloc _ _ _ _ _ _ He) as [Hok [Hlen Hpf] _ _ _ Hun0]. pose proof (fk_proc _ _ _ _ _ _ He) as Hk.
  assert (np < length (k_procs s))%nat as Hnp by by eapply lookup_lt_Some.
  assert (p ≠ np) as Hne by (intros ->; apply (fk_used _ _ _ _ _ _ He); congruence).
  assert (lock_free (LProc np) (k_sync s)) as Hlp by (apply Hpf; lia).
  destruct (fk_new _ _ _ _ _ _ He np nk Hnk Hun) as [Hof _]. destruct (Hun0 np nk Hnk Hun) as [_ Hsz0].
  set (kn := newproc (k_nextpid s) tf pt nk) in Hms1.
  assert (k_procs s1 !! p = Some k) as Hk1 by (rw (mem_step_procs _ _ _ Hms1); by rw with_proc_ne).
  pose proof (held_lookup _ _ _ _ _ Hnp Hms1) as Hkn1.
  assert (∀ b, footprint l1 N1 ∅ b → b ∈ l) as Hsub by (intros b Hb; apply Hl1; by right).
  destruct (caller_kept s p k l N u s1 l1 He) as [Hpt Hagc];
    [apply (us_own (pt_space _ _ _ _ _ _ Hpt1))|done|intros a Ha; apply Hsub; by left|apply (ms_agree _ _ _ Hms1)|].
  destruct (fork_memory s1 (p_pagetable k) N u pt l1 N1 tf (p_sz k)) as (r & s2 & l2 & N2 & u2 & E2 & Hms2 & Hl2 & Hpt2 & R);
    [apply Hpt|done|apply (fk_size _ _ _ _ _ _ He)| |].
  { intros b Hb Hb1%Hsub. by destruct (footprint_apart _ _ _ _ _ _ (pt_space _ _ _ _ _ _ (fk_table _ _ _ _ _ _ He)) Hb) as (_ & ? & _). }
  assert (mem_step (λ b, b ∈ l) (held np kn s) s2) as Hms by by eapply mem_step_trans.
  assert (∀ a, a ∈ l ↔ a = tf ∨ footprint l2 N2 u2 a) as Hl by (intros a; by rw Hl1 Hl2).
  rw Hl2 in Hnf1. destruct R as [(-> & Hsz & Hb)|[-> ->]].
  - destruct (fk_cwd _ _ _ _ _ _ He) as (ip & ki & Hcwd & Hip & Hr).
    assert (k_sync s2 = acq (LProc np) (k_sync s) ∧ k_ftable s2 = k_ftable s) as [Hy Hft]
      by (by destruct (ms_state _ _ _ Hms) as (? & ? & ->)).
    eapply (fork_ends_forked s p k l N u); [done| |apply (fork_success s p k np kn s1 s2 ip)| | |]; try done.
    + eapply (forked_intro s p k l N u np nk tf pt s2 l2 N2 u2 ip ki); try done.
      intros x Hx. rw Hb //. apply (ubyte_agree N). intros b Hb'. apply Hagc. by left.
    + apply He.
    + apply He.
    + apply He.
    + apply He.
    + apply He.
    + rw Hft. apply He.
    + by rw (mem_step_procs _ _ _ Hms2).
    + intros b Hbm Hbl. eapply agree_trans; [by apply (ms_agree _ _ _ Hms)|].
      apply frame_copied_agree; [done|apply Htf|]. intros ->. apply Hbl, Hl. by left.
  - destruct (fork_failure s p k l np nk kn s1 s2 l2 N2) as (s' & l' & E & Hf' & R'); try done; [apply He|].
    by eapply fork_ends_none.
Qed.

Lemma fork_cases s p k l N u : fork_env s p k l N u → fork_ends s p k l u.
Proof.
  intros He. pose proof (fk_alloc _ _ _ _ _ _ He) as Hae.
  destruct (allocproc_spec s l Hae) as ([np|] & s1 & l1 & E1 & Hf1 & R1).
  - destruct R1 as (N1 & nk & tf & pt & R1). by eapply fork_got.
  - eapply fork_ends_none; [done| |done|done]. unfold fork.
    rewrite -> (bind_Ret _ _ _ _ _ (curproc_spec s p (ae_cpu _ _ Hae) (fk_run _ _ _ _ _ _ He))).
    by rewrite -> (bind_Ret _ _ _ _ _ E1).
Qed.

(** C5. [fork] is correct and loses no page. When memory or the process table
    is exhausted it returns -1 with the free pages as they were, and at most
    an unused entry cleared. Otherwise it returns the pid of a runnable child:
    the child has the caller's size, open files and directory, each with its
    reference counted once per use, a table of its own in which every user byte
    below the size is equal to the caller's, and the caller's trapframe but for
    a0, the result, which is 0; the pages of the child and those still free are
    exactly the pages that were free before. On both ways the caller's entry,
    table, memory and the locks are as they were. *)
Theorem fork_copies s p k l N u :
  fork_env s p k l N u →
  ∃ r s' l', fork s = Ret r s' ∧ kmem_inv s' l' ∧ k_sync s' = k_sync s ∧
    k_procs s' !! p = Some k ∧ proc_table s' (p_pagetable k) l' N u (p_trapframe k) ∧
    (∀ b, footprint [] N u b ∨ b = p_trapframe k → agree (k_mem s) (k_mem s') b) ∧
    (r = -1 ∧ no_proc s l s' l' ∨
     r = k_nextpid s ∧ ∃ np kc Nc uc, forked s p k l u s' l' np kc Nc uc).
Proof.
  intros He. destruct (fork_cases s p k l N u He) as (r & s' & l' & E & Hf & Hy & Hk & Hsub & Hag & R).
  assert (can_lock LKmem s') as Hlk by (split; rw Hy; apply (fk_alloc _ _ _ _ _ _ He)).
  destruct (caller_kept s p k l N u s' l' He Hlk Hf Hsub Hag) as [? ?].
  by exists r, s', l'.
Qed.
End fork.

(** ** A process that forks

    Process 0 has one page of memory, the same file open twice, and a table of
    five pages; eight pages are free. *)

(** [row] shows a row of such a table well-formed; [rows inv tl H] are the
    cases of a page [H] of the table [tl]. *)
Ltac row := split_and!;
  [by apply pg_ok|cbn [fst]; repeat split; try done; by eexists|cbn [fst length]; intros ?; first [lia|by vm_compute]].
Ltac rows inv tl H :=
  apply inv in H; unfold tl in H;
  repeat (apply elem_of_cons in H as [H|H]; [apply pair_eq in H as [? ?]|]); [..|by apply elem_of_nil in H];
  simplify_eq.

Section small_fork.
#[local] Existing Instance image0.
#[local] Instance image0_ok : ImageOk.
Proof. by split; vm_compute. Qed.

Definition table_list : list (list Z * Z) :=
  [([], pg 1); ([0], pg 2); ([0; 0], pg 3); ([255], pg 13); ([255; 511], pg 14)].
Definition table_fork : ptree := list_to_map table_list.
Definition entry_of (q : Z) : Z := Z.lor (PA2PTE q) PTE_V.
Definition mem_fork : bytemem :=
  foldl (λ m e, st64 m e.1 e.2) ∅
    ([(pte_at (pg 1) 0, entry_of (pg 2)); (pte_at (pg 2) 0, entry_of (pg 3));
      (pte_at (pg 3) 0, pte_of (pg 4) perm_all);
      (pte_at (pg 1) 255, entry_of (pg 13)); (pte_at (pg 13) 511, entry_of (pg 14));
      (pte_at (pg 14) 511, pte_of trampoline perm_rx); (pte_at (pg 14) 510, pte_of (pg 15) perm_rw)] ++
     ((λ i, (pg i, pg (i + 1))) <$> seqZ 5 7)).
Definition free_fork : list Z := pg <$> seqZ 5 8.
Definition proc_fork : proc :=
  Proc RUNNING None 0 0 1 None (KSTACK 0) 4096 (pg 1) (pg 15) context0
    (Some O :: Some O :: replicate 14 None) (Some O) (replicate 16 0).
Definition kst_fork : kstate :=
  set_k_procs (<[0%nat := proc_fork]> (k_procs kst1))
    (set_k_mem mem_fork (set_k_freelist (pg 5)
      (set_k_ftable [File FD_INODE 2 1 1 0 (Some O) 0 0]
        (set_k_itable [Inode ROOTDEV 1 2 1 T_FILE 0 0 1 0 (replicate 13 0)] kst1)))).

(** What holds of all entries of a page, by computation. *)
Lemma all_entries (P : Z → bool) i : forallb P (seqZ 0 512) = true → 0 ≤ i < 512 → P i = true.
Proof. intros HP Hi. rw forallb_forall in HP. apply HP. apply list_elem_of_In, elem_of_seqZ. lia. Qed.

(** A table given as a list of its pages with their paths. *)
Definition entry_b (m : bytemem) (N : ptree) (π : list Z) (p i : Z) : bool :=
  match N !! (π ++ [i]) with
  | Some q => ld64 m (pte_at p i) =? entry_of q
  | None => Z.land (ld64 m (pte_at p i)) PTE_V =? 0
  end.
Definition row_ok (m : bytemem) (N : ptree) (r : list Z * Z) : Prop :=
  page_ok r.2 ∧
  match r.1 with
  | [] => True
  | [i] => is_Some (N !! []) ∧ 0 ≤ i < 256
  | [i; j] => is_Some (N !! [i]) ∧ 0 ≤ i < 256 ∧ 0 ≤ j < 512
  | _ => False
  end ∧
  ((length r.1 < 2)%nat → forallb (entry_b m N r.1 r.2) (seqZ 0 512) = true).

Lemma rep_list m root (tl : list (list Z * Z)) :
  let N : ptree := list_to_map tl in
  N !! [] = Some root → NoDup tl.*2 → Forall (row_ok m N) tl → pt_rep m root N.
Proof.
  intros N Hr Hnd Hrow.
  assert (∀ π p, N !! π = Some p → (π, p) ∈ tl ∧ row_ok m N (π, p)) as Hin.
  { intros π p Hp%elem_of_list_to_map_2. split; [done|]. rw Forall_forall in Hrow. by apply Hrow. }
  split.
  - done.
  - intros π p Hp. by apply (Hin π p Hp).
  - intros π π' p Hp Hp'. destruct (Hin _ _ Hp) as [[n Hn]%list_elem_of_lookup _].
    destruct (Hin _ _ Hp') as [[n' Hn']%list_elem_of_lookup _].
    assert (n = n') as <-; [|congruence]. apply (NoDup_lookup tl.*2 n n' p Hnd); by rw list_lookup_fmap ?Hn ?Hn'.
  - intros π i p Hp. destruct (Hin _ _ Hp) as (_ & _ & Hs & _).
    destruct π as [|a [|b [|c π]]]; cbn in Hs; [|..|done|done]; (split; [apply Hs|cbn [length]; lia]).
  - intros i π p Hp. destruct (Hin _ _ Hp) as (_ & _ & Hs & _). destruct π as [|a [|b π]]; cbn in Hs; lia || done.
  - intros π p i Hp Hlen Hi. destruct (Hin _ _ Hp) as (_ & _ & _ & He).
    pose proof (all_entries _ i (He Hlen) Hi) as E. unfold entry_b in E. cbn [fst snd] in E.
    destruct (N !! (π ++ [i])); by apply Z.eqb_eq in E.
Qed.

Lemma table_fork_inv π p : table_fork !! π = Some p → (π, p) ∈ table_list.
Proof. apply elem_of_list_to_map_2. Qed.

Lemma rep_fork : pt_rep mem_fork (pg 1) table_fork.
Proof.
  apply rep_list; [done|by apply (bool_decide_unpack _); vm_compute|]. unfold table_list.
  repeat apply Forall_cons_2; [..|by apply Forall_nil_2]; row.
Qed.

Lemma kmem_fork : kmem_inv kst_fork free_fork.
Proof.
  split; [|by vm_compute; apply (bool_decide_unpack _)]. unfold free_fork. change (seqZ 5 8) with [5; 6; 7; 8; 9; 10; 11; 12].
  cbn [fmap list_fmap flist]. split_and!; try by apply pg_ok. all: by vm_compute.
Qed.

Lemma free_fork_inv i : pg i ∈ free_fork → 5 ≤ i < 13.
Proof. intros (j & E & Hj%elem_of_seqZ)%list_elem_of_fmap. unfold pg in E. lia. Qed.

Lemma proc_free_locks : procs_free kst_fork.
Proof. split; [done|]. apply procs_free_kst1. Qed.
Lemma lock_fork l : l ∈ all_locks → lock_free l (k_sync kst_fork).
Proof. apply sync1_free. Qed.

Lemma own_fork : own kst_fork (pg 1) free_fork table_fork.
Proof.
  split; [split; [exact cpu_ok_sync1|apply lock_fork; unfold all_locks; set_solver]|exact kmem_fork|exact rep_fork|].
  intros π p Hp. rows table_fork_inv table_list Hp; intros ?%free_fork_inv; lia.
Qed.

Lemma uspace_fork : uspace kst_fork (pg 1) free_fork table_fork user_small.
Proof.
  unfold user_small. split; [exact own_fork|intros k e [<- <-]%lookup_singleton_Some..|].
  - by vm_compute.
  - by vm_compute.
  - by vm_compute.
  - split_and!; [by apply pg_ok|intros ?%free_fork_inv; lia|]. intros π Hp. by rows table_fork_inv table_list Hp.
  - by intros k k' e e' [<- <-]%lookup_singleton_Some [<- <-]%lookup_singleton_Some.
Qed.

Lemma leaf_fork x :
  0 ≤ x < MAXVA → x / 4096 < frame_page → x / 4096 ≠ 0 → leaf mem_fork table_fork x = 0.
Proof.
  intros Hx Hf H0. unfold leaf, leaf_page. destruct (table_fork !! [PX 2 x; PX 1 x]) as [p|] eqn:E; [|done].
  pose proof (PX_range 0 x) as Hr. rows table_fork_inv table_list E.
  - assert (PX 0 x ≠ 0) as Hne.
    { intros E0. apply H0. rewrite -> (PX_page x 0) by (done || vlia). done. }
    assert ((PX 0 x =? 0) || (ld64 mem_fork (pte_at (pg 3) (PX 0 x)) =? 0) = true) as Eb; [|lia].
    by apply (all_entries (λ i, (i =? 0) || (ld64 mem_fork (pte_at (pg 3) i) =? 0))); [vm_compute|].
  - assert (PX 0 x < 510) as Hne.
    { pose proof (PX_decompose x Hx). unfold frame_page in Hf. zlia. }
    assert ((510 <=? PX 0 x) || (ld64 mem_fork (pte_at (pg 14) (PX 0 x)) =? 0) = true) as Eb; [|lia].
    by apply (all_entries (λ i, (510 <=? i) || (ld64 mem_fork (pte_at (pg 14) i) =? 0))); [vm_compute|].
Qed.

Lemma fork_env_small : fork_env kst_fork 0 proc_fork free_fork table_fork user_small.
Proof.
  assert (∀ l, l ∈ [LPid; LKmem; LFtable; LItable; LWait] → lock_free l (k_sync kst_fork)) as Hl.
  { intros l Hl. apply lock_fork. unfold all_locks. set_solver. }
  assert (∀ i k, k_procs kst_fork !! i = Some k → p_state k = UNUSED → k = proc1 i) as Hun.
  { intros [|i] k Hk Hst; [cbn in Hk; simplify_eq/=|]. 
    change (k_procs kst_fork !! S i) with ((proc1 <$> seq 0 NPROC) !! S i) in Hk.
    apply list_lookup_fmap_Some in Hk as (j & -> & Hj). by apply lookup_seq in Hj as [-> _]. }
  split; try done; try (apply Hl; set_solver).
  - split; [exact cpu_ok_sync1|exact proc_free_locks|apply Hl; set_solver..|exact kmem_fork|].
    intros i k Hk Hst. by rewrite -> (Hun i k Hk Hst).
  - by eexists.
  - intros i k Hk Hst. by rewrite -> (Hun i k Hk Hst).
  - split; [exact uspace_fork| |by vm_compute|by vm_compute|].
    + unfold user_small. by intros j e [<- _]%lookup_singleton_Some.
    + intros x Hx Hf Hn. rw leaf_fork //. intros E. by rw E in Hn.
  - split; [done|]. intros j. unfold user_small. change ((p_sz proc_fork + 4095) / 4096) with 1. split.
    + intros [e [<- _]%lookup_singleton_Some]. lia.
    + intros Hj. assert (j = 0) as -> by lia. by eexists.
  - split; [by apply pg_ok|]. intros ?%free_fork_inv. lia.
  - intros f Hf. assert (f = O) as ->; [|by eexists].
    apply elem_of_cons in Hf as [[= ->]|[[= ->]|[? _]%elem_of_replicate]%elem_of_cons]; done.
  - by eexists _, _.
Qed.

Lemma fork_small : match fork kst_fork with Ret r s => r = 1 /\ p_state <$> k_procs s !! 1%nat = Some RUNNABLE | _ => False end.
Proof. vm_compute. done. Qed.

Lemma fork_copies_witness :
  ∃ s' l' np kc Nc uc, fork kst_fork = Ret 1 s' ∧
    forked kst_fork 0 proc_fork free_fork user_small s' l' np kc Nc uc.
Proof.
  destruct (fork_copies kst_fork 0 proc_fork free_fork table_fork user_small fork_env_small)
    as (r & s' & l' & E & _ & _ & _ & _ & _ & [[-> _]|[-> (np & kc & Nc & uc & R)]]).
  - exfalso. pose proof fork_small as Hs. rewrite -> E in Hs. by destruct Hs.
  - exists s', l', np, kc, Nc, uc. split; [exact E|exact R].
Defined.
End small_fork.
