(* ===== verification/WaitCorrect.v ===== *)
(** * wait (kernel/proc.c)

    [wait] reports the status of a child that has exited and takes its memory
    back. *)

From S2P Require Import Prelude Riscv KState Spinlock KString Kalloc Vm PageTable Uspace VmCorrect Sched.
From S2P Require Import Layout Bio Log Fs Uart KPrintf Console Pipe File Process ProcMem ProcAlloc ForkCorrect.
Open Scope Z_scope.

Section wait.
Context `{ImageOk}.

(** ** The scan of the table *)

Definition child_b (p : nat) (s : kstate) (i : nat) : bool :=
  match k_procs s !! i with Some k => bool_decide (p_parent k = Some p) | None => false end.
Definition no_zombie (p : nat) (s : kstate) (i : nat) : Prop :=
  ∃ k, k_procs s !! i = Some k ∧ lock_free (LProc i) (k_sync s) ∧ ¬ (p_parent k = Some p ∧ p_state k = ZOMBIE).

(** Entries that are not a child that has exited are passed over. *)
Lemma wait_skip p addr s nps rest : ∀ kids,
  cpu_ok (k_sync s) → Forall (no_zombie p s) nps →
  wait_scan p addr (nps ++ rest) kids s = wait_scan p addr rest (kids || existsb (child_b p s) nps) s.
Proof.
  induction nps as [|i nps IH]; intros kids Hok Hz; cbn [app existsb]; [by rw orb_false_r|].
  apply Forall_cons in Hz as [(k & Hk & Hl & Hn) Hz]. cbn [wait_scan].
  rewrite -> (bind_Ret _ _ _ _ _ (get_proc_spec s i k Hk)). unfold child_b at 1. rw Hk.
  destruct (decide (p_parent k = Some p)) as [E|E].
  - rw bool_decide_true //. cbn [negb].
    rewrite -> (bind_Ret _ _ _ _ _ (kacquire_free (LProc i) s Hok Hl)).
    rewrite -> (bind_Ret _ _ _ _ _ (get_proc_spec (set_k_sync _ s) i k Hk)). rw decide_False; [|by intros ?; apply Hn].
    assert (krelease (LProc i) (set_k_sync (acq (LProc i) (k_sync s)) s) = Ret tt s) as Er.
    { erewrite krelease_acq; [|done|done|done]. by destruct s. }
    rewrite -> (bind_Ret _ _ _ _ _ Er). rw IH //. by rw orb_true_r.
  - rw bool_decide_false //. cbn [negb]. by apply IH.
Qed.

(** What [wait] relies on: process [p] runs and has the address space [N], [u];
    entry [np] is the first with a child of it that has exited, whose memory is
    [Nc], [uc]. *)
Record wait_env (s : kstate) (p : nat) (k : proc) (l : list Z) (N : ptree) (u : umap)
    (np : nat) (kc : proc) (Nc : ptree) (uc : umap) : Prop := {
  we_cpu : cpu_ok (k_sync s);
  we_run : running (Some p) (k_sync s);
  we_procs : procs_free s;
  we_wait : lock_free LWait (k_sync s);
  we_fuel : k_fuel s ≠ 0%nat;
  we_proc : k_procs s !! p = Some k;
  we_space : uspace s (p_pagetable k) l N u;
  we_child : k_procs s !! np = Some kc ∧ p_parent kc = Some p ∧ p_state kc = ZOMBIE;
  we_first i ki : (i < np)%nat → k_procs s !! i = Some ki → ¬ (p_parent ki = Some p ∧ p_state ki = ZOMBIE);
  we_table : proc_table s (p_pagetable kc) l Nc uc (p_trapframe kc);
  we_root : 0 < p_pagetable kc;
  we_size : user_pages uc (p_sz kc);
  we_frame : page_ok (p_trapframe kc) ∧ ¬ footprint l Nc uc (p_trapframe kc);
  we_apart b : footprint [] N u b → ¬ footprint [] Nc uc b ∧ b ≠ p_trapframe kc
}.

(** Where the status is stored: nowhere, or in user memory of the caller. *)
Definition status_ok (u : umap) (addr : Z) : Prop :=
  addr = 0 ∨ 0 < addr ∧ addr + 4 ≤ MAXVA ∧ ∀ x, addr ≤ x < addr + 4 → user_ok u x.

Definition status_at (addr x : Z) : Prop := addr ≠ 0 ∧ addr ≤ x < addr + 4.
#[local] Instance status_at_dec addr x : Decision (status_at addr x).
Proof. unfold status_at. apply _. Defined.

Lemma status_stored s root l N u addr v :
  uspace s root l N u → status_ok u addr →
  ∃ m, (if addr =? 0 then mret 0 else copyout root addr (le_enc 4 v) 4) s = Ret 0 (set_k_mem m s) ∧
    uspace (set_k_mem m s) root l N u ∧
    (∀ b, b mod 4096 = 0 → ¬ footprint [] N u b → agree (k_mem s) m b) ∧
    (∀ x, ubyte m u x =
       if decide (status_at addr x) then le_enc 4 v !!! Z.to_nat (x - addr) else ubyte (k_mem s) u x).
Proof.
  intros Hu Hst. destruct (Z.eqb_spec addr 0) as [->|Hne].
  - exists (k_mem s). assert (set_k_mem (k_mem s) s = s) as -> by by destruct s. split_and!; [done|done|done|].
    intros x. by destruct (decide (status_at 0 x)) as [[? _]|].
  - destruct Hst as [?|(Ha & Hm & Hok)]; [done|].
    destruct (copyout_spec s root l N u addr (le_enc 4 v) Hu) as (m & E & Hu' & Hag & Hb);
      rw ?length_le_enc; [lia|lia|done|].
    exists m. split_and!; [done|done| |].
    + intros b Hbm Hnf. apply Hag; [done|]. intros j e He <-. apply Hnf. right; right. exists j, e.2. by destruct e.
    + intros x. rw Hb length_le_enc. destruct (decide (status_at addr x)) as [[_ Hx]|Hn]; [by rw decide_True|].
      rw decide_False //. intros Hx. by apply Hn.
Qed.

(** The memory of the child and the place of the status. *)
Lemma reap_memory s p k l N u np kc Nc uc addr y :
  wait_env s p k l N u np kc Nc uc → status_ok u addr → cpu_ok y → lock_free LKmem y →
  let s1 := set_k_sync y s in
  ∃ s2 s3 l', (if addr =? 0 then mret 0
      else copyout (p_pagetable k) addr (le_enc 4 (p_xstate kc)) 4) s1 = Ret 0 s2 ∧
    freeproc np s2 = Ret tt s3 ∧ k_sync s3 = y ∧
    k_procs s3 = <[np := reaped kc]> (k_procs s) ∧ kmem_inv s3 l' ∧ uspace s3 (p_pagetable k) l' N u ∧
    (∀ a, a ∈ l' ↔ a = p_trapframe kc ∨ footprint l Nc uc a) ∧
    (∀ x, ubyte (k_mem s3) u x = if decide (status_at addr x)
       then le_enc 4 (p_xstate kc) !!! Z.to_nat (x - addr) else ubyte (k_mem s) u x).
Proof.
  intros He Hst Hok Hl s1. pose proof (we_space _ _ _ _ _ _ _ _ _ _ He) as Hu. pose proof (we_table _ _ _ _ _ _ _ _ _ _ He) as Hpt.
  assert (∀ b, footprint [] N u b → page_ok b ∧ b ∉ l) as Hpg
    by (intros b Hb; by destruct (footprint_apart _ _ _ _ _ _ Hu Hb) as (? & ? & _)).
  assert (uspace s1 (p_pagetable k) l N u) as Hu1.
  { eapply uspace_moved; [done|done|apply (own_free (us_own Hu))|]. intros b Hb. split; [by apply Hpg|done]. }
  destruct (status_stored s1 _ l N u addr (p_xstate kc) Hu1 Hst) as (m & E2 & Hu2 & Hag2 & Hb2).
  destruct (we_child _ _ _ _ _ _ _ _ _ _ He) as (Hkc & _). destruct (we_frame _ _ _ _ _ _ _ _ _ _ He) as [Htf Hnf].
  destruct (freeproc_spec (set_k_mem m s1) np kc l Nc uc) as (s3 & l' & E3 & Hlk3 & Hf3 & Hl3 & Hms3); try done.
  { eapply proc_table_moved; [done|done|apply (own_free (us_own Hu2))|]. intros b Hb.
    destruct (footprint_apart _ _ _ _ _ _ (pt_space _ _ _ _ _ _ Hpt) Hb) as ([? _] & ? & _). split; [done|].
    apply Hag2; [done|]. intros Hb'. by destruct (we_apart _ _ _ _ _ _ _ _ _ _ He b Hb'). }
  { apply (we_root _ _ _ _ _ _ _ _ _ _ He). }
  { apply (we_size _ _ _ _ _ _ _ _ _ _ He). }
  assert (∀ b, footprint [] N u b → (b ∉ l') ∧ agree m (k_mem s3) b) as Hkeep.
  { intros b Hb. destruct (we_apart _ _ _ _ _ _ _ _ _ _ He b Hb) as [Hb1 Hb2']. destruct (Hpg b Hb) as [[Hbm _] Hbl].
    assert (¬ (b = p_trapframe kc ∨ footprint l Nc uc b)) as Hn by (rw (footprint_split l); tauto).
    split; [by rw Hl3|]. by apply (ms_agree _ _ _ Hms3). }
  exists (set_k_mem m s1), s3, l'. split_and!; [done|done|..|done| |done|].
  - by destruct (ms_state _ _ _ Hms3) as (? & ? & ->).
  - by rw (mem_step_procs _ _ _ Hms3).
  - by eapply uspace_moved.
  - intros x. rw -Hb2. apply (ubyte_agree N). apply Hkeep.
Qed.

(** The scan up to the child and its end. *)
Lemma wait_found s p k l N u np kc Nc uc addr s2 s3 :
  wait_env s p k l N u np kc Nc uc →
  let y1 := acq LWait (k_sync s) in
  let y2 := acq (LProc np) y1 in
  (if addr =? 0 then mret 0
   else copyout (p_pagetable k) addr (le_enc 4 (p_xstate kc)) 4) (set_k_sync y2 s) = Ret 0 s2 →
  freeproc np s2 = Ret tt s3 → k_sync s3 = y2 →
  wait_scan p addr (seq 0 NPROC) false (set_k_sync y1 s) =
    Ret (inr (p_pid kc)) (set_k_sync (k_sync s) s3).
Proof.
  intros [Hok Hrun [Hlen Hlp] Hlw _ Hk Hu (Hkc & Hpa & Hz) Hfi _ _ _ _ _] y1 y2 E2 E3 Hy.
  assert (np < NPROC)%nat as Hnp by (rw -Hlen; by eapply lookup_lt_Some).
  assert (cpu_ok y1) as Hok1 by by apply acq_ok.
  assert (∀ i, (i < NPROC)%nat → lock_free (LProc i) y1) as Hlp1 by (intros i Hi; by apply acq_free_ne, Hlp).
  replace (seq 0 NPROC) with (seq 0 np ++ np :: seq (S np) (NPROC - S np))
    by (rewrite -> cons_seq, <- seq_app; f_equal; lia).
  rewrite -> wait_skip; [|done|].
  2: { apply Forall_forall. intros i [_ Hi]%elem_of_seq. destruct (lookup_lt_is_Some_2 (k_procs s) i) as [ki Hki]; [lia|].
       exists ki. split_and!; [done|apply Hlp1; lia|by apply (Hfi i)]. }
  cbn [wait_scan]. rewrite -> (bind_Ret _ _ _ _ _ (get_proc_spec (set_k_sync y1 s) np kc Hkc)).
  rw bool_decide_true //. cbn [negb].
  rewrite -> (bind_Ret _ _ _ _ _ (kacquire_free (LProc np) (set_k_sync y1 s) Hok1 (Hlp1 _ Hnp))).
  change (set_k_sync _ (set_k_sync y1 s)) with (set_k_sync y2 s).
  rewrite -> (bind_Ret _ _ _ _ _ (get_proc_spec (set_k_sync y2 s) np kc Hkc)). rw decide_True //. cbv zeta.
  rewrite -> (bind_Ret _ _ _ _ _ (get_proc_spec (set_k_sync y2 s) p k Hk)), (bind_Ret _ _ _ _ _ E2).
  cbn [Z.ltb Z.compare].
  rewrite -> (bind_Ret _ _ _ _ _ E3), (bind_Ret _ _ _ _ _ (krelease_acq (LProc np) s3 y1 Hy Hok1 (Hlp1 _ Hnp))).
  by rewrite -> (bind_Ret _ _ _ _ _ (krelease_acq LWait (set_k_sync y1 s3) (k_sync s) eq_refl Hok Hlw)).
Qed.

(** C14. [wait] on a child that has exited: it returns the child's pid, stores
    the exit status at the address given, unless that is 0, and clears the
    child's entry; the free pages are then those that were free together with
    every page of the child: its memory, its page table and its trapframe.
    Nothing else changes: the other bytes of the caller's memory, the other
    entries and the locks are as before. *)
Theorem wait_reaps s p k l N u np kc Nc uc addr :
  wait_env s p k l N u np kc Nc uc → status_ok u addr →
  ∃ s' l', wait addr s = Ret (p_pid kc) s' ∧ k_sync s' = k_sync s ∧
    k_procs s' = <[np := reaped kc]> (k_procs s) ∧ kmem_inv s' l' ∧ uspace s' (p_pagetable k) l' N u ∧
    (∀ a, a ∈ l' ↔ a = p_trapframe kc ∨ footprint l Nc uc a) ∧
    (∀ x, ubyte (k_mem s') u x = if decide (status_at addr x)
       then le_enc 4 (p_xstate kc) !!! Z.to_nat (x - addr) else ubyte (k_mem s) u x).
Proof.
  intros He Hst. pose proof He as [Hok Hrun _ Hlw Hfu _ Hu _ _ _ _ _ _ _].
  assert (lock_free LKmem (k_sync s)) as Hlk by apply (own_lock (us_own Hu)).
  set (y2 := acq (LProc np) (acq LWait (k_sync s))).
  destruct (reap_memory s p k l N u np kc Nc uc addr y2 He Hst) as (s2 & s3 & l' & E2 & E3 & Hy & Hps & Hf & Hu' & Hl' & Hb);
    [by do 2 apply acq_ok|by apply acq_free_ne; [|apply acq_free_ne]|].
  exists (set_k_sync (k_sync s) s3), l'. split_and!; [|done|done|done| |done|done].
  - unfold wait. rewrite -> (bind_Ret _ _ _ _ _ (curproc_spec s p Hok Hrun)).
    rewrite -> (bind_Ret _ _ _ _ _ (kacquire_free LWait s Hok Hlw)), bind_gets. kcbn.
    destruct (k_fuel s) as [|fuel]; [done|]. cbn [loopM].
    rewrite -> (bind_assoc _ _ _ _ _ _ (wait_found _ _ _ _ _ _ _ _ _ _ _ _ _ He E2 E3 Hy)).
    by rewrite -> bind_mret.
  - eapply uspace_moved; [exact Hu'|done|done|].
    intros b Hb'. split; [by apply (footprint_apart _ _ _ _ _ _ Hu')|done].
Qed.
End wait.

(** ** A process that waits

    The process of the example for [fork], with a child in entry 1 that has
    exited with status 7: pages 9, 10 and 11 are its table, page 12 is its
    trapframe and pages 5 to 8 are free. *)
Section small_wait.
#[local] Existing Instance image0.
#[local] Existing Instance image0_ok.

Definition kid_list : list (list Z * Z) := [([], pg 9); ([255], pg 10); ([255; 511], pg 11)].
Definition table_kid : ptree := list_to_map kid_list.
Definition mem_wait : bytemem :=
  foldl (λ m e, st64 m e.1 e.2) mem_fork
    [(pg 8, 0); (pg 9, 0); (pg 10, 0); (pg 11, 0);
     (pte_at (pg 9) 255, entry_of (pg 10)); (pte_at (pg 10) 511, entry_of (pg 11));
     (pte_at (pg 11) 511, pte_of trampoline perm_rx); (pte_at (pg 11) 510, pte_of (pg 12) perm_rw)].
Definition free_wait : list Z := [pg 5; pg 6; pg 7; pg 8].
Definition proc_kid : proc :=
  Proc ZOMBIE None 0 7 2 (Some O) (KSTACK 1) 0 (pg 9) (pg 12) context0 (replicate NOFILE None) None (replicate 16 0).
Definition kst_wait : kstate :=
  set_k_procs (<[1%nat := proc_kid]> (k_procs kst_fork)) (set_k_mem mem_wait kst_fork).

Lemma kid_inv π p : table_kid !! π = Some p → (π, p) ∈ kid_list.
Proof. apply elem_of_list_to_map_2. Qed.

Lemma free_wait_inv i : pg i ∈ free_wait → 5 ≤ i < 9.
Proof. intros Hi. repeat (apply elem_of_cons in Hi as [Hi|Hi]; [unfold pg in Hi; lia|]). by apply elem_of_nil in Hi. Qed.

Lemma lock_wait : can_lock LKmem kst_wait.
Proof. split; [exact cpu_ok_sync1|apply lock_fork; unfold all_locks; set_solver]. Qed.
Lemma kmem_wait : kmem_inv kst_wait free_wait.
Proof.
  split; [|by apply (bool_decide_unpack _); vm_compute].
  cbn [free_wait flist]. split_and!; try by apply pg_ok. all: by vm_compute.
Qed.

(** The pages of the caller are those of the example for [fork]. *)
Lemma caller_pages b : footprint [] table_fork user_small b → ∃ i, b = pg i ∧ (1 ≤ i < 5 ∨ 13 ≤ i < 15).
Proof.
  unfold user_small.
  intros [?%elem_of_nil|[[π Hp]|(j & fl & [_ [= <- _]]%lookup_singleton_Some)]]; [done| |exists 4; split; [done|lia]].
  apply table_fork_inv in Hp. unfold table_list in Hp.
  repeat (apply elem_of_cons in Hp as [Hp|Hp]; [apply pair_eq in Hp as [_ ->]; eexists; split; [done|lia]|]).
  by apply elem_of_nil in Hp.
Qed.

Lemma mem_wait_agree i : (i < 8 ∨ 12 ≤ i) → agree mem_fork mem_wait (pg i).
Proof.
  intros Hi x Hx. unfold mem_wait. cbn [foldl fst snd]. unfold st64.
  do 8 (rewrite -> ldb_stn, decide_False by (rewrite -> length_le_enc; unfold pte_at, pg in *; lia)). done.
Qed.

Lemma uspace_wait : uspace kst_wait (pg 1) free_wait table_fork user_small.
Proof.
  eapply uspace_moved; [exact uspace_fork|exact lock_wait|exact kmem_wait|].
  intros b (i & -> & Hi)%caller_pages. split; [intros ?%free_wait_inv; lia|]. apply mem_wait_agree. lia.
Qed.

Lemma leaf_kid x :
  0 ≤ x < MAXVA → x / 4096 < frame_page → leaf mem_wait table_kid x = 0.
Proof.
  intros Hx Hf. unfold leaf, leaf_page. destruct (table_kid !! [PX 2 x; PX 1 x]) as [p|] eqn:E; [|done].
  pose proof (PX_range 0 x) as Hr. rows kid_inv kid_list E. assert (PX 0 x < 510) as Hne.
  { pose proof (PX_decompose x Hx). unfold frame_page in Hf. zlia. }
  assert ((510 <=? PX 0 x) || (ld64 mem_wait (pte_at (pg 11) (PX 0 x)) =? 0) = true) as Eb; [|lia].
  by apply (all_entries (λ i, (510 <=? i) || (ld64 mem_wait (pte_at (pg 11) i) =? 0))); [vm_compute|].
Qed.

Lemma table_wait : proc_table kst_wait (pg 9) free_wait table_kid ∅ (pg 12).
Proof.
  split; [split|..].
  - split; [exact lock_wait|exact kmem_wait| |].
    + apply rep_list; [done|by apply (bool_decide_unpack _); vm_compute|]. unfold kid_list.
      repeat apply Forall_cons_2; [..|by apply Forall_nil_2]; row.
    + intros π p Hp. rows kid_inv kid_list Hp; intros ?%free_wait_inv; lia.
  - by intros j e ?%lookup_empty_Some.
  - by intros j e ?%lookup_empty_Some.
  - by intros j e ?%lookup_empty_Some.
  - by intros j e ?%lookup_empty_Some.
  - by intros j j' e e' ?%lookup_empty_Some.
  - by intros j e ?%lookup_empty_Some.
  - by vm_compute.
  - by vm_compute.
  - intros x Hx Hf _. by rw leaf_kid.
Qed.

Lemma kid_pages b : footprint [] table_kid ∅ b → ∃ i, b = pg i ∧ 9 ≤ i < 12.
Proof.
  intros [?%elem_of_nil|[[π Hp]|(j & fl & Hj)]]; [done| |by rw lookup_empty in Hj].
  rows kid_inv kid_list Hp; eexists; split; [done|lia|done|lia|done|lia].
Qed.

Lemma wait_env_small :
  wait_env kst_wait 0 proc_fork free_wait table_fork user_small 1 proc_kid table_kid ∅.
Proof.
  split; try done.
  - exact cpu_ok_sync1.
  - by eexists.
  - split; [done|]. apply procs_free_kst1.
  - apply lock_fork. unfold all_locks. set_solver.
  - exact uspace_wait.
  - intros i ki Hi Hki. assert (i = O) as -> by lia. injection Hki as <-. by intros [? _].
  - exact table_wait.
  - split; [done|]. intros j. rw lookup_empty. change ((p_sz proc_kid + 4095) / 4096) with 0.
    split; [by intros []|lia].
  - split; [by apply pg_ok|]. change (p_trapframe proc_kid) with (pg 12). rw footprint_split.
    intros [?%free_wait_inv|(i & E & Hi)%kid_pages]; [lia|unfold pg in E; lia].
  - intros b (i & -> & Hi)%caller_pages. split.
    + intros (j & E & Hj)%kid_pages. unfold pg in E. lia.
    + cbn. unfold pg. lia.
Qed.

Lemma wait_reaps_witness :
  ∃ s' l', wait 64 kst_wait = Ret 2 s' ∧ k_procs s' !! 1%nat = Some (reaped proc_kid) ∧ kmem_inv s' l' ∧
    ubyte (k_mem s') user_small 64 = 7 ∧ pg 12 ∈ l'.
Proof.
  destruct (wait_reaps kst_wait 0 proc_fork free_wait table_fork user_small 1 proc_kid table_kid ∅ 64 wait_env_small)
    as (s' & l' & E & _ & Hp & Hf & _ & Hl & Hb).
  - right. split; [lia|]. split; [done|]. intros x Hx. apply user_small_ok. lia.
  - exists s', l'. split; [exact E|]. split; [rewrite -> Hp; apply list_lookup_insert_eq, Nat.ltb_lt; vm_compute; reflexivity|]. split; [exact Hf|].
    split; [rewrite -> (Hb 64); reflexivity|apply Hl; by left].
Defined.
End small_wait.
