(* ===== verification/Exec.v ===== *)
(** * Loading programs (kernel/exec.c, elf.h)

    [argv] is an array of [MAXARG] pointers to pages that hold the argument
    strings, as [sys_exec] builds it. [goto bad] is [exec_bad] with the
    variables it looks at. *)

From S2P Require Import Prelude Riscv KState Spinlock KString Kalloc Vm Sched Layout Bio Log Fs.
From S2P Require Import Uart KPrintf Console Pipe File Process.
Open Scope Z_scope.

Definition rd64 (d : list Z) (off : Z) : Z := le_dec (bslice d off 8).

Definition ELF_MAGIC : Z := 0x464C457F.
Definition ELF_PROG_LOAD : Z := 1.

(** The fields of [struct elfhdr] and [struct proghdr] that exec.c uses. *)
Record elfhdr : Type := Elfhdr { e_magic : Z; e_entry : Z; e_phoff : Z; e_phnum : Z }.
Definition sizeof_elfhdr : Z := 64.
Definition dec_elfhdr (d : list Z) : elfhdr :=
  Elfhdr (rd32 d 0) (rd64 d 24) (rd64 d 32) (rd16 d 56).
Record proghdr : Type := Proghdr {
  ph_type : Z; ph_off : Z; ph_vaddr : Z; ph_filesz : Z; ph_memsz : Z }.
Definition sizeof_proghdr : Z := 56.
Definition dec_proghdr (d : list Z) : proghdr :=
  Proghdr (rd32 d 0) (rd64 d 8) (rd64 d 16) (rd64 d 32) (rd64 d 40).

(** The C string in the page at [a]. *)
Definition str_at (a : Z) : KM (list Z) := gets (λ s, ldn (Z.to_nat PGSIZE) (k_mem s) a).

Section exec.
Context `{Image}.

Definition loadseg_body (pagetable va : Z) (ip : nat) (offset sz i : Z) : KM (Z + Z) :=
  if negb (i <? sz) then mret (inr 0) else
  pa ← walkaddr pagetable (u64 (va + i));
  if pa =? 0 then panic "loadseg: address should exist" else
  let n := if sz - i <? PGSIZE then sz - i else PGSIZE in
  r ← readi ip (APage pa) (u32 (offset + i)) n;
  if negb (r.1 =? n) then mret (inr (-1)) else mret (inl (u32 (i + PGSIZE))).
Definition loadseg (pagetable va : Z) (ip : nat) (offset sz : Z) : KM Z :=
  loopM (Z.to_nat (sz / PGSIZE + 2)) (loadseg_body pagetable va ip offset sz) 0.

Definition exec_bad (pagetable sz : Z) (ip : option nat) : KM Z :=
  whenM (negb (pagetable =? 0)) (proc_freepagetable pagetable sz) ;;
  match ip with
  | Some ip => iunlockput ip ;; end_op
  | None => mret tt
  end ;;
  mret (-1).

(** One iteration of the loop over the program headers, on [i], [off] and
    [sz]; it ends with [sz] and whether all segments were loaded. *)
Definition exec_seg (ip : nat) (pagetable phnum : Z) (v : Z * Z * Z) : KM (Z * Z * Z + bool * Z) :=
  let '(i, off, sz) := v in
  if negb (i <? phnum) then mret (inr (true, sz)) else
  r ← readi ip (AVar []) (u32 off) sizeof_proghdr;
  if negb (r.1 =? sizeof_proghdr) then mret (inr (false, sz)) else
  let ph := dec_proghdr r.2 in
  let next := (i + 1, i32 (off + sizeof_proghdr)) in
  if negb (ph_type ph =? ELF_PROG_LOAD) then mret (inl (next, sz)) else
  if ph_memsz ph <? ph_filesz ph then mret (inr (false, sz)) else
  if u64 (ph_vaddr ph + ph_memsz ph) <? ph_vaddr ph then mret (inr (false, sz)) else
  sz1 ← uvmalloc pagetable sz (u64 (ph_vaddr ph + ph_memsz ph));
  if sz1 =? 0 then mret (inr (false, sz)) else
  if negb (ph_vaddr ph mod PGSIZE =? 0) then mret (inr (false, sz1)) else
  r ← loadseg pagetable (ph_vaddr ph) ip (u32 (ph_off ph)) (u32 (ph_filesz ph));
  if r <? 0 then mret (inr (false, sz1)) else mret (inl (next, sz1)).

(** One iteration of the loop that pushes the argument strings, on [argc],
    [sp] and [ustack]; [None] is [goto bad]. *)
Definition exec_arg (pagetable stackbase : Z) (argv : list Z) (v : Z * Z * list Z)
    : KM (Z * Z * list Z + option (Z * Z * list Z)) :=
  let '(argc, sp, ustack) := v in
  a ← deref (argv !! Z.to_nat argc);
  if a =? 0 then mret (inr (Some (argc, sp, ustack))) else
  if MAXARG <=? argc then mret (inr None) else
  s ← str_at a;
  let sp := u64 (sp - (strlen s + 1)) in
  let sp := sp - sp mod 16 in
  if sp <? stackbase then mret (inr None) else
  r ← copyout pagetable sp s (strlen s + 1);
  if r <? 0 then mret (inr None) else
  mret (inl (argc + 1, sp, ustack ++ [sp])).

(** [for(last=s=path; *s; s++) if( *s == '/') last = s+1;] *)
Fixpoint last_elem (s last : list Z) : list Z :=
  match s with
  | [] => last
  | c :: s => if c =? 0 then last else last_elem s (if c =? slash then s else last)
  end.

(** The second half of [exec], after the segments have been loaded. *)
Definition exec_stack (path argv : list Z) (pagetable sz entry : Z) : KM Z :=
  p ← curproc;
  k ← get_proc p;
  let oldsz := p_sz k in
  let sz := PGROUNDUP sz in
  sz1 ← uvmalloc pagetable sz (u64 (sz + 2 * PGSIZE));
  if sz1 =? 0 then exec_bad pagetable sz None else
  let sz := sz1 in
  uvmclear pagetable (u64 (sz - 2 * PGSIZE)) ;;
  let sp := sz in
  let stackbase := u64 (sp - PGSIZE) in
  r ← loopM (S (length argv)) (exec_arg pagetable stackbase argv) (0, sp, []);
  match r with
  | None => exec_bad pagetable sz None
  | Some (argc, sp, ustack) =>
      let ustack := ustack ++ [0] in
      let sp := u64 (sp - (argc + 1) * 8) in
      let sp := sp - sp mod 16 in
      if sp <? stackbase then exec_bad pagetable sz None else
      r ← copyout pagetable sp (ustack ≫= le_enc 8) ((argc + 1) * 8);
      if r <? 0 then exec_bad pagetable sz None else
      st_tf p tf_a1 sp ;;
      upd_proc p (λ k, set_p_name (safestrcpy (p_name k) (last_elem path path) sizeof_name) k) ;;
      k ← get_proc p;
      let oldpagetable := p_pagetable k in
      upd_proc p (set_p_pagetable pagetable) ;;
      upd_proc p (set_p_sz sz) ;;
      st_tf p tf_epc entry ;;
      st_tf p tf_sp sp ;;
      proc_freepagetable oldpagetable oldsz ;;
      mret argc
  end.

Definition exec (path argv : list Z) : KM Z :=
  p ← curproc;
  begin_op ;;
  r ← namei path;
  match r with
  | None => end_op ;; mret (-1)
  | Some ip =>
      ilock (Some ip) ;;
      r ← readi ip (AVar []) 0 sizeof_elfhdr;
      if negb (r.1 =? sizeof_elfhdr) then exec_bad 0 0 (Some ip) else
      let elf := dec_elfhdr r.2 in
      if negb (e_magic elf =? ELF_MAGIC) then exec_bad 0 0 (Some ip) else
      pagetable ← proc_pagetable p;
      if pagetable =? 0 then exec_bad 0 0 (Some ip) else
      r ← loopM (S (Z.to_nat (e_phnum elf))) (exec_seg ip pagetable (e_phnum elf))
            (0, i32 (e_phoff elf), 0);
      let '(ok, sz) := r in
      if negb ok then exec_bad pagetable sz (Some ip) else
      iunlockput ip ;;
      end_op ;;
      exec_stack path argv pagetable sz (e_entry elf)
  end.
End exec.
