(* ===== verification/Syscall.v ===== *)
(** * System calls (kernel/syscall.c, sysproc.c, sysfile.c)

    Arguments come from the trapframe of the calling process. A function that
    stores its result through a pointer returns it: [fetchstr] and [argstr]
    return the bytes stored in the caller's buffer, [argfd] the descriptor and
    the file. System calls return their 64-bit result as an integer; [syscall]
    stores it modulo 2^64. *)

From S2P Require Import Prelude Riscv KState Spinlock KString Kalloc Vm Sched Layout Bio Log Fs.
From S2P Require Import Uart KPrintf Console Pipe File Process Exec.
Open Scope Z_scope.

Section syscall.
Context `{Image}.

(** ** Arguments *)

Definition fetchaddr (addr : Z) : KM (option Z) :=
  p ← curproc;
  k ← get_proc p;
  if (p_sz k <=? addr) || (p_sz k <? u64 (addr + 8)) then mret None else
  r ← copyin (p_pagetable k) addr 8;
  if negb (r.1 =? 0) then mret None else mret (Some (le_dec r.2)).

Definition fetchstr (addr max : Z) : KM (Z * list Z) :=
  p ← curproc;
  k ← get_proc p;
  r ← copyinstr (p_pagetable k) addr max;
  let '(err, buf) := r in
  if err <? 0 then mret (err, buf) else mret (strlen buf, buf).

Definition argraw (n : Z) : KM Z :=
  p ← curproc;
  if n =? 0 then ld_tf p tf_a0
  else if n =? 1 then ld_tf p tf_a1
  else if n =? 2 then ld_tf p 128
  else if n =? 3 then ld_tf p 136
  else if n =? 4 then ld_tf p 144
  else if n =? 5 then ld_tf p 152
  else panic "argraw".
(** [argint] and [argaddr] always return 0. *)
Definition argint (n : Z) : KM Z := x ← argraw n; mret (i32 x).
Definition argaddr (n : Z) : KM Z := argraw n.
Definition argstr (n max : Z) : KM (Z * list Z) := addr ← argaddr n; fetchstr addr max.

(** ** sysproc.c *)

Definition sys_exit : KM Z := n ← argint 0; exit n.
Definition sys_getpid : KM Z := p ← curproc; k ← get_proc p; mret (p_pid k).
Definition sys_fork : KM Z := fork.
Definition sys_wait : KM Z := p ← argaddr 0; wait p.
Definition sys_sbrk : KM Z :=
  n ← argint 0;
  p ← curproc;
  k ← get_proc p;
  let addr := i32 (p_sz k) in
  r ← growproc n;
  if r <? 0 then mret (-1) else mret addr.

(** [ticks - ticks0 < n] compares with [n] converted to [uint]. *)
Definition sys_sleep : KM Z :=
  n ← argint 0;
  kacquire LTicks ;;
  ticks0 ← gets k_ticks;
  fuel ← gets k_fuel;
  loopM fuel (λ _ : unit,
    ticks ← gets k_ticks;
    if negb (u32 (ticks - ticks0) <? u32 n) then krelease LTicks ;; mret (inr 0) else
    p ← curproc;
    k ← get_proc p;
    if negb (p_killed k =? 0) then krelease LTicks ;; mret (inr (-1)) else
    sleep CTicks LTicks ;;
    mret (inl tt)) tt.

Definition sys_kill : KM Z := pid ← argint 0; kill pid.

Definition sys_uptime : KM Z :=
  kacquire LTicks ;;
  xticks ← gets k_ticks;
  krelease LTicks ;;
  mret xticks.

(** ** sysfile.c: descriptors *)

Definition argfd (n : Z) : KM (option (Z * nat)) :=
  fd ← argint n;
  if (fd <? 0) || (Z.of_nat NOFILE <=? fd) then mret None else
  p ← curproc;
  k ← get_proc p;
  mret (match p_ofile k !! Z.to_nat fd with
        | Some (Some f) => Some (fd, f)
        | _ => None
        end).

(** The first descriptor that is not in use. *)
Definition first_free (l : list (option nat)) : option nat :=
  fst <$> list_find (λ o, o = None) l.
Definition fdalloc (f : nat) : KM Z :=
  p ← curproc;
  k ← get_proc p;
  match first_free (take NOFILE (p_ofile k)) with
  | Some fd => upd_proc p (λ k, set_p_ofile (<[fd := Some f]> (p_ofile k)) k) ;; mret (Z.of_nat fd)
  | None => mret (-1)
  end.
(** [p->ofile[fd] = 0] *)
Definition fdclear (fd : Z) : KM unit :=
  p ← curproc;
  upd_proc p (λ k, set_p_ofile (<[Z.to_nat fd := None]> (p_ofile k)) k).

Definition sys_dup : KM Z :=
  r ← argfd 0;
  match r with
  | None => mret (-1)
  | Some (_, f) =>
      fd ← fdalloc f;
      if fd <? 0 then mret (-1) else
      filedup f ;;
      mret fd
  end.

Definition sys_read : KM Z :=
  r ← argfd 0;
  match r with
  | None => mret (-1)
  | Some (_, f) => n ← argint 2; p ← argaddr 1; fileread f p n
  end.
Definition sys_write : KM Z :=
  r ← argfd 0;
  match r with
  | None => mret (-1)
  | Some (_, f) => n ← argint 2; p ← argaddr 1; filewrite f p n
  end.
Definition sys_close : KM Z :=
  r ← argfd 0;
  match r with
  | None => mret (-1)
  | Some (fd, f) => fdclear fd ;; fileclose f ;; mret 0
  end.
Definition sys_fstat : KM Z :=
  r ← argfd 0;
  match r with
  | None => mret (-1)
  | Some (_, f) => st ← argaddr 1; filestat f st
  end.

(** ** sysfile.c: names *)

(** [bad:] of [sys_link]. *)
Definition sys_link_bad (ip : nat) : KM Z :=
  ilock (Some ip) ;;
  upd_inode ip (λ k, set_i_nlink (i16 (i_nlink k - 1)) k) ;;
  iupdate ip ;;
  iunlockput ip ;;
  end_op ;;
  mret (-1).

Definition sys_link : KM Z :=
  old ← argstr 0 MAXPATH;
  if old.1 <? 0 then mret (-1) else
  new ← argstr 1 MAXPATH;
  if new.1 <? 0 then mret (-1) else
  begin_op ;;
  r ← namei old.2;
  match r with
  | None => end_op ;; mret (-1)
  | Some ip =>
      ilock (Some ip) ;;
      k ← get_inode ip;
      if i_type k =? T_DIR then iunlockput ip ;; end_op ;; mret (-1) else
      upd_inode ip (λ k, set_i_nlink (i16 (i_nlink k + 1)) k) ;;
      iupdate ip ;;
      iunlock (Some ip) ;;
      r ← nameiparent new.2 name_buf;
      match r with
      | (None, _) => sys_link_bad ip
      | (Some dp, name) =>
          ilock (Some dp) ;;
          d ← get_inode dp;
          k ← get_inode ip;
          if negb (i_dev d =? i_dev k) then iunlockput dp ;; sys_link_bad ip else
          r ← dirlink dp name (i_inum k);
          if r <? 0 then iunlockput dp ;; sys_link_bad ip else
          iunlockput dp ;;
          iput ip ;;
          end_op ;;
          mret 0
      end
  end.

(** [for(off=2*sizeof(de); off<dp->size; off+=sizeof(de))] *)
Definition isdirempty (dp : nat) : KM Z :=
  k ← get_inode dp;
  r ← forM (filter (λ off, 2 * sizeof_dirent ≤ off) (dirent_offs (i_size k))) (λ off,
    de ← read_dirent "isdirempty: readi" dp off;
    mret (if negb (de_inum de =? 0) then Some 0 else None));
  mret (default 1 r).

(** [bad:] of [sys_unlink]. *)
Definition sys_unlink_bad (dp : nat) : KM Z := iunlockput dp ;; end_op ;; mret (-1).

Definition sys_unlink : KM Z :=
  path ← argstr 0 MAXPATH;
  if path.1 <? 0 then mret (-1) else
  begin_op ;;
  r ← nameiparent path.2 name_buf;
  match r with
  | (None, _) => end_op ;; mret (-1)
  | (Some dp, name) =>
      ilock (Some dp) ;;
      if (namecmp name (str ".") =? 0) || (namecmp name (str "..") =? 0) then sys_unlink_bad dp else
      r ← dirlookup dp name;
      match r with
      | None => sys_unlink_bad dp
      | Some (ip, off) =>
          ilock (Some ip) ;;
          k ← get_inode ip;
          if i_nlink k <? 1 then panic "unlink: nlink < 1" else
          busy ← (if i_type k =? T_DIR then e ← isdirempty ip; mret (e =? 0) else mret false);
          if busy : bool then iunlockput ip ;; sys_unlink_bad dp else
          r ← writei dp (AVar (replicate 16 0)) off sizeof_dirent;
          if negb (r =? sizeof_dirent) then panic "unlink: writei" else
          k ← get_inode ip;
          whenM (i_type k =? T_DIR)
            (upd_inode dp (λ d, set_i_nlink (i16 (i_nlink d - 1)) d) ;; iupdate dp) ;;
          iunlockput dp ;;
          upd_inode ip (λ k, set_i_nlink (i16 (i_nlink k - 1)) k) ;;
          iupdate ip ;;
          iunlockput ip ;;
          end_op ;;
          mret 0
      end
  end.

Definition create (path : list Z) (type major minor : Z) : KM (option nat) :=
  r ← nameiparent path name_buf;
  match r with
  | (None, _) => mret None
  | (Some dp, name) =>
      ilock (Some dp) ;;
      r ← dirlookup dp name;
      match r with
      | Some (ip, _) =>
          iunlockput dp ;;
          ilock (Some ip) ;;
          k ← get_inode ip;
          if (type =? T_FILE) && ((i_type k =? T_FILE) || (i_type k =? T_DEVICE)) then mret (Some ip)
          else iunlockput ip ;; mret None
      | None =>
          d ← get_inode dp;
          ip ← ialloc (i_dev d) type;
          ilock (Some ip) ;;
          upd_inode ip (set_i_major major) ;;
          upd_inode ip (set_i_minor minor) ;;
          upd_inode ip (set_i_nlink 1) ;;
          iupdate ip ;;
          whenM (type =? T_DIR)
            (upd_inode dp (λ d, set_i_nlink (i16 (i_nlink d + 1)) d) ;;
             iupdate dp ;;
             k ← get_inode ip;
             r ← dirlink ip (str ".") (i_inum k);
             if r <? 0 then panic "create dots" else
             d ← get_inode dp;
             r ← dirlink ip (str "..") (i_inum d);
             if r <? 0 then panic "create dots" else mret tt) ;;
          k ← get_inode ip;
          r ← dirlink dp name (i_inum k);
          if r <? 0 then panic "create: dirlink" else
          iunlockput dp ;;
          mret (Some ip)
      end
  end.

(** The rest of [sys_open], with the inode [ip] locked. *)
Definition open_inode (ip : nat) (omode : Z) : KM Z :=
  k ← get_inode ip;
  if (i_type k =? T_DEVICE) && ((i_major k <? 0) || (Z.of_nat NDEV <=? i_major k)) then
    iunlockput ip ;; end_op ;; mret (-1)
  else
  rf ← filealloc;
  match rf with
  | None => iunlockput ip ;; end_op ;; mret (-1)
  | Some f =>
      fd ← fdalloc f;
      if fd <? 0 then fileclose f ;; iunlockput ip ;; end_op ;; mret (-1) else
      (if i_type k =? T_DEVICE then
         upd_file f (set_f_type FD_DEVICE) ;;
         upd_file f (set_f_major (i_major k))
       else
         upd_file f (set_f_type FD_INODE) ;;
         upd_file f (set_f_off 0)) ;;
      upd_file f (set_f_ip (Some ip)) ;;
      upd_file f (set_f_readable (b2z (Z.land omode O_WRONLY =? 0))) ;;
      upd_file f (set_f_writable
        (b2z (negb (Z.land omode O_WRONLY =? 0) || negb (Z.land omode O_RDWR =? 0)))) ;;
      whenM (negb (Z.land omode O_TRUNC =? 0) && (i_type k =? T_FILE)) (itrunc ip) ;;
      iunlock (Some ip) ;;
      end_op ;;
      mret fd
  end.

Definition sys_open : KM Z :=
  path ← argstr 0 MAXPATH;
  if path.1 <? 0 then mret (-1) else
  omode ← argint 1;
  begin_op ;;
  if negb (Z.land omode O_CREATE =? 0) then
    r ← create path.2 T_FILE 0 0;
    match r with
    | None => end_op ;; mret (-1)
    | Some ip => open_inode ip omode
    end
  else
    r ← namei path.2;
    match r with
    | None => end_op ;; mret (-1)
    | Some ip =>
        ilock (Some ip) ;;
        k ← get_inode ip;
        if (i_type k =? T_DIR) && negb (omode =? O_RDONLY) then
          iunlockput ip ;; end_op ;; mret (-1)
        else open_inode ip omode
    end.

Definition sys_mkdir : KM Z :=
  begin_op ;;
  path ← argstr 0 MAXPATH;
  r ← (if path.1 <? 0 then mret None else create path.2 T_DIR 0 0);
  match r with
  | None => end_op ;; mret (-1)
  | Some ip => iunlockput ip ;; end_op ;; mret 0
  end.

(** [major] and [minor] are passed as [short]. *)
Definition sys_mknod : KM Z :=
  begin_op ;;
  path ← argstr 0 MAXPATH;
  r ← (if path.1 <? 0 then mret None else
       major ← argint 1;
       minor ← argint 2;
       create path.2 T_DEVICE (i16 major) (i16 minor));
  match r with
  | None => end_op ;; mret (-1)
  | Some ip => iunlockput ip ;; end_op ;; mret 0
  end.

Definition sys_chdir : KM Z :=
  p ← curproc;
  begin_op ;;
  path ← argstr 0 MAXPATH;
  r ← (if path.1 <? 0 then mret None else namei path.2);
  match r with
  | None => end_op ;; mret (-1)
  | Some ip =>
      ilock (Some ip) ;;
      k ← get_inode ip;
      if negb (i_type k =? T_DIR) then iunlockput ip ;; end_op ;; mret (-1) else
      iunlock (Some ip) ;;
      q ← get_proc p;
      cwd ← deref (p_cwd q);
      iput cwd ;;
      end_op ;;
      upd_proc p (set_p_cwd (Some ip)) ;;
      mret 0
  end.

(** ** sysfile.c: exec and pipe *)

(** [for(i = 0; i < NELEM(argv) && argv[i] != 0; i++) kfree(argv[i]);] *)
Definition free_argv (argv : list Z) : KM unit := eachM argv kfree.

(** One iteration of the loop that fetches the arguments, on [i] and the pages
    stored in [argv] so far; the loop ends with these pages and whether it
    reached the null pointer. The page of a string that could not be fetched
    is in [argv] too. *)
Definition exec_fetch (uargv : Z) (v : Z * list Z) : KM (Z * list Z + bool * list Z) :=
  let '(i, argv) := v in
  if MAXARG <=? i then mret (inr (false, argv)) else
  r ← fetchaddr (u64 (uargv + 8 * i));
  match r with
  | None => mret (inr (false, argv))
  | Some uarg =>
      if uarg =? 0 then mret (inr (true, argv)) else
      page ← kalloc;
      if page =? 0 then mret (inr (false, argv)) else
      r ← fetchstr uarg PGSIZE;
      kstore page r.2 ;;
      if r.1 <? 0 then mret (inr (false, argv ++ [page]))
      else mret (inl (i + 1, argv ++ [page]))
  end.
(** [argv] as [exec] sees it: [MAXARG] pointers, null after the arguments. *)
Definition argv_array (argv : list Z) : list Z :=
  argv ++ replicate (Z.to_nat MAXARG - length argv) 0.

Definition sys_exec : KM Z :=
  path ← argstr 0 MAXPATH;
  if path.1 <? 0 then mret (-1) else
  uargv ← argaddr 1;
  r ← loopM (S (Z.to_nat MAXARG)) (exec_fetch uargv) (0, []);
  let '(ok, argv) := r in
  ret ← (if negb ok then mret (-1) else exec path.2 (argv_array argv));
  free_argv argv ;;
  mret ret.

Definition sys_pipe : KM Z :=
  p ← curproc;
  fdarray ← argaddr 0;
  r ← pipealloc;
  match r with
  | None => mret (-1)
  | Some (rf, wf) =>
      fd0 ← fdalloc rf;
      if fd0 <? 0 then fileclose rf ;; fileclose wf ;; mret (-1) else
      fd1 ← fdalloc wf;
      if fd1 <? 0 then fdclear fd0 ;; fileclose rf ;; fileclose wf ;; mret (-1) else
      k ← get_proc p;
      r ← copyout (p_pagetable k) fdarray (le_enc 4 fd0) 4;
      r ← (if r <? 0 then mret r
           else copyout (p_pagetable k) (u64 (fdarray + 4)) (le_enc 4 fd1) 4);
      if r <? 0 then
        fdclear fd0 ;; fdclear fd1 ;; fileclose rf ;; fileclose wf ;; mret (-1)
      else mret 0
  end.

(** ** syscall.c: dispatch *)

(** [syscalls[num]], with the numbers of kernel/syscall.h. *)
Definition syscalls : list (option (KM Z)) :=
  [None; Some sys_fork; Some sys_exit; Some sys_wait; Some sys_pipe; Some sys_read; Some sys_kill;
   Some sys_exec; Some sys_fstat; Some sys_chdir; Some sys_dup; Some sys_getpid; Some sys_sbrk;
   Some sys_sleep; Some sys_uptime; Some sys_open; Some sys_write; Some sys_mknod;
   Some sys_unlink; Some sys_link; Some sys_mkdir; Some sys_close].

Definition syscall : KM unit :=
  p ← curproc;
  a7 ← ld_tf p tf_a7;
  let num := i32 a7 in
  match (if (0 <? num) && (num <? Z.of_nat (length syscalls))
         then mjoin (syscalls !! Z.to_nat num) else None) with
  | Some f => r ← f; st_tf p tf_a0 (u64 r)
  | None =>
      k ← get_proc p;
      printf (str "%d %s: unknown sys call %d" ++ [10])
        [AInt (p_pid k); AStr (Some (p_name k)); AInt num] ;;
      st_tf p tf_a0 (u64 (-1))
  end.
End syscall.
