(* ===== verification/Virtio.v ===== *)
(** * The disk driver (kernel/virtio_disk.c, virtio.h)

    The driver's state [struct disk], with the descriptor table, the [avail]
    ring and the [used] ring, and the operations on it. The device is on the
    other side of the rings and not defined here: what the driver relies on is
    the class [Device] of VirtioCorrect. Registers read what [vd_in]
    says, and writes to them are recorded in [vd_out]. *)

From S2P Require Import Prelude Riscv KState Spinlock KString Kalloc Vm Sched Layout Bio.
Open Scope Z_scope.

(** ** virtio.h *)

Definition VIRTIO_MMIO_MAGIC_VALUE : Z := 0x000.
Definition VIRTIO_MMIO_VERSION : Z := 0x004.
Definition VIRTIO_MMIO_DEVICE_ID : Z := 0x008.
Definition VIRTIO_MMIO_VENDOR_ID : Z := 0x00c.
Definition VIRTIO_MMIO_DEVICE_FEATURES : Z := 0x010.
Definition VIRTIO_MMIO_DRIVER_FEATURES : Z := 0x020.
Definition VIRTIO_MMIO_GUEST_PAGE_SIZE : Z := 0x028.
Definition VIRTIO_MMIO_QUEUE_SEL : Z := 0x030.
Definition VIRTIO_MMIO_QUEUE_NUM_MAX : Z := 0x034.
Definition VIRTIO_MMIO_QUEUE_NUM : Z := 0x038.
Definition VIRTIO_MMIO_QUEUE_PFN : Z := 0x040.
Definition VIRTIO_MMIO_QUEUE_NOTIFY : Z := 0x050.
Definition VIRTIO_MMIO_INTERRUPT_STATUS : Z := 0x060.
Definition VIRTIO_MMIO_INTERRUPT_ACK : Z := 0x064.
Definition VIRTIO_MMIO_STATUS : Z := 0x070.
Definition VIRTIO_CONFIG_S_ACKNOWLEDGE : Z := 1.
Definition VIRTIO_CONFIG_S_DRIVER : Z := 2.
Definition VIRTIO_CONFIG_S_DRIVER_OK : Z := 4.
Definition VIRTIO_CONFIG_S_FEATURES_OK : Z := 8.
Definition VIRTIO_BLK_F_RO : Z := 5.
Definition VIRTIO_BLK_F_SCSI : Z := 7.
Definition VIRTIO_BLK_F_CONFIG_WCE : Z := 11.
Definition VIRTIO_BLK_F_MQ : Z := 12.
Definition VIRTIO_F_ANY_LAYOUT : Z := 27.
Definition VIRTIO_RING_F_INDIRECT_DESC : Z := 28.
Definition VIRTIO_RING_F_EVENT_IDX : Z := 29.
Definition NUM : nat := 8.
Definition VRING_DESC_F_NEXT : Z := 1.
Definition VRING_DESC_F_WRITE : Z := 2.
Definition VIRTIO_BLK_T_IN : Z := 0.
Definition VIRTIO_BLK_T_OUT : Z := 1.
Definition sizeof_blk_req : Z := 16.

(** ** Access to [disk] *)

Definition get_disk : KM vdisk := gets k_vdisk.
Definition upd_disk (f : vdisk → vdisk) : KM unit := modify (λ s, set_k_vdisk (f (k_vdisk s)) s).
Definition R_read (r : Z) : KM Z := d ← get_disk; mret (default 0 (vd_in d !! r)).
Definition R_write (r v : Z) : KM unit :=
  upd_disk (λ d, set_vd_out (vd_out d ++ [(r, u32 v)]) d).

Definition get_desc (i : Z) : KM vdesc := d ← get_disk; deref (vd_desc d !! Z.to_nat i).
Definition upd_desc (i : Z) (f : vdesc → vdesc) : KM unit :=
  upd_disk (λ d, set_vd_desc (alter f (Z.to_nat i) (vd_desc d)) d).

(** ** virtio_disk.c *)

(** [features &= ~(1 << bit)] *)
Definition clear_bit (features bit : Z) : Z := Z.land features (Z.lnot (Z.shiftl 1 bit)).

Section virtio.
Context `{Image}.

Definition virtio_disk_init : KM unit :=
  kinitlock LVdisk "virtio_disk" ;;
  magic ← R_read VIRTIO_MMIO_MAGIC_VALUE;
  version ← R_read VIRTIO_MMIO_VERSION;
  device ← R_read VIRTIO_MMIO_DEVICE_ID;
  vendor ← R_read VIRTIO_MMIO_VENDOR_ID;
  if negb (magic =? 0x74726976) || negb (version =? 1) || negb (device =? 2)
     || negb (vendor =? 0x554d4551)
  then panic "could not find virtio disk" else
  let status := VIRTIO_CONFIG_S_ACKNOWLEDGE in
  R_write VIRTIO_MMIO_STATUS status ;;
  let status := Z.lor status VIRTIO_CONFIG_S_DRIVER in
  R_write VIRTIO_MMIO_STATUS status ;;
  features ← R_read VIRTIO_MMIO_DEVICE_FEATURES;
  R_write VIRTIO_MMIO_DRIVER_FEATURES
    (foldl clear_bit features
       [VIRTIO_BLK_F_RO; VIRTIO_BLK_F_SCSI; VIRTIO_BLK_F_CONFIG_WCE; VIRTIO_BLK_F_MQ;
        VIRTIO_F_ANY_LAYOUT; VIRTIO_RING_F_EVENT_IDX; VIRTIO_RING_F_INDIRECT_DESC]) ;;
  let status := Z.lor status VIRTIO_CONFIG_S_FEATURES_OK in
  R_write VIRTIO_MMIO_STATUS status ;;
  let status := Z.lor status VIRTIO_CONFIG_S_DRIVER_OK in
  R_write VIRTIO_MMIO_STATUS status ;;
  R_write VIRTIO_MMIO_GUEST_PAGE_SIZE PGSIZE ;;
  R_write VIRTIO_MMIO_QUEUE_SEL 0 ;;
  max ← R_read VIRTIO_MMIO_QUEUE_NUM_MAX;
  if max =? 0 then panic "virtio disk has no queue 0" else
  if max <? Z.of_nat NUM then panic "virtio disk max queue too short" else
  R_write VIRTIO_MMIO_QUEUE_NUM (Z.of_nat NUM) ;;
  upd_disk (set_vd_desc (replicate NUM (Vdesc DNull 0 0 0))) ;;
  upd_disk (set_vd_avail_idx 0) ;;
  upd_disk (set_vd_avail_ring (replicate NUM 0)) ;;
  upd_disk (set_vd_used_didx 0) ;;
  upd_disk (set_vd_used_ring (replicate NUM 0)) ;;
  R_write VIRTIO_MMIO_QUEUE_PFN (Z.shiftr disk_pages PGSHIFT) ;;
  upd_disk (set_vd_free (replicate NUM 1)).
End virtio.

(** The descriptor found by the loop of [alloc_desc]. *)
Definition find_desc (free : list Z) : option nat := fst <$> list_find (λ x, x ≠ 0) free.
Definition alloc_desc : KM Z :=
  d ← get_disk;
  match find_desc (vd_free d) with
  | Some i => upd_disk (λ d, set_vd_free (<[i := 0]> (vd_free d)) d) ;; mret (Z.of_nat i)
  | None => mret (-1)
  end.

Definition free_desc (i : Z) : KM unit :=
  if Z.of_nat NUM <=? i then panic "free_desc 1" else
  d ← get_disk;
  if negb (zget (vd_free d) i =? 0) then panic "free_desc 2" else
  upd_desc i (λ _, Vdesc DNull 0 0 0) ;;
  upd_disk (λ d, set_vd_free (zset (vd_free d) i 1) d) ;;
  wakeup CDiskFree.

(** A chain has at most [NUM] descriptors: [free_desc] panics on the second
    visit of one. *)
Definition free_chain_body (i : Z) : KM (Z + unit) :=
  k ← get_desc i;
  let flag := ds_flags k in
  let nxt := ds_next k in
  free_desc i ;;
  mret (if negb (Z.land flag VRING_DESC_F_NEXT =? 0) then inl nxt else inr tt).
Definition free_chain (i : Z) : KM unit := loopM (S NUM) free_chain_body i.

(** The three indices, or [None] for the result -1. *)
Definition alloc3_desc : KM (option (Z * Z * Z)) :=
  i0 ← alloc_desc;
  if i0 <? 0 then mret None else
  i1 ← alloc_desc;
  if i1 <? 0 then free_desc i0 ;; mret None else
  i2 ← alloc_desc;
  if i2 <? 0 then free_desc i0 ;; free_desc i1 ;; mret None else
  mret (Some (i0, i1, i2)).

(** The part of [virtio_disk_rw] that formats the descriptors. *)
Definition format_request (b : nat) (write sector : Z) (i0 i1 i2 : Z) : KM unit :=
  upd_disk (λ d, set_vd_ops (zset (vd_ops d) i0
    (Vreq (if negb (write =? 0) then VIRTIO_BLK_T_OUT else VIRTIO_BLK_T_IN) 0 sector)) d) ;;
  upd_desc i0 (λ _, Vdesc (DOp (Z.to_nat i0)) sizeof_blk_req VRING_DESC_F_NEXT (u16 i1)) ;;
  upd_desc i1 (λ _, Vdesc (DData b) BSIZE
    (Z.lor (if negb (write =? 0) then 0 else VRING_DESC_F_WRITE) VRING_DESC_F_NEXT) (u16 i2)) ;;
  upd_disk (λ d, set_vd_info_status (zset (vd_info_status d) i0 0xff) d) ;;
  upd_desc i2 (λ _, Vdesc (DStatus (Z.to_nat i0)) 1 VRING_DESC_F_WRITE 0) ;;
  upd_buf b (set_b_disk 1) ;;
  upd_disk (λ d, set_vd_info_b (zset (vd_info_b d) i0 (Some b)) d).

(** Giving the request to the device. *)
Definition submit_request (i0 : Z) : KM unit :=
  upd_disk (λ d, set_vd_avail_ring (zset (vd_avail_ring d) (vd_avail_idx d mod Z.of_nat NUM) i0) d) ;;
  upd_disk (λ d, set_vd_avail_idx (u16 (vd_avail_idx d + 1)) d) ;;
  R_write VIRTIO_MMIO_QUEUE_NOTIFY 0.

(** The bodies of its two loops: until there are descriptors, and until
    [virtio_disk_intr] says the request has finished. *)
Definition alloc_body (_ : unit) : KM (unit + Z * Z * Z) :=
  r ← alloc3_desc;
  match r with
  | Some idx => mret (inr idx)
  | None => sleep CDiskFree LVdisk ;; mret (inl tt)
  end.
Definition wait_body (b : nat) (_ : unit) : KM (unit + unit) :=
  k ← get_buf b;
  if b_disk k =? 1 then sleep (CBuf b) LVdisk ;; mret (inl tt) else mret (inr tt).

Definition virtio_disk_rw (b : nat) (write : Z) : KM unit :=
  k ← get_buf b;
  let sector := u32 (b_blockno k * (BSIZE / 512)) in
  kacquire LVdisk ;;
  fuel ← gets k_fuel;
  idx ← loopM fuel alloc_body tt;
  let '(i0, i1, i2) := idx in
  format_request b write sector i0 i1 i2 ;;
  submit_request i0 ;;
  loopM fuel (wait_body b) tt ;;
  upd_disk (λ d, set_vd_info_b (zset (vd_info_b d) i0 None) d) ;;
  free_chain i0 ;;
  krelease LVdisk.

(** One iteration of the loop of [virtio_disk_intr]. *)
Definition intr_body (_ : unit) : KM (unit + unit) :=
  d ← get_disk;
  if vd_used_idx d =? vd_used_didx d then mret (inr tt) else
  let id := zget (vd_used_ring d) (vd_used_idx d mod Z.of_nat NUM) in
  st ← deref (vd_info_status d !! Z.to_nat id);
  if negb (st =? 0) then panic "virtio_disk_intr status" else
  b ← deref (zget (vd_info_b d) id);
  upd_buf b (set_b_disk 0) ;;
  wakeup (CBuf b) ;;
  upd_disk (λ d, set_vd_used_idx (u16 (vd_used_idx d + 1)) d) ;;
  mret (inl tt).
Definition virtio_disk_intr : KM unit :=
  kacquire LVdisk ;;
  status ← R_read VIRTIO_MMIO_INTERRUPT_STATUS;
  R_write VIRTIO_MMIO_INTERRUPT_ACK (Z.land status 0x3) ;;
  d ← get_disk;
  loopM (S (Z.to_nat (u16 (vd_used_didx d - vd_used_idx d)))) intr_body tt ;;
  krelease LVdisk.
