(* ===== verification/VirtioCorrect.v ===== *)
(** * A disk request from start to end (kernel/virtio_disk.c)

    [virtio_disk_rw] gives a request to the device and sleeps, the device
    serves it, [virtio_disk_intr] wakes the sleeper, and the sleeper frees the
    descriptors. The whole has the effect of [disk_rw], on which the buffer
    cache and the file system above it are built.

    The device is a parameter: the class [Device] states what the virtio
    specification says a legacy block device does with the chain of
    descriptors at the next entry of the [avail] ring. *)

From S2P Require Import Prelude Riscv KState Spinlock KString Kalloc Vm Sched Layout Bio Virtio.
Open Scope Z_scope.

(** ** The device *)

(** Two sectors, those of block [bno], are written from or read into buffer [b]. *)
Definition moved (b : nat) (k : buf) (type bno : Z) (s : kstate) : kstate :=
  if type =? VIRTIO_BLK_T_OUT then
    set_k_dtrace (k_dtrace s ++ [(bno, b_data k)]) (set_k_disk (<[bno := b_data k]> (k_disk s)) s)
  else set_k_bufs (alter (set_b_data (dblock (k_disk s) bno)) b (k_bufs s)) s.

(** The status byte at [j] says success and the chain [i0] is in the [used] ring. *)
Definition completed (i0 : Z) (j : nat) (d : vdisk) : vdisk :=
  set_vd_seen (u16 (vd_seen d + 1))
    (set_vd_used_didx (u16 (vd_used_didx d + 1))
       (set_vd_used_ring (zset (vd_used_ring d) (vd_used_didx d mod Z.of_nat NUM) i0)
          (set_vd_info_status (<[j := 0]> (vd_info_status d)) d))).

(** The next request the device sees is the chain [i0], [i1], [i2]: a header
    with [type] and the sector of block [bno], the data of buffer [b], writable
    by the device when it is to read the disk, and a writable status byte. *)
Record requested (d : vdisk) (i0 i1 i2 : Z) (op b j : nat) (type bno : Z) : Prop := {
  rq_new : vd_seen d ≠ vd_avail_idx d;
  rq_head : zget (vd_avail_ring d) (vd_seen d mod Z.of_nat NUM) = i0;
  rq_d0 : vd_desc d !! Z.to_nat i0 = Some (Vdesc (DOp op) sizeof_blk_req VRING_DESC_F_NEXT i1);
  rq_d1 : vd_desc d !! Z.to_nat i1 = Some (Vdesc (DData b) BSIZE
            (Z.lor (if type =? VIRTIO_BLK_T_OUT then 0 else VRING_DESC_F_WRITE) VRING_DESC_F_NEXT) i2);
  rq_d2 : vd_desc d !! Z.to_nat i2 = Some (Vdesc (DStatus j) 1 VRING_DESC_F_WRITE 0);
  rq_op : vd_ops d !! op = Some (Vreq type 0 (2 * bno));
  rq_ty : type = VIRTIO_BLK_T_OUT ∨ type = VIRTIO_BLK_T_IN
}.

Class Device (dev : KM unit) : Prop := {
  dev_serves : ∀ s k i0 i1 i2 op b j type bno,
    requested (k_vdisk s) i0 i1 i2 op b j type bno → k_bufs s !! b = Some k →
    dev s = Ret tt (set_k_vdisk (completed i0 j (k_vdisk s)) (moved b k type bno s))
}.

(** ** Descriptors *)

Definition nfree (l : list Z) : nat := length (filter (λ x, x ≠ 0) l).

Lemma nfree_insert l i x :
  l !! i = Some x → x ≠ 0 → nfree l = S (nfree (<[i := 0]> l)).
Proof.
  unfold nfree. revert i. induction l as [|y l IH]; intros [|i] Hi Hx; try done; cbn in Hi.
  - injection Hi as ->. change (<[0%nat := 0]> (x :: l)) with (0 :: l).
    rw filter_cons_True // filter_cons_False //.
  - change (<[S i := 0]> (y :: l)) with (y :: <[i := 0]> l).
    rw !filter_cons. case_decide; cbn [length]; by rw (IH i).
Qed.

Lemma find_desc_Some l :
  (0 < nfree l)%nat → ∃ i x, find_desc l = Some i ∧ l !! i = Some x ∧ x ≠ 0.
Proof.
  intros Hn. unfold find_desc. destruct (list_find (λ x, x ≠ 0) l) as [[i x]|] eqn:E.
  - apply list_find_Some in E as (Hi & Hx & _). by exists i, x.
  - exfalso. apply list_find_None in E. revert Hn. unfold nfree.
    induction E as [|y l Hy _ IH]; [cbn; lia|]. by rw filter_cons_False.
Qed.
Lemma find_desc_None l : nfree l = O → find_desc l = None.
Proof.
  intros Hn. unfold find_desc. destruct (list_find (λ x, x ≠ 0) l) as [[i x]|] eqn:E; [|done].
  apply list_find_Some in E as (Hi & Hx & _). by rw (nfree_insert _ _ _ Hi Hx) in Hn.
Qed.

Lemma alloc_desc_ok s i :
  find_desc (vd_free (k_vdisk s)) = Some i →
  alloc_desc s = Ret (Z.of_nat i)
    (set_k_vdisk (set_vd_free (<[i := 0]> (vd_free (k_vdisk s))) (k_vdisk s)) s).
Proof. intros E. unfold alloc_desc, get_disk. rw bind_gets E. done. Qed.
Lemma alloc_desc_none s :
  find_desc (vd_free (k_vdisk s)) = None → alloc_desc s = Ret (-1) s.
Proof. intros E. unfold alloc_desc, get_disk. by rw bind_gets E. Qed.

(** The hart may call [wakeup]. *)
Record wenv (m : option nat) (s : kstate) : Prop := {
  we_ok : cpu_ok (k_sync s);
  we_run : running m (k_sync s);
  we_procs : procs_free s
}.

Definition freed (i : Z) (d : vdisk) : vdisk :=
  set_vd_free (zset (vd_free d) i 1)
    (set_vd_desc (alter (λ _, Vdesc DNull 0 0 0) (Z.to_nat i) (vd_desc d)) d).

Lemma wenv_keep m s f ps :
  wenv m s → length ps = length (k_procs s) → wenv m (set_k_procs ps (set_k_vdisk f s)).
Proof. intros [Ho Hr [Hl Hf]] Hp. split; [done|done|]. split; [cbn; congruence|done]. Qed.

Lemma free_desc_ok s m i :
  wenv m s → (i < NUM)%nat → vd_free (k_vdisk s) !! i = Some 0 →
  ∃ ps, free_desc i s = Ret tt (set_k_procs ps (set_k_vdisk (freed i (k_vdisk s)) s)) ∧
    length ps = length (k_procs s).
Proof.
  intros He Hi Hf. exists (imap (wake CDiskFree m) (k_procs s)). split; [|by rw length_imap].
  unfold free_desc, get_disk. rewrite -> (proj2 (Z.leb_gt (Z.of_nat NUM) i)) by lia. cbv iota.
  msimp. unfold zget. rw Nat2Z.id (list_lookup_total_correct _ _ _ Hf). cbn [Z.eqb negb].
  unfold upd_desc, upd_disk. msimp.
  destruct He as [Ho Hr Hp]. apply (wakeup_spec (set_k_vdisk (freed i (k_vdisk s)) s) CDiskFree m Ho Hr Hp).
Qed.

(** The state of the driver: its tables have [NUM] entries. *)
Record disk_ok (d : vdisk) : Prop := {
  do_desc : length (vd_desc d) = NUM;
  do_avail : length (vd_avail_ring d) = NUM;
  do_used : length (vd_used_ring d) = NUM;
  do_free : length (vd_free d) = NUM;
  do_info : length (vd_info_b d) = NUM;
  do_status : length (vd_info_status d) = NUM;
  do_ops : length (vd_ops d) = NUM;
  do_avail_idx : 0 ≤ vd_avail_idx d < 2 ^ 16;
  do_used_idx : 0 ≤ vd_used_idx d < 2 ^ 16;
  do_flags : Forall (λ x, x = 0 ∨ x = 1) (vd_free d)
}.

(** Three descriptors that are free, and the state with them taken. *)
Record three (free : list Z) (i0 i1 i2 : nat) : Prop := {
  th_0 : free !! i0 = Some 1;
  th_1 : free !! i1 = Some 1;
  th_2 : free !! i2 = Some 1;
  th_01 : i0 ≠ i1;
  th_02 : i0 ≠ i2;
  th_12 : i1 ≠ i2
}.
Definition take3 (i0 i1 i2 : nat) (d : vdisk) : vdisk :=
  set_vd_free (<[i2 := 0]> (<[i1 := 0]> (<[i0 := 0]> (vd_free d)))) d.

Lemma flag_one (l : list Z) i x : Forall (λ x, x = 0 ∨ x = 1) l → l !! i = Some x → x ≠ 0 → x = 1.
Proof. intros Hl Hi Hx. by destruct (Forall_lookup_1 _ _ _ _ Hl Hi). Qed.

(** [alloc_desc] takes a free descriptor, if there is one. *)
Lemma alloc_desc_spec s :
  Forall (λ x, x = 0 ∨ x = 1) (vd_free (k_vdisk s)) →
  (∃ i : nat, vd_free (k_vdisk s) !! i = Some 1 ∧
     alloc_desc s = Ret (Z.of_nat i)
       (set_k_vdisk (set_vd_free (<[i := 0]> (vd_free (k_vdisk s))) (k_vdisk s)) s)) ∨
  nfree (vd_free (k_vdisk s)) = O ∧ alloc_desc s = Ret (-1) s.
Proof.
  intros Hf. destruct (decide (nfree (vd_free (k_vdisk s)) = O)) as [E|E].
  - right. split; [done|]. by apply alloc_desc_none, find_desc_None.
  - left. destruct (find_desc_Some (vd_free (k_vdisk s))) as (i & x & Hi & Hx & Hn); [lia|].
    exists i. pose proof (flag_one _ _ _ Hf Hx Hn) as ->. split; [done|]. by apply alloc_desc_ok.
Qed.

Lemma flags_insert (l : list Z) i x :
  x = 0 ∨ x = 1 → Forall (λ x, x = 0 ∨ x = 1) l → Forall (λ x, x = 0 ∨ x = 1) (<[i := x]> l).
Proof. intros Hx Hl. by apply Forall_insert. Qed.

Lemma insert_back (l : list Z) i x y : l !! i = Some x → <[i := x]> (<[i := y]> l) = l.
Proof. intros Hi. rw list_insert_insert_eq. by apply list_insert_id. Qed.

Lemma unset_ne (l : list Z) (i j : nat) : <[i := 0]> l !! j = Some 1 → i ≠ j ∧ l !! j = Some 1.
Proof.
  intros Hj. destruct (decide (i = j)) as [->|Hne].
  - apply list_lookup_insert_Some in Hj. naive_solver.
  - by rw list_lookup_insert_ne in Hj.
Qed.

Lemma flag_ne (l : list Z) (i j : nat) : l !! i = Some 1 → l !! j = Some 0 → i ≠ j.
Proof. intros Hi Hj ->. by rw Hi in Hj. Qed.

(** [free_desc] undoes [alloc_desc]. *)
Lemma free_desc_undo s m (fr : list Z) i :
  wenv m s → (i < NUM)%nat → length fr = NUM → fr !! i = Some 1 →
  vd_free (k_vdisk s) = <[i := 0]> fr →
  ∃ s', free_desc i s = Ret tt s' ∧ wenv m s' ∧ vd_free (k_vdisk s') = fr ∧
    ∀ j, j ≠ i → vd_desc (k_vdisk s') !! j = vd_desc (k_vdisk s) !! j.
Proof.
  intros He Hi Hl Hf E. destruct (free_desc_ok s m i He Hi) as (ps & Ef & Hps).
  { rw E list_lookup_insert_eq //. lia. }
  eexists. split; [exact Ef|]. split; [by apply wenv_keep|]. cbn. unfold zset. rw Nat2Z.id E.
  split; [by apply insert_back|]. intros j Hj. by apply list_lookup_alter_ne.
Qed.

Lemma alloc3_spec s m :
  wenv m s → disk_ok (k_vdisk s) →
  (∃ i0 i1 i2, three (vd_free (k_vdisk s)) i0 i1 i2 ∧
     alloc3_desc s = Ret (Some (Z.of_nat i0, Z.of_nat i1, Z.of_nat i2))
       (set_k_vdisk (take3 i0 i1 i2 (k_vdisk s)) s)) ∨
  (nfree (vd_free (k_vdisk s)) < 3)%nat ∧
  ∃ s', alloc3_desc s = Ret None s' ∧ vd_free (k_vdisk s') = vd_free (k_vdisk s) ∧
    ∀ i, vd_free (k_vdisk s) !! i = Some 0 → vd_desc (k_vdisk s') !! i = vd_desc (k_vdisk s) !! i.
Proof.
  intros He Hd. set (fr := vd_free (k_vdisk s)). pose proof (do_flags _ Hd) as Hf0. unfold alloc3_desc.
  destruct (alloc_desc_spec s Hf0) as [(i0 & H0 & E0)|[H0 E0]]; mstep E0.
  2: { right. split; [unfold fr; lia|]. by exists s. }
  rewrite -> (proj2 (Z.ltb_ge i0 0)) by lia. cbv iota.
  set (s0 := set_k_vdisk _ s). assert (vd_free (k_vdisk s0) = <[i0 := 0]> fr) as F0 by done.
  assert (Forall (λ x, x = 0 ∨ x = 1) (<[i0 := 0]> fr)) as Hf1 by (apply flags_insert; [by left|done]).
  pose proof (nfree_insert fr i0 1 H0 ltac:(done)) as N0.
  assert ((i0 < NUM)%nat) as L0 by (rw -(do_free _ Hd); by eapply lookup_lt_Some).
  destruct (alloc_desc_spec s0) as [(i1 & H1 & E1)|[H1 E1]]; [by rw F0| |]; mstep E1.
  2: { right. rw F0 in H1. split; [lia|]. cbn [Z.ltb Z.compare].
       destruct (free_desc_undo s0 m fr i0) as (s' & E & _ & Ef & Ed);
         [by destruct He|done|by apply do_free|done|done|].
       mstep E. exists s'. split; [done|]. split; [done|]. intros i Hi. rw Ed //.
       by apply not_eq_sym, (flag_ne fr). }
  rewrite -> (proj2 (Z.ltb_ge i1 0)) by lia. cbv iota. rw F0 in H1. destruct (unset_ne _ _ _ H1) as [N01 H1'].
  set (s1 := set_k_vdisk _ s0). assert (vd_free (k_vdisk s1) = <[i1 := 0]> (<[i0 := 0]> fr)) as F1 by done.
  pose proof (nfree_insert _ i1 1 H1 ltac:(done)) as N1.
  assert ((i1 < NUM)%nat) as L1 by (rw -(do_free _ Hd); by eapply lookup_lt_Some).
  destruct (alloc_desc_spec s1) as [(i2 & H2 & E2)|[H2 E2]]; [rw F1; apply flags_insert; [by left|done]| |]; mstep E2.
  - left. exists i0, i1, i2. rewrite -> (proj2 (Z.ltb_ge i2 0)) by lia. rw F1 in H2.
    destruct (unset_ne _ _ _ H2) as [N12 H2']. destruct (unset_ne _ _ _ H2') as [N02 H2''].
    split; [by split|]. done.
  - right. rw F1 in H2. split; [lia|]. cbn [Z.ltb Z.compare]. rw list_insert_insert_ne // in F1.
    destruct (free_desc_undo s1 m (<[i1 := 0]> fr) i0) as (s2 & E & He2 & Ef & Ed);
      [by destruct He|done|by rw length_insert; apply do_free|by rw list_lookup_insert_ne|done|].
    mstep E. destruct (free_desc_undo s2 m fr i1) as (s' & E' & _ & Ef' & Ed');
      [done|done|by apply do_free|done|done|].
    mstep E'. exists s'. split; [done|]. split; [done|]. intros i Hi. rw Ed' ?Ed //.
    + by apply not_eq_sym, (flag_ne fr).
    + by apply not_eq_sym, (flag_ne fr).
Qed.

(** [alloc3_desc] takes three different free descriptors, or, when fewer
    than three are free, reports -1 with the set of free descriptors and every
    descriptor in use as they were. *)
Theorem alloc3_all_or_nothing s m :
  wenv m s → disk_ok (k_vdisk s) →
  (∃ i0 i1 i2, three (vd_free (k_vdisk s)) i0 i1 i2 ∧
     alloc3_desc s = Ret (Some (Z.of_nat i0, Z.of_nat i1, Z.of_nat i2))
       (set_k_vdisk (take3 i0 i1 i2 (k_vdisk s)) s)) ∨
  (nfree (vd_free (k_vdisk s)) < 3)%nat ∧
  ∃ s', alloc3_desc s = Ret None s' ∧ vd_free (k_vdisk s') = vd_free (k_vdisk s) ∧
    ∀ i, vd_free (k_vdisk s) !! i = Some 0 → vd_desc (k_vdisk s') !! i = vd_desc (k_vdisk s) !! i.
Proof. exact (alloc3_spec s m). Qed.

(** ** The request *)

Definition op_type (write : Z) : Z := if negb (write =? 0) then VIRTIO_BLK_T_OUT else VIRTIO_BLK_T_IN.

(** What [format_request] and [submit_request] do to [disk]. *)
Definition formatted (b : nat) (write sector : Z) (i0 i1 i2 : nat) (d : vdisk) : vdisk :=
  set_vd_info_b (<[i0 := Some b]> (vd_info_b d))
    (set_vd_desc
       (alter (λ _, Vdesc (DStatus i0) 1 VRING_DESC_F_WRITE 0) i2
          (alter (λ _, Vdesc (DData b) BSIZE
                         (Z.lor (if negb (write =? 0) then 0 else VRING_DESC_F_WRITE) VRING_DESC_F_NEXT) i2) i1
             (alter (λ _, Vdesc (DOp i0) sizeof_blk_req VRING_DESC_F_NEXT i1) i0 (vd_desc d))))
       (set_vd_info_status (<[i0 := 0xff]> (vd_info_status d))
          (set_vd_ops (<[i0 := Vreq (op_type write) 0 sector]> (vd_ops d)) d))).
Definition submitted (i0 : nat) (d : vdisk) : vdisk :=
  set_vd_out (vd_out d ++ [(VIRTIO_MMIO_QUEUE_NOTIFY, 0)])
    (set_vd_avail_idx (u16 (vd_avail_idx d + 1))
       (set_vd_avail_ring (zset (vd_avail_ring d) (vd_avail_idx d mod Z.of_nat NUM) i0) d)).

Lemma format_request_ok s b w sector (i0 i1 i2 : nat) :
  (i1 < NUM)%nat → (i2 < NUM)%nat →
  format_request b w sector i0 i1 i2 s =
    Ret tt (set_k_bufs (alter (set_b_disk 1) b (k_bufs s))
              (set_k_vdisk (formatted b w sector i0 i1 i2 (k_vdisk s)) s)).
Proof.
  intros H1 H2. unfold format_request, upd_desc, upd_disk, upd_buf. msimp. unfold modify, zset.
  rw !Nat2Z.id. unfold NUM in *. rewrite -> (u16_small i1), (u16_small i2) by lia. by destruct s.
Qed.
Lemma submit_request_ok s (i0 : nat) :
  submit_request i0 s = Ret tt (set_k_vdisk (submitted i0 (k_vdisk s)) s).
Proof. unfold submit_request, R_write, upd_disk. msimp. by destruct s. Qed.

(** The descriptors of a request that is with the device. *)
Record chain (d : vdisk) (b : nat) (flags : Z) (i0 i1 i2 : nat) : Prop := {
  ch_0 : vd_desc d !! i0 = Some (Vdesc (DOp i0) sizeof_blk_req VRING_DESC_F_NEXT i1);
  ch_1 : vd_desc d !! i1 = Some (Vdesc (DData b) BSIZE (Z.lor flags VRING_DESC_F_NEXT) i2);
  ch_2 : vd_desc d !! i2 = Some (Vdesc (DStatus i0) 1 VRING_DESC_F_WRITE 0)
}.

Definition in_flight (b : nat) (w bno : Z) (i0 i1 i2 : nat) (d : vdisk) : vdisk :=
  submitted i0 (formatted b w (2 * bno) i0 i1 i2 (take3 i0 i1 i2 d)).

Lemma three_lt d i0 i1 i2 :
  disk_ok d → three (vd_free d) i0 i1 i2 → (i0 < NUM)%nat ∧ (i1 < NUM)%nat ∧ (i2 < NUM)%nat.
Proof.
  intros Hd [H0 H1 H2 _ _ _]. rw -(do_free _ Hd). split_and!; by eapply lookup_lt_Some.
Qed.

Lemma lookup_alter_const (l : list vdesc) i x : (i < length l)%nat → alter (λ _, x) i l !! i = Some x.
Proof. intros Hi. rw list_lookup_alter_eq. by destruct (lookup_lt_is_Some_2 l i Hi) as [y ->]. Qed.

Lemma in_flight_chain b w bno d i0 i1 i2 :
  disk_ok d → three (vd_free d) i0 i1 i2 →
  chain (in_flight b w bno i0 i1 i2 d) b (if negb (w =? 0) then 0 else VRING_DESC_F_WRITE) i0 i1 i2.
Proof.
  intros Hd Ht. destruct (three_lt _ _ _ _ Hd Ht) as (L0 & L1 & L2). rw -(do_desc _ Hd) in L0, L1, L2.
  destruct Ht as [_ _ _ N01 N02 N12]. split; cbn.
  - rw list_lookup_alter_ne // list_lookup_alter_ne //. by apply lookup_alter_const.
  - rw list_lookup_alter_ne //. apply lookup_alter_const. by rw length_alter.
  - apply lookup_alter_const. by rw !length_alter.
Qed.

Lemma in_flight_requested b w bno d i0 i1 i2 :
  disk_ok d → vd_seen d = vd_avail_idx d → three (vd_free d) i0 i1 i2 →
  requested (in_flight b w bno i0 i1 i2 d) i0 i1 i2 i0 b i0 (op_type w) bno.
Proof.
  intros Hd Hs Ht. destruct (three_lt _ _ _ _ Hd Ht) as (L0 & L1 & L2).
  destruct (in_flight_chain b w bno d i0 i1 i2 Hd Ht) as [C0 C1 C2].
  pose proof (do_avail_idx _ Hd) as Ha. split; rw ?Nat2Z.id.
  - cbn. rw Hs. unfold u16. zlia.
  - cbn [in_flight submitted formatted take3 vd_avail_ring vd_seen set_vd_out set_vd_avail_idx
      set_vd_avail_ring set_vd_info_b set_vd_desc set_vd_info_status set_vd_ops set_vd_free vd_avail_idx].
    rw Hs. unfold zget, zset. apply list_lookup_total_insert_eq. rw (do_avail _ Hd). unfold NUM. zlia.
  - exact C0.
  - rw C1. unfold op_type. by destruct (w =? 0).
  - exact C2.
  - cbn. apply list_lookup_insert_eq. by rw (do_ops _ Hd).
  - unfold op_type. destruct (negb _); [by left|by right].
Qed.

Lemma chain_keep d d' b f i0 i1 i2 : chain d b f i0 i1 i2 → vd_desc d' = vd_desc d → chain d' b f i0 i1 i2.
Proof. intros [C0 C1 C2] E. split; rw E; assumption. Qed.
Lemma completed_desc i0 j d : vd_desc (completed i0 j d) = vd_desc d.
Proof. done. Qed.

Lemma in_flight_free j b w bno (i0 i1 i2 : nat) d :
  vd_free (completed i0 j (in_flight b w bno i0 i1 i2 d)) = vd_free (take3 i0 i1 i2 d).
Proof. unfold in_flight. generalize (take3 i0 i1 i2 d). done. Qed.

(** ** The interrupt *)

(** The device has put the chain of buffer [b] into the [used] ring. *)
Record done_by (d : vdisk) (i0 b : nat) : Prop := {
  db_idx : 0 ≤ vd_used_idx d < 2 ^ 16;
  db_didx : vd_used_didx d = u16 (vd_used_idx d + 1);
  db_ring : zget (vd_used_ring d) (vd_used_idx d mod Z.of_nat NUM) = i0;
  db_status : vd_info_status d !! i0 = Some 0;
  db_b : zget (vd_info_b d) i0 = Some b
}.

Lemma completed_done b w bno d i0 i1 i2 :
  disk_ok d → vd_used_idx d = vd_used_didx d → three (vd_free d) i0 i1 i2 →
  done_by (completed i0 i0 (in_flight b w bno i0 i1 i2 d)) i0 b.
Proof.
  intros Hd Hu Ht. destruct (three_lt _ _ _ _ Hd Ht) as (L0 & _ & _).
  pose proof (do_used_idx _ Hd) as Hr. split.
  - done.
  - cbn. by rw Hu.
  - unfold zget, zset. cbn -[NUM Z.modulo]. unfold zset. rw Hu. apply list_lookup_total_insert_eq.
    rw (do_used _ Hd). unfold NUM. zlia.
  - cbn. apply list_lookup_insert_eq. rw length_insert. by rw (do_status _ Hd).
  - unfold zget. rw Nat2Z.id. cbn. apply list_lookup_total_insert_eq. by rw (do_info _ Hd).
Qed.

Lemma wenv_acq m l s :
  wenv m s → (∀ i, l ≠ LProc i) → wenv m (set_k_sync (acq l (k_sync s)) s).
Proof.
  intros [Ho Hr [Hl Hf]] Hne. split; cbn; [by apply acq_ok|by apply running_acq|].
  split; [done|]. intros i Hi. cbn. apply acq_free_ne; [done|]. by apply Hf.
Qed.

Lemma R_read_ok s r : R_read r s = Ret (default 0 (vd_in (k_vdisk s) !! r)) s.
Proof. done. Qed.

(** [virtio_disk_intr] clears [b->disk] and wakes whoever sleeps on [b]. *)
Lemma virtio_disk_intr_ok s m i0 b :
  wenv m s → lock_free LVdisk (k_sync s) → done_by (k_vdisk s) i0 b →
  virtio_disk_intr s =
    Ret tt (set_k_bufs (alter (set_b_disk 0) b (k_bufs s))
      (set_k_procs (imap (wake (CBuf b) m) (k_procs s))
        (set_k_vdisk (set_vd_used_idx (vd_used_didx (k_vdisk s))
           (set_vd_out (vd_out (k_vdisk s) ++ [(VIRTIO_MMIO_INTERRUPT_ACK,
              u32 (Z.land (default 0 (vd_in (k_vdisk s) !! VIRTIO_MMIO_INTERRUPT_STATUS)) 0x3))])
             (k_vdisk s))) s))).
Proof.
  intros He Hl [Hi Hdi Hr Hs Hb]. unfold virtio_disk_intr.
  mstep (kacquire_free _ _ (we_ok _ _ He) Hl). mstep (R_read_ok (set_k_sync (acq LVdisk (k_sync s)) s) VIRTIO_MMIO_INTERRUPT_STATUS).
  unfold R_write, get_disk, upd_disk. msimp.
  cbn [k_vdisk set_k_vdisk set_k_sync vd_used_didx vd_used_idx set_vd_out].
  replace (u16 (vd_used_didx (k_vdisk s) - vd_used_idx (k_vdisk s))) with 1
    by (rw Hdi; unfold u16; zlia).
  change (S (Z.to_nat 1)) with 2%nat. cbn [loopM].
  set (s1 := set_k_vdisk _ _). rewrite -> (bind_assoc _ _ _ _ (inl tt : unit + unit)
    (set_k_vdisk (set_vd_used_idx (vd_used_didx (k_vdisk s)) (k_vdisk s1))
       (set_k_procs (imap (wake (CBuf b) m) (k_procs s))
          (set_k_bufs (alter (set_b_disk 0) b (k_bufs s)) s1)))).
  - set (s2 := set_k_vdisk _ _). rewrite -> (bind_assoc _ _ _ _ (inr tt : unit + unit) s2).
    + msimp. unfold s2, s1. erewrite (krelease_acq LVdisk _ (k_sync s)); [|done|apply He|done].
      by destruct s.
    + unfold intr_body, get_disk. msimp. unfold s2. cbn [k_vdisk set_k_vdisk vd_used_idx set_vd_used_idx vd_used_didx].
      unfold s1. cbn [k_vdisk set_k_vdisk vd_used_idx set_vd_used_idx vd_used_didx set_vd_out]. by rw Z.eqb_refl.
  - unfold intr_body, get_disk. msimp. unfold s1.
    cbn [k_vdisk set_k_vdisk vd_used_idx vd_used_didx vd_used_ring vd_info_status vd_info_b set_vd_out].
    rewrite -> (proj2 (Z.eqb_neq _ _)) by (rw Hdi; unfold u16; zlia). rw Hr Nat2Z.id Hs. cbn [deref]. msimp.
    cbn [Z.eqb negb]. rw Hb. cbn [deref]. msimp. unfold upd_buf. msimp.
    destruct (wenv_acq m LVdisk s He ltac:(done)) as [Ho' Hr' Hf'].
    erewrite bind_Ret; [|apply (wakeup_spec _ _ m); [exact Ho'|exact Hr'|exact Hf']].
    msimp. rw Hdi. done.
Qed.

(** ** Freeing the chain *)

Lemma get_desc_ok s (i : nat) k : vd_desc (k_vdisk s) !! i = Some k → get_desc i s = Ret k s.
Proof. intros Hi. unfold get_desc, get_disk. msimp. by rw Nat2Z.id Hi. Qed.

Lemma free_chain_step s m (i : nat) k :
  wenv m s → (i < NUM)%nat → vd_free (k_vdisk s) !! i = Some 0 → vd_desc (k_vdisk s) !! i = Some k →
  ∃ ps, free_chain_body i s =
      Ret (if negb (Z.land (ds_flags k) VRING_DESC_F_NEXT =? 0) then inl (ds_next k) else inr tt)
        (set_k_procs ps (set_k_vdisk (freed i (k_vdisk s)) s)) ∧
    wenv m (set_k_procs ps (set_k_vdisk (freed i (k_vdisk s)) s)).
Proof.
  intros He Hi Hf Hk. destruct (free_desc_ok s m i He Hi Hf) as (ps & E & Hps). exists ps.
  split; [|by apply wenv_keep]. unfold free_chain_body. mstep (get_desc_ok s i k Hk). by mstep E.
Qed.

Lemma freed_other (i j : nat) d :
  i ≠ j → vd_free (freed i d) !! j = vd_free d !! j ∧ vd_desc (freed i d) !! j = vd_desc d !! j.
Proof.
  intros Hne. unfold freed, zset. rw !Nat2Z.id. cbn.
  by rw list_lookup_insert_ne // list_lookup_alter_ne.
Qed.

Lemma lor_next f : negb (Z.land (Z.lor f VRING_DESC_F_NEXT) VRING_DESC_F_NEXT =? 0) = true.
Proof.
  apply negb_true_iff, Z.eqb_neq. intros E. apply (f_equal (λ x, Z.testbit x 0)) in E. revert E.
  rw Z.land_spec Z.lor_spec Z.bits_0. unfold VRING_DESC_F_NEXT. cbn. by rw orb_true_r.
Qed.

Lemma free_chain_ok s m b fl (i0 i1 i2 : nat) :
  wenv m s → chain (k_vdisk s) b fl i0 i1 i2 →
  (i0 < NUM)%nat → (i1 < NUM)%nat → (i2 < NUM)%nat → i0 ≠ i1 → i0 ≠ i2 → i1 ≠ i2 →
  vd_free (k_vdisk s) !! i0 = Some 0 → vd_free (k_vdisk s) !! i1 = Some 0 →
  vd_free (k_vdisk s) !! i2 = Some 0 →
  ∃ ps, free_chain i0 s =
    Ret tt (set_k_procs ps (set_k_vdisk (freed i2 (freed i1 (freed i0 (k_vdisk s)))) s)).
Proof.
  intros He [C0 C1 C2] L0 L1 L2 N01 N02 N12 F0 F1 F2. unfold free_chain. change (S NUM) with 9%nat. cbn [loopM].
  destruct (free_chain_step s m i0 _ He L0 F0 C0) as (ps0 & E0 & He0). mstep E0. cbn [ds_flags ds_next].
  change (negb (Z.land VRING_DESC_F_NEXT VRING_DESC_F_NEXT =? 0)) with true. cbv iota.
  set (s1 := set_k_procs ps0 _) in *. destruct (freed_other i0 i1 (k_vdisk s) N01) as [G1 D1].
  destruct (free_chain_step s1 m i1 _ He0 L1 (eq_trans G1 F1) (eq_trans D1 C1)) as (ps1 & E1 & He1).
  mstep E1. cbn [ds_flags ds_next]. rw lor_next. cbv iota. set (s2 := set_k_procs ps1 _) in *.
  destruct (freed_other i0 i2 (k_vdisk s) N02) as [G2 D2].
  destruct (freed_other i1 i2 (k_vdisk s1) N12) as [G3 D3].
  destruct (free_chain_step s2 m i2 _ He1 L2 (eq_trans G3 (eq_trans G2 F2)) (eq_trans D3 (eq_trans D2 C2)))
    as (ps2 & E2 & _).
  mstep E2. exists ps2. cbn [ds_flags]. change (negb (Z.land VRING_DESC_F_WRITE VRING_DESC_F_NEXT =? 0)) with false.
  msimp. by destruct s.
Qed.

(** ** The driver, from the call to [sleep] and from its return *)

Lemma wait_loop s p y k b kb (n : nat) :
  at_rest p y → lock_free LVdisk y → k_sync s = acq LVdisk y → k_procs s !! p = Some k →
  k_bufs s !! b = Some kb → b_disk kb = 1 →
  ∃ kont, loopM (S (S n)) (wait_body b) tt s =
      Switch (set_k_procs (<[p := set_p_state SLEEPING (set_p_chan (Some (CBuf b)) k)]> (k_procs s))
                (set_k_sync (acq (LProc p) y) s)) kont ∧
    ∀ s2 y2 kb2, at_rest p y2 → lock_free LVdisk y2 → k_sync s2 = acq (LProc p) y2 →
      intr_enabled y2 = intr_enabled y → k_bufs s2 !! b = Some kb2 → b_disk kb2 = 0 →
      kont s2 = Ret tt (set_k_procs (alter (set_p_chan None) p (k_procs s2))
                          (set_k_sync (acq LVdisk y2) s2)).
Proof.
  intros Hr Hl Hs Hk Hb Hd.
  destruct (sleep_spec s p y k (CBuf b) LVdisk Hr Hl ltac:(done) Hs Hk) as (ks & Es & Hks).
  change (loopM (S (S n)) (wait_body b) tt) with
    (wait_body b tt ≫= λ r, match r with inl x' => loopM (S n) (wait_body b) x' | inr r => mret r end).
  assert (wait_body b tt s = (sleep (CBuf b) LVdisk ;; mret (inl tt)) s) as Eb.
  { unfold wait_body. mstep (get_buf_spec s b kb Hb). by rw Hd. }
  rw (bind_Switch _ _ _ _ _ Es) in Eb. rewrite -> (bind_Switch _ _ _ _ _ Eb).
  eexists. split; [done|]. intros s2 y2 kb2 Hr2 Hl2 Hs2 Hi Hb2 Hd2. cbv beta.
  rewrite -> (Hks s2 y2 Hr2 Hl2 Hs2 Hi). cbn [obind].
  set (s3 := set_k_procs _ _). unfold mret at 1, M_ret at 1. cbn [obind loopM].
  rewrite -> (bind_Ret _ _ s3 (inr tt : unit + unit) s3); [done|].
  unfold wait_body. rewrite -> (bind_Ret _ _ _ _ _ (get_buf_spec s3 b kb2 Hb2)). by rw Hd2.
Qed.

(** No request is with the device, and three descriptors are free. *)
Record disk_idle (d : vdisk) : Prop := {
  di_ok : disk_ok d;
  di_seen : vd_seen d = vd_avail_idx d;
  di_used : vd_used_idx d = vd_used_didx d;
  di_free : (3 ≤ nfree (vd_free d))%nat
}.

(** The disk after the whole of a request. *)
Definition finished (i0 i1 i2 : nat) (d : vdisk) : vdisk :=
  freed i2 (freed i1 (freed i0 (set_vd_info_b (<[i0 := None]> (vd_info_b d)) d))).

Lemma alloc_loop s m (n : nat) :
  wenv m s → disk_ok (k_vdisk s) → (3 ≤ nfree (vd_free (k_vdisk s)))%nat →
  ∃ i0 i1 i2 : nat, three (vd_free (k_vdisk s)) i0 i1 i2 ∧
    loopM (S n) alloc_body tt s =
      Ret (Z.of_nat i0, Z.of_nat i1, Z.of_nat i2) (set_k_vdisk (take3 i0 i1 i2 (k_vdisk s)) s).
Proof.
  intros He Hd Hn. destruct (alloc3_spec s m He Hd) as [(i0 & i1 & i2 & Ht & E)|[? _]]; [|lia].
  exists i0, i1, i2. split; [done|]. cbn [loopM]. unfold alloc_body. by mstep E.
Qed.

Lemma sector_of bno : 0 ≤ bno < 2 ^ 31 → u32 (bno * (BSIZE / 512)) = 2 * bno.
Proof. intros Hb. change (BSIZE / 512) with 2. unfold u32. zlia. Qed.

(** The state in which the request is with the device. *)
Definition sent (b : nat) (w bno : Z) (i0 i1 i2 : nat) (s : kstate) : kstate :=
  set_k_bufs (alter (set_b_disk 1) b (k_bufs s)) (set_k_vdisk (in_flight b w bno i0 i1 i2 (k_vdisk s)) s).

Lemma vdisk_bufs D D' D'' B s :
  set_k_vdisk D (set_k_bufs B (set_k_vdisk D' (set_k_vdisk D'' s))) = set_k_bufs B (set_k_vdisk D s).
Proof. by destruct s. Qed.

Lemma send_ok {A} s b w bno (i0 i1 i2 : nat) (f : KM A) :
  (i1 < NUM)%nat → (i2 < NUM)%nat →
  (format_request b w (2 * bno) i0 i1 i2 ;; submit_request i0 ;; f)
    (set_k_vdisk (take3 i0 i1 i2 (k_vdisk s)) s) = f (sent b w bno i0 i1 i2 s).
Proof.
  intros L1 L2. rewrite -> (bind_Ret _ _ _ _ _ (format_request_ok _ b w (2 * bno) i0 i1 i2 L1 L2)).
  rewrite -> (bind_Ret _ _ _ _ _ (submit_request_ok _ i0)).
  apply (f_equal f). unfold sent, in_flight. kcbn. apply vdisk_bufs.
Qed.

Lemma sent_asleep p ps y y' b w bno i0 i1 i2 s :
  set_k_procs (<[p := ps]> (k_procs (sent b w bno i0 i1 i2 (set_k_sync y' s))))
    (set_k_sync y (sent b w bno i0 i1 i2 (set_k_sync y' s))) =
  set_k_procs (<[p := ps]> (k_procs s)) (set_k_sync y (sent b w bno i0 i1 i2 s)).
Proof. by destruct s. Qed.

(** [virtio_disk_rw] sleeps with its request in flight; resumed once [b->disk]
    is clear, it frees the descriptors and returns. *)
Lemma virtio_disk_rw_sends s p y k b kb w :
  at_rest p y → k_sync s = y → lock_free LVdisk y → procs_free s → k_procs s !! p = Some k →
  k_bufs s !! b = Some kb → 0 ≤ b_blockno kb < 2 ^ 31 → disk_idle (k_vdisk s) → (2 ≤ k_fuel s)%nat →
  ∃ (i0 i1 i2 : nat) kont, three (vd_free (k_vdisk s)) i0 i1 i2 ∧
    virtio_disk_rw b w s = Switch
      (set_k_procs (<[p := set_p_state SLEEPING (set_p_chan (Some (CBuf b)) k)]> (k_procs s))
         (set_k_sync (acq (LProc p) y) (sent b w (b_blockno kb) i0 i1 i2 s))) kont ∧
    ∀ s2 y2 kb2, at_rest p y2 → lock_free LVdisk y2 → (∀ i, (i < NPROC)%nat → lock_free (LProc i) y2) →
      intr_enabled y2 = intr_enabled y → k_sync s2 = acq (LProc p) y2 → length (k_procs s2) = NPROC →
      k_bufs s2 !! b = Some kb2 → b_disk kb2 = 0 →
      chain (k_vdisk s2) b (if negb (w =? 0) then 0 else VRING_DESC_F_WRITE) i0 i1 i2 →
      vd_free (k_vdisk s2) = vd_free (take3 i0 i1 i2 (k_vdisk s)) →
      ∃ ps, kont s2 = Ret tt (set_k_procs ps (set_k_sync y2
                                (set_k_vdisk (finished i0 i1 i2 (k_vdisk s2)) s2))).
Proof.
  intros Hr Hs Hl Hf Hk Hb Hbn Hd Hfu. subst y. unfold virtio_disk_rw.
  mstep (get_buf_spec s b kb Hb). rewrite -> (sector_of _ Hbn).
  mstep (kacquire_free LVdisk s (ar_ok _ _ Hr) Hl). msimp. cbn [k_fuel set_k_sync].
  destruct (k_fuel s) as [|[|n]] eqn:Efu; [lia|lia|].
  assert (wenv (Some p) s) as He by (split; [apply Hr|by apply at_rest_running|done]).
  destruct (alloc_loop _ (Some p) (S n) (wenv_acq _ LVdisk s He ltac:(done)) (di_ok _ Hd) (di_free _ Hd))
    as (i0 & i1 & i2 & Ht & Ea).
  mstep Ea. destruct (three_lt _ _ _ _ (di_ok _ Hd) Ht) as (L0 & L1 & L2).
  rewrite -> (send_ok _ b w (b_blockno kb) i0 i1 i2 _ L1 L2). set (s0 := set_k_sync _ s).
  destruct (wait_loop (sent b w (b_blockno kb) i0 i1 i2 s0) p (k_sync s) k b (set_b_disk 1 kb) n)
    as (kl & El & Hkl); [done|done|done|done| |done|].
  { cbn. by rw list_lookup_alter_eq Hb. }
  unfold s0 in El. rewrite -> sent_asleep in El. rewrite -> (bind_Switch _ _ _ _ _ El). exists i0, i1, i2. eexists. split; [exact Ht|].
  split; [exact eq_refl|].
  intros s2 y2 kb2 Hr2 Hl2 Hf2 Hi2 Hs2 Hlen Hb2 Hd2 Hch Hfr. cbv beta.
  rewrite -> (Hkl s2 y2 kb2 Hr2 Hl2 Hs2 Hi2 Hb2 Hd2). cbn [obind]. unfold upd_disk. msimp.
  set (s3 := set_k_vdisk (set_vd_info_b (zset _ i0 None) _) _).
  destruct Ht as [H0 H1 H2 N01 N02 N12].
  destruct (free_chain_ok s3 (Some p) b (if negb (w =? 0) then 0 else VRING_DESC_F_WRITE) i0 i1 i2)
    as (ps & Ef); [|destruct Hch as [C0 C1 C2]; split; [exact C0|exact C1|exact C2]|done|done|done|done|done|done| | | |].
  { split; [apply acq_ok, Hr2|by apply running_acq, at_rest_running|]. split; [cbn; by rw length_alter|].
    intros i Hi. cbn. apply acq_free_ne; [done|by apply Hf2]. }
  1-3: cbn; rw Hfr; cbn.
  - rw list_lookup_insert_ne // list_lookup_insert_ne // list_lookup_insert_eq //. by eapply lookup_lt_Some.
  - rw list_lookup_insert_ne // list_lookup_insert_eq //. rw length_insert. by eapply lookup_lt_Some.
  - rw list_lookup_insert_eq //. rw !length_insert. by eapply lookup_lt_Some.
  - mstep Ef. exists ps. erewrite (krelease_acq LVdisk _ y2); [|reflexivity|apply Hr2|done].
    unfold s3, zset. rw Nat2Z.id. by destruct s2.
Qed.

(** ** The whole request *)

Lemma moved_same b k ty bno s :
  k_sync (moved b k ty bno s) = k_sync s ∧ k_procs (moved b k ty bno s) = k_procs s ∧
  k_vdisk (moved b k ty bno s) = k_vdisk s.
Proof. unfold moved. by destruct (_ =? _). Qed.

(** The transfer by the device is the one of [disk_rw]. *)
Lemma moved_disk_rw b kb w s x :
  k_bufs s !! b = Some kb → k_disk x = k_disk s → k_dtrace x = k_dtrace s →
  k_bufs x = alter (set_b_disk 1) b (k_bufs s) →
  ∃ t, disk_rw b w s = Ret tt t ∧
    k_disk (moved b (set_b_disk 1 kb) (op_type w) (b_blockno kb) x) = k_disk t ∧
    k_dtrace (moved b (set_b_disk 1 kb) (op_type w) (b_blockno kb) x) = k_dtrace t ∧
    alter (set_b_disk 0) b (k_bufs (moved b (set_b_disk 1 kb) (op_type w) (b_blockno kb) x)) =
      alter (set_b_disk 0) b (k_bufs t).
Proof.
  intros Hb Ed Et Eb. unfold disk_rw, op_type, moved. mstep (get_buf_spec s b kb Hb).
  destruct (w =? 0); cbn [negb].
  - change (VIRTIO_BLK_T_IN =? VIRTIO_BLK_T_OUT) with false. msimp. eexists. split; [done|].
    cbn. rw Eb Ed !list_alter_alter. split_and!; [done|done|].
    rw !(list_alter_insert _ _ _ _ Hb). done.
  - change (VIRTIO_BLK_T_OUT =? VIRTIO_BLK_T_OUT) with true. eexists. split; [done|].
    cbn. rw Eb Ed Et !list_alter_alter. split_and!; [done|done|].
    by rw !(list_alter_insert _ _ _ _ Hb).
Qed.

Lemma three_back d i0 i1 i2 :
  three (vd_free d) i0 i1 i2 →
  <[i2 := 1]> (<[i1 := 1]> (<[i0 := 1]> (vd_free (take3 i0 i1 i2 d)))) = vd_free d.
Proof.
  intros [H0 H1 H2 N01 N02 N12]. cbn.
  rw (list_insert_insert_ne _ i0 i2) // (list_insert_insert_ne _ i1 i2) // list_insert_insert_eq.
  rw (list_insert_insert_ne _ i0 i1) // list_insert_insert_eq list_insert_insert_eq.
  rw (list_insert_id _ i0) // (list_insert_id _ i1) // (list_insert_id _ i2) //.
Qed.

(** After the request the driver is as before it. *)
Lemma finished_idle b w bno d i0 i1 i2 x :
  disk_idle d → three (vd_free d) i0 i1 i2 →
  let d2 := completed i0 i0 (in_flight b w bno i0 i1 i2 d) in
  let d3 := finished i0 i1 i2 (set_vd_used_idx (vd_used_didx d2) (set_vd_out x d2)) in
  vd_free d3 = vd_free d ∧ disk_idle d3.
Proof.
  intros [Hd Hs Hu Hn] Ht d2 d3. assert (vd_free d3 = vd_free d) as E.
  { rw -(three_back d i0 i1 i2 Ht). unfold d3, finished, freed, zset. rw !Nat2Z.id. done. }
  split; [done|]. split; rw ?E //; [|cbn; by rw Hs].
  destruct Hd as [D1 D2 D3 D4 D5 D6 D7 D8 D9 D10].
  split; rw ?E //; cbn; unfold zset; rw ?length_alter ?length_insert ?length_alter ?length_insert //.
  - unfold u16. zlia.
  - unfold u16. zlia.
Qed.

Lemma vdisk_twice D D' s : set_k_vdisk D (set_k_vdisk D' s) = set_k_vdisk D s.
Proof. by destruct s. Qed.

Lemma resync p ps y y' s x :
  set_k_sync y (set_k_procs (<[p := ps]> (k_procs s)) (set_k_sync y' x)) =
    set_k_procs (<[p := ps]> (k_procs s)) (set_k_sync y x).
Proof. by destruct x. Qed.

Lemma moved_buf b k ty bno s :
  k_bufs s !! b = Some k → ∃ k', k_bufs (moved b k ty bno s) !! b = Some k'.
Proof.
  intros Hb. unfold moved. destruct (_ =? _); [by exists k|].
  exists (set_b_data (dblock (k_disk s) bno) k). cbn. by rw list_lookup_alter_eq Hb.
Qed.

(** Acknowledging the interrupt does not touch the descriptors. *)
Lemma acked_same n x d :
  vd_desc (set_vd_used_idx n (set_vd_out x d)) = vd_desc d ∧
  vd_free (set_vd_used_idx n (set_vd_out x d)) = vd_free d.
Proof. by destruct d. Qed.

Section request.
Context (dev : KM unit) `{!Device dev}.

(** A hart that handles the interrupt: not the one that still runs [p]. *)
Record handler (p : nat) (m : option nat) (y : syncst) : Prop := {
  ha_ok : cpu_ok y;
  ha_run : running m y;
  ha_other : m ≠ Some p;
  ha_disk : lock_free LVdisk y;
  ha_procs : ∀ i, (i < NPROC)%nat → lock_free (LProc i) y
}.

Lemma served s b kb w i0 i1 i2 p k y m :
  disk_idle (k_vdisk s) → three (vd_free (k_vdisk s)) i0 i1 i2 → k_bufs s !! b = Some kb →
  length (k_procs s) = NPROC → k_procs s !! p = Some k → handler p m y →
  let d2 := completed i0 i0 (in_flight b w (b_blockno kb) i0 i1 i2 (k_vdisk s)) in
  let s1 := set_k_procs (<[p := set_p_state SLEEPING (set_p_chan (Some (CBuf b)) k)]> (k_procs s))
              (set_k_sync y (sent b w (b_blockno kb) i0 i1 i2 s)) in
  let s2 := moved b (set_b_disk 1 kb) (op_type w) (b_blockno kb) s1 in
  ∃ s3 x, (dev ;; virtio_disk_intr) s1 = Ret tt s3 ∧
    k_disk s3 = k_disk s2 ∧ k_dtrace s3 = k_dtrace s2 ∧
    k_bufs s3 = alter (set_b_disk 0) b (k_bufs s2) ∧
    k_procs s3 = imap (wake (CBuf b) m) (k_procs s1) ∧
    k_vdisk s3 = set_vd_used_idx (vd_used_didx d2) (set_vd_out x d2).
Proof.
  intros [Hd Hs Hu Hn] Ht Hb Hlen Hk [Ho Hr Hne Hl Hp].
  intros d2 s1 s2.
  assert (k_bufs s1 !! b = Some (set_b_disk 1 kb)) as Hb1.
  { cbn. by rw list_lookup_alter_eq Hb. }
  pose proof (in_flight_requested b w (b_blockno kb) _ i0 i1 i2 Hd Hs Ht) as Hq.
  rewrite -> (bind_Ret _ _ _ _ _ (dev_serves s1 _ _ _ _ _ _ _ _ _ Hq Hb1)).
  destruct (moved_same b (set_b_disk 1 kb) (op_type w) (b_blockno kb) s1) as (Es & Ep & Ev).
  assert (k_sync (set_k_vdisk (completed i0 i0 (k_vdisk s1)) s2) = y) as Ey by exact Es.
  rewrite -> (virtio_disk_intr_ok _ m i0 b).
  - eexists _, _. split; [reflexivity|]. kcbn. split_and!; [reflexivity..|by rewrite -> Ep|reflexivity].
  - split; [by rw Ey|by rw Ey|]. split; [|by rw Ey].
    transitivity (length (k_procs s1)); [exact (f_equal length Ep)|]. cbn. by rw length_insert.
  - by rw Ey.
  - by apply (completed_done b w (b_blockno kb) _ i0 i1 i2).
Qed.

Lemma woken_runnable b m p k ps :
  m ≠ Some p → ps !! p = Some k → p_state k = SLEEPING → p_chan k = Some (CBuf b) →
  imap (wake (CBuf b) m) ps !! p = Some (set_p_state RUNNABLE k).
Proof. intros Hm Hp Hs Hc. rw list_lookup_imap Hp. cbn. unfold wake. by rw decide_True. Qed.

(** C9. A disk request. [virtio_disk_rw], called with an idle disk, gives the
    request to the device and goes to sleep. Once the device has served it and
    some hart has taken the interrupt, the disk, its write history and the
    buffer are those that the one-step transfer [disk_rw] gives, the sleeper
    is RUNNABLE, and when the scheduler resumes it [virtio_disk_rw] returns,
    with every lock released, the descriptors free again and the disk idle. *)
Theorem virtio_disk_rw_correct s p k b kb w :
  at_rest p (k_sync s) → lock_free LVdisk (k_sync s) → procs_free s → k_procs s !! p = Some k →
  k_bufs s !! b = Some kb → 0 ≤ b_blockno kb < 2 ^ 31 → disk_idle (k_vdisk s) → (2 ≤ k_fuel s)%nat →
  ∃ s1 kont t, virtio_disk_rw b w s = Switch s1 kont ∧ disk_rw b w s = Ret tt t ∧
    ∀ m y, handler p m y → ∃ s3 q, (dev ;; virtio_disk_intr) (set_k_sync y s1) = Ret tt s3 ∧
      k_disk s3 = k_disk t ∧ k_dtrace s3 = k_dtrace t ∧
      k_bufs s3 = alter (set_b_disk 0) b (k_bufs t) ∧
      k_procs s3 !! p = Some q ∧ p_state q = RUNNABLE ∧
      ∀ y2, at_rest p y2 → lock_free LVdisk y2 → (∀ i, (i < NPROC)%nat → lock_free (LProc i) y2) →
        intr_enabled y2 = intr_enabled (k_sync s) →
        ∃ s5, kont (set_k_sync (acq (LProc p) y2)
                      (set_k_procs (<[p := set_p_state RUNNING q]> (k_procs s3)) s3)) = Ret tt s5 ∧
          k_sync s5 = y2 ∧ k_disk s5 = k_disk s3 ∧ k_dtrace s5 = k_dtrace s3 ∧ k_bufs s5 = k_bufs s3 ∧
          vd_free (k_vdisk s5) = vd_free (k_vdisk s) ∧ disk_idle (k_vdisk s5).
Proof.
  intros Hr Hl Hf Hk Hb Hbn Hd Hfu.
  destruct (virtio_disk_rw_sends s p (k_sync s) k b kb w Hr eq_refl Hl Hf Hk Hb Hbn Hd Hfu)
    as (i0 & i1 & i2 & kont & Ht & E & Hkont).
  set (pk := set_p_state SLEEPING (set_p_chan (Some (CBuf b)) k)) in *.
  destruct (moved_disk_rw b kb w s (set_k_procs (<[p := pk]> (k_procs s))
    (set_k_sync (k_sync s) (sent b w (b_blockno kb) i0 i1 i2 s))) Hb) as (t & Et & _); [done..|].
  eexists _, kont, t. split; [exact E|].
  split; [exact Et|]. intros m y Hh.
  destruct (served s b kb w i0 i1 i2 p k y m Hd Ht Hb (proj1 Hf) Hk Hh)
    as (s3 & x & Ei & Ed3 & Et3 & Eb3 & Ep3 & Ev3).
  destruct (moved_disk_rw b kb w s (set_k_procs (<[p := pk]> (k_procs s))
    (set_k_sync y (sent b w (b_blockno kb) i0 i1 i2 s))) Hb) as (t' & Et' & Md & Mt & Mb); [done..|].
  rewrite -> Et in Et'. injection Et' as <-. fold pk in Ei, Ed3, Et3, Eb3, Ep3.
  rewrite -> resync. set (s1 := set_k_procs (<[p := pk]> (k_procs s)) (set_k_sync y _)) in *.
  assert (k_bufs s1 !! b = Some (set_b_disk 1 kb)) as Hb1 by (cbn; by rw list_lookup_alter_eq Hb).
  destruct (moved_buf b _ (op_type w) (b_blockno kb) s1 Hb1) as (kb' & Hkb').
  set (s2 := moved b _ _ _ s1) in *.
  exists s3, (set_p_state RUNNABLE pk). split; [exact Ei|].
  split_and!; [by rw Ed3|by rw Et3|by rw Eb3| |done|].
  { rw Ep3. apply woken_runnable; [apply Hh| |done|done]. apply list_lookup_insert_eq. by eapply lookup_lt_Some. }
  intros y2 Hr2 Hl2 Hf2 Hi2.
  match goal with |- ∃ s5, kont ?x = _ ∧ _ => set (s4 := x) end.
  destruct (Hkont s4 y2 (set_b_disk 0 kb') Hr2 Hl2 Hf2 Hi2) as (ps & Ek).
  - reflexivity.
  - cbn. rw length_insert Ep3 length_imap length_insert. apply Hf.
  - cbn. by rw Eb3 list_lookup_alter_eq Hkb'.
  - done.
  - apply (chain_keep (in_flight b w (b_blockno kb) i0 i1 i2 (k_vdisk s))).
    + by apply in_flight_chain, Ht; apply Hd.
    + unfold s4. kcbn. rw Ev3. rw (proj1 (acked_same _ _ _)). apply completed_desc.
  - unfold s4. kcbn. rw Ev3. rw (proj2 (acked_same _ _ _)). apply in_flight_free.
  - eexists. split; [exact Ek|].
    destruct (finished_idle b w (b_blockno kb) _ i0 i1 i2 x Hd Ht) as [Ef Ei'].
    unfold s4. kcbn. rw Ev3. split_and!; [done..|exact Ef|exact Ei'].
Qed.
End request.

(** ** A device, and an idle disk, for the witnesses *)

(** The device of the class, step by step. *)
Definition transfer (b : nat) (type sector : Z) : KM unit :=
  k ← get_buf b;
  let bno := sector / (BSIZE / 512) in
  if type =? VIRTIO_BLK_T_OUT then
    modify (λ s, set_k_dtrace (k_dtrace s ++ [(bno, b_data k)])
                   (set_k_disk (<[bno := b_data k]> (k_disk s)) s))
  else
    d ← gets k_disk;
    upd_buf b (set_b_data (dblock d bno)).
Definition device_step : KM unit :=
  d ← get_disk;
  if vd_seen d =? vd_avail_idx d then mret tt else
  let i0 := zget (vd_avail_ring d) (vd_seen d mod Z.of_nat NUM) in
  k0 ← get_desc i0;
  k1 ← get_desc (ds_next k0);
  k2 ← get_desc (ds_next k1);
  match ds_addr k0, ds_addr k1, ds_addr k2 with
  | DOp i, DData b, DStatus j =>
      rq ← deref (vd_ops d !! i);
      transfer b (rq_type rq) (rq_sector rq) ;;
      upd_disk (completed i0 j)
  | _, _, _ => fault
  end.

Lemma get_desc_at s i k : vd_desc (k_vdisk s) !! Z.to_nat i = Some k → get_desc i s = Ret k s.
Proof. intros Hi. unfold get_desc, get_disk. msimp. by rw Hi. Qed.

Lemma transfer_ok s b k type bno :
  k_bufs s !! b = Some k → transfer b type (2 * bno) s = Ret tt (moved b k type bno s).
Proof.
  intros Hb. unfold transfer, moved. mstep (get_buf_spec s b k Hb).
  change (BSIZE / 512) with 2. rw (Z.mul_comm 2) Z.div_mul //. by destruct (_ =? _).
Qed.

#[export] Instance device_step_ok : Device device_step.
Proof.
  split. intros s k i0 i1 i2 op b j type bno [Hn Hh H0 H1 H2 Ho Ht] Hb.
  unfold device_step, get_disk. msimp. rewrite -> (proj2 (Z.eqb_neq _ _) Hn). rw Hh. cbv zeta.
  mstep (get_desc_at s i0 _ H0). cbn [ds_next ds_addr]. mstep (get_desc_at s i1 _ H1).
  cbn [ds_next ds_addr]. mstep (get_desc_at s i2 _ H2). cbn [ds_addr]. rw Ho. cbn [deref]. msimp.
  cbn [rq_type rq_sector]. rewrite -> (bind_Ret _ _ _ _ _ (transfer_ok s b k type bno Hb)).
  unfold upd_disk, modify. destruct (moved_same b k type bno s) as (_ & _ & ->). done.
Qed.

Definition vdisk1 : vdisk :=
  Vdisk (replicate NUM (Vdesc DNull 0 0 0)) 65535 (replicate NUM 0) 65535 (replicate NUM 0)
    (replicate NUM 1) 65535 (replicate NUM None) (replicate NUM 0) (replicate NUM (Vreq 0 0 0))
    ∅ [] 65535.
Definition buf1 : buf := Buf 0 0 1 7 0 0 0 (replicate (Z.to_nat BSIZE) 3).
Definition kst_disk : kstate := set_k_fuel 2 (set_k_bufs [buf1] (set_k_vdisk vdisk1 kst1)).

Lemma disk_ok1 : disk_ok vdisk1.
Proof. split; [done..|]. repeat constructor; by right. Qed.
Lemma disk_idle1 : disk_idle vdisk1.
Proof. split; [exact disk_ok1|done|done|]. apply le_S, le_S, le_S, le_S, le_S, le_n. Qed.
Lemma running_sync1 : running (Some 0%nat) sync1.
Proof. exact (at_rest_running _ _ at_rest_sync1). Qed.

Lemma alloc3_all_or_nothing_witness :
  ∃ i0 i1 i2, three (vd_free vdisk1) i0 i1 i2 ∧
    alloc3_desc kst_disk = Ret (Some (Z.of_nat i0, Z.of_nat i1, Z.of_nat i2))
      (set_k_vdisk (take3 i0 i1 i2 vdisk1) kst_disk).
Proof.
  destruct (alloc3_all_or_nothing kst_disk (Some 0%nat)) as [H|[H _]].
  - split; [exact cpu_ok_sync1|exact running_sync1|exact procs_free_kst1].
  - exact disk_ok1.
  - exact H.
  - exfalso. by apply Nat.ltb_lt in H.
Defined.

Lemma virtio_disk_rw_correct_witness :
  ∃ s1 kont t, virtio_disk_rw 0 1 kst_disk = Switch s1 kont ∧ disk_rw 0 1 kst_disk = Ret tt t.
Proof.
  destruct (virtio_disk_rw_correct device_step kst_disk 0 (proc1 0) 0 buf1 1) as (s1 & kont & t & E & Et & _).
  - exact at_rest_sync1.
  - apply sync1_free. unfold all_locks. set_solver.
  - exact procs_free_kst1.
  - reflexivity.
  - reflexivity.
  - split; [discriminate|reflexivity].
  - exact disk_idle1.
  - apply le_n.
  - exists s1, kont, t. split; [exact E|exact Et].
Defined.
