(* ===== verification/Trap.v ===== *)
(** * Traps, interrupts and boot (kernel/trap.c, plic.c, main.c)

    The trampoline and [kernelvec] are assembly: [usertrapret] ends with the
    values it passes to [userret], and [usertrap] and [kerneltrap] start from
    the registers the hardware has set. [forkret] of proc.c is here because it
    calls [usertrapret]. *)

From S2P Require Import Prelude Riscv KState Spinlock KString Kalloc Vm Sched Layout Bio Log Fs.
From S2P Require Import Uart KPrintf Console Pipe File Process Exec Syscall Virtio.
Open Scope Z_scope.

Definition get_hart : KM regs := gets (λ s, hart (k_sync s)).
Definition upd_hart (f : regs → regs) : KM unit := sy (modify (λ y, set_hart (f (hart y)) y)).

(** ** plic.c *)

(** A 32-bit register of the PLIC; a read of the claim register gives the next
    of the interrupts that are pending. *)
Definition plic_write (a v : Z) : KM unit := modify (λ s, set_k_plic (<[a := u32 v]> (k_plic s)) s).
Definition plicinit : KM unit :=
  plic_write (PLIC + UART0_IRQ * 4) 1 ;;
  plic_write (PLIC + VIRTIO0_IRQ * 4) 1.
Definition plicinithart : KM unit :=
  hart ← sy cpuid;
  plic_write (PLIC_SENABLE hart) (Z.lor (Z.shiftl 1 UART0_IRQ) (Z.shiftl 1 VIRTIO0_IRQ)) ;;
  plic_write (PLIC_SPRIORITY hart) 0.
Definition plic_claim : KM Z :=
  irqs ← gets k_irqs;
  match irqs with
  | [] => mret 0
  | irq :: irqs => modify (set_k_irqs irqs) ;; mret (i32 irq)
  end.
Definition plic_complete (irq : Z) : KM unit :=
  hart ← sy cpuid;
  plic_write (PLIC_SCLAIM hart) irq.

(** ** trap.c *)

Section trap.
Context `{Image}.

Definition trapinit : KM unit := kinitlock LTicks "time".
Definition trapinithart : KM unit := upd_hart (set_r_stvec kernelvec).

Definition clockintr : KM unit :=
  kacquire LTicks ;;
  modify (λ s, set_k_ticks (u32 (k_ticks s + 1)) s) ;;
  wakeup CTicks ;;
  krelease LTicks.

Definition devintr : KM Z :=
  r ← get_hart;
  let scause := r_scause r in
  if negb (Z.land scause 0x8000000000000000 =? 0) && (Z.land scause 0xff =? 9) then
    irq ← plic_claim;
    (if irq =? UART0_IRQ then uartintr
     else if irq =? VIRTIO0_IRQ then virtio_disk_intr
     else whenM (negb (irq =? 0))
       (printf (str "unexpected interrupt irq=%d" ++ [10]) [AInt irq])) ;;
    whenM (negb (irq =? 0)) (plic_complete irq) ;;
    mret 1
  else if scause =? 0x8000000000000001 then
    c ← sy cpuid;
    whenM (c =? 0) clockintr ;;
    upd_hart (λ r, set_r_sip (Z.land (r_sip r) (u64 (Z.lnot 2))) r) ;;
    mret 2
  else mret 0.

(** The result is what [usertrapret] passes to [userret]: the address it jumps
    to, the trapframe and [satp]. *)
Definition usertrapret : KM (Z * Z * Z) :=
  p ← curproc;
  sy intr_off ;;
  upd_hart (set_r_stvec (u64 (TRAMPOLINE + (uservec - trampoline)))) ;;
  r ← get_hart;
  st_tf p tf_kernel_satp (r_satp r) ;;
  k ← get_proc p;
  st_tf p tf_kernel_sp (u64 (p_kstack k + PGSIZE)) ;;
  st_tf p tf_kernel_trap usertrap_pc ;;
  st_tf p tf_kernel_hartid (r_tp r) ;;
  r ← get_hart;
  let x := Z.land (r_sstatus r) (u64 (Z.lnot SSTATUS_SPP)) in
  let x := Z.lor x SSTATUS_SPIE in
  upd_hart (set_r_sstatus x) ;;
  epc ← ld_tf p tf_epc;
  upd_hart (set_r_sepc epc) ;;
  k ← get_proc p;
  mret (u64 (TRAMPOLINE + (userret - trampoline)), TRAPFRAME, MAKE_SATP (p_pagetable k)).

(** [if(p->killed) exit(-1);] *)
Definition exit_if_killed (p : nat) : KM unit :=
  k ← get_proc p;
  whenM (negb (p_killed k =? 0)) (exit (-1)).

Definition usertrap : KM (Z * Z * Z) :=
  r ← get_hart;
  if negb (Z.land (r_sstatus r) SSTATUS_SPP =? 0) then panic "usertrap: not from user mode" else
  upd_hart (set_r_stvec kernelvec) ;;
  p ← curproc;
  r ← get_hart;
  st_tf p tf_epc (r_sepc r) ;;
  r ← get_hart;
  which_dev ←
    (if r_scause r =? 8 then
       exit_if_killed p ;;
       epc ← ld_tf p tf_epc;
       st_tf p tf_epc (u64 (epc + 4)) ;;
       sy intr_on ;;
       syscall ;;
       mret 0
     else
       w ← devintr;
       if negb (w =? 0) then mret w else
       r ← get_hart;
       k ← get_proc p;
       printf (str "usertrap(): unexpected scause %p pid=%d" ++ [10])
         [AU64 (r_scause r); AInt (p_pid k)] ;;
       r ← get_hart;
       printf (str "            sepc=%p stval=%p" ++ [10]) [AU64 (r_sepc r); AU64 (r_stval r)] ;;
       upd_proc p (set_p_killed 1) ;;
       mret 0);
  exit_if_killed p ;;
  whenM (which_dev =? 2) yield ;;
  usertrapret.

Definition kerneltrap : KM unit :=
  r ← get_hart;
  let sepc := r_sepc r in
  let sstatus := r_sstatus r in
  let scause := r_scause r in
  if Z.land sstatus SSTATUS_SPP =? 0 then panic "kerneltrap: not from supervisor mode" else
  i ← sy intr_get;
  if negb (i =? 0) then panic "kerneltrap: interrupts enabled" else
  which_dev ← devintr;
  if which_dev =? 0 then
    printf (str "scause %p" ++ [10]) [AU64 scause] ;;
    r ← get_hart;
    printf (str "sepc=%p stval=%p" ++ [10]) [AU64 (r_sepc r); AU64 (r_stval r)] ;;
    panic "kerneltrap"
  else
  whenM (which_dev =? 2)
    (me ← myproc;
     match me with
     | None => mret tt
     | Some p => k ← get_proc p; whenM (bool_decide (p_state k = RUNNING)) yield
     end) ;;
  upd_hart (set_r_sepc sepc) ;;
  upd_hart (set_r_sstatus sstatus).

(** [forkret] of kernel/proc.c; [k_first] is its static variable. *)
Definition forkret : KM (Z * Z * Z) :=
  p ← curproc;
  krelease (LProc p) ;;
  first ← gets k_first;
  whenM (negb (first =? 0)) (modify (set_k_first 0) ;; fsinit ROOTDEV) ;;
  usertrapret.

(** ** main.c *)

(** [main] up to the call of [scheduler], which does not return. *)
Definition main : KM unit :=
  c ← sy cpuid;
  if c =? 0 then
    consoleinit ;;
    printfinit ;;
    printf [10] [] ;;
    printf (str "xv6 kernel is booting" ++ [10]) [] ;;
    printf [10] [] ;;
    kinit ;;
    kvminit ;;
    kvminithart ;;
    procinit ;;
    trapinit ;;
    trapinithart ;;
    plicinit ;;
    plicinithart ;;
    binit ;;
    iinit ;;
    fileinit ;;
    virtio_disk_init ;;
    userinit ;;
    modify (set_k_started 1)
  else
    started ← gets k_started;
    (if started =? 0 then stop_with Spin else mret tt) ;;
    c ← sy cpuid;
    printf (str "hart %d starting" ++ [10]) [AInt c] ;;
    kvminithart ;;
    trapinithart ;;
    plicinithart.
End trap.
