(* ===== verification/User.v ===== *)
(** * What a user program sees: system calls (user/user.h, user/usys.pl)

    A user program is code on a state [W], the world outside its own memory,
    that it changes through system calls only. [Unix W] has one operation per
    system call of user.h, with the buffers that the call fills as part of
    its result. [exit] stops the program. The kernel's side of these calls is
    in Syscall; a user program's theorems are proved against the laws of the
    calls it makes, stated where they are used. *)

From S2P Require Import Prelude.
Open Scope Z_scope.

(** [struct stat] as [fstat] fills it. *)
Record ustat : Type := Ustat {
  us_dev : Z;
  us_ino : Z;
  us_type : Z;
  us_nlink : Z;
  us_size : Z
}.

Class Unix (W : Type) : Type := {
  fork : M W Z;
  wait : M W (Z * Z);                      (** pid and exit status *)
  pipe : M W (Z * Z * Z);                  (** result, [p[0]], [p[1]] *)
  read : Z → Z → M W (Z * list Z);         (** result, and the bytes read *)
  write : Z → list Z → M W Z;
  close : Z → M W Z;
  kill : Z → M W Z;
  exec : list Z → list (list Z) → M W Z;   (** returns only when it fails *)
  open : list Z → Z → M W Z;
  mknod : list Z → Z → Z → M W Z;
  unlink : list Z → M W Z;
  fstat : Z → M W (Z * ustat);
  link : list Z → list Z → M W Z;
  mkdir : list Z → M W Z;
  chdir : list Z → M W Z;
  dup : Z → M W Z;
  getpid : M W Z;
  sbrk : Z → M W Z;
  sleep : Z → M W Z;
  uptime : M W Z
}.

Definition exit {W A} (status : Z) : M W A := stop_with (Exit status).

(** ** Laws of reading and writing

    [inp fd w] are the bytes that [fd] still has to give in world [w], [out fd w]
    those written to [fd] so far. A [read] gives some of them, at least one
    unless there is none left or none is asked for: how many is up to the
    kernel. *)

Class Streams {W} `{!Unix W} (inp out : Z → W → list Z) : Prop := {
  read_ok : ∀ fd n w, 0 < n → ∃ d w',
    read fd n w = Ret (Z.of_nat (length d), d) w' ∧ inp fd w = d ++ inp fd w' ∧
    Z.of_nat (length d) ≤ n ∧ (d = [] → inp fd w = []) ∧
    (∀ fd', fd' ≠ fd → inp fd' w' = inp fd' w) ∧ (∀ fd', out fd' w' = out fd' w);
  read_none : ∀ fd w, ∃ w', read fd 0 w = Ret (0, []) w' ∧ inp fd w = inp fd w' ∧
    (∀ fd', fd' ≠ fd → inp fd' w' = inp fd' w) ∧ (∀ fd', out fd' w' = out fd' w);
  write_ok : ∀ fd bs w, ∃ w',
    write fd bs w = Ret (Z.of_nat (length bs)) w' ∧ out fd w' = out fd w ++ bs ∧
    (∀ fd', fd' ≠ fd → out fd' w' = out fd' w) ∧ (∀ fd', inp fd' w' = inp fd' w)
}.

(** ** A world with streams only, for the witnesses

    The input of each descriptor comes in the pieces listed; every other call
    fails. *)

Record streams : Type := StreamsW { w_in : gmap Z (list (list Z)); w_out : gmap Z (list Z) }.
Definition stream_read (fd n : Z) : M streams (Z * list Z) := λ w,
  match filter (λ c, c ≠ []) (default [] (w_in w !! fd)) with
  | [] => Ret (0, []) (StreamsW (<[fd := []]> (w_in w)) (w_out w))
  | c :: cs =>
      Ret (Z.of_nat (length (take (Z.to_nat n) c)), take (Z.to_nat n) c)
        (StreamsW (<[fd := drop (Z.to_nat n) c :: cs]> (w_in w)) (w_out w))
  end.
Definition stream_write (fd : Z) (bs : list Z) : M streams Z := λ w,
  Ret (Z.of_nat (length bs))
    (StreamsW (w_in w) (<[fd := default [] (w_out w !! fd) ++ bs]> (w_out w))).

#[export] Instance streams_unix : Unix streams := {|
  fork := mret (-1); wait := mret (-1, 0); pipe := mret (-1, 0, 0);
  read := stream_read; write := stream_write; close := λ _, mret 0; kill := λ _, mret (-1);
  exec := λ _ _, mret (-1); open := λ _ _, mret (-1); mknod := λ _ _ _, mret (-1);
  unlink := λ _, mret (-1); fstat := λ _, mret (-1, Ustat 0 0 0 0 0); link := λ _ _, mret (-1);
  mkdir := λ _, mret (-1); chdir := λ _, mret (-1); dup := λ _, mret (-1); getpid := mret 1;
  sbrk := λ _, mret (-1); sleep := λ _, mret 0; uptime := mret 0
|}.
Definition stream_in (fd : Z) (w : streams) : list Z := concat (default [] (w_in w !! fd)).
Definition stream_out (fd : Z) (w : streams) : list Z := default [] (w_out w !! fd).

Lemma concat_filter (l : list (list Z)) : concat (filter (λ c, c ≠ []) l) = concat l.
Proof.
  induction l as [|c l IH]; [done|]. rw filter_cons. case_decide as E; cbn; [by rw IH|].
  rw IH. by rw E.
Qed.

#[export] Instance streams_ok : Streams stream_in stream_out.
Proof.
  split.
  - intros fd n w Hn. change (read fd n w) with (stream_read fd n w). unfold stream_read, stream_in.
    pose proof (concat_filter (default [] (w_in w !! fd))) as E.
    destruct (filter _ _) as [|c cs] eqn:F; cbn in E.
    + exists [], (StreamsW (<[fd := []]> (w_in w)) (w_out w)). cbn. rw lookup_insert_eq -E. cbn.
      split_and!; [done..|lia|done| |done]. intros fd' Hne. by rw lookup_insert_ne.
    + exists (take (Z.to_nat n) c), (StreamsW (<[fd := drop (Z.to_nat n) c :: cs]> (w_in w)) (w_out w)).
      cbn. rw lookup_insert_eq -E. cbn. rw app_assoc take_drop. split_and!; [done|done| | | |done].
      * rw length_take. lia.
      * intros Ht. assert (c ∈ filter (λ c, c ≠ []) (default [] (w_in w !! fd))) as Hc
          by (rw F; by left). apply list_elem_of_filter in Hc as [Hc _].
        destruct c as [|x c]; [done|]. exfalso.
        destruct (Z.to_nat n) eqn:En; [lia|]. done.
      * intros fd' Hne. by rw lookup_insert_ne.
  - intros fd w. change (read fd 0 w) with (stream_read fd 0 w). unfold stream_read, stream_in.
    pose proof (concat_filter (default [] (w_in w !! fd))) as E.
    destruct (filter _ _) as [|c cs] eqn:F; cbn in E; eexists; (split; [done|]); cbn.
    + rw lookup_insert_eq -E. split_and!; [done| |done]. intros fd' Hne. by rw lookup_insert_ne.
    + rw lookup_insert_eq -E. split_and!; [done| |done]. intros fd' Hne. by rw lookup_insert_ne.
  - intros fd bs w. eexists. split; [done|]. unfold stream_out, stream_in. cbn. rw lookup_insert_eq.
    split_and!; [done| |done]. intros fd' Hne. by rw lookup_insert_ne.
Qed.
