(* ===== verification/Ulib.v ===== *)
(** * The user library (user/ulib.c, user/printf.c)

    Strings are modelled as in KString: a [char *] is the list of the bytes
    from the pointer on, and reading at its end gives the terminating NUL; a
    function that writes an array returns its new contents. [memmove],
    [memcmp] and [memcpy] work on byte memory through addresses. *)

From S2P Require Import Prelude KString User.
Open Scope Z_scope.

(** ** ulib.c *)

(** [while(( *s++ = *t++) != 0);] *)
Fixpoint strcpy (s t : list Z) : list Z :=
  match t with
  | [] => 0 :: tl s
  | c :: t => c :: (if c =? 0 then tl s else strcpy (tl s) t)
  end.

Fixpoint strcmp (p q : list Z) : Z :=
  match p with
  | [] => 0 - hd 0 q
  | c :: p =>
      if negb (c =? 0) && (c =? hd 0 q) then strcmp p (tl q) else c - hd 0 q
  end.

Fixpoint strlen (s : list Z) : Z :=
  match s with
  | [] => 0
  | c :: s => if c =? 0 then 0 else 1 + strlen s
  end.

(** [memset] of an array, from its start. *)
Definition memset (dst : list Z) (c n : Z) : list Z :=
  replicate (Z.to_nat n) (u8 c) ++ drop (Z.to_nat n) dst.

(** The string from the first [c] on; [None] is the null pointer. *)
Fixpoint strchr (s : list Z) (c : Z) : option (list Z) :=
  match s with
  | [] => None
  | x :: s' => if x =? 0 then None else if x =? c then Some s else strchr s' c
  end.

Fixpoint atoi_loop (n : Z) (s : list Z) : Z :=
  match s with
  | [] => n
  | c :: s => if (48 <=? c) && (c <=? 57) then atoi_loop (i32 (n * 10 + c - 48)) s else n
  end.
Definition atoi (s : list Z) : Z := atoi_loop 0 s.

Definition memmove (m : bytemem) (vdst vsrc n : Z) : bytemem :=
  if vdst <? vsrc then copy_up m vdst vsrc (Z.to_nat n)
  else copy_down m (vdst + n) (vsrc + n) (Z.to_nat n).
Definition memcpy (m : bytemem) (dst src n : Z) : bytemem := memmove m dst src n.
Fixpoint memcmp (m : bytemem) (p1 p2 : Z) (n : nat) : Z :=
  match n with
  | O => 0
  | S n =>
      if negb (ldb m p1 =? ldb m p2) then ldb m p1 - ldb m p2 else memcmp m (p1 + 1) (p2 + 1) n
  end.

Section calls.
Context {W} `{!Unix W}.

(** [gets]: [buf] is what has been stored, [i] its length. *)
Definition gets_body (max : Z) (buf : list Z) : M W (list Z + list Z) :=
  if negb (Z.of_nat (length buf) + 1 <? max) then mret (inr buf) else
  r ← read 0 1;
  if r.1 <? 1 then mret (inr buf) else
  let c := hd 0 r.2 in
  if (c =? 10) || (c =? 13) then mret (inr (buf ++ [c])) else mret (inl (buf ++ [c])).
(** The contents of [buf] up to the NUL that is stored last. *)
Definition gets (max : Z) : M W (list Z) := loopM (S (Z.to_nat max)) (gets_body max) [].

Definition O_RDONLY : Z := 0x000.
Definition stat (n : list Z) : M W (Z * ustat) :=
  fd ← open n O_RDONLY;
  if fd <? 0 then mret (-1, Ustat 0 0 0 0 0) else
  r ← fstat fd;
  close fd ;;
  mret r.

(** ** printf.c *)

Definition putc (fd c : Z) : M W unit := write fd [u8 c] ;; mret tt.

Definition digits : list Z := str "0123456789ABCDEF".
Definition digit (i : Z) : Z := zget digits i.

(** [do { buf[i++] = digits[x % base]; } while((x /= base) != 0);], of at most
    32 iterations on a [uint]. *)
Fixpoint digits_loop (fuel : nat) (x base : Z) : list Z :=
  match fuel with
  | O => []
  | S fuel =>
      digit (x mod base) :: (if x / base =? 0 then [] else digits_loop fuel (x / base) base)
  end.
(** [buf] of [printint], in the order in which it is filled. *)
Definition printint_buf (xx base sgn : Z) : list Z :=
  let neg := negb (sgn =? 0) && (xx <? 0) in
  let x := if neg then u32 (- xx) else u32 xx in
  digits_loop 32 x base ++ (if neg then [45] else []).
Definition printint (fd xx base sgn : Z) : M W unit :=
  eachM (reverse (printint_buf xx base sgn)) (putc fd).

Definition printptr_chars (x : Z) : list Z :=
  [48; 120] ++ ((λ i : Z, digit (Z.shiftr (u64 (Z.shiftl x (4 * i))) 60)) <$> seqZ 0 16).
Definition printptr (fd x : Z) : M W unit := eachM (printptr_chars x) (putc fd).

(** A variable argument: [int], [uint64] or [char *] (the null pointer as
    [None]). *)
Inductive arg : Type := AInt (x : Z) | AU64 (x : Z) | AStr (s : option (list Z)).

Definition va_int (ap : list arg) : M W (Z * list arg) :=
  match ap with AInt x :: ap => mret (x, ap) | _ => fault end.
Definition va_u64 (ap : list arg) : M W (Z * list arg) :=
  match ap with AU64 x :: ap => mret (x, ap) | _ => fault end.
Definition va_str (ap : list arg) : M W (option (list Z) * list arg) :=
  match ap with AStr x :: ap => mret (x, ap) | _ => fault end.

(** The conversion [%c], in [state] '%' of the loop. *)
Definition convert (fd c : Z) (ap : list arg) : M W (list arg) :=
  if c =? 100 then r ← va_int ap; printint fd r.1 10 1 ;; mret r.2
  else if c =? 108 then r ← va_u64 ap; printint fd (i32 r.1) 10 0 ;; mret r.2
  else if c =? 120 then r ← va_int ap; printint fd r.1 16 0 ;; mret r.2
  else if c =? 112 then r ← va_u64 ap; printptr fd r.1 ;; mret r.2
  else if c =? 115 then
    r ← va_str ap; eachM (cstr (default (str "(null)") r.1)) (putc fd) ;; mret r.2
  else if c =? 99 then r ← va_int ap; putc fd r.1 ;; mret r.2
  else if c =? 37 then putc fd c ;; mret ap
  else putc fd 37 ;; putc fd c ;; mret ap.

(** The loop over the format, [state] being 0 or '%'. *)
Fixpoint vprintf_loop (fd : Z) (fmt : list Z) (state : Z) (ap : list arg) : M W unit :=
  match fmt with
  | [] => mret tt
  | c :: fmt =>
      if c =? 0 then mret tt else
      if state =? 0 then
        if c =? 37 then vprintf_loop fd fmt 37 ap
        else putc fd c ;; vprintf_loop fd fmt 0 ap
      else ap ← convert fd c ap; vprintf_loop fd fmt 0 ap
  end.
Definition vprintf (fd : Z) (fmt : list Z) (ap : list arg) : M W unit := vprintf_loop fd fmt 0 ap.
Definition fprintf (fd : Z) (fmt : list Z) (ap : list arg) : M W unit := vprintf fd fmt ap.
Definition printf (fmt : list Z) (ap : list arg) : M W unit := vprintf 1 fmt ap.
End calls.

(** ** Theorems *)

Section laws.
Context {W} `{!Unix W} {inp out : Z → W → list Z} `{!Streams inp out}.

(** The worlds that differ only in what was written to [fd]. *)
Record wrote (fd : Z) (bs : list Z) (w w' : W) : Prop := {
  wr_out : out fd w' = out fd w ++ bs;
  wr_other : ∀ fd', fd' ≠ fd → out fd' w' = out fd' w;
  wr_inp : ∀ fd', inp fd' w' = inp fd' w
}.

Lemma wrote_none fd w : wrote fd [] w w.
Proof. split; [by rw app_nil_r|done..]. Qed.
Lemma wrote_then fd a b w w' w'' : wrote fd a w w' → wrote fd b w' w'' → wrote fd (a ++ b) w w''.
Proof.
  intros [O1 Q1 I1] [O2 Q2 I2]. split.
  - by rw O2 O1 app_assoc.
  - intros fd' Hne. by rw Q2 // Q1.
  - intros fd'. by rw I2 I1.
Qed.

Lemma write_wrote fd bs w : ∃ w', write fd bs w = Ret (Z.of_nat (length bs)) w' ∧ wrote fd bs w w'.
Proof. destruct (write_ok fd bs w) as (w' & E & O & Q & I). exists w'. split; [done|by split]. Qed.

Lemma putc_ok fd c w : is_byte c → ∃ w', putc fd c w = Ret tt w' ∧ wrote fd [c] w w'.
Proof.
  intros Hc. destruct (write_wrote fd [u8 c] w) as (w' & E & Hw). exists w'.
  unfold putc. mstep E. split; [done|]. by rw u8_small in Hw.
Qed.

Lemma puts_ok fd bs w : Forall is_byte bs → ∃ w', eachM bs (putc fd) w = Ret tt w' ∧ wrote fd bs w w'.
Proof.
  intros Hb. revert w. induction Hb as [|c bs Hc _ IH]; intros w; cbn [eachM].
  { exists w. split; [done|apply wrote_none]. }
  destruct (putc_ok fd c w Hc) as (w1 & E1 & H1). destruct (IH w1) as (w2 & E2 & H2).
  exists w2. mstep E1. split; [done|]. by apply (wrote_then fd [c] bs w w1 w2).
Qed.
End laws.

(** The decimal digits of a number, most significant first. *)
Definition decimal (x : Z) : list Z := reverse (digits_loop 32 x 10).

Lemma digit_small i : 0 ≤ i < 10 → digit i = 48 + i.
Proof.
  intros Hi. assert (i = 0 ∨ i = 1 ∨ i = 2 ∨ i = 3 ∨ i = 4 ∨ i = 5 ∨ i = 6 ∨ i = 7 ∨ i = 8 ∨ i = 9) as H by lia.
  by repeat destruct H as [->|H]; [..|subst].
Qed.

Lemma digits_bytes fuel x : 0 ≤ x → Forall is_byte (digits_loop fuel x 10).
Proof.
  revert x. induction fuel as [|f IH]; intros x Hx; cbn [digits_loop]; [constructor|].
  constructor; [rw digit_small; unfold is_byte; zlia|].
  destruct (x / 10 =? 0); [constructor|]. apply IH. zlia.
Qed.

Lemma atoi_digits fuel x rest :
  0 ≤ x < 2 ^ 31 → x < 10 ^ Z.of_nat fuel →
  atoi_loop 0 (reverse (digits_loop fuel x 10) ++ rest) = atoi_loop x rest.
Proof.
  revert x rest. induction fuel as [|f IH]; intros x rest Hx Hf.
  { cbn. f_equal. cbn in Hf. lia. }
  cbn [digits_loop]. assert (0 ≤ x mod 10 < 10) as Hd by zlia. rw digit_small // reverse_cons -app_assoc.
  assert (∀ a, 0 ≤ a → a * 10 + x mod 10 = x → atoi_loop a ([48 + x mod 10] ++ rest) = atoi_loop x rest) as Hstep.
  { intros a Ha Ex. cbn [app atoi_loop]. rewrite -> (proj2 (Z.leb_le 48 _)) by lia.
    rewrite -> (proj2 (Z.leb_le _ 57)) by lia. cbn [andb]. f_equal. unfold i32. zlia. }
  destruct (Z.eqb_spec (x / 10) 0) as [E|E].
  - cbn [reverse app]. apply Hstep; zlia.
  - rw IH.
    + apply Hstep; zlia.
    + zlia.
    + rw Nat2Z.inj_succ Z.pow_succ_r in Hf; [|lia]. zlia.
Qed.

Lemma decimal_bytes x : 0 ≤ x → Forall is_byte (decimal x).
Proof. intros Hx. apply Forall_reverse. by apply digits_bytes. Qed.

Lemma printint_ok {W} `{!Unix W} {inp out : Z → W → list Z} `{!Streams inp out} fd n (w : W) :
  - 2 ^ 31 ≤ n < 2 ^ 31 →
  ∃ w', printint fd n 10 1 w = Ret tt w' ∧
    wrote (inp := inp) (out := out) fd ((if n <? 0 then [45] else []) ++ decimal (Z.abs n)) w w'.
Proof.
  intros Hn. unfold printint, printint_buf. cbn [Z.eqb negb andb].
  replace (if n <? 0 then u32 (- n) else u32 n) with (Z.abs n)
    by (destruct (Z.ltb_spec n 0); unfold u32; zlia).
  rw reverse_app. replace (reverse (if n <? 0 then [45] else [])) with (if n <? 0 then [45] else [])
    by (by destruct (n <? 0)).
  apply puts_ok. apply Forall_app. split; [|apply decimal_bytes; lia].
  destruct (n <? 0); [|constructor]. constructor; [unfold is_byte; lia|constructor].
Qed.

(** The text of an [int]. *)
Definition int_text (n : Z) : list Z := (if n <? 0 then [45] else []) ++ decimal (Z.abs n).

Lemma atoi_decimal x rest : 0 ≤ x < 2 ^ 31 → ¬ (48 ≤ hd 0 rest ≤ 57) → atoi (decimal x ++ rest) = x.
Proof.
  intros Hx Hr. unfold atoi, decimal. rw atoi_digits; [|lia|].
  - destruct rest as [|c rest]; [done|]. cbn [atoi_loop]. cbn in Hr.
    destruct (Z.leb_spec 48 c), (Z.leb_spec c 57); cbn; (done || lia).
  - apply Z.lt_le_trans with (2 ^ 31); [lia|]. apply Z.leb_le. vm_compute. reflexivity.
Qed.



Definition eol (c : Z) : Prop := c = 10 ∨ c = 13.

Section gets.
Context {W} `{!Unix W} {inp out : Z → W → list Z} `{!Streams inp out}.

(** What is in the buffer after reading from [w] to [w']. *)
Record got (max : Z) (w w' : W) (l : list Z) : Prop := {
  gt_inp : inp 0 w = l ++ inp 0 w';
  gt_other : ∀ fd, fd ≠ 0 → inp fd w' = inp fd w;
  gt_out : ∀ fd, out fd w' = out fd w;
  gt_len : Z.of_nat (length l) < max
}.

Lemma gets_loop max w0 (fuel : nat) : ∀ w l,
  got max w0 w l → Forall (λ c, ¬ eol c) l → max - Z.of_nat (length l) < Z.of_nat fuel →
  ∃ l' w', loopM fuel (gets_body max) l w = Ret l' w' ∧ got max w0 w' l' ∧
    ((∃ a c, l' = a ++ [c] ∧ eol c ∧ Forall (λ c, ¬ eol c) a) ∨
     Forall (λ c, ¬ eol c) l' ∧ (Z.of_nat (length l') = max - 1 ∨ inp 0 w' = [])).
Proof.
  induction fuel as [|f IH]; intros w l Hg Hl Hf; [destruct Hg; lia|]. cbn [loopM]. unfold gets_body at 2.
  destruct (Z.ltb_spec (Z.of_nat (length l) + 1) max) as [Hlt|Hge]; cbn [negb]; cbv iota.
  2: { exists l, w. split; [done|]. split; [done|]. right. split; [done|]. left. destruct Hg. lia. }
  destruct (read_ok 0 1 w) as (d & w1 & E & Hi & Hn & Hd & Ho & Hq); [lia|]. mstep E. cbn [fst snd].
  assert (got max w0 w1 (l ++ d)) as Hg1.
  { destruct Hg as [G1 G2 G3 G4]. split; [by rw G1 Hi app_assoc| | |].
    - intros fd Hne. by rw Ho // G2.
    - intros fd. by rw Hq G3.
    - rw length_app. lia. }
  destruct d as [|c d].
  { rw app_nil_r in Hg1. exists l, w1. split; [done|]. split; [done|]. right. split; [done|]. right.
    specialize (Hd eq_refl). by rw Hi in Hd. }
  destruct d; [|cbn in Hn; lia]. cbn [length hd]. change (Z.of_nat 1 <? 1) with false. cbv iota.
  destruct (decide (eol c)) as [He|He].
  - replace ((c =? 10) || (c =? 13)) with true by (destruct He as [->| ->]; done).
    exists (l ++ [c]), w1. split; [done|]. split; [done|]. left. by exists l, c.
  - replace ((c =? 10) || (c =? 13)) with false by
      (unfold eol in He; destruct (Z.eqb_spec c 10), (Z.eqb_spec c 13); naive_solver).
    apply IH; [done| |].
    + apply Forall_app. by split; [|constructor].
    + rw length_app. cbn [length]. lia.
Qed.

(** [gets] reads one line: what it stores is the input up to and including
    the first end of line, or as much of it as the buffer holds, or as there
    is; never more than [max - 1] bytes, leaving room for the final NUL, and
    it consumes nothing else. *)
Theorem gets_line max (w : W) :
  0 < max →
  ∃ l w', gets max w = Ret l w' ∧ got max w w' l ∧
    ((∃ a c, l = a ++ [c] ∧ eol c ∧ Forall (λ c, ¬ eol c) a) ∨
     Forall (λ c, ¬ eol c) l ∧ (Z.of_nat (length l) = max - 1 ∨ inp 0 w' = [])).
Proof.
  intros Hm. apply gets_loop; [|constructor|cbn; lia]. split; [done|done|done|cbn; lia].
Qed.
End gets.

Lemma gets_line_witness :
  ∃ l w', gets (W := streams) 100 (StreamsW {[0 := [str "ls"; [10]; str "echo"]]} ∅) = Ret l w' ∧
    (length l < 100)%nat.
Proof.
  destruct (gets_line (W := streams) (inp := stream_in) (out := stream_out) 100
    (StreamsW {[0 := [str "ls"; [10]; str "echo"]]} ∅)) as (l & w' & E & [_ _ _ H] & _).
  - reflexivity.
  - exists l, w'. split; [exact E|]. by apply (Nat2Z.inj_lt _ 100).
Defined.
