(* ===== verification/Grep.v ===== *)
(** * grep (user/grep.c)

    The matcher of Kernighan and Pike, proved against the language of a
    regular expression, and the loop that reads the input in pieces and prints
    the lines that match. *)

From S2P Require Import Prelude KString User Ulib.
Open Scope Z_scope.

(** ** The matcher *)

(** [matchstar(c, re, text)], given [matchhere(re, _)]: the [do]-[while] loop,
    [text] moving to its end. *)
Fixpoint matchstar_loop (here : list Z → bool) (c : Z) (text : list Z) : bool :=
  if here text then true else
  match text with
  | [] => false
  | x :: text' =>
      if negb (x =? 0) && ((x =? c) || (c =? 46)) then matchstar_loop here c text' else false
  end.

Fixpoint matchhere (re text : list Z) : bool :=
  match re with
  | [] => true
  | c :: re1 =>
      if c =? 0 then true else
      match re1 with
      | d :: re2 =>
          if d =? 42 then matchstar_loop (matchhere re2) c text else
          if (c =? 36) && (d =? 0) then hd 0 text =? 0 else
          if negb (hd 0 text =? 0) && ((c =? 46) || (c =? hd 0 text))
          then matchhere re1 (tl text) else false
      | [] =>
          if c =? 36 then hd 0 text =? 0 else
          if negb (hd 0 text =? 0) && ((c =? 46) || (c =? hd 0 text))
          then matchhere re1 (tl text) else false
      end
  end.
Definition matchstar (c : Z) (re text : list Z) : bool := matchstar_loop (matchhere re) c text.

(** The [do]-[while] loop of [match]. *)
Fixpoint match_loop (re text : list Z) : bool :=
  if matchhere re text then true else
  match text with
  | [] => false
  | x :: text' => if negb (x =? 0) then match_loop re text' else false
  end.
Definition match_ (re text : list Z) : bool :=
  if hd 0 re =? 94 then matchhere (tl re) text else match_loop re text.

(** ** Reading and printing *)

Section grep.
Context {W} `{!Unix W} (fuel : nat).

(** [sizeof(buf)] *)
Definition bufsize : Z := 1024.

(** The inner loop: [p] is what the buffer has from [p] on. *)
Definition lines_body (pattern p : list Z) : M W (list Z + list Z) :=
  match strchr p 10 with
  | None => mret (inr p)
  | Some q =>
      let line := take (length p - length q) p in
      whenM (match_ pattern line) (write 1 (line ++ [10]) ;; mret tt) ;;
      mret (inl (tl q))
  end.

(** The outer loop: [buf] is what the buffer holds, [m] its length. *)
Definition grep_body (pattern : list Z) (fd : Z) (buf : list Z) : M W (list Z + unit) :=
  r ← read fd (bufsize - Z.of_nat (length buf) - 1);
  if negb (0 <? r.1) then mret (inr tt) else
  let p := buf ++ r.2 in
  p ← loopM (S (length p)) (lines_body pattern) p;
  mret (inl p).
Definition grep (pattern : list Z) (fd : Z) : M W unit := loopM fuel (grep_body pattern fd) [].

Definition main_grep (argv : list (list Z)) : M W unit :=
  match argv with
  | _ :: pattern :: [] => grep pattern 0 ;; exit 0
  | _ :: pattern :: files =>
      eachM files (λ f,
        fd ← open f 0;
        if fd <? 0 then printf (str "grep: cannot open %s" ++ [10]) [AStr (Some f)] ;; exit 1 else
        grep pattern fd ;;
        close fd ;;
        mret tt) ;;
      exit 0
  | _ => fprintf 2 (str "usage: grep pattern [file ...]" ++ [10]) [] ;; exit 1
  end.
End grep.

(** ** Regular expressions *)

(** An item is a character or any character, starred or not. *)
Inductive atom : Type := Any | Chr (c : Z).
Definition atom_of (c : Z) : atom := if c =? 46 then Any else Chr c.
Definition fits (a : atom) (x : Z) : Prop := match a with Any => True | Chr c => x = c end.

(** The items of an expression and whether it is anchored at the end. *)
Fixpoint items (re : list Z) : list (atom * bool) * bool :=
  match re with
  | [] => ([], false)
  | c :: re1 =>
      match re1 with
      | [] => if c =? 36 then ([], true) else ([(atom_of c, false)], false)
      | d :: re2 =>
          if d =? 42 then ((atom_of c, true) :: (items re2).1, (items re2).2)
          else ((atom_of c, false) :: (items re1).1, (items re1).2)
      end
  end.

(** The language of a sequence of items. *)
Fixpoint lang (r : list (atom * bool)) (u : list Z) : Prop :=
  match r with
  | [] => u = []
  | (a, false) :: r => ∃ x u', u = x :: u' ∧ fits a x ∧ lang r u'
  | (a, true) :: r => ∃ xs u', u = xs ++ u' ∧ Forall (fits a) xs ∧ lang r u'
  end.

(** Some text at the start of [t], all of it when anchored, is in the language. *)
Definition at_start (r : list (atom * bool) * bool) (t : list Z) : Prop :=
  ∃ u v, t = u ++ v ∧ lang r.1 u ∧ (r.2 = true → v = []).
Definition matches (re t : list Z) : Prop :=
  if hd 0 re =? 94 then at_start (items (tl re)) t
  else ∃ p s, t = p ++ s ∧ at_start (items re) s.

Definition no_nul (l : list Z) : Prop := Forall (λ c, c ≠ 0) l.

Lemma fits_spec c x : (x =? c) || (c =? 46) = true ↔ fits (atom_of c) x.
Proof.
  unfold atom_of. destruct (Z.eqb_spec c 46) as [->|Hc]; cbn; [rw orb_true_r; naive_solver|].
  rw orb_false_r. apply Z.eqb_eq.
Qed.

Lemma at_start_star a r e t :
  at_start ((a, true) :: r, e) t ↔
    at_start (r, e) t ∨ ∃ x t', t = x :: t' ∧ fits a x ∧ at_start ((a, true) :: r, e) t'.
Proof.
  split.
  - intros (u & v & -> & (xs & u' & -> & Hxs & Hu) & He). destruct Hxs as [|x xs Hx Hxs].
    + left. by exists u', v.
    + right. exists x, ((xs ++ u') ++ v). split; [done|]. split; [done|].
      exists (xs ++ u'), v. split_and!; [done| |done]. by exists xs, u'.
  - intros [(u & v & -> & Hu & He)|(x & t' & -> & Hx & u & v & -> & (xs & u' & -> & Hxs & Hu) & He)].
    + exists u, v. split_and!; [done| |done]. exists [], u. by split_and!.
    + exists (x :: xs ++ u'), v. split_and!; [done| |done]. exists (x :: xs), u'. split_and!; [done|by constructor|done].
Qed.

Lemma at_start_one a r e t :
  at_start ((a, false) :: r, e) t ↔ ∃ x t', t = x :: t' ∧ fits a x ∧ at_start (r, e) t'.
Proof.
  split.
  - intros (u & v & -> & (x & u' & -> & Hx & Hu) & He). exists x, (u' ++ v). split_and!; [done|done|]. by exists u', v.
  - intros (x & t' & -> & Hx & u & v & -> & Hu & He). exists (x :: u), v. split_and!; [done| |done]. by exists x, u.
Qed.

Lemma matchstar_correct here c r e text :
  no_nul text → (∀ t, no_nul t → here t = true ↔ at_start (r, e) t) →
  matchstar_loop here c text = true ↔ at_start ((atom_of c, true) :: r, e) text.
Proof.
  intros Ht Hh. induction Ht as [|x text Hx Ht IH]; cbn [matchstar_loop]; rw at_start_star.
  - destruct (here []) eqn:E.
    + rw Hh in E; [|constructor]. naive_solver.
    + split; [done|]. intros [H|(x & t' & ? & _)]; [|done]. apply Hh in H; [congruence|constructor].
  - destruct (here (x :: text)) eqn:E.
    { rw Hh in E; [|by constructor]. naive_solver. }
    rewrite -> (proj2 (Z.eqb_neq x 0) Hx). cbn [negb andb].
    assert (¬ at_start (r, e) (x :: text)) as Hn.
    { intros H. apply Hh in H; [congruence|by constructor]. }
    destruct ((x =? c) || (c =? 46)) eqn:F.
    + apply fits_spec in F. rw IH. naive_solver.
    + split; [done|]. intros [H|(y & t' & [= <- <-] & Hy & _)]; [done|].
      apply fits_spec in Hy. congruence.
Qed.

(** One unstarred item, then the rest [k]. *)
Lemma match_one c text (k : list Z → bool) r e :
  c ≠ 0 → no_nul text → (∀ t, no_nul t → k t = true ↔ at_start (r, e) t) →
  (if negb (hd 0 text =? 0) && ((c =? 46) || (c =? hd 0 text)) then k (tl text) else false) = true ↔
    at_start ((atom_of c, false) :: r, e) text.
Proof.
  intros Hc Ht Hk. rw at_start_one. destruct Ht as [|x text Hx Ht]; cbn [hd tl].
  { split; [done|]. by intros (x & t' & ? & _). }
  rewrite -> (proj2 (Z.eqb_neq x 0) Hx). cbn [negb andb]. rw (Z.eqb_sym c x) (orb_comm (c =? 46)).
  destruct ((x =? c) || (c =? 46)) eqn:F.
  - apply fits_spec in F. rw Hk //. naive_solver.
  - split; [done|]. intros (y & t' & [= <- <-] & Hy & _). apply fits_spec in Hy. congruence.
Qed.

Lemma matchhere_correct re text :
  no_nul re → no_nul text → matchhere re text = true ↔ at_start (items re) text.
Proof.
  remember (length re) as n eqn:En. revert re text En.
  induction (lt_wf n) as [n _ IH]. intros re text -> Hre Ht.
  destruct Hre as [|c re1 Hc Hre]; cbn [matchhere items].
  { split; [|done]. intros _. exists [], text. by split_and!. }
  rewrite -> (proj2 (Z.eqb_neq c 0) Hc). destruct Hre as [|d re2 Hd Hre].
  - destruct (Z.eqb_spec c 36) as [->|Hc'].
    + split.
      * intros E. destruct Ht as [|x text Hx Ht]; [by exists [], []|]. by apply Z.eqb_eq in E.
      * intros (u & v & -> & -> & He). by rw He.
    + apply (match_one c text (matchhere []) [] false Hc Ht). intros t _.
      split; [|done]. intros _. exists [], t. by split_and!.
  - destruct (Z.eqb_spec d 42) as [->|Hd'].
    + rw (matchstar_correct _ _ (items re2).1 (items re2).2 _ Ht); [done|].
      intros t Ht'. rw -surjective_pairing. apply (IH (length re2)); [cbn; lia|done..].
    + rewrite -> (proj2 (Z.eqb_neq d 0) Hd), andb_false_r.
      apply (match_one c text (matchhere (d :: re2)) _ _ Hc Ht). intros t Ht'.
      rw -surjective_pairing. apply (IH (length (d :: re2))); [cbn; lia|done|by constructor|done].
Qed.

Lemma match_loop_correct re text :
  no_nul re → no_nul text →
  match_loop re text = true ↔ ∃ p s, text = p ++ s ∧ at_start (items re) s.
Proof.
  intros Hre Ht. induction Ht as [|x text Hx Ht IH]; cbn [match_loop].
  - destruct (matchhere re []) eqn:E.
    + apply matchhere_correct in E; [|done|constructor]. split; [|done]. intros _. by exists [], [].
    + split; [done|]. intros (p & s & Hps & H). symmetry in Hps. apply app_nil in Hps as [-> ->].
      apply matchhere_correct in H; [congruence|done|constructor].
  - destruct (matchhere re (x :: text)) eqn:E.
    + apply matchhere_correct in E; [|done|by constructor]. split; [|done]. intros _. by exists [], (x :: text).
    + rewrite -> (proj2 (Z.eqb_neq x 0) Hx). cbn [negb]. rw IH. split.
      * intros (p & s & -> & H). by exists (x :: p), s.
      * intros ([|y p] & s & Hps & H); cbn in Hps.
        -- subst s. apply matchhere_correct in H; [congruence|done|by constructor].
        -- injection Hps as -> ->. by exists p, s.
Qed.

(** C18. [match] decides the language of the expression: it answers 1 exactly
    when some part of the text, the start of it after a leading ^ and up to
    its end before a final $, is in the language of the items, with . for any
    character and * for any number of repetitions. In particular it ends. *)
Theorem match_correct re text :
  no_nul re → no_nul text → match_ re text = true ↔ matches re text.
Proof.
  intros Hre Ht. unfold match_, matches. destruct (Z.eqb_spec (hd 0 re) 94).
  - apply matchhere_correct; [|done]. destruct Hre; [constructor|done].
  - by apply match_loop_correct.
Qed.

Lemma match_correct_witness : matches (str "^a.*d$") (str "abcd").
Proof. apply match_correct; [repeat constructor; discriminate..|reflexivity]. Defined.

(** ** The lines of a text *)

(** The complete lines, without their newline, and what follows the last one;
    [cur] is the line begun so far. *)
Fixpoint lines_from (cur t : list Z) : list (list Z) :=
  match t with
  | [] => []
  | c :: t => if c =? 10 then cur :: lines_from [] t else lines_from (cur ++ [c]) t
  end.
Fixpoint rest_from (cur t : list Z) : list Z :=
  match t with
  | [] => cur
  | c :: t => if c =? 10 then rest_from [] t else rest_from (cur ++ [c]) t
  end.
Definition lines (t : list Z) : list (list Z) := lines_from [] t.

(** What grep is to print for these lines. *)
Definition selected (pattern : list Z) (ls : list (list Z)) : list Z :=
  concat ((λ l, l ++ [10]) <$> filter (λ l, match_ pattern l = true) ls).

Lemma lines_app a : ∀ cur b, lines_from cur (a ++ b) = lines_from cur a ++ lines_from (rest_from cur a) b.
Proof. induction a as [|c a IH]; intros cur b; cbn; [done|]. destruct (c =? 10); cbn; by rw IH. Qed.
Lemma selected_app pattern a b : selected pattern (a ++ b) = selected pattern a ++ selected pattern b.
Proof. unfold selected. by rw filter_app fmap_app concat_app. Qed.

Lemma no_newline_lines a : Forall (λ c, c ≠ 10) a → ∀ cur, lines_from cur a = [] ∧ rest_from cur a = cur ++ a.
Proof.
  induction 1 as [|c a Hc _ IH]; intros cur; cbn; [by rw app_nil_r|].
  rewrite -> (proj2 (Z.eqb_neq c 10) Hc). destruct (IH (cur ++ [c])) as [-> ->]. by rw -app_assoc.
Qed.

Lemma rest_no_newline t : ∀ cur, Forall (λ c, c ≠ 10) cur → Forall (λ c, c ≠ 10) (rest_from cur t).
Proof.
  induction t as [|c t IH]; intros cur Hc; cbn; [done|]. destruct (Z.eqb_spec c 10); apply IH; [constructor|].
  apply Forall_app. by split; [|constructor].
Qed.

Lemma rest_sub (P : Z → Prop) t : ∀ cur, Forall P cur → Forall P t → Forall P (rest_from cur t).
Proof.
  induction t as [|c t IH]; intros cur Hc Ht; cbn; [done|]. apply Forall_cons in Ht as [? Ht].
  destruct (c =? 10); apply IH; [constructor|done| |done]. apply Forall_app. by split; [|constructor].
Qed.
Lemma length_rest t : ∀ cur, (length (rest_from cur t) ≤ length cur + length t)%nat.
Proof.
  induction t as [|c t IH]; intros cur; cbn; [lia|]. destruct (c =? 10).
  - specialize (IH []). cbn in IH. lia.
  - specialize (IH (cur ++ [c])). rw length_app in IH. cbn in IH. lia.
Qed.

Lemma strchr_newline p :
  no_nul p →
  strchr p 10 = None ∧ Forall (λ c, c ≠ 10) p ∨
  ∃ a b, p = a ++ 10 :: b ∧ Forall (λ c, c ≠ 10) a ∧ strchr p 10 = Some (10 :: b).
Proof.
  induction 1 as [|c p Hc _ IH]; cbn; [by left|]. rewrite -> (proj2 (Z.eqb_neq c 0) Hc).
  destruct (Z.eqb_spec c 10) as [->|Hn].
  - right. by exists [], p.
  - destruct IH as [[-> H]|(a & b & -> & Ha & ->)]; [left; by split; [|constructor]|].
    right. exists (c :: a), b. by split_and!; [|constructor|].
Qed.

Section laws.
Context {W} `{!Unix W} {inp out : Z → W → list Z} `{!Streams inp out} (pattern : list Z).
#[local] Abbreviation wrote := (wrote (inp := inp) (out := out)).

Lemma lines_loop (fuel : nat) : ∀ p w,
  no_nul p → (length p < fuel)%nat →
  ∃ w', loopM fuel (lines_body pattern) p w = Ret (rest_from [] p) w' ∧
    wrote 1 (selected pattern (lines p)) w w'.
Proof.
  induction fuel as [|f IH]; intros p w Hp Hf; [lia|]. cbn [loopM]. unfold lines_body at 2.
  destruct (strchr_newline p Hp) as [[E Hn]|(a & b & -> & Ha & E)]; rw E.
  - destruct (no_newline_lines p Hn []) as [El Er]. exists w. split; [by rw Er|].
    unfold lines. rw El. apply wrote_none.
  - replace (take (length (a ++ 10 :: b) - length (10 :: b)) (a ++ 10 :: b)) with a
      by (rw length_app Nat.add_sub; by rw take_app_length).
    destruct (no_newline_lines a Ha []) as [El Er].
    assert (lines (a ++ 10 :: b) = a :: lines b) as Es by (unfold lines; by rw lines_app El Er).
    assert (rest_from [] (a ++ 10 :: b) = rest_from [] b) as Et.
    { clear -Ha. generalize (@nil Z) at 1 as cur. induction Ha as [|c a Hc _ IH]; intros cur; cbn; [done|].
      by rewrite -> (proj2 (Z.eqb_neq c 10) Hc). }
    apply Forall_app in Hp as [_ Hp]. apply Forall_cons in Hp as [_ Hp].
    rw length_app /= in Hf. rw Es Et. unfold selected. cbn [tl].
    destruct (match_ pattern a) eqn:Em.
    + destruct (write_wrote (inp := inp) (out := out) 1 (a ++ [10]) w) as (w1 & E1 & H1).
      destruct (IH b w1 Hp) as (w2 & E2 & H2); [lia|]. exists w2.
      rw filter_cons_True //. cbn [whenM]. split; [|by apply (wrote_then 1 (a ++ [10]) _ w w1 w2)].
      mrun. rw E1. exact E2.
    + destruct (IH b w Hp) as (w2 & E2 & H2); [lia|]. exists w2. rw filter_cons_False; [by split|by rw Em].
Qed.

Lemma rest_cur b t : Forall (λ c, c ≠ 10) b → rest_from [] (b ++ t) = rest_from b t ∧ lines (b ++ t) = lines_from b t.
Proof.
  intros Hb. unfold lines. destruct (no_newline_lines b Hb []) as [El Er].
  rw lines_app El Er. split; [|done].
  assert (∀ cur, rest_from cur (b ++ t) = rest_from (cur ++ b) t) as H; [|by rw H].
  clear -Hb. induction Hb as [|c b Hc _ IH]; intros cur; cbn; [by rw app_nil_r|].
  rewrite -> (proj2 (Z.eqb_neq c 10) Hc). rw IH. by rw -app_assoc.
Qed.

(** A text that begins with as much as fills the buffer has no further line. *)
Lemma lines_full b t :
  (1022 < length b)%nat → Forall (λ l, (length l ≤ 1022)%nat) (lines_from b t) → lines_from b t = [].
Proof.
  revert b. induction t as [|c t IH]; intros b Hb Hl; [done|]. cbn in Hl |- *.
  destruct (c =? 10); [apply Forall_cons in Hl as [Hl _]; lia|].
  apply IH; [rw length_app; lia|done].
Qed.

Lemma grep_loop (fuel : nat) fd : ∀ b w,
  no_nul (b ++ inp fd w) → Forall (λ c, c ≠ 10) b → (length b ≤ 1023)%nat →
  Forall (λ l, (length l ≤ 1022)%nat) (lines (b ++ inp fd w)) → (length (inp fd w) < fuel)%nat →
  ∃ w', loopM fuel (grep_body pattern fd) b w = Ret tt w' ∧
    out 1 w' = out 1 w ++ selected pattern (lines (b ++ inp fd w)).
Proof.
  induction fuel as [|f IH]; intros b w Hz Hb Hm Hl Hf; [lia|]. cbn [loopM]. unfold grep_body at 2.
  destruct (rest_cur b (inp fd w) Hb) as [_ El].
  destruct (decide (length b = 1023%nat)) as [Eb|Nb].
  { destruct (read_none (inp := inp) (out := out) fd w) as (w' & E & _ & _ & Ho).
    replace (bufsize - Z.of_nat (length b) - 1) with 0 by (unfold bufsize; lia).
    exists w'. mstep E. cbn [fst snd]. split; [done|].
    rw Ho El lines_full; [by rw app_nil_r|lia|by rw El in Hl]. }
  destruct (read_ok (inp := inp) (out := out) fd (bufsize - Z.of_nat (length b) - 1) w)
    as (d & w1 & E & Hi & Hn & Hd & Ho & Hq); [unfold bufsize; lia|].
  mstep E. cbn [fst snd]. destruct d as [|x d].
  { exists w1. split; [done|]. rw Hq Hd // app_nil_r. unfold lines.
    destruct (no_newline_lines b Hb []) as [-> _]. by rw app_nil_r. }
  rewrite -> (proj2 (Z.ltb_lt 0 _)) by (cbn; lia). cbn [negb]. cbv zeta.
  set (p := b ++ x :: d) in *.
  assert (b ++ inp fd w = p ++ inp fd w1) as Ep by (unfold p; rw Hi; by rw -app_assoc).
  rw Ep in Hz, Hl |- *. apply Forall_app in Hz as [Hp Hz].
  destruct (lines_loop (S (length p)) p w1 Hp) as (w2 & E2 & [H2 _ I2]); [lia|].
  set (r := rest_from [] p) in *. assert (Forall (λ c, c ≠ 10) r) as Hr by (apply rest_no_newline; constructor).
  assert (lines (p ++ inp fd w1) = lines p ++ lines (r ++ inp fd w1)) as Es.
  { unfold lines at 1. rw lines_app. by destruct (rest_cur r (inp fd w1) Hr) as [_ ->]. }
  rw Es in Hl |- *. apply Forall_app in Hl as [_ Hl]. rw -(I2 fd) in Hl, Hz |- *.
  destruct (IH r w2) as (w3 & E3 & H3).
  - apply Forall_app. split; [|done]. apply rest_sub; [constructor|done].
  - done.
  - pose proof (length_rest p []) as Hlen. fold r in Hlen. unfold p in Hlen. rw length_app in Hlen.
    unfold bufsize in Hn. cbn [length] in *. lia.
  - done.
  - rw I2. rw Hi length_app in Hf. cbn in Hf. lia.
  - exists w3. mrun. rw E2. split; [exact E3|]. by rw H3 H2 Hq selected_app app_assoc.
Qed.

(** C26. grep prints exactly the lines that match. Whatever the pieces in
    which the kernel delivers the input, on a text without NUL whose lines
    have at most 1022 characters [grep] ends, having written to standard output
    the complete lines of the text that match the pattern, in order, each with
    its newline, and nothing else. *)
Theorem grep_selects (fuel : nat) fd (w : W) :
  no_nul (inp fd w) → Forall (λ l, (length l ≤ 1022)%nat) (lines (inp fd w)) →
  (length (inp fd w) < fuel)%nat →
  ∃ w', grep fuel pattern fd w = Ret tt w' ∧ out 1 w' = out 1 w ++ selected pattern (lines (inp fd w)).
Proof. intros Hz Hl Hf. apply (grep_loop fuel fd [] w); [done|constructor|cbn; lia|done|done]. Qed.
End laws.

Lemma grep_selects_witness :
  ∃ w', grep (W := streams) 100 (str "b") 0 (StreamsW {[0 := [str "ab"; [10]; str "c"; [10; 98; 10]]]} ∅) = Ret tt w' ∧
    stream_out 1 w' = str "ab" ++ [10; 98; 10].
Proof.
  destruct (grep_selects (W := streams) (inp := stream_in) (out := stream_out) (str "b") 100 0
    (StreamsW {[0 := [str "ab"; [10]; str "c"; [10; 98; 10]]]} ∅)) as (w' & E & H).
  - repeat constructor; discriminate.
  - repeat constructor; cbn; lia.
  - apply Nat.ltb_lt. reflexivity.
  - exists w'. split; [exact E|exact H].
Defined.
