(* ===== verification/Utils.v ===== *)
(** * Small user programs (user/*.c)

    cat, wc, echo, ls, find, xargs, init, kill, ln, mkdir, rm, sleep, zombie,
    pingpong, primes, forktest and stressfs. [argv] is the list of the
    arguments; a program that returns from [main] calls [exit]. Loops over
    the input and recursion over directories have the bound [fuel]. *)

From S2P Require Import Prelude Riscv KState KString Layout User Ulib.
Open Scope Z_scope.

(** The format of a line. *)
Definition ln_ (s : string) : list Z := str s ++ [10].

Section progs.
Context {W} `{!Unix W} (fuel : nat).

(** ** cat.c *)

Definition cat_body (fd : Z) (_ : unit) : M W (unit + Z) :=
  r ← read fd 512;
  if 0 <? r.1 then
    n ← write 1 r.2;
    if negb (n =? r.1) then fprintf 2 (ln_ "cat: write error") [] ;; exit 1 else mret (inl tt)
  else mret (inr r.1).
Definition cat (fd : Z) : M W unit :=
  n ← loopM fuel (cat_body fd) tt;
  if n <? 0 then fprintf 2 (ln_ "cat: read error") [] ;; exit 1 else mret tt.
Definition main_cat (argv : list (list Z)) : M W unit :=
  match argv with
  | [] | [_] => cat 0 ;; exit 0
  | _ :: files =>
      eachM files (λ f,
        fd ← open f 0;
        if fd <? 0 then fprintf 2 (ln_ "cat: cannot open %s") [AStr (Some f)] ;; exit 1 else
        cat fd ;;
        close fd ;;
        mret tt) ;;
      exit 0
  end.

(** ** wc.c *)

Record counts : Type := Counts { c_l : Z; c_w : Z; c_c : Z; c_inword : Z }.
(** The body of the [for] loop, for the character [x]. *)
Definition wc_char (k : counts) (x : Z) : counts :=
  let c := i32 (c_c k + 1) in
  let l := if x =? 10 then i32 (c_l k + 1) else c_l k in
  match strchr [32; 13; 9; 10; 11] x with
  | Some _ => Counts l (c_w k) c 0
  | None => if c_inword k =? 0 then Counts l (i32 (c_w k + 1)) c 1 else Counts l (c_w k) c (c_inword k)
  end.
Definition wc_body (fd : Z) (k : counts) : M W (counts + counts * Z) :=
  r ← read fd 512;
  if 0 <? r.1 then mret (inl (foldl wc_char k r.2)) else mret (inr (k, r.1)).
Definition wc (fd : Z) (name : list Z) : M W unit :=
  r ← loopM fuel (wc_body fd) (Counts 0 0 0 0);
  if r.2 <? 0 then printf (ln_ "wc: read error") [] ;; exit 1 else
  printf (ln_ "%d %d %d %s") [AInt (c_l r.1); AInt (c_w r.1); AInt (c_c r.1); AStr (Some name)].
Definition main_wc (argv : list (list Z)) : M W unit :=
  match argv with
  | [] | [_] => wc 0 [] ;; exit 0
  | _ :: files =>
      eachM files (λ f,
        fd ← open f 0;
        if fd <? 0 then printf (ln_ "wc: cannot open %s") [AStr (Some f)] ;; exit 1 else
        wc fd f ;;
        close fd ;;
        mret tt) ;;
      exit 0
  end.

(** ** echo.c *)

Fixpoint echo_args (args : list (list Z)) : M W unit :=
  match args with
  | [] => mret tt
  | a :: args =>
      write 1 (cstr a) ;;
      write 1 (match args with [] => [10] | _ => [32] end) ;;
      echo_args args
  end.
Definition main_echo (argv : list (list Z)) : M W unit := echo_args (tl argv) ;; exit 0.

(** ** ls.c *)

(** [for(p = path+strlen(path); p >= path && *p != '/'; p--); p++;]: the index
    after the last slash at or before [p]. *)
Fixpoint last_elem (path : list Z) (p : nat) : nat :=
  if default 0 (path !! p) =? 47 then S p else match p with O => O | S p => last_elem path p end.
Definition basename (path : list Z) : list Z := drop (last_elem path (Z.to_nat (strlen path))) path.

Definition fmtname (path : list Z) : list Z :=
  let p := basename path in
  if DIRSIZ <=? strlen p then p
  else cstr p ++ replicate (Z.to_nat (DIRSIZ - strlen p)) 32.

(** One directory entry; [buf] is the path with its slash. *)
Definition ls_entry (buf : list Z) (d : list Z) : M W unit :=
  let de := dec_dirent d in
  if de_inum de =? 0 then mret tt else
  let name := buf ++ cstr (de_name de) in
  r ← stat name;
  if r.1 <? 0 then printf (ln_ "ls: cannot stat %s") [AStr (Some name)] else
  printf (ln_ "%s %d %d %d") [AStr (Some (fmtname name)); AInt (us_type r.2); AInt (i32 (us_ino r.2));
                              AInt (i32 (us_size r.2))].
Definition ls_body (fd : Z) (buf : list Z) (_ : unit) : M W (unit + unit) :=
  r ← read fd sizeof_dirent;
  if negb (r.1 =? sizeof_dirent) then mret (inr tt) else
  ls_entry buf r.2 ;;
  mret (inl tt).
Definition ls (path : list Z) : M W unit :=
  fd ← open path 0;
  if fd <? 0 then fprintf 2 (ln_ "ls: cannot open %s") [AStr (Some path)] else
  r ← fstat fd;
  if r.1 <? 0 then
    fprintf 2 (ln_ "ls: cannot stat %s") [AStr (Some path)] ;;
    close fd ;;
    mret tt
  else
  let st := r.2 in
  (if us_type st =? T_FILE then
     printf (ln_ "%s %d %d %l") [AStr (Some (fmtname path)); AInt (us_type st); AInt (i32 (us_ino st));
                                 AU64 (us_size st)]
   else if us_type st =? T_DIR then
     if 512 <? strlen path + 1 + DIRSIZ + 1 then printf (ln_ "ls: path too long") []
     else loopM fuel (ls_body fd (cstr path ++ [47])) tt
   else mret tt) ;;
  close fd ;;
  mret tt.
Definition main_ls (argv : list (list Z)) : M W unit :=
  match argv with
  | [] | [_] => ls (str ".") ;; exit 0
  | _ :: paths => eachM paths ls ;; exit 0
  end.

(** ** find.c *)

Definition fname_cmp (path filename : list Z) : Z := strcmp (basename path) filename.

(** One directory entry: [rec] is the recursive call. A name of [DIRSIZ]
    characters has no NUL, and [strcpy] of it runs past the entry. *)
Definition find_entry (rec : list Z → M W unit) (buf : list Z) (d : list Z) : M W unit :=
  let de := dec_dirent d in
  if de_inum de =? 0 then mret tt else
  if strcmp (de_name de) (str ".") =? 0 then mret tt else
  if strcmp (de_name de) (str "..") =? 0 then mret tt else
  if decide (0 ∈ de_name de) then rec (buf ++ cstr (de_name de)) else fault.
Definition find_body (rec : list Z → M W unit) (fd : Z) (buf : list Z) (_ : unit) : M W (unit + unit) :=
  r ← read fd sizeof_dirent;
  if negb (r.1 =? sizeof_dirent) then mret (inr tt) else
  find_entry rec buf r.2 ;;
  mret (inl tt).
(** [depth] bounds the depth of the directory tree. *)
Fixpoint find (depth : nat) (path filename : list Z) : M W unit :=
  match depth with
  | O => stop_with NoFuel
  | S depth =>
      fd ← open path 0;
      if fd <? 0 then
        fprintf 2 (ln_ "find: cannot open %s, fd=%d") [AStr (Some path); AInt fd]
      else
      r ← fstat fd;
      if r.1 <? 0 then
        fprintf 2 (ln_ "find: cannot stat %s") [AStr (Some path)] ;;
        close fd ;;
        mret tt
      else if us_type r.2 =? T_FILE then
        whenM (fname_cmp path filename =? 0) (printf (ln_ "%s") [AStr (Some path)]) ;;
        close fd ;;
        mret tt
      else if us_type r.2 =? T_DIR then
        let buf := if default 0 (last (cstr path)) =? 47 then cstr path else cstr path ++ [47] in
        if 512 <? strlen path + DIRSIZ + 1 then
          printf (ln_ "find: path too long") [] ;;
          close fd ;;
          mret tt
        else
        loopM fuel (find_body (λ p, find depth p filename) fd buf) tt ;;
        close fd ;;
        mret tt
      else close fd ;; mret tt
  end.
Definition main_find (argv : list (list Z)) : M W unit :=
  match argv with
  | _ :: dir :: name :: _ => find fuel dir name ;; exit 0
  | _ => exit 0
  end.

(** ** xargs.c *)

(** What an element of [new_argv] points to: an argument of xargs, a place in
    [buf], or nothing. *)
Inductive xarg : Type := XStr (s : list Z) | XBuf (i : nat) | XNull.

(** [read_line]: [buf] is the array and [len] the number of characters stored. *)
Definition read_line_body (x : list Z * nat) : M W (list Z * nat + list Z * nat) :=
  let '(buf, len) := x in
  r ← read 0 1;
  if negb (0 <? r.1) then mret (inr (buf, len)) else
  if (length buf <=? len)%nat then fault else
  let c := hd 0 r.2 in
  if c =? 10 then mret (inr (<[len := 0]> buf, len)) else mret (inl (<[len := c]> buf, S len)).
Definition read_line (buf : list Z) : M W (list Z * nat) := loopM fuel read_line_body (buf, O).

(** The body of the loop of [add_args], for the character at [line_idx]. *)
Definition add_args_body (line_idx : nat) (x : list xarg * list Z * nat * Z)
    : option (list xarg * list Z * nat * Z) :=
  let '(argv, buf, argv_idx, prev_space) := x in
  if buf !!! line_idx =? 32 then
    Some (argv, <[line_idx := 0]> buf, if prev_space =? 0 then S argv_idx else argv_idx, 1)
  else if prev_space =? 1 then
    if (length argv <=? argv_idx)%nat then None
    else Some (<[argv_idx := XBuf line_idx]> argv, buf, argv_idx, 0)
  else Some (argv, buf, argv_idx, 0).
(** The new [argv] and [buf]; [None] when it writes past the array. *)
Definition add_args (argv : list xarg) (old_argc : nat) (buf : list Z) (line_len : nat)
    : option (list xarg * list Z) :=
  x ← foldl (λ x i, x ≫= add_args_body i) (Some (argv, buf, old_argc, 1)) (seq 0 line_len);
  Some (x.1.1.1, x.1.1.2).

(** The strings that [exec] finds in an array, up to the null pointer; [None]
    when there is none in the array. *)
Fixpoint exec_argv (buf : list Z) (argv : list xarg) : option (list (list Z)) :=
  match argv with
  | [] => None
  | XNull :: _ => Some []
  | XStr s :: argv => cons s <$> exec_argv buf argv
  | XBuf i :: argv => cons (cstr (drop i buf)) <$> exec_argv buf argv
  end.

(** The child's part of one iteration, [init] being what the uninitialised
    array [new_argv] holds. When [exec] fails the child goes on with the loop. *)
Definition xargs_child (init : list xarg) (args : list (list Z)) (buf : list Z) (len : nat)
    : M W (list Z) :=
  if (length init <? length args)%nat then fault else
  let new_argv := (XStr <$> args) ++ drop (length args) init in
  x ← deref (add_args new_argv (length args) buf len);
  argv ← deref (exec_argv x.2 x.1);
  exec (hd [] argv) argv ;;
  mret x.2.
Definition xargs_body (init : list xarg) (args : list (list Z)) (buf : list Z)
    : M W (list Z + unit) :=
  x ← read_line buf;
  let '(buf, len) := x in
  if (len =? 0)%nat then mret (inr tt) else
  pid ← fork;
  if 0 <? pid then wait ;; mret (inl buf)
  else buf ← xargs_child init args buf len; mret (inl buf).
Definition main_xargs (buf : list Z) (init : list xarg) (argv : list (list Z)) : M W unit :=
  match argv with
  | [] | [_] => printf (ln_ "xargs: need argument(s)") [] ;; exit 0
  | _ :: args => loopM fuel (xargs_body init args) buf ;; exit 0
  end.

(** ** init.c *)

(** The inner loop: [true] when the shell has exited. *)
Definition init_wait (pid : Z) (_ : unit) : M W (unit + unit) :=
  r ← wait;
  if r.1 =? pid then mret (inr tt)
  else if r.1 <? 0 then printf (ln_ "init: wait returned an error") [] ;; exit 1
  else mret (inl tt).
Definition init_body (_ : unit) : M W (unit + unit) :=
  printf (ln_ "init: starting sh") [] ;;
  pid ← fork;
  if pid <? 0 then printf (ln_ "init: fork failed") [] ;; exit 1 else
  if pid =? 0 then
    exec (str "sh") [str "sh"] ;;
    printf (ln_ "init: exec sh failed") [] ;;
    exit 1
  else
  loopM fuel (init_wait pid) tt ;;
  mret (inl tt).
Definition main_init : M W unit :=
  fd ← open (str "console") O_RDWR;
  whenM (fd <? 0)
    (mknod (str "console") 1 0 ;;
     open (str "console") O_RDWR ;;
     mret tt) ;;
  dup 0 ;;
  dup 0 ;;
  loopM fuel init_body tt.

(** ** kill.c, ln.c, mkdir.c, rm.c, sleep.c, zombie.c *)

Definition main_kill (argv : list (list Z)) : M W unit :=
  match argv with
  | [] | [_] => fprintf 2 (ln_ "usage: kill pid...") [] ;; exit 1
  | _ :: args => eachM args (λ a, kill (atoi a) ;; mret tt) ;; exit 0
  end.

Definition main_ln (argv : list (list Z)) : M W unit :=
  match argv with
  | [_; old; new] =>
      r ← link old new;
      whenM (r <? 0) (fprintf 2 (ln_ "link %s %s: failed") [AStr (Some old); AStr (Some new)]) ;;
      exit 0
  | _ => fprintf 2 (ln_ "Usage: ln old new") [] ;; exit 1
  end.

Definition main_mkdir (argv : list (list Z)) : M W unit :=
  match argv with
  | [] | [_] => fprintf 2 (ln_ "Usage: mkdir files...") [] ;; exit 1
  | _ :: args =>
      forM args (λ a,
        r ← mkdir a;
        if r <? 0 then fprintf 2 (ln_ "mkdir: %s failed to create") [AStr (Some a)] ;; mret (Some tt)
        else mret None) ;;
      exit 0
  end.

Definition main_rm (argv : list (list Z)) : M W unit :=
  match argv with
  | [] | [_] => fprintf 2 (ln_ "Usage: rm files...") [] ;; exit 1
  | _ :: args =>
      forM args (λ a,
        r ← unlink a;
        if r <? 0 then fprintf 2 (ln_ "rm: %s failed to delete") [AStr (Some a)] ;; mret (Some tt)
        else mret None) ;;
      exit 0
  end.

Definition main_sleep (argv : list (list Z)) : M W unit :=
  match argv with
  | [_; a] => sleep (atoi a) ;; exit 0
  | _ => printf (ln_ "sleep: missing argument") [] ;; exit 0
  end.

Definition main_zombie : M W unit :=
  pid ← fork;
  whenM (0 <? pid) (sleep 5 ;; mret tt) ;;
  exit 0.

(** ** pingpong.c *)

Definition main_pingpong : M W unit :=
  p1 ← pipe;
  p2 ← pipe;
  let '(_, r1, w1) := p1 in
  let '(_, r2, w2) := p2 in
  pid ← fork;
  if pid =? 0 then
    mypid ← getpid;
    c ← read r1 1;
    printf (ln_ "%d: received ping") [AInt mypid] ;;
    write w2 (match c.2 with [] => [97] | _ => c.2 end) ;;
    exit 0
  else
  mypid ← getpid;
  write w1 [97] ;;
  read r2 1 ;;
  printf (ln_ "%d: received pong") [AInt mypid] ;;
  exit 0.

(** ** primes.c *)

Definition write_int (fd num : Z) : M W Z := write fd (le_enc 4 (u32 num)).
(** The result and the new value of the variable that holds [num]. *)
Definition read_int (fd num : Z) : M W (Z * Z) :=
  r ← read fd 4;
  mret (r.1, i32 (le_dec (r.2 ++ drop (length r.2) (le_enc 4 (u32 num))))).

(** The inner loop of a stage, on [num_2] and [num_count]: numbers that
    [num_1] does not divide are passed on. C's remainder is [Z.rem]. *)
Definition sieve_body (rd wr num_1 : Z) (x : Z * Z) : M W (Z * Z + Z * Z) :=
  r ← read_int rd x.1;
  if negb (0 <? r.1) then mret (inr (r.2, x.2)) else
  whenM (negb (Z.rem r.2 num_1 =? 0)) (write_int wr r.2 ;; mret tt) ;;
  mret (inl (r.2, i32 (x.2 + 1))).

(** The variables of [main]: [mypipe[0]], [mypipe[1]], [num_1], [num_2],
    [chld_num]. *)
Record pvars : Type := Pvars { pv_p0 : Z * Z; pv_p1 : Z * Z; pv_n1 : Z; pv_n2 : Z; pv_chld : Z }.

(** One stage, the body of [while(1)]; it leaves the loop with [num_count]. *)
Definition stage (v : pvars) : M W (pvars + Z) :=
  let chld_num := i32 (pv_chld v + 1) in
  let even := Z.rem chld_num 2 =? 0 in
  let rp := if even then pv_p0 v else pv_p1 v in
  q ← pipe;
  let '(_, qr, qw) := q in
  r ← read_int rp.1 (pv_n1 v);
  printf (ln_ "prime %d") [AInt r.2] ;;
  x ← loopM fuel (sieve_body rp.1 qw r.2) (pv_n2 v, 1);
  close rp.1 ;;
  close qw ;;
  if x.2 =? 1 then mret (inr x.2) else
  pid ← fork;
  if 0 <? pid then close qr ;; mret (inr x.2) else
  mret (inl (Pvars (if even then rp else (qr, qw)) (if even then (qr, qw) else rp) r.2 x.1 chld_num)).

(** The two sides of the first [fork]. *)
Definition primes_feed (rd wr : Z) : M W unit :=
  close rd ;;
  eachM (seqZ 2 34) (λ n, write_int wr n ;; mret tt) ;;
  close wr ;;
  wait ;;
  exit 0.
Definition primes_sieve (rd wr num_1 num_2 : Z) : M W unit :=
  close wr ;;
  count ← loopM fuel stage (Pvars (rd, wr) (0, 0) num_1 num_2 (-1));
  whenM (negb (count =? 1)) (wait ;; mret tt) ;;
  exit 0.
Definition main_primes (num_1 num_2 : Z) : M W unit :=
  q ← pipe;
  let '(_, rd, wr) := q in
  pid ← fork;
  if 0 <? pid then primes_feed rd wr else primes_sieve rd wr num_1 num_2.

(** ** forktest.c *)

Definition print (s : list Z) : M W unit := write 1 (cstr s) ;; mret tt.
(** The loop that forks, until [fork] fails or there are [N] children. *)
Fixpoint fork_loop (more : nat) (n : Z) : M W Z :=
  match more with
  | O => mret n
  | S more =>
      pid ← fork;
      if pid <? 0 then mret n else
      if pid =? 0 then exit 0 else fork_loop more (n + 1)
  end.
Definition forktest : M W unit :=
  print (ln_ "fork test") ;;
  n ← fork_loop 1000 0;
  if n =? 1000 then print (ln_ "fork claimed to work N times!") ;; exit 1 else
  eachM (seq 0 (Z.to_nat n)) (λ _,
    r ← wait;
    whenM (r.1 <? 0) (print (ln_ "wait stopped early") ;; exit 1)) ;;
  r ← wait;
  whenM (negb (r.1 =? -1)) (print (ln_ "wait got too many") ;; exit 1) ;;
  print (ln_ "fork test OK").
Definition main_forktest : M W unit := forktest ;; exit 0.

(** ** stressfs.c *)

(** [for(i = 0; i < 4; i++) if(fork() > 0) break;] *)
Fixpoint stress_fork (more : nat) (i : Z) : M W Z :=
  match more with
  | O => mret i
  | S more => pid ← fork; if 0 <? pid then mret i else stress_fork more (i + 1)
  end.
Definition main_stressfs : M W unit :=
  printf (ln_ "stressfs starting") [] ;;
  let data := replicate 512 97 in
  i ← stress_fork 4 0;
  printf (ln_ "write %d") [AInt i] ;;
  let path := str "stressfs" ++ [48 + i] in
  fd ← open path (Z.lor O_CREATE O_RDWR);
  eachM (seq 0 20) (λ _, write fd data ;; mret tt) ;;
  close fd ;;
  printf (ln_ "read") [] ;;
  fd ← open path O_RDONLY;
  eachM (seq 0 20) (λ _, read fd 512 ;; mret tt) ;;
  close fd ;;
  wait ;;
  exit 0.
End progs.

(** ** Theorems *)

(** *** cat copies its input *)

Section laws.
Context {W} `{!Unix W} {inp out : Z → W → list Z} `{!Streams inp out}.

Lemma cat_loop fd (fuel : nat) : ∀ w,
  fd ≠ 1 → (length (inp fd w) < fuel)%nat →
  ∃ w', loopM fuel (cat_body fd) tt w = Ret 0 w' ∧ inp fd w' = [] ∧ out 1 w' = out 1 w ++ inp fd w ∧
    ∀ fd', fd' ≠ 1 → out fd' w' = out fd' w.
Proof.
  induction fuel as [|f IH]; intros w Hfd Hf; [lia|]. cbn [loopM]. unfold cat_body at 2.
  destruct (read_ok (inp := inp) (out := out) fd 512 w) as (d & w1 & E & Hi & Hn & Hd & _ & Hq); [lia|].
  mstep E. cbn [fst snd]. destruct d as [|x d].
  { exists w1. pose proof (Hd eq_refl) as H0. rw Hi in H0. cbn in H0.
    split_and!; [done|done|by rw Hq Hi H0 /= app_nil_r|by intros]. }
  rewrite -> (proj2 (Z.ltb_lt 0 _)) by (cbn; lia).
  destruct (write_wrote (inp := inp) (out := out) 1 (x :: d) w1) as (w2 & E2 & [O2 Q2 I2]).
  destruct (IH w2 Hfd) as (w3 & E3 & H3 & O3 & Q3).
  { rw I2. rw Hi length_app in Hf. cbn in Hf. lia. }
  exists w3. rewrite -> (bind_assoc _ _ _ _ _ _ E2), Z.eqb_refl. cbn [negb]. split; [exact E3|].
  split; [done|]. split.
  - rw O3 O2 Hq I2 Hi. by rw app_assoc.
  - intros fd' Hne. rw Q3 // Q2 // Hq.
Qed.

(** [cat] ends, having copied all of its input to standard output. *)
Lemma cat_copies fd (fuel : nat) w :
  fd ≠ 1 → (length (inp fd w) < fuel)%nat →
  ∃ w', cat fuel fd w = Ret tt w' ∧ inp fd w' = [] ∧ out 1 w' = out 1 w ++ inp fd w ∧
    ∀ fd', fd' ≠ 1 → out fd' w' = out fd' w.
Proof.
  intros Hfd Hf. destruct (cat_loop fd fuel w Hfd Hf) as (w' & E & H). exists w'.
  split; [|exact H]. unfold cat. by mstep E.
Qed.
End laws.
