(* ===== verification/PrimesCorrect.v ===== *)
(** * The sieve of processes prints the primes (user/primes.c)

    [Pipes view] states what primes relies on of fork, pipe, read, write and
    close, as laws on what a process sees of its descriptors, the pipes behind
    them and standard output. The theorem holds for every world with these laws
    and for every answer that [fork] gives, so it covers each of the processes;
    [sys] is one such world. *)

From Stdlib Require Import Sorting.Sorted.
From S2P Require Import Prelude Riscv KState KString Pipe User Ulib Utils.
Open Scope Z_scope.

(** ** What a process sees *)

(** An open descriptor: the read end or the write end of a pipe, or something
    else. *)
Inductive fdesc : Type := Rd (i : nat) | Wr (i : nat) | Other.

(** [v_pipes] are the pieces, each written by one [write], that a pipe still has
    to give before its end, including those that other processes are going to
    write. [v_read] are the pipes that another process reads to the end. [v_out]
    is what the process and, before they forked it, its ancestors have written
    to descriptor 1. [v_forks] are the answers of [fork] on that way. *)
Record view : Type := View {
  v_fds : gmap Z fdesc;
  v_pipes : gmap nat (list (list Z));
  v_read : gset nat;
  v_out : list Z;
  v_forks : list Z
}.

Definition view_pipe (qr qw : Z) (i : nat) (v : view) : view :=
  View (<[qw := Wr i]> (<[qr := Rd i]> (v_fds v))) (<[i := []]> (v_pipes v)) (v_read v) (v_out v) (v_forks v).
Definition view_close (fd : Z) (v : view) : view :=
  View (delete fd (v_fds v)) (v_pipes v) (v_read v) (v_out v) (v_forks v).
Definition view_hold (i : nat) (ds : list (list Z)) (v : view) : view :=
  View (v_fds v) (<[i := ds]> (v_pipes v)) (v_read v) (v_out v) (v_forks v).
Definition view_say (bs : list Z) (v : view) : view :=
  View (v_fds v) (v_pipes v) (v_read v) (v_out v ++ bs) (v_forks v).
Definition view_fork (pid : Z) (v : view) : view :=
  View (v_fds v) (v_pipes v) (v_read v) (v_out v) (v_forks v ++ [pid]).

(** No write end is open in the process. *)
Definition no_writer (v : view) : Prop := ∀ fd i, v_fds v !! fd ≠ Some (Wr i).

(** The laws.
    - [pipe] gives two fresh descriptors while there is room in the table.
    - [read] of the size of the next piece gives that piece: a piece that fits is
      written as a whole.
    - [read] gives the end of file once all is read and the process itself cannot
      write to the pipe; otherwise it need not return.
    - [write] to a pipe with a reader returns if the bytes fit, and appends them;
      otherwise it need not return.
    - [fork] answers anything; descriptors and the pipes that are not written to
      any more are the same on both sides.
    - [wait] changes nothing that the process sees. *)
Class Pipes {W} `{!Unix W} (view_of : W → view) : Prop := {
  pipe_law w : (size (v_fds (view_of w)) + 2 ≤ NOFILE)%nat →
    ∃ qr qw i w', pipe w = Ret (0, qr, qw) w' ∧ qr ≠ qw ∧
      v_fds (view_of w) !! qr = None ∧ v_fds (view_of w) !! qw = None ∧ v_pipes (view_of w) !! i = None ∧
      (∀ fd, v_fds (view_of w) !! fd ≠ Some (Rd i)) ∧ view_of w' = view_pipe qr qw i (view_of w);
  read_law fd i d ds w :
    v_fds (view_of w) !! fd = Some (Rd i) → v_pipes (view_of w) !! i = Some (d :: ds) → d ≠ [] →
    ∃ w', read fd (Z.of_nat (length d)) w = Ret (Z.of_nat (length d), d) w' ∧ view_of w' = view_hold i ds (view_of w);
  eof_law fd i n w :
    v_fds (view_of w) !! fd = Some (Rd i) → v_pipes (view_of w) !! i = Some [] → 0 < n →
    (∀ fd', v_fds (view_of w) !! fd' ≠ Some (Wr i)) →
    ∃ w', read fd n w = Ret (0, []) w' ∧ view_of w' = view_of w;
  write_law fd i ds bs w :
    v_fds (view_of w) !! fd = Some (Wr i) → v_pipes (view_of w) !! i = Some ds →
    (i ∈ v_read (view_of w) ∨ ∃ fd', v_fds (view_of w) !! fd' = Some (Rd i)) →
    Z.of_nat (length (concat ds) + length bs) ≤ PIPESIZE →
    ∃ w', write fd bs w = Ret (Z.of_nat (length bs)) w' ∧ view_of w' = view_hold i (ds ++ [bs]) (view_of w);
  say_law bs w : v_fds (view_of w) !! 1 = Some Other →
    ∃ w', write 1 bs w = Ret (Z.of_nat (length bs)) w' ∧ view_of w' = view_say bs (view_of w);
  close_law fd w : is_Some (v_fds (view_of w) !! fd) →
    ∃ w', close fd w = Ret 0 w' ∧ view_of w' = view_close fd (view_of w);
  fork_law w : no_writer (view_of w) → ∃ pid w', fork w = Ret pid w' ∧ view_of w' = view_fork pid (view_of w);
  wait_law w : ∃ r w', wait w = Ret r w' ∧ view_of w' = view_of w
}.

(** ** The primes *)

(** A number with no divisor but 1 and itself. *)
Definition prime (n : Z) : Prop := 2 ≤ n ∧ ∀ d, 2 ≤ d < n → n mod d ≠ 0.
Definition prime_b (n : Z) : bool := forallb (λ d, negb (n mod d =? 0)) (seqZ 2 (n - 2)).

Lemma prime_b_spec n : 2 ≤ n → prime_b n = true ↔ prime n.
Proof.
  intros Hn. unfold prime_b, prime. rw forallb_forall. split.
  - intros H. split; [done|]. intros d Hd E. specialize (H d). rw E in H. discriminate H.
    apply list_elem_of_In, elem_of_seqZ. lia.
  - intros [_ H] d Hd. apply list_elem_of_In, elem_of_seqZ in Hd.
    apply negb_true_iff, Z.eqb_neq, H. lia.
Qed.

Definition primes36 : list Z := [2; 3; 5; 7; 11; 13; 17; 19; 23; 29; 31].
Lemma elem_of_primes36 n : n ∈ primes36 ↔ prime n ∧ n < 36.
Proof.
  change primes36 with (filter (λ n, prime_b n = true) (seqZ 2 34)).
  rw list_elem_of_filter elem_of_seqZ. split.
  - intros [H Hn]. split; [|lia]. apply prime_b_spec; [lia|done].
  - intros [H Hn]. assert (2 ≤ n) by apply H. split; [|lia]. by apply prime_b_spec.
Qed.

(** The line for one prime, and the pieces for a list of numbers. *)
Definition prime_line (n : Z) : list Z := str "prime " ++ decimal n ++ [10].
Definition ints (l : list Z) : list (list Z) := (λ n, le_enc 4 n) <$> l.

(** What a stage with the prime [p] passes on, and the input of the [k]th
    stage. *)
Definition keep (p : Z) (l : list Z) : list Z := filter (λ n, n mod p ≠ 0) l.
Definition sift (l : list Z) : list Z := match l with [] => [] | p :: l => keep p l end.
Definition sifted (k : nat) : list Z := Nat.iter k sift (seqZ 2 34).

Definition small (n : Z) : Prop := 2 ≤ n < 36.

Lemma sifted_cons k :
  (k < 11)%nat → ∃ p rest, sifted k = p :: rest ∧ take (S k) primes36 = take k primes36 ++ [p] ∧
    Forall small (p :: rest) ∧ (length rest < 34)%nat ∧ (rest = [] ↔ k = 10%nat).
Proof.
  intros Hk. assert (Forall small (sifted k)) as Hs.
  { clear Hk. induction k as [|k IH].
    - apply Forall_forall. intros n Hn%elem_of_seqZ. unfold small. lia.
    - change (sifted (S k)) with (sift (sifted k)). destruct (sifted k) as [|p l]; [done|]. cbn [sift].
      apply Forall_cons in IH as [_ IH]. rw !Forall_forall in IH *. intros n [_ Hn]%list_elem_of_filter. by apply IH. }
  do 11 (destruct k as [|k]; [eexists _, _; split; [vm_compute; reflexivity|]; split; [done|]; split;
    [exact Hs|cbn; split; [lia|done]]|]). lia.
Qed.

(** ** The steps of a process *)

Section laws.
Context {W} `{!Unix W} (view_of : W → view) `{!Pipes view_of}.

Lemma hold_hold i a b v : view_hold i b (view_hold i a v) = view_hold i b v.
Proof. unfold view_hold. cbn. by rw insert_insert_eq. Qed.
Lemma hold_same i a v : v_pipes v !! i = Some a → view_hold i a v = v.
Proof. intros E. unfold view_hold. rw insert_id //. by destruct v. Qed.
Lemma hold_comm i j a b v : i ≠ j → view_hold i a (view_hold j b v) = view_hold j b (view_hold i a v).
Proof. intros E. unfold view_hold. cbn. by rw insert_insert_ne. Qed.
Lemma say_nil v : view_say [] v = v.
Proof. unfold view_say. rw app_nil_r. by destruct v. Qed.
Lemma say_say a b v : view_say b (view_say a v) = view_say (a ++ b) v.
Proof. unfold view_say. cbn. by rw app_assoc. Qed.

Lemma length_ints l : length (concat (ints l)) = (4 * length l)%nat.
Proof. induction l as [|n l IH]; [done|]. cbn [ints fmap list_fmap concat]. rw length_app length_le_enc IH. cbn. lia. Qed.

(** *** Printing *)

Lemma putc_view c w : v_fds (view_of w) !! 1 = Some Other → is_byte c →
  ∃ w', putc 1 c w = Ret tt w' ∧ view_of w' = view_say [c] (view_of w).
Proof.
  intros H1 Hc. destruct (say_law [u8 c] w H1) as (w' & E & V). exists w'. unfold putc. mstep E. by rw V u8_small.
Qed.

Lemma puts_view bs : ∀ w, v_fds (view_of w) !! 1 = Some Other → Forall is_byte bs →
  ∃ w', eachM bs (putc 1) w = Ret tt w' ∧ view_of w' = view_say bs (view_of w).
Proof.
  induction bs as [|c bs IH]; intros w H1 Hb; cbn [eachM].
  { exists w. by rw say_nil. }
  apply Forall_cons in Hb as [Hc Hb]. destruct (putc_view c w H1 Hc) as (w1 & E1 & V1).
  destruct (IH w1) as (w2 & E2 & V2); [by rw V1|done|]. exists w2. mstep E1. split; [exact E2|]. by rw V2 V1 say_say.
Qed.

Lemma text_view l : ∀ w, v_fds (view_of w) !! 1 = Some Other → Forall (λ c, is_byte c ∧ c ≠ 0 ∧ c ≠ 37) l →
  ∃ w', (∀ fmt ap, vprintf_loop 1 (l ++ fmt) 0 ap w = vprintf_loop 1 fmt 0 ap w') ∧ view_of w' = view_say l (view_of w).
Proof.
  induction l as [|c l IH]; intros w H1 Hl.
  { exists w. by rw say_nil. }
  apply Forall_cons in Hl as [(Hc & H0 & H37) Hl]. destruct (putc_view c w H1 Hc) as (w1 & E1 & V1).
  destruct (IH w1) as (w2 & E2 & V2); [by rw V1|done|]. exists w2. split; [|by rw V2 V1 say_say].
  intros fmt ap. cbn [app vprintf_loop]. rewrite -> (proj2 (Z.eqb_neq c 0)), (proj2 (Z.eqb_neq c 37)) by done.
  cbn [Z.eqb]. mstep E1. apply E2.
Qed.

Lemma prime_view n w : v_fds (view_of w) !! 1 = Some Other → small n →
  ∃ w', printf (ln_ "prime %d") [AInt n] w = Ret tt w' ∧ view_of w' = view_say (prime_line n) (view_of w).
Proof.
  intros H1 Hn. unfold small in Hn. unfold printf, vprintf. change (ln_ "prime %d") with (str "prime " ++ [37; 100] ++ [10] ++ []).
  destruct (text_view (str "prime ") w H1) as (w1 & E1 & V1).
  { change (str "prime ") with [112; 114; 105; 109; 101; 32]. unfold is_byte. repeat (apply Forall_cons_2; [lia|]). done. }
  assert (0 ≤ n) as H0 by lia. pose proof (decimal_bytes n H0) as Hb.
  destruct (puts_view (decimal n) w1) as (w2 & E2 & V2); [by rw V1|done|].
  destruct (text_view [10] w2) as (w3 & E3 & V3); [by rw V2 V1|apply Forall_singleton; unfold is_byte; lia|].
  exists w3. split; [|by rw V3 V2 V1 !say_say].
  assert (printint 1 n 10 1 w1 = Ret tt w2) as Ep.
  { unfold printint, printint_buf. cbn [Z.eqb negb andb]. rewrite -> (proj2 (Z.ltb_ge n 0)) by lia.
    rw app_nil_r u32_small; [|lia]. exact E2. }
  rw E1. cbn [app vprintf_loop Z.eqb Pos.eqb]. unfold convert, va_int. cbn [Z.eqb Pos.eqb]. mrun. cbn [fst snd].
  rw Ep. exact (E3 [] []).
Qed.

(** *** Numbers through pipes *)

Lemma read_int_view fd i n ds num w :
  v_fds (view_of w) !! fd = Some (Rd i) → v_pipes (view_of w) !! i = Some (le_enc 4 n :: ds) → small n →
  ∃ w', read_int fd num w = Ret (4, n) w' ∧ view_of w' = view_hold i ds (view_of w).
Proof.
  intros Hf Hp Hn. unfold small in Hn. destruct (read_law fd i (le_enc 4 n) ds w Hf Hp) as (w' & E & V); [done|].
  rw length_le_enc in E. exists w'. split; [|done]. unfold read_int. mstep E. cbn [fst snd].
  rw length_le_enc. change (drop 4 (le_enc 4 (u32 num))) with (@nil Z). rw app_nil_r le_dec_enc.
  change (256 ^ Z.of_nat 4) with 4294967296. rewrite -> Z.mod_small by lia. rw i32_small //. lia.
Qed.

Lemma read_int_eof fd i num w :
  v_fds (view_of w) !! fd = Some (Rd i) → v_pipes (view_of w) !! i = Some [] →
  (∀ fd', v_fds (view_of w) !! fd' ≠ Some (Wr i)) →
  ∃ x w', read_int fd num w = Ret (0, x) w' ∧ view_of w' = view_of w.
Proof.
  intros Hf Hp Hw. destruct (eof_law fd i 4 w Hf Hp) as (w' & E & V); [done|done|].
  eexists _, w'. split; [|done]. unfold read_int. by mstep E.
Qed.

(** The process can write to pipe [i] at [fd], which holds the numbers [l]. *)
Record writes (fd : Z) (i : nat) (l : list Z) (v : view) : Prop := {
  ws_fd : v_fds v !! fd = Some (Wr i);
  ws_pipe : v_pipes v !! i = Some (ints l);
  ws_read : i ∈ v_read v ∨ ∃ fd', v_fds v !! fd' = Some (Rd i)
}.

Lemma write_int_view fd i l n w :
  writes fd i l (view_of w) → small n → (length l < 128)%nat →
  ∃ w', write_int fd n w = Ret 4 w' ∧ view_of w' = view_hold i (ints (l ++ [n])) (view_of w) ∧
    writes fd i (l ++ [n]) (view_of w').
Proof.
  intros [H1 H2 H3] Hn Hl. unfold small in Hn. destruct (write_law fd i (ints l) (le_enc 4 n) w H1 H2 H3) as (w' & E & V).
  { rw length_ints length_le_enc. unfold PIPESIZE. lia. }
  rw length_le_enc in E. exists w'. unfold write_int. rewrite -> u32_small by lia. split; [done|].
  replace (ints (l ++ [n])) with (ints l ++ [le_enc 4 n]) by (unfold ints; by rw fmap_app).
  split; [done|]. rw V. split; [done| |done]. cbn. rw lookup_insert_eq. unfold ints. by rw fmap_app.
Qed.

Lemma feed_view fd i l : ∀ l0 w,
  writes fd i l0 (view_of w) → Forall small l → (length l0 + length l ≤ 128)%nat →
  ∃ w', eachM l (λ n, write_int fd n ;; mret tt) w = Ret tt w' ∧ view_of w' = view_hold i (ints (l0 ++ l)) (view_of w).
Proof.
  induction l as [|n l IH]; intros l0 w Hw Hl Hlen; cbn [eachM].
  { exists w. rw app_nil_r hold_same //. apply Hw. }
  apply Forall_cons in Hl as [Hn Hl]. cbn in Hlen. destruct (write_int_view fd i l0 n w Hw Hn) as (w1 & E1 & V1 & Hw1); [lia|].
  destruct (IH (l0 ++ [n]) w1 Hw1 Hl) as (w2 & E2 & V2); [rw length_app; cbn; lia|].
  assert ((write_int fd n ;; mret tt) w = Ret tt w1) as Ew by (by mstep E1). exists w2. mstep Ew. split; [exact E2|].
  by rw V2 V1 hold_hold -app_assoc.
Qed.

(** *** The inner loop *)

Lemma pass_view wr j p acc n w :
  writes wr j acc (view_of w) → small n → (length acc < 128)%nat →
  ∃ w', whenM (negb (n mod p =? 0)) (write_int wr n ;; mret tt) w = Ret tt w' ∧
    view_of w' = view_hold j (ints (acc ++ keep p [n])) (view_of w) ∧ writes wr j (acc ++ keep p [n]) (view_of w').
Proof.
  intros Hw Hn Hl. unfold keep. rw filter_cons filter_nil. destruct (Z.eqb_spec (n mod p) 0) as [E|E]; cbn [negb whenM].
  - rw decide_False; [|tauto]. exists w. rw app_nil_r. split; [done|]. split; [|done]. rw hold_same //. apply Hw.
  - rw decide_True //. destruct (write_int_view wr j acc n w Hw Hn Hl) as (w2 & E2 & V2 & Hw2).
    exists w2. split; [by mstep E2|done].
Qed.

Lemma sieve_view rd wr i j p (Hp : small p) (Hij : i ≠ j) rest : ∀ fuel acc x c w,
  (length rest < fuel)%nat → Forall small rest → (length acc + length rest ≤ 128)%nat → 1 ≤ c → c + length rest ≤ 1000 →
  v_fds (view_of w) !! rd = Some (Rd i) → v_pipes (view_of w) !! i = Some (ints rest) →
  (∀ fd, v_fds (view_of w) !! fd ≠ Some (Wr i)) → writes wr j acc (view_of w) →
  ∃ x' w', loopM fuel (sieve_body rd wr p) (x, c) w = Ret (x', c + length rest) w' ∧
    view_of w' = view_hold j (ints (acc ++ keep p rest)) (view_hold i [] (view_of w)).
Proof.
  induction rest as [|n rest IH]; intros fuel acc x c w Hf Hr Hl Hc1 Hc Hrd Hpi Hnw Hw; (destruct fuel as [|fuel]; [cbn in Hf; lia|]);
    cbn [loopM]; unfold sieve_body at 2; cbn [fst snd].
  - destruct (read_int_eof rd i x w Hrd Hpi Hnw) as (x' & w1 & E1 & V1). exists x', w1.
    rewrite -> (bind_assoc _ _ _ _ _ _ E1). cbn. split; [by rw Z.add_0_r|].
    rw app_nil_r (hold_same i) // hold_same //. apply Hw.
  - apply Forall_cons in Hr as [Hn Hr]. cbn in Hf, Hl.
    destruct (read_int_view rd i n (ints rest) x w Hrd Hpi Hn) as (w1 & E1 & V1).
    rewrite -> (bind_assoc _ _ _ _ _ _ E1). cbn [fst snd]. cbn [Z.ltb Z.compare negb].
    unfold small in Hn, Hp. rewrite -> Z.rem_mod_nonneg by lia. 
    assert (writes wr j acc (view_of w1)) as Hw1.
    { rw V1. destruct Hw as [? Hj ?]. split; try done. cbn. by rw lookup_insert_ne. }
    destruct (pass_view wr j p acc n w1 Hw1) as (w2 & E2 & V2 & Hw2); [done|lia|]. mstep E2. rw bind_mret.
    rewrite -> i32_small by (cbn in Hc; lia). rw V1 in V2.
    destruct (IH fuel (acc ++ keep p [n]) n (c + 1) w2) as (x' & w3 & E3 & V3); try done; try (cbn in Hc; lia).
    + rw length_app. pose proof (length_filter (λ m, m mod p ≠ 0) [n]). unfold keep. cbn [length] in *. lia.
    + by rw V2.
    + rw V2. cbn. rw lookup_insert_ne // lookup_insert_eq //.
    + by rw V2.
    + exists x', w3. split; [rw E3; do 2 f_equal; cbn; lia|].
      rw V3 V2 (hold_comm i j) // !hold_hold. do 2 f_equal. rw -app_assoc. unfold keep. by rw -filter_app.
Qed.

(** *** One stage *)

(** What is printed by the first [k] stages. *)
Definition lines (k : nat) : list Z := concat (prime_line <$> take k primes36).

(** The process is to run the [k]th stage with input [rd]; [v0] is what it saw at
    first. *)
Record ready (k : nat) (v0 : view) (rd : Z) (v : view) : Prop := {
  rd_pipe : ∃ i, v_fds v !! rd = Some (Rd i) ∧ v_pipes v !! i = Some (ints (sifted k));
  rd_closed : no_writer v;
  rd_tty : v_fds v !! 1 = Some Other;
  rd_room : (size (v_fds v) + 2 ≤ NOFILE)%nat;
  rd_out : v_out v = v_out v0 ++ lines k;
  rd_forks : ∃ ans, v_forks v = v_forks v0 ++ ans ∧ Forall (λ a, a ≤ 0) ans ∧ length ans = k
}.

(** The view of a stage with input [rd] (of pipe [i]), the new pipe [j] and the
    prime [p], when it has passed on the numbers and closed both ends. *)
Definition passed (rd qr qw : Z) (i j : nat) (p : Z) (rest : list Z) (v : view) : view :=
  view_close qw (view_close rd (view_hold j (ints (keep p rest)) (view_hold i []
    (view_say (prime_line p) (view_hold i (ints rest) (view_pipe qr qw j v)))))).

Record new_pipe (qr qw : Z) (j : nat) (v : view) : Prop := {
  np_ne : qr ≠ qw;
  np_qr : v_fds v !! qr = None;
  np_qw : v_fds v !! qw = None;
  np_pipe : v_pipes v !! j = None;
  np_rd fd : v_fds v !! fd ≠ Some (Rd j)
}.

Lemma passed_fds rd qr qw i j p rest v :
  new_pipe qr qw j v → is_Some (v_fds v !! rd) →
  v_fds (passed rd qr qw i j p rest v) = <[qr := Rd j]> (delete rd (v_fds v)).
Proof.
  intros [H1 H2 H3 _ _] [x Hx]. unfold passed. cbn. apply map_eq. intros fd.
  rw !lookup_delete !lookup_insert !lookup_delete. repeat case_decide; congruence.
Qed.

Lemma passed_closed rd qr qw i j p rest v :
  new_pipe qr qw j v → is_Some (v_fds v !! rd) → no_writer v → no_writer (passed rd qr qw i j p rest v).
Proof.
  intros Hn Hr Hw fd i'. rw passed_fds //. rw lookup_insert. case_decide; [done|].
  rw lookup_delete. case_decide; [done|apply Hw].
Qed.

Lemma lines_S k p : take (S k) primes36 = take k primes36 ++ [p] → lines (S k) = lines k ++ prime_line p.
Proof. intros E. unfold lines. rw E fmap_app concat_app /= app_nil_r //. Qed.

(** After a [fork] the child is ready for the next stage. *)
Lemma passed_ready k v0 rd qr qw i j p rest v pid :
  ready k v0 rd v → new_pipe qr qw j v → sifted k = p :: rest → take (S k) primes36 = take k primes36 ++ [p] →
  pid ≤ 0 → ready (S k) v0 qr (view_fork pid (passed rd qr qw i j p rest v)).
Proof.
  intros [(i0 & Hi & _) Hw Ht Hs Ho (ans & Ha & Hz & Hl)] Hn Ek El Hp.
  assert (is_Some (v_fds v !! rd)) as Hr by by eexists. assert (1 ≠ qr ∧ 1 ≠ rd) as [] by (split; destruct Hn; congruence).
  split.
  - exists j. split; [change (v_fds (passed rd qr qw i j p rest v) !! qr = Some (Rd j)); by rw passed_fds // lookup_insert_eq|].
    assert (sifted (S k) = keep p rest) as -> by (change (sift (sifted k) = keep p rest); by rw Ek). cbn. by rw lookup_insert_eq.
  - by apply (passed_closed rd qr qw i j p rest v).
  - change (v_fds (passed rd qr qw i j p rest v) !! 1 = Some Other). by rw passed_fds // lookup_insert_ne // lookup_delete_ne.
  - change (size (v_fds (passed rd qr qw i j p rest v)) + 2 ≤ NOFILE)%nat. rw passed_fds //.
    rw map_size_insert_None; [|rw lookup_delete_ne; [apply Hn|destruct Hn; congruence]].
    rw map_size_delete_Some //. assert (size (v_fds v) ≠ 0%nat) by (intros E%map_size_empty_inv; by rw E in Hi). lia.
  - rw (lines_S k p El) app_assoc -Ho //.
  - exists (ans ++ [pid]). cbn. rw Ha app_assoc length_app Hl. split; [done|]. split; [|cbn; lia].
    apply Forall_app. split; [done|by apply Forall_singleton].
Qed.

(** The input of the stage that [x] are the variables of. *)
Definition input (x : pvars) : Z :=
  (if Z.rem (i32 (pv_chld x + 1)) 2 =? 0 then pv_p0 x else pv_p1 x).1.

Section stage.
Context (fuel : nat) (Hfuel : (34 < fuel)%nat).

(** A stage up to its [fork]. *)
Lemma stage_run k v0 x w :
  (k < 11)%nat → ready k v0 (input x) (view_of w) →
  ∃ qr qw i j p rest n2 w1, new_pipe qr qw j (view_of w) ∧ sifted k = p :: rest ∧
    take (S k) primes36 = take k primes36 ++ [p] ∧ (rest = [] ↔ k = 10%nat) ∧
    view_of w1 = passed (input x) qr qw i j p rest (view_of w) ∧
    let even := Z.rem (i32 (pv_chld x + 1)) 2 =? 0 in
    let rp := if even then pv_p0 x else pv_p1 x in
    stage fuel x w =
      (if 1 + length rest =? 1 then mret (inr (1 + Z.of_nat (length rest))) else
       pid ← fork;
       if 0 <? pid then close qr ;; mret (inr (1 + Z.of_nat (length rest))) else
       mret (inl (Pvars (if even then rp else (qr, qw)) (if even then (qr, qw) else rp) p n2 (i32 (pv_chld x + 1))))) w1.
Proof.
  intros Hk Hr. destruct (sifted_cons k Hk) as (p & rest & Ek & El & Hsm & Hlen & Hlast).
  pose proof Hr as [(i & Hi & Hpi) Hw Ht Hs _ _]. rw Ek in Hpi.
  destruct (pipe_law w Hs) as (qr & qw & j & w1 & E1 & N1 & N2 & N3 & N4 & N5 & V1).
  assert (new_pipe qr qw j (view_of w)) as Hn by by split.
  assert (i ≠ j) as Hij by (intros ->; by apply (N5 (input x))).
  assert (∀ fd y, v_fds (view_of w) !! fd = Some y → v_fds (view_of w1) !! fd = Some y) as Hold.
  { intros fd y E. rw V1. cbn. rw !lookup_insert_ne //; congruence. }
  apply Forall_cons in Hsm as [Hp Hsm].
  destruct (read_int_view (input x) i p (ints rest) (pv_n1 x) w1) as (w2 & E2 & V2); [by apply Hold| |done|].
  { rw V1. cbn. by rw lookup_insert_ne. }
  destruct (prime_view p w2) as (w3 & E3 & V3); [rw V2; by apply Hold|done|].
  destruct (sieve_view (input x) qw i j p Hp Hij rest fuel [] (pv_n2 x) 1 w3) as (n2 & w4 & E4 & V4); try done; try lia.
  { cbn. lia. }
  { rw V3 V2. by apply Hold. }
  { rw V3 V2. cbn. by rw lookup_insert_eq. }
  { intros fd. rw V3 V2 V1. cbn. rw !lookup_insert. repeat case_decide; [congruence|done|apply Hw]. }
  { rw V3 V2 V1. split; cbn; [by rw lookup_insert_eq|by rw lookup_insert_ne // lookup_insert_eq|].
    right. exists qr. by rw lookup_insert_ne // lookup_insert_eq. }
  destruct (close_law (input x) w4) as (w5 & E5 & V5).
  { rw V4 V3 V2. eexists. by apply Hold. }
  destruct (close_law qw w5) as (w6 & E6 & V6).
  { rw V5 V4 V3 V2 V1. cbn. rw lookup_delete_ne; [|congruence]. by rw lookup_insert_eq. }
  exists qr, qw, i, j, p, rest, n2, w6. split_and!; try done.
  { by rw V6 V5 V4 V3 V2 V1. }
  unfold stage. mstep E1. fold (input x). mstep E2. cbn [fst snd]. mstep E3. mstep E4. mstep E5. mstep E6. done.
Qed.

(** A process that runs stages up to the [k]th: [fork] has answered [ans], so it
    is the child (or [fork] failed) each time but possibly the last. *)
Inductive stages : nat → list Z → Prop :=
| st_parent ans pid : Forall (λ a, a ≤ 0) ans → (length ans < 10)%nat → 0 < pid → stages (S (length ans)) (ans ++ [pid])
| st_last ans : Forall (λ a, a ≤ 0) ans → length ans = 10%nat → stages 11 ans.

(** What the process has seen when it has run its stages. *)
Definition ran (k : nat) (v0 v : view) : Prop :=
  ∃ ans, stages k ans ∧ v_forks v = v_forks v0 ++ ans ∧ v_out v = v_out v0 ++ lines k.

(** The child reads from the pipe that its parent has written to. *)
Lemma next_input (k : nat) (rp q : Z * Z) n1 n2 :
  (k < 100)%nat → let even := Z.rem (i32 (Z.of_nat k - 1 + 1)) 2 =? 0 in
  input (Pvars (if even then rp else q) (if even then q else rp) n1 n2 (i32 (Z.of_nat k - 1 + 1))) = q.1.
Proof.
  intros Hk even. unfold even, input. cbn. rw !Z.sub_add !i32_small; [|lia..]. rewrite -> !Z.rem_mod_nonneg by lia.
  destruct (Z.eqb_spec (k mod 2) 0), (Z.eqb_spec ((k + 1) mod 2) 0); (done || zlia).
Qed.

Lemma stages_view m : ∀ k bound v0 x w,
  (k + m = 10)%nat → (m < bound)%nat → pv_chld x = Z.of_nat k - 1 → ready k v0 (input x) (view_of w) →
  ∃ count k' w', loopM bound (stage fuel) x w = Ret count w' ∧ ran k' v0 (view_of w').
Proof.
  induction m as [|m IH]; intros k bound v0 x w Hk Hb Hx Hr; (destruct bound as [|bound]; [lia|]); cbn [loopM];
    (destruct (stage_run k v0 x w) as (qr & qw & i & j & p & rest & n2 & w1 & Hn & Ek & El & Hl & V1 & E1); [lia|done|]);
    pose proof Hr as [_ Hcl _ _ Ho (ans & Ha & Hz & Hlen)].
  - assert (rest = []) as -> by (apply Hl; lia). exists 1, 11%nat, w1. split; [by mstep E1|].
    exists ans. rw V1. split; [apply st_last; [done|lia]|]. split; [done|].
    replace 11%nat with (S k) by lia. rw (lines_S k p El) app_assoc -Ho //.
  - destruct rest as [|y rest]; [destruct Hl as [Hl _]; specialize (Hl eq_refl); lia|].
    rewrite -> (proj2 (Z.eqb_neq _ 1)) in E1 by (cbn; lia). cbv beta iota zeta in E1.
    destruct (fork_law w1) as (pid & w2 & E2 & V2).
    { rw V1. destruct Hr as [(? & ? & _) _ _ _ _ _]. apply passed_closed; [done|by eexists|done]. }
    rw V1 in V2. rewrite -> (bind_Ret _ _ _ _ _ E2) in E1. destruct (Z.ltb_spec 0 pid) as [Hp|Hp].
    + destruct (close_law qr w2) as (w3 & E3 & V3).
      { rw V2. change (is_Some (v_fds (passed (input x) qr qw i j p (y :: rest) (view_of w)) !! qr)).
        destruct Hr as [(? & ? & _) _ _ _ _ _]. rw passed_fds //; by rw lookup_insert_eq. }
      rewrite -> (bind_Ret _ _ _ _ _ E3) in E1. eexists _, (S k), w3. mstep E1. split; [done|].
      exists (ans ++ [pid]). rw V3 V2. split; [rw -Hlen; apply st_parent; [done|lia|done]|].
      split; [cbn; by rw Ha app_assoc|]. rw (lines_S k p El) app_assoc -Ho //.
    + mstep E1. eapply (IH (S k)); [lia|lia|cbn; rw i32_small; lia|].
      rw V2. eapply passed_ready in Hr; [|done|exact Ek|done|exact Hp].
      rw Hx next_input; [exact Hr|lia].
Qed.
End stage.

(** The first stage, once the child has closed the write end. *)
Lemma start_ready rd wr i v :
  rd ≠ wr → v_fds v !! rd = Some (Rd i) → v_fds v !! wr = Some (Wr i) →
  (∀ fd j, v_fds v !! fd = Some (Wr j) → fd = wr) → v_fds v !! 1 = Some Other → (size (v_fds v) < NOFILE)%nat →
  v_pipes v !! i = Some (ints (seqZ 2 34)) → ready 0 (view_close wr v) rd (view_close wr v).
Proof.
  intros Hne Hrd Hwr Hw1 Ht Hs Hp. assert (1 ≠ wr) by congruence. split; cbn [view_close v_fds v_pipes v_out v_forks].
  - exists i. by rw lookup_delete_ne.
  - intros fd j. cbn. rw lookup_delete. case_decide; [done|]. intros E. by apply Hw1 in E.
  - by rw lookup_delete_ne.
  - rw map_size_delete_Some //. unfold NOFILE in *. lia.
  - by rw app_nil_r.
  - exists []. by rw app_nil_r.
Qed.

End laws.

(** ** A world with pipes, for the witness

    What the process sees, and the answers that [fork] is going to give. A call
    that would wait fails. *)
Record sys : Type := Sys { s_view : view; s_pids : list Z }.
Definition sys_upd (f : view → view) (w : sys) : sys := Sys (f (s_view w)) (s_pids w).

Definition sys_pipe : M sys (Z * Z * Z) := λ w,
  let fds := v_fds (s_view w) in
  if decide (size fds + 2 ≤ NOFILE)%nat then
    let qr := fresh (dom fds) in
    let qw := fresh ({[qr]} ∪ dom fds) in
    let ends := map_to_list fds ≫= λ x, match x.2 with Rd i => [i] | _ => [] end in
    let i := fresh (list_to_set ends ∪ dom (v_pipes (s_view w)) : gset nat) in
    Ret (0, qr, qw) (sys_upd (view_pipe qr qw i) w)
  else Ret (-1, 0, 0) w.
Definition sys_read (fd n : Z) : M sys (Z * list Z) := λ w,
  match v_fds (s_view w) !! fd with
  | Some (Rd i) =>
      match v_pipes (s_view w) !! i with
      | Some (d :: ds) =>
          if decide (n = Z.of_nat (length d)) then Ret (n, d) (sys_upd (view_hold i ds) w) else Ret (-1, []) w
      | _ => Ret (0, []) w
      end
  | _ => Ret (-1, []) w
  end.
Definition sys_write (fd : Z) (bs : list Z) : M sys Z := λ w,
  match v_fds (s_view w) !! fd with
  | Some (Wr i) =>
      let ds := default [] (v_pipes (s_view w) !! i) in
      if decide (Z.of_nat (length (concat ds) + length bs) ≤ PIPESIZE) then
        Ret (Z.of_nat (length bs)) (sys_upd (view_hold i (ds ++ [bs])) w)
      else Ret (-1) w
  | Some Other => Ret (Z.of_nat (length bs)) (sys_upd (view_say bs) w)
  | _ => Ret (-1) w
  end.

#[export] Instance sys_unix : Unix sys := {|
  fork := λ w, let pid := hd (-1) (s_pids w) in Ret pid (Sys (view_fork pid (s_view w)) (tl (s_pids w)));
  wait := mret (-1, 0); pipe := sys_pipe; read := sys_read; write := sys_write;
  close := λ fd w, Ret 0 (sys_upd (view_close fd) w); kill := λ _, mret (-1);
  exec := λ _ _, mret (-1); open := λ _ _, mret (-1); mknod := λ _ _ _, mret (-1);
  unlink := λ _, mret (-1); fstat := λ _, mret (-1, Ustat 0 0 0 0 0); link := λ _ _, mret (-1);
  mkdir := λ _, mret (-1); chdir := λ _, mret (-1); dup := λ _, mret (-1); getpid := mret 1;
  sbrk := λ _, mret (-1); sleep := λ _, mret 0; uptime := mret 0
|}.

#[export] Instance sys_pipes : Pipes s_view.
Proof.
  split.
  - intros w Hs. cbn. unfold sys_pipe. rw decide_True //.
    set (qr := fresh (dom (v_fds (s_view w)))). set (qw := fresh ({[qr]} ∪ dom (v_fds (s_view w)))).
    set (ends := map_to_list (v_fds (s_view w)) ≫= _). set (i := fresh (list_to_set ends ∪ dom (v_pipes (s_view w)) : gset nat)).
    pose proof (is_fresh (dom (v_fds (s_view w)))) as F1. pose proof (is_fresh ({[qr]} ∪ dom (v_fds (s_view w)))) as F2.
    pose proof (is_fresh (list_to_set ends ∪ dom (v_pipes (s_view w)) : gset nat)) as F3. fold qr in F1. fold qw in F2. fold i in F3.
    apply not_elem_of_union in F2 as [F2 F2']. apply not_elem_of_union in F3 as [F3 F3'].
    eexists qr, qw, i, _. split; [done|]. split; [set_solver|]. split_and!; try done; try by apply not_elem_of_dom.
    intros fd E. apply F3, elem_of_list_to_set, list_elem_of_bind. exists (fd, Rd i). split; [by left|].
    by apply elem_of_map_to_list.
  - intros fd i d ds w E1 E2 Hd. cbn. unfold sys_read. rw E1 E2 decide_True //. by eexists.
  - intros fd i n w E1 E2 Hn _. cbn. unfold sys_read. rw E1 E2. by eexists.
  - intros fd i ds bs w E1 E2 _ Hb. cbn. unfold sys_write. rw E1 E2. cbn. rw decide_True //. by eexists.
  - intros bs w E. cbn. unfold sys_write. rw E. by eexists.
  - intros fd w _. by eexists.
  - intros w _. by eexists _, _.
  - intros w. by eexists _, _.
Qed.

Definition view_start (ds : list (list Z)) : view :=
  View {[0 := Other; 1 := Other; 2 := Other; 3 := Rd 0; 4 := Wr 0]} {[0%nat := ds]} {[0%nat]} [] [1].

