(* ===== verification/Sh.v ===== *)
(** * The shell (user/sh.c)

    A pointer into the command line is the list of the characters from it to
    the end [es] of the line, so that [s == es] is the empty list, and reading
    there gives the NUL. The parser either gives a command and the new
    pointer, or calls [panic] with a message. A command is a tree, its
    strings still delimited by two pointers; [nulterminate] stores the NULs
    into the line. *)

From S2P Require Import Prelude Riscv KState KString Layout User Ulib.
Open Scope Z_scope.

(** ** Commands *)

(** [struct cmd] and its variants; [argv] with [eargv]. *)
Inductive cmd : Type :=
| EXEC (argv : list (list Z * list Z))
| REDIR (c : cmd) (file efile : list Z) (mode fd : Z)
| PIPE (left right : cmd)
| LIST (left right : cmd)
| BACK (c : cmd).

Definition MAXARGS : nat := 10.

(** ** The result of parsing *)

Inductive perr : Type :=
| PPanic (msg : string)        (** [panic(msg)] *)
| PLeft (s : list Z)           (** leftovers, then [panic("syntax")] *)
| PFuel.                       (** not reached: see [parsecmd_total] *)
Definition P (A : Type) : Type := (perr + A)%type.
#[export] Instance P_ret : MRet P := λ A a, inr a.
#[export] Instance P_bind : MBind P := λ A B f m, match m with inl e => inl e | inr a => f a end.
Definition ppanic {A} (msg : string) : P A := inl (PPanic msg).

(** ** Tokens *)

Definition whitespace : list Z := [32; 9; 13; 10; 11].
Definition symbols : list Z := str "<|>&;()".
(** [strchr(l, c) != 0] *)
Definition among (l : list Z) (c : Z) : bool :=
  match strchr l c with Some _ => true | None => false end.

(** [while(s < es && strchr(whitespace, *s)) s++;] *)
Fixpoint skip_ws (s : list Z) : list Z :=
  match s with
  | [] => []
  | c :: s' => if among whitespace c then skip_ws s' else s
  end.
(** [while(s < es && !strchr(whitespace, *s) && !strchr(symbols, *s)) s++;] *)
Fixpoint skip_word (s : list Z) : list Z :=
  match s with
  | [] => []
  | c :: s' => if among whitespace c || among symbols c then s else skip_word s'
  end.

(** The [switch] of [gettoken]: the token and the pointer after it. *)
Definition scan (s : list Z) : Z * list Z :=
  let c := hd 0 s in
  if c =? 0 then (c, s)
  else if (c =? 124) || (c =? 40) || (c =? 41) || (c =? 59) || (c =? 38) || (c =? 60) then (c, tl s)
  else if c =? 62 then if hd 0 (tl s) =? 62 then (43, tl (tl s)) else (c, tl s)
  else (97, skip_word s).

Record token : Type := Token { tk_ret : Z; tk_q : list Z; tk_eq : list Z; tk_s : list Z }.
Definition gettoken (s : list Z) : token :=
  let q := skip_ws s in
  let '(ret, eq) := scan q in
  Token ret q eq (skip_ws eq).

Definition peek (s toks : list Z) : bool * list Z :=
  let s := skip_ws s in
  (negb (hd 0 s =? 0) && among toks (hd 0 s), s).

(** ** The parser *)

(** [parseredirs], at most [n] of them. *)
Fixpoint parseredirs (n : nat) (c : cmd) (s : list Z) : P (cmd * list Z) :=
  match n with
  | O => inl PFuel
  | S n =>
      let '(more, s) := peek s (str "<>") in
      if negb more then mret (c, s) else
      let tok := gettoken s in
      let f := gettoken (tk_s tok) in
      if negb (tk_ret f =? 97) then ppanic "missing file for redirection" else
      let c :=
        if tk_ret tok =? 60 then REDIR c (tk_q f) (tk_eq f) O_RDONLY 0
        else if tk_ret tok =? 62 then REDIR c (tk_q f) (tk_eq f) (Z.lor (Z.lor O_WRONLY O_CREATE) O_TRUNC) 1
        else if tk_ret tok =? 43 then REDIR c (tk_q f) (tk_eq f) (Z.lor O_WRONLY O_CREATE) 1
        else c in
      parseredirs n c (tk_s f)
  end.

(** [cmd->argv[argc] = q; cmd->eargv[argc] = eq;]: the command that [cmd] points
    to is the one at the bottom of the redirections around it. *)
Fixpoint add_arg (q eq : list Z) (c : cmd) : cmd :=
  match c with
  | EXEC argv => EXEC (argv ++ [(q, eq)])
  | REDIR c file efile mode fd => REDIR (add_arg q eq c) file efile mode fd
  | c => c
  end.

(** The loop of [parseexec], at most [n] words. *)
Fixpoint parseargs (n : nat) (ret : cmd) (argc : nat) (s : list Z) : P (cmd * list Z) :=
  match n with
  | O => inl PFuel
  | S n =>
      let '(stop, s) := peek s (str "|)&;") in
      if stop then mret (ret, s) else
      let tok := gettoken s in
      if tk_ret tok =? 0 then mret (ret, tk_s tok) else
      if negb (tk_ret tok =? 97) then ppanic "syntax" else
      let ret := add_arg (tk_q tok) (tk_eq tok) ret in
      if (MAXARGS <=? S argc)%nat then ppanic "too many args" else
      r ← parseredirs (S (length s)) ret (tk_s tok);
      parseargs n r.1 (S argc) r.2
  end.

(** [while(peek(ps, es, "&")) ...] *)
Fixpoint parseback (n : nat) (c : cmd) (s : list Z) : P (cmd * list Z) :=
  match n with
  | O => inl PFuel
  | S n =>
      let '(more, s) := peek s (str "&") in
      if negb more then mret (c, s) else parseback n (BACK c) (tk_s (gettoken s))
  end.

Fixpoint parseline (n : nat) (s : list Z) : P (cmd * list Z) :=
  match n with
  | O => inl PFuel
  | S n =>
      r ← parsepipe n s;
      r ← parseback (S (length s)) r.1 r.2;
      let '(more, s) := peek r.2 (str ";") in
      if negb more then mret (r.1, s) else
      r' ← parseline n (tk_s (gettoken s));
      mret (LIST r.1 r'.1, r'.2)
  end
with parsepipe (n : nat) (s : list Z) : P (cmd * list Z) :=
  match n with
  | O => inl PFuel
  | S n =>
      r ← parseexec n s;
      let '(more, s) := peek r.2 (str "|") in
      if negb more then mret (r.1, s) else
      r' ← parsepipe n (tk_s (gettoken s));
      mret (PIPE r.1 r'.1, r'.2)
  end
with parseexec (n : nat) (s : list Z) : P (cmd * list Z) :=
  match n with
  | O => inl PFuel
  | S n =>
      let '(block, s) := peek s (str "(") in
      if block then parseblock n s else
      r ← parseredirs (S (length s)) (EXEC []) s;
      parseargs (S (length s)) r.1 O r.2
  end
with parseblock (n : nat) (s : list Z) : P (cmd * list Z) :=
  match n with
  | O => inl PFuel
  | S n =>
      let '(block, s) := peek s (str "(") in
      if negb block then ppanic "parseblock" else
      r ← parseline n (tk_s (gettoken s));
      let '(closed, s') := peek r.2 (str ")") in
      if negb closed then ppanic "syntax - missing )" else
      parseredirs (S (length s)) r.1 (tk_s (gettoken s'))
  end.

(** ** NULs *)

(** The index of a pointer into the line. *)
Definition pos (line p : list Z) : nat := length line - length p.

Fixpoint nulterminate (line : list Z) (c : cmd) (buf : list Z) : list Z :=
  match c with
  | EXEC argv => foldl (λ buf a, <[pos line a.2 := 0]> buf) buf argv
  | REDIR c _ efile _ _ => <[pos line efile := 0]> (nulterminate line c buf)
  | PIPE l r | LIST l r => nulterminate line r (nulterminate line l buf)
  | BACK c => nulterminate line c buf
  end.

(** The number of nested calls of the parser on a line of length [n]. *)
Definition parse_fuel (n : nat) : nat := 4 * n + 4.

(** [parsecmd]: the command, and the buffer with the line and the NULs. *)
Definition parsecmd (line : list Z) : P (cmd * list Z) :=
  r ← parseline (parse_fuel (length line)) line;
  let '(_, s) := peek r.2 [] in
  if decide (s = []) then mret (r.1, nulterminate line r.1 (line ++ [0])) else inl (PLeft s).

(** ** Running commands *)

Section run.
Context {W} `{!Unix W} (fuel : nat).

Definition panic (s : list Z) {A} : M W A := fprintf 2 (str "%s" ++ [10]) [AStr (Some s)] ;; exit 1.
Definition fork1 : M W Z :=
  pid ← fork;
  if pid =? -1 then panic (str "fork") else mret pid.

(** The string at a pointer [p] of the line, in the buffer. *)
Definition string_at (line buf p : list Z) : list Z := cstr (drop (pos line p) buf).

Fixpoint runcmd (line buf : list Z) (c : cmd) : M W unit :=
  match c with
  | EXEC argv =>
      match argv with
      | [] => exit 1
      | a :: _ =>
          exec (string_at line buf a.1) ((λ a, string_at line buf a.1) <$> argv) ;;
          fprintf 2 (str "exec %s failed" ++ [10]) [AStr (Some (string_at line buf a.1))] ;;
          exit 0
      end
  | REDIR c file _ mode fd =>
      close fd ;;
      r ← open (string_at line buf file) mode;
      if r <? 0 then
        fprintf 2 (str "open %s failed" ++ [10]) [AStr (Some (string_at line buf file))] ;;
        exit 1
      else
      runcmd line buf c ;;
      exit 0
  | LIST l r =>
      pid ← fork1;
      whenM (pid =? 0) (runcmd line buf l) ;;
      wait ;;
      runcmd line buf r ;;
      exit 0
  | PIPE l r =>
      p ← pipe;
      let '(res, p0, p1) := p in
      if res <? 0 then panic (str "pipe") else
      pid ← fork1;
      whenM (pid =? 0)
        (close 1 ;; dup p1 ;; close p0 ;; close p1 ;; runcmd line buf l) ;;
      pid ← fork1;
      whenM (pid =? 0)
        (close 0 ;; dup p0 ;; close p0 ;; close p1 ;; runcmd line buf r) ;;
      close p0 ;;
      close p1 ;;
      wait ;;
      wait ;;
      exit 0
  | BACK c =>
      pid ← fork1;
      whenM (pid =? 0) (runcmd line buf c) ;;
      exit 0
  end.

(** The line read, [None] at the end of the input. *)
Definition getcmd (nbuf : Z) : M W (option (list Z)) :=
  fprintf 2 (str "$ ") [] ;;
  l ← gets nbuf;
  mret (if hd 0 l =? 0 then None else Some (cstr l)).

(** [runcmd(parsecmd(buf))] *)
Definition parse_and_run (line : list Z) : M W unit :=
  match parsecmd line with
  | inr (c, buf) => runcmd line buf c
  | inl (PPanic msg) => panic (str msg)
  | inl (PLeft s) => fprintf 2 (str "leftovers: %s" ++ [10]) [AStr (Some s)] ;; panic (str "syntax")
  | inl PFuel => stop_with NoFuel
  end.

Definition console_body (_ : unit) : M W (unit + unit) :=
  fd ← open (str "console") O_RDWR;
  if negb (0 <=? fd) then mret (inr tt) else
  if 3 <=? fd then close fd ;; mret (inr tt) else mret (inl tt).
Definition main_body (_ : unit) : M W (unit + unit) :=
  r ← getcmd 100;
  match r with
  | None => mret (inr tt)
  | Some line =>
      if bool_decide (take 3 line = str "cd ") then
        let dir := drop 3 (take (length line - 1) line) in
        r ← chdir dir;
        whenM (r <? 0) (fprintf 2 (str "cannot cd %s" ++ [10]) [AStr (Some dir)]) ;;
        mret (inl tt)
      else
      pid ← fork1;
      whenM (pid =? 0) (parse_and_run line) ;;
      wait ;;
      mret (inl tt)
  end.
Definition main_sh : M W unit :=
  loopM fuel console_body tt ;;
  loopM fuel main_body tt ;;
  exit 0.
End run.
