(* ===== verification/ShCorrect.v ===== *)
(** * The shell's parser (user/sh.c)

    The parser ends on every line, and it inverts a printer: every command
    tree, printed with parentheses where the grammar needs them, is parsed
    back, and after [nulterminate] its strings are the words printed. *)

From S2P Require Import Prelude Riscv KState KString Layout User Ulib Sh.
Open Scope Z_scope.

(** ** The parser ends *)

Lemma length_skip_ws s : (length (skip_ws s) ≤ length s)%nat.
Proof. induction s as [|c s IH]; cbn; [lia|]. destruct (among _ _); cbn; lia. Qed.
Lemma length_skip_word s : (length (skip_word s) ≤ length s)%nat.
Proof. induction s as [|c s IH]; cbn; [lia|]. destruct (_ || _); cbn; lia. Qed.

Lemma skip_ws_head s : skip_ws s = [] ∨ ∃ c s', skip_ws s = c :: s' ∧ among whitespace c = false.
Proof.
  induction s as [|c s IH]; cbn; [by left|]. destruct (among whitespace c) eqn:E; [done|].
  right. by exists c, s.
Qed.
Lemma skip_ws_idem s : skip_ws (skip_ws s) = skip_ws s.
Proof.
  destruct (skip_ws_head s) as [->|(c & s' & -> & E)]; [done|]. cbn. by rw E.
Qed.

(** The symbols are the characters that [scan] knows. *)
Lemma among_cons x l c : x ≠ 0 → among (x :: l) c = (x =? c) || among l c.
Proof.
  intros Hx. unfold among. cbn. rewrite -> (proj2 (Z.eqb_neq x 0) Hx). by destruct (x =? c).
Qed.
Lemma among_nil c : among [] c = false.
Proof. done. Qed.

Lemma among_symbols c :
  among symbols c =
    (c =? 124) || (c =? 40) || (c =? 41) || (c =? 59) || (c =? 38) || (c =? 60) || (c =? 62).
Proof.
  unfold symbols. change (str "<|>&;()") with [60; 124; 62; 38; 59; 40; 41].
  rw !among_cons // among_nil !(Z.eqb_sym _ c).
  destruct (c =? 60), (c =? 124), (c =? 62), (c =? 38), (c =? 59), (c =? 40), (c =? 41); done.
Qed.

Lemma scan_word s :
  hd 0 s ≠ 0 → among symbols (hd 0 s) = false → scan s = (97, skip_word s).
Proof.
  intros H0. rw among_symbols. intros [E1 E2]%orb_false_iff. unfold scan.
  rewrite -> (proj2 (Z.eqb_neq (hd 0 s) 0) H0). by rw E1 E2.
Qed.

Lemma scan_progress s :
  hd 0 s ≠ 0 → among whitespace (hd 0 s) = false → (length (scan s).2 < length s)%nat.
Proof.
  intros H0 Hw. destruct s as [|c s]; [done|]. cbn [hd] in *. destruct (among symbols c) eqn:E.
  - rw among_symbols in E. unfold scan. cbn [hd tl]. rewrite -> (proj2 (Z.eqb_neq c 0) H0).
    destruct (_ || (c =? 60)) eqn:F; [cbn; lia|]. cbn [orb] in E. rw E.
    destruct (hd 0 s =? 62); destruct s; cbn; lia.
  - rw scan_word //. cbn. rw Hw E. cbn. pose proof (length_skip_word s). lia.
Qed.

(** [gettoken] never moves back, and moves on when there is a token. *)
Lemma gettoken_le s : (length (tk_s (gettoken s)) ≤ length s)%nat.
Proof.
  unfold gettoken. pose proof (length_skip_ws s) as H1. destruct (scan (skip_ws s)) as [ret eq] eqn:E.
  cbn. pose proof (length_skip_ws eq) as H2.
  destruct (decide (hd 0 (skip_ws s) = 0)) as [H0|H0].
  - unfold scan in E. rw H0 in E. injection E as <- <-. lia.
  - destruct (skip_ws_head s) as [En|(c & s' & Es & Hc)]; [by rw En in H0|].
    pose proof (scan_progress (skip_ws s) H0) as Hp. rw Es in Hp. specialize (Hp Hc). rw -Es E in Hp. cbn in Hp. lia.
Qed.
Lemma gettoken_lt s :
  hd 0 (skip_ws s) ≠ 0 → (length (tk_s (gettoken s)) < length s)%nat.
Proof.
  intros H0. unfold gettoken. pose proof (length_skip_ws s) as H1.
  destruct (scan (skip_ws s)) as [ret eq] eqn:E. cbn. pose proof (length_skip_ws eq) as H2.
  destruct (skip_ws_head s) as [En|(c & s' & Es & Hc)]; [by rw En in H0|].
  pose proof (scan_progress (skip_ws s) H0) as Hp. rw Es in Hp. specialize (Hp Hc). rw -Es E in Hp. cbn in Hp. lia.
Qed.

(** After a successful [peek] there is a token. *)
Lemma peek_lt s toks s' :
  peek s toks = (true, s') → (length s' ≤ length s)%nat ∧ (length (tk_s (gettoken s')) < length s')%nat.
Proof.
  unfold peek. intros [= E <-]. apply andb_true_iff in E as [E _]. split; [apply length_skip_ws|].
  apply gettoken_lt. rw skip_ws_idem. by apply negb_true_iff, Z.eqb_neq in E.
Qed.
Lemma peek_le s toks b s' : peek s toks = (b, s') → (length s' ≤ length s)%nat.
Proof. unfold peek. intros [= _ <-]. apply length_skip_ws. Qed.

(** The parser does not run out of fuel, and does not move back. *)
Definition ends {A} (n : nat) (r : P (A * list Z)) : Prop :=
  match r with
  | inl PFuel => False
  | inl _ => True
  | inr (_, s) => (length s ≤ n)%nat
  end.

Lemma ends_bind {A B} (m : P (A * list Z)) (f : A * list Z → P (B * list Z)) n k :
  ends k m → (∀ a s, (length s ≤ k)%nat → ends n (f (a, s))) → ends n (m ≫= f).
Proof. destruct m as [[]|[a s]]; cbn; auto. Qed.
Lemma ends_mono {A} n k (m : P (A * list Z)) : ends n m → (n ≤ k)%nat → ends k m.
Proof. destruct m as [[]|[a s]]; cbn; auto. lia. Qed.

Lemma parseredirs_ends n : ∀ c s, (length s < n)%nat → ends (length s) (parseredirs n c s).
Proof.
  induction n as [|n IH]; intros c s Hn; [lia|]. cbn [parseredirs].
  destruct (peek s (str "<>")) as [[] s1] eqn:E; cbn [negb]; [|by eapply peek_le].
  destruct (peek_lt _ _ _ E) as [H1 H2]. destruct (negb _); [done|].
  pose proof (gettoken_le (tk_s (gettoken s1))). eapply ends_mono; [apply IH; lia|lia].
Qed.
Lemma parseback_ends n : ∀ c s, (length s < n)%nat → ends (length s) (parseback n c s).
Proof.
  induction n as [|n IH]; intros c s Hn; [lia|]. cbn [parseback].
  destruct (peek s (str "&")) as [[] s1] eqn:E; cbn [negb]; [|by eapply peek_le].
  destruct (peek_lt _ _ _ E) as [H1 H2]. eapply ends_mono; [apply IH; lia|lia].
Qed.
Lemma parseargs_ends n : ∀ c argc s, (length s < n)%nat → ends (length s) (parseargs n c argc s).
Proof.
  induction n as [|n IH]; intros c argc s Hn; [lia|]. cbn [parseargs].
  destruct (peek s (str "|)&;")) as [b s1] eqn:E. pose proof (peek_le _ _ _ _ E) as H1.
  destruct b; [done|]. pose proof (gettoken_le s1).
  destruct (Z.eqb_spec (tk_ret (gettoken s1)) 0) as [H0|H0]; [cbn; lia|].
  assert (length (tk_s (gettoken s1)) < length s1)%nat as H2.
  { apply gettoken_lt. intros Hz. apply H0. unfold gettoken, scan. by rw Hz. }
  destruct (negb _); [done|]. destruct (_ <=? _)%nat; [done|].
  eapply ends_bind; [apply parseredirs_ends; lia|]. intros a s' Hs'. cbn.
  eapply ends_mono; [apply IH; lia|lia].
Qed.

Lemma parse_ends n : ∀ s,
  ((4 * length s + 4 ≤ n)%nat → ends (length s) (parseline n s)) ∧
  ((4 * length s + 3 ≤ n)%nat → ends (length s) (parsepipe n s)) ∧
  ((4 * length s + 2 ≤ n)%nat → ends (length s) (parseexec n s)) ∧
  ((4 * length s + 1 ≤ n)%nat → ends (length s) (parseblock n s)).
Proof.
  induction n as [|n IH]; intros s; [split_and!; lia|].
  split_and!; intros Hn; cbn [parseline parsepipe parseexec parseblock].
  - eapply ends_bind; [apply IH; lia|]. intros c s1 H1. cbn [fst snd].
    eapply ends_bind; [eapply parseback_ends; lia|]. intros c' s2 H2. cbn [fst snd].
    destruct (peek s2 (str ";")) as [[] s3] eqn:E; cbn [negb].
    + destruct (peek_lt _ _ _ E) as [H3 H4]. eapply ends_bind; [apply IH; lia|]. intros ? s5 H5. cbn. lia.
    + pose proof (peek_le _ _ _ _ E). cbn. lia.
  - eapply ends_bind; [apply IH; lia|]. intros c s1 H1. cbn [fst snd].
    destruct (peek s1 (str "|")) as [[] s3] eqn:E; cbn [negb].
    + destruct (peek_lt _ _ _ E) as [H3 H4]. eapply ends_bind; [apply IH; lia|]. intros ? s5 H5. cbn. lia.
    + pose proof (peek_le _ _ _ _ E). cbn. lia.
  - destruct (peek s (str "(")) as [[] s1] eqn:E; pose proof (peek_le _ _ _ _ E).
    + eapply ends_mono; [apply IH; lia|lia].
    + eapply ends_bind; [eapply parseredirs_ends; lia|]. intros c s2 H2. cbn [fst snd].
      eapply ends_mono; [apply parseargs_ends; lia|lia].
  - destruct (peek s (str "(")) as [[] s1] eqn:E; cbn [negb]; [|done].
    destruct (peek_lt _ _ _ E) as [H3 H4]. eapply ends_bind; [apply IH; lia|]. intros c s2 H2. cbn [fst snd].
    destruct (peek s2 (str ")")) as [[] s4] eqn:E'; cbn [negb]; [|done].
    destruct (peek_lt _ _ _ E') as [H5 H6]. eapply ends_mono; [apply parseredirs_ends; lia|lia].
Qed.

(** C34. The parser ends on every line: [parsecmd] gives a command or calls
    [panic]; the bound on its nested calls is never reached. *)
Theorem parsecmd_total line : parsecmd line ≠ inl PFuel.
Proof.
  unfold parsecmd. destruct (parse_ends (parse_fuel (length line)) line) as (H & _).
  specialize (H ltac:(unfold parse_fuel; lia)).
  destruct (parseline _ _) as [[]|[c s]]; cbn in H |- *; [done..|]. by case_decide.
Qed.

(** ** Printing commands *)

Inductive redir : Type := RIn | ROut | RAppend.
Inductive ast : Type :=
| AExec (argv : list (list Z))
| ARedir (c : ast) (k : redir) (file : list Z)
| APipe (l r : ast)
| AList (l r : ast)
| ABack (c : ast).

(** The places of the grammar, from the loosest to the tightest. *)
Definition LLine : nat := 0.
Definition LBack : nat := 1.
Definition LPipe : nat := 2.
Definition LExec : nat := 3.

Definition show_redir (k : redir) : list Z :=
  match k with RIn => str "<" | ROut => str ">" | RAppend => str ">>" end.
Definition show_words (ws : list (list Z)) : list Z := concat ((λ w, w ++ [32]) <$> ws).
Definition paren (b : bool) (t : list Z) : list Z := if b then [40] ++ t ++ [41] else t.

Fixpoint show (l : nat) (a : ast) : list Z :=
  match a with
  | AExec ws => show_words ws
  | ARedir c k f => show LExec c ++ show_redir k ++ [32] ++ f ++ [32]
  | APipe x y => paren (LPipe <? l)%nat (show LExec x ++ [124] ++ show LPipe y)
  | AList x y => paren (LLine <? l)%nat (show LBack x ++ [59] ++ show LLine y)
  | ABack x => paren (LBack <? l)%nat (show LBack x ++ [38])
  end.

(** Words are not empty and have no white space, symbol or NUL; a command has
    at most nine of them. *)
Definition wordchar (c : Z) : Prop := c ≠ 0 ∧ among whitespace c = false ∧ among symbols c = false.
Definition word (w : list Z) : Prop := w ≠ [] ∧ Forall wordchar w.
Fixpoint wf (a : ast) : Prop :=
  match a with
  | AExec ws => Forall word ws ∧ (length ws < MAXARGS)%nat
  | ARedir c _ f => wf c ∧ word f
  | APipe x y | AList x y => wf x ∧ wf y
  | ABack x => wf x
  end.

(** The tree that a command stands for, given the strings of its pointers. *)
Definition redir_of (mode fd : Z) : redir :=
  if fd =? 0 then RIn else if Z.land mode O_TRUNC =? 0 then RAppend else ROut.
Fixpoint resolve (at_ : list Z → list Z) (c : cmd) : ast :=
  match c with
  | EXEC argv => AExec ((λ a, at_ a.1) <$> argv)
  | REDIR c file _ mode fd => ARedir (resolve at_ c) (redir_of mode fd) (at_ file)
  | PIPE l r => APipe (resolve at_ l) (resolve at_ r)
  | LIST l r => AList (resolve at_ l) (resolve at_ r)
  | BACK c => ABack (resolve at_ c)
  end.

(** ** Commands that stand for a tree *)

(** [q] and [eq] delimit the word [w] in [line]. *)
Definition delimits (line w q eq : list Z) : Prop :=
  q `suffix_of` line ∧ q = w ++ eq ∧ word w ∧ ¬ wordchar (hd 0 eq).

Fixpoint means (line : list Z) (a : ast) (c : cmd) : Prop :=
  match a, c with
  | AExec ws, EXEC argv => Forall2 (λ w p, delimits line w p.1 p.2) ws argv
  | ARedir a k f, REDIR c q eq mode fd =>
      means line a c ∧ delimits line f q eq ∧ redir_of mode fd = k
  | APipe x y, PIPE l r | AList x y, LIST l r => means line x l ∧ means line y r
  | ABack x, BACK c => means line x c
  | _, _ => False
  end.

Lemma delimits_mono s line w q eq : s `suffix_of` line → delimits s w q eq → delimits line w q eq.
Proof. intros Hs (H1 & H2). split; [by etrans|done]. Qed.
Lemma means_mono s line a : s `suffix_of` line → ∀ c, means s a c → means line a c.
Proof.
  intros Hs. induction a as [ws|a IH k f|x IHx y IHy|x IHx y IHy|x IHx]; intros []; cbn; try done.
  - intros H. eapply Forall2_impl; [exact H|]. intros w p. by apply delimits_mono.
  - intros (H1 & H2 & H3). split_and!; [by apply IH|by eapply delimits_mono|done].
  - intros [H1 H2]. split; [by apply IHx|by apply IHy].
  - intros [H1 H2]. split; [by apply IHx|by apply IHy].
  - by apply IHx.
Qed.

(** ** Tokens of a printed command *)

Lemma not_wordchar_space : ¬ wordchar 32.
Proof. intros (_ & H & _). discriminate H. Qed.

Lemma skip_ws_word c s : wordchar c → skip_ws (c :: s) = c :: s.
Proof. intros (_ & H & _). cbn. by rw H. Qed.

Lemma skip_word_app w eq : Forall wordchar w → skip_word (w ++ 32 :: eq) = 32 :: eq.
Proof. induction 1 as [|c w (_ & H1 & H2) _ IH]; cbn; [done|]. by rw H1 H2. Qed.

Lemma gettoken_word w s :
  word w → gettoken (w ++ 32 :: s) = Token 97 (w ++ 32 :: s) (32 :: s) (skip_ws s).
Proof.
  intros [Hne Hw]. unfold gettoken. destruct Hw as [|c w Hc Hw]; [done|]. cbn [app].
  rw skip_ws_word //. rw scan_word; [|by destruct Hc|by destruct Hc as (_ & _ & ?)].
  cbn [skip_word]. destruct Hc as (_ & H1 & H2). rw H1 H2. cbn [orb]. by rw skip_word_app.
Qed.

(** A symbol that [gettoken] returns as itself. *)
Lemma gettoken_symbol c s :
  c = 124 ∨ c = 40 ∨ c = 41 ∨ c = 59 ∨ c = 38 ∨ c = 60 →
  gettoken (c :: s) = Token c (c :: s) s (skip_ws s).
Proof. intros H. by repeat destruct H as [->|H]; [..|subst]. Qed.
Lemma gettoken_redir k s :
  ∃ c, gettoken (show_redir k ++ 32 :: s) = Token c (show_redir k ++ 32 :: s) (32 :: s) (skip_ws s) ∧
    c = match k with RIn => 60 | ROut => 62 | RAppend => 43 end.
Proof. destruct k; eexists; (split; [|reflexivity]); reflexivity. Qed.

(** What may follow: the end of the line or one of [l]. *)
Definition follow (l : list Z) (rest : list Z) : Prop :=
  skip_ws rest = [] ∨ ∃ c s, skip_ws rest = c :: s ∧ c ∈ l.

Lemma peek_follow rest l toks :
  follow l rest → (∀ c, c ∈ l → among toks c = false) → peek rest toks = (false, skip_ws rest).
Proof.
  intros [E|(c & s & E & Hc)] Hl; unfold peek; rw E; cbn [hd]; [done|].
  rw Hl //. by rw andb_false_r.
Qed.

(** ** Parsing what was printed *)

(** [s] reads as [t]: they differ in leading white space only. *)
Definition reads (s t : list Z) : Prop := skip_ws s = skip_ws t.

Lemma peek_reads s t toks : reads s t → peek s toks = peek t toks.
Proof. unfold reads, peek. by intros ->. Qed.
Lemma gettoken_reads s t : reads s t → gettoken s = gettoken t.
Proof. unfold reads, gettoken. by intros ->. Qed.
Lemma reads_skip s t : reads s t → reads (skip_ws s) t.
Proof. unfold reads. intros <-. apply skip_ws_idem. Qed.
Lemma skip_ws_suffix s : skip_ws s `suffix_of` s.
Proof.
  induction s as [|c s IH]; cbn; [done|]. destruct (among _ _); [|done]. by apply suffix_cons_r.
Qed.
Lemma reads_suffix s t line : reads s t → skip_ws t = t → s `suffix_of` line → t `suffix_of` line.
Proof. unfold reads. intros E Et Hs. rw Et in E. rw -E. by etrans; [apply skip_ws_suffix|]. Qed.
Lemma reads_length s t : reads s t → skip_ws t = t → (length t ≤ length s)%nat.
Proof. unfold reads. intros E Et. rw Et in E. rw -E. apply length_skip_ws. Qed.

(** The stop tokens of each place. *)
Definition FExec : list Z := [124; 41; 59; 38].
Definition FPipe : list Z := [41; 59; 38].
Definition FLine : list Z := [41].

Lemma follow_mono l l' rest : l ⊆ l' → follow l rest → follow l' rest.
Proof. intros Hl [E|(c & s & E & Hc)]; [by left|]. right. exists c, s. split; [done|]. by apply Hl. Qed.
Lemma follow_symbol c l rest : c ∈ l → among whitespace c = false → follow l (c :: rest).
Proof. intros Hc Hw. right. exists c, rest. split; [|done]. cbn. by rw Hw. Qed.
Lemma follow_skip l rest : follow l rest → follow l (skip_ws rest).
Proof. unfold follow. by rw skip_ws_idem. Qed.

Definition show_redirs (rs : list (redir * list Z)) : list Z :=
  concat ((λ r, show_redir r.1 ++ [32] ++ r.2 ++ [32]) <$> rs).
Definition with_redirs (a : ast) (rs : list (redir * list Z)) : ast :=
  foldl (λ a r, ARedir a r.1 r.2) a rs.

Lemma skip_ws_redir k s : skip_ws (show_redir k ++ s) = show_redir k ++ s.
Proof. by destruct k. Qed.
Lemma skip_ws_word_app w s : word w → skip_ws (w ++ s) = w ++ s.
Proof. intros [Hne Hw]. destruct Hw as [|c w Hc _]; [done|]. by apply skip_ws_word. Qed.

Lemma delimits_here line w s : word w → (w ++ 32 :: s) `suffix_of` line → delimits line w (w ++ 32 :: s) (32 :: s).
Proof. intros Hw Hs. split_and!; [done|done|done|exact not_wordchar_space]. Qed.

Lemma parseredirs_none n c s rest l :
  follow l rest → reads s rest → (∀ x, x ∈ l → among (str "<>") x = false) → (0 < n)%nat →
  parseredirs n c s = inr (c, skip_ws rest).
Proof.
  intros Hf Hs Hl Hn. destruct n as [|n]; [lia|]. cbn [parseredirs].
  by rewrite -> (peek_reads s rest _ Hs), (peek_follow rest l _ Hf Hl).
Qed.

Lemma parseredirs_ok rs : ∀ n a c s rest line,
  Forall (λ r, word r.2) rs → means line a c → reads s (show_redirs rs ++ rest) → s `suffix_of` line →
  follow FExec rest → (length s < n)%nat →
  ∃ c', parseredirs n c s = inr (c', skip_ws rest) ∧ means line (with_redirs a rs) c'.
Proof.
  induction rs as [|[k f] rs IH]; intros n a c s rest line Hrs Hc Hs Hl Hf Hn.
  { exists c. split; [|done]. eapply parseredirs_none; [exact Hf|exact Hs| |lia].
    intros x Hx. repeat (apply elem_of_cons in Hx as [->|Hx]; [done|]). by apply elem_of_nil in Hx. }
  apply Forall_cons in Hrs as [Hw Hrs]. cbn [fst snd] in *.
  set (t := show_redirs rs ++ rest).
  assert (show_redirs ((k, f) :: rs) ++ rest = show_redir k ++ 32 :: f ++ 32 :: t) as Et.
  { unfold t, show_redirs. cbn. rw -!app_assoc. cbn. by rw -!app_assoc. }
  rw Et in Hs. pose proof (reads_suffix s _ line Hs (skip_ws_redir k _) Hl) as Hl1.
  pose proof (reads_length s _ Hs (skip_ws_redir k _)) as Hlen.
  destruct n as [|n]; [lia|]. cbn [parseredirs].
  assert (peek s (str "<>") = (true, show_redir k ++ 32 :: f ++ 32 :: t)) as Ep.
  { rw (peek_reads s _ _ Hs). unfold peek. rw skip_ws_redir. by destruct k. }
  rw Ep. cbn [negb]. destruct (gettoken_redir k (f ++ 32 :: t)) as (tok & Eg & Etok). rw Eg.
  cbn [tk_s tk_ret]. rw skip_ws_word_app // gettoken_word //. cbn [tk_ret tk_q tk_eq tk_s].
  change (negb (97 =? 97)) with false. cbv iota.
  assert ((f ++ 32 :: t) `suffix_of` line) as Hl2.
  { etrans; [|exact Hl1]. exists (show_redir k ++ [32]). by rw -app_assoc. }
  set (c1 := if tok =? 60 then _ else _).
  assert (means line (ARedir a k f) c1) as Hc1.
  { unfold c1. rw Etok. destruct k; cbn; (split_and!; [done|by apply delimits_here|reflexivity]). }
  apply (IH n (ARedir a k f) c1 (skip_ws t) rest line Hrs Hc1).
  - apply reads_skip. done.
  - etrans; [apply skip_ws_suffix|]. etrans; [|exact Hl2]. exists (f ++ [32]). by rw -app_assoc.
  - done.
  - pose proof (length_skip_ws t). rw !length_app /= length_app /= in Hlen. lia.
Qed.

(** At the end of the arguments the loop of [parseexec] stops. *)
Lemma parseargs_stop n c argc s rest :
  follow FExec rest → reads s rest → (0 < n)%nat → parseargs n c argc s = inr (c, skip_ws rest).
Proof.
  intros Hf Hs Hn. destruct n as [|n]; [lia|]. cbn [parseargs]. rw (peek_reads s rest _ Hs).
  destruct Hf as [E|(x & s' & E & Hx)]; unfold peek; rw E; cbn [hd].
  - done.
  - assert (negb (x =? 0) && among (str "|)&;") x = true) as Ex; [|by rw Ex].
    repeat (apply elem_of_cons in Hx as [->|Hx]; [done|]). by apply elem_of_nil in Hx.
Qed.

(** Before a word [parseredirs] does nothing. *)
Lemma peek_word w s t toks :
  word w → reads s (w ++ t) → (∀ c, wordchar c → among toks c = false) → peek s toks = (false, w ++ t).
Proof.
  intros Hw Hs Ht. rw (peek_reads s _ _ Hs). unfold peek. rw skip_ws_word_app //.
  destruct Hw as [Hne Hw]. destruct Hw as [|c w Hc _]; [done|]. cbn [app hd]. rw Ht //. by rw andb_false_r.
Qed.

Lemma among_sub toks c : (∀ x, x ∈ toks → among symbols x = true ∧ x ≠ 0) → wordchar c → among toks c = false.
Proof.
  intros Hs (H0 & _ & Hc). induction toks as [|x toks IH]; [done|].
  destruct (Hs x) as [Hx Hx0]; [by left|]. rw among_cons // IH; [|intros y Hy; apply Hs; by right].
  rw orb_false_r. apply Z.eqb_neq. intros ->. congruence.
Qed.
Ltac symbol_list :=
  intros ? Hsy; repeat (apply elem_of_cons in Hsy as [->|Hsy]; [done|]); by apply elem_of_nil in Hsy.

Lemma parseredirs_word n c w s t :
  word w → reads s (w ++ t) → (0 < n)%nat → parseredirs n c s = inr (c, w ++ t).
Proof.
  intros Hw Hs Hn. destruct n as [|n]; [lia|]. cbn [parseredirs].
  rewrite -> (peek_word w s t (str "<>") Hw Hs); [done|]. intros x. apply among_sub. symbol_list.
Qed.

Lemma parseargs_ok rs rest : ∀ ws n pre argv s line,
  Forall word ws → Forall (λ r, word r.2) rs → ws ≠ [] → (length pre + length ws < MAXARGS)%nat →
  Forall2 (λ w p, delimits line w p.1 p.2) pre argv → length argv = length pre →
  reads s (show_words ws ++ show_redirs rs ++ rest) → s `suffix_of` line → follow FExec rest →
  (length s < n)%nat →
  ∃ c', parseargs n (EXEC argv) (length pre) s = inr (c', skip_ws rest) ∧
    means line (with_redirs (AExec (pre ++ ws)) rs) c'.
Proof.
  induction ws as [|w ws IH]; intros n pre argv s line Hws Hrs Hne Hlen Hpre Ha Hs Hl Hf Hn; [done|].
  apply Forall_cons in Hws as [Hw Hws]. set (t := show_words ws ++ show_redirs rs ++ rest).
  assert (show_words (w :: ws) ++ show_redirs rs ++ rest = w ++ 32 :: t) as Et.
  { unfold t, show_words. cbn. by rw -!app_assoc. }
  rw Et in Hs. assert (skip_ws (w ++ 32 :: t) = w ++ 32 :: t) as Ews by by apply skip_ws_word_app.
  pose proof (reads_suffix s _ line Hs Ews Hl) as Hl1. pose proof (reads_length s _ Hs Ews) as Hls.
  destruct n as [|n]; [lia|]. cbn [parseargs].
  rewrite -> (peek_word w s (32 :: t) (str "|)&;") Hw Hs) by (intros x; apply among_sub; symbol_list).
  rw gettoken_word //. cbn [tk_ret tk_q tk_eq tk_s]. change (97 =? 0) with false.
  change (negb (97 =? 97)) with false. cbv iota. cbn [add_arg].
  rewrite -> (proj2 (Nat.leb_gt MAXARGS (S (length pre)))) by (cbn in Hlen; lia).
  set (argv' := argv ++ [(w ++ 32 :: t, 32 :: t)]).
  assert (Forall2 (λ w p, delimits line w p.1 p.2) (pre ++ [w]) argv') as Hpre'.
  { apply Forall2_app; [done|]. constructor; [by apply delimits_here|constructor]. }
  rw length_app /= in Hls. pose proof (length_skip_ws t) as Hlt.
  assert (skip_ws t `suffix_of` line) as Hl2.
  { etrans; [apply skip_ws_suffix|]. etrans; [|exact Hl1]. exists (w ++ [32]). by rw -app_assoc. }
  destruct ws as [|w' ws].
  - destruct (parseredirs_ok rs (S (length (w ++ 32 :: t))) (AExec (pre ++ [w])) (EXEC argv') (skip_ws t) rest line)
      as (c' & Ec & Hc'); [done|done| |done|done| |].
    + by apply reads_skip.
    + rw length_app /=. lia.
    + exists c'. split; [|done]. rw Ec. cbn [mbind P_bind fst snd].
      apply parseargs_stop; [done| |lia]. by apply reads_skip.
  - assert (t = w' ++ 32 :: (show_words ws ++ show_redirs rs ++ rest)) as Et'.
    { unfold t, show_words. cbn. by rw -!app_assoc. }
    rewrite -> (parseredirs_word _ _ w' (skip_ws t) (32 :: show_words ws ++ show_redirs rs ++ rest)).
    + cbn [mbind P_bind fst snd]. rw -Et'.
      replace (S (length pre)) with (length (pre ++ [w])) by (rw length_app; cbn; lia).
      replace (pre ++ w :: w' :: ws) with ((pre ++ [w]) ++ w' :: ws) by by rw -app_assoc.
      apply IH; [done|done|done| |exact Hpre'| |done| |done|].
      * rw length_app. cbn in Hlen |- *. lia.
      * unfold argv'. rw !length_app. cbn. lia.
      * etrans; [|exact Hl1]. exists (w ++ [32]). by rw -app_assoc.
      * lia.
    + by apply Forall_cons in Hws as [? _].
    + unfold reads. rw skip_ws_idem. by rw Et'.
    + lia.
Qed.

(** *** The places of the grammar *)

Definition Exec (a : ast) : Prop := ∀ n s rest line,
  reads s (show LExec a ++ rest) → s `suffix_of` line → follow FExec rest → (4 * length s + 2 ≤ n)%nat →
  ∃ c, parseexec n s = inr (c, skip_ws rest) ∧ means line a c.
Definition Pipe (a : ast) : Prop := ∀ n s rest line,
  reads s (show LPipe a ++ rest) → s `suffix_of` line → follow FPipe rest → (4 * length s + 3 ≤ n)%nat →
  ∃ c, parsepipe n s = inr (c, skip_ws rest) ∧ means line a c.
(** A pipeline and its ampersands: [parseback] goes on from there. *)
Definition Back (a : ast) : Prop := ∀ n m s rest line,
  reads s (show LBack a ++ rest) → s `suffix_of` line → follow FPipe rest → (4 * length s + 3 ≤ n)%nat →
  (length s < m)%nat →
  ∃ c m' s', (r ← parsepipe n s; parseback m r.1 r.2) = parseback m' c s' ∧ means line a c ∧
    reads s' rest ∧ s' `suffix_of` line ∧ (length s' < m')%nat ∧ (length s' ≤ length s)%nat.
Definition Line (a : ast) : Prop := ∀ n s rest line,
  reads s (show LLine a ++ rest) → s `suffix_of` line → follow FLine rest → (4 * length s + 4 ≤ n)%nat →
  ∃ c, parseline n s = inr (c, skip_ws rest) ∧ means line a c.

Lemma parsepipe_S n s :
  parsepipe (S n) s =
    (r ← parseexec n s;
     let '(more, s) := peek r.2 (str "|") in
     if negb more then mret (r.1, s) else
     r' ← parsepipe n (tk_s (gettoken s));
     mret (PIPE r.1 r'.1, r'.2)).
Proof. done. Qed.
(** The end of [parseline], after the ampersands. *)
Definition line_rest (n : nat) (r : cmd * list Z) : P (cmd * list Z) :=
  let '(more, s) := peek r.2 (str ";") in
  if negb more then mret (r.1, s) else
  r' ← parseline n (tk_s (gettoken s));
  mret (LIST r.1 r'.1, r'.2).
Lemma parseline_S n s :
  parseline (S n) s = (r ← parsepipe n s; r ← parseback (S (length s)) r.1 r.2; line_rest n r).
Proof. done. Qed.

(** What is left after parsing is read as what was to follow. *)
Lemma skip_suffix_le (s rest line : list Z) t :
  reads s (t ++ rest) → skip_ws rest `suffix_of` skip_ws (t ++ rest) → s `suffix_of` line →
  skip_ws rest `suffix_of` line ∧ (length (skip_ws rest) ≤ length s)%nat.
Proof.
  unfold reads. intros E H Hs. rw -E in H. assert (skip_ws rest `suffix_of` s) as H'
    by (etrans; [exact H|apply skip_ws_suffix]).
  split; [by etrans|]. by apply suffix_length.
Qed.
Lemma skip_ws_app_suffix t rest : skip_ws rest `suffix_of` skip_ws (t ++ rest).
Proof.
  induction t as [|c t IH]; [done|]. cbn. destruct (among _ _); [done|].
  etrans; [apply skip_ws_suffix|]. by exists (c :: t).
Qed.
Lemma left_over s rest line t :
  reads s (t ++ rest) → s `suffix_of` line →
  skip_ws rest `suffix_of` line ∧ (length (skip_ws rest) ≤ length s)%nat.
Proof. intros Hs Hl. apply (skip_suffix_le s rest line t Hs); [apply skip_ws_app_suffix|done]. Qed.

Lemma among_none toks l : (∀ c, c ∈ l → among toks c = false) → ∀ rest, follow l rest →
  peek (skip_ws rest) toks = (false, skip_ws rest).
Proof.
  intros Ht rest Hf. rewrite -> (peek_follow (skip_ws rest) l toks (follow_skip _ _ Hf) Ht). by rw skip_ws_idem.
Qed.

Lemma pipe_of_exec a : show LPipe a = show LExec a → Exec a → Pipe a.
Proof.
  intros Es He n s rest line Hs Hl Hf Hn. rw Es in Hs. destruct n as [|n]; [lia|].
  destruct (He n s rest line Hs Hl) as (c & E & Hc); [|lia|].
  { eapply follow_mono; [|exact Hf]. intros x Hx. by right. }
  exists c. split; [|done]. rw parsepipe_S E. cbn [mbind P_bind fst snd].
  rewrite -> (among_none (str "|") FPipe); [done|symbol_list|done].
Qed.

Lemma pipe_of_pipe x y : Exec x → Pipe y → Pipe (APipe x y).
Proof.
  intros Hx Hy n s rest line Hs Hl Hf Hn. destruct n as [|n]; [lia|].
  assert (show LPipe (APipe x y) ++ rest = show LExec x ++ 124 :: (show LPipe y ++ rest)) as Et
    by (cbn; by rw -!app_assoc).
  rw Et in Hs. destruct (left_over s _ line _ Hs Hl) as [Hl1 Hle1]. cbn [skip_ws] in Hl1, Hle1.
  destruct (Hx n s (124 :: (show LPipe y ++ rest)) line Hs Hl) as (c & E & Hc); [|lia|].
  { apply follow_symbol; [by left|done]. }
  rw parsepipe_S E. cbn [mbind P_bind fst snd]. change (skip_ws (124 :: ?t)) with (124 :: t).
  change (peek (124 :: ?t) (str "|")) with (true, 124 :: t). cbn [negb].
  rw gettoken_symbol; [|by left]. cbn [tk_s].
  change (among whitespace 124) with false in *. cbv iota in Hl1, Hle1. cbn [length] in Hle1.
  pose proof (length_skip_ws (show LPipe y ++ rest)).
  destruct (Hy n (skip_ws (show LPipe y ++ rest)) rest line) as (c' & E' & Hc').
  - by apply reads_skip.
  - etrans; [apply skip_ws_suffix|]. etrans; [|exact Hl1]. by exists [124].
  - done.
  - lia.
  - exists (PIPE c c'). rw E'. by split.
Qed.

Lemma after_symbol s line t c rest :
  reads s (t ++ c :: rest) → among whitespace c = false → s `suffix_of` line →
  (c :: rest) `suffix_of` line ∧ skip_ws rest `suffix_of` line ∧ (length (skip_ws rest) < length s)%nat.
Proof.
  intros Hs Hc Hl. destruct (left_over s (c :: rest) line t Hs Hl) as [H1 H2]. cbn in H1, H2. rw Hc in H1, H2.
  pose proof (length_skip_ws rest). split; [done|]. split; [|cbn in H2; lia].
  etrans; [apply skip_ws_suffix|]. etrans; [|exact H1]. by exists [c].
Qed.

Lemma back_of_pipe a : show LBack a = show LPipe a → Pipe a → Back a.
Proof.
  intros Es Hp n m s rest line Hs Hl Hf Hn Hm. rw Es in Hs.
  destruct (Hp n s rest line Hs Hl Hf Hn) as (c & E & Hc). destruct (left_over s rest line _ Hs Hl) as [H1 H2].
  exists c, m, (skip_ws rest). rw E. split_and!; [done|done| |done|lia|done]. by apply reads_skip.
Qed.

Lemma back_of_back x : Back x → Back (ABack x).
Proof.
  intros Hx n m s rest line Hs Hl Hf Hn Hm.
  assert (show LBack (ABack x) ++ rest = show LBack x ++ 38 :: rest) as Et by (cbn; by rw -app_assoc).
  rw Et in Hs.
  destruct (Hx n m s (38 :: rest) line Hs Hl) as (c & m' & s' & E & Hc & Hs' & Hl' & Hm' & Hle); [|done|done|].
  { apply follow_symbol; [by right; right; left|done]. }
  destruct m' as [|m']; [lia|]. destruct (after_symbol s' line [] 38 rest Hs' eq_refl Hl') as (_ & H1 & H2).
  exists (BACK c), m', (skip_ws rest). split_and!; [|done| |done|lia|lia].
  - rw E. cbn [parseback]. rw (peek_reads s' _ _ Hs'). change (peek (38 :: rest) (str "&")) with (true, 38 :: rest).
    cbn [negb]. rw gettoken_symbol; [done|]. by right; right; right; right; left.
  - by apply reads_skip.
Qed.

(** At a stop token [parseback] returns. *)
Lemma parseback_stop m c s rest l :
  follow l rest → (∀ x, x ∈ l → among (str "&") x = false) → reads s rest → (0 < m)%nat →
  parseback m c s = inr (c, skip_ws rest).
Proof.
  intros Hf Ht Hs Hm. destruct m as [|m]; [lia|]. cbn [parseback].
  by rewrite -> (peek_reads s rest _ Hs), (peek_follow rest _ _ Hf Ht).
Qed.

Lemma bind_bind {A B C} (m : P A) (f : A → P B) (g : B → P C) :
  (a ← m; b ← f a; g b) = (b ← (a ← m; f a); g b).
Proof. by destruct m. Qed.

Lemma bind_inr {A B} (a : A) (f : A → P B) : (inr a : P A) ≫= f = f a.
Proof. done. Qed.

Lemma line_of_back a : show LLine a = show LBack a → Back a → Line a.
Proof.
  intros Es Hb n s rest line Hs Hl Hf Hn. rw Es in Hs. destruct n as [|n]; [lia|].
  destruct (Hb n (S (length s)) s rest line Hs Hl) as (c & m' & s' & E & Hc & Hs' & _ & Hm' & _); [|lia|lia|].
  { eapply follow_mono; [|exact Hf]. intros x Hx. apply elem_of_cons in Hx as [->|Hx]; [by left|by apply elem_of_nil in Hx]. }
  exists c. split; [|done]. rw parseline_S bind_bind E.
  rewrite -> (parseback_stop m' c s' rest FLine); [|done|symbol_list|done|lia].
  rw bind_inr. unfold line_rest. cbn [fst snd]. rewrite -> (among_none (str ";") FLine); [done|symbol_list|done].
Qed.

Lemma line_of_list x y : Back x → Line y → Line (AList x y).
Proof.
  intros Hx Hy n s rest line Hs Hl Hf Hn. destruct n as [|n]; [lia|].
  set (t := show LLine y ++ rest).
  assert (show LLine (AList x y) ++ rest = show LBack x ++ 59 :: t) as Et by (cbn; by rw -!app_assoc).
  rw Et in Hs.
  assert (follow [59] (59 :: t)) as Hf1 by (apply follow_symbol; [by left|done]).
  destruct (Hx n (S (length s)) s (59 :: t) line Hs Hl) as (c & m' & s' & E & Hc & Hs' & Hl' & Hm' & Hle); [|lia|lia|].
  { eapply follow_mono; [|exact Hf1]. intros z Hz. apply elem_of_cons in Hz as [->|Hz]; [by right; left|by apply elem_of_nil in Hz]. }
  destruct (after_symbol s' line [] 59 t Hs' eq_refl Hl') as (_ & H1 & H2).
  rw parseline_S bind_bind E. rewrite -> (parseback_stop m' c s' (59 :: t) [59] Hf1); [|symbol_list|done|lia].
  rw bind_inr. unfold line_rest. cbn [fst snd]. change (skip_ws (59 :: t)) with (59 :: t).
  change (peek (59 :: t) (str ";")) with (true, 59 :: t). cbn [negb].
  rw gettoken_symbol; [|by right; right; right; left]. cbn [tk_s].
  destruct (Hy n (skip_ws t) rest line) as (c' & E' & Hc'); [by apply reads_skip|done|done|lia|].
  exists (LIST c c'). rw E'. by split.
Qed.

Lemma show_with_redirs rs : ∀ b, show LExec (with_redirs b rs) = show LExec b ++ show_redirs rs.
Proof.
  induction rs as [|[k f] rs IH]; intros b; [by rw app_nil_r|].
  change (with_redirs b ((k, f) :: rs)) with (with_redirs (ARedir b k f) rs). rw IH. cbn. by rw -!app_assoc.
Qed.

Lemma show_redirs_cons k f rs rest :
  show_redirs ((k, f) :: rs) ++ rest = show_redir k ++ 32 :: f ++ 32 :: show_redirs rs ++ rest.
Proof. unfold show_redirs. cbn. rw -!app_assoc. cbn. by rw -!app_assoc. Qed.

Lemma peek_redirs rs s rest :
  reads s (show_redirs rs ++ rest) → follow FExec rest →
  ∃ s1, peek s (str "(") = (false, s1) ∧ reads s1 (show_redirs rs ++ rest) ∧ s1 = skip_ws s.
Proof.
  intros Hs Hf. exists (skip_ws s). split_and!; [|by apply reads_skip|done].
  rw (peek_reads s _ _ Hs) Hs. destruct rs as [|[k f] rs].
  - apply (peek_follow rest FExec); [done|symbol_list].
  - rw show_redirs_cons. unfold peek. rw skip_ws_redir. by destruct k.
Qed.

Lemma exec_exec ws rs :
  Forall word ws → (length ws < MAXARGS)%nat → Forall (λ r, word r.2) rs → Exec (with_redirs (AExec ws) rs).
Proof.
  intros Hws Hlen Hrs n s rest line Hs Hl Hf Hn. rw show_with_redirs -app_assoc in Hs. cbn [show] in Hs.
  destruct n as [|n]; [lia|]. cbn [parseexec]. pose proof (length_skip_ws s) as Hls.
  assert (skip_ws s `suffix_of` line) as Hl1 by (etrans; [apply skip_ws_suffix|done]).
  destruct ws as [|w ws].
  - destruct (peek_redirs rs s rest Hs Hf) as (s1 & -> & Hs1 & ->).
    destruct (parseredirs_ok rs (S (length (skip_ws s))) (AExec []) (EXEC []) (skip_ws s) rest line)
      as (c & E & Hc); [done|by constructor|done|done|done|lia|].
    exists c. split; [|done]. rw E. cbn [mbind P_bind fst snd].
    apply parseargs_stop; [done|by apply reads_skip|lia].
  - set (t := show_words ws ++ show_redirs rs ++ rest).
    assert (show_words (w :: ws) ++ show_redirs rs ++ rest = w ++ 32 :: t) as Et
      by (unfold t, show_words; cbn; by rw -!app_assoc).
    assert (word w) as Hw by by apply Forall_cons in Hws as [? _].
    assert (reads s (w ++ 32 :: t)) as Hs' by by rw -Et.
    rewrite -> (peek_word w s (32 :: t) (str "(") Hw Hs') by (intros x; apply among_sub; symbol_list).
    rewrite -> (parseredirs_word _ _ w (w ++ 32 :: t) (32 :: t)); [|done|done|lia].
    cbn [mbind P_bind fst snd]. pose proof (reads_suffix s _ line Hs' (skip_ws_word_app w _ Hw) Hl) as Hl2.
    apply (parseargs_ok rs rest (w :: ws) _ [] [] (w ++ 32 :: t) line); try done.
    + by rw Et.
    + lia.
Qed.

Lemma exec_block b rs :
  show LExec b = 40 :: show LLine b ++ [41] → Line b → Forall (λ r, word r.2) rs → Exec (with_redirs b rs).
Proof.
  intros Eb Hb Hrs n s rest line Hs Hl Hf Hn. set (u := show_redirs rs ++ rest).
  assert (show LExec (with_redirs b rs) ++ rest = 40 :: (show LLine b ++ 41 :: u)) as Et
    by (rw show_with_redirs Eb; unfold u; cbn; by rw -!app_assoc).
  rw Et in Hs. destruct (after_symbol s line [] 40 _ Hs eq_refl Hl) as (H1 & H2 & H3).
  assert (peek s (str "(") = (true, 40 :: (show LLine b ++ 41 :: u))) as Ep by by rw (peek_reads s _ _ Hs).
  pose proof (reads_length s _ Hs eq_refl) as Hlen. cbn [length] in Hlen.
  destruct n as [|[|n]]; [lia|lia|]. cbn [parseexec]. rw Ep. cbn [parseblock].
  change (peek (40 :: ?t) (str "(")) with (true, 40 :: t). cbn [negb].
  rw gettoken_symbol; [|by right; left]. cbn [tk_s].
  destruct (Hb n (skip_ws (show LLine b ++ 41 :: u)) (41 :: u) line) as (c & E & Hc).
  - by apply reads_skip.
  - done.
  - apply follow_symbol; [by left|done].
  - lia.
  - rw E. rw bind_inr. cbn [fst snd]. change (skip_ws (41 :: u)) with (41 :: u).
    change (peek (41 :: u) (str ")")) with (true, 41 :: u). cbn [negb].
    rw gettoken_symbol; [|by right; right; left]. cbn [tk_s].
    assert (reads (skip_ws (show LLine b ++ 41 :: u)) (show LLine b ++ 41 :: u)) as Hr by by apply reads_skip.
    destruct (after_symbol _ line _ 41 u Hr eq_refl H2) as (_ & H4 & H5).
    apply (parseredirs_ok rs _ b c (skip_ws u) rest line); try done.
    + by apply reads_skip.
    + cbn [length]. pose proof (length_skip_ws (show LLine b ++ 41 :: u)). lia.
Qed.

Lemma parse_show a :
  wf a → (∀ rs, Forall (λ r, word r.2) rs → Exec (with_redirs a rs)) ∧ Pipe a ∧ Back a ∧ Line a.
Proof.
  induction a as [ws|a IH k f|x IHx y IHy|x IHx y IHy|x IHx]; intros Hwf; cbn in Hwf.
  - assert (∀ rs, Forall (λ r, word r.2) rs → Exec (with_redirs (AExec ws) rs)) as He
      by (intros rs Hrs; destruct Hwf as [H1 H2]; by apply exec_exec).
    assert (Pipe (AExec ws)) as Hp by (apply pipe_of_exec; [done|]; exact (He [] (Forall_nil_2 _))).
    assert (Back (AExec ws)) as Hb by by apply back_of_pipe.
    split_and!; [exact He|exact Hp|exact Hb|by apply line_of_back].
  - destruct Hwf as [Ha Hf]. destruct (IH Ha) as (He & _).
    assert (∀ rs, Forall (λ r, word r.2) rs → Exec (with_redirs (ARedir a k f) rs)) as He'.
    { intros rs Hrs. apply (He ((k, f) :: rs)). by constructor. }
    assert (Pipe (ARedir a k f)) as Hp by (apply pipe_of_exec; [done|]; exact (He' [] (Forall_nil_2 _))).
    assert (Back (ARedir a k f)) as Hb by by apply back_of_pipe.
    split_and!; [exact He'|exact Hp|exact Hb|by apply line_of_back].
  - destruct Hwf as [Hx Hy]. destruct (IHx Hx) as (He & _). destruct (IHy Hy) as (_ & Hp & _).
    assert (Pipe (APipe x y)) as Hp' by (apply pipe_of_pipe; [exact (He [] (Forall_nil_2 _))|done]).
    assert (Back (APipe x y)) as Hb by by apply back_of_pipe.
    assert (Line (APipe x y)) as Hl by by apply line_of_back.
    split_and!; [|exact Hp'|exact Hb|exact Hl]. intros rs Hrs. by apply exec_block.
  - destruct Hwf as [Hx Hy]. destruct (IHx Hx) as (_ & _ & Hb & _). destruct (IHy Hy) as (_ & _ & _ & Hl).
    assert (Line (AList x y)) as Hl' by by apply line_of_list.
    assert (∀ rs, Forall (λ r, word r.2) rs → Exec (with_redirs (AList x y) rs)) as He
      by (intros rs Hrs; by apply exec_block).
    assert (Pipe (AList x y)) as Hp by (apply pipe_of_exec; [done|]; exact (He [] (Forall_nil_2 _))).
    split_and!; [exact He|exact Hp|by apply back_of_pipe|exact Hl'].
  - destruct (IHx Hwf) as (_ & _ & Hb & _). assert (Back (ABack x)) as Hb' by by apply back_of_back.
    assert (Line (ABack x)) as Hl by by apply line_of_back.
    assert (∀ rs, Forall (λ r, word r.2) rs → Exec (with_redirs (ABack x) rs)) as He
      by (intros rs Hrs; by apply exec_block).
    split_and!; [exact He|apply pipe_of_exec; [done|exact (He [] (Forall_nil_2 _))]|exact Hb'|exact Hl].
Qed.

(** ** The strings after [nulterminate] *)

(** The characters of words are still in the buffer. *)
Definition keeps (line buf : list Z) : Prop :=
  length buf = S (length line) ∧ ∀ i x, line !! i = Some x → wordchar x → buf !! i = Some x.

Lemma suffix_lookup (q line : list Z) j :
  q `suffix_of` line → line !! (pos line q + j)%nat = q !! j.
Proof.
  intros [pre ->]. unfold pos. rw length_app Nat.add_sub.
  rw lookup_app_r; [|lia]. f_equal. lia.
Qed.
Lemma pos_le (q line : list Z) : (pos line q < S (length line))%nat.
Proof. unfold pos. lia. Qed.

Lemma keeps_nul line buf eq :
  keeps line buf → eq `suffix_of` line → ¬ wordchar (hd 0 eq) → keeps line (<[pos line eq := 0]> buf).
Proof.
  intros [Hlen Hk] Hs Hne. split; [by rw length_insert|]. intros i x Hi Hx.
  destruct (decide (pos line eq = i)) as [<-|Hd]; [|rw list_lookup_insert_ne //; by apply Hk].
  exfalso. apply Hne. rewrite <- (Nat.add_0_r (pos line eq)), (suffix_lookup eq line 0 Hs) in Hi.
  destruct eq as [|y eq]; [done|]. cbn in Hi. by injection Hi as ->.
Qed.
Lemma zero_stays (buf : list Z) i j : buf !! i = Some 0 → <[j := 0]> buf !! i = Some 0.
Proof.
  intros Hi. destruct (decide (j = i)) as [->|Hd]; [|by rw list_lookup_insert_ne].
  apply list_lookup_insert_eq. by eapply lookup_lt_Some.
Qed.

Lemma delimits_eq line w q eq : delimits line w q eq → eq `suffix_of` line.
Proof. intros (H & -> & _). etrans; [|exact H]. by exists w. Qed.

Lemma delimits_string line buf w q eq :
  delimits line w q eq → keeps line buf → buf !! pos line eq = Some 0 → string_at line buf q = w.
Proof.
  intros Hd [Hlen Hk] H0. pose proof (delimits_eq _ _ _ _ Hd) as He. destruct Hd as (Hq & -> & [_ Hw] & _).
  assert (pos line eq = pos line (w ++ eq) + length w)%nat as Ep.
  { unfold pos. apply suffix_length in Hq. rw length_app in Hq |- *. lia. }
  unfold string_at. assert (∀ j x, w !! j = Some x → drop (pos line (w ++ eq)) buf !! j = Some x) as Hl.
  { intros j x Hj. rw lookup_drop. apply Hk; [|by eapply Forall_lookup_1].
    rewrite -> (suffix_lookup _ _ j Hq). by apply lookup_app_l_Some. }
  rw Ep in H0. rw -lookup_drop in H0. revert Hl H0 Hw. generalize (drop (pos line (w ++ eq)) buf) as l. clear.
  induction w as [|x w IH]; intros l Hl H0 Hw.
  - cbn in H0. destruct l as [|y l]; [done|]. cbn in H0. by injection H0 as ->.
  - destruct l as [|y l]; [done|]. pose proof (Hl 0%nat x eq_refl) as [= ->].
    apply Forall_cons in Hw as [(Hx & _) Hw]. cbn. rewrite -> (proj2 (Z.eqb_neq x 0) Hx). f_equal.
    apply IH; [|done|done]. intros j z Hj. exact (Hl (S j) z Hj).
Qed.

(** A NUL ends every string of a command. *)
Fixpoint zeros (line buf : list Z) (c : cmd) : Prop :=
  match c with
  | EXEC argv => Forall (λ p, buf !! pos line p.2 = Some 0) argv
  | REDIR c _ efile _ _ => zeros line buf c ∧ buf !! pos line efile = Some 0
  | PIPE l r | LIST l r => zeros line buf l ∧ zeros line buf r
  | BACK c => zeros line buf c
  end.
(** The NULs of [buf] are NULs of [buf']. *)
Definition more_zeros (buf buf' : list Z) : Prop := ∀ i, buf !! i = Some 0 → buf' !! i = Some 0.

Lemma zeros_mono line buf buf' c : more_zeros buf buf' → zeros line buf c → zeros line buf' c.
Proof.
  intros Hm. induction c as [argv|c IH q eq m fd|l IHl r IHr|l IHl r IHr|c IH]; cbn.
  - intros H. eapply Forall_impl; [exact H|]. intros p. apply Hm.
  - intros [H1 H2]. split; [by apply IH|by apply Hm].
  - intros [H1 H2]. split; [by apply IHl|by apply IHr].
  - intros [H1 H2]. split; [by apply IHl|by apply IHr].
  - apply IH.
Qed.

Lemma nul_args line ws argv : ∀ buf,
  Forall2 (λ w p, delimits line w p.1 p.2) ws argv → keeps line buf →
  let buf' := foldl (λ buf (a : list Z * list Z), <[pos line a.2 := 0]> buf) buf argv in
  keeps line buf' ∧ more_zeros buf buf' ∧ Forall (λ p, buf' !! pos line p.2 = Some 0) argv.
Proof.
  revert ws. induction argv as [|[q eq] argv IH]; intros ws buf Hws Hk buf'.
  { split; [exact Hk|]. split; [by intros i|constructor]. }
  destruct ws as [|w ws]; [by apply Forall2_nil_cons_inv in Hws|]. apply Forall2_cons in Hws as [Hd Hws].
  cbn in Hd. pose proof (delimits_eq _ _ _ _ Hd) as He. destruct Hd as (_ & _ & _ & Hne).
  destruct (IH ws (<[pos line eq := 0]> buf) Hws) as (H1 & H2 & H3); [by apply keeps_nul|].
  split; [exact H1|]. split.
  - intros i Hi. apply H2. by apply zero_stays.
  - constructor; [|done]. apply H2. cbn. apply list_lookup_insert_eq. rw (proj1 Hk). apply pos_le.
Qed.

Lemma nulterminate_ok line a : ∀ c buf,
  means line a c → keeps line buf →
  keeps line (nulterminate line c buf) ∧ more_zeros buf (nulterminate line c buf) ∧
  zeros line (nulterminate line c buf) c.
Proof.
  induction a as [ws|a IH k f|x IHx y IHy|x IHx y IHy|x IHx]; intros [] buf Hm Hk; try done; cbn [nulterminate zeros].
  - exact (nul_args line ws _ buf Hm Hk).
  - destruct Hm as (Hm & Hd & _). destruct (IH _ buf Hm Hk) as (H1 & H2 & H3).
    pose proof (delimits_eq _ _ _ _ Hd) as He. destruct Hd as (_ & _ & _ & Hne). split_and!.
    + by apply keeps_nul.
    + intros i Hi. by apply zero_stays, H2.
    + eapply zeros_mono; [|exact H3]. intros i. apply zero_stays.
    + apply list_lookup_insert_eq. rw (proj1 H1). apply pos_le.
  - destruct Hm as [Hx Hy]. destruct (IHx _ buf Hx Hk) as (H1 & H2 & H3).
    destruct (IHy _ _ Hy H1) as (H4 & H5 & H6).
    split; [exact H4|]. split; [|split; [|exact H6]].
    + intros i Hi. by apply H5, H2.
    + by eapply zeros_mono.
  - destruct Hm as [Hx Hy]. destruct (IHx _ buf Hx Hk) as (H1 & H2 & H3).
    destruct (IHy _ _ Hy H1) as (H4 & H5 & H6).
    split; [exact H4|]. split; [|split; [|exact H6]].
    + intros i Hi. by apply H5, H2.
    + by eapply zeros_mono.
  - by apply IHx.
Qed.

Lemma resolve_ok line buf a : ∀ c,
  means line a c → keeps line buf → zeros line buf c → resolve (string_at line buf) c = a.
Proof.
  induction a as [ws|a IH k f|x IHx y IHy|x IHx y IHy|x IHx]; intros [] Hm Hk Hz; try done; cbn in Hm, Hz |- *.
  - f_equal. induction Hm as [|w [q eq] ws argv Hd _ IH]; [done|]. apply Forall_cons in Hz as [H0 Hz].
    cbn. f_equal; [by eapply delimits_string|by apply IH].
  - destruct Hm as (Hm & Hd & <-). destruct Hz as [Hz H0]. f_equal; [by apply IH|by eapply delimits_string].
  - destruct Hm, Hz. f_equal; [by apply IHx|by apply IHy].
  - destruct Hm, Hz. f_equal; [by apply IHx|by apply IHy].
  - f_equal. by apply IHx.
Qed.

(** C17. The parser inverts the printer: the text of any command tree, with
    pipes, lists, background commands, redirections and parentheses, is
    parsed into a command whose strings, once [nulterminate] has stored the
    NULs into the line, are those of the tree. *)
Theorem parse_print a :
  wf a →
  ∃ c buf, parsecmd (show LLine a) = inr (c, buf) ∧
    resolve (string_at (show LLine a) buf) c = a.
Proof.
  intros Hwf. destruct (parse_show a Hwf) as (_ & _ & _ & Hl). set (line := show LLine a).
  destruct (Hl (parse_fuel (length line)) line [] line) as (c & E & Hc).
  - by rw app_nil_r.
  - done.
  - by left.
  - unfold parse_fuel. lia.
  - exists c, (nulterminate line c (line ++ [0])). unfold parsecmd. rw E. split; [done|].
    destruct (nulterminate_ok line a c (line ++ [0]) Hc) as (H1 & _ & H3).
    { split; [rw length_app; cbn; lia|]. intros i x Hi _. by apply lookup_app_l_Some. }
    by apply resolve_ok.
Qed.

(** [(ls -l | wc > out) & ; echo a b >> log] *)
Definition ast1 : ast :=
  AList (ABack (APipe (AExec [str "ls"; str "-l"]) (ARedir (AExec [str "wc"]) ROut (str "out"))))
    (ARedir (AExec [str "echo"; str "a"; str "b"]) RAppend (str "log")).

Lemma parse_print_witness :
  ∃ c buf, parsecmd (show LLine ast1) = inr (c, buf) ∧ resolve (string_at (show LLine ast1) buf) c = ast1.
Proof.
  apply (parse_print ast1). cbn.
  repeat match goal with
    | |- _ ∧ _ => split | |- Forall _ _ => constructor | |- _ ≠ _ => discriminate
    | |- _ = _ => reflexivity | |- (_ < _)%nat => apply Nat.ltb_lt | |- word _ => unfold word
    | |- wordchar _ => unfold wordchar end.
Defined.
