(* ===== verification/ShTypes.v ===== *)
(** * The commands that the shell's parser builds (user/sh.c)

    [wf line c] types a command: its arguments fit [argv], and every string of
    it lies inside the line. Whatever the line, the parser gives commands of
    this type, so that [nulterminate] and [runcmd] stay within the arrays. *)

From S2P Require Import Prelude Riscv KState KString Layout User Ulib Sh ShCorrect.
Open Scope Z_scope.

(** From [q] to [eq] there is a word, inside the line. *)
Definition token_in (line q eq : list Z) : Prop :=
  q `suffix_of` line ∧ ∃ w, q = w ++ eq ∧ w ≠ [] ∧ Forall (λ c, among whitespace c = false ∧ among symbols c = false) w.

(** The operators, each with the mode and the descriptor it stands for. *)
Definition redir_ops : list (list Z * (Z * Z)) :=
  [ (str "<", (O_RDONLY, 0));
    (str ">", (Z.lor (Z.lor O_WRONLY O_CREATE) O_TRUNC, 1));
    (str ">>", (Z.lor O_WRONLY O_CREATE, 1)) ].

(** In the line, before the name of the file and white space, is the operator
    with this mode and descriptor. It is the whole operator: what precedes it
    does not end with [>]. *)
Definition redir_at (line file : list Z) (mode fd : Z) : Prop :=
  ∃ pre op ws, line = pre ++ op ++ ws ++ file ∧ last pre ≠ Some 62 ∧
    Forall (λ c, among whitespace c = true) ws ∧ (op, (mode, fd)) ∈ redir_ops.

(** [argv] has a place left for the 0 that ends it. *)
Fixpoint wf (line : list Z) (c : cmd) : Prop :=
  match c with
  | EXEC argv => (length argv < MAXARGS)%nat ∧ Forall (λ a, token_in line a.1 a.2) argv
  | REDIR c file efile mode fd => wf line c ∧ token_in line file efile ∧ redir_at line file mode fd
  | PIPE l r | LIST l r => wf line l ∧ wf line r
  | BACK c => wf line c
  end.

(** The number of arguments of the command below the redirections. *)
Fixpoint nargs (c : cmd) : option nat :=
  match c with EXEC argv => Some (length argv) | REDIR c _ _ _ _ => nargs c | _ => None end.

(** ** Pointers stay inside the line *)

Lemma skip_word_split s : ∃ w, s = w ++ skip_word s ∧ Forall (λ c, among whitespace c = false ∧ among symbols c = false) w.
Proof.
  induction s as [|c s (w & E & H)]; [by exists []|]. cbn [skip_word].
  destruct (among whitespace c || among symbols c) eqn:Ec; [by exists []|]. apply orb_false_iff in Ec as [E1 E2].
  exists (c :: w). split; [cbn; by rw -E|by constructor].
Qed.

Lemma skip_ws_split s : ∃ ws, s = ws ++ skip_ws s ∧ Forall (λ c, among whitespace c = true) ws.
Proof.
  induction s as [|c s (ws & E & H)]; [by exists []|]. cbn [skip_ws].
  destruct (among whitespace c) eqn:Ec; [|by exists []]. exists (c :: ws). split; [cbn; by rw -E|by constructor].
Qed.

(** The parser has reached [s], and is not in the middle of [>>]. *)
Definition reached (line s : list Z) : Prop := ∃ pre, line = pre ++ s ∧ last pre ≠ Some 62.

Lemma reached_start line : reached line line.
Proof. by exists []. Qed.
Lemma reached_suffix line s : reached line s → s `suffix_of` line.
Proof. intros (pre & -> & _). by exists pre. Qed.
Lemma reached_app line w s : reached line (w ++ s) → Forall (λ c, c ≠ 62) w → reached line s.
Proof.
  intros (pre & -> & Hp) Hw. exists (pre ++ w). split; [by rw app_assoc|].
  destruct w as [|c w _] using rev_ind; [by rw app_nil_r|]. apply Forall_app in Hw as [_ Hc].
  rw app_assoc last_snoc. inversion_clear Hc. congruence.
Qed.
Lemma reached_skip line s : reached line s → reached line (skip_ws s).
Proof.
  intros Hs. destruct (skip_ws_split s) as (ws & E & Hw). rw E in Hs. apply (reached_app _ _ _ Hs).
  apply (Forall_impl _ _ _ Hw). intros c Hc ->. by vm_compute in Hc.
Qed.

Lemma scan_split s : hd 0 s ≠ 62 → ∃ w, s = w ++ (scan s).2 ∧ Forall (λ c, c ≠ 62) w.
Proof.
  intros Hh. unfold scan. destruct (Z.eqb_spec (hd 0 s) 0) as [|H0]; [by exists []|].
  rewrite -> (proj2 (Z.eqb_neq _ 62) Hh). destruct (_ || (hd 0 s =? 60)).
  - destruct s as [|c s]; [done|]. exists [c]. split; [done|]. by constructor.
  - destruct (skip_word_split s) as (w & E & Hw). exists w. split; [done|].
    apply (Forall_impl _ _ _ Hw). intros c [_ Hc] ->. by vm_compute in Hc.
Qed.

Lemma gettoken_reached line s : reached line s → hd 0 (skip_ws s) ≠ 62 → reached line (tk_s (gettoken s)).
Proof.
  intros Hs Hh. apply reached_skip in Hs. destruct (scan_split (skip_ws s) Hh) as (w & E & Hw).
  unfold gettoken. destruct (scan (skip_ws s)) as [ret eq]. cbn in *. apply reached_skip.
  rw E in Hs. by apply (reached_app _ _ _ Hs).
Qed.

Lemma peek_reached s toks b s' line : peek s toks = (b, s') → reached line s → reached line s'.
Proof. unfold peek. intros [= _ <-] Hs. by apply reached_skip. Qed.

(** After [peek] has seen a token of [toks] that is not [>], [gettoken] takes it. *)
Lemma peek_gettoken s toks s' line :
  peek s toks = (true, s') → among toks 62 = false → reached line s → reached line (tk_s (gettoken s')).
Proof.
  intros E Ht Hs. apply gettoken_reached; [by eapply peek_reached|]. unfold peek in E. injection E as Eb <-.
  rw skip_ws_idem. intros E. rw E in Eb. by rw Ht andb_false_r in Eb.
Qed.

(** A token of type ['a'] is a word. *)
Lemma gettoken_word_in s line : s `suffix_of` line → tk_ret (gettoken s) = 97 → token_in line (tk_q (gettoken s)) (tk_eq (gettoken s)).
Proof.
  intros Hs. unfold gettoken. destruct (scan (skip_ws s)) as [ret eq] eqn:E. cbn. intros ->.
  split; [by etrans; [apply skip_ws_suffix|]|].
  destruct (skip_ws_head s) as [Es|(c & s' & Es & Hc)]; [by rw Es in E|].
  destruct (skip_word_split (skip_ws s)) as (w & Ew & Hw). rw Es in E Ew. rw Es. unfold scan in E. cbn [hd tl] in E.
  destruct (Z.eqb_spec c 0); [by injection E as -> _|].
  destruct (_ || (c =? 60)) eqn:F; [injection E as -> _; by vm_compute in F|].
  destruct (Z.eqb_spec c 62); [subst c; by destruct (hd 0 s' =? 62)|].
  injection E as <-. exists w. split; [done|]. split; [|done]. intros ->.
  assert (among symbols c = false) as Hsym by (rw among_symbols; apply orb_false_iff; split; [done|lia]).
  cbn [app skip_word] in Ew. rw Hc Hsym in Ew. cbn [orb] in Ew. apply (f_equal length) in Ew. cbn in Ew.
  pose proof (length_skip_word s'). lia.
Qed.

Lemma gettoken_word_hd s : tk_ret (gettoken s) = 97 → hd 0 (skip_ws s) ≠ 62.
Proof. intros E Hh. unfold gettoken, scan in E. rw Hh in E. cbn in E. by destruct (hd 0 (tl (skip_ws s)) =? 62). Qed.
Lemma gettoken_end_hd s : tk_ret (gettoken s) = 0 → hd 0 (skip_ws s) ≠ 62.
Proof. intros E Hh. unfold gettoken, scan in E. rw Hh in E. cbn in E. by destruct (hd 0 (tl (skip_ws s)) =? 62). Qed.

(** After [peek] has seen [<] or [>], [gettoken] takes the operator, and the name
    of the file follows. *)
Definition mode_of (ret : Z) : Z * Z :=
  if ret =? 60 then (O_RDONLY, 0)
  else if ret =? 62 then (Z.lor (Z.lor O_WRONLY O_CREATE) O_TRUNC, 1)
  else (Z.lor O_WRONLY O_CREATE, 1).
Lemma gettoken_op s s' line :
  peek s (str "<>") = (true, s') → reached line s →
  let tok := gettoken s' in
  tk_s tok `suffix_of` line ∧ (tk_ret tok = 60 ∨ tk_ret tok = 62 ∨ tk_ret tok = 43) ∧
  redir_at line (tk_q (gettoken (tk_s tok))) (mode_of (tk_ret tok)).1 (mode_of (tk_ret tok)).2.
Proof.
  intros Ep Hs. pose proof (f_equal fst Ep) as Eb. pose proof (f_equal snd Ep) as Es.
  unfold peek in Eb, Es. cbn [fst snd] in Eb, Es. clear Ep. subst s'. intros tok. destruct (reached_skip _ _ Hs) as (pre & -> & Hp).
  assert (∃ op, skip_ws s = op ++ tk_eq tok ∧ (op, mode_of (tk_ret tok)) ∈ redir_ops ∧
    (tk_ret tok = 60 ∨ tk_ret tok = 62 ∨ tk_ret tok = 43)) as (op & E & Hop & Hr).
  { unfold tok, gettoken. rw skip_ws_idem. destruct (skip_ws s) as [|c t]; [done|]. cbn [hd] in Eb.
    assert (c = 60 ∨ c = 62) as [-> | ->].
    { apply andb_prop in Eb as [_ Ha]. change (str "<>") with [60; 62] in Ha.
      rewrite -> !among_cons, among_nil, !(Z.eqb_sym _ c) in Ha by done. lia. }
    - exists [60]. split_and!; [done|set_solver|by left].
    - unfold scan. cbn [hd tl]. cbn [Z.eqb Pos.eqb orb]. destruct t as [|d t]; [exists [62]; split_and!; [done|set_solver|auto]|].
      cbn [hd]. destruct (Z.eqb_spec d 62) as [->|]; cbn.
      + exists [62; 62]. split_and!; [done|set_solver|auto].
      + exists [62]. split_and!; [done|set_solver|auto]. }
  destruct (skip_ws_split (tk_eq tok)) as (ws & Ew & Hw).
  assert (tk_s tok = skip_ws (tk_eq tok)) as Ets by (unfold tok, gettoken; by destruct (scan _)).
  assert (tk_q (gettoken (tk_s tok)) = skip_ws (tk_eq tok)) as ->.
  { unfold gettoken at 1. rw Ets skip_ws_idem. by destruct (scan _). }
  split_and!; [|done|].
  - exists (pre ++ op ++ ws). rw E Ets -!app_assoc. do 2 f_equal. exact Ew.
  - exists pre, op, ws. split_and!; [by rw E {1}Ew|done|done|]. by destruct (mode_of _).
Qed.

(** ** Typing the parser *)

Definition good (line : list Z) (m : P (cmd * list Z)) : Prop :=
  ∀ c s, m = inr (c, s) → wf line c ∧ reached line s.

Lemma good_bind line m (f : cmd * list Z → P (cmd * list Z)) :
  good line m → (∀ c s, wf line c → reached line s → good line (f (c, s))) → good line (m ≫= f).
Proof. intros Hm Hf c s E. destruct m as [e|[c' s']]; [done|]. destruct (Hm c' s' eq_refl). by eapply Hf. Qed.

Lemma good_ret line c s : wf line c → reached line s → good line (mret (c, s)).
Proof. intros ?? c' s' [= <- <-]. done. Qed.
Lemma good_panic line e : good line (inl e).
Proof. intros c s [=]. Qed.

Lemma nargs_add_arg q eq c n : nargs c = Some n → nargs (add_arg q eq c) = Some (S n).
Proof.
  induction c as [argv|c IH| | |]; cbn; try done. intros [= <-]. rw length_app. cbn. f_equal. lia.
Qed.
Lemma wf_add_arg line q eq c n :
  wf line c → token_in line q eq → nargs c = Some n → (S n < MAXARGS)%nat → wf line (add_arg q eq c).
Proof.
  induction c as [argv|c IH| | |]; cbn; try done.
  - intros [_ H] Ht [= <-] Hn. rw length_app. cbn. split; [lia|]. apply Forall_app. split; [done|]. by constructor.
  - intros (H & ?) Ht Hn Hlt. split; [by apply IH|done].
Qed.

(** Behind a word. *)
Lemma word_reached line x : token_in line (tk_q (gettoken x)) (tk_eq (gettoken x)) → reached line (tk_s (gettoken x)).
Proof.
  intros ((pre & ->) & w & -> & Hw & HF).
  assert (tk_s (gettoken x) = skip_ws (tk_eq (gettoken x))) as -> by (unfold gettoken; by destruct (scan _)).
  apply reached_skip. exists (pre ++ w). split; [by rw app_assoc|].
  destruct w as [|c w _] using rev_ind; [done|]. apply Forall_app in HF as [_ Hc]. rw app_assoc last_snoc.
  inversion_clear Hc as [|? ? [_ Hs]]. intros [= ->]. by vm_compute in Hs.
Qed.

Section line.
Context (line : list Z).

Lemma parseredirs_wf n : ∀ c s, wf line c → reached line s →
  good line (parseredirs n c s) ∧ ∀ c' s', parseredirs n c s = inr (c', s') → nargs c' = nargs c.
Proof.
  induction n as [|n IH]; intros c s Hc Hs; cbn [parseredirs]; [split; done|].
  destruct (peek s (str "<>")) as [more s1] eqn:Ep. pose proof (peek_reached _ _ _ _ _ Ep Hs) as H1.
  destruct more; cbn [negb]; [|split; [by apply good_ret|by intros c' s' [= <- _]]].
  destruct (gettoken_op _ _ _ Ep Hs) as (H2 & Hret & Hop).
  destruct (Z.eqb_spec (tk_ret (gettoken (tk_s (gettoken s1)))) 97) as [Ef|]; [|split; done].
  pose proof (gettoken_word_in _ _ H2 Ef) as Ht. cbn [negb].
  assert (reached line (tk_s (gettoken (tk_s (gettoken s1))))) as H3 by by apply word_reached.
  set (c' := if _ =? 60 then _ else _).
  assert (wf line c' ∧ nargs c' = nargs c) as [Hw Hn].
  { unfold c'. destruct Hret as [E|[E|E]]; rw E in Hop |- *; done. }
  destruct (IH c' (tk_s (gettoken (tk_s (gettoken s1)))) Hw H3) as [G N]. split; [exact G|]. intros c2 s2 E. by rw (N _ _ E).
Qed.

Lemma parseargs_wf n : ∀ c argc s, wf line c → nargs c = Some argc → reached line s → good line (parseargs n c argc s).
Proof.
  induction n as [|n IH]; intros c argc s Hc Hn Hs; cbn [parseargs]; [done|].
  destruct (peek s (str "|)&;")) as [stop s1] eqn:Ep. pose proof (peek_reached _ _ _ _ _ Ep Hs) as H1.
  destruct stop; [by apply good_ret|].
  destruct (Z.eqb_spec (tk_ret (gettoken s1)) 0) as [E|]; [apply good_ret; [done|by apply gettoken_reached, gettoken_end_hd]|].
  destruct (Z.eqb_spec (tk_ret (gettoken s1)) 97) as [E|]; cbn [negb]; [|apply good_panic].
  assert (reached line (tk_s (gettoken s1))) as H2 by by apply gettoken_reached, gettoken_word_hd.
  destruct (Nat.leb_spec MAXARGS (S argc)) as [|Hlt]; [apply good_panic|].
  pose proof (wf_add_arg line _ _ _ _ Hc (gettoken_word_in _ _ (reached_suffix _ _ H1) E) Hn Hlt) as Hw.
  pose proof (nargs_add_arg (tk_q (gettoken s1)) (tk_eq (gettoken s1)) _ _ Hn) as Hn'.
  destruct (parseredirs_wf (S (length s1)) _ _ Hw H2) as [G N].
  destruct (parseredirs _ _ _) as [e|[c2 s2]]; [apply good_panic|]. destruct (G c2 s2 eq_refl) as [Hw2 Hs2].
  cbn [mbind P_bind fst snd]. apply IH; [done| |done]. by rw (N c2 s2 eq_refl).
Qed.

Lemma parseback_wf n : ∀ c s, wf line c → reached line s → good line (parseback n c s).
Proof.
  induction n as [|n IH]; intros c s Hc Hs; cbn [parseback]; [done|].
  destruct (peek s (str "&")) as [more s1] eqn:Ep. pose proof (peek_reached _ _ _ _ _ Ep Hs) as H1.
  destruct more; cbn [negb]; [|by apply good_ret]. apply IH; [done|]. by apply (peek_gettoken _ _ _ _ Ep).
Qed.

Lemma parse_wf n : ∀ s, reached line s →
  good line (parseline n s) ∧ good line (parsepipe n s) ∧ good line (parseexec n s) ∧ good line (parseblock n s).
Proof.
  induction n as [|n IH]; intros s Hs; [by split_and!|].
  split_and!; cbn [parseline parsepipe parseexec parseblock].
  - apply good_bind; [by apply IH|]. intros c s1 Hc H1. apply good_bind; [by apply parseback_wf|]. intros c' s2 Hc' H2. cbn [fst snd].
    destruct (peek s2 (str ";")) as [[] s3] eqn:E; cbn [negb]; pose proof (peek_reached _ _ _ _ _ E H2) as H3; [|by apply good_ret].
    apply good_bind; [by apply IH, (peek_gettoken _ _ _ _ E)|]. intros. by apply good_ret.
  - apply good_bind; [by apply IH|]. intros c s2 Hc H2. cbn [fst snd].
    destruct (peek s2 (str "|")) as [[] s3] eqn:E; cbn [negb]; pose proof (peek_reached _ _ _ _ _ E H2) as H3; [|by apply good_ret].
    apply good_bind; [by apply IH, (peek_gettoken _ _ _ _ E)|]. intros. by apply good_ret.
  - destruct (peek s (str "(")) as [[] s1] eqn:E; pose proof (peek_reached _ _ _ _ _ E Hs) as H1; [by apply IH|].
    assert (wf line (EXEC [])) as H0 by (split; [cbn; unfold MAXARGS; lia|done]).
    destruct (parseredirs_wf (S (length s1)) _ _ H0 H1) as [G N].
    destruct (parseredirs _ _ _) as [e|[c2 s2]]; [apply good_panic|]. destruct (G c2 s2 eq_refl) as [Hw2 Hs2].
    cbn [mbind P_bind fst snd]. apply parseargs_wf; [done| |done]. by rw (N c2 s2 eq_refl).
  - destruct (peek s (str "(")) as [[] s1] eqn:E; cbn [negb]; [|apply good_panic].
    pose proof (peek_reached _ _ _ _ _ E Hs) as H1. apply good_bind; [by apply IH, (peek_gettoken _ _ _ _ E)|].
    intros c s2 Hc H2. cbn [fst snd]. destruct (peek s2 (str ")")) as [[] s3] eqn:E'; cbn [negb]; [|apply good_panic].
    apply parseredirs_wf; [done|]. by apply (peek_gettoken _ _ _ _ E').
Qed.
End line.

(** ** The buffer *)

Lemma nulterminate_length line c buf : length (nulterminate line c buf) = length buf.
Proof.
  revert buf. induction c as [argv|c IH| | |]; intros buf; cbn; [|by rw length_insert IH|by rw IHc2 IHc1|by rw IHc2 IHc1|done].
  revert buf. induction argv as [|a argv IH]; intros buf; cbn; [done|]. by rw IH length_insert.
Qed.

(** C25. The type of commands. Whatever the line, a command that [parsecmd]
    returns has fewer than MAXARGS arguments in each [argv], so that the 0 that
    ends [argv] has its place; its strings are non-empty words inside the line;
    each redirection has the mode and the descriptor of the operator, [<], [>]
    or [>>], that precedes the name of its file in the line; and the line with its NULs
    has the length it had. *)
Theorem parsecmd_typed line c buf :
  parsecmd line = inr (c, buf) → wf line c ∧ length buf = S (length line).
Proof.
  unfold parsecmd. intros E. destruct (parse_wf line (parse_fuel (length line)) line (reached_start line)) as [G _].
  destruct (parseline _ _) as [e|[c' s]]; [done|]. destruct (G c' s eq_refl) as [Hw _]. cbn [mbind P_bind fst snd] in E.
  destruct (peek s []) as [b s']. destruct (decide (s' = [])); [|done]. injection E as <- <-.
  split; [done|]. rw nulterminate_length length_app. cbn. lia.
Qed.
Lemma parsecmd_typed_witness : ∃ c buf,
  parsecmd (str "echo a b > f | (wc; ls) &") = inr (c, buf) ∧ wf (str "echo a b > f | (wc; ls) &") c ∧ length buf = 26%nat.
Proof.
  destruct (parsecmd (str "echo a b > f | (wc; ls) &")) as [e|[c buf]] eqn:E; [by vm_compute in E|].
  exists c, buf. split; [done|]. exact (parsecmd_typed _ c buf E).
Defined.
