(* ===== verification/Umalloc.v ===== *)
(** * malloc and free (user/umalloc.c)

    The allocator of Kernighan and Ritchie. Memory is seen as headers: a
    [Header *] is an address, [p + n] is the address [16 * n] bytes further,
    and the map [um_hdr] has the [ptr] and [size] stored at an address. The
    state also has [freep], and the world outside the process for [sbrk]. *)

From Stdlib Require Import Sorting.Sorted.
From S2P Require Import Prelude User.
Open Scope Z_scope.

(** [sizeof(Header)] *)
Definition HDR : Z := 16.

Record ustate (W : Type) : Type := Ustate {
  um_hdr : gmap Z (Z * Z);
  um_freep : Z;
  um_world : W
}.
Arguments Ustate {W} _ _ _.
Arguments um_hdr {W} _.
Arguments um_freep {W} _.
Arguments um_world {W} _.

Section umalloc.
Context {W} `{!Unix W} (base : Z).

(** [p->s.ptr] and [p->s.size]. *)
Definition hdr (m : gmap Z (Z * Z)) (p : Z) : Z * Z := default (0, 0) (m !! p).
Definition get_ptr (p : Z) : M (ustate W) Z := gets (λ s, (hdr (um_hdr s) p).1).
Definition get_size (p : Z) : M (ustate W) Z := gets (λ s, (hdr (um_hdr s) p).2).
Definition set_ptr (p v : Z) : M (ustate W) unit :=
  modify (λ s, Ustate (<[p := (v, (hdr (um_hdr s) p).2)]> (um_hdr s)) (um_freep s) (um_world s)).
Definition set_size (p v : Z) : M (ustate W) unit :=
  modify (λ s, Ustate (<[p := ((hdr (um_hdr s) p).1, v)]> (um_hdr s)) (um_freep s) (um_world s)).
Definition set_freep (p : Z) : M (ustate W) unit :=
  modify (λ s, Ustate (um_hdr s) p (um_world s)).

(** The loop of [free]: [fuel] bounds the way around the circular list. *)
Definition free_body (bp p : Z) : M (ustate W) (Z + Z) :=
  q ← get_ptr p;
  if (p <? bp) && (bp <? q) then mret (inr p)
  else if (q <=? p) && ((p <? bp) || (bp <? q)) then mret (inr p)
  else mret (inl q).
(** [if(bp + bp->s.size == p->s.ptr) ...], with [q] for [p->s.ptr]. *)
Definition join_next (bp q : Z) : M (ustate W) unit :=
  bs ← get_size bp;
  if bp + HDR * bs =? q then
    qs ← get_size q;
    set_size bp (u32 (bs + qs)) ;;
    qq ← get_ptr q;
    set_ptr bp qq
  else set_ptr bp q.
(** [if(p + p->s.size == bp) ...] *)
Definition join_prev (p bp : Z) : M (ustate W) unit :=
  ps ← get_size p;
  if p + HDR * ps =? bp then
    bs ← get_size bp;
    set_size p (u32 (ps + bs)) ;;
    bq ← get_ptr bp;
    set_ptr p bq
  else set_ptr p bp.
Definition free (fuel : nat) (ap : Z) : M (ustate W) unit :=
  let bp := ap - HDR in
  f ← gets um_freep;
  p ← loopM fuel (free_body bp) f;
  q ← get_ptr p;
  join_next bp q ;;
  join_prev p bp ;;
  set_freep p.

(** [sbrk] on the whole state. *)
Definition usbrk (n : Z) : M (ustate W) Z :=
  zoom um_world (λ w s, Ustate (um_hdr s) (um_freep s) w) (sbrk n).

Definition morecore (fuel : nat) (nu : Z) : M (ustate W) Z :=
  let nu := if nu <? 4096 then 4096 else nu in
  p ← usbrk (i32 (nu * HDR));
  if p =? -1 then mret 0 else
  set_size p nu ;;
  free fuel (p + HDR) ;;
  gets um_freep.

(** The loop of [malloc], on [prevp] and [p]. *)
Definition malloc_body (fuel : nat) (nunits : Z) (x : Z * Z) : M (ustate W) (Z * Z + Z) :=
  let '(prevp, p) := x in
  ps ← get_size p;
  if nunits <=? ps then
    p ← (if ps =? nunits then
           q ← get_ptr p;
           set_ptr prevp q ;;
           mret p
         else
           set_size p (u32 (ps - nunits)) ;;
           ps ← get_size p;
           let p := p + HDR * ps in
           set_size p nunits ;;
           mret p);
    set_freep prevp ;;
    mret (inr (p + HDR))
  else
  f ← gets um_freep;
  if p =? f then
    p ← morecore fuel nunits;
    if p =? 0 then mret (inr 0) else
    q ← get_ptr p;
    mret (inl (p, q))
  else
  q ← get_ptr p;
  mret (inl (p, q)).
Definition malloc (fuel : nat) (nbytes : Z) : M (ustate W) Z :=
  let nunits := u32 ((nbytes + HDR - 1) / HDR + 1) in
  f ← gets um_freep;
  (if f =? 0 then
     set_ptr base base ;;
     set_freep base ;;
     set_size base 0
   else mret tt) ;;
  prevp ← gets um_freep;
  p ← get_ptr prevp;
  loopM fuel (malloc_body fuel nunits) (prevp, p).
End umalloc.
