(* ===== verification/UmallocCorrect.v ===== *)
(** * The allocator keeps blocks apart (user/umalloc.c)

    The free list is a circular list in the order of the addresses, in which
    no two blocks touch. [free] inserts a block and merges it with its
    neighbours; [malloc] takes a block, or the end of one, that overlaps no
    block that is allocated or free. *)

From stdpp Require Import sorting.
From S2P Require Import Prelude User Umalloc.
Open Scope Z_scope.

(** ** Blocks *)

(** An address and a number of units of 16 bytes. *)
Abbreviation blk := (Z * Z)%type.
Definition fin (b : blk) : Z := b.1 + HDR * b.2.
(** [x] ends before [y] begins, and does not touch it. *)
Definition before (x y : blk) : Prop := fin x < y.1.
Definition apart (x y : blk) : Prop := fin x ≤ y.1 ∨ fin y ≤ x.1.

(** The free list from some block on; the last one points to [stop]. *)
Fixpoint seg (m : gmap Z blk) (l : list blk) (stop : Z) : Prop :=
  match l with
  | [] => True
  | b :: l' => hdr m b.1 = (match l' with [] => stop | b' :: _ => b'.1 end, b.2) ∧ seg m l' stop
  end.
Definition next (l : list blk) (stop : Z) : Z := match l with [] => stop | b :: _ => b.1 end.

Lemma seg_cons m b l stop : seg m (b :: l) stop ↔ hdr m b.1 = (next l stop, b.2) ∧ seg m l stop.
Proof. done. Qed.
Lemma seg_app m l x r stop : seg m (l ++ x :: r) stop ↔ seg m l x.1 ∧ seg m (x :: r) stop.
Proof.
  induction l as [|b l IH]; [naive_solver|]. cbn [app]. rw !seg_cons IH.
  replace (next (l ++ x :: r) stop) with (next l x.1) by by destruct l. naive_solver.
Qed.
Lemma hdr_insert m a v x : hdr (<[a := v]> m) x = if decide (a = x) then v else hdr m x.
Proof. unfold hdr. destruct (decide (a = x)) as [->|?]; [by rw lookup_insert_eq|by rw lookup_insert_ne]. Qed.
Lemma seg_ext m m' l stop : (∀ b, b ∈ l → hdr m' b.1 = hdr m b.1) → seg m l stop → seg m' l stop.
Proof.
  induction l as [|b l IH]; [done|]. intros He. rw !seg_cons. intros [H1 H2]. split.
  - rw He //. by left.
  - apply IH; [|done]. intros b' Hb'. apply He. by right.
Qed.
Lemma seg_lookup m l stop : ∀ i b, seg m l stop → l !! i = Some b → hdr m b.1 = (next (drop (S i) l) stop, b.2).
Proof.
  induction l as [|b l IH]; intros [|i] b' Hs Hi; try done.
  - injection Hi as <-. by apply seg_cons in Hs as [-> _].
  - apply seg_cons in Hs as [_ Hs]. exact (IH i b' Hs Hi).
Qed.
Lemma next_drop (l : list blk) i stop : next (drop i l) stop = from_option fst stop (l !! i).
Proof.
  revert i. induction l as [|b l IH]; intros [|i]; try done. cbn [drop]. rw IH. done.
Qed.

Lemma seg_concat m l r stop : seg m l (next r stop) → seg m r stop → seg m (l ++ r) stop.
Proof.
  induction l as [|b l IH]; [done|]. cbn [app]. rw !seg_cons. intros [H1 H2] H3. split; [|by apply IH].
  rw H1. by destruct l.
Qed.

(** ** The law of [sbrk]

    It gives the [n] bytes from the old break on, or nothing. *)
Class Brk {W} `{!Unix W} (brk : W → Z) : Prop := {
  sbrk_ok : ∀ n w, 0 < n → ∃ r w', sbrk n w = Ret r w' ∧
    (r = -1 ∧ brk w' = brk w ∨ r = brk w ∧ brk w' = brk w + n ∧ brk w' ≤ 2 ^ 32)
}.

(** ** The invariant *)

Section inv.
Context {W} `{!Unix W} (base lo : Z) (brk : W → Z).

Definition nodes (F : list blk) : list blk := (base, 0) :: F.

(** [F] are the free blocks in order, [A] the allocated ones. *)
Record inv (s : ustate W) (F A : list blk) : Prop := {
  i_base : 0 < base < lo;
  i_brk : lo ≤ brk (um_world s) ≤ 2 ^ 32;
  i_seg : seg (um_hdr s) (nodes F) base;
  i_sort : StronglySorted before (nodes F);
  i_free : ∃ n, (um_freep s, n) ∈ nodes F;
  i_size : Forall (λ b, 0 < b.2) (F ++ A);
  i_range : Forall (λ b, lo ≤ b.1 ∧ fin b ≤ brk (um_world s)) (F ++ A);
  i_hdr : Forall (λ b, (hdr (um_hdr s) b.1).2 = b.2) A;
  i_apart : ∀ x y, x ∈ A → y ∈ F → apart x y;
  i_apartA : ForallOrdPairs apart A
}.

(** ** The loop of [free] *)

(** [b] belongs after [p] in the list. *)
Definition fits (b p : blk) (R : list blk) : Prop :=
  fin p ≤ b.1 ∧ p.1 < b.1 ∧ Forall (λ r, fin b ≤ r.1) R.

Lemma split_at b F : ∀ h,
  StronglySorted before (h :: F) → Forall (λ b, 0 < b.2) F → 0 < b.2 → fin h ≤ b.1 → h.1 < b.1 →
  (∀ y, y ∈ F → apart b y) →
  ∃ L p R, h :: F = L ++ p :: R ∧ fits b p R.
Proof.
  induction F as [|y F IH]; intros h Hs Hz Hb Hf Hh Ha.
  { exists [], h, []. split; [done|]. by split_and!. }
  apply StronglySorted_inv in Hs as [Hs Hall]. apply Forall_cons in Hz as [Hy Hz].
  destruct (Ha y) as [H|H]; [by left| |].
  - exists [], h, (y :: F). split; [done|]. split_and!; [done|done|]. constructor; [done|].
    apply StronglySorted_inv in Hs as [_ Hy']. eapply Forall_impl; [exact Hy'|].
    intros r Hr. unfold before, fin, HDR in *. lia.
  - destruct (IH y Hs Hz Hb H) as (L & p & R & E & Hp).
    + unfold fin, HDR in *. lia.
    + intros z Hz'. apply Ha. by right.
    + exists (h :: L), p, R. by rw E.
Qed.

Lemma sorted_lt l : Forall (λ b : blk, 0 ≤ b.2) l → StronglySorted before l →
  ∀ i j x y, (i < j)%nat → l !! i = Some x → l !! j = Some y → x.1 < y.1.
Proof.
  intros Hz Hs. induction Hs as [|b l Hs IH Hb]; intros i j x y Hij Hi Hj; [done|].
  apply Forall_cons in Hz as [Hb0 Hz]. destruct j as [|j]; [lia|]. destruct i as [|i].
  - injection Hi as ->. pose proof (Forall_lookup_1 _ _ _ _ Hb Hj) as H. unfold before, fin, HDR in H. lia.
  - apply (IH Hz i j); [lia|done|done].
Qed.

Lemma get_ptr_ok (s : ustate W) p q n : hdr (um_hdr s) p = (q, n) → get_ptr p s = Ret q s.
Proof. intros E. unfold get_ptr, gets. by rw E. Qed.
Lemma get_size_ok (s : ustate W) p q n : hdr (um_hdr s) p = (q, n) → get_size p s = Ret n s.
Proof. intros E. unfold get_size, gets. by rw E. Qed.

(** The steps from node [k] to node [i] of a circular list of [n]. *)
Definition dist (n k i : nat) : nat := (if decide (k ≤ i) then i - k else n - k + i)%nat.

Lemma dist_lt n k i : (k < n)%nat → (i < n)%nat → (dist n k i < n)%nat.
Proof. intros Hk Hi. unfold dist. case_decide; lia. Qed.

Lemma free_loop (s : ustate W) F L p R b (fuel : nat) :
  seg (um_hdr s) (nodes F) base → StronglySorted before (nodes F) → Forall (λ b, 0 < b.2) F →
  nodes F = L ++ p :: R → fits b p R → base < b.1 → 0 < b.2 →
  ∀ k x, nodes F !! k = Some x → (dist (length (nodes F)) k (length L) < fuel)%nat →
  loopM fuel (free_body b.1) x.1 s = Ret p.1 s.
Proof.
  intros Hseg Hs Hz EN (Hp & Hpb & HR) Hbase Hb. assert (Forall (λ b, 0 ≤ b.2) (nodes F)) as Hz'.
  { constructor; [done|]. eapply Forall_impl; [exact Hz|]. cbn. lia. }
  pose proof (sorted_lt _ Hz' Hs) as Hlt.
  assert (nodes F !! length L = Some p) as HLp by (rw EN; by apply list_lookup_middle).
  induction fuel as [|f IH]; intros k x Hk Hf; [lia|]. cbn [loopM]. unfold free_body at 2.
  mstep (get_ptr_ok s _ _ _ (seg_lookup _ _ _ _ _ Hseg Hk)). rw next_drop.
  pose proof (lookup_lt_Some _ _ _ Hk) as Hkl.
  destruct (decide (k = length L)) as [->|Hne].
  - rw HLp in Hk. injection Hk as <-. rewrite -> (proj2 (Z.ltb_lt p.1 b.1)) by done. cbn [andb].
    destruct R as [|r R].
    + rw (lookup_ge_None_2 (nodes F)); [|rw EN length_app; cbn; lia]. cbn [from_option].
      rewrite -> (proj2 (Z.ltb_ge b.1 base)) by lia.
      assert (base ≤ p.1) as Hbp.
      { destruct L as [|l0 L]; cbn in EN; injection EN as <- _; [done|].
        pose proof (Hlt 0%nat (length ((base, 0) :: L)) (base, 0) p ltac:(cbn; lia) eq_refl HLp). cbn in *. lia. }
      rewrite -> (proj2 (Z.leb_le base p.1) Hbp). done.
    + assert (nodes F !! S (length L) = Some r) as HLr.
      { rw EN. rw lookup_app_r; [|lia]. by replace (S (length L) - length L)%nat with 1%nat by lia. }
      rw HLr. cbn [from_option]. apply Forall_cons in HR as [HR _].
      rewrite -> (proj2 (Z.ltb_lt b.1 r.1)) by (unfold fin, HDR in HR; lia). done.
  - destruct (decide (k < length L)%nat) as [Hlk|Hgk].
    + destruct (lookup_lt_is_Some_2 (nodes F) (S k)) as [y Hy]; [rw EN length_app; cbn; lia|].
      rw Hy. cbn [from_option]. pose proof (Hlt k (S k) x y ltac:(lia) Hk Hy) as Hxy.
      assert (y.1 ≤ p.1) as Hyp.
      { destruct (decide (S k = length L)) as [E|E]; [rw E HLp in Hy; by injection Hy as ->|].
        pose proof (Hlt (S k) (length L) y p ltac:(lia) Hy HLp). lia. }
      rewrite -> (proj2 (Z.ltb_ge b.1 y.1)) by lia. rewrite -> (proj2 (Z.leb_gt y.1 x.1)) by lia.
      rw andb_false_r. apply (IH (S k) y Hy). unfold dist in *. repeat case_decide; lia.
    + assert (fin b ≤ x.1) as Hbx.
      { rw EN lookup_app_r in Hk; [|lia]. destruct (k - length L)%nat as [|j] eqn:Ej; [lia|].
        exact (Forall_lookup_1 _ _ _ _ HR Hk). }
      rewrite -> (proj2 (Z.ltb_ge x.1 b.1)) by (unfold fin, HDR in Hbx; lia). cbn [andb orb].
      destruct (nodes F !! S k) as [y|] eqn:Hy; cbn [from_option].
      * pose proof (Hlt k (S k) x y ltac:(lia) Hk Hy) as Hxy.
        rewrite -> (proj2 (Z.leb_gt y.1 x.1)) by lia. cbn [andb]. apply (IH (S k) y Hy).
        apply lookup_lt_Some in Hy. unfold dist in *. repeat case_decide; lia.
      * rewrite -> (proj2 (Z.ltb_ge b.1 base)) by lia. rw andb_false_r.
        apply lookup_ge_None_1 in Hy. apply (IH 0%nat (base, 0) eq_refl). unfold dist in *.
        repeat case_decide; lia.
Qed.

(** *** Merging with the neighbours *)

(** [b] with the blocks [R] after it, merged with the first of them if they
    touch. *)
Definition merge_next (b : blk) (R : list blk) : blk * list blk :=
  match R with
  | [] => (b, [])
  | r :: R' => if fin b =? r.1 then ((b.1, b.2 + r.2), R') else (b, R)
  end.

Lemma join_next_ok (s : ustate W) b R :
  (hdr (um_hdr s) b.1).2 = b.2 → seg (um_hdr s) R base → base < b.1 → 0 < b.2 →
  Forall (λ r, fin b ≤ r.1 ∧ 0 < r.2 ∧ fin r ≤ 2 ^ 32) R → 0 < base →
  let '(b', R') := merge_next b R in
  ∃ m, join_next b.1 (next R base) s = Ret tt (Ustate m (um_freep s) (um_world s)) ∧
    hdr m b.1 = (next R' base, b'.2) ∧ ∀ x, x ≠ b.1 → hdr m x = hdr (um_hdr s) x.
Proof.
  intros Hb Hseg Hbb Hb0 HR Hbase. unfold join_next, get_size, get_ptr, set_size, set_ptr. msimp. rw Hb.
  change (b.1 + HDR * b.2) with (fin b).
  assert (∀ q, ∃ m, Ret tt (Ustate (<[b.1 := (q, (hdr (um_hdr s) b.1).2)]> (um_hdr s)) (um_freep s) (um_world s)) =
    Ret (A := unit) tt (Ustate m (um_freep s) (um_world s)) ∧ hdr m b.1 = (q, b.2) ∧
    ∀ x, x ≠ b.1 → hdr m x = hdr (um_hdr s) x) as Hset.
  { intros q. eexists. split; [done|]. rw hdr_insert decide_True // Hb. split; [done|].
    intros x Hx. by rw hdr_insert decide_False. }
  destruct R as [|r R]; cbn [merge_next next].
  { rewrite -> (proj2 (Z.eqb_neq (fin b) base)) by (unfold fin, HDR; lia). apply Hset. }
  apply Forall_cons in HR as [(Hbr & Hr0 & Hr) _]. apply seg_cons in Hseg as [Hr1 _].
  destruct (Z.eqb_spec (fin b) r.1) as [E|E]; [|apply Hset].
  msimp. rw Hr1. cbn [fst snd um_hdr]. eexists. split; [done|].
  assert (b.1 ≠ r.1) as Hne by (unfold fin, HDR in E; lia).
  rw !hdr_insert !(decide_True (P := b.1 = b.1)) // !(decide_False (P := b.1 = r.1)) // Hr1.
  cbn [fst snd]. split.
  - f_equal. unfold fin, HDR, u32 in *. zlia.
  - intros x Hx. by rw !hdr_insert !decide_False.
Qed.

Definition merge_prev (p b : blk) : list blk :=
  if fin p =? b.1 then [(p.1, p.2 + b.2)] else [p; b].

Lemma join_prev_ok (s : ustate W) p b nx :
  (hdr (um_hdr s) p.1).2 = p.2 → hdr (um_hdr s) b.1 = (nx, b.2) → p.1 < b.1 → 0 ≤ p.2 → 0 < b.2 → fin b ≤ 2 ^ 32 →
  0 < p.1 →
  ∃ m, join_prev p.1 b.1 s = Ret tt (Ustate m (um_freep s) (um_world s)) ∧
    seg m (merge_prev p b) nx ∧ ∀ x, x ≠ p.1 → hdr m x = hdr (um_hdr s) x.
Proof.
  intros Hp Hb Hpb Hp0 Hb0 Hfb Hp1. unfold join_prev, get_size, get_ptr, set_size, set_ptr, merge_prev. msimp. rw Hp.
  change (p.1 + HDR * p.2) with (fin p). assert (p.1 ≠ b.1) as Hne by lia.
  destruct (Z.eqb_spec (fin p) b.1) as [E|E].
  - msimp. rw Hb. cbn [fst snd um_hdr]. eexists. split; [done|].
    rw !hdr_insert !(decide_True (P := p.1 = p.1)) // !(decide_False (P := p.1 = b.1)) // Hb. cbn [fst snd seg].
    split; [|intros x Hx; by rw !hdr_insert !decide_False].
    rw hdr_insert decide_True //. split; [|done]. f_equal. unfold fin, HDR, u32 in *. zlia.
  - eexists. split; [done|]. rw Hp. cbn [seg]. rw !hdr_insert decide_True // decide_False //.
    split; [by rw Hb|]. intros x Hx. by rw hdr_insert decide_False.
Qed.

(** *** The list with [b] inserted after [p] *)

Definition inserted (L : list blk) (p : blk) (R : list blk) (b : blk) : list blk :=
  let '(b', R') := merge_next b R in L ++ merge_prev p b' ++ R'.

(** A property that merging preserves. *)
Definition mergeable (Q : blk → Prop) : Prop :=
  ∀ x y, Q x → Q y → fin x = y.1 → Q (x.1, x.2 + y.2).

Lemma merge_next_Q Q b R :
  mergeable Q → Q b → Forall Q R → Q (merge_next b R).1 ∧ Forall Q (merge_next b R).2.
Proof.
  intros Hm Hb HR. destruct R as [|r R]; cbn; [done|]. apply Forall_cons in HR as [Hr HR].
  destruct (Z.eqb_spec (fin b) r.1) as [E|E]; cbn; split; [by apply Hm|done|done|by constructor].
Qed.

Lemma merge_next_1 b R : (merge_next b R).1.1 = b.1.
Proof. destruct R as [|r R]; cbn; [done|]. by destruct (_ =? _). Qed.
Lemma merge_next_len b R : (length (merge_next b R).2 ≤ length R)%nat.
Proof. destruct R as [|r R]; cbn; [lia|]. destruct (_ =? _); cbn; lia. Qed.
Lemma merge_next_size b R : Forall (λ r, 0 < r.2) R → b.2 ≤ (merge_next b R).1.2.
Proof. destruct R as [|r R]; cbn; [lia|]. intros [? _]%Forall_cons. destruct (_ =? _); cbn; lia. Qed.

Lemma merge_next_sorted b R :
  StronglySorted before R → Forall (λ r, fin b ≤ r.1) R → Forall (λ r, 0 < r.2) R →
  StronglySorted before ((merge_next b R).1 :: (merge_next b R).2).
Proof.
  intros Hs Hb Hz. destruct Hs as [|r R Hs Hr]; cbn; [repeat constructor|].
  apply Forall_cons in Hb as [Hbr Hb]. apply Forall_cons in Hz as [Hr0 Hz].
  destruct (Z.eqb_spec (fin b) r.1) as [E|E]; cbn.
  - constructor; [done|]. eapply Forall_impl; [exact Hr|]. intros y. unfold before, fin, HDR in *. cbn. lia.
  - constructor; [by constructor|]. constructor; [unfold before; lia|].
    eapply Forall_impl; [exact Hr|]. intros y. unfold before, fin, HDR in *. lia.
Qed.

Lemma inserted_nodes F L p R b :
  nodes F = L ++ p :: R → fits b p R → base < b.1 →
  ∃ F', inserted L p R b = nodes F' ∧ (length F' ≤ S (length F))%nat ∧
    (∀ Q, mergeable Q → Q b → Forall Q F → Forall Q F') ∧
    (Forall (λ b, 0 < b.2) F → ∃ y, y ∈ F' ∧ b.2 ≤ y.2).
Proof.
  intros EN (Hp & Hpb & HR) Hb. unfold inserted. pose proof (merge_next_1 b R) as E1.
  pose proof (merge_next_len b R) as Hlen. pose proof (merge_next_size b R) as Hsz.
  assert (∀ Q, mergeable Q → Q b → Forall Q R → Q (merge_next b R).1 ∧ Forall Q (merge_next b R).2) as HQ
    by (intros Q; apply merge_next_Q).
  destruct (merge_next b R) as [b' R']. cbn [fst snd] in *.
  destruct L as [|l0 L]; cbn in EN; injection EN as <- EN.
  - subst F. exists (b' :: R'). unfold merge_prev. cbn [fst snd].
    rewrite -> (proj2 (Z.eqb_neq (fin (base, 0)) b'.1)) by (unfold fin; cbn; lia).
    split; [done|]. split; [cbn; lia|]. split.
    + intros Q Hm HQb HQF. destruct (HQ Q Hm HQb HQF). by constructor.
    + intros Hz. exists b'. split; [by left|]. by apply Hsz.
  - exists (L ++ merge_prev p b' ++ R'). split; [done|]. rw EN !length_app. cbn [length]. split.
    { unfold merge_prev. destruct (_ =? _); cbn; lia. }
    split.
    + intros Q Hm HQb HQF. apply Forall_app in HQF as [HL HQF]. apply Forall_cons in HQF as [HQp HQR].
      destruct (HQ Q Hm HQb HQR) as [Hb' HR']. apply Forall_app. split; [done|]. apply Forall_app. split; [|done].
      unfold merge_prev. destruct (Z.eqb_spec (fin p) b'.1) as [E|E]; [|by constructor; [|constructor]].
      constructor; [by apply Hm|constructor].
    + intros Hz. apply Forall_app in Hz as [_ Hz]. apply Forall_cons in Hz as [Hp0 Hz].
      specialize (Hsz Hz). unfold merge_prev. destruct (fin p =? b'.1).
      * exists (p.1, p.2 + b'.2). split; [set_solver|cbn; lia].
      * exists b'. split; [set_solver|done].
Qed.

Lemma inserted_sorted L p R b :
  StronglySorted before (L ++ p :: R) → fits b p R → Forall (λ r, 0 < r.2) R → 0 < b.2 → 0 ≤ p.2 →
  StronglySorted before (inserted L p R b).
Proof.
  intros Hs (Hp & Hpb & HR) Hz Hb0 Hp0. unfold inserted.
  apply StronglySorted_app in Hs as (Hx & HsL & HsR). apply StronglySorted_cons in HsR as [HpR HsR].
  pose proof (merge_next_sorted b R HsR HR Hz) as HM. pose proof (merge_next_1 b R) as E1.
  pose proof (merge_next_size b R Hz) as Hsz.
  destruct (merge_next b R) as [b' R']. cbn [fst snd] in *.
  apply StronglySorted_cons in HM as [HbR' HsR'].
  assert (∀ x, x ∈ L → fin x < p.1) as HLp.
  { intros x Hx'. apply (Hx x p); [done|by left]. }
  rw Forall_forall in HbR'. unfold before, fin, HDR in *.
  apply StronglySorted_app_2; [|done|apply StronglySorted_app_2; [| |done]].
  - intros x y Hx' Hy. specialize (HLp x Hx'). apply elem_of_app in Hy as [Hy|Hy].
    + unfold merge_prev in Hy. destruct (_ =? _).
      * apply list_elem_of_singleton in Hy as ->. cbn. lia.
      * apply elem_of_cons in Hy as [->|Hy]; [lia|]. apply list_elem_of_singleton in Hy as ->. lia.
    + specialize (HbR' y Hy). lia.
  - intros x y Hx' Hy. specialize (HbR' y Hy). unfold merge_prev in Hx'.
    destruct (Z.eqb_spec (fin p) b'.1) as [E|E].
    + apply list_elem_of_singleton in Hx' as ->. unfold fin, HDR in E. cbn. lia.
    + apply elem_of_cons in Hx' as [->|Hx']; [lia|]. apply list_elem_of_singleton in Hx' as ->. lia.
  - unfold merge_prev. destruct (Z.eqb_spec (fin p) b'.1) as [E|E]; [repeat constructor|].
    unfold fin, HDR in E. apply StronglySorted_cons. split; [|repeat constructor].
    constructor; [lia|constructor].
Qed.

Lemma seg_tail m b R stop : seg m R stop → seg m (merge_next b R).2 stop.
Proof. destruct R as [|r R]; [done|]. cbn. destruct (_ =? _); [|done]. by intros [_ ?]. Qed.
Lemma merge_next_sub b R y : y ∈ (merge_next b R).2 → y ∈ R.
Proof. destruct R as [|r R]; [done|]. cbn. destruct (_ =? _); [by right|done]. Qed.

(** The first block of [merge_prev] is at [p]. *)
Lemma seg_inserted m m1 m2 L p R b :
  StronglySorted before (L ++ p :: R) → Forall (λ x, 0 ≤ x.2) L → Forall (λ r, fin b ≤ r.1) R → 0 < b.2 →
  0 ≤ p.2 → p.1 < b.1 →
  seg m (L ++ p :: R) base →
  (∀ x, x ≠ b.1 → hdr m1 x = hdr m x) → (∀ x, x ≠ p.1 → hdr m2 x = hdr m1 x) →
  seg m2 (merge_prev p (merge_next b R).1) (next (merge_next b R).2 base) →
  seg m2 (inserted L p R b) base.
Proof.
  intros Hs HL HR Hb0 Hp0 Hpb Hm H1 H2 Hmp. unfold inserted.
  apply StronglySorted_app in Hs as (Hx & _ & HsR). apply StronglySorted_cons in HsR as [HpR _].
  apply seg_app in Hm as [HmL HmR]. apply seg_cons in HmR as [_ HmR].
  pose proof (seg_tail m b R base HmR) as HmR'. pose proof (merge_next_sub b R) as Hsub.
  destruct (merge_next b R) as [b' R']. cbn [fst snd] in *.
  rw Forall_forall in HL. rw Forall_forall in HR. rw Forall_forall in HpR. unfold before, fin, HDR in *.
  apply seg_concat; [|apply seg_concat; [done|]].
  - replace (next (merge_prev p b' ++ R') base) with p.1 by (unfold merge_prev; by destruct (_ =? _)).
    eapply seg_ext; [|exact HmL]. intros x Hx'. specialize (HL x Hx').
    assert (p ∈ p :: R) as Hpin by by left. pose proof (Hx x p Hx' Hpin). rw H2; [|lia]. rw H1; [done|lia].
  - eapply seg_ext; [|exact HmR']. intros x Hx'. specialize (HR x (Hsub x Hx')). specialize (HpR x (Hsub x Hx')).
    rw H2; [|lia]. rw H1; [done|lia].
Qed.

(** What is kept apart from the allocated blocks, within the heap. *)
Definition good (w : W) (A : list blk) (y : blk) : Prop :=
  0 < y.2 ∧ lo ≤ y.1 ∧ fin y ≤ brk w ∧ ∀ x, x ∈ A → 0 < x.2 → apart x y.
Lemma good_mergeable w A : mergeable (good w A).
Proof.
  intros x y (X1 & X2 & X3 & X4) (Y1 & Y2 & Y3 & Y4) E. unfold good, fin, HDR in *. cbn in *.
  split_and!; [lia|lia|lia|]. intros z Hz Hz0. specialize (X4 z Hz Hz0). specialize (Y4 z Hz Hz0).
  unfold apart, fin, HDR in *. cbn. lia.
Qed.
Lemma apart_sym x y : apart x y → apart y x.
Proof. unfold apart. tauto. Qed.

Lemma inv_good s F b A : inv s F (b :: A) → Forall (good (um_world s) A) F ∧ good (um_world s) A b.
Proof.
  intros [_ _ _ _ _ Hz Hr _ Ha HA]. apply Forall_app in Hz as [HzF HzA]. apply Forall_app in Hr as [HrF HrA].
  apply Forall_cons in HzA as [Hb0 HzA]. apply Forall_cons in HrA as [[Hb1 Hb2] HrA]. split.
  - apply Forall_forall. intros y Hy. rw Forall_forall in HzF. rw Forall_forall in HrF.
    destruct (HrF y Hy). split_and!; [by apply HzF|done|done|]. intros x Hx _. apply Ha; [by right|done].
  - split_and!; [done|done|done|]. intros x Hx _. inversion HA as [|? ? HbA _]. subst. rw Forall_forall in HbA.
    apply apart_sym. by apply HbA.
Qed.

Lemma freep_inserted L p R b : ∃ n, (p.1, n) ∈ inserted L p R b.
Proof.
  unfold inserted. destruct (merge_next b R) as [b' R']. unfold merge_prev. destruct (fin p =? b'.1).
  - exists (p.2 + b'.2). set_solver.
  - exists p.2. destruct p. set_solver.
Qed.

(** The three memory operations of [free], after its loop. *)
Lemma free_links (s : ustate W) F A b L p R :
  inv s F (b :: A) → nodes F = L ++ p :: R → fits b p R →
  ∃ m, (q ← get_ptr p.1; join_next b.1 q ;; join_prev p.1 b.1 ;; set_freep p.1) s =
      Ret tt (Ustate m p.1 (um_world s)) ∧
    seg m (inserted L p R b) base ∧ ∀ x, x ≠ p.1 → x ≠ b.1 → hdr m x = hdr (um_hdr s) x.
Proof.
  intros Hi EN Hfit. destruct (Hfit) as (Hp & Hpb & HR).
  destruct (Hi) as [Hbase Hbrk Hseg Hs _ Hz Hr Hh _ _]. destruct (inv_good _ _ _ _ Hi) as [HgF Hgb].
  apply Forall_cons in Hh as [Hhb _]. destruct Hgb as (Hb0 & Hb1 & Hb2 & _).
  assert (Forall (λ x : blk, 0 ≤ x.2 ∧ 0 < x.1) (nodes F)) as HN.
  { constructor; [cbn; lia|]. eapply Forall_impl; [exact HgF|]. intros y (Y1 & Y2 & _). cbn in *. lia. }
  rw EN in HN, Hs, Hseg. apply Forall_app in HN as [HNL HN]. apply Forall_cons in HN as [[Hp0 Hp1] _].
  assert (Forall (good (um_world s) A) R) as HgR.
  { destruct L as [|l0 L]; cbn in EN; injection EN as <- ->; [done|]. apply Forall_app in HgF as [_ HgF].
    by apply Forall_cons in HgF as [_ ?]. }
  apply seg_app in Hseg as HsegL. destruct HsegL as [_ HsegR]. apply seg_cons in HsegR as [Hhp HsegR].
  mstep (get_ptr_ok s _ _ _ Hhp).
  pose proof (join_next_ok s b R Hhb HsegR ltac:(lia) Hb0) as Hjn.
  pose proof (merge_next_Q (good (um_world s) A) b R (good_mergeable _ _) ltac:(by apply inv_good in Hi as [_ ?]) HgR) as [Hg' _].
  pose proof (merge_next_1 b R) as E1.
  assert (seg (um_hdr s) (L ++ p :: R) base) as HsegN by by apply seg_app; split; [apply seg_app in Hseg as [? _]|].
  pose proof (λ m1 m2, seg_inserted (um_hdr s) m1 m2 L p R b Hs) as Hins.
  destruct (merge_next b R) as [b' R'] eqn:EM. cbn [fst snd] in *.
  destruct Hjn as (m1 & Ej & Hm1 & Hx1); [|lia|].
  { rw Forall_forall in HgR. apply Forall_forall. intros r Hr'. rw Forall_forall in HR.
    destruct (HgR r Hr') as (? & ? & ? & _). split_and!; [by apply HR|done|lia]. }
  mstep Ej. destruct Hg' as (B1 & B2 & B3 & _).
  destruct (join_prev_ok (Ustate m1 (um_freep s) (um_world s)) p b' (next R' base)) as (m2 & Ep & Hm2 & Hx2);
    [cbn; rw Hx1; [by rw Hhp|lia]|rw E1; exact Hm1|lia|done|done|lia|done|].
  rw E1 in Ep. mstep Ep. exists m2. split; [done|]. split.
  - apply (Hins m1 m2); try done.
    + eapply Forall_impl; [exact HNL|]. cbn. tauto.
  - intros x Hxp Hxb. rw Hx2 //. cbn. by apply Hx1.
Qed.

Lemma free_ok (s : ustate W) F A b (fuel : nat) :
  inv s F (b :: A) → (length F < fuel)%nat →
  ∃ m p F', free fuel (b.1 + HDR) s = Ret tt (Ustate m p (um_world s)) ∧
    inv (Ustate m p (um_world s)) F' A ∧ (length F' ≤ S (length F))%nat ∧ ∃ y, y ∈ F' ∧ b.2 ≤ y.2.
Proof.
  intros Hi Hf. destruct (inv_good _ _ _ _ Hi) as [HgF Hgb].
  destruct (Hi) as [Hbase Hbrk Hseg Hs (n & Hfr) Hz Hr Hh Ha HA].
  apply Forall_app in Hz as [HzF HzA]. apply Forall_cons in HzA as [Hb0 HzA].
  apply Forall_app in Hr as [HrF HrA]. apply Forall_cons in HrA as [[Hb1 Hb2] HrA].
  destruct (split_at b F (base, 0) Hs HzF Hb0) as (L & p & R & EN & Hfit).
  { unfold fin. cbn. lia. }
  { cbn. lia. }
  { intros y Hy. apply Ha; [by left|done]. }
  destruct (free_links s F A b L p R Hi EN Hfit) as (m & E & Hm & Hx).
  destruct (inserted_nodes F L p R b EN Hfit) as (F' & EI & Hlen & HQ & Hy); [lia|].
  exists m, p.1, F'. unfold free. rw bind_gets. cbn [fst snd].
  replace (b.1 + HDR - HDR) with b.1 by lia.
  apply list_elem_of_lookup in Hfr as [k Hk].
  assert (length L < length (nodes F))%nat as HL by (unfold nodes; rw EN length_app; cbn; lia).
  pose proof (dist_lt _ k (length L) (lookup_lt_Some _ _ _ Hk) HL) as Hd. cbn [nodes length] in Hd.
  rewrite -> (bind_Ret _ _ _ _ _ (free_loop s F L p R b fuel Hseg Hs HzF EN Hfit ltac:(lia) Hb0 k _ Hk ltac:(cbn; lia))).
  split; [exact E|]. split; [|split; [done|by apply Hy]].
  pose proof (HQ _ (good_mergeable _ _) Hgb HgF) as HgF'.
  assert (∀ y, y ∈ nodes F → y = (base, 0) ∨ y ∈ F) as Hyin by (intros y; by rw elem_of_cons).
  assert (Forall (λ r : blk, 0 < r.2) R ∧ 0 ≤ p.2) as [HzR Hp0].
  { assert (Forall (λ r : blk, 0 ≤ r.2) (nodes F)) as HN.
    { constructor; [done|]. eapply Forall_impl; [exact HzF|]. cbn. lia. }
    unfold nodes in HN. rw EN in HN. apply Forall_app in HN as [_ HN]. apply Forall_cons in HN as [? _]. split; [|done].
    destruct L as [|l0 L]; cbn in EN; injection EN as <- ->; [done|].
    apply Forall_app in HzF as [_ HzF]. by apply Forall_cons in HzF as [_ ?]. }
  split; cbn [um_hdr um_freep um_world].
  - done.
  - done.
  - by rw -EI.
  - rw -EI. apply inserted_sorted; try done. by rw -EN.
  - rw -EI. apply freep_inserted.
  - apply Forall_app. split; [|done]. eapply Forall_impl; [exact HgF'|]. by intros y (? & _).
  - apply Forall_app. split; [|done]. eapply Forall_impl; [exact HgF'|]. by intros y (_ & ? & ? & _).
  - apply Forall_cons in Hh as [_ Hh]. rw !Forall_forall in Hh HzA HrA |- *. intros x Hx'.
    rw Hx; [by apply Hh| |].
    + assert (p ∈ nodes F) as Hp by (unfold nodes; rw EN; set_solver). destruct (HrA x Hx') as [Hx1 _].
      apply Hyin in Hp as [->|Hp]; [cbn; lia|]. pose proof (Ha x p ltac:(by right) Hp) as Hap.
      rw Forall_forall in HzF. specialize (HzF p Hp). specialize (HzA x Hx'). unfold apart, fin, HDR in Hap. lia.
    + destruct Hgb as (_ & _ & _ & Hgb). specialize (HzA x Hx'). specialize (Hgb x Hx' HzA).
      unfold apart, fin, HDR in Hgb. lia.
  - intros x y Hx' Hy'. rw Forall_forall in HgF'. rw Forall_forall in HzA.
    destruct (HgF' y Hy') as (_ & _ & _ & H). by apply H, HzA.
  - by inversion HA.
Qed.

(** ** [malloc] *)

(** Taking [n] units from the end of the block [e], or all of it. *)
Definition remain (e : blk) (n : Z) : list blk := if e.2 =? n then [] else [(e.1, e.2 - n)].
Definition taken (e : blk) (n : Z) : blk := (e.1 + HDR * (e.2 - n), n).

Lemma take_links (s : ustate W) (fuel : nat) L pr e R n :
  seg (um_hdr s) (L ++ pr :: e :: R) base → StronglySorted before (L ++ pr :: e :: R) →
  Forall (λ x : blk, 0 ≤ x.2) (L ++ pr :: e :: R) → 0 < n ≤ e.2 → e.2 < 2 ^ 32 →
  ∃ m, malloc_body fuel n (pr.1, e.1) s =
      Ret (inr ((taken e n).1 + HDR)) (Ustate m pr.1 (um_world s)) ∧
    seg m (L ++ pr :: remain e n ++ R) base ∧ (hdr m (taken e n).1).2 = n ∧
    ∀ x, x ≠ pr.1 → x ≠ e.1 → x ≠ (taken e n).1 → hdr m x = hdr (um_hdr s) x.
Proof.
  intros Hseg Hs Hz Hn He. apply seg_app in Hseg as [HL Hseg]. apply seg_cons in Hseg as [Hpr Hseg].
  apply seg_cons in Hseg as [Hhe HR]. cbn [next] in Hpr.
  apply StronglySorted_app in Hs as (Hx & _ & Hs). apply StronglySorted_cons in Hs as [Hpe Hs].
  apply StronglySorted_cons in Hs as [HeR _]. apply Forall_cons in Hpe as [Hpe HpR].
  apply Forall_app in Hz as [HzL Hz]. apply Forall_cons in Hz as [Hz0 Hz]. apply Forall_cons in Hz as [_ HzR].
  rw Forall_forall in HeR. rw Forall_forall in HpR. rw Forall_forall in HzL.
  assert (∀ x, x ∈ L → fin x < pr.1) as HLpr by (intros x Hx'; apply (Hx x pr Hx'); by left).
  unfold malloc_body. mstep (get_size_ok s _ _ _ Hhe). rewrite -> (proj2 (Z.leb_le n e.2)) by lia.
  unfold remain, taken, get_ptr, get_size, set_ptr, set_size, set_freep, before, fin, HDR in *. cbn [fst snd].
  destruct (Z.eqb_spec e.2 n) as [E|E].
  - mrun. rw Hhe. cbn [fst snd um_hdr um_freep um_world]. rw E. eexists.
    split; [f_equal; f_equal; f_equal; lia|]. replace (e.1 + 16 * (n - n)) with e.1 by lia.
    split; [|split].
    + apply seg_app. split.
      * eapply seg_ext; [|exact HL]. intros x Hx'. specialize (HLpr x Hx'). specialize (HzL x Hx').
        rw hdr_insert decide_False //. lia.
      * apply seg_cons. rw hdr_insert decide_True // Hpr. split; [done|].
        eapply seg_ext; [|exact HR]. intros x Hx'. specialize (HpR x Hx'). rw hdr_insert decide_False //. lia.
    + rw hdr_insert decide_False; [by rw Hhe|lia].
    + intros x Hx1 _ _. by rw hdr_insert decide_False.
  - mrun. rw Hhe. cbn [fst snd um_hdr um_freep um_world]. rw hdr_insert decide_True //. cbn [fst snd].
    replace (u32 (e.2 - n)) with (e.2 - n) by (unfold u32; zlia). eexists. split; [reflexivity|].
    split; [|split].
    + apply seg_app. split.
      * eapply seg_ext; [|exact HL]. intros x Hx'. specialize (HLpr x Hx'). specialize (HzL x Hx').
        rw !hdr_insert !decide_False //; lia.
      * cbn [app]. apply seg_cons. rw !hdr_insert !decide_False; [|lia..]. split; [by rw Hpr|].
        apply seg_cons. cbn [fst snd]. rw !hdr_insert decide_False; [|lia]. rw decide_True //. split; [done|].
        eapply seg_ext; [|exact HR]. intros x Hx'. specialize (HeR x Hx'). rw !hdr_insert !decide_False //; lia.
    + rw hdr_insert decide_True //.
    + intros x Hx1 Hx2 Hx3. by rw !hdr_insert !decide_False.
Qed.

(** [y] lies within [e]. *)
Definition within (y e : blk) : Prop := e.1 ≤ y.1 ∧ fin y ≤ fin e ∧ 0 < y.2.
Lemma apart_within x y e : apart x e → within y e → apart x y.
Proof. unfold apart, within, fin, HDR. lia. Qed.
Lemma taken_within e n : 0 < n ≤ e.2 → within (taken e n) e.
Proof. unfold within, taken, fin, HDR. cbn. lia. Qed.
Lemma remain_within e n y : 0 < n ≤ e.2 → y ∈ remain e n → within y e ∧ apart (taken e n) y.
Proof.
  unfold remain, within, taken, apart, fin, HDR. intros Hn. destruct (Z.eqb_spec e.2 n); [by intros ?%elem_of_nil|].
  intros ->%list_elem_of_singleton. cbn. lia.
Qed.

Lemma remain_sorted L pr e R n :
  StronglySorted before (L ++ pr :: e :: R) → 0 < n ≤ e.2 →
  StronglySorted before (L ++ pr :: remain e n ++ R).
Proof.
  intros Hs Hn. apply StronglySorted_app in Hs as (Hx & HsL & Hs). apply StronglySorted_cons in Hs as [Hpe Hs].
  apply StronglySorted_cons in Hs as [HeR HsR]. apply Forall_cons in Hpe as [Hpe HpR].
  rw Forall_forall in HpR. rw Forall_forall in HeR.
  assert (∀ y, y ∈ remain e n → y.1 = e.1 ∧ fin y ≤ fin e) as Hy.
  { intros y Hy. pose proof (remain_within e n y Hn Hy) as [(_ & H & _) _]. split; [|done].
    unfold remain in Hy. destruct (_ =? _); [by apply elem_of_nil in Hy|]. by apply list_elem_of_singleton in Hy as ->. }
  apply StronglySorted_app_2; [|done|apply StronglySorted_cons; split; [|apply StronglySorted_app_2; [| |done]]].
  - intros x y Hx' Hy'. unfold before in *.
    assert (fin x < pr.1) as H1 by (apply (Hx x pr Hx'); set_solver).
    assert (fin x < e.1) as H2 by (apply (Hx x e Hx'); set_solver).
    apply elem_of_cons in Hy' as [->|Hy']; [done|]. apply elem_of_app in Hy' as [Hy'|Hy'].
    + destruct (Hy y Hy') as [-> _]. done.
    + apply (Hx x y Hx'). set_solver.
  - apply Forall_app. split; apply Forall_forall; intros y Hy'; [|by apply HpR].
    unfold before in *. destruct (Hy y Hy') as [-> _]. done.
  - intros x y Hx' Hy'. unfold before in *. destruct (Hy x Hx') as [_ ?]. specialize (HeR y Hy'). lia.
  - unfold remain. destruct (_ =? _); repeat constructor.
Qed.

Lemma remain_nodes F L pr e R n :
  nodes F = L ++ pr :: e :: R →
  e ∈ F ∧ ∃ F', L ++ pr :: remain e n ++ R = nodes F' ∧ ∀ y, y ∈ F' → y ∈ remain e n ∨ y ∈ F ∧ y ∈ L ++ pr :: R.
Proof.
  intros EN. destruct L as [|l0 L]; cbn in EN; injection EN as <- ->.
  - split; [by left|]. exists (remain e n ++ R). split; [done|]. intros y Hy. set_solver.
  - split; [set_solver|]. exists (L ++ pr :: remain e n ++ R). split; [done|]. intros y Hy. set_solver.
Qed.

Lemma take_ok (s : ustate W) (fuel : nat) F A L pr e R n :
  inv s F A → nodes F = L ++ pr :: e :: R → 0 < n ≤ e.2 →
  ∃ m F', malloc_body fuel n (pr.1, e.1) s =
      Ret (inr ((taken e n).1 + HDR)) (Ustate m pr.1 (um_world s)) ∧
    inv (Ustate m pr.1 (um_world s)) F' (taken e n :: A).
Proof.
  intros [Hbase Hbrk Hseg Hs _ Hz Hr Hh Ha HA] EN Hn.
  apply Forall_app in Hz as [HzF HzA]. apply Forall_app in Hr as [HrF HrA].
  destruct (remain_nodes F L pr e R n EN) as (HeF & F' & EF' & Hsub).
  rw !Forall_forall in HzF HrF HzA HrA. pose proof (HzF e HeF) as He0. destruct (HrF e HeF) as [He1 He2].
  assert (Forall (λ x : blk, 0 ≤ x.2) (L ++ pr :: e :: R)) as HN.
  { rw -EN. constructor; [done|]. apply Forall_forall. intros y Hy. specialize (HzF y Hy). lia. }
  rw EN in Hseg, Hs. destruct (take_links s fuel L pr e R n Hseg Hs HN Hn) as (m & E & Hm & Ht & Hx).
  { unfold fin, HDR in He2. lia. }
  exists m, F'. split; [exact E|]. pose proof (taken_within e n Hn) as Hte.
  assert (∀ y, y ∈ F' → within y e ∧ apart (taken e n) y ∨ y ∈ F ∧ apart y e) as Hy.
  { intros y Hy. destruct (Hsub y Hy) as [Hy'|[HyF Hy']]; [left; by apply remain_within|right]. split; [done|].
    apply StronglySorted_app in Hs as (HxL & _ & Hs). apply StronglySorted_cons in Hs as [Hpe Hs].
    apply StronglySorted_cons in Hs as [HeR _]. apply Forall_cons in Hpe as [Hpe _]. rw Forall_forall in HeR.
    unfold before in *. unfold apart. apply elem_of_app in Hy' as [Hy'|Hy'].
    - left. apply Z.lt_le_incl, (HxL y e Hy'). set_solver.
    - apply elem_of_cons in Hy' as [->|Hy']; [left; lia|]. right. specialize (HeR y Hy'). lia. }
  split; cbn [um_hdr um_freep um_world].
  - done.
  - done.
  - by rw -EF'.
  - rw -EF'. by apply (remain_sorted L pr e R n).
  - exists pr.2. rw -EF' -surjective_pairing. set_solver.
  - apply Forall_forall. intros y. rw elem_of_app elem_of_cons. intros [Hy'|[->|Hy']]; [|apply Hte|by apply HzA].
    destruct (Hy y Hy') as [[(_ & _ & ?) _]|[? _]]; [done|by apply HzF].
  - apply Forall_forall. intros y. rw elem_of_app elem_of_cons. intros [Hy'|[->|Hy']]; [| |by apply HrA].
    + destruct (Hy y Hy') as [[(? & ? & _) _]|[? _]]; [lia|by apply HrF].
    + destruct Hte as (? & ? & _). lia.
  - constructor; [exact Ht|]. rw !Forall_forall in Hh |- *. intros x Hx'. specialize (HzA x Hx').
    pose proof (Ha x e Hx' HeF) as Hxe. rw Hx; [by apply Hh| | |].
    + assert (pr ∈ nodes F) as Hpr by (rw EN; set_solver). destruct (HrA x Hx') as [Hx1 _].
      apply elem_of_cons in Hpr as [->|Hpr]; [cbn; lia|]. specialize (Ha x pr Hx' Hpr). specialize (HzF pr Hpr).
      unfold apart, fin, HDR in Ha. lia.
    + unfold apart, fin, HDR in Hxe. lia.
    + destruct Hte as (? & ? & ?). unfold apart, fin, HDR in *. lia.
  - intros x y Hx' Hy'. apply elem_of_cons in Hx' as [->|Hx'].
    + destruct (Hy y Hy') as [[_ ?]|[_ H]]; [done|]. apply apart_sym. by eapply apart_within.
    + destruct (Hy y Hy') as [[H _]|[H _]]; [|by apply Ha]. eapply apart_within; [by apply Ha|done].
  - constructor; [|done]. apply Forall_forall. intros x Hx'. apply apart_sym.
    eapply apart_within; [by apply Ha|done].
Qed.

(** The node after node [j]. *)
Definition nx (n j : nat) : nat := if decide (S j < n)%nat then S j else 0%nat.

Lemma dist_nx n j k d : (j < n)%nat → (k < n)%nat → dist n j k = S d → dist n (nx n j) k = d.
Proof. unfold dist, nx. intros Hj Hk. repeat case_decide; lia. Qed.
Lemma dist_inj n i j k : (i < n)%nat → (j < n)%nat → (k < n)%nat → dist n i k = dist n j k → i = j.
Proof. unfold dist. intros Hi Hj Hk. repeat case_decide; lia. Qed.

Lemma next_node m F j e :
  seg m (nodes F) base → nodes F !! j = Some e →
  ∃ e', nodes F !! nx (length (nodes F)) j = Some e' ∧ hdr m e.1 = (e'.1, e.2).
Proof.
  intros Hs Hj. pose proof (seg_lookup _ _ _ _ _ Hs Hj) as E. rw next_drop in E. unfold nx. case_decide as Hl.
  - destruct (lookup_lt_is_Some_2 _ _ Hl) as [e' He']. exists e'. by rw He' in E.
  - exists (base, 0). split; [done|]. rw lookup_ge_None_2 in E; [done|lia].
Qed.

Lemma pred_split {A} (l : list A) j x y :
  l !! j = Some x → l !! S j = Some y → ∃ L R, l = L ++ x :: y :: R.
Proof.
  intros Hx Hy. exists (take j l), (drop (S (S j)) l).
  rw -(drop_S _ _ _ Hy) -(drop_S _ _ _ Hx). by rw take_drop.
Qed.

Lemma other_node (s : ustate W) F A j k v e d :
  inv s F A → nodes F !! k = Some (um_freep s, v) → nodes F !! j = Some e →
  dist (length (nodes F)) j k = S d → e.1 ≠ um_freep s.
Proof.
  intros Hi Hk Hj Hd E. assert (Forall (λ b, 0 ≤ b.2) (nodes F)) as Hz.
  { constructor; [done|]. destruct Hi as [_ _ _ _ _ Hz _ _ _ _]. apply Forall_app in Hz as [Hz _].
    eapply Forall_impl; [exact Hz|]. cbn. lia. }
  pose proof (sorted_lt _ Hz (i_sort _ _ _ Hi)) as Hlt.
  assert (j ≠ k) as Hne by (unfold dist in Hd; case_decide; lia).
  destruct (decide (j < k)%nat).
  - pose proof (Hlt j k e _ ltac:(lia) Hj Hk) as H. cbn in H. lia.
  - pose proof (Hlt k j _ e ltac:(lia) Hk Hj) as H. cbn in H. lia.
Qed.

Lemma found (s : ustate W) F A n (fl fuel i : nat) pr e :
  inv s F A → 0 < n ≤ e.2 → (0 < fuel)%nat → nodes F !! i = Some pr →
  nodes F !! nx (length (nodes F)) i = Some e →
  ∃ b m p F', loopM fuel (malloc_body fl n) (pr.1, e.1) s = Ret (b.1 + HDR) (Ustate m p (um_world s)) ∧
    b.2 = n ∧ inv (Ustate m p (um_world s)) F' (b :: A).
Proof.
  intros Hi Hn Hf Hpr He. destruct fuel as [|f]; [lia|]. unfold nx in He. case_decide; [|injection He as <-; cbn in Hn; lia].
  destruct (pred_split _ _ _ _ Hpr He) as (L & R & EN).
  destruct (take_ok s fl F A L pr e R n Hi EN Hn) as (m & F' & E & Hi').
  exists (taken e n), m, pr.1, F'. split; [|by split]. cbn [loopM]. by mstep E.
Qed.

Lemma malloc_skip (s : ustate W) (fl : nat) n pr (e e' : blk) :
  hdr (um_hdr s) e.1 = (e'.1, e.2) → e.2 < n → e.1 ≠ um_freep s →
  malloc_body fl n (pr, e.1) s = Ret (inl (e.1, e'.1)) s.
Proof.
  intros He Hn Hne. unfold malloc_body. mstep (get_size_ok s _ _ _ He).
  rewrite -> (proj2 (Z.leb_gt n e.2)) by lia. msimp. rewrite -> (proj2 (Z.eqb_neq _ _) Hne).
  by mstep (get_ptr_ok s _ _ _ He).
Qed.

Lemma scan_ok (s : ustate W) F A n (fl : nat) k v :
  inv s F A → 0 < n → nodes F !! k = Some (um_freep s, v) →
  ∀ d (fuel i j : nat) pr e, nodes F !! i = Some pr → nodes F !! j = Some e → j = nx (length (nodes F)) i →
  dist (length (nodes F)) j k = d → (d < fuel)%nat →
  (∀ i' y, nodes F !! i' = Some y → n ≤ y.2 → (dist (length (nodes F)) i' k ≤ d)%nat) →
  (∃ b m p F', loopM fuel (malloc_body fl n) (pr.1, e.1) s = Ret (b.1 + HDR) (Ustate m p (um_world s)) ∧
     b.2 = n ∧ inv (Ustate m p (um_world s)) F' (b :: A)) ∨
  (∀ y, y ∈ nodes F → y.2 < n) ∧
  ∃ f' pr', fuel = (S f' + d)%nat ∧
    loopM fuel (malloc_body fl n) (pr.1, e.1) s = loopM (S f') (malloc_body fl n) (pr', um_freep s) s.
Proof.
  intros Hi Hn Hk. pose proof (lookup_lt_Some _ _ _ Hk) as Hkl.
  induction d as [|d IH]; intros fuel i j pr e Hpr He Ej Hd Hf Hall; pose proof (lookup_lt_Some _ _ _ He) as Hjl.
  - assert (j = k) as -> by (apply (dist_inj (length (nodes F)) j k k); [done..|unfold dist in *; repeat case_decide; lia]).
    rw Hk in He. injection He as <-. destruct (decide (n ≤ v)) as [Hv|Hv].
    + left. apply (found s F A n fl fuel i pr (um_freep s, v)); [done|done|lia|done|]. by rw -Ej.
    + right. split.
      * intros y Hy. apply list_elem_of_lookup in Hy as [i' Hy]. destruct (decide (n ≤ y.2)) as [Hny|]; [|lia].
        pose proof (Hall i' y Hy Hny) as H0. exfalso. apply Hv.
        assert (i' = k) as ->; [|rw Hk in Hy; injection Hy as <-; done].
        apply (dist_inj (length (nodes F)) i' k k); [by eapply lookup_lt_Some|done|done|].
        unfold dist in *. repeat case_decide; lia.
      * destruct fuel as [|f]; [lia|]. exists f, pr.1. split; [lia|done].
  - destruct (decide (n ≤ e.2)) as [Hv|Hv].
    { left. apply (found s F A n fl fuel i pr e); [done|done|lia|done|]. by rw -Ej. }
    destruct fuel as [|f]; [lia|]. destruct (next_node _ F j e (i_seg _ _ _ Hi) He) as (e' & He' & Hhe).
    assert (e.1 ≠ um_freep s) as Hne by (by eapply other_node).
    assert (loopM (S f) (malloc_body fl n) (pr.1, e.1) s = loopM f (malloc_body fl n) (e.1, e'.1) s) as Estep.
    { cbn [loopM]. by rewrite -> (bind_Ret _ _ _ _ _ (malloc_skip s fl n pr.1 e e' Hhe ltac:(lia) Hne)). }
    rw Estep. pose proof (dist_nx _ _ _ _ Hjl Hkl Hd) as Hd'.
    destruct (IH f j _ e e' He He' eq_refl Hd') as [H|(H & f' & pr' & Ef & El)]; [lia| |by left|].
    + intros i' y Hy Hny. pose proof (Hall i' y Hy Hny) as Hle. pose proof (lookup_lt_Some _ _ _ Hy) as Hil.
      destruct (decide (dist (length (nodes F)) i' k = S d)) as [E|]; [|lia].
      assert (i' = j) as -> by (by apply (dist_inj (length (nodes F)) i' j k); [..|congruence]).
      rw He in Hy. injection Hy as <-. done.
    + right. split; [done|]. exists f', pr'. split; [lia|done].
Qed.

Context `{!Brk brk}.

(** A change of the world that does not move the break. *)
Lemma inv_world s F A w' :
  brk w' = brk (um_world s) → inv s F A → inv (Ustate (um_hdr s) (um_freep s) w') F A.
Proof. intros E [Hbase Hbrk Hseg Hs Hf Hz Hr Hh Ha HA]. split; cbn; rw ?E //. Qed.

(** New memory is like a block just allocated. *)
Lemma inv_grow s F A nu w' v :
  inv s F A → 0 < nu → brk w' = brk (um_world s) + HDR * nu → brk w' ≤ 2 ^ 32 →
  inv (Ustate (<[brk (um_world s) := (v, nu)]> (um_hdr s)) (um_freep s) w') F ((brk (um_world s), nu) :: A).
Proof.
  intros [Hbase Hbrk Hseg Hs Hf Hz Hr Hh Ha HA] Hnu E Hle.
  apply Forall_app in Hz as [HzF HzA]. apply Forall_app in Hr as [HrF HrA].
  assert (∀ y, y ∈ F ∨ y ∈ A → y.1 < brk (um_world s) ∧ fin y ≤ brk (um_world s)) as Hy.
  { rw !Forall_forall in HzF HzA HrF HrA. intros y [Hy|Hy].
    - specialize (HzF y Hy). destruct (HrF y Hy). unfold fin, HDR in *. lia.
    - specialize (HzA y Hy). destruct (HrA y Hy). unfold fin, HDR in *. lia. }
  unfold HDR in *. split; cbn [um_hdr um_freep um_world].
  - done.
  - lia.
  - eapply seg_ext; [|exact Hseg]. intros y Hy'. rw hdr_insert decide_False //.
    apply elem_of_cons in Hy' as [->|Hy']; [cbn; lia|]. destruct (Hy y); [by left|lia].
  - done.
  - done.
  - apply Forall_app. split; [done|]. by constructor.
  - apply Forall_app. split; [|constructor; [unfold fin, HDR; cbn; lia|]].
    + eapply Forall_impl; [exact HrF|]. cbn. lia.
    + eapply Forall_impl; [exact HrA|]. cbn. lia.
  - constructor; [by rw hdr_insert decide_True|]. rw !Forall_forall in Hh |- *. intros y Hy'.
    rw hdr_insert decide_False; [by apply Hh|]. destruct (Hy y); [by right|lia].
  - intros x y Hx Hy'. apply elem_of_cons in Hx as [->|Hx]; [|by apply Ha]. right. cbn.
    destruct (Hy y); [by left|done].
  - constructor; [|done]. apply Forall_forall. intros y Hy'. right. cbn. destruct (Hy y); [by right|done].
Qed.

Lemma morecore_ok (s : ustate W) F A nu (fuel : nat) :
  inv s F A → 0 < nu → HDR * nu < 2 ^ 31 → (length F < fuel)%nat →
  (∃ w', morecore fuel nu s = Ret 0 (Ustate (um_hdr s) (um_freep s) w') ∧
     inv (Ustate (um_hdr s) (um_freep s) w') F A) ∨
  (∃ m p w' F', morecore fuel nu s = Ret p (Ustate m p w') ∧ inv (Ustate m p w') F' A ∧
     (length F' ≤ S (length F))%nat ∧ ∃ y, y ∈ F' ∧ nu ≤ y.2).
Proof.
  intros Hi Hnu Hlt Hf. unfold morecore. set (nu' := if nu <? 4096 then 4096 else nu).
  assert (nu ≤ nu' ∧ 0 < nu' ∧ HDR * nu' < 2 ^ 31) as (H1 & H2 & H3).
  { unfold nu', HDR in *. destruct (Z.ltb_spec nu 4096); lia. }
  replace (i32 (nu' * HDR)) with (HDR * nu') by (unfold i32, HDR in *; zlia).
  destruct (sbrk_ok (HDR * nu') (um_world s)) as (r & w' & E & Hr); [unfold HDR; lia|].
  assert (usbrk (HDR * nu') s = Ret r (Ustate (um_hdr s) (um_freep s) w')) as Eu by (unfold usbrk, zoom; by rw E).
  mstep Eu. destruct Hr as [[-> Hw]|(-> & Hw & Hb)].
  { left. exists w'. split; [done|]. by apply inv_world. }
  right. destruct (i_brk _ _ _ Hi) as [Hlo _]. destruct (i_base _ _ _ Hi) as [Hb0 Hb1].
  rewrite -> (proj2 (Z.eqb_neq _ _)) by lia. unfold set_size. msimp. cbn [um_hdr um_freep um_world].
  pose proof (inv_grow s F A nu' w' (hdr (um_hdr s) (brk (um_world s))).1 Hi H2 Hw Hb) as Hi'.
  destruct (free_ok _ F A _ fuel Hi' Hf) as (m & p & F' & Ef & Hinv & Hlen & y & Hy & Hny).
  mstep Ef. exists m, p, w', F'. split; [done|]. split; [exact Hinv|]. split; [done|].
  exists y. split; [done|]. cbn in Hny. lia.
Qed.

(** A pass from [freep] on. *)
Lemma scan_start (s : ustate W) F A n (fl fuel : nat) :
  inv s F A → 0 < n → (length (nodes F) ≤ fuel)%nat →
  (∃ b m p F', loopM fuel (malloc_body fl n) (um_freep s, (hdr (um_hdr s) (um_freep s)).1) s =
       Ret (b.1 + HDR) (Ustate m p (um_world s)) ∧
     b.2 = n ∧ inv (Ustate m p (um_world s)) F' (b :: A)) ∨
  (∀ y, y ∈ nodes F → y.2 < n) ∧
  ∃ f' pr', (fuel ≤ f' + length (nodes F))%nat ∧
    loopM fuel (malloc_body fl n) (um_freep s, (hdr (um_hdr s) (um_freep s)).1) s =
    loopM (S f') (malloc_body fl n) (pr', um_freep s) s.
Proof.
  intros Hi Hn Hf. destruct (i_free _ _ _ Hi) as [v Hv]. apply list_elem_of_lookup in Hv as [k Hk].
  destruct (next_node _ F k _ (i_seg _ _ _ Hi) Hk) as (e & He & Eh). cbn [fst snd] in Eh. rw Eh. cbn [fst].
  pose proof (lookup_lt_Some _ _ _ Hk) as Hkl. pose proof (lookup_lt_Some _ _ _ He) as Hel.
  pose proof (dist_lt _ _ _ Hel Hkl) as Hd.
  destruct (scan_ok s F A n fl k v Hi Hn Hk _ fuel k _ (um_freep s, v) e Hk He eq_refl eq_refl)
    as [H|(H & f' & pr' & E & El)]; [lia| |by left|].
  - intros i' y Hy _. apply lookup_lt_Some in Hy. unfold dist, nx in *. repeat case_decide; lia.
  - right. split; [done|]. exists f', pr'. split; [lia|done].
Qed.

(** The step that asks for memory. *)
Lemma malloc_more (s s' : ustate W) (fl : nat) n pr' v p :
  (hdr (um_hdr s) (um_freep s)) = v → v.2 < n → morecore fl n s = Ret p s' →
  malloc_body fl n (pr', um_freep s) s =
    Ret (if p =? 0 then inr 0 else inl (p, (hdr (um_hdr s') p).1)) s'.
Proof.
  intros E Hv Em. unfold malloc_body, get_size, get_ptr. msimp. rw E.
  rewrite -> (proj2 (Z.leb_gt _ _)) by done. msimp. rw Z.eqb_refl. mstep Em. by destruct (p =? 0).
Qed.

Lemma nodes_pos s F A p n : inv s F A → (p, n) ∈ nodes F → p ≠ 0.
Proof.
  intros Hi Hp. destruct (i_base _ _ _ Hi) as [Hb Hlo]. apply elem_of_cons in Hp as [[= -> _]|Hp]; [lia|].
  pose proof (i_range _ _ _ Hi) as Hr. rw Forall_forall in Hr. destruct (Hr (p, n)) as [Hr' _]; [set_solver|].
  cbn in Hr'. lia.
Qed.

Lemma malloc_loop (s : ustate W) F A n (fl fuel : nat) :
  inv s F A → 0 < n → HDR * n < 2 ^ 31 → (length F < fl)%nat → (2 * length F + 4 ≤ fuel)%nat →
  ∃ r s', loopM fuel (malloc_body fl n) (um_freep s, (hdr (um_hdr s) (um_freep s)).1) s = Ret r s' ∧
    (r = 0 ∧ (∃ F', inv s' F' A) ∨ ∃ b F', r = b.1 + HDR ∧ b.2 = n ∧ inv s' F' (b :: A)).
Proof.
  intros Hi Hn Hn' Hfl Hf.
  destruct (scan_start s F A n fl fuel Hi Hn) as [(b & m & p & F' & E & Hb & Hi')|(Hall & f' & pr' & Hf' & E)].
  { cbn [length nodes]. lia. }
  { exists (b.1 + HDR), (Ustate m p (um_world s)). split; [done|]. right. by exists b, F'. }
  rw E. cbn [loopM]. destruct (i_free _ _ _ Hi) as [v Hv].
  pose proof (Hall _ Hv) as Hlt. cbn [snd] in Hlt.
  apply list_elem_of_lookup in Hv as [k Hk]. destruct (next_node _ F k _ (i_seg _ _ _ Hi) Hk) as (e & He & Eh).
  cbn [fst snd] in Eh. destruct (morecore_ok s F A n fl Hi Hn Hn' Hfl)
    as [(w' & Em & Hi')|(m & p & w' & F' & Em & Hi' & Hlen & y & Hy & Hny)];
    mstep (malloc_more _ _ _ _ pr' _ _ Eh Hlt Em).
  { eexists _, _. split; [done|]. left. split; [done|]. by exists F. }
  destruct (i_free _ _ _ Hi') as [v' Hv']. cbn [um_freep] in Hv'.
  rewrite -> (proj2 (Z.eqb_neq _ _)) by by eapply nodes_pos.
  destruct (scan_start _ F' A n fl f' Hi' Hn) as [(b & m2 & p2 & F2 & E2 & Hb & Hi2)|(Hall' & _)].
  { cbn [length nodes] in Hf' |- *. lia. }
  - exists (b.1 + HDR), (Ustate m2 p2 w'). split; [exact E2|]. right. by exists b, F2.
  - exfalso. specialize (Hall' y ltac:(by right)). lia.
Qed.

(** ** What the two functions promise *)

(** The heap with the blocks [A] allocated; [freep] is 0 before the first call. *)
Definition heap (s : ustate W) (A : list blk) : Prop :=
  (∃ F, inv s F A) ∨
  A = [] ∧ um_freep s = 0 ∧ 0 < base < lo ∧ lo ≤ brk (um_world s) ≤ 2 ^ 32.

Lemma inv_perm s F A A' : A ≡ₚ A' → inv s F A → inv s F A'.
Proof.
  intros HA [Hbase Hbrk Hseg Hs Hf Hz Hr Hh Ha HAA]. split; try done; rw -?HA //.
  - intros x y Hx. apply Ha. by rw HA.
  - clear -HA HAA. induction HA as [|x l l' HA IH|x y l|l1 l2 l3 _ IH1 _ IH2]; [done| | |by auto].
    + inversion_clear HAA. constructor; [by rw -HA|by apply IH].
    + inversion_clear HAA as [|? ? Hx Hl]. inversion_clear Hl as [|? ? Hy Hl'].
      apply Forall_cons in Hx as [Hyx Hx].
      constructor; [constructor; [by apply apart_sym|done]|]. by constructor.
Qed.

Lemma heap_init m w : 0 < base < lo → lo ≤ brk w ≤ 2 ^ 32 → inv (Ustate (<[base := (base, 0)]> m) base w) [] [].
Proof.
  intros Hb Hw. split; cbn [um_hdr um_freep um_world]; try done.
  - cbn. by rw hdr_insert decide_True.
  - repeat constructor.
  - exists 0. by left.
  - by intros x y ?%elem_of_nil.
  - constructor.
Qed.

(** [malloc] begins its loop in a state of the invariant. *)
Lemma malloc_start (s : ustate W) A :
  heap s A → ∃ s' F, inv s' F A ∧ ∀ fuel nbytes,
    malloc base fuel nbytes s =
      loopM fuel (malloc_body fuel (u32 ((nbytes + HDR - 1) / HDR + 1)))
        (um_freep s', (hdr (um_hdr s') (um_freep s')).1) s'.
Proof.
  intros [[F Hi]|(-> & Hf & Hb & Hw)].
  - exists s, F. split; [done|]. intros fuel nbytes. unfold malloc. msimp.
    destruct (i_free _ _ _ Hi) as [v Hv]. rewrite -> (proj2 (Z.eqb_neq _ _)) by by eapply nodes_pos.
    msimp. unfold get_ptr. by msimp.
  - set (m := <[base := (base, (hdr (um_hdr s) base).2)]> (um_hdr s)).
    exists (Ustate (<[base := (base, 0)]> m) base (um_world s)), []. split; [by apply heap_init|].
    intros fuel nbytes. unfold malloc. msimp. rw Hf. cbn [Z.eqb].
    unfold set_ptr, set_freep, set_size, get_ptr. mrun. cbn [um_hdr um_freep um_world].
    fold m. unfold m at 1 3. rewrite -> !(hdr_insert (um_hdr s)), !decide_True by done. done.
Qed.

Lemma units_ok nbytes :
  0 ≤ nbytes < 2 ^ 31 - 2 ^ 5 →
  let n := u32 ((nbytes + HDR - 1) / HDR + 1) in 0 < n ∧ HDR * n < 2 ^ 31 ∧ nbytes ≤ HDR * (n - 1).
Proof.
  intros Hn. cbv zeta. unfold HDR, u32 in *.
  rewrite -> Z.mod_small by zlia. zlia.
Qed.

(** C16. [malloc] and [free] keep the allocated blocks of the heap apart: a call
    of [malloc] ends, and gives NULL or the address after the header of a new
    block that has room for the bytes asked for; [free] of an allocated block
    ends and gives back exactly that block; and in every such heap no two
    allocated blocks overlap and all lie between the first break of the
    process and the current one. *)
Theorem malloc_free_disjoint (s : ustate W) A :
  heap s A →
  (∀ nbytes, 0 ≤ nbytes < 2 ^ 31 - 2 ^ 5 →
     ∃ N : nat, ∀ fuel : nat, (N ≤ fuel)%nat → ∃ r s', malloc base fuel nbytes s = Ret r s' ∧
       (r = 0 ∧ heap s' A ∨
        ∃ b, r = b.1 + HDR ∧ nbytes ≤ HDR * (b.2 - 1) ∧ heap s' (b :: A))) ∧
  (∀ b A', A ≡ₚ b :: A' →
     ∃ N : nat, ∀ fuel : nat, (N ≤ fuel)%nat → ∃ s', free fuel (b.1 + HDR) s = Ret tt s' ∧ heap s' A') ∧
  ForallOrdPairs apart A ∧
  Forall (λ b, 0 < b.2 ∧ lo ≤ b.1 ∧ fin b ≤ brk (um_world s)) A.
Proof.
  intros Hh. split; [|split].
  - intros nbytes Hn. destruct (malloc_start s A Hh) as (s1 & F & Hi & E).
    destruct (units_ok nbytes Hn) as (Hn1 & Hn2 & Hn3). exists (2 * length F + 4)%nat. intros fuel Hf. rw E.
    destruct (malloc_loop s1 F A _ fuel fuel Hi Hn1 Hn2) as (r & s' & Er & Hr); [lia..|].
    exists r, s'. split; [done|]. destruct Hr as [[-> Hr]|(b & F' & -> & Eb & Hi')].
    + left. split; [done|]. by left.
    + right. exists b. rw Eb. split; [done|]. split; [done|]. left. by exists F'.
  - intros b A' HA. destruct Hh as [[F Hi]|(-> & _)]; [|by apply Permutation_nil_cons in HA].
    exists (S (length F)). intros fuel Hf. apply (inv_perm _ _ _ _ HA) in Hi.
    destruct (free_ok s F A' b fuel Hi) as (m & p & F' & E & Hi' & _); [lia|].
    eexists. split; [exact E|]. left. by exists F'.
  - destruct Hh as [[F Hi]|(-> & _)]; [|split; constructor].
    split; [by eapply i_apartA|]. pose proof (i_size _ _ _ Hi) as Hz. pose proof (i_range _ _ _ Hi) as Hr.
    apply Forall_app in Hz as [_ Hz]. apply Forall_app in Hr as [_ Hr]. apply Forall_and. done.
Qed.
End inv.

(** ** A world with a heap only, for the witness

    [sbrk] grants up to 128 KiB. *)

Definition brk_only : Type := Z.
Definition brk_of (w : brk_only) : Z := w.
#[local] Instance brk_unix : Unix brk_only := {|
  fork := mret (-1); wait := mret (-1, 0); pipe := mret (-1, 0, 0);
  read := λ _ _, mret (-1, []); write := λ _ _, mret (-1); close := λ _, mret 0; kill := λ _, mret (-1);
  exec := λ _ _, mret (-1); open := λ _ _, mret (-1); mknod := λ _ _ _, mret (-1);
  unlink := λ _, mret (-1); fstat := λ _, mret (-1, Ustat 0 0 0 0 0); link := λ _ _, mret (-1);
  mkdir := λ _, mret (-1); chdir := λ _, mret (-1); dup := λ _, mret (-1); getpid := mret 1;
  sbrk := λ n w, if decide (w + n ≤ 2 ^ 17) then Ret w (w + n) else Ret (-1) w;
  sleep := λ _, mret 0; uptime := mret 0
|}.
#[local] Instance brk_only_ok : Brk brk_of.
Proof.
  split. intros n w Hn. cbn. case_decide as E; eexists _, _; (split; [done|]).
  - right. split; [done|]. unfold brk_of. lia.
  - left. done.
Qed.

(** A first [malloc(100)] in a program whose heap begins at 0x3000. *)
Lemma malloc_free_disjoint_witness :
  ∃ N : nat, ∀ fuel : nat, (N ≤ fuel)%nat →
    ∃ r s', malloc 10240 fuel 100 (Ustate ∅ 0 (12288 : brk_only)) = Ret r s' ∧
      (r = 0 ∧ heap 10240 12288 brk_of s' [] ∨
       ∃ b, r = b.1 + HDR ∧ 100 ≤ HDR * (b.2 - 1) ∧ heap 10240 12288 brk_of s' [b]).
Proof.
  apply (malloc_free_disjoint 10240 12288 brk_of (Ustate ∅ 0 (12288 : brk_only)) []).
  - right. cbn. unfold brk_of. split_and!; first [done|lia].
  - lia.
Defined.
