(* ===== verification/Mkfs.v ===== *)
(** * The file system image (mkfs/mkfs.c)

    A program of the host that writes the image the kernel mounts: the
    superblock, the root directory, the files given and the bitmap. It runs
    over the system calls of the host, of which it uses those of [Unix] and
    [lseek]. A [char buf\[BSIZE\]] is a list of bytes, the globals are the
    fields of [mkst]; a failed [assert] stops with a message and [die] exits
    with status 1. *)

From S2P Require Import Prelude Riscv KState KString Layout Bio Fs User.
Open Scope Z_scope.

Class Posix (W : Type) : Type := {
  posix_unix :: Unix W;
  lseek : Z → Z → Z → M W Z;
  O_RDWR_CREAT_TRUNC : Z         (** the host's [O_RDWR|O_CREAT|O_TRUNC] *)
}.

Definition NINODES : Z := 200.

Definition nbitmap : Z := FSSIZE / (BSIZE * 8) + 1.
Definition ninodeblocks : Z := NINODES / IPB + 1.
Definition nlog : Z := LOGSIZE.

Record mkst (W : Type) : Type := Mkst {
  mk_fsfd : Z;
  mk_sb : superblock;
  mk_freeinode : Z;
  mk_freeblock : Z;
  mk_world : W
}.
Arguments Mkst {W} _ _ _ _ _.
Arguments mk_fsfd {W} _.
Arguments mk_sb {W} _.
Arguments mk_freeinode {W} _.
Arguments mk_freeblock {W} _.
Arguments mk_world {W} _.

(** Convert to the byte order of the disk: the bytes stored into [y], read as
    an integer of the host, which is little-endian. *)
Definition xshort (x : Z) : Z := le_dec [u8 x; u8 (Z.shiftr x 8)].
Definition xint (x : Z) : Z :=
  le_dec [u8 x; u8 (Z.shiftr x 8); u8 (Z.shiftr x 16); u8 (Z.shiftr x 24)].

Section mkfs.
Context {W} `{!Posix W}.
Abbreviation MM := (M (mkst W)).

Definition host {A} (m : M W A) : MM A :=
  zoom mk_world (λ w s, Mkst (mk_fsfd s) (mk_sb s) (mk_freeinode s) (mk_freeblock s) w) m.
Definition set_fsfd (fd : Z) : MM unit :=
  modify (λ s, Mkst fd (mk_sb s) (mk_freeinode s) (mk_freeblock s) (mk_world s)).
Definition set_sb (sb : superblock) : MM unit :=
  modify (λ s, Mkst (mk_fsfd s) sb (mk_freeinode s) (mk_freeblock s) (mk_world s)).
Definition set_freeblock (n : Z) : MM unit :=
  modify (λ s, Mkst (mk_fsfd s) (mk_sb s) (mk_freeinode s) n (mk_world s)).

Definition die {A} : MM A := stop_with (Exit 1).
Definition assert_ (b : bool) (msg : string) : MM unit := if b then mret tt else stop_with (Panic msg).

(** [freeinode++] and [freeblock++] *)
Definition next_inode : MM Z := λ s,
  Ret (mk_freeinode s) (Mkst (mk_fsfd s) (mk_sb s) (u32 (mk_freeinode s + 1)) (mk_freeblock s) (mk_world s)).
Definition next_block : MM Z := λ s,
  Ret (mk_freeblock s) (Mkst (mk_fsfd s) (mk_sb s) (mk_freeinode s) (u32 (mk_freeblock s + 1)) (mk_world s)).

Definition wsect (sec : Z) (buf : list Z) : MM unit :=
  fd ← gets mk_fsfd;
  r ← host (lseek fd (u32 (sec * BSIZE)) 0);
  if negb (r =? u32 (sec * BSIZE)) then die else
  n ← host (write fd buf);
  if negb (n =? BSIZE) then die else mret tt.

Definition rsect (sec : Z) : MM (list Z) :=
  fd ← gets mk_fsfd;
  r ← host (lseek fd (u32 (sec * BSIZE)) 0);
  if negb (r =? u32 (sec * BSIZE)) then die else
  x ← host (read fd BSIZE);
  if negb (x.1 =? BSIZE) then die else mret x.2.

Definition winode (inum : Z) (ip : dinode) : MM unit :=
  sb ← gets mk_sb;
  let bn := IBLOCK inum sb in
  buf ← rsect bn;
  wsect bn (bsplice buf (dip_off inum) (enc_dinode ip)).

Definition rinode (inum : Z) : MM dinode :=
  sb ← gets mk_sb;
  buf ← rsect (IBLOCK inum sb);
  mret (dec_dinode (bslice buf (dip_off inum) sizeof_dinode)).

Definition ialloc (type : Z) : MM Z :=
  inum ← next_inode;
  winode inum (Dinode (i16 (xshort type)) 0 0 (i16 (xshort 1)) (xint 0) (replicate 13 0)) ;;
  mret inum.

(** [buf\[i/8\] = buf\[i/8\] | (0x1 << (i%8))] *)
Definition set_bit (buf : list Z) (i : Z) : list Z :=
  zset buf (i / 8) (u8 (Z.lor (zget buf (i / 8)) (Z.shiftl 1 (i mod 8)))).
Definition balloc (used : Z) : MM unit :=
  assert_ (used <? BSIZE * 8) "used < BSIZE*8" ;;
  let buf := foldl set_bit zero_block (seqZ 0 used) in
  sb ← gets mk_sb;
  wsect (sb_bmapstart sb) buf.

(** The address of block [fbn] of the file, allocated when there is none. *)
Definition block_of (din : dinode) (fbn : Z) : MM (dinode * Z) :=
  if fbn <? NDIRECT then
    din ← (if xint (zget (di_addrs din) fbn) =? 0 then
             b ← next_block;
             mret (set_di_addrs (zset (di_addrs din) fbn (xint b)) din)
           else mret din);
    mret (din, xint (zget (di_addrs din) fbn))
  else
    din ← (if xint (zget (di_addrs din) NDIRECT) =? 0 then
             b ← next_block;
             mret (set_di_addrs (zset (di_addrs din) NDIRECT (xint b)) din)
           else mret din);
    indirect ← rsect (xint (zget (di_addrs din) NDIRECT));
    indirect ← (if uint_at indirect (fbn - NDIRECT) =? 0 then
                  b ← next_block;
                  let indirect := wr32 indirect (4 * (fbn - NDIRECT)) (xint b) in
                  wsect (xint (zget (di_addrs din) NDIRECT)) indirect ;;
                  mret indirect
                else mret indirect);
    mret (din, xint (uint_at indirect (fbn - NDIRECT))).

(** The loop of [iappend], on [din], [off] and the bytes left, [n] of them at
    [p]. *)
Definition iappend_body (v : dinode * Z * list Z) : MM (dinode * Z * list Z + dinode * Z) :=
  let '(din, off, p) := v in
  let n := Z.of_nat (length p) in
  if negb (0 <? n) then mret (inr (din, off)) else
  let fbn := off / BSIZE in
  assert_ (fbn <? MAXFILE) "fbn < MAXFILE" ;;
  x ← block_of din fbn;
  let n1 := Z.min n ((fbn + 1) * BSIZE - off) in
  buf ← rsect x.2;
  wsect x.2 (bsplice buf (off - fbn * BSIZE) (take (Z.to_nat n1) p)) ;;
  mret (inl (x.1, u32 (off + n1), drop (Z.to_nat n1) p)).
Definition iappend (inum : Z) (p : list Z) : MM unit :=
  din ← rinode inum;
  v ← loopM (length p / Z.to_nat BSIZE + 3) iappend_body (din, xint (di_size din), p);
  winode inum (set_di_size (xint v.2) v.1).

(** ** main *)

(** [shortname] *)
Definition shortname (arg : list Z) : list Z :=
  if strncmp arg (str "user/") 5 =? 0 then drop 5 arg else arg.
Definition unscore (name : list Z) : list Z := if hd 0 name =? 95 then tl name else name.

(** [while((cc = read(fd, buf, sizeof(buf))) > 0) iappend(inum, buf, cc);] *)
Definition copy_body (fd inum : Z) (_ : unit) : MM (unit + unit) :=
  x ← host (read fd BSIZE);
  if negb (0 <? x.1) then mret (inr tt) else
  iappend inum x.2 ;;
  mret (inl tt).

Definition rootino : Z := ROOTINO.
Definition add_file (fuel : nat) (arg : list Z) : MM unit :=
  let name := shortname arg in
  assert_ (bool_decide (slash ∉ cstr name)) "index(shortname, '/') == 0" ;;
  fd ← host (open arg 0);
  if fd <? 0 then die else
  let name := unscore name in
  inum ← ialloc T_FILE;
  iappend rootino (enc_dirent (Dirent (xshort inum) (strncpy (replicate 14 0) name DIRSIZ))) ;;
  loopM fuel (copy_body fd inum) tt ;;
  host (close fd) ;;
  mret tt.

Definition nmeta : Z := 2 + nlog + ninodeblocks + nbitmap.
Definition nblocks : Z := FSSIZE - nmeta.
Definition sb_of : superblock :=
  Superblock FSMAGIC (xint FSSIZE) (xint nblocks) (xint NINODES) (xint nlog) (xint 2)
    (xint (2 + nlog)) (xint (2 + nlog + ninodeblocks)).

(** The entries of the root for itself. *)
Definition dot (name : list Z) : list Z := enc_dirent (Dirent (xshort rootino) (name ++ replicate (14 - length name) 0)).

(** The root's size is rounded up. *)
Definition fix_root : MM unit :=
  din ← rinode rootino;
  let off := xint (di_size din) in
  let off := u32 ((off / BSIZE + 1) * BSIZE) in
  winode rootino (set_di_size (xint off) din).

(** [argv] without the name of the program. *)
Definition main (fuel : nat) (argv : list (list Z)) : MM unit :=
  match argv with
  | [] => stop_with (Exit 1)
  | img :: files =>
      fd ← host (open img O_RDWR_CREAT_TRUNC);
      set_fsfd fd ;;
      if fd <? 0 then die else
      set_sb sb_of ;;
      set_freeblock nmeta ;;
      eachM (seqZ 0 FSSIZE) (λ i, wsect i zero_block) ;;
      wsect 1 (bsplice zero_block 0 (enc_superblock sb_of)) ;;
      root ← ialloc T_DIR;
      assert_ (root =? ROOTINO) "rootino == ROOTINO" ;;
      iappend root (dot (str ".")) ;;
      iappend root (dot (str "..")) ;;
      eachM files (add_file fuel) ;;
      fix_root ;;
      b ← gets mk_freeblock;
      balloc b ;;
      stop_with (Exit 0)
  end.
End mkfs.
