(* ===== verification/MkfsCorrect.v ===== *)
(** * The image is a file system (mkfs/mkfs.c)

    The files and the root directory that mkfs writes are read from the image
    by the definitions that the theorems about the kernel use: [slot],
    [fcontent] and [fbytes] of an inode's addresses, over the blocks of the
    image. *)

From stdpp Require Import functions.
From S2P Require Import Prelude Riscv KState KString Layout Bio Fs FsBlocks FsInode FsFile FsPath FsDir User Mkfs.
Open Scope Z_scope.

Lemma nmeta_eq : nmeta = 46.
Proof. done. Qed.

(** ** The inodes and blocks of an image *)

Abbreviation image := (gmap Z (list Z)).

(** The address in slot [j] of inode [i], when [A] are the inodes. *)
Definition islot (I : image) (A : Z → dinode) (i j : Z) : Z := slot (dblock I) (di_addrs (A i)) j.
Definition icontent (I : image) (A : Z → dinode) (i bn : Z) : list Z := fcontent (dblock I) (di_addrs (A i)) bn.

(** The blocks: every slot in use has a block of its own below [fb], and the
    blocks from [fb] on are zero. *)
Record blocks_ok (I : image) (fi fb : Z) (A : Z → dinode) : Prop := {
  bk_full x : 0 ≤ x < FSSIZE → ∃ b, I !! x = Some b ∧ length b = Z.to_nat BSIZE;
  bk_fb : nmeta ≤ fb ≤ FSSIZE;
  bk_zero x : fb ≤ x < FSSIZE → dblock I x = zero_block;
  bk_range i j : 1 ≤ i < fi → 0 ≤ j ≤ MAXFILE → islot I A i j ≠ 0 → nmeta ≤ islot I A i j < fb;
  bk_inj i j i' j' : 1 ≤ i < fi → 0 ≤ j ≤ MAXFILE → 1 ≤ i' < fi → 0 ≤ j' ≤ MAXFILE →
    islot I A i j ≠ 0 → islot I A i j = islot I A i' j' → i = i' ∧ j = j';
  bk_din i : 1 ≤ i < fi → dinode_ok (A i)
}.

Lemma full_len I fi fb A x : blocks_ok I fi fb A → 0 ≤ x < FSSIZE → length (dblock I x) = Z.to_nat BSIZE.
Proof. intros Hb Hx. destruct (bk_full _ _ _ _ Hb x Hx) as (b & E & Hl). unfold dblock. by rw E. Qed.

Lemma dblock_insert (I : image) a d x : dblock (<[a := d]> I) x = if decide (x = a) then d else dblock I x.
Proof. unfold dblock. case_decide as E; [by rw E lookup_insert_eq|by rw lookup_insert_ne]. Qed.

Lemma islot_direct I A i j : j ≤ NDIRECT → islot I A i j = zget (di_addrs (A i)) j.
Proof. apply slot_direct. Qed.

(** ** Allocating a block

    [I'], [A'] are the image and the inodes once slot [j] of inode [i] has
    the block [fb]. *)
Record grown (I I' : image) (fi fb : Z) (A A' : Z → dinode) (i j : Z) : Prop := {
  gn_ok : blocks_ok I' fi (fb + 1) A';
  gn_slot i' j' : 1 ≤ i' < fi → 0 ≤ j' ≤ MAXFILE →
    islot I' A' i' j' = if decide (i' = i ∧ j' = j) then fb else islot I A i' j';
  gn_content i' bn : 1 ≤ i' < fi → 0 ≤ bn < MAXFILE → icontent I' A' i' bn = icontent I A i' bn;
  gn_image x : x < nmeta → I' !! x = I !! x;
  gn_inode : A' i = set_di_addrs (di_addrs (A' i)) (A i);
  gn_others i' : i' ≠ i → A' i' = A i'
}.

Section grown.
Context (I I' : image) (fi fb : Z) (A A' : Z → dinode) (i j : Z).
Context (Hb : blocks_ok I fi fb A) (Hi : 1 ≤ i < fi) (Hj : 0 ≤ j ≤ MAXFILE) (Hfb : fb < FSSIZE).
Context (Hold : islot I A i j = 0).

Lemma new_slot i' j' : 1 ≤ i' < fi → 0 ≤ j' ≤ MAXFILE → islot I A i' j' ≠ fb.
Proof.
  intros Hi' Hj' E. pose proof (bk_fb _ _ _ _ Hb) as [Hn _]. rw nmeta_eq in Hn.
  pose proof (bk_range _ _ _ _ Hb i' j' Hi' Hj' ltac:(rw E; lia)). lia.
Qed.

(** What is left to show of a change of the slots: the other blocks stay. *)
Lemma grown_of :
  (∀ i' j', 1 ≤ i' < fi → 0 ≤ j' ≤ MAXFILE →
    islot I' A' i' j' = if decide (i' = i ∧ j' = j) then fb else islot I A i' j') →
  (∀ x, 0 ≤ x < FSSIZE → ∃ b, I' !! x = Some b ∧ length b = Z.to_nat BSIZE) →
  (∀ x, dblock I' x ≠ dblock I x → x ≠ 0 ∧ islot I A i NDIRECT = x) →
  (∀ x, x < nmeta → I' !! x = I !! x) →
  A' i = set_di_addrs (di_addrs (A' i)) (A i) → (∀ i', i' ≠ i → A' i' = A i') → dinode_ok (A' i) →
  grown I I' fi fb A A' i j.
Proof.
  intros HS Hfull Hv Hlow HAi HA Hdin. pose proof (bk_fb _ _ _ _ Hb) as [Hn _]. pose proof nmeta_eq as Hnm.
  assert (0 ≤ NDIRECT ≤ MAXFILE) as HN by (rw MAXFILE_eq NDIRECT_eq; lia).
  assert (∀ x, dblock I' x ≠ dblock I x → nmeta ≤ x < fb) as Hv'.
  { intros x Hx. destruct (Hv x Hx) as [H0 E]. rw -E. apply (bk_range _ _ _ _ Hb); [done|done|by rw E]. }
  split; [split| | | | |]; try done.
  - lia.
  - intros x Hx. destruct (decide (dblock I' x = dblock I x)) as [->|Hne]; [apply (bk_zero _ _ _ _ Hb); lia|].
    specialize (Hv' x Hne). lia.
  - intros i' j' Hi' Hj'. rw HS //. case_decide; [lia|]. intros H0.
    pose proof (bk_range _ _ _ _ Hb i' j' Hi' Hj' H0). lia.
  - intros i1 j1 i2 j2 Hi1 Hj1 Hi2 Hj2. rw !HS //. repeat case_decide.
    + naive_solver.
    + intros _ E. by destruct (new_slot i2 j2 Hi2 Hj2).
    + intros _ E. by destruct (new_slot i1 j1 Hi1 Hj1).
    + by apply (bk_inj _ _ _ _ Hb).
  - intros i' Hi'. destruct (decide (i' = i)) as [->|Hne]; [done|]. rw HA //.
    by apply (bk_din _ _ _ _ Hb).
  - intros i' bn Hi' Hbn. destruct (bslot_range bn Hbn) as [Hr Hne]. unfold icontent, fcontent.
    fold (islot I' A' i' (bslot bn)). fold (islot I A i' (bslot bn)). rw HS //. case_decide as E.
    + destruct E as [-> E]. rw E Hold. cbn [Z.eqb]. rewrite -> (proj2 (Z.eqb_neq fb 0)) by lia.
      destruct (decide (dblock I' fb = dblock I fb)) as [->|Hn']; [by apply (bk_zero _ _ _ _ Hb)|].
      specialize (Hv' fb Hn'). lia.
    + destruct (Z.eqb_spec (islot I A i' (bslot bn)) 0) as [|H0]; [done|].
      destruct (decide (dblock I' (islot I A i' (bslot bn)) = dblock I (islot I A i' (bslot bn)))) as [->|Hn']; [done|].
      destruct (Hv _ Hn') as [_ E']. destruct (bk_inj _ _ _ _ Hb i NDIRECT i' (bslot bn)) as [_ ?]; try done.
      { by rw E'. }
Qed.
End grown.

Lemma set_addrs_ok di l : dinode_ok di → Forall uint_ok l → length l = 13%nat → dinode_ok (set_di_addrs l di).
Proof. intros (H1 & H2 & H3 & H4 & H5 & _ & _) Hl Hn. by split_and!. Qed.
Lemma set_di_addrs_id di : set_di_addrs (di_addrs di) di = di.
Proof. by destruct di. Qed.

Section grow.
Context (I : image) (fi fb : Z) (A : Z → dinode) (i j : Z).
Context (Hb : blocks_ok I fi fb A) (Hi : 1 ≤ i < fi) (Hfb : fb < FSSIZE).
Context (Hold : islot I A i j = 0).
#[local] Abbreviation addrs := (di_addrs (A i)).

Lemma addrs_ok : Forall uint_ok addrs ∧ length addrs = 13%nat.
Proof. destruct (bk_din _ _ _ _ Hb i Hi) as (_ & _ & _ & _ & _ & H1 & H2). done. Qed.

Lemma grow_direct :
  0 ≤ j ≤ NDIRECT → grown I I fi fb A (<[i := set_di_addrs (zset addrs j fb) (A i)]> A) i j.
Proof.
  intros Hj. destruct addrs_ok as [Hu Hl]. pose proof (bk_fb _ _ _ _ Hb) as Hr. pose proof nmeta_eq as Hnm.
  assert (0 ≤ j ≤ MAXFILE) as Hj' by (rw MAXFILE_eq; rw NDIRECT_eq in Hj; lia).
  apply grown_of; try done; rw ?fn_lookup_insert //.
  - intros i' j' Hi' Hj''. unfold islot. destruct (decide (i' = i)) as [->|Hne].
    2: { rw fn_lookup_insert_ne // decide_False //. by intros []. }
    rw fn_lookup_insert. cbn [di_addrs set_di_addrs]. destruct (decide (j' ≤ NDIRECT)) as [Hle|Hgt].
    + rw !slot_direct // zget_zset13 //; [|lia]. case_decide as E; [by rw E decide_True|].
      rw decide_False //. by intros [].
    + rewrite -> (decide_False (P := i = i ∧ j' = j)) by lia. unfold slot.
      rewrite -> (proj2 (Z.leb_gt _ _)) by lia. rw zget_zset13; [|done|done|rw NDIRECT_eq; lia]. case_decide as E; [|done].
      pose proof Hold as Ho. rw islot_direct in Ho; [|lia]. rw E Ho. cbn [Z.eqb].
      rewrite -> (proj2 (Z.eqb_neq fb 0)) by lia. rw (bk_zero _ _ _ _ Hb); [|lia]. apply uint_at_zero.
      rw MAXFILE_eq in Hj''. rw NDIRECT_eq in Hgt E. unfold NINDIRECT, BSIZE. change (1024 / 4) with 256. lia.
  - apply (bk_full _ _ _ _ Hb).
  - intros i' Hne. by rw fn_lookup_insert_ne.
  - apply set_addrs_ok; [by apply (bk_din _ _ _ _ Hb)| |by rw length_zset].
    apply Forall_insert; [done|]. unfold uint_ok, FSSIZE in *. lia.
Qed.

Lemma grow_entry :
  NDIRECT < j ≤ MAXFILE → zget addrs NDIRECT ≠ 0 →
  let ind := zget addrs NDIRECT in
  grown I (<[ind := wr32 (dblock I ind) (4 * (j - NDIRECT - 1)) fb]> I) fi fb A A i j.
Proof.
  intros Hj Hn ind. pose proof (bk_fb _ _ _ _ Hb) as Hr. pose proof nmeta_eq as Hnm.
  assert (0 ≤ NDIRECT ≤ MAXFILE) as HN by (rw MAXFILE_eq NDIRECT_eq; lia).
  assert (islot I A i NDIRECT = ind) as Eind by (by rw islot_direct; [|lia]).
  pose proof (bk_range _ _ _ _ Hb i NDIRECT Hi HN ltac:(by rw Eind)) as Hir. rw Eind in Hir.
  pose proof (full_len _ _ _ _ ind Hb ltac:(lia)) as Hlen.
  assert (0 ≤ 4 * (j - NDIRECT - 1) ∧ 4 * (j - NDIRECT - 1) + 4 ≤ BSIZE) as Hoff.
  { rw MAXFILE_eq NDIRECT_eq in Hj *. unfold BSIZE. lia. }
  apply grown_of; try done; try lia.
  - intros i' j' Hi' Hj'. unfold islot. destruct (decide (j' ≤ NDIRECT)) as [Hle|Hgt].
    { rewrite -> (decide_False (P := i' = i ∧ j' = j)) by lia. by rw !slot_direct. }
    destruct (Z.eq_dec (zget (di_addrs (A i')) NDIRECT) 0) as [E0|E0].
    { rewrite -> (decide_False (P := i' = i ∧ j' = j)) by (intros [-> _]; done).
      apply slot_ext. by intros []. }
    rewrite -> !slot_indirect by (try done; lia). rw dblock_insert. case_decide as E.
    + destruct (bk_inj _ _ _ _ Hb i NDIRECT i' NDIRECT Hi HN Hi' HN ltac:(by rw Eind)) as [<- _].
      { by rw Eind -E islot_direct. }
      fold ind. unfold uint_at. destruct (decide (j' = j)) as [->|Hne].
      * rw decide_True //. apply rd32_wr32; unfold FSSIZE in *; lia.
      * rw decide_False; [|lia]. rw rd32_wr32_ne //; lia.
    + rw decide_False //. by intros [-> _].
  - intros x Hx. destruct (decide (x = ind)) as [->|Hne].
    + eexists. rw lookup_insert_eq. split; [done|]. rw length_wr32; lia.
    + rw lookup_insert_ne //. by apply (bk_full _ _ _ _ Hb).
  - intros x. rw dblock_insert. case_decide as E; [|done]. intros _. by subst x.
  - intros x Hx. rw lookup_insert_ne //. lia.
  - by rw set_di_addrs_id.
  - by apply (bk_din _ _ _ _ Hb).
Qed.
End grow.

(** The slots [J] of inode [i] have blocks in [I'], [A'], old or new. *)
Record extended (I I' : image) (fi fb' : Z) (A A' : Z → dinode) (i : Z) (J : list Z) : Prop := {
  ex_ok : blocks_ok I' fi fb' A';
  ex_slot i' j' : 1 ≤ i' < fi → 0 ≤ j' ≤ MAXFILE → islot I' A' i' j' = islot I A i' j' ∨
    i' = i ∧ j' ∈ J ∧ islot I A i j' = 0;
  ex_J j : j ∈ J → islot I' A' i j ≠ 0;
  ex_content i' bn : 1 ≤ i' < fi → 0 ≤ bn < MAXFILE → icontent I' A' i' bn = icontent I A i' bn;
  ex_image x : x < nmeta → I' !! x = I !! x;
  ex_inode : A' i = set_di_addrs (di_addrs (A' i)) (A i);
  ex_others i' : i' ≠ i → A' i' = A i'
}.

Lemma extended_old I fi fb A i j : blocks_ok I fi fb A → islot I A i j ≠ 0 → extended I I fi fb A A i [j].
Proof.
  intros Hb Hj. split; try done; [by left| |by rw set_di_addrs_id]. by intros j' ->%list_elem_of_singleton.
Qed.
Lemma extended_new I I' fi fb A A' i j :
  blocks_ok I fi fb A → 1 ≤ i < fi → 0 ≤ j ≤ MAXFILE → islot I A i j = 0 → grown I I' fi fb A A' i j →
  extended I I' fi (fb + 1) A A' i [j].
Proof.
  intros Hb Hi Hj H0 [G1 G2 G3 G4 G5 G6]. pose proof (bk_fb _ _ _ _ Hb) as Hr. rw nmeta_eq in Hr. split; try done.
  - intros i' j' Hi' Hj'. rw G2 //. case_decide as E; [|by left]. destruct E as [-> ->]. right. split_and!; [done|by left|done].
  - intros j' ->%list_elem_of_singleton. rw G2 // decide_True //. lia.
Qed.
Lemma extended_trans I1 I2 I3 fi fb2 fb3 A1 A2 A3 i J1 J2 :
  1 ≤ i < fi → (∀ j, j ∈ J1 ++ J2 → 0 ≤ j ≤ MAXFILE) →
  extended I1 I2 fi fb2 A1 A2 i J1 → extended I2 I3 fi fb3 A2 A3 i J2 → extended I1 I3 fi fb3 A1 A3 i (J1 ++ J2).
Proof.
  intros Hi HJ [a1 a2 a3 a4 a5 a6 a7] [b1 b2 b3 b4 b5 b6 b7]. split; try done.
  - intros i' j' Hi' Hj'. destruct (b2 i' j' Hi' Hj') as [->|(-> & Hin & E0)].
    + destruct (a2 i' j' Hi' Hj') as [->|(-> & Hin & E0)]; [by left|right]. set_solver.
    + right. split; [done|]. split; [set_solver|]. destruct (a2 i j' Hi' Hj') as [<-|(_ & _ & ?)]; done.
  - intros j Hj. destruct (b2 i j Hi (HJ j Hj)) as [E|(_ & Hin & _)]; [|by apply b3].
    apply elem_of_app in Hj as [Hj|Hj]; [rw E; by apply a3|by apply b3].
  - intros i' bn Hi' Hbn. by rw b4 // a4.
  - intros x Hx. by rw b5 // a5.
  - rw b6 a6. by destruct (A1 i).
  - intros i' Hne. by rw b7 // a7.
Qed.

(** ** Writing a block of a file *)

Section put.
Context (I : image) (fi fb : Z) (A : Z → dinode) (i bn : Z) (d : list Z).
Context (Hb : blocks_ok I fi fb A) (Hi : 1 ≤ i < fi) (Hbn : 0 ≤ bn < MAXFILE).
Context (Hd : length d = Z.to_nat BSIZE).
#[local] Abbreviation a := (islot I A i (bslot bn)).
Context (Ha : a ≠ 0).
#[local] Abbreviation I' := (<[a := d]> I).

Lemma put_range : nmeta ≤ a < fb.
Proof. apply (bk_range _ _ _ _ Hb); [done|by apply bslot_range|done]. Qed.

Lemma put_islot i' j' : 1 ≤ i' < fi → 0 ≤ j' ≤ MAXFILE → islot I' A i' j' = islot I A i' j'.
Proof.
  intros Hi' Hj'. unfold islot. apply slot_ext. intros Hn. rw dblock_insert decide_False //. intros E.
  destruct (bslot_range bn Hbn) as [Hr Hne]. assert (0 ≤ NDIRECT ≤ MAXFILE) as HN by (rw MAXFILE_eq NDIRECT_eq; lia).
  destruct (bk_inj _ _ _ _ Hb i (bslot bn) i' NDIRECT Hi Hr Hi' HN Ha) as [_ ?]; [|done].
  rewrite -> (islot_direct I A i' NDIRECT) by done. by symmetry.
Qed.

Lemma put_blocks : blocks_ok I' fi fb A.
Proof.
  pose proof put_range as Hr. destruct (bk_fb _ _ _ _ Hb). split.
  - intros x Hx. destruct (decide (x = a)) as [->|Hne]; [by rw lookup_insert_eq; eexists|].
    rw lookup_insert_ne //. by apply (bk_full _ _ _ _ Hb).
  - done.
  - intros x Hx. rw dblock_insert decide_False; [by apply (bk_zero _ _ _ _ Hb)|lia].
  - intros i' j' Hi' Hj'. rw put_islot //. by apply (bk_range _ _ _ _ Hb).
  - intros i1 j1 i2 j2 H1 H2 H3 H4. rw !put_islot //. by apply (bk_inj _ _ _ _ Hb).
  - apply (bk_din _ _ _ _ Hb).
Qed.

Lemma put_icontent i' bn' : 1 ≤ i' < fi → 0 ≤ bn' < MAXFILE →
  icontent I' A i' bn' = if decide (i' = i ∧ bn' = bn) then d else icontent I A i' bn'.
Proof.
  intros Hi' Hbn'. destruct (bslot_range bn' Hbn') as [Hr' _]. destruct (bslot_range bn Hbn) as [Hr _].
  unfold icontent, fcontent. fold (islot I' A i' (bslot bn')) (islot I A i' (bslot bn')). rw put_islot //.
  case_decide as E.
  - destruct E as [-> ->]. rewrite -> (proj2 (Z.eqb_neq _ _) Ha). by rw dblock_insert decide_True.
  - destruct (Z.eqb_spec (islot I A i' (bslot bn')) 0) as [|H0]; [done|]. rw dblock_insert decide_False //.
    intros Ea. apply E. destruct (bk_inj _ _ _ _ Hb i' (bslot bn') i (bslot bn)) as [-> Es]; try done.
    split; [done|]. by apply bslot_inj.
Qed.

Lemma put_low x : x < nmeta → I' !! x = I !! x.
Proof. intros Hx. rw lookup_insert_ne //. pose proof put_range. lia. Qed.
End put.

(** ** The host

    The image is the file [fsfd], in sectors; [file] are the contents of the
    files that can be opened, and a [read] gives some of what is left of one,
    as [inp] says. *)
Class Host {W} `{!Posix W} (fsfd : Z) (pos : W → Z) (img : W → image) (file : list Z → option (list Z))
    (inp : Z → W → list Z) : Prop := {
  h_fsfd : 0 ≤ fsfd;
  open_image path w : ∃ w', open path O_RDWR_CREAT_TRUNC w = Ret fsfd w' ∧ img w' = ∅;
  lseek_image off w : 0 ≤ off → ∃ w', lseek fsfd off 0 w = Ret off w' ∧ pos w' = off ∧ img w' = img w ∧
    ∀ fd, fd ≠ fsfd → inp fd w' = inp fd w;
  write_image sec bs w : pos w = sec * BSIZE → length bs = Z.to_nat BSIZE →
    ∃ w', write fsfd bs w = Ret BSIZE w' ∧ img w' = <[sec := bs]> (img w) ∧ ∀ fd, fd ≠ fsfd → inp fd w' = inp fd w;
  read_image sec bs w : pos w = sec * BSIZE → img w !! sec = Some bs → length bs = Z.to_nat BSIZE →
    ∃ w', read fsfd BSIZE w = Ret (BSIZE, bs) w' ∧ img w' = img w ∧ ∀ fd, fd ≠ fsfd → inp fd w' = inp fd w;
  open_file path bs w : file path = Some bs → ∃ fd w', open path 0 w = Ret fd w' ∧ 0 ≤ fd ∧ fd ≠ fsfd ∧
    inp fd w' = bs ∧ img w' = img w;
  read_file fd w : fd ≠ fsfd → ∃ d w', read fd BSIZE w = Ret (Z.of_nat (length d), d) w' ∧
    inp fd w = d ++ inp fd w' ∧ Z.of_nat (length d) ≤ BSIZE ∧ (d = [] → inp fd w = []) ∧ img w' = img w;
  close_file fd w : ∃ r w', close fd w = Ret r w' ∧ img w' = img w
}.

Section host.
Context {W} `{!Posix W} {fsfd : Z} {pos : W → Z} {img : W → image} {file : list Z → option (list Z)} {inp : Z → W → list Z}.
Context `{!Host fsfd pos img file inp}.

Definition st (w : W) (fi fb : Z) : mkst W := Mkst fsfd sb_of fi fb w.
(** The image of [w'] is [I], and the files are read as far as in [w]. *)
Definition with_image (w w' : W) (I : image) : Prop := img w' = I ∧ ∀ fd, fd ≠ fsfd → inp fd w' = inp fd w.

Lemma host_st {A} (m : M W A) w fi fb a w' : m w = Ret a w' → host m (st w fi fb) = Ret a (st w' fi fb).
Proof. intros E. unfold host, zoom. cbn. by rw E. Qed.

Lemma wsect_ok w fi fb sec bs :
  0 ≤ sec < FSSIZE → length bs = Z.to_nat BSIZE →
  ∃ w', wsect sec bs (st w fi fb) = Ret tt (st w' fi fb) ∧ with_image w w' (<[sec := bs]> (img w)).
Proof.
  intros Hs Hl. unfold wsect. msimp. change (mk_fsfd (st w fi fb)) with fsfd.
  rewrite -> (u32_small (sec * BSIZE)) by (unfold BSIZE, FSSIZE in *; lia).
  destruct (lseek_image (sec * BSIZE) w) as (w1 & E1 & P1 & I1 & F1); [unfold BSIZE; lia|].
  rewrite -> (bind_Ret _ _ _ _ _ (host_st _ _ fi fb _ _ E1)). rw Z.eqb_refl. cbn [negb].
  destruct (write_image sec bs w1 P1 Hl) as (w2 & E2 & I2 & F2).
  rewrite -> (bind_Ret _ _ _ _ _ (host_st _ _ fi fb _ _ E2)). rw Z.eqb_refl. exists w2. split; [done|].
  split; [by rw I2 I1|]. intros fd Hfd. by rw F2 // F1.
Qed.

Lemma rsect_ok w fi fb sec bs :
  0 ≤ sec < FSSIZE → img w !! sec = Some bs → length bs = Z.to_nat BSIZE →
  ∃ w', rsect sec (st w fi fb) = Ret bs (st w' fi fb) ∧ with_image w w' (img w).
Proof.
  intros Hs Hb Hl. unfold rsect. msimp. change (mk_fsfd (st w fi fb)) with fsfd.
  rewrite -> (u32_small (sec * BSIZE)) by (unfold BSIZE, FSSIZE in *; lia).
  destruct (lseek_image (sec * BSIZE) w) as (w1 & E1 & P1 & I1 & F1); [unfold BSIZE; lia|].
  rewrite -> (bind_Ret _ _ _ _ _ (host_st _ _ fi fb _ _ E1)). rw Z.eqb_refl. cbn [negb].
  rw -I1 in Hb. destruct (read_image sec bs w1 P1 Hb Hl) as (w2 & E2 & I2 & F2).
  rewrite -> (bind_Ret _ _ _ _ _ (host_st _ _ fi fb _ _ E2)). cbn [fst snd]. rw Z.eqb_refl. exists w2. split; [done|].
  split; [by rw I2 I1|]. intros fd Hfd. by rw F2 // F1.
Qed.

Lemma xint_id x : 0 ≤ x < 2 ^ 32 → xint x = x.
Proof.
  intros Hx. unfold xint, u8. rw !Z.shiftr_div_pow2; [|lia..]. cbn [le_dec].
  change (2 ^ 8) with 256. change (2 ^ 16) with 65536. change (2 ^ 24) with 16777216. zlia.
Qed.

Lemma next_block_ok w fi fb : 0 ≤ fb < FSSIZE → next_block (st w fi fb) = Ret fb (st w fi (fb + 1)).
Proof. intros H. unfold next_block, st. cbn. rewrite -> u32_small by (unfold FSSIZE in *; lia). done. Qed.

Lemma islot_uint I fi fb A i j : blocks_ok I fi fb A → 1 ≤ i < fi → 0 ≤ j ≤ MAXFILE → 0 ≤ islot I A i j < 2 ^ 32.
Proof.
  intros Hb Hi Hj. destruct (Z.eq_dec (islot I A i j) 0) as [->|H0]; [lia|].
  pose proof (bk_range _ _ _ _ Hb i j Hi Hj H0). pose proof (bk_fb _ _ _ _ Hb). rw nmeta_eq in H. unfold FSSIZE in *. lia.
Qed.

(** The block that a slot needs. *)
Definition need (I : image) (A : Z → dinode) (i j : Z) : Z := if islot I A i j =? 0 then 1 else 0.

Section block_of.
Context (w : W) (fi fb : Z) (A : Z → dinode) (i : Z) (din : dinode).
Context (Hb : blocks_ok (img w) fi fb A) (Hi : 1 ≤ i < fi) (Hdin : di_addrs din = di_addrs (A i)).
#[local] Abbreviation I := (img w).

Lemma direct_ok j :
  0 ≤ j ≤ NDIRECT → fb + need I A i j ≤ FSSIZE →
  ∃ A', extended I I fi (fb + need I A i j) A A' i [j] ∧
    (if xint (zget (di_addrs din) j) =? 0 then
       b ← next_block;
       mret (set_di_addrs (zset (di_addrs din) j (xint b)) din)
     else mret din) (st w fi fb) = Ret (set_di_addrs (di_addrs (A' i)) din) (st w fi (fb + need I A i j)).
Proof.
  intros Hj Hn. assert (0 ≤ j ≤ MAXFILE) as Hj' by (rw MAXFILE_eq; rw NDIRECT_eq in Hj; lia).
  pose proof (islot_uint _ _ _ _ i j Hb Hi Hj') as Hu. pose proof (bk_fb _ _ _ _ Hb) as Hr. rw nmeta_eq in Hr.
  rw Hdin. rw -(islot_direct I A i j); [|lia]. rw xint_id //. unfold need in *.
  destruct (Z.eqb_spec (islot I A i j) 0) as [E|E].
  - exists (<[i := set_di_addrs (zset (di_addrs (A i)) j fb) (A i)]> A). split.
    + apply extended_new; try done. by apply grow_direct; try done; lia.
    + rewrite -> (bind_Ret _ _ _ _ _ (next_block_ok w fi fb ltac:(lia))). rw xint_id; [|unfold FSSIZE in *; lia].
      by rw fn_lookup_insert.
  - exists A. rw Z.add_0_r. split; [by apply extended_old|]. by rw -Hdin set_di_addrs_id.
Qed.

Lemma entry_ok j :
  NDIRECT < j ≤ MAXFILE → islot I A i NDIRECT ≠ 0 → fb + need I A i j ≤ FSSIZE →
  ∃ w', with_image w w' (img w') ∧ extended I (img w') fi (fb + need I A i j) A A i [j] ∧
    (indirect ← rsect (xint (zget (di_addrs din) NDIRECT));
     indirect ← (if uint_at indirect (j - NDIRECT - 1) =? 0 then
                   b ← next_block;
                   let indirect := wr32 indirect (4 * (j - NDIRECT - 1)) (xint b) in
                   wsect (xint (zget (di_addrs din) NDIRECT)) indirect ;;
                   mret indirect
                 else mret indirect);
     mret (din, xint (uint_at indirect (j - NDIRECT - 1)))) (st w fi fb) =
    Ret (din, islot (img w') A i j) (st w' fi (fb + need I A i j)).
Proof.
  intros Hj H0 Hn. assert (0 ≤ NDIRECT ≤ MAXFILE) as HN by (rw MAXFILE_eq NDIRECT_eq; lia).
  pose proof (bk_fb _ _ _ _ Hb) as Hr. rw nmeta_eq in Hr. pose proof (bk_range _ _ _ _ Hb i NDIRECT Hi HN H0) as Hir.
  rw nmeta_eq in Hir. pose proof (islot_uint _ _ _ _ i j Hb Hi ltac:(rw NDIRECT_eq in Hj; lia)) as Hu.
  assert (zget (di_addrs (A i)) NDIRECT = islot I A i NDIRECT) as Eind by by rw islot_direct.
  set (ind := islot I A i NDIRECT) in *. rw Hdin Eind. rw (xint_id ind); [|unfold FSSIZE in *; lia].
  destruct (bk_full _ _ _ _ Hb ind ltac:(lia)) as (b & Eb & Hl).
  destruct (rsect_ok w fi fb ind b ltac:(lia) Eb Hl) as (w1 & E1 & I1 & F1). mstep E1.
  assert (dblock I ind = b) as Edb by by unfold dblock; rw Eb.
  assert (islot I A i j = uint_at b (j - NDIRECT - 1)) as Es.
  { unfold islot. rw slot_indirect; [|lia|by rw Eind]. by rw Eind Edb. }
  rw -Es. unfold need in *. destruct (Z.eqb_spec (islot I A i j) 0) as [E|E].
  2: { exists w1. rw I1 Z.add_0_r. split; [done|]. split; [by apply extended_old|]. msimp. by rw -Es xint_id. }
  assert (0 ≤ 4 * (j - NDIRECT - 1) ∧ 4 * (j - NDIRECT - 1) + 4 ≤ BSIZE) as Hoff.
  { rw MAXFILE_eq NDIRECT_eq in Hj *. unfold BSIZE. lia. }
  rewrite -> (bind_assoc _ _ _ _ _ _ (next_block_ok w1 fi fb ltac:(lia))). rw (xint_id fb); [|unfold FSSIZE in *; lia].
  destruct (wsect_ok w1 fi (fb + 1) ind (wr32 b (4 * (j - NDIRECT - 1)) fb) ltac:(lia)) as (w2 & E2 & I2 & F2).
  { rw length_wr32; lia. }
  rewrite -> (bind_assoc _ _ _ _ _ _ E2). msimp. exists w2.
  pose proof (grow_entry I fi fb A i j Hb Hi ltac:(lia) E Hj ltac:(by rw Eind)) as Hg. cbv zeta in Hg. rw Eind Edb in Hg.
  rw I1 in I2. rw -I2 in Hg. split; [|split].
  - split; [done|]. intros fd Hfd. by rw F2 // F1.
  - apply extended_new; try done. rw NDIRECT_eq in Hj. lia.
  - do 2 f_equal. rw (gn_slot _ _ _ _ _ _ _ _ Hg) // ?decide_True //; [|rw NDIRECT_eq in Hj; lia].
    unfold uint_at. rw rd32_wr32; try (unfold FSSIZE in *; lia). apply xint_id. unfold FSSIZE in *; lia.
Qed.
End block_of.

(** The slots that block [fbn] of a file needs. *)
Definition needs (fbn : Z) : list Z := if fbn <? NDIRECT then [fbn] else [NDIRECT; bslot fbn].
Definition needed (I : image) (A : Z → dinode) (i fbn : Z) : Z :=
  need I A i (bslot fbn) + (if fbn <? NDIRECT then 0 else need I A i NDIRECT).

Lemma block_of_ok w fi fb A i din fbn :
  blocks_ok (img w) fi fb A → 1 ≤ i < fi → di_addrs din = di_addrs (A i) → 0 ≤ fbn < MAXFILE →
  fb + needed (img w) A i fbn ≤ FSSIZE →
  ∃ w' A', with_image w w' (img w') ∧
    extended (img w) (img w') fi (fb + needed (img w) A i fbn) A A' i (needs fbn) ∧
    block_of din fbn (st w fi fb) = Ret (set_di_addrs (di_addrs (A' i)) din, islot (img w') A' i (bslot fbn))
      (st w' fi (fb + needed (img w) A i fbn)).
Proof.
  intros Hb Hi Hdin Hf Hn. assert (0 ≤ NDIRECT ≤ MAXFILE) as HN by (rw MAXFILE_eq NDIRECT_eq; lia).
  destruct (bslot_range fbn Hf) as [Hr _].
  unfold block_of, needed, needs in *. unfold bslot in *. destruct (Z.ltb_spec fbn NDIRECT) as [Hlt|Hge].
  - rw Z.add_0_r in Hn |- *. destruct (direct_ok w fi fb A i din Hb Hi Hdin fbn ltac:(lia) Hn) as (A' & Hx & E).
    exists w, A'. split; [done|]. split; [done|]. mstep E. msimp. do 3 f_equal. cbn [di_addrs set_di_addrs].
    rw -(islot_direct (img w) A' i fbn); [|lia]. apply xint_id. by eapply islot_uint; [apply Hx|..].
  - assert (∀ j, 0 ≤ need (img w) A i j) as Hpos by (intros j; unfold need; by case_match).
    pose proof (Hpos (fbn + 1)) as Hp1.
    destruct (direct_ok w fi fb A i din Hb Hi Hdin NDIRECT ltac:(lia) ltac:(lia)) as (A1 & Hx1 & E1). mstep E1.
    set (n1 := need (img w) A i NDIRECT) in *.
    assert (need (img w) A1 i (fbn + 1) = need (img w) A i (fbn + 1)) as En.
    { unfold need. destruct (ex_slot _ _ _ _ _ _ _ _ Hx1 i (fbn + 1) Hi Hr) as [->|(_ & Hin%list_elem_of_singleton & _)]; [done|lia]. }
    destruct (entry_ok w fi (fb + n1) A1 i (set_di_addrs (di_addrs (A1 i)) din) (ex_ok _ _ _ _ _ _ _ _ Hx1) Hi eq_refl (fbn + 1))
      as (w' & Hw & Hx2 & E2); [lia|apply (ex_J _ _ _ _ _ _ _ _ Hx1); by left|lia|].
    rw En in Hx2 E2. exists w', A1. split; [done|].
    replace (fb + (need (img w) A i (fbn + 1) + n1)) with (fb + n1 + need (img w) A i (fbn + 1)) by lia.
    split; [|replace (fbn + 1 - NDIRECT - 1) with (fbn - NDIRECT) in E2 by lia; exact E2].
    apply (extended_trans _ _ _ _ _ _ _ _ _ _ [NDIRECT] [fbn + 1] Hi) with (2 := Hx1) (3 := Hx2).
    set_solver by lia.
Qed.

(** ** Appending to a file *)

Definition ibyte (I : image) (A : Z → dinode) (i x : Z) : Z := fbyte (dblock I) (di_addrs (A i)) x.

(** A file has the blocks of its size and no others, and zeros after its end. *)
Record sized (I : image) (A : Z → dinode) (i : Z) : Prop := {
  sz_range : 0 ≤ di_size (A i) ≤ MAXBYTES;
  sz_slot bn : 0 ≤ bn < MAXFILE → islot I A i (bslot bn) = 0 ↔ di_size (A i) ≤ bn * BSIZE;
  sz_ind : islot I A i NDIRECT = 0 ↔ di_size (A i) ≤ NDIRECT * BSIZE;
  sz_tail x : di_size (A i) ≤ x < MAXBYTES → ibyte I A i x = 0
}.
Definition fs_ok (I : image) (fi fb : Z) (A : Z → dinode) : Prop :=
  blocks_ok I fi fb A ∧ ∀ i, 1 ≤ i < fi → sized I A i.

(** The blocks of a file of [sz] bytes, the indirect one included. *)
Definition nblk (sz : Z) : Z := (sz + BSIZE - 1) / BSIZE + (if NDIRECT * BSIZE <? sz then 1 else 0).

(** The bytes [l] are appended to file [i]. *)
Record appended (I I' : image) (fi : Z) (A A' : Z → dinode) (i : Z) (l : list Z) : Prop := {
  ap_bytes x : 0 ≤ x < MAXBYTES → ibyte I' A' i x = overwrite (ibyte I A i) (di_size (A i)) l x;
  ap_size : di_size (A' i) = di_size (A i) + Z.of_nat (length l);
  ap_inode : A' i = set_di_size (di_size (A' i)) (set_di_addrs (di_addrs (A' i)) (A i));
  ap_others i' : i' ≠ i → A' i' = A i';
  ap_content i' bn : i' ≠ i → 1 ≤ i' < fi → 0 ≤ bn < MAXFILE → icontent I' A' i' bn = icontent I A i' bn;
  ap_image x : x < nmeta → I' !! x = I !! x
}.

Lemma appended_trans I1 I2 I3 fi A1 A2 A3 i l1 l2 :
  appended I1 I2 fi A1 A2 i l1 → appended I2 I3 fi A2 A3 i l2 → appended I1 I3 fi A1 A3 i (l1 ++ l2).
Proof.
  intros [a1 a2 a3 a4 a5 a6] [b1 b2 b3 b4 b5 b6]. split.
  - intros x Hx. rw b1 // a2 -overwrite_app. unfold overwrite at 1 2. case_decide; [done|]. by apply a1.
  - rw b2 a2 length_app. lia.
  - rw b3 a3. by destruct (A1 i).
  - intros i' Hne. by rw b4 // a4.
  - intros i' bn Hne Hi' Hbn. by rw b5 // a5.
  - intros x Hx. by rw b6 // a6.
Qed.

Lemma icontent_len I fi fb A i bn : blocks_ok I fi fb A → 1 ≤ i < fi → 0 ≤ bn < MAXFILE →
  length (icontent I A i bn) = Z.to_nat BSIZE.
Proof.
  intros Hb Hi Hbn. unfold icontent, fcontent. fold (islot I A i (bslot bn)).
  destruct (Z.eqb_spec (islot I A i (bslot bn)) 0) as [|H0]; [done|]. eapply full_len; [done|].
  pose proof (bk_range _ _ _ _ Hb i (bslot bn) Hi ltac:(by apply bslot_range) H0) as Hr. rw nmeta_eq in Hr.
  pose proof (bk_fb _ _ _ _ Hb). lia.
Qed.

Section resize.
Context (I : image) (A : Z → dinode) (i n : Z).
#[local] Abbreviation A' := (<[i := set_di_size n (A i)]> A).
Lemma resize_addrs i' : di_addrs (A' i') = di_addrs (A i').
Proof. destruct (decide (i' = i)) as [->|Hne]; [by rw fn_lookup_insert|by rw fn_lookup_insert_ne]. Qed.
Lemma resize_islot i' j : islot I A' i' j = islot I A i' j.
Proof. unfold islot. by rw resize_addrs. Qed.
Lemma resize_icontent i' bn : icontent I A' i' bn = icontent I A i' bn.
Proof. unfold icontent. by rw resize_addrs. Qed.
Lemma resize_ibyte i' x : ibyte I A' i' x = ibyte I A i' x.
Proof. unfold ibyte. by rw resize_addrs. Qed.
Lemma resize_blocks fi fb : 0 ≤ n < 2 ^ 32 → blocks_ok I fi fb A → blocks_ok I fi fb A'.
Proof.
  intros Hn [H1 H2 H3 H4 H5 H6]. split; try done.
  - intros i' j. rw resize_islot. apply H4.
  - intros i1 j1 i2 j2. rw !resize_islot. apply H5.
  - intros i' Hi'. specialize (H6 i' Hi'). destruct (decide (i' = i)) as [->|Hne]; [|by rw fn_lookup_insert_ne].
    rw fn_lookup_insert. destruct H6 as (? & ? & ? & ? & _ & ? & ?). by split_and!.
Qed.
End resize.

Section append.
Context (I I1 : image) (fi fb fb1 : Z) (A A1 : Z → dinode) (i : Z) (c : list Z).
#[local] Abbreviation off := (di_size (A i)).
#[local] Abbreviation fbn := (off / BSIZE).
Context (Hok : fs_ok I fi fb A) (Hi : 1 ≤ i < fi).
Context (Hc : 0 < Z.of_nat (length c) ≤ BSIZE - off mod BSIZE) (Hmax : off + Z.of_nat (length c) ≤ MAXBYTES).
Context (Hx : extended I I1 fi fb1 A A1 i (needs fbn)).
#[local] Abbreviation a := (islot I1 A1 i (bslot fbn)).
#[local] Abbreviation I2 := (<[a := bsplice (dblock I1 a) (off mod BSIZE) c]> I1).
#[local] Abbreviation A2 := (<[i := set_di_size (off + Z.of_nat (length c)) (A1 i)]> A1).

Lemma fbn_range : 0 ≤ fbn < MAXFILE ∧ 0 ≤ off.
Proof.
  destruct (sz_range _ _ _ (proj2 Hok i Hi)) as [H0 _]. pose proof Hmax as H1. rw MAXBYTES_eq in H1.
  rw MAXFILE_eq. unfold BSIZE in *. zlia.
Qed.
Lemma off_needed : nblk (off + Z.of_nat (length c)) - nblk off = needed I A i fbn.
Proof.
  destruct fbn_range as [Hf H0]. destruct (proj2 Hok i Hi) as [_ H1 H2 _]. specialize (H1 fbn Hf).
  unfold needed, need, nblk. unfold BSIZE in *. rw NDIRECT_eq in H2 *.
  destruct (Z.eqb_spec (islot I A i (bslot (off / 1024))) 0), (Z.eqb_spec (islot I A i 12) 0),
    (Z.ltb_spec (off / 1024) 12), (Z.ltb_spec (12 * 1024) (off + Z.of_nat (length c))), (Z.ltb_spec (12 * 1024) off); zlia.
Qed.

Lemma needs_bslot : bslot fbn ∈ needs fbn.
Proof. unfold needs, bslot. destruct (fbn <? NDIRECT); set_solver. Qed.
Lemma put_at : a ≠ 0.
Proof. apply (ex_J _ _ _ _ _ _ _ _ Hx), needs_bslot. Qed.
Lemma put_old : dblock I1 a = icontent I A i fbn.
Proof.
  rw -(ex_content _ _ _ _ _ _ _ _ Hx i fbn Hi (proj1 fbn_range)). unfold icontent, fcontent.
  fold (islot I1 A1 i (bslot fbn)). by rewrite -> (proj2 (Z.eqb_neq _ _) put_at).
Qed.
Lemma put_len : length (bsplice (dblock I1 a) (off mod BSIZE) c) = Z.to_nat BSIZE.
Proof.
  destruct fbn_range as [Hf H0]. rw put_old. pose proof (icontent_len _ _ _ _ i fbn (proj1 Hok) Hi Hf) as Hl.
  rw length_bsplice; [done| |]; rw ?Hl; unfold BSIZE in *; zlia.
Qed.
Lemma append_icontent i' bn : 1 ≤ i' < fi → 0 ≤ bn < MAXFILE → icontent I2 A2 i' bn =
  if decide (i' = i ∧ bn = fbn) then bsplice (icontent I A i fbn) (off mod BSIZE) c else icontent I A i' bn.
Proof.
  intros Hi' Hbn. rw resize_icontent (put_icontent _ _ _ _ _ _ _ (ex_ok _ _ _ _ _ _ _ _ Hx) Hi (proj1 fbn_range) put_len put_at) //.
  rw put_old. case_decide; [done|]. by apply (ex_content _ _ _ _ _ _ _ _ Hx).
Qed.
Lemma append_islot i' j : 1 ≤ i' < fi → 0 ≤ j ≤ MAXFILE → islot I2 A2 i' j = islot I1 A1 i' j.
Proof.
  intros Hi' Hj. rw resize_islot.
  by apply (put_islot _ _ _ _ _ _ _ (ex_ok _ _ _ _ _ _ _ _ Hx) Hi (proj1 fbn_range) put_len put_at).
Qed.

Lemma append_appended : appended I I2 fi A A2 i c.
Proof.
  destruct fbn_range as [Hf H0]. pose proof MAXBYTES_eq as HM. split.
  - intros x Hx'. apply overwrite_block; [done|unfold BSIZE in *; lia|lia|]. intros bn ->.
    assert (0 ≤ x / BSIZE < MAXFILE) as Hbn by (rw MAXFILE_eq; unfold BSIZE; zlia).
    split; [exact (icontent_len I fi fb A i _ (proj1 Hok) Hi Hbn)|]. etransitivity; [by apply (append_icontent i)|].
    destruct (decide (x / BSIZE = off / BSIZE)) as [E|E].
    + rw decide_True //. by rw E.
    + rw decide_False //. by intros [].
  - by rw fn_lookup_insert.
  - rw !fn_lookup_insert. rw (ex_inode _ _ _ _ _ _ _ _ Hx). done.
  - intros i' Hne. rw fn_lookup_insert_ne //. by apply (ex_others _ _ _ _ _ _ _ _ Hx).
  - intros i' bn Hne Hi' Hbn. rw append_icontent // decide_False //. by intros [].
  - intros x Hx'. rw (put_low _ _ _ _ _ _ _ (ex_ok _ _ _ _ _ _ _ _ Hx) Hi (proj1 fbn_range) put_len put_at) //.
    by apply (ex_image _ _ _ _ _ _ _ _ Hx).
Qed.

Lemma append_sized i' : 1 ≤ i' < fi → sized I2 A2 i'.
Proof.
  intros Hi'. destruct fbn_range as [Hf H0]. destruct (proj2 Hok i' Hi') as [s1 s2 s3 s4]. pose proof MAXBYTES_eq as HM.
  assert (0 ≤ NDIRECT ≤ MAXFILE) as HN by (rw MAXFILE_eq NDIRECT_eq; lia).
  destruct (decide (i' = i)) as [->|Hne].
  - split; rw ?fn_lookup_insert; cbn [di_size set_di_size].
    + lia.
    + intros bn Hbn. destruct (bslot_range bn Hbn) as [Hr Hnd]. rw append_islot //. destruct (decide (bn = fbn)) as [->|Hb].
      * split; [intros E; by destruct put_at|unfold BSIZE in *; zlia].
      * destruct (ex_slot _ _ _ _ _ _ _ _ Hx i (bslot bn) Hi Hr) as [->|(_ & Hin & _)].
        -- rw s2 //. unfold BSIZE in *. zlia.
        -- exfalso. unfold needs in Hin. destruct (Z.ltb_spec fbn NDIRECT) as [Hlt|Hge].
           ++ apply list_elem_of_singleton in Hin. apply Hb, bslot_inj. rw Hin. unfold bslot.
              by rewrite -> (proj2 (Z.ltb_lt fbn NDIRECT)).
           ++ apply elem_of_cons in Hin as [?|Hin%list_elem_of_singleton]; [done|]. by apply Hb, bslot_inj.
    + rw append_islot //. destruct (ex_slot _ _ _ _ _ _ _ _ Hx i NDIRECT Hi HN) as [E|(_ & Hin & E)].
      * rw E s3. rw NDIRECT_eq. unfold BSIZE in *. destruct (decide (NDIRECT ∈ needs fbn)) as [Hin|Hout].
        -- pose proof (ex_J _ _ _ _ _ _ _ _ Hx NDIRECT Hin) as Hn. rw E s3 NDIRECT_eq in Hn. unfold BSIZE in Hn. lia.
        -- unfold needs in Hout. destruct (Z.ltb_spec fbn NDIRECT) as [Hlt|Hge]; [|exfalso; apply Hout; by left].
           rw NDIRECT_eq in Hlt. unfold BSIZE in *. zlia.
      * split; [intros E'; by destruct (ex_J _ _ _ _ _ _ _ _ Hx NDIRECT Hin)|]. intros Hle. exfalso.
        unfold needs in Hin. rw NDIRECT_eq in Hin Hle. destruct (Z.ltb_spec fbn 12) as [Hlt|Hge].
        -- apply list_elem_of_singleton in Hin. lia.
        -- unfold BSIZE in *. zlia.
    + intros x Hx'. rw (ap_bytes _ _ _ _ _ _ _ append_appended); [|lia]. unfold overwrite.
      rw decide_False; [|lia]. apply s4. lia.
  - assert (di_size (A2 i') = di_size (A i')) as EA.
    { rw fn_lookup_insert_ne //. by rw (ex_others _ _ _ _ _ _ _ _ Hx). }
    split; rw ?EA //.
    + intros bn Hbn. destruct (bslot_range bn Hbn) as [Hr _]. rw append_islot //.
      destruct (ex_slot _ _ _ _ _ _ _ _ Hx i' (bslot bn) Hi' Hr) as [->|(? & _)]; [by apply s2|done].
    + rw append_islot //. destruct (ex_slot _ _ _ _ _ _ _ _ Hx i' NDIRECT Hi' HN) as [->|(? & _)]; done.
    + intros x Hx'. unfold ibyte, fbyte. fold (icontent I2 A2 i' (x / BSIZE)). rw append_icontent //.
      2: { rw MAXFILE_eq. unfold BSIZE in *. zlia. }
      rw decide_False; [by apply s4|by intros []].
Qed.

Lemma append_ok : fs_ok I2 fi fb1 A2.
Proof.
  split; [|exact append_sized]. pose proof Hmax as H1. rw MAXBYTES_eq in H1. destruct fbn_range as [Hf H0].
  apply resize_blocks; [lia|]. apply put_blocks; [apply Hx|done|done|exact put_len|exact put_at].
Qed.
End append.

Lemma nblk_mono a b : 0 ≤ a ≤ b → nblk a ≤ nblk b.
Proof.
  intros H. unfold nblk, BSIZE. rw NDIRECT_eq. destruct (Z.ltb_spec (12 * 1024) a), (Z.ltb_spec (12 * 1024) b); zlia.
Qed.
Lemma with_image_trans w1 w2 w3 I2 I3 : with_image w1 w2 I2 → with_image w2 w3 I3 → with_image w1 w3 I3.
Proof. intros [_ H1] [H2 H3]. split; [done|]. intros fd Hfd. by rw H3 // H1. Qed.

Section iappend.
Context (fi i : Z) (Hi : 1 ≤ i < fi).

Lemma iappend_step w fb A din off p :
  fs_ok (img w) fi fb A → A i = set_di_size off din → p ≠ [] → off + Z.of_nat (length p) ≤ MAXBYTES →
  let n1 := chunk (Z.of_nat (length p)) 0 off in
  let fb' := fb + (nblk (off + n1) - nblk off) in fb' ≤ FSSIZE →
  ∃ w' A' din', iappend_body (din, off, p) (st w fi fb) =
      Ret (inl (din', off + n1, drop (Z.to_nat n1) p)) (st w' fi fb') ∧
    with_image w w' (img w') ∧ fs_ok (img w') fi fb' A' ∧ A' i = set_di_size (off + n1) din' ∧
    appended (img w) (img w') fi A A' i (take (Z.to_nat n1) p).
Proof.
  intros Hok EA Hp Hmax n1 fb' Hfb. assert (off = di_size (A i)) as -> by by rw EA.
  assert (0 < Z.of_nat (length p)) as Hp0 by (destruct p; [done|cbn; lia]).
  pose proof (sz_range _ _ _ (proj2 Hok i Hi)) as Hsz.
  destruct (chunk_range (Z.of_nat (length p)) 0 (di_size (A i))) as [Hn1 Hn2]; [lia|lia|]. fold n1 in Hn1, Hn2.
  rw Z.sub_0_r in Hn1.
  set (c := take (Z.to_nat n1) p). assert (Z.of_nat (length c) = n1) as Hc by (unfold c; rw length_take; lia).
  assert (0 < Z.of_nat (length c) ≤ BSIZE - di_size (A i) mod BSIZE) as Hc1 by lia.
  assert (di_size (A i) + Z.of_nat (length c) ≤ MAXBYTES) as Hc2 by lia.
  destruct (fbn_range _ fi fb _ _ c Hok Hi Hc1 Hc2) as [Hfbn _].
  pose proof (off_needed _ fi fb _ _ c Hok Hi Hc1 Hc2) as Hnd. rw Hc in Hnd.
  destruct (block_of_ok w fi fb A i din _ (proj1 Hok) Hi ltac:(by rw EA) Hfbn) as (w1 & A1 & Hw1 & Hx & E1).
  { by rw -Hnd. }
  rw -Hnd in Hx E1. fold fb' in Hx, E1.
  pose proof (put_at _ _ _ _ _ _ _ _ c Hok Hi Hc1 Hc2 Hx) as Ha. pose proof (put_len _ _ _ _ _ _ _ _ c Hok Hi Hc1 Hc2 Hx) as Hpl.
  pose proof (append_ok _ _ _ _ _ _ _ _ c Hok Hi Hc1 Hc2 Hx) as Hok'.
  pose proof (append_appended _ _ _ _ _ _ _ _ c Hok Hi Hc1 Hc2 Hx) as Hap.
  pose proof (bk_range _ _ _ _ (ex_ok _ _ _ _ _ _ _ _ Hx) i (bslot (di_size (A i) / BSIZE)) Hi ltac:(by apply bslot_range) Ha) as Har.
  set (a := islot (img w1) A1 i (bslot (di_size (A i) / BSIZE))) in *. rw nmeta_eq in Har.
  destruct (bk_full _ _ _ _ (ex_ok _ _ _ _ _ _ _ _ Hx) a ltac:(lia)) as (b & Eb & Hl).
  assert (dblock (img w1) a = b) as Edb by by unfold dblock; rw Eb.
  destruct (rsect_ok w1 fi fb' a b ltac:(lia) Eb Hl) as (w2 & E2 & Hw2).
  destruct (wsect_ok w2 fi fb' a (bsplice b (di_size (A i) mod BSIZE) c) ltac:(lia)) as (w3 & E3 & Hw3).
  { by rw -Edb. }
  rw Edb in Hok' Hap. rewrite -> (proj1 Hw2) in Hw3. rewrite <- (proj1 Hw3) in Hok', Hap.
  eexists w3, _, (set_di_addrs (di_addrs (A1 i)) din). split; [|split; [|split; [exact Hok'|split; [|exact Hap]]]].
  - unfold iappend_body. rewrite -> (proj2 (Z.ltb_lt 0 _) Hp0). cbn [negb]. cbv zeta.
    rewrite -> (proj2 (Z.ltb_lt _ _) (proj2 Hfbn)). cbn [assert_]. msimp. mstep E1. cbn [fst snd]. mstep E2.
    replace (Z.min (Z.of_nat (length p)) ((di_size (A i) / BSIZE + 1) * BSIZE - di_size (A i))) with n1.
    2: { unfold n1, chunk, BSIZE. zlia. }
    fold c. replace (di_size (A i) - di_size (A i) / BSIZE * BSIZE) with (di_size (A i) mod BSIZE) by (unfold BSIZE; zlia).
    mstep E3. rewrite -> u32_small by (rw MAXBYTES_eq in Hsz Hmax; lia). done.
  - eapply with_image_trans; [exact Hw1|]. eapply with_image_trans; [exact Hw2|]. by rw (proj1 Hw3).
  - rw fn_lookup_insert Hc. pose proof (ex_inode _ _ _ _ _ _ _ _ Hx) as Ei. revert Ei. rw EA. generalize (A1 i). by intros d ->.
Qed.

Lemma iters_tot n c off : iters n c off = iters (n - c) 0 off.
Proof. unfold iters. rw Z.sub_0_r. destruct (Z.ltb_spec c n), (Z.ltb_spec 0 (n - c)); lia. Qed.

Lemma appended_nil I A : 0 ≤ di_size (A i) → appended I I fi A A i [].
Proof.
  intros Hs. split; try done.
  - intros x Hx. unfold overwrite. rw decide_False //. cbn. lia.
  - cbn. lia.
  - by destruct (A i).
Qed.

Lemma iappend_loop (fuel : nat) : ∀ w fb A din off p,
  fs_ok (img w) fi fb A → A i = set_di_size off din → off + Z.of_nat (length p) ≤ MAXBYTES →
  let fb' := fb + (nblk (off + Z.of_nat (length p)) - nblk off) in fb' ≤ FSSIZE →
  iters (Z.of_nat (length p)) 0 off < Z.of_nat fuel →
  ∃ w' A' din', loopM fuel iappend_body (din, off, p) (st w fi fb) = Ret (din', off + Z.of_nat (length p)) (st w' fi fb') ∧
    with_image w w' (img w') ∧ fs_ok (img w') fi fb' A' ∧ A' i = set_di_size (off + Z.of_nat (length p)) din' ∧
    appended (img w) (img w') fi A A' i p.
Proof.
  induction fuel as [|fuel IH]; intros w fb A din off p Hok EA Hmax fb' Hfb Hf.
  { exfalso. unfold iters, BSIZE in Hf. pose proof (sz_range _ _ _ (proj2 Hok i Hi)) as Hs. rw EA in Hs. cbn in Hs.
    destruct (Z.ltb_spec 0 (Z.of_nat (length p))); zlia. }
  pose proof (sz_range _ _ _ (proj2 Hok i Hi)) as Hs. rw EA in Hs. cbn [di_size set_di_size] in Hs. cbn [loopM].
  destruct (decide (p = [])) as [->|Hp].
  { exists w, A, din. cbn in fb' |- *. unfold fb'. rw Z.add_0_r Z.sub_diag Z.add_0_r. split_and!; try done.
    apply appended_nil. by rw EA; cbn; lia. }
  assert (0 < Z.of_nat (length p)) as Hp0 by (destruct p; [done|cbn; lia]).
  destruct (chunk_range (Z.of_nat (length p)) 0 off ltac:(lia) Hp0) as [Hc1 Hc2]. set (n1 := chunk _ 0 off) in *.
  pose proof (nblk_mono (off + n1) (off + Z.of_nat (length p)) ltac:(lia)) as Hm.
  destruct (iappend_step w fb A din off p Hok EA Hp Hmax ltac:(fold n1; lia)) as (w1 & A1 & d1 & E1 & Hw1 & Hok1 & EA1 & Hap1).
  fold n1 in E1, Hok1, EA1, Hap1. mstep E1. set (p' := drop (Z.to_nat n1) p).
  assert (Z.of_nat (length p') = Z.of_nat (length p) - n1) as Hp' by (unfold p'; rw length_drop; lia).
  destruct (IH w1 (fb + (nblk (off + n1) - nblk off)) A1 d1 (off + n1) p' Hok1 EA1) as (w2 & A2 & d2 & E2 & Hw2 & Hok2 & EA2 & Hap2).
  - lia.
  - rw Hp'. replace (off + n1 + (Z.of_nat (length p) - n1)) with (off + Z.of_nat (length p)) by lia. lia.
  - rw Hp' -iters_tot. pose proof (iters_next (Z.of_nat (length p)) 0 off ltac:(lia) Hp0) as Hn. fold n1 in Hn.
    rw Z.add_0_l in Hn. lia.
  - rw Hp' in E2 Hok2 EA2. replace (off + n1 + (Z.of_nat (length p) - n1)) with (off + Z.of_nat (length p)) in * by lia.
    replace (fb + (nblk (off + n1) - nblk off) + (nblk (off + Z.of_nat (length p)) - nblk (off + n1))) with fb' in *
      by (unfold fb'; lia).
    exists w2, A2, d2. split_and!; try done; [by eapply with_image_trans|].
    rewrite <- (take_drop (Z.to_nat n1) p). by eapply appended_trans.
Qed.
End iappend.

(** ** The inodes on the disk *)

Definition din_at (I : image) (i : Z) : dinode :=
  dec_dinode (bslice (dblock I (IBLOCK i sb_of)) (dip_off i) sizeof_dinode).

Lemma IBLOCK_sb i : 0 ≤ i < NINODES → IBLOCK i sb_of = i / 16 + 32 ∧ 32 ≤ IBLOCK i sb_of < 45.
Proof.
  intros Hi. unfold IBLOCK. change (sb_inodestart sb_of) with 32. change IPB with 16. unfold NINODES in Hi.
  rewrite -> u32_small by zlia. zlia.
Qed.
Lemma dip_off_range i : 0 ≤ dip_off i ∧ dip_off i + 64 ≤ BSIZE ∧ dip_off i = i mod 16 * 64.
Proof. unfold dip_off. change IPB with 16. unfold sizeof_dinode, BSIZE. zlia. Qed.

Lemma din_at_write I i d i' :
  0 ≤ i < NINODES → 0 ≤ i' < NINODES → dinode_ok d → length (dblock I (IBLOCK i sb_of)) = Z.to_nat BSIZE →
  din_at (<[IBLOCK i sb_of := bsplice (dblock I (IBLOCK i sb_of)) (dip_off i) (enc_dinode d)]> I) i' =
    if decide (i' = i) then d else din_at I i'.
Proof.
  intros Hi Hi' Hd Hl. unfold din_at. rw dblock_insert.
  destruct (bslice_dinode (dblock I (IBLOCK i sb_of)) i d Hl ltac:(lia) Hd) as [H1 H2].
  destruct (decide (i' = i)) as [->|Hne]; [by rw decide_True|].
  case_decide as E; [|done]. rw H2; [by rw E|lia|].
  destruct (IBLOCK_sb i Hi) as [E1 _]. destruct (IBLOCK_sb i' Hi') as [E2 _]. change IPB with 16. zlia.
Qed.

(** [A] are the inodes on the disk. *)
Definition table (I : image) (fi : Z) (A : Z → dinode) : Prop := ∀ i, 1 ≤ i < fi → din_at I i = A i.

Section ext.
Context (I I' : image) (fi fb : Z) (A A' : Z → dinode).
Context (HI : ∀ x, nmeta ≤ x → I' !! x = I !! x).
Context (Hfull : ∀ x, 0 ≤ x < FSSIZE → ∃ b, I' !! x = Some b ∧ length b = Z.to_nat BSIZE).
Context (HA : ∀ i, 1 ≤ i < fi → A' i = A i) (Hb : blocks_ok I fi fb A).

Lemma ext_dblock x : nmeta ≤ x → dblock I' x = dblock I x.
Proof. intros Hx. unfold dblock. by rw HI. Qed.
Lemma ext_islot i j : 1 ≤ i < fi → 0 ≤ j ≤ MAXFILE → islot I' A' i j = islot I A i j.
Proof.
  intros Hi Hj. assert (0 ≤ NDIRECT ≤ MAXFILE) as HN by (rw MAXFILE_eq NDIRECT_eq; lia).
  unfold islot. rw HA //. apply slot_ext. intros Hn. apply ext_dblock.
  pose proof (bk_range _ _ _ _ Hb i NDIRECT Hi HN) as Hr. rw islot_direct in Hr; [|done]. by apply Hr.
Qed.
Lemma ext_icontent i bn : 1 ≤ i < fi → 0 ≤ bn < MAXFILE → icontent I' A' i bn = icontent I A i bn.
Proof.
  intros Hi Hbn. destruct (bslot_range bn Hbn) as [Hr _]. unfold icontent, fcontent.
  fold (islot I' A' i (bslot bn)) (islot I A i (bslot bn)). rw ext_islot //.
  destruct (Z.eqb_spec (islot I A i (bslot bn)) 0); [done|]. apply ext_dblock. by apply (bk_range _ _ _ _ Hb).
Qed.
Lemma ext_blocks : blocks_ok I' fi fb A'.
Proof.
  destruct (bk_fb _ _ _ _ Hb) as [Hfb1 Hfb2]. split; try done.
  - intros x Hx. rw ext_dblock; [by apply (bk_zero _ _ _ _ Hb)|lia].
  - intros i j Hi Hj. rw ext_islot //. by apply (bk_range _ _ _ _ Hb).
  - intros i j i' j' H1 H2 H3 H4. rw !ext_islot //. by apply (bk_inj _ _ _ _ Hb).
  - intros i Hi. rw HA //. by apply (bk_din _ _ _ _ Hb).
Qed.
Lemma ext_sized i : 1 ≤ i < fi → sized I A i → sized I' A' i.
Proof.
  intros Hi [s1 s2 s3 s4]. assert (0 ≤ NDIRECT ≤ MAXFILE) as HN by (rw MAXFILE_eq NDIRECT_eq; lia). split; rw ?HA //.
  - intros bn Hbn. rw ext_islot //; [by apply s2|by apply bslot_range].
  - by rw ext_islot.
  - intros x Hx. unfold ibyte, fbyte. fold (icontent I' A' i (x / BSIZE)). rw ext_icontent //; [by apply s4|].
    rw MAXBYTES_eq in Hx. rw MAXFILE_eq. unfold BSIZE. zlia.
Qed.
End ext.

Lemma fs_ok_ext I I' fi fb A A' :
  (∀ x, nmeta ≤ x → I' !! x = I !! x) → (∀ x, 0 ≤ x < FSSIZE → ∃ b, I' !! x = Some b ∧ length b = Z.to_nat BSIZE) →
  (∀ i, 1 ≤ i < fi → A' i = A i) → fs_ok I fi fb A →
  fs_ok I' fi fb A' ∧ ∀ i bn, 1 ≤ i < fi → 0 ≤ bn < MAXFILE → icontent I' A' i bn = icontent I A i bn.
Proof.
  intros HI Hfull HA [Hb Hs]. split; [split|]; [by eapply ext_blocks| |intros; by eapply ext_icontent].
  intros i Hi. eapply ext_sized; try done. by apply Hs.
Qed.

Lemma rinode_ok w fi fb A i :
  blocks_ok (img w) fi fb A → table (img w) fi A → 1 ≤ i < fi → fi ≤ NINODES →
  ∃ w', rinode i (st w fi fb) = Ret (A i) (st w' fi fb) ∧ with_image w w' (img w).
Proof.
  intros Hb Ht Hi Hfi. destruct (IBLOCK_sb i ltac:(lia)) as [_ Hr].
  destruct (bk_full _ _ _ _ Hb (IBLOCK i sb_of)) as (b & Eb & Hl); [unfold FSSIZE; lia|].
  destruct (rsect_ok w fi fb (IBLOCK i sb_of) b ltac:(unfold FSSIZE; lia) Eb Hl) as (w' & E & Hw).
  exists w'. split; [|done]. unfold rinode. msimp. change (mk_sb (st w fi fb)) with sb_of. mstep E.
  do 2 f_equal. rw -(Ht i Hi). unfold din_at, dblock. by rw Eb.
Qed.

(** [winode] changes one inode on the disk and no block from [nmeta] on. *)
Lemma winode_ok w fi fb i d :
  (∀ x, 0 ≤ x < FSSIZE → ∃ b, img w !! x = Some b ∧ length b = Z.to_nat BSIZE) → 0 ≤ i < NINODES → dinode_ok d →
  ∃ w', winode i d (st w fi fb) = Ret tt (st w' fi fb) ∧ with_image w w' (img w') ∧
    (∀ i', 0 ≤ i' < NINODES → din_at (img w') i' = if decide (i' = i) then d else din_at (img w) i') ∧
    (∀ x, nmeta ≤ x ∨ x < 32 → img w' !! x = img w !! x) ∧
    (∀ x, 0 ≤ x < FSSIZE → ∃ b, img w' !! x = Some b ∧ length b = Z.to_nat BSIZE).
Proof.
  intros Hfull Hi Hd. destruct (IBLOCK_sb i Hi) as [_ Hr]. pose proof nmeta_eq as Hnm.
  destruct (Hfull (IBLOCK i sb_of)) as (b & Eb & Hl); [unfold FSSIZE; lia|].
  assert (dblock (img w) (IBLOCK i sb_of) = b) as Edb by by unfold dblock; rw Eb.
  destruct (rsect_ok w fi fb (IBLOCK i sb_of) b ltac:(unfold FSSIZE; lia) Eb Hl) as (w1 & E1 & Hw1).
  destruct (dip_off_range i) as (H1 & H2 & _). pose proof (length_enc_dinode d ltac:(apply Hd)) as Hle.
  assert (length (bsplice b (dip_off i) (enc_dinode d)) = Z.to_nat BSIZE) as Hl'.
  { rw length_bsplice; rw ?Hle; lia. }
  destruct (wsect_ok w1 fi fb (IBLOCK i sb_of) _ ltac:(unfold FSSIZE; lia) Hl') as (w2 & E2 & Hw2).
  rewrite -> (proj1 Hw1) in Hw2. exists w2. split_and!.
  - unfold winode. msimp. change (mk_sb (st w fi fb)) with sb_of. mstep E1. exact E2.
  - eapply with_image_trans; [exact Hw1|]. by rw (proj1 Hw2).
  - intros i' Hi'. rw (proj1 Hw2) -Edb. apply din_at_write; try done. by rw Edb.
  - intros x Hx. rw (proj1 Hw2) lookup_insert_ne //. lia.
  - intros x Hx. rw (proj1 Hw2). destruct (decide (x = IBLOCK i sb_of)) as [->|Hne].
    + rw lookup_insert_eq. by eexists.
    + rw lookup_insert_ne //. by apply Hfull.
Qed.

(** ** The file system made so far *)

Definition contents (I : image) (d : dinode) : list Z := fbytes (dblock I) (di_addrs d) 0 (di_size d).

(** A type and the bytes. *)
Abbreviation afile := (Z * list Z)%type.
Definition is_file (I : image) (d : dinode) (f : afile) : Prop :=
  di_type d = f.1 ∧ di_major d = 0 ∧ di_minor d = 0 ∧ di_nlink d = 1 ∧ contents I d = f.2.

(** [fi] and [fb] are the next inode and block, [Fs] the files with inodes from
    1 to [fi - 1]; the blocks before the inodes are those of [L]. *)
Record made (I : image) (fi fb : Z) (A : Z → dinode) (L : image) (Fs : Z → afile) : Prop := {
  md_fi : 1 ≤ fi ≤ NINODES;
  md_fs : fs_ok I fi fb A;
  md_table : table I fi A;
  md_files i : 1 ≤ i < fi → is_file I (A i) (Fs i);
  md_low x : x < 32 → I !! x = L !! x
}.

Lemma contents_len I d : 0 ≤ di_size d → Z.of_nat (length (contents I d)) = di_size d.
Proof. intros Hs. unfold contents, fbytes. rw length_fmap length_seqZ. lia. Qed.

Lemma contents_ext I I' (A A' : Z → dinode) i :
  di_size (A' i) = di_size (A i) → di_size (A i) ≤ MAXBYTES →
  (∀ bn, 0 ≤ bn < MAXFILE → icontent I' A' i bn = icontent I A i bn) → contents I' (A' i) = contents I (A i).
Proof.
  intros Es Hm Hc. unfold contents, fbytes. rw Es. apply list_fmap_ext. intros n x Hx.
  apply list_elem_of_lookup_2, elem_of_seqZ in Hx. unfold fbyte. f_equal. apply Hc.
  rw MAXBYTES_eq in Hm. rw MAXFILE_eq. unfold BSIZE. zlia.
Qed.

Lemma contents_append I I' fi A A' i l :
  appended I I' fi A A' i l → 0 ≤ di_size (A i) → di_size (A i) + Z.of_nat (length l) ≤ MAXBYTES →
  contents I' (A' i) = contents I (A i) ++ l.
Proof.
  intros Ha Hs Hm. unfold contents, fbytes. rw (ap_size _ _ _ _ _ _ _ Ha) seqZ_app; [|lia|lia]. rw fmap_app. f_equal.
  - apply list_fmap_ext. intros n x Hx. apply list_elem_of_lookup_2, elem_of_seqZ in Hx.
    etransitivity; [apply (ap_bytes _ _ _ _ _ _ _ Ha); lia|]. unfold overwrite. rw decide_False //. lia.
  - apply list_eq. intros n. rw list_lookup_fmap. destruct (decide (n < length l)%nat) as [Hn|Hn].
    + rw lookup_seqZ_lt; [|lia]. cbn. etransitivity; [apply f_equal, (ap_bytes _ _ _ _ _ _ _ Ha); lia|].
      unfold overwrite. rw decide_True; [|lia]. rw list_lookup_lookup_total_lt //. do 2 f_equal. lia.
    + rw lookup_seqZ_ge; [|lia]. symmetry. apply lookup_ge_None. lia.
Qed.

Lemma din_at_low I I' i : 0 ≤ i < NINODES → (∀ x, x < nmeta → I' !! x = I !! x) → din_at I' i = din_at I i.
Proof.
  intros Hi HI. unfold din_at, dblock. destruct (IBLOCK_sb i Hi) as [_ Hr]. rw HI //. rw nmeta_eq. lia.
Qed.

Lemma iappend_ok w fi fb A L Fs i p :
  made (img w) fi fb A L Fs → 1 ≤ i < fi → Z.of_nat (length (Fs i).2 + length p) ≤ MAXBYTES →
  let sz := Z.of_nat (length (Fs i).2) in
  let fb' := fb + (nblk (sz + Z.of_nat (length p)) - nblk sz) in fb' ≤ FSSIZE →
  ∃ w' A', iappend i p (st w fi fb) = Ret tt (st w' fi fb') ∧ with_image w w' (img w') ∧
    made (img w') fi fb' A' L (<[i := ((Fs i).1, (Fs i).2 ++ p)]> Fs).
Proof.
  intros [Hfi Hfs Ht Hf HL] Hi Hmax sz fb' Hfb. pose proof (sz_range _ _ _ (proj2 Hfs i Hi)) as Hs.
  destruct (Hf i Hi) as (_ & _ & _ & _ & Hc). assert (di_size (A i) = sz) as Esz.
  { unfold sz. rw -Hc contents_len //. lia. }
  destruct (rinode_ok w fi fb A i (proj1 Hfs) Ht Hi ltac:(lia)) as (w1 & E1 & Hw1).
  pose proof (proj1 Hw1) as I1. rw -I1 in Hfs. pose proof MAXBYTES_eq as HM.
  destruct (iappend_loop fi i Hi (length p / Z.to_nat BSIZE + 3) w1 fb A (A i) (di_size (A i)) p Hfs) as
    (w2 & A2 & d2 & E2 & Hw2 & Hfs2 & EA2 & Hap); [by destruct (A i)|lia|by rw Esz| |].
  { pose proof (iters_bound (Z.of_nat (length p)) (di_size (A i))) as Hib. rw Nat2Z.inj_add Nat2Z.inj_div.
    unfold BSIZE in *. change (Z.of_nat (Z.to_nat 1024)) with 1024. lia. }
  rw Esz in E2 Hfs2. fold fb' in E2, Hfs2. rw I1 in Hap.
  destruct (winode_ok w2 fi fb' i (A2 i) (bk_full _ _ _ _ (proj1 Hfs2)) ltac:(lia) (bk_din _ _ _ _ (proj1 Hfs2) i Hi))
    as (w3 & E3 & Hw3 & D3 & I3 & Hfull3).
  destruct (fs_ok_ext (img w2) (img w3) fi fb' A2 A2 (λ x Hx, I3 x (or_introl Hx)) Hfull3 (λ _ _, eq_refl) Hfs2) as [Hfs3 Hc3].
  exists w3, A2. split; [|split].
  - unfold iappend. mstep E1. rewrite -> xint_id by lia. rw Esz. mstep E2. cbn [fst snd].
    rewrite -> (xint_id (sz + Z.of_nat (length p))) by lia. rw -Esz -EA2. exact E3.
  - eapply with_image_trans; [exact Hw1|]. by eapply with_image_trans.
  - destruct Hap as [P1 P2 P3 P4 P5 P6] eqn:EP. split; try done.
    + intros i' Hi'. rw D3; [|lia]. case_decide as E; [by rw E|]. rw P4 // -Ht //. apply din_at_low; [lia|done].
    + intros i' Hi'. pose proof (sz_range _ _ _ (proj2 Hfs2 i' Hi')) as Hs2.
      assert (contents (img w3) (A2 i') = contents (img w2) (A2 i')) as Ec.
      { apply contents_ext; [done|lia|]. intros bn Hbn. by apply Hc3. }
      unfold is_file. rw Ec. destruct (decide (i' = i)) as [->|Hne].
      * rw fn_lookup_insert (contents_append (img w) (img w2) fi A A2 i p) // ?Hc; [|lia|lia]. rw P3.
        by destruct (Hf i Hi) as (? & ? & ? & ? & _).
      * rw fn_lookup_insert_ne //. destruct (Hf i' Hi') as (? & ? & ? & ? & Hc').
        assert (contents (img w2) (A2 i') = contents (img w) (A i')) as ->; [|by rw P4].
        rw P4 // in Hs2. apply contents_ext; [by rw P4|lia|]. intros bn Hbn. by apply P5.
    + intros x Hx. rw I3; [|by right]. rw P6; [|rw nmeta_eq; lia]. by apply HL.
Qed.

(** ** A new inode *)

Definition new_dinode (ty : Z) : dinode := Dinode ty 0 0 1 0 (replicate 13 0).

Section new.
Context (I : image) (fi fb : Z) (A : Z → dinode) (ty : Z).
Context (Hfi : 1 ≤ fi) (Hty : short_ok ty) (HA : A fi = new_dinode ty).

Lemma new_islot j : 0 ≤ j → islot I A fi j = 0.
Proof. intros Hj. unfold islot. rw HA. by apply slot_kst4. Qed.
Lemma new_sized : sized I A fi.
Proof.
  pose proof MAXBYTES_eq as HM. split; rw ?HA; cbn [di_size new_dinode].
  - lia.
  - intros bn Hbn. destruct (bslot_range bn Hbn) as [Hr _]. rw new_islot; [|lia]. unfold BSIZE. lia.
  - rw NDIRECT_eq new_islot; [|lia]. unfold BSIZE. lia.
  - intros x Hx. unfold ibyte, fbyte, fcontent. fold (islot I A fi (bslot (x / BSIZE))). rw new_islot.
    + cbn [Z.eqb]. unfold zget, zero_block. apply lookup_total_replicate_2. unfold BSIZE. zlia.
    + apply bslot_range. rw MAXFILE_eq. unfold BSIZE in *. zlia.
Qed.
Lemma new_ok : fs_ok I fi fb A → fs_ok I (fi + 1) fb A.
Proof.
  intros [[b1 b2 b3 b4 b5 b6] Hs]. assert (∀ i, 1 ≤ i < fi + 1 → i = fi ∨ 1 ≤ i < fi) as Hsp by lia.
  split; [split|]; try done.
  - intros i j [->|Hi]%Hsp Hj H0; [by rw new_islot in H0; [|lia]|by apply b4].
  - intros i j i' j' Hi Hj Hi' Hj' H0 E. destruct (Hsp i Hi) as [->|Hi1]; [by rw new_islot in H0; [|lia]|].
    destruct (Hsp i' Hi') as [->|Hi1']; [rw E new_islot // in H0; lia|]. by apply b5.
  - intros i [->|Hi]%Hsp; [|by apply b6]. rw HA. unfold short_ok in Hty. split_and!; try done.
    by apply Forall_replicate.
  - intros i [->|Hi]%Hsp; [exact new_sized|by apply Hs].
Qed.
End new.

Lemma ialloc_ok w fi fb A L Fs ty :
  made (img w) fi fb A L Fs → fi < NINODES → short_ok ty → i16 (xshort ty) = ty →
  ∃ w' A', ialloc ty (st w fi fb) = Ret fi (st w' (fi + 1) fb) ∧ with_image w w' (img w') ∧
    made (img w') (fi + 1) fb A' L (<[fi := (ty, [])]> Fs).
Proof.
  intros [Hfi Hfs Ht Hf HL] Hlt Hty Ety.
  assert (dinode_ok (new_dinode ty)) as Hd.
  { unfold short_ok in Hty. split_and!; try done. by apply Forall_replicate. }
  destruct (winode_ok w (fi + 1) fb fi (new_dinode ty) (bk_full _ _ _ _ (proj1 Hfs)) ltac:(lia) Hd) as (w' & E & Hw & D & HI & Hfull).
  set (A' := <[fi := new_dinode ty]> A : Z → dinode).
  assert (∀ i, 1 ≤ i < fi → A' i = A i) as HA by (intros i Hi; unfold A'; rw fn_lookup_insert_ne //; lia).
  destruct (fs_ok_ext (img w) (img w') fi fb A A' (λ x Hx, HI x (or_introl Hx)) Hfull HA Hfs) as [Hfs' Hc'].
  assert (A' fi = new_dinode ty) as Enew by by unfold A'; rw fn_lookup_insert.
  assert (∀ i, 1 ≤ i < fi + 1 → i = fi ∨ i ≠ fi ∧ 1 ≤ i < fi) as Hsp by lia.
  exists w', A'. split; [|split; [done|]].
  - unfold ialloc. unfold next_inode at 1. unfold mbind at 1, M_bind at 1. cbn [obind mk_fsfd mk_sb mk_freeinode mk_freeblock mk_world st].
    rewrite -> u32_small by (unfold NINODES in *; lia). rw Ety. change (i16 (xshort 1)) with 1. change (xint 0) with 0.
    change (Mkst fsfd sb_of (fi + 1) fb w) with (st w (fi + 1) fb). by mstep E.
  - split; [lia|by apply (new_ok _ _ _ _ ty)| | |].
    + intros i Hi. rw D; [|lia]. destruct (Hsp i Hi) as [->|[Hne Hi']]; [by rw decide_True|]. rw decide_False // HA //.
      by apply Ht.
    + intros i Hi. destruct (Hsp i Hi) as [->|[Hne Hi']].
      * rw fn_lookup_insert Enew. by split_and!.
      * rw fn_lookup_insert_ne //. destruct (Hf i Hi') as (? & ? & ? & ? & Hc). unfold is_file. rw HA //. split_and!; try done.
        rw -Hc -(HA i) //. pose proof (sz_range _ _ _ (proj2 Hfs i Hi')) as Hs. rw (HA i) //.
        rw -{1}(HA i) //. apply contents_ext; [by rw HA|lia|]. intros bn Hbn. by apply Hc'.
    + intros x Hx. rw HI; [|by right]. by apply HL.
Qed.

(** ** Adding the files *)

Lemma made_ext I fi fb A L Fs Fs' : (∀ i, 1 ≤ i < fi → Fs' i = Fs i) → made I fi fb A L Fs → made I fi fb A L Fs'.
Proof. intros HF [H1 H2 H3 H4 H5]. split; try done. intros i Hi. rw HF //. by apply H4. Qed.

(** The root directory [r] and the files [bs]. *)
Definition files_of (r : list Z) (bs : list (list Z)) (i : Z) : afile :=
  if i =? 1 then (T_DIR, r) else (T_FILE, bs !!! Z.to_nat (i - 2)).
Definition nbytes (l : list Z) : Z := Z.of_nat (length l).
Definition total (r : list Z) (bs : list (list Z)) : Z := nmeta + nblk (nbytes r) + foldr Z.add 0 ((λ b, nblk (nbytes b)) <$> bs).

Lemma nblk_pos n : 0 ≤ n → 0 ≤ nblk n.
Proof. intros Hn. unfold nblk, BSIZE. destruct (NDIRECT * 1024 <? n); zlia. Qed.
Lemma total_file r bs b : total r (bs ++ [b]) = total r bs + nblk (nbytes b).
Proof. unfold total. rw fmap_app foldr_app. induction bs as [|x bs IH]; cbn in *; lia. Qed.

(** [w] is the world when the image has the files [r], [bs]. *)
Definition holds_files (L : image) (w : W) (r : list Z) (bs : list (list Z)) : Prop :=
  ∃ A, made (img w) (2 + Z.of_nat (length bs)) (total r bs) A L (files_of r bs).
Definition at_files (w : W) (r : list Z) (bs : list (list Z)) : mkst W := st w (2 + Z.of_nat (length bs)) (total r bs).

Lemma root_append L w r bs p :
  holds_files L w r bs → nbytes (r ++ p) ≤ MAXBYTES → total (r ++ p) bs ≤ FSSIZE →
  ∃ w', iappend 1 p (at_files w r bs) = Ret tt (at_files w' (r ++ p) bs) ∧ with_image w w' (img w') ∧
    holds_files L w' (r ++ p) bs.
Proof.
  intros [A Hm] Hs Hf. unfold nbytes in Hs. rw length_app in Hs.
  assert (total (r ++ p) bs = total r bs + (nblk (nbytes r + nbytes p) - nblk (nbytes r))) as Et.
  { unfold total, nbytes. rw length_app Nat2Z.inj_add. lia. }
  destruct (iappend_ok w _ _ A L _ 1 p Hm ltac:(lia) ltac:(cbn; lia)) as (w' & A' & E & Hw & Hm').
  { cbn. fold (nbytes r) (nbytes p). by rw -Et. }
  cbn in E, Hm'. fold (nbytes r) (nbytes p) in E, Hm'. rw -Et in E Hm'. exists w'. split; [done|]. split; [done|].
  exists A'. eapply made_ext; [|exact Hm']. intros i Hi. unfold files_of.
  destruct (Z.eqb_spec i 1) as [->|Hne]; [by rw fn_lookup_insert|]. rw fn_lookup_insert_ne //.
  by rewrite -> (proj2 (Z.eqb_neq i 1)).
Qed.

Lemma last_append L w r bs b p :
  holds_files L w r (bs ++ [b]) → nbytes (b ++ p) ≤ MAXBYTES → total r (bs ++ [b ++ p]) ≤ FSSIZE →
  ∃ w', iappend (2 + Z.of_nat (length bs)) p (at_files w r (bs ++ [b])) = Ret tt (at_files w' r (bs ++ [b ++ p])) ∧
    with_image w w' (img w') ∧ holds_files L w' r (bs ++ [b ++ p]).
Proof.
  intros [A Hm] Hs Hf. unfold nbytes in Hs. rw length_app in Hs. set (i := 2 + Z.of_nat (length bs)).
  assert (files_of r (bs ++ [b]) i = (T_FILE, b)) as Ei.
  { unfold files_of, i. rewrite -> (proj2 (Z.eqb_neq _ 1)) by lia. rw lookup_total_app_r; [|lia].
    by replace (Z.to_nat (2 + Z.of_nat (length bs) - 2) - length bs)%nat with 0%nat by lia. }
  assert (total r (bs ++ [b ++ p]) = total r (bs ++ [b]) + (nblk (nbytes b + nbytes p) - nblk (nbytes b))) as Et.
  { rw !total_file. unfold nbytes. rw length_app Nat2Z.inj_add. lia. }
  destruct (iappend_ok w _ _ A L _ i p Hm) as (w' & A' & E & Hw & Hm'); rw ?Ei; cbn.
  { rw length_app. cbn. unfold i. lia. } { lia. } { fold (nbytes b) (nbytes p). by rw -Et. }
  rw Ei in E Hm'. cbn in E, Hm'. fold (nbytes b) (nbytes p) in E, Hm'. rw -Et in E Hm'.
  exists w'. unfold at_files, holds_files. rw length_app in E Hm' |- *. rw length_app. cbn in E, Hm' |- *. split; [done|]. split; [done|].
  exists A'. eapply made_ext; [|exact Hm']. intros j Hj. unfold files_of.
  destruct (Z.eqb_spec j 1) as [->|Hne]; [rw fn_lookup_insert_ne //; unfold i; lia|].
  destruct (decide (j = i)) as [->|Hni].
  - rw fn_lookup_insert. rw lookup_total_app_r; [|unfold i; lia].
    by replace (Z.to_nat (i - 2) - length bs)%nat with 0%nat by (unfold i; lia).
  - rw fn_lookup_insert_ne //. rewrite -> (proj2 (Z.eqb_neq j 1)) by done.
    rewrite -> !lookup_total_app_l by (unfold i in *; lia). done.
Qed.

Lemma new_file L w r bs :
  holds_files L w r bs → 2 + Z.of_nat (length bs) < NINODES →
  ∃ w', ialloc T_FILE (at_files w r bs) = Ret (2 + Z.of_nat (length bs)) (at_files w' r (bs ++ [[]])) ∧
    with_image w w' (img w') ∧ holds_files L w' r (bs ++ [[]]).
Proof.
  intros [A Hm] Hlt. destruct (ialloc_ok w _ _ A L _ T_FILE Hm Hlt) as (w' & A' & E & Hw & Hm'); [done|done|].
  assert (total r (bs ++ [[]]) = total r bs) as Et by (rw total_file; change (nblk (nbytes [])) with 0; lia).
  exists w'. unfold at_files, holds_files. rw length_app Et. cbn.
  replace (2 + Z.of_nat (length bs + 1)) with (2 + Z.of_nat (length bs) + 1) by lia. split; [done|]. split; [done|].
  exists A'. eapply made_ext; [|exact Hm']. intros j Hj. unfold files_of.
  destruct (Z.eqb_spec j 1) as [->|Hne]; [rw fn_lookup_insert_ne //; lia|].
  destruct (decide (j = 2 + Z.of_nat (length bs))) as [->|Hni].
  - rw fn_lookup_insert. rw lookup_total_app_r; [|lia].
    by replace (Z.to_nat (2 + Z.of_nat (length bs) - 2) - length bs)%nat with 0%nat by lia.
  - rw fn_lookup_insert_ne //. rewrite -> (proj2 (Z.eqb_neq j 1)) by done. by rewrite -> !lookup_total_app_l by lia.
Qed.

Lemma total_mono r bs b c : nbytes b ≤ nbytes c → total r (bs ++ [b]) ≤ total r (bs ++ [c]).
Proof. intros H. rw !total_file. pose proof (nblk_mono (nbytes b) (nbytes c)). unfold nbytes in *. lia. Qed.

Lemma host_files {A} (m : M W A) w r bs a w' : m w = Ret a w' → host m (at_files w r bs) = Ret a (at_files w' r bs).
Proof. apply host_st. Qed.

Lemma total_le r r' bs cs : nbytes r ≤ nbytes r' → total r bs ≤ total r' (bs ++ cs).
Proof.
  intros Hr. pose proof (nblk_mono (nbytes r) (nbytes r') ltac:(unfold nbytes in *; lia)) as Hm.
  induction cs as [|c cs IH] using rev_ind; [rw app_nil_r; unfold total; lia|].
  rw app_assoc total_file. pose proof (nblk_pos (nbytes c) ltac:(unfold nbytes; lia)). lia.
Qed.

Lemma copy_ok L fd r bs (fuel : nat) : ∀ w b,
  fd ≠ fsfd → holds_files L w r (bs ++ [b]) → (length (inp fd w) < fuel)%nat →
  nbytes (b ++ inp fd w) ≤ MAXBYTES → total r (bs ++ [b ++ inp fd w]) ≤ FSSIZE →
  ∃ w', loopM fuel (copy_body fd (2 + Z.of_nat (length bs))) tt (at_files w r (bs ++ [b])) =
      Ret tt (at_files w' r (bs ++ [b ++ inp fd w])) ∧ holds_files L w' r (bs ++ [b ++ inp fd w]).
Proof.
  induction fuel as [|fuel IH]; intros w b Hfd Hh Hf Hs Ht; [lia|]. cbn [loopM]. unfold copy_body at 2.
  destruct (read_file fd w Hfd) as (d & w1 & E1 & Ei & Hd & Hn & I1).
  rewrite -> (bind_assoc _ _ _ _ _ _ (host_files _ _ _ _ _ _ E1)). cbn [fst snd].
  assert (holds_files L w1 r (bs ++ [b])) as Hh1 by (unfold holds_files in *; by rw I1).
  destruct (Z.ltb_spec 0 (Z.of_nat (length d))) as [Hlt|Hge]; cbn [negb].
  - rw Ei in Hf Hs Ht |- *. rw length_app in Hf. rw app_assoc in Hs Ht |- *.
    destruct (last_append L w1 r bs b d Hh1) as (w2 & E2 & Hw2 & Hh2).
    { unfold nbytes in *. rw length_app in Hs. lia. }
    { etransitivity; [|exact Ht]. apply total_mono. unfold nbytes. rw !length_app. lia. }
    rewrite -> (bind_assoc _ _ _ _ _ _ E2). rewrite <- (proj2 Hw2 fd Hfd) in Hf, Hs, Ht |- *. msimp. apply IH; try done. lia.
  - assert (d = []) as Ed by (destruct d; [done|cbn in Hge; lia]). rw (Hn Ed) app_nil_r. by exists w1.
Qed.

(** The directory entry for the file [arg] with inode [i]. *)
Definition entry (i : Z) (arg : list Z) : list Z :=
  enc_dirent (Dirent (xshort i) (strncpy (replicate 14 0) (unscore (shortname arg)) DIRSIZ)).
Lemma entry_len i arg : length (entry i arg) = 16%nat.
Proof. apply length_enc_dirent. apply (dirlink_name (unscore (shortname arg))). Qed.

Lemma add_file_ok L w r bs fuel arg b :
  holds_files L w r bs → 2 + Z.of_nat (length bs) < NINODES → slash ∉ cstr (shortname arg) → file arg = Some b →
  let r' := r ++ entry (2 + Z.of_nat (length bs)) arg in
  nbytes r' ≤ MAXBYTES → nbytes b ≤ MAXBYTES → total r' (bs ++ [b]) ≤ FSSIZE → (length b < fuel)%nat →
  ∃ w', add_file fuel arg (at_files w r bs) = Ret tt (at_files w' r' (bs ++ [b])) ∧ holds_files L w' r' (bs ++ [b]).
Proof.
  intros Hh Hlt Hsl Hfile r' Hr Hb Ht Hf. unfold add_file. rewrite -> (bool_decide_eq_true_2 (slash ∉ _)) by done.
  cbn [assert_]. msimp. destruct (open_file arg b w Hfile) as (fd & w1 & E1 & Hfd0 & Hfd & Ei & I1).
  rewrite -> (bind_Ret _ _ _ _ _ (host_files _ _ _ _ _ _ E1)). rewrite -> (proj2 (Z.ltb_ge fd 0)) by done.
  assert (holds_files L w1 r bs) as Hh1 by (unfold holds_files in *; by rw I1).
  destruct (new_file L w1 r bs Hh1 Hlt) as (w2 & E2 & Hw2 & Hh2). mstep E2.
  fold (entry (2 + Z.of_nat (length bs)) arg). change rootino with 1.
  destruct (root_append L w2 r (bs ++ [[]]) (entry (2 + Z.of_nat (length bs)) arg) Hh2 Hr) as (w3 & E3 & Hw3 & Hh3).
  { etransitivity; [|exact Ht]. fold r'. apply total_mono. unfold nbytes. cbn. lia. }
  mstep E3. fold r'. assert (inp fd w3 = b) as Ei3 by (by rw (proj2 Hw3) // (proj2 Hw2)).
  destruct (copy_ok L fd r' bs fuel w3 [] Hfd Hh3) as (w4 & E4 & Hh4); rw ?Ei3; try done.
  rw Ei3 in E4 Hh4. mstep E4. destruct (close_file fd w4) as (x & w5 & E5 & I5).
  rewrite -> (bind_Ret _ _ _ _ _ (host_files _ _ _ _ _ _ E5)). exists w5. split; [done|].
  unfold holds_files in *. by rw I5.
Qed.

(** ** main *)

(** The root directory once the files [args] have been added, the first of them
    with inode [i]. *)
Fixpoint entries (i : Z) (args : list (list Z)) : list Z :=
  match args with
  | [] => []
  | arg :: args => entry i arg ++ entries (i + 1) args
  end.

(** The file [arg] can be added: it has no directory in its name, and its
    contents [c] fit an inode. *)
Definition input_ok (fuel : nat) (arg c : list Z) : Prop :=
  (slash ∉ cstr (shortname arg)) ∧ file arg = Some c ∧ nbytes c ≤ MAXBYTES ∧ (length c < fuel)%nat.

Lemma add_files_ok L fuel args : ∀ w r bs cs,
  holds_files L w r bs → 2 + Z.of_nat (length bs + length args) ≤ NINODES →
  Forall2 (input_ok fuel) args cs →
  let r' := r ++ entries (2 + Z.of_nat (length bs)) args in
  nbytes r' ≤ MAXBYTES → total r' (bs ++ cs) ≤ FSSIZE →
  ∃ w', eachM args (add_file fuel) (at_files w r bs) = Ret tt (at_files w' r' (bs ++ cs)) ∧ holds_files L w' r' (bs ++ cs).
Proof.
  induction args as [|arg args IH]; intros w r bs cs Hh Hlt Hall r' Hr Ht.
  { inversion Hall; subst. unfold r'. cbn [entries]. rw !app_nil_r. by exists w. }
  inversion Hall as [|? c ? cs' (H1 & H2 & H3 & H4) Hall']; subst. cbn [eachM entries] in *. cbn [length] in Hlt.
  set (e := entry (2 + Z.of_nat (length bs)) arg) in *.
  assert (r' = (r ++ e) ++ entries (2 + Z.of_nat (length (bs ++ [c]))) args) as Er.
  { unfold r'. rw app_assoc length_app. cbn. do 2 f_equal. lia. }
  rw Er in Hr Ht |- *.
  destruct (add_file_ok L w r bs fuel arg c Hh ltac:(lia) H1 H2) as (w1 & E1 & Hh1); fold e; try done.
  { unfold nbytes in *. rw length_app in Hr. lia. }
  { etransitivity; [|exact Ht]. replace (bs ++ c :: cs') with ((bs ++ [c]) ++ cs') by by rw -app_assoc. apply total_le.
    unfold nbytes. rw (length_app (r ++ e)). lia. }
  fold e in E1, Hh1. mstep E1. replace (bs ++ c :: cs') with ((bs ++ [c]) ++ cs') in * by by rw -app_assoc.
  apply IH; try done. rw length_app. cbn. lia.
Qed.

Lemma zero_sectors fi fb l : ∀ w, (∀ x, x ∈ l → 0 ≤ x < FSSIZE) →
  ∃ w', eachM l (λ i, wsect i zero_block) (st w fi fb) = Ret tt (st w' fi fb) ∧
    ∀ x, img w' !! x = if decide (x ∈ l) then Some zero_block else img w !! x.
Proof.
  induction l as [|y l IH]; intros w Hl.
  { exists w. split; [done|]. intros x. case_decide as Hx; [by apply elem_of_nil in Hx|done]. }
  destruct (wsect_ok w fi fb y zero_block (Hl y ltac:(by left)) eq_refl) as (w1 & E1 & Hw1).
  destruct (IH w1 ltac:(intros x Hx; apply Hl; by right)) as (w2 & E2 & HI).
  exists w2. split; [cbn [eachM]; by mstep E1|]. intros x. rw HI (proj1 Hw1).
  destruct (decide (x ∈ l)) as [Hin|Hout].
  - rw decide_True //. by right.
  - destruct (decide (x = y)) as [->|Hne].
    + rw lookup_insert_eq decide_True //. by left.
    + rw lookup_insert_ne // decide_False //. by intros [?|?]%elem_of_cons.
Qed.

Lemma bitmap_free n x : 0 ≤ n ≤ BPB → 0 ≤ x < BPB →
  bit_free (foldl set_bit zero_block (seqZ 0 n)) x = negb (x <? n).
Proof.
  intros Hn Hx. assert (∃ m : nat, n = Z.of_nat m) as [m ->] by (exists (Z.to_nat n); lia).
  assert (length (foldl set_bit zero_block (seqZ 0 (Z.of_nat m))) = Z.to_nat BSIZE ∧
    bit_free (foldl set_bit zero_block (seqZ 0 (Z.of_nat m))) x = negb (x <? Z.of_nat m)) as [_ E]; [|done].
  induction m as [|m IH].
  { split; [done|]. rewrite -> (proj2 (Z.ltb_ge x _)) by lia. unfold bit_free. change (foldl set_bit zero_block _) with zero_block.
    unfold zget, zero_block. rewrite -> lookup_total_replicate_2 by (unfold BPB, BSIZE in *; zlia). done. }
  destruct (IH ltac:(lia)) as [Hl E]. replace (Z.of_nat (S m)) with (Z.of_nat m + 1) by lia.
  rw seqZ_app; [|lia|lia]. rw foldl_app Z.add_0_l. 
  replace (seqZ (Z.of_nat m) 1) with [Z.of_nat m] by (cbn; f_equal; lia).
  cbn [foldl]. change (set_bit ?b ?i) with (bit_set i b). rewrite -> bit_free_set, E by (done || lia).
  split; [unfold bit_set; by rw length_zset|]. destruct (Z.ltb_spec x (Z.of_nat m)), (Z.ltb_spec x (Z.of_nat m + 1)),
    (Z.eqb_spec (Z.of_nat m) x); done || lia.
Qed.

(** The root directory of the image. *)
Definition root_of (args : list (list Z)) : list Z := (dot (str ".") ++ dot (str "..")) ++ entries 2 args.
Lemma entries_len args i : length (entries i args) = (16 * length args)%nat.
Proof. revert i. induction args as [|a args IH]; intros i; [done|]. cbn [entries length]. rw length_app entry_len IH. lia. Qed.
Lemma root_len args : nbytes (root_of args) = 32 + 16 * Z.of_nat (length args).
Proof. unfold nbytes, root_of. rw !length_app entries_len. cbn. lia. Qed.

(** What the image has: the superblock, the files and the root directory,
    filled up to a whole number of blocks, blocks of their own for them, and the
    bitmap of the blocks in use. *)
Record image_ok (I : image) (r : list Z) (cs : list (list Z)) : Prop := {
  im_sb : dec_superblock (dblock I 1) = sb_of;
  im_root : is_file I (din_at I ROOTINO) (T_DIR, r ++ replicate (Z.to_nat (BSIZE - nbytes r mod BSIZE)) 0);
  im_files (j : nat) c : cs !! j = Some c → is_file I (din_at I (2 + Z.of_nat j)) (T_FILE, c);
  im_blocks : blocks_ok I (2 + Z.of_nat (length cs)) (total r cs) (din_at I);
  im_bitmap x : 0 ≤ x < FSSIZE → bit_free (dblock I (BBLOCK x sb_of)) x = negb (x <? total r cs)
}.

(** The root with its new size, and the bitmap. *)
Lemma contents_grow I A i n :
  sized I A i → di_size (A i) ≤ n ≤ MAXBYTES →
  contents I (set_di_size n (A i)) = contents I (A i) ++ replicate (Z.to_nat (n - di_size (A i))) 0.
Proof.
  intros [s1 s2 s3 s4] Hn. unfold contents, fbytes. cbn [di_size di_addrs set_di_size].
  replace n with (di_size (A i) + (n - di_size (A i))) at 1 by lia. rw seqZ_app; [|lia|lia]. rw fmap_app. f_equal.
  apply list_eq. intros x. rw list_lookup_fmap. destruct (decide (x < Z.to_nat (n - di_size (A i)))%nat) as [Hx|Hx].
  - rw lookup_seqZ_lt; [|lia]. rw lookup_replicate_2 //. cbn. f_equal. apply s4. lia.
  - rw lookup_seqZ_ge; [|lia]. symmetry. apply lookup_ge_None. rw length_replicate. lia.
Qed.

Lemma fix_root_ok w fi fb A L Fs :
  made (img w) fi fb A L Fs → 1 < fi → nbytes (Fs 1).2 + BSIZE ≤ MAXBYTES →
  let n := (nbytes (Fs 1).2 / BSIZE + 1) * BSIZE in
  ∃ w', fix_root (st w fi fb) = Ret tt (st w' fi fb) ∧
    (∀ i, 1 ≤ i < fi → din_at (img w') i = (<[1 := set_di_size n (A 1)]> A : Z → dinode) i) ∧
    (∀ x, nmeta ≤ x ∨ x < 32 → img w' !! x = img w !! x) ∧
    (∀ x, 0 ≤ x < FSSIZE → ∃ b, img w' !! x = Some b ∧ length b = Z.to_nat BSIZE).
Proof.
  intros [Hfi Hfs Ht Hf HL] Hlt Hsz n. assert (1 ≤ 1 < fi) as H1 by lia.
  pose proof (sz_range _ _ _ (proj2 Hfs 1 H1)) as Hs. pose proof MAXBYTES_eq as HM.
  destruct (Hf 1 H1) as (_ & _ & _ & _ & Hc). assert (di_size (A 1) = nbytes (Fs 1).2) as Esz.
  { unfold nbytes. rw -Hc contents_len //. lia. }
  assert (0 ≤ n ≤ MAXBYTES) as Hn by (unfold n, nbytes, BSIZE in *; zlia).
  destruct (rinode_ok w fi fb A 1 (proj1 Hfs) Ht H1 ltac:(lia)) as (w1 & E1 & Hw1). pose proof (proj1 Hw1) as I1.
  destruct (winode_ok w1 fi fb 1 (set_di_size n (A 1))) as (w2 & E2 & _ & D2 & I2 & F2).
  { rw I1. apply (bk_full _ _ _ _ (proj1 Hfs)). } { unfold NINODES. lia. }
  { destruct (bk_din _ _ _ _ (proj1 Hfs) 1 H1) as (? & ? & ? & ? & _ & ? & ?). split_and!; try done. unfold uint_ok. cbn. lia. }
  exists w2. split_and!.
  - unfold fix_root. change rootino with 1. mstep E1. rewrite -> (xint_id (di_size (A 1))) by lia. rw Esz. fold n.
    rewrite -> (u32_small n), (xint_id n) by lia. exact E2.
  - intros i Hi. rw D2; [|lia]. case_decide as E; [by rw E fn_lookup_insert|]. rw fn_lookup_insert_ne // I1. by apply Ht.
  - intros x Hx. by rw I2 // I1.
  - done.
Qed.

Lemma bitmap_len l : length (foldl set_bit zero_block l) = Z.to_nat BSIZE.
Proof.
  assert (length zero_block = Z.to_nat BSIZE) as H by done. revert H. generalize zero_block.
  induction l as [|x l IH]; intros b Hb; [done|]. cbn. apply IH. unfold set_bit. by rw length_zset.
Qed.

Lemma mk_balloc_ok w fi fb :
  0 ≤ fb ≤ FSSIZE → ∃ w', balloc fb (st w fi fb) = Ret tt (st w' fi fb) ∧
    img w' = <[45 := foldl set_bit zero_block (seqZ 0 fb)]> (img w).
Proof.
  pose proof (bitmap_len (seqZ 0 fb)) as Hlen. intros Hfb. unfold balloc. rewrite -> (proj2 (Z.ltb_lt fb _)) by (unfold BSIZE, FSSIZE in *; lia). cbn [assert_]. msimp.
  change (sb_bmapstart (mk_sb (st w fi fb))) with 45.
  destruct (wsect_ok w fi fb 45 (foldl set_bit zero_block (seqZ 0 fb))) as (w' & E & Hw & _); [unfold FSSIZE; lia|done|by exists w'].
Qed.

Section finish.
Context (I I' : image) (fi fb : Z) (A : Z → dinode) (L : image) (r : list Z) (cs : list (list Z)).
Context (Hm : made I fi fb A L (files_of r cs)) (Hfi : fi = 2 + Z.of_nat (length cs)) (Hfb : fb = total r cs).
Context (Hr : nbytes r + BSIZE ≤ MAXBYTES) (HL : dec_superblock (dblock L 1) = sb_of).
#[local] Abbreviation n := ((nbytes r / BSIZE + 1) * BSIZE).
#[local] Abbreviation A' := (<[1 := set_di_size n (A 1)]> A).
Context (HD : ∀ i, 1 ≤ i < fi → din_at I' i = A' i).
Context (HI : ∀ x, nmeta ≤ x ∨ x < 32 → I' !! x = I !! x).
Context (Hfull : ∀ x, 0 ≤ x < FSSIZE → ∃ b, I' !! x = Some b ∧ length b = Z.to_nat BSIZE).

Lemma finish_contents i : 1 ≤ i < fi → contents I' (A i) = (files_of r cs i).2.
Proof.
  intros Hi. destruct (md_files _ _ _ _ _ _ Hm i Hi) as (_ & _ & _ & _ & <-).
  destruct (md_fs _ _ _ _ _ _ Hm) as [Hb Hs]. pose proof (sz_range _ _ _ (Hs i Hi)).
  apply contents_ext; [done|lia|]. intros bn Hbn. eapply ext_icontent; try done. intros x Hx. apply HI. by left.
Qed.

Lemma finish_root : is_file I' (din_at I' ROOTINO) (T_DIR, r ++ replicate (Z.to_nat (BSIZE - nbytes r mod BSIZE)) 0).
Proof.
  assert (1 ≤ 1 < fi) as H1 by lia. destruct (md_fs _ _ _ _ _ _ Hm) as [Hb Hs]. pose proof (sz_range _ _ _ (Hs 1 H1)) as Hr1.
  destruct (md_files _ _ _ _ _ _ Hm 1 H1) as (F1 & F2 & F3 & F4 & F5). rewrite -> HD, fn_lookup_insert by done.
  split_and!; try done. rw (contents_grow I' A 1).
  - rw finish_contents //. cbn [snd files_of Z.eqb Pos.eqb]. f_equal. f_equal. f_equal.
    rw -(contents_len I (A 1)); [|lia]. rw F5. cbn. fold (nbytes r). unfold BSIZE. zlia.
  - exact (ext_sized I I' fi fb A A (λ x Hx, HI x (or_introl Hx)) (λ _ _, eq_refl) Hb 1 H1 (Hs 1 H1)).
  - rw -(contents_len I (A 1)); [|lia]. rw F5. cbn. fold (nbytes r). pose proof Hr as Hr2. rw MAXBYTES_eq in Hr2 *. unfold nbytes, BSIZE in *. zlia.
Qed.

Lemma finish_image : (∀ x, 0 ≤ x < BPB → bit_free (dblock I' 45) x = negb (x <? fb)) → image_ok I' r cs.
Proof.
  intros Hbm. destruct (md_fs _ _ _ _ _ _ Hm) as [Hb Hs]. assert (1 ≤ 1 < fi) as H1 by lia. split.
  - unfold dblock in *. rw HI; [|by right]. rw (md_low _ _ _ _ _ _ Hm) //.
  - exact finish_root.
  - intros j c Hj. assert (j < length cs)%nat as Hlt by by eapply lookup_lt_Some.
    assert (1 ≤ 2 + Z.of_nat j < fi) as Hi by lia. rw HD // fn_lookup_insert_ne; [|lia].
    destruct (md_files _ _ _ _ _ _ Hm _ Hi) as (F1 & F2 & F3 & F4 & _). unfold is_file. rw finish_contents //.
    revert F1. unfold files_of. rewrite -> (proj2 (Z.eqb_neq _ 1)) by lia. cbn [fst snd].
    replace (Z.to_nat (2 + Z.of_nat j - 2)) with j by lia. by rw (list_lookup_total_correct _ _ _ Hj).
  - rw -Hfi -Hfb. eapply ext_blocks; [|done|exact HD|]; [intros x Hx; apply HI; by left|]. apply resize_blocks; [|done].
    pose proof Hr as Hr2. rw MAXBYTES_eq in Hr2. unfold nbytes, BSIZE in *. zlia.
  - intros x Hx. unfold BBLOCK. change (sb_bmapstart sb_of) with 45. unfold FSSIZE, BPB, BSIZE in *.
    replace (u32 (x / (1024 * 8) + 45)) with 45 by (rewrite -> u32_small by zlia; zlia). rw -Hfb. apply Hbm. lia.
Qed.
End finish.

Lemma finish_ok L w r cs :
  holds_files L w r cs → nbytes r + BSIZE ≤ MAXBYTES → dec_superblock (dblock L 1) = sb_of →
  ∃ s', (fix_root ;; b ← gets mk_freeblock; balloc b ;; stop_with (Exit 0)) (at_files w r cs) = (Stop (Exit 0) s' : outcome _ unit) ∧
    image_ok (img (mk_world s')) r cs.
Proof.
  intros [A Hm] Hr HL. pose proof (bk_fb _ _ _ _ (proj1 (md_fs _ _ _ _ _ _ Hm))) as Hfb. pose proof nmeta_eq as Hnm.
  destruct (fix_root_ok w _ _ A L _ Hm ltac:(lia) Hr) as (w1 & E1 & D1 & I1 & F1). cbn [snd files_of Z.eqb Pos.eqb] in D1.
  destruct (mk_balloc_ok w1 (2 + Z.of_nat (length cs)) (total r cs) ltac:(lia)) as (w2 & E2 & I2).
  exists (st w2 (2 + Z.of_nat (length cs)) (total r cs)). split.
  { unfold at_files. mstep E1. msimp. change (mk_freeblock (st w1 _ _)) with (total r cs). by mstep E2. }
  change (mk_world (st w2 _ _)) with w2. eapply (finish_image (img w) (img w2)); try done.
  - intros i Hi. rw -D1 //. unfold din_at. destruct (IBLOCK_sb i) as [_ Hib]; [pose proof (md_fi _ _ _ _ _ _ Hm); lia|].
    rw I2 dblock_insert decide_False //. lia.
  - intros x Hx. rw I2 lookup_insert_ne; [|lia]. by apply I1.
  - intros x Hx. rw I2. destruct (decide (x = 45)) as [->|Hne]; [|rw lookup_insert_ne //; by apply F1].
    rw lookup_insert_eq. eexists. split; [done|]. apply bitmap_len.
  - intros x Hx. rw I2 dblock_insert. case_decide; [|done]. apply bitmap_free; [unfold BPB, BSIZE, FSSIZE in *; lia|done].
Qed.

(** The image after the superblock: zeros, and no inode. *)
Lemma made_empty I A Fs :
  (∀ x, 0 ≤ x < FSSIZE → I !! x = Some (if decide (x = 1) then bsplice zero_block 0 (enc_superblock sb_of) else zero_block)) →
  made I 1 nmeta A I Fs.
Proof.
  intros HI. pose proof nmeta_eq as Hnm. split; [unfold NINODES; lia| |intros i Hi; lia|intros i Hi; lia|done].
  split; [split|intros i Hi; lia]; try (intros; lia).
  - intros x Hx. rw HI //. eexists. split; [done|]. by case_decide; vm_compute.
  - rw Hnm. unfold FSSIZE. lia.
  - intros x Hx. unfold dblock. rw HI; [|lia]. rw decide_False //. lia.
Qed.

Lemma mk_start_ok w : ∃ L w1 w2 w3,
  eachM (seqZ 0 FSSIZE) (λ i, wsect i zero_block) (st w 1 nmeta) = Ret tt (st w1 1 nmeta) ∧
  wsect 1 (bsplice zero_block 0 (enc_superblock sb_of)) (st w1 1 nmeta) = Ret tt (st w2 1 nmeta) ∧
  ialloc T_DIR (st w2 1 nmeta) = Ret 1 (at_files w3 [] []) ∧
  holds_files L w3 [] [] ∧ dec_superblock (dblock L 1) = sb_of.
Proof.
  destruct (zero_sectors 1 nmeta (seqZ 0 FSSIZE) w) as (w1 & E1 & I1).
  { intros x Hx. apply elem_of_seqZ in Hx. lia. }
  destruct (wsect_ok w1 1 nmeta 1 (bsplice zero_block 0 (enc_superblock sb_of))) as (w2 & E2 & I2 & _); [by vm_compute..|].
  assert (made (img w2) 1 nmeta (λ _, new_dinode 0) (img w2) (λ _, (0, []))) as Hm.
  { apply made_empty. intros x Hx. rw I2. case_decide as E; [by rw E lookup_insert_eq|]. rw lookup_insert_ne // I1.
    rewrite -> decide_True by (apply elem_of_seqZ; lia). done. }
  destruct (ialloc_ok w2 1 nmeta _ _ _ T_DIR Hm) as (w3 & A & E3 & _ & Hm3); [by vm_compute..|].
  exists (img w2), w1, w2, w3. split_and!; try done.
  - exists A. eapply made_ext; [|exact Hm3]. intros i Hi. assert (i = 1) as -> by (cbn in Hi; lia). by rw fn_lookup_insert.
  - unfold dblock. rw I2 lookup_insert_eq. by vm_compute.
Qed.

(** *** The root as a directory *)

(** The in-memory inode that [ilock] makes of [d]. *)
Definition inode_of (inum : Z) (d : dinode) : inode :=
  Inode ROOTDEV inum 1 1 (di_type d) (di_major d) (di_minor d) (di_nlink d) (di_size d) (di_addrs d).
(** The map of the root directory. *)
Fixpoint names (i : Z) (args : list (list Z)) : list (list Z * Z) :=
  match args with
  | [] => []
  | arg :: args => (dirname (unscore (shortname arg)), i) :: names (i + 1) args
  end.
Definition root_names (args : list (list Z)) : list (list Z * Z) := (str ".", 1) :: (str "..", 1) :: names 2 args.

Lemma fbytes_slice vw addrs off m n : 0 ≤ off → 0 ≤ m → off + m ≤ n →
  fbytes vw addrs off m = bslice (fbytes vw addrs 0 n) off m.
Proof.
  intros Ho Hm Hn. unfold fbytes, bslice. rw -fmap_drop -fmap_take. f_equal.
  replace n with (off + (m + (n - off - m))) by lia. rw seqZ_app; [|lia|lia].
  rewrite -> drop_app_length' by (rw length_seqZ; lia). rw seqZ_app; [|lia|lia].
  by rewrite -> take_app_length' by (rw length_seqZ; lia).
Qed.

Definition dirent_ok (de : dirent) : Prop := 0 ≤ de_inum de < 65536 ∧ length (de_name de) = 14%nat.
Lemma slice_entries des : Forall dirent_ok des → ∀ (i : nat) de, des !! i = Some de →
  dec_dirent (bslice (concat (enc_dirent <$> des)) (Z.of_nat i * sizeof_dirent) sizeof_dirent) = de.
Proof.
  unfold sizeof_dirent. induction 1 as [|de des [H1 H2] _ IH]; intros i de' Hi; [done|].
  pose proof (length_enc_dirent de H2) as Hl. cbn [fmap list_fmap concat]. destruct i as [|i].
  - injection Hi as <-. rw bslice_hd; [|by rw Hl]. rw -(app_nil_r (enc_dirent de)). by apply dec_enc_dirent.
  - rw (bslice_skip _ _ _ _ 16); [|by rw Hl|lia]. replace (Z.of_nat (S i) * 16 - 16) with (Z.of_nat i * 16) by lia.
    by apply IH.
Qed.

Lemma dents_entries I d inum des :
  Forall dirent_ok des → 0 ≤ di_size d → contents I d = concat (enc_dirent <$> des) →
  dents (dblock I) (inode_of inum d) = des.
Proof.
  intros Hdes Hs Hc. assert (di_size d = 16 * Z.of_nat (length des)) as Hsz.
  { rw -(contents_len I d) // Hc. clear -Hdes. induction Hdes as [|de des [_ H] _ IH]; [done|]. rw fmap_cons. cbn [concat].
    rw length_app length_enc_dirent //. cbn [length]. lia. }
  unfold dents, dent. cbn [i_size i_addrs inode_of]. rw Hsz.
  replace (16 * Z.of_nat (length des) / sizeof_dirent) with (Z.of_nat (length des)) by (unfold sizeof_dirent; zlia).
  apply list_eq. intros i. rw list_lookup_fmap. destruct (des !! i) as [de|] eqn:Ei.
  - pose proof (lookup_lt_Some _ _ _ Ei) as Hlt. rw lookup_seqZ_lt; [|lia]. cbn. f_equal.
    rw (fbytes_slice _ _ _ _ (di_size d)); [|unfold sizeof_dirent; lia..]. fold (contents I d). rw Hc. by apply slice_entries.
  - apply lookup_ge_None in Ei. rw lookup_seqZ_ge //. lia.
Qed.

Fixpoint root_entries (i : Z) (args : list (list Z)) : list dirent :=
  match args with
  | [] => []
  | arg :: args => Dirent i (strncpy (replicate 14 0) (unscore (shortname arg)) DIRSIZ) :: root_entries (i + 1) args
  end.
Definition root_dirents (args : list (list Z)) : list dirent :=
  Dirent 1 (str "." ++ replicate 13 0) :: Dirent 1 (str ".." ++ replicate 12 0) :: root_entries 2 args.

Lemma xshort_id x : 0 ≤ x < 65536 → xshort x = x.
Proof.
  intros Hx. unfold xshort, u8. rw !Z.shiftr_div_pow2; [|lia..]. cbn [le_dec]. change (2 ^ 8) with 256. zlia.
Qed.

Lemma root_entries_ok args : ∀ i, 0 < i → i + Z.of_nat (length args) ≤ 65536 →
  entries i args = concat (enc_dirent <$> root_entries i args) ∧ Forall dirent_ok (root_entries i args) ∧
  bindings (root_entries i args) = names i args.
Proof.
  induction args as [|arg args IH]; intros i Hi Hl; [done|]. cbn [length] in Hl.
  destruct (IH (i + 1) ltac:(lia) ltac:(lia)) as (H1 & H2 & H3). destruct (dirlink_name (unscore (shortname arg))) as [Hn1 Hn2].
  cbn [entries root_entries names fmap list_fmap concat]. split_and!.
  - unfold entry. rw xshort_id; [|lia]. by rw H1.
  - constructor; [|done]. split; [cbn; lia|done].
  - rw bindings_cons. cbn [de_inum de_name]. rw decide_True; [|lia]. by rw Hn2 H3.
Qed.

Lemma root_dirents_ok args : Z.of_nat (length args) ≤ 198 →
  root_of args = concat (enc_dirent <$> root_dirents args) ∧ Forall dirent_ok (root_dirents args) ∧
  bindings (root_dirents args) = root_names args.
Proof.
  intros Hl. destruct (root_entries_ok args 2 ltac:(lia) ltac:(lia)) as (H1 & H2 & H3). unfold root_of, root_dirents, root_names. split_and!.
  - rw H1. cbn [fmap list_fmap concat]. rw -app_assoc. done.
  - constructor; [by vm_compute|]. constructor; [by vm_compute|done].
  - rw !bindings_cons H3. done.
Qed.

Lemma zero_entries (m : nat) :
  replicate (16 * m) 0 = concat (enc_dirent <$> replicate m (Dirent 0 (replicate 14 0))) ∧
  Forall dirent_ok (replicate m (Dirent 0 (replicate 14 0))) ∧ bindings (replicate m (Dirent 0 (replicate 14 0))) = [].
Proof.
  induction m as [|m (H1 & H2 & H3)]; [done|]. cbn [replicate fmap list_fmap concat]. split_and!.
  - rw -H1. replace (16 * S m)%nat with (16 + 16 * m)%nat by lia. by rw replicate_add.
  - constructor; [by vm_compute|done].
  - by rw bindings_cons H3.
Qed.

(** Looked at as the kernel looks at directories, the root is the map of the
    names. *)
Lemma root_dir I args cs :
  image_ok I (root_of args) cs → Z.of_nat (length args) ≤ 198 →
  dir (dblock I) (inode_of ROOTINO (din_at I ROOTINO)) = list_to_map (root_names args).
Proof.
  intros [_ (_ & _ & _ & _ & Hc) _ Hb _] Hl. destruct (root_dirents_ok args Hl) as (H1 & H2 & H3).
  pose proof (root_len args) as Hrl. cbn [snd] in Hc.
  set (m := Z.to_nat ((BSIZE - nbytes (root_of args) mod BSIZE) / 16)).
  assert (Z.to_nat (BSIZE - nbytes (root_of args) mod BSIZE) = (16 * m)%nat) as Em.
  { unfold m. rw Hrl. unfold BSIZE. zlia. }
  destruct (zero_entries m) as (Z1 & Z2 & Z3). rw Em Z1 H1 -concat_app -fmap_app in Hc.
  unfold dir. rw (dents_entries I _ ROOTINO _ _ _ Hc) ?bindings_app ?H3 ?Z3 ?app_nil_r //; [by apply Forall_app|].
  destruct (bk_din _ _ _ _ Hb 1) as (_ & _ & _ & _ & Hs & _); [lia|]. apply Hs.
Qed.

(** C15. mkfs makes a file system. Given the files [args] with contents [cs],
    [main] exits with status 0 and leaves an image that has the superblock;
    where the root directory, inode 1, consists of entries for itself and for
    each file, and inode [2 + j] is the [j]-th file with its contents, read as
    the kernel reads them; where no two files share a block; and whose bitmap
    marks as used exactly the blocks before the first free one. It needs no
    more than that the files fit their inodes, the inode table and the disk. *)
Theorem mkfs_image fuel image_name args cs w sb fb0 fd0 :
  Forall2 (input_ok fuel) args cs → Z.of_nat (length args) ≤ NINODES - 2 → total (root_of args) cs ≤ FSSIZE →
  ∃ s', main fuel (image_name :: args) (Mkst fd0 sb 1 fb0 w) = Stop (Exit 0) s' ∧
    image_ok (img (mk_world s')) (root_of args) cs ∧
    dir (dblock (img (mk_world s'))) (inode_of ROOTINO (din_at (img (mk_world s')) ROOTINO)) = list_to_map (root_names args).
Proof.
  intros Hall Hn Ht. pose proof (root_len args) as Hrl. pose proof MAXBYTES_eq as HM. unfold NINODES in *.
  destruct (open_image image_name w) as (w0 & E0 & I0). pose proof h_fsfd as Hfd.
  destruct (mk_start_ok w0) as (L & x1 & x2 & w1 & S1 & S2 & E1 & Hh1 & HL).
  assert (∀ r, nbytes r ≤ nbytes (root_of args) → nbytes r ≤ MAXBYTES ∧ total r [] ≤ FSSIZE) as Hfit.
  { intros r Hr. split; [lia|]. etransitivity; [|exact Ht]. exact (total_le r (root_of args) [] cs Hr). }
  assert (nbytes (dot (str ".")) = 16 ∧ nbytes (dot (str ".") ++ dot (str "..")) = 32) as [D1 D2] by by vm_compute.
  destruct (root_append L w1 [] [] (dot (str ".")) Hh1) as (w2 & E2 & _ & Hh2); [apply Hfit; rw Hrl D1; lia..|].
  destruct (root_append L w2 (dot (str ".")) [] (dot (str "..")) Hh2) as (w3 & E3 & _ & Hh3); [apply Hfit; rw Hrl D2; lia..|].
  destruct (add_files_ok L fuel args w3 (dot (str ".") ++ dot (str "..")) [] cs Hh3) as (w4 & E4 & Hh4);
    change (2 + Z.of_nat (length [])) with 2 in *; fold (root_of args) in *.
  { unfold NINODES. cbn [length]. lia. } { done. } { lia. } { done. }
  destruct (finish_ok L w4 (root_of args) cs Hh4) as (s' & E5 & Hok); [unfold BSIZE; lia|done|].
  exists s'. split; [|split; [exact Hok|apply (root_dir _ _ _ Hok); lia]]. unfold main.
  assert (host (open image_name O_RDWR_CREAT_TRUNC) (Mkst fd0 sb 1 fb0 w) = Ret fsfd (Mkst fd0 sb 1 fb0 w0)) as EO.
  { unfold host, zoom. cbn. by rw E0. }
  mstep EO. unfold set_fsfd. msimp.
  rewrite -> (proj2 (Z.ltb_ge fsfd 0)) by done. unfold set_sb, set_freeblock. msimp.
  cbn [mk_fsfd mk_sb mk_freeinode mk_freeblock mk_world]. change (Mkst fsfd sb_of 1 nmeta w0) with (st w0 1 nmeta).
  mstep S1. mstep S2. mstep E1. change (1 =? ROOTINO) with true. cbn [assert_]. msimp.
  mstep E2. mstep E3. mstep E4. exact E5.
Qed.
End host.

(** *** A host with one file, for the witness *)

Record hostw : Type := Hostw { hw_pos : Z; hw_img : image; hw_in : list Z }.
Definition hw_file (path : list Z) : option (list Z) :=
  if decide (path = str "user/_cat") then Some [1; 2; 3] else None.
Definition hw_open (path : list Z) (flags : Z) : M hostw Z := λ w,
  if flags =? 578 then Ret 3 (Hostw 0 ∅ (hw_in w))
  else match hw_file path with
       | Some b => Ret 4 (Hostw (hw_pos w) (hw_img w) b)
       | None => Ret (-1) w
       end.
Definition hw_read (fd n : Z) : M hostw (Z * list Z) := λ w,
  if fd =? 3 then
    match hw_img w !! (hw_pos w / BSIZE) with
    | Some b => Ret (BSIZE, b) (Hostw (hw_pos w + BSIZE) (hw_img w) (hw_in w))
    | None => Ret (0, []) w
    end
  else if fd =? 4 then
    let d := take (Z.to_nat n) (hw_in w) in
    Ret (Z.of_nat (length d), d) (Hostw (hw_pos w) (hw_img w) (drop (Z.to_nat n) (hw_in w)))
  else Ret (0, []) w.
Definition hw_write (fd : Z) (bs : list Z) : M hostw Z := λ w,
  if fd =? 3 then Ret (Z.of_nat (length bs)) (Hostw (hw_pos w + BSIZE) (<[hw_pos w / BSIZE := bs]> (hw_img w)) (hw_in w))
  else Ret (-1) w.
#[local] Instance host_unix : Unix hostw := {|
  fork := mret (-1); wait := mret (-1, 0); pipe := mret (-1, 0, 0);
  read := hw_read; write := hw_write; close := λ _, mret 0; kill := λ _, mret (-1);
  exec := λ _ _, mret (-1); open := hw_open; mknod := λ _ _ _, mret (-1);
  unlink := λ _, mret (-1); fstat := λ _, mret (-1, Ustat 0 0 0 0 0); link := λ _ _, mret (-1);
  mkdir := λ _, mret (-1); chdir := λ _, mret (-1); dup := λ _, mret (-1); getpid := mret 1;
  sbrk := λ _, mret (-1); sleep := λ _, mret 0; uptime := mret 0
|}.
#[local] Instance host_posix : Posix hostw := {|
  posix_unix := host_unix;
  lseek := λ fd off _ w, if fd =? 3 then Ret off (Hostw off (hw_img w) (hw_in w)) else Ret (-1) w;
  O_RDWR_CREAT_TRUNC := 578
|}.
Definition hw_inp (fd : Z) (w : hostw) : list Z := if fd =? 4 then hw_in w else [].

#[local] Instance host_ok : Host 3 hw_pos hw_img hw_file hw_inp.
Proof.
  split.
  - done.
  - intros path w. by eexists.
  - intros off w Hoff. by eexists.
  - intros sec bs w Hp Hl. eexists. cbn. unfold hw_write. cbn [Z.eqb Pos.eqb]. rw Hl. split; [done|]. split; [|done].
    cbn. rw Hp Z.div_mul //.
  - intros sec bs w Hp Hb Hl. cbn. unfold hw_read. cbn [Z.eqb Pos.eqb]. rw Hp Z.div_mul // Hb. by eexists.
  - intros path bs w Hf. exists 4, (Hostw (hw_pos w) (hw_img w) bs). cbn. unfold hw_open. cbn [Z.eqb]. by rw Hf.
  - intros fd w Hfd. cbn. unfold hw_read, hw_inp. rewrite -> (proj2 (Z.eqb_neq fd 3)) by done.
    destruct (fd =? 4); [|by exists [], w]. eexists _, _. split; [done|]. cbn [hw_in]. rw take_drop. split_and!; [done| | |done].
    + rw length_take. unfold BSIZE. lia.
    + intros E. destruct (hw_in w); [done|]. done.
  - intros fd w. by eexists _, _.
Qed.

Lemma mkfs_image_witness :
  ∃ s', main 10 [str "fs.img"; str "user/_cat"] (Mkst 0 sb_of 1 0 (Hostw 0 ∅ [])) = Stop (Exit 0) s' ∧
    is_file (hw_img (mk_world s')) (din_at (hw_img (mk_world s')) 2) (T_FILE, [1; 2; 3]) ∧
    dir (dblock (hw_img (mk_world s'))) (inode_of ROOTINO (din_at (hw_img (mk_world s')) ROOTINO)) !! str "cat" = Some 2.
Proof.
  destruct (mkfs_image (fsfd := 3) (pos := hw_pos) (img := hw_img) (file := hw_file) (inp := hw_inp)
    10 (str "fs.img") [str "user/_cat"] [[1; 2; 3]] (Hostw 0 ∅ []) sb_of 0 0) as (s' & E & Hok & Hdir).
  - constructor; [|constructor]. split; [|split; [done|split; [by vm_compute|by apply Nat.ltb_lt]]].
    apply (bool_decide_eq_true_1 (slash ∉ cstr (shortname (str "user/_cat")))). by vm_compute.
  - by vm_compute.
  - by vm_compute.
  - exists s'. split; [exact E|]. split; [exact (im_files _ _ _ Hok 0%nat [1; 2; 3] eq_refl)|].
    rewrite -> Hdir. by vm_compute.
Defined.
