(* ===== verification/Machine.v ===== *)
(** * The machine: registers, control registers and instructions

    What the assembly and the machine-mode code of the kernel work on: the
    general registers, the control and status registers (CSRs), memory as
    64-bit words by physical address, the program counter and the privilege.
    [instr] has the instructions that the assembly files use; a routine is the
    list of its instructions as written. The fetch of instructions is not
    modelled. *)

From stdpp Require Import functions.
From S2P Require Import Prelude Riscv.
Open Scope Z_scope.

Inductive csr : Type :=
| MHARTID | MSTATUS | MEPC | SATP | MEDELEG | MIDELEG | SIE | SIP | PMPADDR0 | PMPCFG0
| MSCRATCH | MTVEC | MIE | SSCRATCH | SEPC | SSTATUS | STVEC.
#[export] Instance csr_eq_dec : EqDecision csr.
Proof. solve_decision. Defined.

(** The general registers by their names in the calling convention; [zero] is
    not among them. *)
Inductive reg : Type :=
| RA | SP | GP | TP | T0 | T1 | T2 | S0 | S1 | A0 | A1 | A2 | A3 | A4 | A5 | A6 | A7
| S2 | S3 | S4 | S5 | S6 | S7 | S8 | S9 | S10 | S11 | T3 | T4 | T5 | T6.
#[export] Instance reg_eq_dec : EqDecision reg.
Proof. solve_decision. Defined.

(** [m_priv] is the privilege: 3 machine, 1 supervisor, 0 user. *)
Record mach : Type := Mach {
  m_csr : csr → Z;
  m_reg : reg → Z;
  m_mem : gmap Z Z;
  m_pc : Z;
  m_priv : Z
}.
Abbreviation MC := (M mach).

Definition csrr (c : csr) : MC Z := gets (λ s, m_csr s c).
Definition csrw (c : csr) (v : Z) : MC unit :=
  modify (λ s, Mach (<[c := v]> (m_csr s)) (m_reg s) (m_mem s) (m_pc s) (m_priv s)).
Definition get_reg (r : reg) : MC Z := gets (λ s, m_reg s r).
Definition set_reg (r : reg) (v : Z) : MC unit :=
  modify (λ s, Mach (m_csr s) (<[r := v]> (m_reg s)) (m_mem s) (m_pc s) (m_priv s)).
Definition ld (a : Z) : MC Z := gets (λ s, default 0 (m_mem s !! a)).
Definition sd (a v : Z) : MC unit :=
  modify (λ s, Mach (m_csr s) (m_reg s) (<[a := v]> (m_mem s)) (m_pc s) (m_priv s)).

Definition set_pc (pc : Z) : MC unit := modify (λ s, Mach (m_csr s) (m_reg s) (m_mem s) pc (m_priv s)).

(** ** Returning from a trap *)

Definition MPP_MASK : Z := Z.shiftl 3 11.
Definition MPIE : Z := Z.shiftl 1 7.
Definition MIE_BIT : Z := Z.shiftl 1 3.
(** MPP of [mstatus], SPP of [sstatus]: the privilege before the trap. *)
Definition mpp (st : Z) : Z := Z.land (Z.shiftr st 11) 3.
Definition spp (st : Z) : Z := Z.b2z (Z.testbit st 8).

(** [mret]: the privilege from MPP, the address from [mepc], MIE from MPIE. *)
Definition mret_instr : MC unit := modify (λ s,
  let st := m_csr s MSTATUS in
  let mie := Z.shiftl (Z.b2z (Z.testbit st 7)) 3 in
  let st' := Z.lor (Z.lor (Z.land st (Z.lnot (Z.lor MPP_MASK (Z.lor MIE_BIT MPIE)))) mie) MPIE in
  Mach (<[MSTATUS := st']> (m_csr s)) (m_reg s) (m_mem s) (m_csr s MEPC) (mpp st)).
(** [sret]: the same one level below, with SPP (bit 8), SPIE (5) and SIE (1). *)
Definition sret_instr : MC unit := modify (λ s,
  let st := m_csr s SSTATUS in
  let sie := Z.shiftl (Z.b2z (Z.testbit st 5)) 1 in
  let st' := Z.lor (Z.lor (Z.land st (Z.lnot (Z.lor (Z.shiftl 1 8) (Z.lor (Z.shiftl 1 1) (Z.shiftl 1 5))))) sie) (Z.shiftl 1 5) in
  Mach (<[SSTATUS := st']> (m_csr s)) (m_reg s) (m_mem s) (m_csr s SEPC) (spp st)).

(** A trap to machine mode: [mepc], MPP and MPIE get the address, the privilege
    and MIE, and the hart goes on at [mtvec] with machine interrupts off. *)
Definition trap_m (s : mach) : mach :=
  let st := m_csr s MSTATUS in
  let clear := Z.lnot (Z.lor MPP_MASK (Z.lor MIE_BIT MPIE)) in
  let st' := Z.lor (Z.lor (Z.land st clear) (Z.shiftl (m_priv s) 11)) (Z.shiftl (Z.b2z (Z.testbit st 3)) 7) in
  Mach (<[MEPC := m_pc s]> (<[MSTATUS := st']> (m_csr s))) (m_reg s) (m_mem s) (m_csr s MTVEC) 3.
(** A trap to supervisor mode. *)
Definition trap_s (s : mach) : mach :=
  let st := m_csr s SSTATUS in
  let clear := Z.lnot (Z.lor (Z.shiftl 1 8) (Z.lor (Z.shiftl 1 1) (Z.shiftl 1 5))) in
  let st' := Z.lor (Z.lor (Z.land st clear) (Z.shiftl (m_priv s) 8)) (Z.shiftl (Z.b2z (Z.testbit st 1)) 5) in
  Mach (<[SEPC := m_pc s]> (<[SSTATUS := st']> (m_csr s))) (m_reg s) (m_mem s) (m_csr s STVEC) 1.

(** ** Instructions *)

Inductive instr : Type :=
| Sd (rs : reg) (off : Z) (b : reg)       (** [sd rs, off(b)] *)
| Ld (rd : reg) (off : Z) (b : reg)
| Li (rd : reg) (imm : Z)                 (** also [la] *)
| Addi (rd rs : reg) (imm : Z)
| Add (rd x y : reg)
| Mul (rd x y : reg)
| Csrr (rd : reg) (c : csr)
| Csrw (c : csr) (rs : reg)
| Csrrw (rd : reg) (c : csr) (rs : reg)
| SfenceVma
| Jr (rs : reg)                           (** [ret] is [jr ra] *)
| Sret
| Mret.

(** [mmu satp va] is the physical address of [va], when the page table of
    [satp] maps it for the supervisor. *)
Create Rewrite HintDb instr.
(** A closed decidable goal, by computation. *)
Ltac by_decide := apply (bool_decide_unpack _); vm_compute; exact I.
(** Registers of an updated register file. *)
Ltac lookups := repeat (rewrite -> fn_lookup_insert || rewrite -> fn_lookup_insert_ne by done).

Section exec.
Context (mmu : Z → Z → option Z).

Definition pa_of (c : csr → Z) (priv va : Z) : option Z := if priv =? 3 then Some va else mmu (c SATP) va.
Definition translate (va : Z) : MC Z := λ s,
  match pa_of (m_csr s) (m_priv s) va with Some pa => Ret pa s | None => fault s end.

Definition exec (i : instr) : MC unit :=
  match i with
  | Sd rs off b => a ← get_reg b; a ← translate (u64 (a + off)); v ← get_reg rs; sd a v
  | Ld rd off b => a ← get_reg b; a ← translate (u64 (a + off)); v ← ld a; set_reg rd v
  | Li rd imm => set_reg rd (u64 imm)
  | Addi rd rs imm => v ← get_reg rs; set_reg rd (u64 (v + imm))
  | Add rd x y => v ← get_reg x; w ← get_reg y; set_reg rd (u64 (v + w))
  | Mul rd x y => v ← get_reg x; w ← get_reg y; set_reg rd (u64 (v * w))
  | Csrr rd c => v ← csrr c; set_reg rd v
  | Csrw c rs => v ← get_reg rs; csrw c v
  | Csrrw rd c rs => old ← csrr c; v ← get_reg rs; csrw c v ;; set_reg rd old
  | SfenceVma => mret tt
  | Jr rs => v ← get_reg rs; set_pc v
  | Sret => sret_instr
  | Mret => mret_instr
  end.
Fixpoint exec_all (l : list instr) : MC unit :=
  match l with [] => mret tt | i :: l => exec i ;; exec_all l end.

(** *** One step at a time *)

Lemma exec_all_app l l' c r m pc pv s :
  exec_all l (Mach c r m pc pv) = Ret tt s → exec_all (l ++ l') (Mach c r m pc pv) = exec_all l' s.
Proof.
  revert c r m pc pv. induction l as [|i l IH]; intros c r m pc pv E; [by injection E as <-|].
  cbn [exec_all app] in *. unfold mbind, M_bind in *. destruct (exec i (Mach c r m pc pv)) as [[] [c' r' m' pc' pv']| |]; try done.
  by apply IH.
Qed.

Section step.
Context (l : list instr) (c : csr → Z) (r : reg → Z) (m : gmap Z Z) (pc pv : Z).
Lemma ex_nil : exec_all [] (Mach c r m pc pv) = Ret tt (Mach c r m pc pv).
Proof. done. Qed.
Lemma ex_Sd rs off b pa : pa_of c pv (u64 (r b + off)) = Some pa →
  exec_all (Sd rs off b :: l) (Mach c r m pc pv) = exec_all l (Mach c r (<[pa := r rs]> m) pc pv).
Proof.
  intros E. cbn [exec_all exec]. unfold mbind, M_bind, get_reg, gets, translate, sd, modify. cbn. by rewrite -> E.
Qed.
Lemma ex_Ld rd off b pa : pa_of c pv (u64 (r b + off)) = Some pa →
  exec_all (Ld rd off b :: l) (Mach c r m pc pv) = exec_all l (Mach c (<[rd := default 0 (m !! pa)]> r) m pc pv).
Proof.
  intros E. cbn [exec_all exec]. unfold mbind, M_bind, get_reg, gets, translate, ld, set_reg, modify. cbn. by rewrite -> E.
Qed.
Lemma ex_Li rd imm :
  exec_all (Li rd imm :: l) (Mach c r m pc pv) = exec_all l (Mach c (<[rd := u64 imm]> r) m pc pv).
Proof. done. Qed.
Lemma ex_Addi rd rs imm :
  exec_all (Addi rd rs imm :: l) (Mach c r m pc pv) = exec_all l (Mach c (<[rd := u64 (r rs + imm)]> r) m pc pv).
Proof. done. Qed.
Lemma ex_Add rd x y :
  exec_all (Add rd x y :: l) (Mach c r m pc pv) = exec_all l (Mach c (<[rd := u64 (r x + r y)]> r) m pc pv).
Proof. done. Qed.
Lemma ex_Mul rd x y :
  exec_all (Mul rd x y :: l) (Mach c r m pc pv) = exec_all l (Mach c (<[rd := u64 (r x * r y)]> r) m pc pv).
Proof. done. Qed.
Lemma ex_Csrr rd x :
  exec_all (Csrr rd x :: l) (Mach c r m pc pv) = exec_all l (Mach c (<[rd := c x]> r) m pc pv).
Proof. done. Qed.
Lemma ex_Csrw x rs :
  exec_all (Csrw x rs :: l) (Mach c r m pc pv) = exec_all l (Mach (<[x := r rs]> c) r m pc pv).
Proof. done. Qed.
Lemma ex_Csrrw rd x rs :
  exec_all (Csrrw rd x rs :: l) (Mach c r m pc pv) = exec_all l (Mach (<[x := r rs]> c) (<[rd := c x]> r) m pc pv).
Proof. done. Qed.
Lemma ex_SfenceVma : exec_all (SfenceVma :: l) (Mach c r m pc pv) = exec_all l (Mach c r m pc pv).
Proof. done. Qed.
Lemma ex_Jr rs : exec_all (Jr rs :: l) (Mach c r m pc pv) = exec_all l (Mach c r m (r rs) pv).
Proof. done. Qed.
End step.

(** *** Saving and loading a list of registers *)

Definition saves (b : reg) (f : list (reg * Z)) : list instr := map (λ '(x, o), Sd x o b) f.
Definition loads (b : reg) (f : list (reg * Z)) : list instr := map (λ '(x, o), Ld x o b) f.
(** Memory after [saves], registers after [loads], for a frame at address [pa]. *)
Fixpoint saved (pa : Z) (r : reg → Z) (f : list (reg * Z)) (m : gmap Z Z) : gmap Z Z :=
  match f with [] => m | (x, o) :: f => saved pa r f (<[pa + o := r x]> m) end.
Fixpoint loaded (pa : Z) (m : gmap Z Z) (f : list (reg * Z)) (r : reg → Z) : reg → Z :=
  match f with [] => r | (x, o) :: f => loaded pa m f (<[x := default 0 (m !! (pa + o))]> r) end.
(** The frame with [va] as its virtual address is at [pa]. *)
Definition frame_at (c : csr → Z) (pv va pa : Z) (offs : list Z) : Prop :=
  Forall (λ o, pa_of c pv (u64 (va + o)) = Some (pa + o)) offs.

Lemma ex_saves b f l c r m pc pv pa : frame_at c pv (r b) pa f.*2 →
  exec_all (saves b f ++ l) (Mach c r m pc pv) = exec_all l (Mach c r (saved pa r f m) pc pv).
Proof.
  revert m. induction f as [|[x o] f IH]; intros m H; [done|]. inversion_clear H.
  cbn [saves map app]. erewrite ex_Sd by done. by apply IH.
Qed.

Lemma ex_loads b f l c r m pc pv pa : b ∉ f.*1 → frame_at c pv (r b) pa f.*2 →
  exec_all (loads b f ++ l) (Mach c r m pc pv) = exec_all l (Mach c (loaded pa m f r) m pc pv).
Proof.
  revert r. induction f as [|[x o] f IH]; intros r Hb H; [done|]. inversion_clear H.
  cbn [fmap list_fmap fst] in Hb. apply not_elem_of_cons in Hb as [Hne Hb].
  cbn [loads map app]. erewrite ex_Ld by done. apply IH; [done|]. by rewrite -> fn_lookup_insert_ne by done.
Qed.
End exec.

Lemma saved_ne pa r f m a : (∀ o, o ∈ f.*2 → a ≠ pa + o) → saved pa r f m !! a = m !! a.
Proof.
  revert m. induction f as [|[x o] f IH]; intros m H; [done|]. cbn. rewrite -> IH.
  - rewrite -> lookup_insert_ne; [done|]. apply not_eq_sym, H. left.
  - intros o' Ho. apply H. by right.
Qed.
Lemma saved_lookup pa r f m x o : NoDup f.*2 → (x, o) ∈ f → saved pa r f m !! (pa + o) = Some (r x).
Proof.
  revert m. induction f as [|[y k] f IH]; intros m Hnd Hin; [by apply elem_of_nil in Hin|].
  cbn [fmap list_fmap snd] in Hnd. apply NoDup_cons in Hnd as [Hk Hnd]. cbn. apply elem_of_cons in Hin as [[= <- <-]|Hin]; [|by apply IH].
  rewrite -> saved_ne; [by rewrite -> lookup_insert_eq|]. intros o' Ho E. assert (o' = o) as -> by lia. done.
Qed.

Lemma loaded_ne pa m f r x : x ∉ f.*1 → loaded pa m f r x = r x.
Proof.
  revert r. induction f as [|[y k] f IH]; intros r Hx; [done|].
  cbn [fmap list_fmap fst] in Hx. apply not_elem_of_cons in Hx as [Hne Hx].
  cbn. rewrite -> IH by done. by rewrite -> fn_lookup_insert_ne by done.
Qed.
Lemma loaded_lookup pa m f r x o : NoDup f.*1 → (x, o) ∈ f → loaded pa m f r x = default 0 (m !! (pa + o)).
Proof.
  revert r. induction f as [|[y k] f IH]; intros r Hnd Hin; [by apply elem_of_nil in Hin|].
  cbn [fmap list_fmap fst] in Hnd. apply NoDup_cons in Hnd as [Hk Hnd]. cbn. apply elem_of_cons in Hin as [[= <- <-]|Hin]; [|by apply IH].
  rewrite -> loaded_ne by done. by rewrite -> fn_lookup_insert.
Qed.

#[export] Hint Rewrite ex_nil ex_Li ex_Addi ex_Add ex_Mul ex_Csrr ex_Csrw ex_Csrrw ex_SfenceVma ex_Jr : instr.
