(* ===== verification/Switch.v ===== *)
(** * Assembly: context switch and trap entry (kernel/swtch.S,
    kernel/trampoline.S, [kernelvec] of kernel/kernelvec.S)

    Each routine is the list of its instructions. The theorems say that what a
    routine saves is what its counterpart restores: a thread that called
    [swtch] goes on with its registers, a user program does not notice a trap,
    nor does kernel code that is interrupted. *)

From stdpp Require Import functions.
From S2P Require Import Prelude Riscv Sched Machine.
Open Scope Z_scope.

(** ** swtch.S *)

Definition swtch_asm : list instr :=
  [ Sd RA 0 A0; Sd SP 8 A0; Sd S0 16 A0; Sd S1 24 A0; Sd S2 32 A0; Sd S3 40 A0; Sd S4 48 A0;
    Sd S5 56 A0; Sd S6 64 A0; Sd S7 72 A0; Sd S8 80 A0; Sd S9 88 A0; Sd S10 96 A0; Sd S11 104 A0;
    Ld RA 0 A1; Ld SP 8 A1; Ld S0 16 A1; Ld S1 24 A1; Ld S2 32 A1; Ld S3 40 A1; Ld S4 48 A1;
    Ld S5 56 A1; Ld S6 64 A1; Ld S7 72 A1; Ld S8 80 A1; Ld S9 88 A1; Ld S10 96 A1; Ld S11 104 A1; Jr RA ].

(** ** trampoline.S *)

Definition uservec_asm : list instr :=
  [ Csrrw A0 SSCRATCH A0; Sd RA 40 A0; Sd SP 48 A0; Sd GP 56 A0; Sd TP 64 A0; Sd T0 72 A0; Sd T1 80 A0;
    Sd T2 88 A0; Sd S0 96 A0; Sd S1 104 A0; Sd A1 120 A0; Sd A2 128 A0; Sd A3 136 A0; Sd A4 144 A0;
    Sd A5 152 A0; Sd A6 160 A0; Sd A7 168 A0; Sd S2 176 A0; Sd S3 184 A0; Sd S4 192 A0; Sd S5 200 A0;
    Sd S6 208 A0; Sd S7 216 A0; Sd S8 224 A0; Sd S9 232 A0; Sd S10 240 A0; Sd S11 248 A0; Sd T3 256 A0;
    Sd T4 264 A0; Sd T5 272 A0; Sd T6 280 A0; Csrr T0 SSCRATCH; Sd T0 112 A0; Ld SP 8 A0; Ld TP 32 A0;
    Ld T0 16 A0; Ld T1 0 A0; Csrw SATP T1; SfenceVma; Jr T0 ].
Definition userret_asm : list instr :=
  [ Csrw SATP A1; SfenceVma; Ld T0 112 A0; Csrw SSCRATCH T0; Ld RA 40 A0; Ld SP 48 A0; Ld GP 56 A0;
    Ld TP 64 A0; Ld T0 72 A0; Ld T1 80 A0; Ld T2 88 A0; Ld S0 96 A0; Ld S1 104 A0; Ld A1 120 A0;
    Ld A2 128 A0; Ld A3 136 A0; Ld A4 144 A0; Ld A5 152 A0; Ld A6 160 A0; Ld A7 168 A0; Ld S2 176 A0;
    Ld S3 184 A0; Ld S4 192 A0; Ld S5 200 A0; Ld S6 208 A0; Ld S7 216 A0; Ld S8 224 A0; Ld S9 232 A0;
    Ld S10 240 A0; Ld S11 248 A0; Ld T3 256 A0; Ld T4 264 A0; Ld T5 272 A0; Ld T6 280 A0;
    Csrrw A0 SSCRATCH A0; Sret ].

(** ** kernelvec.S *)

(** The code before and after [call kerneltrap]. *)
Definition kernelvec_save : list instr :=
  [ Addi SP SP (-256); Sd RA 0 SP; Sd SP 8 SP; Sd GP 16 SP; Sd TP 24 SP; Sd T0 32 SP; Sd T1 40 SP;
    Sd T2 48 SP; Sd S0 56 SP; Sd S1 64 SP; Sd A0 72 SP; Sd A1 80 SP; Sd A2 88 SP; Sd A3 96 SP;
    Sd A4 104 SP; Sd A5 112 SP; Sd A6 120 SP; Sd A7 128 SP; Sd S2 136 SP; Sd S3 144 SP; Sd S4 152 SP;
    Sd S5 160 SP; Sd S6 168 SP; Sd S7 176 SP; Sd S8 184 SP; Sd S9 192 SP; Sd S10 200 SP; Sd S11 208 SP;
    Sd T3 216 SP; Sd T4 224 SP; Sd T5 232 SP; Sd T6 240 SP ].
Definition kernelvec_restore : list instr :=
  [ Ld RA 0 SP; Ld SP 8 SP; Ld GP 16 SP; Ld T0 32 SP; Ld T1 40 SP; Ld T2 48 SP; Ld S0 56 SP;
    Ld S1 64 SP; Ld A0 72 SP; Ld A1 80 SP; Ld A2 88 SP; Ld A3 96 SP; Ld A4 104 SP; Ld A5 112 SP;
    Ld A6 120 SP; Ld A7 128 SP; Ld S2 136 SP; Ld S3 144 SP; Ld S4 152 SP; Ld S5 160 SP; Ld S6 168 SP;
    Ld S7 176 SP; Ld S8 184 SP; Ld S9 192 SP; Ld S10 200 SP; Ld S11 208 SP; Ld T3 216 SP; Ld T4 224 SP;
    Ld T5 232 SP; Ld T6 240 SP; Addi SP SP 256; Sret ].

Section switch.
Context (mmu : Z → Z → option Z).

Definition swtch : MC unit := exec_all mmu swtch_asm.
Definition uservec : MC unit := exec_all mmu uservec_asm.
Definition userret : MC unit := exec_all mmu userret_asm.
Definition kernelvec (kerneltrap : MC unit) : MC unit :=
  exec_all mmu kernelvec_save ;; kerneltrap ;; exec_all mmu kernelvec_restore.

(** ** What is saved where *)

(** [struct context] and the registers of [struct trapframe], by field. *)
Definition context_regs : list (reg * Z) :=
  [ (RA, 0); (SP, 8); (S0, 16); (S1, 24); (S2, 32); (S3, 40); (S4, 48); (S5, 56); (S6, 64); (S7, 72);
    (S8, 80); (S9, 88); (S10, 96); (S11, 104) ].
Definition trapframe_regs : list (reg * Z) :=
  [ (RA, 40); (SP, 48); (GP, 56); (TP, 64); (T0, 72); (T1, 80); (T2, 88); (S0, 96); (S1, 104); (A0, 112);
    (A1, 120); (A2, 128); (A3, 136); (A4, 144); (A5, 152); (A6, 160); (A7, 168); (S2, 176); (S3, 184);
    (S4, 192); (S5, 200); (S6, 208); (S7, 216); (S8, 224); (S9, 232); (S10, 240); (S11, 248); (T3, 256);
    (T4, 264); (T5, 272); (T6, 280) ].
(** The frame of [kernelvec], below the interrupted stack. *)
Definition kframe_regs : list (reg * Z) :=
  [ (RA, 0); (SP, 8); (GP, 16); (TP, 24); (T0, 32); (T1, 40); (T2, 48); (S0, 56); (S1, 64); (A0, 72);
    (A1, 80); (A2, 88); (A3, 96); (A4, 104); (A5, 112); (A6, 120); (A7, 128); (S2, 136); (S3, 144);
    (S4, 152); (S5, 160); (S6, 168); (S7, 176); (S8, 184); (S9, 192); (S10, 200); (S11, 208); (T3, 216);
    (T4, 224); (T5, 232); (T6, 240) ].
(** The word at [a], as [ld] reads it. *)
Definition word (s : mach) (a : Z) : Z := default 0 (m_mem s !! a).
(** The words of the frame [f] at [pa] are the same. *)
Definition same_frame (pa : Z) (f : list (reg * Z)) (s s' : mach) : Prop :=
  ∀ o, o ∈ f.*2 → m_mem s' !! (pa + o) = m_mem s !! (pa + o).

(** What [kernelvec] relies on: the compiled [kerneltrap] returns with the stack
    as it was, and [kerneltrap] restores [sepc] and [sstatus] before it does. *)
Record returns (kerneltrap : MC unit) (pa : Z) (t t' : mach) : Prop := {
  re_run : kerneltrap t = Ret tt t';
  re_sp : m_reg t' SP = m_reg t SP;
  re_satp : m_csr t' SATP = m_csr t SATP;
  re_sepc : m_csr t' SEPC = m_csr t SEPC;
  re_sstatus : m_csr t' SSTATUS = m_csr t SSTATUS;
  re_priv : m_priv t' = m_priv t;
  re_frame : same_frame pa kframe_regs t t'
}.

(** ** Theorems *)

Lemma in_frame {f : list (reg * Z)} {x o} : (x, o) ∈ f → o ∈ f.*2.
Proof. intros H. by apply (list_elem_of_fmap_2 snd) in H. Qed.
Lemma frame_at_in c pv va pa (f f' : list (reg * Z)) : f ⊆ f' → frame_at mmu c pv va pa f'.*2 → frame_at mmu c pv va pa f.*2.
Proof.
  unfold frame_at. rewrite -> !Forall_forall. intros Hf H o Ho. apply list_elem_of_fmap in Ho as ([x o'] & -> & Hin).
  apply H, (in_frame (x := x)), Hf, Hin.
Qed.

(** *** swtch *)

Lemma swtch_run c r m pc pv old new :
  frame_at mmu c pv (r A0) old context_regs.*2 → frame_at mmu c pv (r A1) new context_regs.*2 →
  let m' := saved old r context_regs m in
  let r' := loaded new m' context_regs r in
  swtch (Mach c r m pc pv) = Ret tt (Mach c r' m' (r' RA) pv).
Proof.
  intros Ho Hn m' r'. unfold swtch.
  change swtch_asm with (saves A0 context_regs ++ loads A1 context_regs ++ [Jr RA]).
  rewrite -> (ex_saves mmu A0 _ _ _ _ _ _ _ old Ho), (ex_loads mmu A1 _ _ _ _ _ _ _ new); [|by_decide|done].
  rewrite -> ex_Jr. done.
Qed.

Lemma context_nodup : NoDup context_regs.*1 ∧ NoDup context_regs.*2.
Proof. split; by_decide. Qed.

(** The frame at [new] when [old] has been saved elsewhere. *)
Lemma loaded_saved old new r m x o :
  (∀ o o', o ∈ context_regs.*2 → o' ∈ context_regs.*2 → old + o ≠ new + o') → (x, o) ∈ context_regs →
  loaded new (saved old r context_regs m) context_regs r x = default 0 (m !! (new + o)).
Proof.
  intros Hd Hin. destruct context_nodup. rewrite -> (loaded_lookup _ _ _ _ _ o) by done.
  rewrite -> saved_ne; [done|]. intros o' Ho. apply not_eq_sym, Hd; [done|]. by apply (in_frame (x := x)).
Qed.

(** C24. A context switch. [swtch(old, new)] goes on at the return address in
    [new] with the stack pointer and the callee-saved registers of [new]. The
    caller is resumed when some thread, on any hart, later calls
    [swtch(other, old)]: it returns from its own call with its stack pointer
    and callee-saved registers, provided nobody wrote to [old] in between. *)
Theorem swtch_resumes s old new :
  frame_at mmu (m_csr s) (m_priv s) (m_reg s A0) old context_regs.*2 →
  frame_at mmu (m_csr s) (m_priv s) (m_reg s A1) new context_regs.*2 →
  (∀ o o', o ∈ context_regs.*2 → o' ∈ context_regs.*2 → old + o ≠ new + o') →
  ∃ s1, swtch s = Ret tt s1 ∧ m_pc s1 = word s new ∧ m_csr s1 = m_csr s ∧
    (∀ x o, (x, o) ∈ context_regs → m_reg s1 x = word s (new + o)) ∧
    (∀ a, (∀ o, o ∈ context_regs.*2 → a ≠ old + o) → m_mem s1 !! a = m_mem s !! a) ∧
    ∀ s2 other,
      frame_at mmu (m_csr s2) (m_priv s2) (m_reg s2 A0) other context_regs.*2 →
      frame_at mmu (m_csr s2) (m_priv s2) (m_reg s2 A1) old context_regs.*2 →
      (∀ o o', o ∈ context_regs.*2 → o' ∈ context_regs.*2 → other + o ≠ old + o') →
      same_frame old context_regs s1 s2 →
      ∃ s3, swtch s2 = Ret tt s3 ∧ m_pc s3 = m_reg s RA ∧ ∀ x, x ∈ context_regs.*1 → m_reg s3 x = m_reg s x.
Proof.
  destruct s as [c r m pc pv]. cbn [m_csr m_reg m_mem m_priv]. intros Ho Hn Hd.
  eexists. split; [exact (swtch_run c r m pc pv old new Ho Hn)|]. cbn [m_csr m_reg m_mem m_pc].
  assert (∀ x o, (x, o) ∈ context_regs → saved old r context_regs m !! (old + o) = Some (r x)) as Hs.
  { intros x o Hin. apply saved_lookup; [apply context_nodup|done]. }
  split; [|split; [done|split; [|split]]].
  - rewrite -> (loaded_saved _ _ _ _ _ 0) by (done || by_decide). unfold word. cbn [m_mem]. f_equal. f_equal. lia.
  - intros x o Hin. by apply loaded_saved.
  - intros a Ha. by apply saved_ne.
  - intros [c2 r2 m2 pc2 pv2] other. cbn [m_csr m_reg m_mem m_priv]. intros Ho2 Hn2 Hd2 Hsame.
    assert (∀ x, x ∈ context_regs.*1 → loaded old (saved other r2 context_regs m2) context_regs r2 x = r x) as Hl.
    { intros x Hx. apply list_elem_of_fmap in Hx as ([x' o] & -> & Hin). cbn [fst].
      rewrite -> (loaded_saved _ _ _ _ _ o) by done. specialize (Hsame o (in_frame Hin)). cbn [m_mem] in Hsame.
      by rewrite -> Hsame, (Hs x' o). }
    eexists. split; [exact (swtch_run c2 r2 m2 pc2 pv2 other old Ho2 Hn2)|]. cbn [m_reg m_pc].
    split; [|done]. apply Hl. by_decide.
Qed.

(** *** uservec and userret *)

(** [trapframe_regs] but [a0], which goes through [sscratch]. *)
Definition tf_rest : list (reg * Z) := filter (λ p, p.1 ≠ A0) trapframe_regs.
Lemma tf_facts : NoDup trapframe_regs.*1 ∧ NoDup trapframe_regs.*2 ∧ NoDup tf_rest.*1 ∧ NoDup tf_rest.*2.
Proof. split_and!; by_decide. Qed.
Lemma tf_split x o : (x, o) ∈ trapframe_regs ↔ (x, o) = (A0, 112) ∨ (x ≠ A0 ∧ (x, o) ∈ tf_rest).
Proof.
  unfold tf_rest. rewrite -> list_elem_of_filter. cbn [fst]. split.
  - intros H. destruct (decide (x = A0)) as [->|Hne]; [left|by right].
    assert (Forall (λ p, p.1 = A0 → p = (A0, 112)) trapframe_regs) as HF by (repeat constructor; done).
    rewrite -> Forall_forall in HF. by apply (HF _ H).
  - intros [[= -> ->]|(_ & _ & H)]; [by_decide|done].
Qed.
Lemma tf_total x : ∃ o, (x, o) ∈ trapframe_regs.
Proof.
  assert (x ∈ trapframe_regs.*1) as H by (destruct x; by_decide).
  apply list_elem_of_fmap in H as ([x' o] & -> & H). by exists o.
Qed.

Lemma uservec_run c r m pc pv va pa :
  c SSCRATCH = va → (∀ o, 0 ≤ o < tf_size → pa_of mmu c pv (u64 (va + o)) = Some (pa + o)) →
  let m' := <[pa + 112 := r A0]> (saved pa (<[A0 := va]> r) tf_rest m) in
  let w o := default 0 (m' !! (pa + o)) in
  ∃ r', uservec (Mach c r m pc pv) = Ret tt (Mach (<[SATP := w tf_kernel_satp]> (<[SSCRATCH := r A0]> c)) r' m' (w tf_kernel_trap) pv) ∧
    r' SP = w tf_kernel_sp ∧ r' TP = w tf_kernel_hartid.
Proof.
  intros Hc Hpa m' w. unfold uservec.
  set (kregs := [ (SP, tf_kernel_sp); (TP, tf_kernel_hartid); (T0, tf_kernel_trap); (T1, tf_kernel_satp) ]).
  change uservec_asm with (Csrrw A0 SSCRATCH A0 :: saves A0 tf_rest ++
    [ Csrr T0 SSCRATCH; Sd T0 112 A0 ] ++ loads A0 kregs ++ [ Csrw SATP T1; SfenceVma; Jr T0 ]).
  rewrite -> ex_Csrrw, Hc. set (c1 := <[SSCRATCH := r A0]> c). set (r1 := <[A0 := va]> r).
  assert (∀ o, 0 ≤ o < tf_size → pa_of mmu c1 pv (u64 (va + o)) = Some (pa + o)) as Hpa1.
  { intros o Ho. rewrite <- (Hpa o Ho). unfold pa_of, c1. by rewrite -> fn_lookup_insert_ne. }
  assert (r1 A0 = va) as Ha by (unfold r1; by rewrite -> fn_lookup_insert).
  assert (c1 SSCRATCH = r A0) as Hs by (unfold c1; by rewrite -> fn_lookup_insert).
  rewrite -> (ex_saves mmu A0 _ _ _ _ _ _ _ pa).
  2:{ rewrite -> Ha. apply (Forall_impl (λ o, 0 ≤ o < tf_size)); [|exact Hpa1]. repeat constructor; done. }
  cbn [app]. rewrite -> ex_Csrr, Hs.
  rewrite -> (ex_Sd _ _ _ _ _ _ _ _ _ _ (pa + 112)) by (lookups; rewrite -> Ha; by apply Hpa1).
  rewrite -> fn_lookup_insert. fold m'.
  rewrite -> (ex_loads mmu A0 kregs _ _ _ _ _ _ pa); [|by_decide|].
  2:{ lookups. rewrite -> Ha. repeat constructor; by apply Hpa1. }
  autorewrite with instr. cbn [loaded kregs]. lookups. eexists. split; [reflexivity|]. by lookups.
Qed.

Lemma userret_run c r m pc pv va pa :
  r A0 = va → (∀ o, 0 ≤ o < tf_size → pa_of mmu (<[SATP := r A1]> c) pv (u64 (va + o)) = Some (pa + o)) →
  ∃ c' r', userret (Mach c r m pc pv) = sret_instr (Mach c' r' m pc pv) ∧
    c' SATP = r A1 ∧ c' SSCRATCH = va ∧ c' SEPC = c SEPC ∧ c' SSTATUS = c SSTATUS ∧
    ∀ x o, (x, o) ∈ trapframe_regs → r' x = default 0 (m !! (pa + o)).
Proof.
  intros Ha Hpa. unfold userret.
  change userret_asm with ([Csrw SATP A1; SfenceVma] ++ loads A0 [(T0, tf_a0)] ++ Csrw SSCRATCH T0 :: loads A0 tf_rest ++
    [Csrrw A0 SSCRATCH A0; Sret]).
  cbn [app]. rewrite -> ex_Csrw, ex_SfenceVma. set (c1 := <[SATP := r A1]> c) in *.
  rewrite -> (ex_loads mmu A0 _ _ _ _ _ _ _ pa); [|by_decide|].
  2:{ rewrite -> Ha. repeat constructor; by apply Hpa. }
  rewrite -> ex_Csrw. cbn [loaded]. rewrite -> fn_lookup_insert.
  rewrite -> (ex_loads mmu A0 tf_rest _ _ _ _ _ _ pa); [|by_decide|].
  2:{ lookups. rewrite -> Ha. apply (Forall_impl (λ o, 0 ≤ o < tf_size)); [repeat constructor; done|].
      intros o Ho. rewrite <- (Hpa o Ho). unfold pa_of. by lookups. }
  rewrite -> ex_Csrrw. rewrite -> (loaded_ne _ _ _ _ A0) by by_decide. lookups. eexists _, _. split; [reflexivity|].
  unfold c1. lookups. split_and!; try done. intros x o [[= -> ->]|[Hne Hin]]%tf_split; lookups; [done|].
  apply loaded_lookup; [apply tf_facts|done].
Qed.

Lemma trapframe_va c pv pa o :
  (∀ o, 0 ≤ o < tf_size → mmu (c SATP) (TRAPFRAME + o) = Some (pa + o)) → pv ≠ 3 → 0 ≤ o < tf_size →
  pa_of mmu c pv (u64 (TRAPFRAME + o)) = Some (pa + o).
Proof.
  intros H Hpv Ho. unfold pa_of. rewrite -> (proj2 (Z.eqb_neq pv 3) Hpv), u64_small; [by apply H|].
  assert (TRAPFRAME = 2 ^ 38 - 8192) as -> by done. unfold tf_size in Ho. lia.
Qed.

(** C10. A trap from user space. With [sscratch] at TRAPFRAME and the page of
    the process's trapframe mapped there, [uservec] saves every register of the
    program in its field of [struct trapframe], changes no other word, and
    enters [kernel_trap] on the kernel's stack and page table with the hart's
    number in [tp]. From any state that the kernel may reach, [userret] with
    the trapframe and the user's page table enters user code at [sepc] with the
    registers that the trapframe holds: those the program had, where the
    kernel changed none. *)
Theorem trap_roundtrip s pa :
  m_csr s SSCRATCH = TRAPFRAME →
  (∀ o, 0 ≤ o < tf_size → mmu (m_csr s SATP) (TRAPFRAME + o) = Some (pa + o)) →
  ∃ s1, uservec (trap_s s) = Ret tt s1 ∧ m_priv s1 = 1 ∧ m_csr s1 SEPC = m_pc s ∧
    m_pc s1 = word s (pa + tf_kernel_trap) ∧ m_csr s1 SATP = word s (pa + tf_kernel_satp) ∧
    m_reg s1 SP = word s (pa + tf_kernel_sp) ∧ m_reg s1 TP = word s (pa + tf_kernel_hartid) ∧
    (∀ x o, (x, o) ∈ trapframe_regs → m_mem s1 !! (pa + o) = Some (m_reg s x)) ∧
    (∀ a, (∀ o, o ∈ trapframe_regs.*2 → a ≠ pa + o) → m_mem s1 !! a = m_mem s !! a) ∧
    ∀ s2, m_priv s2 = 1 → m_reg s2 A0 = TRAPFRAME → m_reg s2 A1 = m_csr s SATP →
      ∃ s3, userret s2 = Ret tt s3 ∧ m_pc s3 = m_csr s2 SEPC ∧ m_priv s3 = spp (m_csr s2 SSTATUS) ∧
        m_csr s3 SATP = m_csr s SATP ∧ m_csr s3 SSCRATCH = TRAPFRAME ∧ m_mem s3 = m_mem s2 ∧
        (∀ x o, (x, o) ∈ trapframe_regs → m_reg s3 x = word s2 (pa + o)) ∧
        (same_frame pa trapframe_regs s1 s2 → ∀ x, m_reg s3 x = m_reg s x).
Proof.
  destruct s as [c r m pc pv]. cbn [m_csr m_reg m_mem m_pc]. intros Hs Hpa. unfold trap_s. cbn [m_csr m_reg m_mem m_pc m_priv].
  set (st := Z.lor _ _). set (c1 := <[SEPC := pc]> (<[SSTATUS := st]> c)).
  assert (c1 SSCRATCH = TRAPFRAME ∧ c1 SATP = c SATP) as [E1 E2] by (unfold c1; by lookups).
  destruct (uservec_run c1 r m (c STVEC) 1 TRAPFRAME pa E1) as (r1 & E & Hsp & Htp).
  { intros o Ho. apply trapframe_va; [by rewrite -> E2|done..]. }
  set (m' := <[pa + 112 := r A0]> _) in *.
  assert (∀ a, (∀ o, o ∈ trapframe_regs.*2 → a ≠ pa + o) → m' !! a = m !! a) as Hout.
  { intros a Ha. unfold m'. rewrite -> lookup_insert_ne by (apply not_eq_sym, Ha; by_decide). apply saved_ne.
    intros o Ho. apply Ha. apply list_elem_of_fmap in Ho as ([x o'] & -> & Hin). apply (in_frame (x := x)), tf_split.
    right. split; [|done]. unfold tf_rest in Hin. by apply list_elem_of_filter in Hin as [Hin _]. }
  assert (∀ x o, (x, o) ∈ trapframe_regs → m' !! (pa + o) = Some (r x)) as Hin.
  { intros x o [[= -> ->]|[Hne Hin]]%tf_split; unfold m'; [by rewrite -> lookup_insert_eq|].
    rewrite -> lookup_insert_ne, (saved_lookup _ _ _ _ x o), fn_lookup_insert_ne; [done|done|apply tf_facts|done|].
    assert (Forall (λ p, p.2 ≠ 112) tf_rest) as HF by (repeat constructor; done). rewrite -> Forall_forall in HF.
    specialize (HF _ Hin). cbn in HF. lia. }
  assert (∀ o, o ∉ trapframe_regs.*2 → m' !! (pa + o) = m !! (pa + o)) as Hk.
  { intros o Ho. apply Hout. intros o' Ho' ?. assert (o' = o) as -> by lia. done. }
  eexists. split; [exact E|]. cbn [m_csr m_reg m_mem m_pc m_priv]. unfold word at 1 2 3 4. cbn [m_mem].
  rewrite -> Hsp, Htp, !Hk by by_decide. split; [done|]. split; [unfold c1; by lookups|]. split; [done|].
  split; [by lookups|]. split_and!; try done.
  intros [c2 r2 m2 pc2 pv2]. cbn [m_csr m_reg m_mem m_pc m_priv]. intros -> Ha0 Ha1.
  destruct (userret_run c2 r2 m2 pc2 1 TRAPFRAME pa Ha0) as (c3 & r3 & E3 & H1 & H2 & H3 & H4 & H5).
  { intros o Ho. apply trapframe_va; [|done..]. lookups. by rewrite -> Ha1. }
  rewrite -> E3. eexists. split; [reflexivity|]. cbn [m_csr m_reg m_mem m_pc m_priv]. lookups.
  rewrite -> H1, H2, H3, H4. split_and!; try done. intros Hsame x. destruct (tf_total x) as [o Ho].
  rewrite -> (H5 x o Ho). specialize (Hsame o (in_frame Ho)). cbn [m_mem] in Hsame. by rewrite -> Hsame, (Hin x o Ho).
Qed.

(** *** kernelvec *)

Lemma spp_trap st priv b :
  let clear := Z.lnot (Z.lor (Z.shiftl 1 8) (Z.lor (Z.shiftl 1 1) (Z.shiftl 1 5))) in priv = 0 ∨ priv = 1 →
  spp (Z.lor (Z.lor (Z.land st clear) (Z.shiftl priv 8)) (Z.shiftl (Z.b2z b) 5)) = priv.
Proof.
  intros clear Hp. unfold spp. rewrite -> !Z.lor_spec, !Z.land_spec.
  change (Z.testbit clear 8) with false. rewrite -> !andb_false_r. by destruct Hp as [-> | ->], b.
Qed.
Lemma kframe_facts : NoDup kframe_regs.*1 ∧ NoDup kframe_regs.*2.
Proof. split; by_decide. Qed.
(** The registers that [kernelvec] loads after [ra] and [sp]. *)
Definition kframe_rest : list (reg * Z) := filter (λ p, p.1 ∉ [RA; SP; TP]) kframe_regs.

Lemma kernelvec_restore_run c r m pc pv pa :
  frame_at mmu c pv (r SP) pa kframe_regs.*2 → m !! (pa + 8) = Some (r SP) →
  ∃ r', exec_all mmu kernelvec_restore (Mach c r m pc pv) = sret_instr (Mach c r' m pc pv) ∧
    r' SP = u64 (r SP + 256) ∧ r' TP = r TP ∧
    ∀ x o, (x, o) ∈ kframe_regs → x ≠ SP → x ≠ TP → r' x = default 0 (m !! (pa + o)).
Proof.
  intros Hf Hsp.
  change kernelvec_restore with (loads SP [(RA, 0)] ++ Ld SP 8 SP :: loads SP kframe_rest ++ [Addi SP SP 256; Sret]).
  rewrite -> (ex_loads mmu SP _ _ _ _ _ _ _ pa); [|by_decide|apply (frame_at_in _ _ _ _ _ kframe_regs); [|done]].
  2:{ intros p Hp. apply list_elem_of_singleton in Hp as ->. by_decide. }
  cbn [loaded].
  rewrite -> (ex_Ld _ _ _ _ _ _ _ _ _ _ (pa + 8)).
  2:{ lookups. unfold frame_at in Hf. rewrite -> Forall_forall in Hf. apply Hf. by_decide. }
  rewrite -> Hsp. cbn [default from_option id].
  rewrite -> (ex_loads mmu SP kframe_rest _ _ _ _ _ _ pa); [|by_decide|].
  2:{ lookups. apply (frame_at_in _ _ _ _ _ kframe_regs); [|done]. intros p Hp. unfold kframe_rest in Hp.
      by apply list_elem_of_filter in Hp as [_ Hp]. }
  rewrite -> ex_Addi, (loaded_ne _ _ _ _ SP) by by_decide. lookups. eexists. split; [reflexivity|]. lookups.
  rewrite -> (loaded_ne _ _ _ _ TP) by by_decide. lookups. split_and!; [done..|].
  intros x o Hin Hx1 Hx2. lookups. destruct (decide (x = RA)) as [->|Hx3].
  - rewrite -> loaded_ne by by_decide. lookups.
    assert (Forall (λ p, p.1 = RA → p.2 = 0) kframe_regs) as HF by (repeat constructor; done).
    rewrite -> Forall_forall in HF. specialize (HF _ Hin eq_refl). cbn in HF. by subst o.
  - apply loaded_lookup; [by_decide|]. unfold kframe_rest. apply list_elem_of_filter. split; [|done].
    cbn [fst]. by rewrite -> !elem_of_cons, elem_of_nil; intros [?|[?|[?|?]]].
Qed.

(** An interrupt in the kernel. [kernelvec], on the stack of the code it
    interrupts, returns to that code at its privilege with every register as it
    was, [tp] apart, which is what [kerneltrap] left in it: the code may go on
    on another hart. Until [kerneltrap] is called only the words of the frame
    below the stack pointer change, and none after it has returned. *)
Theorem kernelvec_transparent kerneltrap s pa :
  m_priv s = 1 → 256 ≤ m_reg s SP < 2 ^ 64 →
  frame_at mmu (m_csr s) 1 (m_reg s SP - 256) pa kframe_regs.*2 →
  (∀ t, ∃ t', returns kerneltrap pa t t') →
  ∃ t t' s', returns kerneltrap pa t t' ∧ kernelvec kerneltrap (trap_s s) = Ret tt s' ∧
    (∀ a, (∀ o, o ∈ kframe_regs.*2 → a ≠ pa + o) → m_mem t !! a = m_mem s !! a) ∧ m_mem s' = m_mem t' ∧
    m_pc s' = m_pc s ∧ m_priv s' = 1 ∧ m_reg s' TP = m_reg t' TP ∧ ∀ x, x ≠ TP → m_reg s' x = m_reg s x.
Proof.
  destruct s as [c r m pc pv]. cbn [m_csr m_reg m_mem m_pc m_priv]. intros -> Hsp Hf Hk.
  unfold trap_s. cbn [m_csr m_reg m_mem m_pc m_priv]. set (st := Z.lor _ _).
  assert (spp st = 1) as Hst by (apply spp_trap; by right). clearbody st.
  set (c1 := <[SEPC := pc]> (<[SSTATUS := st]> c)).
  set (r1 := <[SP := r SP - 256]> r). set (m1 := saved pa r1 kframe_regs m).
  assert (frame_at mmu c1 1 (r1 SP) pa kframe_regs.*2) as Hf1.
  { unfold r1. lookups. eapply Forall_impl; [exact Hf|]. intros o. unfold pa_of, c1. by lookups. }
  assert (exec_all mmu kernelvec_save (Mach c1 r m (c STVEC) 1) = Ret tt (Mach c1 r1 m1 (c STVEC) 1)) as E1.
  { change kernelvec_save with (Addi SP SP (-256) :: saves SP kframe_regs ++ []). rewrite -> ex_Addi.
    replace (u64 (r SP + -256)) with (r SP - 256) by (rewrite -> u64_small; lia).
    by rewrite -> (ex_saves mmu SP _ _ _ _ _ _ _ pa Hf1). }
  set (t := Mach c1 r1 m1 (c STVEC) 1) in *. destruct (Hk t) as [t' Ht].
  pose proof Ht as [E2 R1 R2 R3 R4 R5 R6]. destruct t' as [c2 r2 m2 pc2 pv2]. cbn [m_csr m_reg m_mem m_pc m_priv] in *.
  assert (pv2 = 1) as -> by exact R5. clear R5.
  assert (∀ x o, (x, o) ∈ kframe_regs → m2 !! (pa + o) = Some (r1 x)) as Hm2.
  { intros x o Hin. specialize (R6 o (in_frame Hin)). cbn [m_mem t] in R6. rewrite -> R6. apply saved_lookup; [apply kframe_facts|done]. }
  destruct (kernelvec_restore_run c2 r2 m2 pc2 1 pa) as (r3 & E3 & H1 & H2 & H3).
  { rewrite -> R1. eapply Forall_impl; [exact Hf1|]. intros o. unfold pa_of. by rewrite -> R2. }
  { rewrite -> (Hm2 SP 8) by by_decide. by rewrite -> R1. }
  exists t, (Mach c2 r2 m2 pc2 1). eexists. split; [exact Ht|]. split.
  { unfold kernelvec. rewrite -> (bind_Ret _ _ _ _ _ E1), (bind_Ret _ _ _ _ _ E2), E3. reflexivity. }
  cbn [m_csr m_reg m_mem m_pc m_priv t]. split; [intros a Ha; by apply saved_ne|]. split; [done|].
  rewrite -> R3, R4. unfold t, c1. cbn [m_csr]. lookups. split; [done|]. split; [exact Hst|]. split; [done|].
  intros x Hx. destruct (decide (x = SP)) as [->|Hx2].
  { rewrite -> H1, R1. unfold t, r1. cbn [m_reg]. lookups. rewrite -> u64_small; lia. }
  destruct (decide (x ∈ kframe_regs.*1)) as [Hin|Hin]; [|destruct x; exfalso; apply Hin; by_decide].
  apply list_elem_of_fmap in Hin as ([x' o] & -> & Hin). cbn [fst] in *. rewrite -> (H3 x' o Hin), (Hm2 x' o Hin) by done.
  cbn [default from_option id]. unfold r1. by lookups.
Qed.
End switch.

(** ** Witnesses *)

(** Page table 8 is a user's, with its trapframe at 0x87000000; the kernel's
    maps every address to itself. *)
Definition mmu0 (satp va : Z) : option Z :=
  if (satp =? 8) && (TRAPFRAME <=? va) then Some (0x87000000 + (va - TRAPFRAME)) else Some va.
Definition uregs0 (x : reg) : Z :=
  match x with A0 => 0x80001000 | A1 => 0x80002000 | SP => 0x80009000 | RA => 77 | S3 => 3 | _ => 5 end.
Definition kernel0 : mach := Mach (λ _, 0) uregs0 {[0x80002000 := 99; 0x80002008 := 0x8000a000]} 0x80000100 1.
Definition user0 : mach :=
  Mach (<[SATP := 8]> (<[SSCRATCH := TRAPFRAME]> (λ _, 0))) uregs0 {[0x87000010 := 0x80003000]} 0x200 0.

Lemma swtch_resumes_witness :
  ∃ s1, swtch mmu0 kernel0 = Ret tt s1 ∧ m_pc s1 = 99 ∧ m_reg s1 SP = 0x8000a000 ∧
    ∃ s3, swtch mmu0 (Mach (m_csr s1) (<[A0 := 0x80002000]> (<[A1 := 0x80001000]> (m_reg s1))) (m_mem s1) 0 1) = Ret tt s3 ∧
      m_pc s3 = 77 ∧ m_reg s3 S3 = 3.
Proof.
  destruct (swtch_resumes mmu0 kernel0 0x80001000 0x80002000) as (s1 & E & Hpc & Hc & Hr & _ & Hres).
  1-2: repeat constructor.
  { intros o o' Ho Ho'. assert (Forall (λ o, 0 ≤ o < 112) context_regs.*2) as HF by (repeat constructor; done).
    rewrite -> Forall_forall in HF. pose proof (HF o Ho). pose proof (HF o' Ho'). lia. }
  exists s1. split; [exact E|]. split; [exact Hpc|]. split; [rewrite -> (Hr SP 8) by by_decide; reflexivity|].
  destruct (Hres (Mach (m_csr s1) (<[A0 := 0x80002000]> (<[A1 := 0x80001000]> (m_reg s1))) (m_mem s1) 0 1) 0x80002000)
    as (s3 & E3 & Hpc3 & Hr3).
  1-2: cbn [m_csr m_reg m_priv]; rewrite -> Hc; lookups; repeat constructor.
  { intros o o' Ho Ho'. assert (Forall (λ o, 0 ≤ o < 112) context_regs.*2) as HF by (repeat constructor; done).
    rewrite -> Forall_forall in HF. pose proof (HF o Ho). pose proof (HF o' Ho'). lia. }
  { intros o _. done. }
  exists s3. split; [exact E3|]. split; [exact Hpc3|]. rewrite -> Hr3 by by_decide. reflexivity.
Defined.

Lemma trap_roundtrip_witness :
  ∃ s1, uservec mmu0 (trap_s user0) = Ret tt s1 ∧ m_pc s1 = 0x80003000 ∧ m_mem s1 !! 0x87000070 = Some 0x80001000 ∧
    ∃ s3, userret mmu0 (Mach (m_csr s1) (<[A0 := TRAPFRAME]> (<[A1 := 8]> (m_reg s1))) (m_mem s1) 0 1) = Ret tt s3 ∧
      m_pc s3 = 0x200 ∧ ∀ x, m_reg s3 x = uregs0 x.
Proof.
  destruct (trap_roundtrip mmu0 user0 0x87000000) as (s1 & E & _ & Hepc & Hpc & _ & _ & _ & Hm & _ & Hret).
  { reflexivity. }
  { intros o Ho. change (m_csr user0 SATP) with 8. unfold mmu0. cbn [Z.eqb Pos.eqb andb].
    rewrite -> (proj2 (Z.leb_le TRAPFRAME (TRAPFRAME + o))) by lia. f_equal. lia. }
  exists s1. split; [exact E|]. split; [exact Hpc|]. split; [apply (Hm A0 112); by_decide|].
  destruct (Hret (Mach (m_csr s1) (<[A0 := TRAPFRAME]> (<[A1 := 8]> (m_reg s1))) (m_mem s1) 0 1)) as (s3 & E3 & Hpc3 & _ & _ & _ & _ & _ & Hx).
  1-3: cbn [m_reg m_priv]; lookups; reflexivity.
  exists s3. split; [exact E3|]. split; [rewrite -> Hpc3; exact Hepc|]. apply Hx. intros o _. done.
Defined.

Lemma kernelvec_transparent_witness :
  ∃ s', kernelvec mmu0 (set_reg TP 1) (trap_s kernel0) = Ret tt s' ∧ m_pc s' = 0x80000100 ∧ m_priv s' = 1 ∧
    ∀ x, x ≠ TP → m_reg s' x = uregs0 x.
Proof.
  destruct (kernelvec_transparent mmu0 (set_reg TP 1) kernel0 0x80008f00) as (t & t' & s' & _ & E & _ & _ & Hpc & Hp & _ & Hx).
  - reflexivity.
  - done.
  - repeat constructor.
  - intros t. exists (Mach (m_csr t) (<[TP := 1]> (m_reg t)) (m_mem t) (m_pc t) (m_priv t)).
    split; cbn [m_csr m_reg m_mem m_pc m_priv]; lookups; try reflexivity. intros o _. done.
  - exists s'. split; [exact E|]. split; [exact Hpc|]. split; [exact Hp|exact Hx].
Defined.
