(* ===== verification/Start.v ===== *)
(** * Machine mode: booting and the timer (kernel/entry.S, kernel/start.c,
    timervec of kernel/kernelvec.S)

    Before [main] each hart runs [_entry], which sets its stack, and [start] in
    machine mode: it sets the control registers, programs the timer and enters
    supervisor mode with [mret]. From then on machine mode runs only
    [timervec], at each timer interrupt. The addresses that the linker chooses
    are parameters. *)

From stdpp Require Import functions.
From S2P Require Import Prelude Riscv Machine.
Open Scope Z_scope.

(** ** riscv.h and memlayout.h *)

Definition MSTATUS_MPP_MASK : Z := Z.shiftl 3 11.
Definition MSTATUS_MPP_S : Z := Z.shiftl 1 11.
Definition MSTATUS_MIE : Z := Z.shiftl 1 3.
Definition SIE_SEIE : Z := Z.shiftl 1 9.
Definition SIE_STIE : Z := Z.shiftl 1 5.
Definition SIE_SSIE : Z := Z.shiftl 1 1.
Definition MIE_MTIE : Z := Z.shiftl 1 7.
Definition CLINT : Z := 0x2000000.
Definition CLINT_MTIMECMP (hartid : Z) : Z := CLINT + 0x4000 + 8 * hartid.
Definition CLINT_MTIME : Z := CLINT + 0xBFF8.

Definition r_mhartid : MC Z := csrr MHARTID.
Definition r_mstatus : MC Z := csrr MSTATUS.
Definition w_mstatus (x : Z) : MC unit := csrw MSTATUS x.
Definition w_mepc (x : Z) : MC unit := csrw MEPC x.
Definition r_sie : MC Z := csrr SIE.
Definition w_sie (x : Z) : MC unit := csrw SIE x.
Definition r_mie : MC Z := csrr MIE.
Definition w_mie (x : Z) : MC unit := csrw MIE x.
Definition w_medeleg (x : Z) : MC unit := csrw MEDELEG x.
Definition w_mideleg (x : Z) : MC unit := csrw MIDELEG x.
Definition w_mtvec (x : Z) : MC unit := csrw MTVEC x.
Definition w_pmpcfg0 (x : Z) : MC unit := csrw PMPCFG0 x.
Definition w_pmpaddr0 (x : Z) : MC unit := csrw PMPADDR0 x.
Definition w_satp (x : Z) : MC unit := csrw SATP x.
Definition w_mscratch (x : Z) : MC unit := csrw MSCRATCH x.
Definition w_tp (x : Z) : MC unit := set_reg TP x.

(** ** The status register and start.c *)

Lemma mpp_bits x : mpp x = Z.b2z (Z.testbit x 11) + 2 * Z.b2z (Z.testbit x 12).
Proof.
  unfold mpp. change 3 with (Z.ones 2). rewrite -> Z.land_ones by lia. change (2 ^ 2) with 4.
  replace (Z.testbit x 11) with (Z.testbit (Z.shiftr x 11) 0) by (rewrite -> Z.shiftr_spec by lia; f_equal; lia).
  replace (Z.testbit x 12) with (Z.testbit (Z.shiftr x 11) 1) by (rewrite -> Z.shiftr_spec by lia; f_equal; lia).
  generalize (Z.shiftr x 11). intros y. rewrite -> Z.bit0_mod. rewrite -> (Z.testbit_spec' y 1) by lia. change (2 ^ 1) with 2. zlia.
Qed.
Lemma mpp_trap st priv b :
  let clear := Z.lnot (Z.lor MPP_MASK (Z.lor MIE_BIT MPIE)) in priv = 0 ∨ priv = 1 →
  mpp (Z.lor (Z.lor (Z.land st clear) (Z.shiftl priv 11)) (Z.shiftl (Z.b2z b) 7)) = priv.
Proof.
  intros clear Hp. rewrite -> mpp_bits, !Z.lor_spec, !Z.land_spec.
  change (Z.testbit clear 11) with false. change (Z.testbit clear 12) with false. rewrite -> !andb_false_r.
  by destruct Hp as [-> | ->], b.
Qed.
Lemma mpp_start x :
  mpp (Z.lor (Z.lor (Z.land x (u64 (Z.lnot MSTATUS_MPP_MASK))) MSTATUS_MPP_S) MSTATUS_MIE) = 1.
Proof.
  rewrite -> mpp_bits, !Z.lor_spec, !Z.land_spec.
  by destruct (Z.testbit x 11), (Z.testbit x 12).
Qed.

(** *** One call at a time *)

Section calls.
Context {B : Type} (c : csr → Z) (r : reg → Z) (m : gmap Z Z) (pc pv : Z).
Lemma bind_csrr x (f : Z → MC B) : (csrr x ≫= f) (Mach c r m pc pv) = f (c x) (Mach c r m pc pv).
Proof. done. Qed.
Lemma bind_csrw x v (f : unit → MC B) : (csrw x v ≫= f) (Mach c r m pc pv) = f tt (Mach (<[x := v]> c) r m pc pv).
Proof. done. Qed.
Lemma bind_set_reg x v (f : unit → MC B) : (set_reg x v ≫= f) (Mach c r m pc pv) = f tt (Mach c (<[x := v]> r) m pc pv).
Proof. done. Qed.
Lemma bind_ld a (f : Z → MC B) : (ld a ≫= f) (Mach c r m pc pv) = f (default 0 (m !! a)) (Mach c r m pc pv).
Proof. done. Qed.
Lemma bind_sd a v (f : unit → MC B) : (sd a v ≫= f) (Mach c r m pc pv) = f tt (Mach c r (<[a := v]> m) pc pv).
Proof. done. Qed.
End calls.
#[local] Hint Rewrite @bind_csrr @bind_csrw @bind_set_reg @bind_ld @bind_sd : instr.
Ltac istep := autorewrite with instr; lookups.

(** ** entry.S and kernelvec.S *)

(** [_entry] up to [call start]; [stack0] is the address of the stacks. *)
Definition entry_asm (stack0 : Z) : list instr :=
  [ Li SP stack0; Li A0 (1024 * 4); Csrr A1 MHARTID; Addi A1 A1 1; Mul A0 A0 A1; Add SP SP A0 ].

Definition timervec_asm : list instr :=
  [ Csrrw A0 MSCRATCH A0; Sd A1 0 A0; Sd A2 8 A0; Sd A3 16 A0;
    Ld A1 24 A0; Ld A2 32 A0; Ld A3 0 A1; Add A3 A3 A2; Sd A3 0 A1;
    Li A1 2; Csrw SIP A1;
    Ld A3 16 A0; Ld A2 8 A0; Ld A1 0 A0; Csrrw A0 MSCRATCH A0; Mret ].

Section start.
Context (mmu : Z → Z → option Z) (main timervec_addr timer_scratch stack0 : Z).

Definition interval : Z := 1000000.
(** [&timer_scratch\[id\]\[0\]], of five 64-bit words. *)
Definition scratch_of (id : Z) : Z := timer_scratch + 40 * id.

Definition timerinit : MC unit :=
  h ← r_mhartid;
  let id := i32 h in
  t ← ld CLINT_MTIME;
  sd (CLINT_MTIMECMP id) (u64 (t + interval)) ;;
  let scratch := scratch_of id in
  sd (scratch + 8 * 3) (CLINT_MTIMECMP id) ;;
  sd (scratch + 8 * 4) interval ;;
  w_mscratch scratch ;;
  w_mtvec timervec_addr ;;
  x ← r_mstatus;
  w_mstatus (Z.lor x MSTATUS_MIE) ;;
  x ← r_mie;
  w_mie (Z.lor x MIE_MTIE).

Definition start : MC unit :=
  x ← r_mstatus;
  let x := Z.land x (u64 (Z.lnot MSTATUS_MPP_MASK)) in
  let x := Z.lor x MSTATUS_MPP_S in
  w_mstatus x ;;
  w_mepc main ;;
  w_satp 0 ;;
  w_medeleg 0xffff ;;
  w_mideleg 0xffff ;;
  x ← r_sie;
  w_sie (Z.lor (Z.lor (Z.lor x SIE_SEIE) SIE_STIE) SIE_SSIE) ;;
  w_pmpaddr0 0x3fffffffffffff ;;
  w_pmpcfg0 0xf ;;
  timerinit ;;
  h ← r_mhartid;
  w_tp (u64 (i32 h)) ;;
  mret_instr.

Definition _entry : MC unit := exec_all mmu (entry_asm stack0) ;; start.
Definition timervec : MC unit := exec_all mmu timervec_asm.

(** ** The hart after [start] *)

(** A step of the kernel or of a user program on hart [id]: it may do anything
    but go to machine mode, write the registers of machine mode or the words
    that belong to the timer. *)
Record code (id : Z) (s s' : mach) : Prop := {
  co_priv : m_priv s' = 0 ∨ m_priv s' = 1;
  co_mscratch : m_csr s' MSCRATCH = m_csr s MSCRATCH;
  co_mtvec : m_csr s' MTVEC = m_csr s MTVEC;
  co_mie : m_csr s' MIE = m_csr s MIE;
  co_mem a : a = CLINT_MTIMECMP id ∨ a = scratch_of id + 24 ∨ a = scratch_of id + 32 → m_mem s' !! a = m_mem s !! a
}.

(** The hart takes timer interrupts: they are enabled one by one in [mie], and
    below machine mode the global enable does not matter. *)
Definition timer_on (s : mach) : Prop := Z.testbit (m_csr s MIE) 7 = true ∧ m_priv s < 3.

(** [run id n s s']: steps of code and [n] timer interrupts, one after another. *)
Inductive run (id : Z) : nat → mach → mach → Prop :=
| run_refl s : run id 0 s s
| run_code n s0 s s' : run id n s0 s → code id s s' → run id n s0 s'
| run_timer n s0 s s' : run id n s0 s → timer_on s → timervec (trap_m s) = Ret tt s' → run id (S n) s0 s'.

(** The timer of hart [id] is set to [deadline]. *)
Record armed (id deadline : Z) (s : mach) : Prop := {
  ar_mscratch : m_csr s MSCRATCH = scratch_of id;
  ar_mtvec : m_csr s MTVEC = timervec_addr;
  ar_mie : Z.testbit (m_csr s MIE) 7 = true;
  ar_cmp : m_mem s !! CLINT_MTIMECMP id = Some deadline;
  ar_addr : m_mem s !! (scratch_of id + 24) = Some (CLINT_MTIMECMP id);
  ar_interval : m_mem s !! (scratch_of id + 32) = Some interval;
  ar_priv : m_priv s = 0 ∨ m_priv s = 1
}.

Context (Hscratch : KERNBASE ≤ timer_scratch ≤ PHYSTOP).

Lemma cmp_below id k : 0 ≤ id < Z.of_nat NCPU → 0 ≤ k → CLINT_MTIMECMP id ≠ scratch_of id + k.
Proof.
  intros Hid Hk. unfold CLINT_MTIMECMP, CLINT, scratch_of. unfold KERNBASE, NCPU in *. lia.
Qed.
Lemma scratch_small id k : 0 ≤ id < Z.of_nat NCPU → 0 ≤ k ≤ 40 → u64 (scratch_of id + k) = scratch_of id + k.
Proof.
  intros Hid Hk. apply u64_small. unfold scratch_of. unfold PHYSTOP, KERNBASE, NCPU in *. lia.
Qed.

Lemma pa_m c va : pa_of mmu c 3 va = Some va.
Proof. done. Qed.

(** What [timervec] does before [mret]. *)
Lemma timervec_run c r m pc sc cmp iv dl :
  c MSCRATCH = sc → (∀ k, 0 ≤ k ≤ 40 → u64 (sc + k) = sc + k) → u64 cmp = cmp →
  m !! (sc + 24) = Some cmp → m !! (sc + 32) = Some iv → m !! cmp = Some dl → (∀ k, 0 ≤ k → cmp ≠ sc + k) →
  ∃ c' r' m', timervec (Mach c r m pc 3) = mret_instr (Mach c' r' m' pc 3) ∧
    (∀ x, x ≠ SIP → c' x = c x) ∧ c' SIP = SIE_SSIE ∧ (∀ x, r' x = r x) ∧ m' !! cmp = Some (u64 (dl + iv)) ∧
    (∀ a, a = sc + 24 ∨ a = sc + 32 → m' !! a = m !! a).
Proof.
  intros Hc Hu Huc H24 H32 Hcmp Hne. unfold timervec.
  set (regs := [(A1, 0); (A2, 8); (A3, 16)]). set (back := [(A3, 16); (A2, 8); (A1, 0)]).
  change timervec_asm with (Csrrw A0 MSCRATCH A0 :: saves A0 regs ++ loads A0 [(A1, 24); (A2, 32)] ++
    [Ld A3 0 A1; Add A3 A3 A2; Sd A3 0 A1; Li A1 2; Csrw SIP A1] ++ loads A0 back ++ [Csrrw A0 MSCRATCH A0; Mret]).
  assert (∀ c offs, Forall (λ o, 0 ≤ o ≤ 40) offs → frame_at mmu c 3 sc sc offs) as Hf.
  { intros c' offs HF. eapply Forall_impl; [exact HF|]. intros o Ho. cbn beta. by rewrite -> pa_m, Hu. }
  assert (cmp ≠ sc + 0 ∧ cmp ≠ sc + 8 ∧ cmp ≠ sc + 16 ∧ cmp ≠ sc + 24 ∧ cmp ≠ sc + 32) as (N0 & N8 & N16 & N24 & N32).
  { split_and!; apply Hne; lia. }
  rewrite -> ex_Csrrw, Hc. set (r1 := <[A0 := sc]> r).
  assert (r1 A0 = sc ∧ ∀ x, x ≠ A0 → r1 x = r x) as [Ha Hr1] by (unfold r1; split; [by lookups|intros; by lookups]).
  rewrite -> (ex_saves mmu A0 _ _ _ _ _ _ _ sc) by (rewrite -> Ha; apply Hf; repeat constructor; done).
  set (m3 := saved sc r1 regs m). clearbody r1.
  assert (∀ a, a ≠ sc + 0 → a ≠ sc + 8 → a ≠ sc + 16 → m3 !! a = m !! a) as Hm3.
  { intros a ???. apply saved_ne. intros o [->|[->|[->|[]%elem_of_nil]%elem_of_cons]%elem_of_cons]%elem_of_cons; done. }
  rewrite -> (ex_loads mmu A0 _ _ _ _ _ _ _ sc); [|by_decide|rewrite -> Ha; apply Hf; repeat constructor; done].
  cbn [loaded app]. rewrite -> !Hm3, H24, H32 by lia. cbn [default from_option id].
  rewrite -> (ex_Ld _ _ _ _ _ _ _ _ _ _ cmp) by (lookups; by rewrite -> Z.add_0_r, Huc).
  rewrite -> Hm3, Hcmp by done. cbn [default from_option id].
  rewrite -> ex_Add. lookups.
  rewrite -> (ex_Sd _ _ _ _ _ _ _ _ _ _ cmp) by (lookups; by rewrite -> Z.add_0_r, Huc). lookups.
  rewrite -> ex_Li, ex_Csrw. set (m4 := <[cmp := _]> m3).
  rewrite -> (ex_loads mmu A0 back _ _ _ _ _ _ sc); [|by_decide|lookups; rewrite -> Ha; apply Hf; repeat constructor; done].
  assert (∀ x o, (x, o) ∈ regs → m4 !! (sc + o) = Some (r x)) as Hm4.
  { intros x o Hin. unfold m4. rewrite -> lookup_insert_ne.
    - unfold m3. rewrite -> (saved_lookup _ _ _ _ x o), Hr1; [done| |by_decide|done]. intros ->. revert Hin. by_decide.
    - apply Hne. revert Hin. assert (Forall (λ p, 0 ≤ p.2) regs) as HF by (repeat constructor; done).
      rewrite -> Forall_forall in HF. intros Hin. exact (HF _ Hin). }
  cbn [loaded back]. rewrite -> (Hm4 A3 16), (Hm4 A2 8), (Hm4 A1 0) by by_decide. cbn [default from_option id].
  rewrite -> ex_Csrrw. lookups. eexists _, _, _. split; [reflexivity|]. split_and!.
  - intros x Hx. destruct (decide (x = MSCRATCH)) as [->|Hm]; lookups; [by rewrite -> Ha|done].
  - by lookups.
  - intros x. destruct (decide (x = A0)) as [->|]; [by lookups|].
    destruct (decide (x = A1)) as [->|]; [by lookups|]. destruct (decide (x = A2)) as [->|]; [by lookups|].
    destruct (decide (x = A3)) as [->|]; [by lookups|]. lookups. by apply Hr1.
  - unfold m4. by rewrite -> lookup_insert_eq.
  - intros a Ha'. unfold m4. rewrite -> lookup_insert_ne by (destruct Ha' as [-> | ->]; done). apply Hm3; destruct Ha' as [-> | ->]; lia.
Qed.

(** [timervec] in a state of [armed]: it sets the next deadline and raises a
    software interrupt, and is not seen by the code it interrupts. *)
Lemma timervec_ok id deadline s :
  0 ≤ id < Z.of_nat NCPU → armed id deadline s →
  ∃ s', timervec (trap_m s) = Ret tt s' ∧ armed id (u64 (deadline + interval)) s' ∧
    m_pc s' = m_pc s ∧ m_priv s' = m_priv s ∧ (∀ r, m_reg s' r = m_reg s r) ∧ m_csr s' SIP = SIE_SSIE.
Proof.
  intros Hid [H1 H2 Hmie H3 H4 H5 H6]. unfold trap_m. set (st' := Z.lor _ _).
  assert (mpp st' = m_priv s) as Hpp by by apply mpp_trap.
  destruct (timervec_run (<[MEPC := m_pc s]> (<[MSTATUS := st']> (m_csr s))) (m_reg s) (m_mem s) (m_csr s MTVEC)
    (scratch_of id) (CLINT_MTIMECMP id) interval deadline) as (c' & r' & m' & E & Hc & Hsip & Hr & Hcmp & Hm).
  { lookups. exact H1. }
  { intros k Hk. by apply scratch_small. }
  { apply u64_small. unfold CLINT_MTIMECMP, CLINT, NCPU in *. lia. }
  { exact H4. }
  { exact H5. }
  { exact H3. }
  { intros k Hk. by apply cmp_below. }
  assert (c' MSTATUS = st' ∧ c' MEPC = m_pc s ∧ c' MSCRATCH = scratch_of id ∧ c' MTVEC = timervec_addr ∧
    c' MIE = m_csr s MIE) as (C1 & C2 & C3 & C4 & C5).
  { rewrite -> !Hc by done. lookups. split_and!; reflexivity || assumption. }
  rewrite -> E. eexists. split; [reflexivity|]. cbn [m_csr m_reg m_mem m_pc m_priv]. rewrite -> C1, Hpp. lookups.
  split; [|split; [exact C2|split; [reflexivity|split; [exact Hr|exact Hsip]]]].
  split; cbn [m_csr m_reg m_mem m_pc m_priv]; lookups;
    [exact C3|exact C4|by rewrite -> C5|exact Hcmp| | |exact H6].
  - rewrite -> Hm by (by left). exact H4.
  - rewrite -> Hm by (by right). exact H5.
Qed.

Lemma run_armed id d0 s0 n s :
  0 ≤ id < Z.of_nat NCPU → armed id d0 s0 → run id n s0 s → armed id (Nat.iter n (λ d, u64 (d + interval)) d0) s.
Proof.
  intros Hid H0 Hr. induction Hr as [s|n s0 s s' Hr IH [C1 C2 C3 C5 C4]|n s0 s s' Hr IH _ E]; [done| |].
  - destruct (IH H0) as [A1 A2 A0 A3 A4 A5 A6]. split; rewrite -> ?C2, ?C3, ?C5, ?C4 by auto; done.
  - destruct (timervec_ok id _ s Hid (IH H0)) as (s1 & E1 & Ha & _). rewrite -> E in E1. by injection E1 as ->.
Qed.

Lemma iter_deadline t n : Nat.iter n (λ d, u64 (d + interval)) (u64 (t + interval)) = u64 (t + Z.of_nat (S n) * interval).
Proof.
  induction n as [|n IH]; [f_equal; lia|]. rewrite -> Nat.iter_succ, IH. unfold u64. rewrite -> Zplus_mod_idemp_l. f_equal. lia.
Qed.

(** Before [mret]: machine-mode interrupts and the timer's are enabled, and the
    memory protection opens all of memory to supervisor mode. *)
Record enabled (s : mach) : Prop := {
  en_mie : Z.testbit (m_csr s MSTATUS) 3 = true;
  en_mtie : Z.testbit (m_csr s MIE) 7 = true;
  en_pmp : m_csr s PMPADDR0 = 0x3fffffffffffff ∧ m_csr s PMPCFG0 = 0xf
}.

(** What [start] leaves. *)
Record started (id : Z) (s s' : mach) : Prop := {
  sd_pc : m_pc s' = main;
  sd_priv : m_priv s' = 1;
  sd_tp : m_reg s' TP = id;
  sd_regs r : r ≠ TP → m_reg s' r = m_reg s r;
  sd_satp : m_csr s' SATP = 0;
  sd_deleg : m_csr s' MEDELEG = 0xffff ∧ m_csr s' MIDELEG = 0xffff;
  sd_sie : Z.land (m_csr s' SIE) (Z.lor (Z.lor SIE_SEIE SIE_STIE) SIE_SSIE) = Z.lor (Z.lor SIE_SEIE SIE_STIE) SIE_SSIE
}.

Lemma lor_enables x : let b := Z.lor (Z.lor SIE_SEIE SIE_STIE) SIE_SSIE in
  Z.land (Z.lor (Z.lor (Z.lor x SIE_SEIE) SIE_STIE) SIE_SSIE) b = b.
Proof.
  intros b. unfold b. rewrite <- !Z.lor_assoc. change (Z.lor SIE_SEIE (Z.lor SIE_STIE SIE_SSIE)) with 546.
  apply Z.bits_inj'. intros n _. rewrite -> Z.land_spec, Z.lor_spec. by destruct (Z.testbit x n), (Z.testbit 546 n).
Qed.

Lemma start_ok s :
  0 ≤ m_csr s MHARTID < Z.of_nat NCPU →
  let id := m_csr s MHARTID in
  ∃ sm s', start s = mret_instr sm ∧ enabled sm ∧ mret_instr sm = Ret tt s' ∧ started id s s' ∧
    armed id (u64 (default 0 (m_mem s !! CLINT_MTIME) + interval)) s'.
Proof.
  destruct s as [c r m pc pv]. cbn [m_csr m_mem]. intros Hid. set (id := c MHARTID) in *.
  assert (i32 id = id ∧ u64 id = id) as [E1 E2] by (unfold NCPU in Hid; split; [apply i32_small|apply u64_small]; lia).
  unfold start, r_mstatus, w_mstatus, w_mepc, w_satp, w_medeleg, w_mideleg, r_sie, w_sie, w_pmpaddr0, w_pmpcfg0. istep.
  set (c1 := <[PMPCFG0 := _]> _).
  assert (c1 MHARTID = id) as Eh by (unfold c1; by lookups).
  assert (∃ c2 m2, timerinit (Mach c1 r m pc pv) = Ret tt (Mach c2 r m2 pc pv) ∧ c2 MHARTID = id ∧ c2 MSCRATCH = scratch_of id ∧
    c2 MTVEC = timervec_addr ∧ c2 MSTATUS = Z.lor (c1 MSTATUS) MSTATUS_MIE ∧ c2 MIE = Z.lor (c1 MIE) MIE_MTIE ∧
    (c2 SIE = c1 SIE ∧ c2 PMPADDR0 = c1 PMPADDR0 ∧ c2 PMPCFG0 = c1 PMPCFG0) ∧
    (c2 MEPC = c1 MEPC ∧ c2 SATP = c1 SATP ∧ c2 MEDELEG = c1 MEDELEG ∧ c2 MIDELEG = c1 MIDELEG) ∧
    m2 = <[scratch_of id + 8 * 4 := interval]> (<[scratch_of id + 8 * 3 := CLINT_MTIMECMP id]>
      (<[CLINT_MTIMECMP id := u64 (default 0 (m !! CLINT_MTIME) + interval)]> m))) as (c2 & m2 & Et & T1 & T2 & T3 & T4 & Tm & (Tie & Tpa & Tpc) & T5 & ->).
  { unfold timerinit, r_mhartid, w_mscratch, w_mtvec, r_mstatus, w_mstatus, r_mie, w_mie. istep. rewrite -> Eh, E1.
    eexists _, _. split; [reflexivity|]. cbn [m_csr]. split_and!; by lookups. }
  rewrite -> (bind_Ret _ _ _ _ _ Et). unfold r_mhartid, w_tp. istep. rewrite -> T1, E1, E2.
  eexists _, _. split; [reflexivity|]. destruct T5 as (T5 & T6 & T7 & T8).
  assert (c2 MEPC = main ∧ c2 SATP = 0 ∧ c2 MEDELEG = 0xffff ∧ c2 MIDELEG = 0xffff ∧ c2 PMPADDR0 = 0x3fffffffffffff ∧
    c2 PMPCFG0 = 0xf ∧ mpp (c2 MSTATUS) = 1 ∧ c2 SIE = Z.lor (Z.lor (Z.lor (c SIE) SIE_SEIE) SIE_STIE) SIE_SSIE)
    as (U1 & U2 & U3 & U4 & U5 & U6 & U7 & U8).
  { rewrite -> T4, T5, T6, T7, T8, Tie, Tpa, Tpc. unfold c1. lookups. split_and!; try done. apply mpp_start. }
  assert (Z.testbit (c2 MIE) 7 = true) as U9 by (rewrite -> Tm, Z.lor_spec; apply orb_true_r).
  split; [|split; [reflexivity|split]].
  - split; cbn [m_csr m_reg m_mem m_pc m_priv]; lookups; try done. rewrite -> T4, Z.lor_spec. apply orb_true_r.
  - split; cbn [m_csr m_reg m_mem m_pc m_priv]; lookups; try done.
    + intros x Hx. by lookups.
    + rewrite -> U8. apply lor_enables.
  - split; cbn [m_csr m_reg m_mem m_pc m_priv]; lookups; rewrite -> ?U7; try done.
    + rewrite -> lookup_insert_ne, lookup_insert_ne, lookup_insert_eq; [done|apply not_eq_sym, cmp_below; lia || done..].
    + rewrite -> lookup_insert_ne, lookup_insert_eq; [done|lia].
    + by rewrite -> lookup_insert_eq.
    + by right.
Qed.

(** [_entry]: the stack of hart [id] is the page of [stack0] that ends at
    [stack0 + 4096 * (id + 1)]. *)
Lemma boot_entry s :
  0 ≤ m_csr s MHARTID < Z.of_nat NCPU → KERNBASE ≤ stack0 ≤ PHYSTOP →
  ∃ s', _entry s = start s' ∧ m_csr s' = m_csr s ∧ m_mem s' = m_mem s ∧
    m_reg s' SP = stack0 + 4096 * (m_csr s MHARTID + 1).
Proof.
  destruct s as [c r m pc pv]. cbn [m_csr m_mem]. intros Hid Hst. unfold PHYSTOP, KERNBASE, NCPU in *. unfold _entry.
  assert (∃ r', exec_all mmu (entry_asm stack0) (Mach c r m pc pv) = Ret tt (Mach c r' m pc pv) ∧
    r' SP = stack0 + 4096 * (c MHARTID + 1)) as (r' & E & Hsp).
  { unfold entry_asm. istep. eexists. split; [reflexivity|]. lookups. change (1024 * 4) with 4096.
    rewrite -> (u64_small stack0), (u64_small 4096), (u64_small (c MHARTID + 1)) by lia.
    rewrite -> (u64_small (4096 * _)) by lia. rewrite -> u64_small by lia. lia. }
  rewrite -> (bind_Ret _ _ _ _ _ E). by eexists.
Qed.

(** C23. Booting and the timer. From [_entry], hart [id] runs [start] with the
    stack pointer at the end of its own page of the boot stacks. [start] enables
    machine-mode interrupts and the timer's, and enters [main] in supervisor
    mode with paging off, traps delegated, supervisor interrupts enabled, the
    hart's number in [tp] and every other register, the stack pointer among them,
    as it was (below it is the frame that the compiler gives [start]). From then
    on, whatever the kernel and the user programs do outside the registers of
    machine mode and the words that belong to the timer, timer interrupts stay
    enabled; after [n] of them the next one is due [n + 1] intervals after the
    time of [start]; and [timervec] returns to the code it interrupted, at its
    privilege and with all its registers, leaving a software interrupt pending
    for the kernel. *)
Theorem timer_ticks s0 :
  0 ≤ m_csr s0 MHARTID < Z.of_nat NCPU → KERNBASE ≤ stack0 ≤ PHYSTOP →
  let id := m_csr s0 MHARTID in
  ∃ s sm s1, _entry s0 = start s ∧ m_reg s SP = stack0 + 4096 * (id + 1) ∧
    start s = mret_instr sm ∧ enabled sm ∧ mret_instr sm = Ret tt s1 ∧
    started id s s1 ∧ m_reg s1 SP = stack0 + 4096 * (id + 1) ∧
    ∀ n s, run id n s1 s → timer_on s ∧
      m_mem s !! CLINT_MTIMECMP id = Some (u64 (default 0 (m_mem s0 !! CLINT_MTIME) + Z.of_nat (S n) * interval)) ∧
      ∃ s', timervec (trap_m s) = Ret tt s' ∧ m_pc s' = m_pc s ∧ m_priv s' = m_priv s ∧
        (∀ r, m_reg s' r = m_reg s r) ∧ m_csr s' SIP = SIE_SSIE.
Proof.
  intros Hid Hst id. destruct (boot_entry s0 Hid Hst) as (s & E0 & Hc & Hm & Hsp). rewrite <- Hc in Hid.
  destruct (start_ok s Hid) as (sm & s1 & E & Hen & Er & Hsd & Ha). rewrite -> Hc in Hsd, Ha, Hid.
  rewrite -> Hm in Ha. fold id in Hsd, Ha, Hsp, Hid.
  exists s, sm, s1. split_and!; try done; [by rewrite -> (sd_regs _ _ _ Hsd)|].
  intros n s2 Hr. pose proof (run_armed id _ s1 n s2 Hid Ha Hr) as Hs.
  destruct (timervec_ok id _ s2 Hid Hs) as (s' & Ev & _ & F). split; [|split; [|by exists s']].
  - split; [apply (ar_mie _ _ _ Hs)|]. destruct (ar_priv _ _ _ Hs); lia.
  - rewrite -> (ar_cmp _ _ _ Hs). f_equal. apply iter_deadline.
Qed.
End start.

(** Hart 3, before [_entry]. *)
Definition mach0 : mach := Mach (λ c, if decide (c = MHARTID) then 3 else 0) (λ _, 0) {[CLINT_MTIME := 42]} 0 3.

Lemma timer_ticks_witness :
  ∃ s s1, _entry (λ _ _, None) 0x80001000 0x80005000 0x80009000 0x8000a000 mach0 = start 0x80001000 0x80005000 0x80009000 s ∧
    start 0x80001000 0x80005000 0x80009000 s = Ret tt s1 ∧ m_pc s1 = 0x80001000 ∧ m_reg s1 TP = 3 ∧
    m_reg s1 SP = 0x8000e000 ∧ timer_on s1 ∧ m_mem s1 !! CLINT_MTIMECMP 3 = Some 1000042.
Proof.
  destruct (timer_ticks (λ _ _, None) 0x80001000 0x80005000 0x80009000 0x8000a000 ltac:(unfold PHYSTOP, KERNBASE; lia) mach0)
    as (s & sm & s1 & E0 & _ & E & _ & Er & [H1 _ H3 _ _ _ _] & Hsp & H).
  - by vm_compute.
  - unfold PHYSTOP, KERNBASE. lia.
  - exists s, s1. split; [exact E0|]. split; [rewrite -> E; exact Er|]. split; [exact H1|]. split; [exact H3|]. split; [exact Hsp|].
    destruct (H 0%nat s1 (run_refl _ _ _ s1)) as (Ht & Hm & _). split; [exact Ht|exact Hm].
Defined.
