(* ===== verification/Grind.v ===== *)
(** * Random system calls (user/grind.c)

    The generator of random numbers and the loop that makes system calls by
    them. The state has [rand_next] and the world of the system calls. *)

From Stdlib Require Import Znumtheory Zpow_facts.
From S2P Require Import Prelude Riscv KState KString Layout User Ulib Utils.
Open Scope Z_scope.

(** ** do_rand *)

(** The new [*ctx] and the result. [wrap] is the conversion to the type in which
    the numbers are computed, applied to the value of each operation; [/] and
    [%] of C truncate. *)
Definition do_rand_in (wrap : Z → Z) (ctx : Z) : Z * Z :=
  let x := wrap (u64 (ctx mod 0x7ffffffe + 1)) in
  let hi := wrap (Z.quot x 127773) in
  let lo := wrap (Z.rem x 127773) in
  let x := wrap (wrap (16807 * lo) - wrap (2836 * hi)) in
  let x := if x <? 0 then wrap (x + 0x7fffffff) else x in
  let x := wrap (x - 1) in
  (u64 x, i32 x).
(** [hi], [lo] and [x] are [long]. *)
Definition do_rand (ctx : Z) : Z * Z := do_rand_in i64 ctx.

Record gst (W : Type) : Type := Gst { g_rand_next : Z; g_world : W }.
Arguments Gst {W} _ _.
Arguments g_rand_next {W} _.
Arguments g_world {W} _.

Section grind.
Context {W} `{!Unix W} (fuel : nat).
Abbreviation G := (M (gst W)).

Definition sys {A} (m : M W A) : G A := zoom g_world (λ w s, Gst (g_rand_next s) w) m.
Definition sys_ {A} (m : M W A) : G unit := sys m ;; mret tt.
Definition rand : G Z := λ s, let '(ctx, x) := do_rand (g_rand_next s) in Ret x (Gst ctx (g_world s)).
Definition srand (x : Z) : G unit := modify (λ s, Gst x (g_world s)).

Definition O_CR : Z := Z.lor O_CREATE O_RDWR.
Definition say (s : string) : G unit := sys (printf (ln_ s) []).
Definition warn (s : string) : G unit := sys (fprintf 2 (ln_ s) []).
Definition gexit {A} (n : Z) : G A := stop_with (Exit n).
(** [close(open(path, O_CREATE|O_RDWR))] *)
Definition touch (path : string) : G unit := fd ← sys (open (str path) O_CR); sys_ (close fd).
Definition rm (path : string) : G unit := sys_ (unlink (str path)).

(** [fork], where the child runs [child] and exits, and a failure exits. *)
Definition fork_child (child : G unit) : G Z :=
  pid ← sys fork;
  if pid =? 0 then child ;; gexit 0
  else if pid <? 0 then say "grind: fork failed" ;; gexit 1
  else mret pid.

(** ** go *)

(** [fd] and the static [buf]. *)
Abbreviation gvars := (Z * list Z)%type.

(** [what] from 1 to 12: files. *)
Definition go_files (what : Z) (v : gvars) : G gvars :=
  let '(fd, buf) := v in
  if what =? 1 then touch "grindir/../a" ;; mret v
  else if what =? 2 then touch "grindir/../grindir/../b" ;; mret v
  else if what =? 3 then rm "grindir/../a" ;; mret v
  else if what =? 4 then
    r ← sys (chdir (str "grindir"));
    whenM (negb (r =? 0)) (say "grind: chdir grindir failed" ;; gexit 1) ;;
    rm "../b" ;;
    sys (chdir (str "/")) ;;
    mret v
  else if what =? 5 then
    sys (close fd) ;;
    fd ← sys (open (str "/grindir/../a") O_CR);
    mret (fd, buf)
  else if what =? 6 then
    sys (close fd) ;;
    fd ← sys (open (str "/./grindir/./../b") O_CR);
    mret (fd, buf)
  else if what =? 7 then sys (write fd buf) ;; mret v
  else if what =? 8 then
    r ← sys (read fd 999);
    mret (fd, r.2 ++ drop (length r.2) buf)
  else if what =? 9 then
    sys (mkdir (str "grindir/../a")) ;;
    touch "a/../a/./a" ;;
    rm "a/a" ;;
    mret v
  else if what =? 10 then
    sys (mkdir (str "/../b")) ;;
    touch "grindir/../b/b" ;;
    rm "b/b" ;;
    mret v
  else if what =? 11 then
    rm "b" ;;
    sys (link (str "../grindir/./../a") (str "../b")) ;;
    mret v
  else if what =? 12 then
    rm "../grindir/../a" ;;
    sys (link (str ".././b") (str "/grindir/../a")) ;;
    mret v
  else mret v.

(** [what] from 13 to 20: processes, memory and pipes. *)
Definition go_procs (break0 what : Z) : G unit :=
  if what =? 13 then fork_child (mret tt) ;; sys_ wait
  else if what =? 14 then fork_child (sys fork ;; sys_ fork) ;; sys_ wait
  else if what =? 15 then sys_ (sbrk 6011)
  else if what =? 16 then
    b ← sys (sbrk 0);
    whenM (u64 break0 <? u64 b)
      (b ← sys (sbrk 0);
       sys_ (sbrk (i32 (- (b - break0)))))
  else if what =? 17 then
    pid ← fork_child (touch "a");
    r ← sys (chdir (str "../grindir/.."));
    whenM (negb (r =? 0)) (say "grind: chdir failed" ;; gexit 1) ;;
    sys (kill pid) ;;
    sys_ wait
  else if what =? 18 then
    fork_child (p ← sys getpid; sys_ (kill p)) ;;
    sys_ wait
  else if what =? 19 then
    r ← sys pipe;
    let '(n, fds0, fds1) := r in
    whenM (n <? 0) (say "grind: pipe failed" ;; gexit 1) ;;
    fork_child
      (sys fork ;;
       sys fork ;;
       n ← sys (write fds1 (str "x"));
       whenM (negb (n =? 1)) (say "grind: pipe write failed") ;;
       c ← sys (read fds0 1);
       whenM (negb (c.1 =? 1)) (say "grind: pipe read failed")) ;;
    sys (close fds0) ;;
    sys (close fds1) ;;
    sys_ wait
  else if what =? 20 then
    fork_child
      (rm "a" ;;
       sys (mkdir (str "a")) ;;
       sys (chdir (str "a")) ;;
       rm "../a" ;;
       sys (open (str "x") O_CR) ;;
       rm "x") ;;
    sys_ wait
  else mret tt.

(** [what == 21] *)
Definition go_check : G unit :=
  rm "c" ;;
  fd1 ← sys (open (str "c") O_CR);
  whenM (fd1 <? 0) (say "grind: create c failed" ;; gexit 1) ;;
  n ← sys (write fd1 (str "x"));
  whenM (negb (n =? 1)) (say "grind: write c failed" ;; gexit 1) ;;
  r ← sys (fstat fd1);
  whenM (negb (r.1 =? 0)) (say "grind: fstat failed" ;; gexit 1) ;;
  whenM (negb (us_size r.2 =? 1))
    (sys (printf (ln_ "grind: fstat reports wrong size %d") [AInt (i32 (us_size r.2))]) ;; gexit 1) ;;
  whenM (200 <? us_ino r.2)
    (sys (printf (ln_ "grind: fstat reports crazy i-number %d") [AInt (i32 (us_ino r.2))]) ;; gexit 1) ;;
  sys (close fd1) ;;
  rm "c".

(** [what == 22]: [echo hi | cat] *)
Definition echo_child (aa0 aa1 bb0 bb1 : Z) : G unit :=
  sys (close bb0) ;;
  sys (close bb1) ;;
  sys (close aa0) ;;
  sys (close 1) ;;
  n ← sys (dup aa1);
  whenM (negb (n =? 1)) (warn "grind: dup failed" ;; gexit 1) ;;
  sys (close aa1) ;;
  sys (exec (str "grindir/../echo") [str "echo"; str "hi"]) ;;
  warn "grind: echo: not found" ;;
  gexit 2.
Definition cat_child (aa0 aa1 bb0 bb1 : Z) : G unit :=
  sys (close aa1) ;;
  sys (close bb0) ;;
  sys (close 0) ;;
  n ← sys (dup aa0);
  whenM (negb (n =? 0)) (warn "grind: dup failed" ;; gexit 4) ;;
  sys (close aa0) ;;
  sys (close 1) ;;
  n ← sys (dup bb1);
  whenM (negb (n =? 1)) (warn "grind: dup failed" ;; gexit 5) ;;
  sys (close bb1) ;;
  sys (exec (str "/cat") [str "cat"]) ;;
  warn "grind: cat: not found" ;;
  gexit 6.
(** [read(fd, buf+i, 1)] *)
Definition read_at (fd : Z) (buf : list Z) (i : nat) : G (list Z) :=
  r ← sys (read fd 1);
  mret (take i buf ++ r.2 ++ drop (i + length r.2) buf).
Definition go_pipeline : G unit :=
  a ← sys pipe;
  let '(n, aa0, aa1) := a in
  whenM (n <? 0) (warn "grind: pipe failed" ;; gexit 1) ;;
  b ← sys pipe;
  let '(n, bb0, bb1) := b in
  whenM (n <? 0) (warn "grind: pipe failed" ;; gexit 1) ;;
  pid1 ← sys fork;
  whenM (pid1 =? 0) (echo_child aa0 aa1 bb0 bb1) ;;
  whenM (pid1 <? 0) (warn "grind: fork failed" ;; gexit 3) ;;
  pid2 ← sys fork;
  whenM (pid2 =? 0) (cat_child aa0 aa1 bb0 bb1) ;;
  whenM (pid2 <? 0) (warn "grind: fork failed" ;; gexit 7) ;;
  sys (close aa0) ;;
  sys (close aa1) ;;
  sys (close bb1) ;;
  buf ← read_at bb0 [0; 0; 0; 0] 0;
  buf ← read_at bb0 buf 1;
  buf ← read_at bb0 buf 2;
  sys (close bb0) ;;
  s1 ← sys wait;
  s2 ← sys wait;
  whenM (negb (s1.2 =? 0) || negb (s2.2 =? 0) || negb (strcmp buf (ln_ "hi") =? 0))
    (sys (printf (str "grind: exec pipeline failed %d %d " ++ [34] ++ str "%s" ++ [34; 10])
       [AInt s1.2; AInt s2.2; AStr (Some (cstr buf))]) ;; gexit 1).

(** One iteration: [fd], [buf] and [iters]. *)
Definition go_body (which_child break0 : Z) (x : gvars * Z) : G (gvars * Z + unit) :=
  let '(v, iters) := x in
  let iters := u64 (iters + 1) in
  whenM (iters mod 500 =? 0) (sys_ (write 1 (if negb (which_child =? 0) then str "B" else str "A"))) ;;
  r ← rand;
  let what := Z.rem r 23 in
  v ← go_files what v;
  go_procs break0 what ;;
  whenM (what =? 21) go_check ;;
  whenM (what =? 22) go_pipeline ;;
  mret (inl (v, iters)).
Definition go (which_child : Z) : G unit :=
  break0 ← sys (sbrk 0);
  sys (mkdir (str "grindir")) ;;
  r ← sys (chdir (str "grindir"));
  whenM (negb (r =? 0)) (say "grind: chdir grindir failed" ;; gexit 1) ;;
  sys (chdir (str "/")) ;;
  loopM fuel (go_body which_child break0) ((-1, replicate 999 0), 0).

Definition iter : G unit :=
  rm "a" ;;
  rm "b" ;;
  pid1 ← sys fork;
  whenM (pid1 <? 0) (say "grind: fork failed" ;; gexit 1) ;;
  whenM (pid1 =? 0) (srand 31 ;; go 0 ;; gexit 0) ;;
  pid2 ← sys fork;
  whenM (pid2 <? 0) (say "grind: fork failed" ;; gexit 1) ;;
  whenM (pid2 =? 0) (srand 7177 ;; go 1 ;; gexit 0) ;;
  s1 ← sys wait;
  let st1 := if s1.1 <? 0 then -1 else s1.2 in
  whenM (negb (st1 =? 0)) (sys (kill pid1) ;; sys_ (kill pid2)) ;;
  sys wait ;;
  gexit 0.

Definition main_body (_ : unit) : G (unit + unit) :=
  pid ← sys fork;
  whenM (pid =? 0) (iter ;; gexit 0) ;;
  whenM (0 <? pid) (sys_ wait) ;;
  sys (sleep 20) ;;
  mret (inl tt).
Definition main_grind : G unit := loopM fuel main_body tt.
End grind.

(** ** Theorems *)

(** *** The sequence of random numbers *)

Definition P31 : Z := 2147483647.

(** Schrage's method: the remainder without a product above [2 ^ 31]. *)
Lemma schrage x : 1 ≤ x < P31 →
  let y := 16807 * (x mod 127773) - 2836 * (x / 127773) in
  - P31 < y < P31 ∧ (if y <? 0 then y + P31 else y) = (16807 * x) mod P31 ∧ (16807 * x) mod P31 ≠ 0.
Proof.
  intros Hx y. unfold P31 in *.
  assert (16807 * x = 2147483647 * (x / 127773) + y) as E by (unfold y; zlia).
  assert (- 2147483647 < y < 2147483647) as Hy by (unfold y; zlia).
  assert (y ≠ 0) as H0.
  { intros Ey. rewrite -> Ey, Z.add_0_r in E. assert ((2147483647 | x)) as [k Hk]; [|lia].
    apply (Z.gauss _ 16807); [exists (x / 127773); lia|by vm_compute]. }
  assert ((if y <? 0 then y + 2147483647 else y) = (16807 * x) mod 2147483647) as Em.
  { destruct (Z.ltb_spec y 0).
    - apply (Z.mod_unique_pos _ _ (x / 127773 - 1)); lia.
    - apply (Z.mod_unique_pos _ _ (x / 127773)); lia. }
  split; [lia|]. split; [done|]. rewrite <- Em. destruct (Z.ltb_spec y 0); lia.
Qed.

(** Whatever the type: its conversion may be anything outside of 31 bits and a
    sign. *)
Lemma do_rand_in_eq wrap x : (∀ v, - 2 ^ 31 < v < 2 ^ 31 → wrap v = v) → 1 ≤ x < P31 →
  do_rand_in wrap (x - 1) = ((16807 * x) mod P31 - 1, (16807 * x) mod P31 - 1).
Proof.
  intros Hw Hx. destruct (schrage x Hx) as (Hy & E & H0).
  assert (0 ≤ (16807 * x) mod P31 < P31) as Hr by (apply Z.mod_pos_bound; done).
  unfold do_rand_in. change 0x7ffffffe with (P31 - 1). change 0x7fffffff with P31. unfold P31 in *.
  rewrite -> (Z.mod_small (x - 1)) by lia. replace (x - 1 + 1) with x by lia. rewrite -> (u64_small x), (Hw x) by lia.
  rewrite -> Z.quot_div_nonneg, Z.rem_mod_nonneg by lia.
  rewrite -> (Hw (x / 127773)), (Hw (x mod 127773)) by zlia.
  rewrite -> (Hw (16807 * _)), (Hw (2836 * _)) by zlia. rewrite -> (Hw (_ - 2836 * _)) by lia.
  set (y := 16807 * (x mod 127773) - 2836 * (x / 127773)) in *.
  replace (if y <? 0 then wrap (y + 2147483647) else y) with ((16807 * x) mod 2147483647).
  2: { rewrite <- E. destruct (Z.ltb_spec y 0); [|done]. by rewrite -> Hw by lia. }
  rewrite -> Hw by lia. f_equal; [apply u64_small|apply i32_small]; lia.
Qed.

Lemma do_rand_eq x : 1 ≤ x < P31 →
  do_rand (x - 1) = ((16807 * x) mod P31 - 1, (16807 * x) mod P31 - 1) ∧ 1 ≤ (16807 * x) mod P31 < P31.
Proof.
  intros Hx. destruct (schrage x Hx) as (_ & _ & H0).
  assert (0 ≤ (16807 * x) mod P31 < P31) as Hr by (apply Z.mod_pos_bound; done). split; [|lia].
  apply do_rand_in_eq; [|done]. intros v Hv. apply i64_small. lia.
Qed.

(** [n] calls of [rand], and the state after them. *)
Lemma rand_iter {W} (w : W) n x : 1 ≤ x < P31 →
  Nat.iter n (λ m, m ;; rand ;; mret tt) (mret tt) (Gst (x - 1) w)
  = Ret tt (Gst ((16807 ^ Z.of_nat n * x) mod P31 - 1) w) ∧ 1 ≤ (16807 ^ Z.of_nat n * x) mod P31 < P31.
Proof.
  intros Hx. induction n as [|n [IH Hb]].
  - change (16807 ^ Z.of_nat 0) with 1. rewrite -> Z.mul_1_l, (Z.mod_small x) by lia. done.
  - rewrite -> Nat.iter_succ, (bind_Ret _ _ _ _ _ IH). destruct (do_rand_eq _ Hb) as [E Hb'].
    replace ((16807 ^ Z.of_nat (S n) * x) mod P31) with ((16807 * ((16807 ^ Z.of_nat n * x) mod P31)) mod P31).
    + split; [|done]. unfold rand, mbind, M_bind. cbn [g_rand_next g_world]. rewrite -> E. done.
    + rewrite -> Z.mul_mod_idemp_r by done. f_equal. rewrite -> Nat2Z.inj_succ, Z.pow_succ_r by lia. lia.
Qed.

(** *** The order of 16807 modulo [2 ^ 31 - 1] *)

Definition unit_at (k : Z) : Prop := 0 ≤ k ∧ (16807 ^ k) mod P31 = 1.

Lemma unit_at_pow k : 0 ≤ k → unit_at k ↔ Zpow_mod 16807 k P31 = 1.
Proof. intros Hk. unfold unit_at. rewrite -> Zpow_mod_correct by done. intuition. Qed.

Lemma unit_at_add a b : 0 ≤ b → unit_at a → unit_at b ↔ unit_at (a + b).
Proof.
  intros Hb [Ha E]. unfold unit_at. rewrite -> Z.pow_add_r by lia.
  rewrite <- Z.mul_mod_idemp_l, -> E, Z.mul_1_l by done. intuition lia.
Qed.

Lemma unit_at_mul a n : 0 ≤ n → unit_at a → unit_at (n * a).
Proof.
  intros Hn Ha. revert n Hn. apply natlike_ind; [done|]. intros n Hn IH.
  replace (Z.succ n * a) with (a + n * a) by lia. apply unit_at_add; [|done..]. destruct Ha. lia.
Qed.

Lemma unit_at_gcd a b : unit_at a → unit_at b → unit_at (Z.gcd a b).
Proof.
  intros Ha Hb. assert (0 ≤ b) as Hb0 by apply Hb. revert b Hb0 a Ha Hb.
  refine (Z_lt_induction _ _). intros b IH a Ha Hb.
  destruct (decide (b = 0)) as [->|Hne]; [rewrite -> Z.gcd_0_r, Z.abs_eq; [done|apply Ha]|].
  assert (0 < b) as Hpos by (destruct Hb; lia). rewrite -> Z.gcd_comm, <- Z.gcd_mod, -> Z.gcd_comm by lia.
  apply IH; [apply Z.mod_pos_bound; lia|done|].
  apply (unit_at_add (a / b * b)); [apply Z.mod_pos_bound; lia|apply unit_at_mul; [|done]|].
  - destruct Ha. apply Z.div_pos; lia.
  - replace (a / b * b + a mod b) with a by (pose proof (Z.div_mod a b); lia). done.
Qed.

(** Trial division up to the square root. *)
Fixpoint trial (p d : Z) (n : nat) : bool :=
  match n with O => true | S n => (negb (p mod d =? 0) || (p <=? d)) && trial p (d + 1) n end.

Lemma trial_spec p d n x : trial p d n = true → d ≤ x < d + Z.of_nat n → x < p → ¬ (x | p).
Proof.
  revert d. induction n as [|n IH]; intros d H Hx Hp; [lia|].
  cbn [trial] in H. apply andb_true_iff in H as [H Hrec].
  destruct (decide (x = d)) as [->|Hne]; [|apply (IH (d + 1)); [done|lia..]].
  intros Hdiv. apply Z.mod0_divide in Hdiv. rewrite -> Hdiv in H. cbn in H. lia.
Qed.

Lemma prime_trial p n : 1 < p → p < (Z.of_nat n + 2) * (Z.of_nat n + 2) → trial p 2 n = true → Z.prime p.
Proof.
  intros Hp Hn Hall. split; [done|]. pose proof (λ x, trial_spec _ _ _ x Hall) as Hsmall.
  intros d Hd Hdiv. destruct (decide (d < Z.of_nat n + 2)); [apply (Hsmall d); [lia..|done]|].
  destruct Hdiv as [e He]. apply (Hsmall e); [nia|nia|]. exists d. lia.
Qed.

Lemma P31_prime : Z.prime P31.
Proof.
  apply (prime_trial _ (Z.to_nat 46340)); [done| |by vm_compute].
  rewrite -> Z2Nat.id by done. done.
Qed.

(** The prime factors of [2 ^ 31 - 2]. *)
Definition factors : list Z := [2; 3; 3; 7; 11; 31; 151; 331].

Lemma factors_prime : Forall Z.prime factors.
Proof. repeat constructor; try lia; apply (prime_trial _ 30); vm_compute; done. Qed.

Lemma unit_at_full : unit_at (P31 - 1) ∧ Forall (λ q, ¬ unit_at ((P31 - 1) / q)) factors.
Proof.
  split; [apply unit_at_pow; [done|by vm_compute]|].
  repeat constructor; rw unit_at_pow; by vm_compute.
Qed.

Lemma coprime_factors m l :
  Forall Z.prime l → Forall (λ q, ¬ (q | m)) l → Z.coprime m (foldr Z.mul 1 l).
Proof.
  induction l as [|q l IH]; intros Hp Hn; cbn; [apply Z.gcd_1_r|].
  inversion_clear Hp. inversion_clear Hn. apply Z.coprime_mul_r; [|by apply IH].
  apply Z.Symmetric_coprime, Z.coprime_prime_l; done.
Qed.

Lemma unit_at_order k : unit_at k ↔ 0 ≤ k ∧ (P31 - 1 | k).
Proof.
  destruct unit_at_full as [Hfull Hq]. split.
  2:{ intros [Hk [n ->]]. apply unit_at_mul; [|done]. unfold P31 in *. lia. }
  intros Hk. split; [apply Hk|]. pose proof (unit_at_gcd _ _ Hk Hfull) as Hg.
  destruct (Z.gcd_divide_r k (P31 - 1)) as [m Hm]. set (g := Z.gcd k (P31 - 1)) in *.
  assert (0 < m) as Hm0 by (destruct Hg; unfold P31 in *; nia).
  assert (Z.coprime m (P31 - 1)) as Hrel.
  { apply (coprime_factors m factors); [apply factors_prime|]. pose proof factors_prime as Hpr.
    rewrite -> Forall_forall in Hq, Hpr |- *. intros q Hin [n ->]. apply (Hq q Hin).
    assert (2 ≤ q) as Hq1 by apply Z.prime_ge_2, Hpr, Hin.
    rewrite -> Hm. replace (n * q * g) with (n * g * q) by lia. rewrite -> Z.div_mul by lia.
    apply unit_at_mul; [nia|done]. }
  assert ((m | 1)) as H1 by (rewrite <- Hrel; apply Z.gcd_greatest; [done|exists g; lia]).
  apply Z.divide_1_r_nonneg in H1 as ->; [|lia].
  rewrite -> Hm, Z.mul_1_l. apply Z.gcd_divide_l.
Qed.

Lemma rand_period k x : 0 ≤ k → 1 ≤ x < P31 → (16807 ^ k * x) mod P31 = x ↔ (P31 - 1 | k).
Proof.
  intros Hk Hx. trans (unit_at k); [|rw unit_at_order; intuition].
  assert (Z.coprime P31 x) as Hc by (apply Z.coprime_prime_small; [apply P31_prime|done]).
  unfold unit_at. split.
  - intros E. split; [done|]. assert ((P31 | 16807 ^ k - 1)) as [q Hq].
    { apply (Z.gauss _ x); [|exact Hc]. exists ((16807 ^ k * x) / P31).
      pose proof (Z.div_mod (16807 ^ k * x) P31 ltac:(done)). lia. }
    replace (16807 ^ k) with (1 + q * P31) by lia. rewrite -> Z.mod_add by done. done.
  - intros [_ E]. rewrite <- Z.mul_mod_idemp_l, -> E, Z.mul_1_l, Z.mod_small by (done || lia). done.
Qed.

(** C35. [rand] is the generator of Park and Miller, computed without overflow
    of 31 bits: from any seed in its range, [n] calls leave [rand_next + 1] at
    [16807 ^ n * (seed + 1) mod (2 ^ 31 - 1)], the next call returns the next
    element of that sequence, in [0, 0x7ffffffd]; no operation of that call has
    a value outside of 31 bits and a sign, since [do_rand] gives the same in any
    type that has these values, whatever the type makes of others; and the
    generator has full period, it is back at the seed exactly when [n] is a
    multiple of [2 ^ 31 - 2]. *)
Theorem rand_full_period {W} (w : W) (n : nat) (seed : Z) : 0 ≤ seed ≤ 0x7ffffffd →
  let next k := (16807 ^ Z.of_nat k * (seed + 1)) mod (2 ^ 31 - 1) - 1 in
  Nat.iter n (λ m, m ;; rand ;; mret tt) (mret tt) (Gst seed w) = Ret tt (Gst (next n) w) ∧
  rand (Gst (next n) w) = Ret (next (S n)) (Gst (next (S n)) w) ∧
  (∀ wrap, (∀ v, - 2 ^ 31 < v < 2 ^ 31 → wrap v = v) → do_rand_in wrap (next n) = do_rand (next n)) ∧
  0 ≤ next n ≤ 0x7ffffffd ∧ (next n = seed ↔ (2 ^ 31 - 2 | Z.of_nat n)).
Proof.
  intros Hs next. change (2 ^ 31 - 1) with P31 in *. change (2 ^ 31 - 2) with (P31 - 1).
  assert (1 ≤ seed + 1 < P31) as Hx by (unfold P31; lia).
  destruct (rand_iter w n (seed + 1) Hx) as [E Hb]. destruct (rand_iter w (S n) (seed + 1) Hx) as [E' _].
  replace (seed + 1 - 1) with seed in E, E' by lia. split; [exact E|].
  destruct (do_rand_eq _ Hb) as [Er _]. split; [|split; [|split]].
  - unfold rand. cbn [g_rand_next g_world]. unfold next at 1. rewrite -> Er.
    replace ((16807 * ((16807 ^ Z.of_nat n * (seed + 1)) mod P31)) mod P31 - 1) with (next (S n)); [done|].
    unfold next. rewrite -> Z.mul_mod_idemp_r, Nat2Z.inj_succ, Z.pow_succ_r by (done || lia). f_equal. f_equal. lia.
  - intros wrap Hw. unfold next. rewrite -> Er. by apply do_rand_in_eq.
  - unfold next. unfold P31 in *. lia.
  - rewrite <- (rand_period (Z.of_nat n) (seed + 1)) by lia. unfold next. lia.
Qed.
Lemma rand_full_period_witness :
  rand (Gst 31 tt) = Ret 537823 (Gst 537823 tt) ∧
  (16807 ^ Z.of_nat 10 * (31 + 1)) mod (2 ^ 31 - 1) - 1 ≠ 31.
Proof.
  split; [exact (proj1 (proj2 (rand_full_period tt 0 31 ltac:(done))))|].
  destruct (rand_full_period tt 10 31 ltac:(done)) as (_ & _ & _ & _ & [H _]).
  intros E. destruct (H E) as [k Hk]. clear - Hk. lia.
Defined.
